(* ===== verification/_CoqProject ===== *)
-Q . S2P
Prelude.v
GoStrings.v
GoUtf8.v
GoPath.v
GoNet.v
IpText.v
Paths.v
Http.v
Netutil.v
I18n.v
AccessControl.v
RateLimit.v
LruCache.v
CacheBackends.v
Csrf.v
Telemetry.v
Complexity.v
Negotiate.v
Limits.v
Maintenance.v
AccessPolicy.v
Scheduler.v
GoTime.v
LogFormat.v
LogFiles.v
LogManager.v
Backup.v
BackupArchive.v
ListenerHub.v
HotReload.v
SecurityHeaders.v
GoUrl.v
Settings.v
Tracking.v
Config.v
Geo.v
Preferences.v
Updater.v
Fetch.v
Notify.v
Email.v
PidFile.v
Endpoints.v
Health.v
OpsEndpoints.v
DataSources.v
Cve.v
Restore.v
Startup.v
Alerts.v
Mcp.v
Html2Text.v
Transact.v
Secrets.v
Reports.v
Submission.v
KeyStore.v
Onion.v
Overlay.v
TorManager.v
TorControl.v
I2p.v
Certs.v
