(* ===== verification/Prelude.v ===== *)
(** * Verification of ipgaze

    ipgaze is an HTTP service that answers with the address of its client and
    what is known about that address.  The program under [src/src] is a chain
    of middleware in front of handlers ([server/]), helpers that decide who
    the client is ([netutil/]), which paths are acceptable ([paths/]) and
    which language to answer in ([common/i18n/]), address lists
    ([blocklist/], [threat/]), caches ([server/cache.go], [cache/]), limits
    on GraphQL queries ([graphql/complexity.go]), telemetry
    ([server/reqstats.go], [server/metrics/]), configuration and its reload
    ([config/]), logging with rotation ([log/]), backups
    ([backup_retention.go], [backup_crypto.go]), a scheduler ([scheduler/]),
    notifications and mail ([notify/], [email/]), self-update ([updater/],
    [client/updater/]), the listener that survives reloads
    ([netutil/listener_hub.go]), sealed reports of security problems with the
    keys they are sealed with ([security/], [pgp/]), certificates ([ssl/]) and
    the overlay networks the service is also reached through ([tor/], [i2p/]).

    ** How a request flows, and where it is modelled

    [server/http.go] installs the middleware in this order:
    panic recovery ([SecurityHeaders.RecoverMiddleware]); URL normalisation,
    request identifier, path security ([Negotiate.front_chain]); the body
    limit ([Limits]); security headers ([SecurityHeaders]); client address,
    allowlist, blocklist ([AccessControl]); rate limit ([RateLimit]);
    maintenance mode ([Maintenance]); country filter
    ([AccessPolicy.access_chain] composes these, limiter and maintenance
    included, behind the front of the chain); logging;
    statistics ([Telemetry.ReqStats]); language ([I18n]); CSRF ([Csrf]);
    compression ([Limits]).  Handlers read the client's address with
    [Negotiate.ipFromRequest] and look it up through [LruCache.Lookup]; the
    routes that answer about an address are [Endpoints], over the databases of
    [Geo]; health reports are [Health], the routes for scrapers, browsers'
    reports and client binaries [OpsEndpoints]; the pages for visitors keep
    their choices in cookies ([Preferences], [Tracking]), and a report of a
    security problem goes through [Submission].

    A handler is a function from a request and the state of its component to
    the new state and the list of visible effects ([Http.handler],
    [Http.effect]); a middleware is a function on handlers, so the chain is
    composition as in the source.

    ** Files

    - [Prelude]: Go strings as byte lists, results, tactics, the hint
      database, list and integer lemmas.
    - [GoStrings], [GoUtf8], [GoPath], [GoNet], [GoTime], [GoUrl]: the parts of
      [strings], [strconv], [unicode/utf8], [path/filepath], [net], [time],
      [net/url] and [encoding/base64] the program uses.  Case mapping of
      non-ASCII text is the class [UnicodeTables], the checks on the host part
      of a URL the class [Authority].
    - [IpText]: printing and parsing an address are inverse ([ParseIP_String]).
    - [Http]: requests, contexts, headers, cookies, effects, handlers.
    - [Paths]: [paths/safe.go].  [PidFile]: [paths/pid.go], [paths/pid_unix.go].
    - [Netutil]: [netutil/trust.go], [netutil/proxy.go], [netutil/fqdn.go];
      interfaces, environment and name lookups are the record [host_env].
    - [I18n]: [common/i18n/i18n.go], [common/i18n/middleware.go] and
      [LangMiddleware]; locale files are JSON trees.
    - [AccessControl]: [server/middleware_allowlist.go],
      [middleware_blocklist.go], [middleware_geoip.go],
      [blocklist/blocklist.go], [threat/threat.go], [sanitizeLogValue].
    - [RateLimit]: [server/ratelimit.go].  The token bucket of
      golang.org/x/time/rate is the class [TokenBucket] with its documented
      behaviour in [TokenBucketLaws]; a concrete bucket satisfies them.
    - [LruCache]: [server/cache.go] and [Lookup] of [server/service/ip.go].
      The list and the map of the cache share element identities.
    - [CacheBackends]: [cache/cache.go]; [CacheOps] is the interface the
      backends implement and against which its clients are verified.
    - [Csrf]: [server/middleware_csrf.go].
    - [Telemetry]: modules [ReqStats] ([server/reqstats.go]), [LogBuffer]
      ([server/metrics/logbuffer.go]) and [Ulid] ([log/ulid.go]).
    - [Complexity]: [graphql/complexity.go] over the syntax trees of the
      parser library; the parser is an argument.
    - [Negotiate]: [common/httputil/detect.go], [server/request.go],
      [server/error.go], and the middleware of [server/middleware.go] that
      looks at the URL or prepares text for the logs.
    - [Limits]: [server/middleware_limits.go].
    - [Maintenance]: [server/middleware_maintenance.go]; requests, monitors and
      starts of monitors interleave.
    - [AccessPolicy]: the part of the chain of [server/http.go] that decides
      whether a request is served.
    - [SecurityHeaders]: the rest of [server/middleware.go] and
      [server/middleware_headers.go].
    - [Scheduler]: [scheduler/scheduler.go]; the cron library is a class with
      its documented laws, the table of tasks a map.
    - [LogFormat], [LogFiles], [LogManager]: [log/format.go],
      [log/rotate.go], [log/manager.go] over a file system with failing calls.
    - [Backup], [BackupArchive]: [backup_retention.go], [backup_crypto.go]; the
      cipher and the hash are parameters.
    - [ListenerHub]: [netutil/listener_hub.go] as a step relation.
    - [Settings], [Config], [HotReload]: [config/bool.go], [config/config.go],
      [config/hot_reload.go]; the YAML decoder is a parameter, configurations
      are compared and merged as reflected values.
    - [Tracking], [Preferences]: the consent, analytics and preference parts of
      [server/handler/pages.go], [tracking.go], [guest_preferences.go] and
      [server/theme.go].
    - [Updater]: [updater/update.go], [updater/replace_unix.go] and, in its
      module [Cli], [client/updater/update.go]; the network is a function.
    - [Fetch]: [common/urlutil/fetch.go], [common/urlutil/encode.go].
    - [Notify]: [notify/notify.go], [notify/dispatch.go]; the keyed hash is a
      parameter.
    - [Email]: [email/email.go], [email/smtp.go]; SMTP is the trace of commands.
    - [Cve]: [cve/cve.go]; an update is the list of file systems it goes through.
    - [Restore]: the restore command of [main.go] with its guards, the exchange of
      directories, and the checks of the restored secrets.
    - [Startup]: the start of [main.go] - mode, language, directories, listeners,
      ports, generated credentials, rate limits - and [mode/mode.go].
    - [Alerts]: the scheduled jobs and notifications of [main.go] and of
      [backup_retention.go] that write to the operator.
    - [Mcp]: the guards, the dispatch and the audit of [server/mcp.go].
    - [Html2Text]: [common/httputil/html2text.go]; the HTML parser is a parameter.
    - [Geo]: [iputil/iputil.go], [iputil/geo/geo.go], [names.go],
      [useragent/useragent.go], the coordinates of [server/request.go] and the
      response of [server/service/ip.go]; a database is a function, floats are
      computed exactly.
    - [Endpoints]: the lookup handlers and routes of [server/http.go] and the
      resolvers of [graphql/resolvers.go] that share them.
    - [Health]: [server/handler/health.go] and the health query.
    - [OpsEndpoints]: [server/handler/metrics.go], the streams of
      [server/metrics/logbuffer.go], and the report, discovery and download
      handlers of [server/http.go].
    - [DataSources]: [geoip/geoip.go] and the managers of [threat/threat.go] and
      [blocklist/blocklist.go]: downloads, replacement of files, open readers.
    - [Transact]: programs of database statements, and their interleavings, for
      the files that follow.
    - [Secrets]: [security/secret.go]; each call is a program, and any number of
      processes run them on one database.
    - [Reports]: [security/report.go], the store of reports and the key that
      seals them.
    - [Submission]: the report form of [server/handler/pages.go].
    - [KeyStore]: [pgp/store.go], [pgp/keyserver.go] and the lifetimes of
      [pgp/pgp.go]; the OpenPGP operations are parameters.
    - [Onion]: [tor/vanity.go], addresses and key files; the search is a step
      relation of workers.
    - [Overlay]: open resources, the ports of the backends and the life cycle
      both networks share, with the class [StartContract] of what a start leaves.
    - [TorManager]: [tor/tor.go].  [TorControl]: [server/tor_control.go] against
      the class [TorController], which [TorManager] implements.
    - [I2p]: [i2p/i2p.go]; the bridge is a dialogue of lines.
    - [Certs]: [ssl/ssl.go]; the issuer is a parameter.

    ** What the theorems show

    - Access: outside the hidden service the middleware together decides one
      policy ([access_chain_decision]); an unconfirmed allowlist entry stays narrow
      ([allowlist_narrow]); only trusted peers can influence who they are taken
      for ([IsTrustedPeer_spec], [untrusted_headers_ignored],
      [ipFromRequest_spec]).
    - Lookups: what a visitor is told is what the sources say now or said when
      the address was last looked up, never anything else of earlier visits
      ([replies_without_visitors]); an address in the path decides the answer
      whatever the request claims ([path_lookup_pinned]), both as long as no
      other address looked up has the same hash; the formats and the
      interfaces agree ([field_matches_json], [api_mirrors_web],
      [graphql_agrees]); a port check dials at most once, the visitor's own
      address ([port_probe_own_address]); the decimal form identifies the address
      ([ToDecimal_identifies]), coordinates are printed to the nearest millionth
      ([formatCoordinate_accurate]), a user agent is taken apart without loss
      ([Parse_parts]).
    - Load: when every bucket refills within the idle limit of the cleanup, a
      client gets its burst plus its refill and no more, whatever others do, and
      the cleanup cannot be observed ([client_rate_bound],
      [clients_isolated], [cleanup_unobservable]); bodies are limited
      ([body_limit_enforced]); the GraphQL check accepts exactly the queries
      within its limits and ends, though it may take exponential time
      ([checkQueryComplexity_spec], [checkQueryComplexity_doubling]).
    - Forms: a state-changing request needs the token of its own cookie
      ([csrf_validates]); the choices made on one device survive export and
      import, and an import sets nothing else ([preferences_roundtrip], [import_cookies_confined]);
      analytics needs consent ([analytics_needs_consent]); contact messages of
      one address are spaced ([contact_throttle_spacing]).
    - Paths and files: accepted paths stay below their base
      ([SafePath_confines]); a restore writes below its destination only
      ([extract_confined]); rotated logs that are kept uncompressed and rotate at
      most once a second are an append-only log
      ([write_all_refines_append_only]); instances whose check and write of the
      PID file do not overlap exclude each other ([single_instance]).
    - Network: a fetch of a remote image reaches public addresses only
      ([FetchRemoteImage_public]); an update installs only what its checksum
      vouches for ([DoUpdate_installs_verified], [Do_installs_verified]);
      webhooks are signed and retried on schedule ([Dispatch_signed],
      [dispatchWithRetry_spec]); mail is sent in the clear only where the mode
      allows it ([mail_protected]).
    - Configuration: what is in force is in range ([validateConfig_normalises],
      [configuration_in_force]); a reload keeps what needs a restart
      ([reload_keeps_restart_settings], [compareConfigs_exact]).
    - Operation: every panic is answered ([RecoverMiddleware_responds]), the
      configured headers are sent ([security_header_sent]), maintenance mode is
      consistent at every interleaving and has at most one monitor
      ([maintenance_consistent]), jobs and
      connections are accounted for ([jobs_tracked],
      [hub_accounts_connections], [queue_accounts_messages]).
    - Monitoring: a report of the health is decided in one order
      ([health_precedence]), and once database and scheduler are wired asks for a
      restart of the server only for what it cannot do without
      ([health_code_spec]) and says the same in every
      format ([health_code_sent], [text_matches_json],
      [graphql_health_agrees]); metrics need the token of their service
      ([metrics_guarded]), the log streams lose nothing
      ([loki_streams_complete]), browser reports cannot forge a log line
      ([reports_bounded]), downloads stay in their directory
      ([download_confined]) and match what is advertised
      ([advertised_downloadable]).
    - Secrets and sealed reports: processes that create a secret at once agree on
      one ([secret_agreement]), a rotated secret stays valid for its window
      ([grace_window_kept]), the address of a report outlives a rotation
      ([report_address_outlives_rotation]), a report is read once a day
      ([one_look_a_day]) and after a rotation of its key
      ([key_rotation_readable], with the states in between in which the saved
      keys are ahead of the reports); a submission is stored, mailed and
      acknowledged or undone ([report_submission], [captcha_answered]); keys survive the
      rotation of the secret they are sealed with
      ([secret_rotation_keeps_keys], [archived_key_grace],
      [key_rotation_retires]).
    - Downloaded data: databases and lists are replaced as a whole
      ([databases_replaced_whole], [threat_lists_replaced_whole]), each source
      independently ([working_sources_refreshed]), a restart does not postpone
      a refresh ([stale_databases_update]) and lookups use open readers only
      ([readers_stay_open]).
    - Overlay networks: addresses identify keys ([OnionAddress_injective]), a
      found prefix is the one asked for and a cancelled search ends
      ([vanity_prefix_reachable], [vanity_search_sound],
      [cancelled_search_ends]); key files are read back
      ([public_key_file_roundtrip], [partial_keys_never_mislead]); what is open
      is what runs, whatever fails ([tor_resources_accounted],
      [i2p_resources_accounted], [control_requests_accounted]); imported keys
      are installed as a whole ([exchange_installs], [candidate_identified],
      [candidate_published_whole]); the proxy stays local ([torrc_stays_local]),
      the control channel does nothing for a remote peer and
      tells it nothing but that it is refused ([control_channel_hidden]); an
      eepsite that can read its key files keeps its address
      ([eepsite_address_stable]).
    - Certificates: the documented order of the files
      ([findCertByPriority_order]), what is served and renewed
      ([served_certificate], [renewal_guarded]), no credential left in the
      environment ([credentials_not_left]), challenges answered
      ([challenge_answers]).
    - Recovery: a restore needs authority and a complete manifest
      ([restore_guarded]), replaces a directory or keeps it
      ([restoreReplaceDir_keeps], [install_complete]); what a first start
      generates is accepted and kept ([generated_key_accepted],
      [provision_stable]); the vulnerability database is replaced as a whole
      and fetched within the rate the server asks for ([Update_atomic],
      [Update_collects], [request_rate]).
    - Reports: a failed job is reported in one mail ([runs_reported_once]),
      alerts are spaced ([alert_spacing]), an update is announced once
      ([update_announced_once]).
    - Tools and text: the tool endpoint serves its own origins only
      ([mcp_origin_guard]) and audits every call ([tool_call_audited]);
      paragraphs are wrapped where they must be ([wordWrap_spec]), tables are
      aligned ([table_aligned]).

    Lemmas named in the findings show behaviour that differs from a comment
    or from what the code means to do; each stands next to its component.

    ** Bounds and fuel

    Integers are [Z]; where the source can overflow the 64-bit wrap-around is
    written out ([int64]).  Times are nanoseconds.  Loops that are not
    structural take fuel with a proof that it is enough: slashes collapse
    within the length of the path ([collapse_terminates]), decimal digits
    within the logarithm ([digits_of_correct]), fragments within the number
    of fragments ([measure_ends]), the units of a byte size within six rounds
    ([formatByteSize_terminates]), redirects within five requests
    ([FetchRemoteImage_public]).  The round trip of the preferences is checked
    over all choices a visitor can make, which are finitely many.
    The pages of the vulnerability database are bounded by the two hundred of
    the source, the candidate ports by its fifty.

    ** Not modelled

    Templates and the text of pages, the SQL of the schema, the cryptography of
    TLS, ACME, OpenPGP and of the overlay networks and the processes of Tor and
    I2P (what the program does with their answers is), the collectors of the
    metrics library, the terminal client, service managers, generated API
    documentation, MIME encoding, the text form of YAML, the formats of the
    geolocation databases and dropping of privileges: these are calls into
    libraries or the operating system, or text.  Locks are modelled by the
    atomicity of the sections they guard, except in [Maintenance],
    [ListenerHub], the queue of [Email], [Secrets], [Reports] and the search of
    [Onion], where the steps between them interleave.  The manifest lists every
    part with its status. *)

From Stdlib Require Export ZArith Lia Ascii Sorted.
From stdpp Require Export base gmap strings numbers.
From stdpp Require Export list.

#[global] Open Scope Z_scope.
Declare Scope go_scope.
Delimit Scope go_scope with go.

(** Go strings are byte sequences: a value of type [string] or [[]byte] is a
    list of 8-bit characters.  [str] turns a literal into such a value. *)
Abbreviation gostr := (list ascii).
Definition str (s : string) : gostr := String.list_ascii_of_string s.
#[global] Arguments str : simpl never.

(** Wall-clock instants ([time.Time]) and durations ([time.Duration]) are
    counted in nanoseconds. *)
Abbreviation time := Z (only parsing).
Abbreviation duration := Z (only parsing).
Definition Second : Z := 1000000000.
Definition Minute : Z := 60 * Second.
Definition Hour : Z := 60 * Minute.

(** A call that can fail returns a value or an error. *)
Inductive result (E A : Type) : Type :=
| Ok (a : A)
| Err (e : E).
Arguments Ok {E A} a.
Arguments Err {E A} e.

Definition rbind {E A B} (m : result E A) (k : A -> result E B) : result E B :=
  match m with Ok a => k a | Err e => Err e end.
Notation "'let?' x := m 'in' k" := (rbind m (fun x => k))
  (at level 10, x pattern, k at level 200) : go_scope.

(** String comparison as the Go operator [==] computes it. *)
Notation "a =s b" := (bool_decide (@eq gostr a b)) (at level 70) : go_scope.
Notation "a <>s b" := (negb (bool_decide (@eq gostr a b))) (at level 70) : go_scope.

(** [go] closes the routine goals of the development: it splits the boolean
    guards of translated code, turns decided propositions into facts and
    finishes with linear arithmetic or congruence. *)
Ltac bool_facts :=
  repeat match goal with
  | H : _ && _ = true |- _ => apply andb_true_iff in H; destruct H
  | H : _ || _ = false |- _ => apply orb_false_iff in H; destruct H
  | H : negb _ = true |- _ => apply negb_true_iff in H
  | H : negb _ = false |- _ => apply negb_false_iff in H
  | H : bool_decide _ = true |- _ => apply bool_decide_eq_true in H
  | H : bool_decide _ = false |- _ => apply bool_decide_eq_false in H
  | H : (_ <=? _)%Z = true |- _ => apply Z.leb_le in H
  | H : (_ <=? _)%Z = false |- _ => apply Z.leb_gt in H
  | H : (_ <? _)%Z = true |- _ => apply Z.ltb_lt in H
  | H : (_ <? _)%Z = false |- _ => apply Z.ltb_ge in H
  | H : (_ =? _)%Z = true |- _ => apply Z.eqb_eq in H
  | H : (_ =? _)%Z = false |- _ => apply Z.eqb_neq in H
  end.
Ltac split_ifs :=
  repeat match goal with
  | |- context [if ?b then _ else _] => destruct b eqn:?
  | H : context [if ?b then _ else _] |- _ => destruct b eqn:?
  end.
Ltac go := intros; split_ifs; bool_facts; simplify_eq/=; try done; try lia.

(** Linear arithmetic with division and remainder by constants. *)
Ltac zlia := Z.to_euclidean_division_equations; lia.

(** Closed decidable propositions, by evaluation. *)
Ltac decided := apply (bool_decide_unpack _); vm_compute; exact I.

(** The hint database of the development's automation. *)
Create HintDb ipgaze.
Create Rewrite HintDb ipgaze.

(** A loop [for _, x := range xs { if p(x) { return true } } return false]. *)
Abbreviation any p xs := (existsb p xs) (only parsing).

Lemma any_true {A} (p : A -> bool) (xs : list A) :
  any p xs = true <-> exists x, x ∈ xs /\ p x = true.
Proof.
  rewrite existsb_exists. by setoid_rewrite list_elem_of_In.
Qed.

Lemma any_false {A} (p : A -> bool) (xs : list A) :
  any p xs = false <-> forall x, x ∈ xs -> p x = false.
Proof.
  rewrite <-not_true_iff_false, any_true. split.
  - intros H x Hx. apply not_true_iff_false. eauto.
  - intros H (x & Hx & Hp). rewrite (H x Hx) in Hp. done.
Qed.

(** ** Lists with distinct images *)

Section lists.
Context {A B : Type}.

Lemma filter_ext_in (P Q : A -> Prop) `{!forall x, Decision (P x)} `{!forall x, Decision (Q x)} (l : list A) :
  (forall x, x ∈ l -> P x <-> Q x) -> filter P l = filter Q l.
Proof.
  induction l as [|x l IH]; intros HPQ; [done|].
  assert (filter P l = filter Q l) as IH' by (apply IH; intros y Hy; apply HPQ; by right).
  pose proof (HPQ x (list_elem_of_here x l)) as Hx. destruct (decide (P x)) as [Hp|Hp].
  - rewrite !filter_cons_True by tauto. by rewrite IH'.
  - rewrite !filter_cons_False by tauto. done.
Qed.
Lemma filter_all (P : A -> Prop) `{!forall x, Decision (P x)} (l : list A) :
  (forall x, x ∈ l -> P x) -> filter P l = l.
Proof.
  induction l as [|x l IH]; intros HP; [done|].
  rewrite filter_cons_True by (apply HP; left). f_equal. apply IH. intros y Hy. apply HP. by right.
Qed.
Lemma NoDup_fmap_inj (f : A -> B) (l : list A) x y :
  NoDup (f <$> l) -> x ∈ l -> y ∈ l -> f x = f y -> x = y.
Proof.
  induction l as [|z l IH]; [by intros _ ?%elem_of_nil|]. rewrite fmap_cons, NoDup_cons, !elem_of_cons.
  intros [Hz Hnd] [->|Hx] [->|Hy] E; [done| | |by apply IH].
  - exfalso. apply Hz. rewrite E. by apply list_elem_of_fmap_2.
  - exfalso. apply Hz. rewrite <-E. by apply list_elem_of_fmap_2.
Qed.
Lemma NoDup_fmap_filter (f : A -> B) (P : A -> Prop) `{!forall x, Decision (P x)} (l : list A) :
  NoDup (f <$> l) -> NoDup (f <$> filter P l).
Proof.
  induction l as [|z l IH]; [done|]. rewrite fmap_cons, NoDup_cons. intros [Hz Hnd].
  destruct (decide (P z)).
  - rewrite filter_cons_True by done. rewrite fmap_cons, NoDup_cons. split; [|by apply IH].
    intros (x & E & [_ Hx]%list_elem_of_filter)%list_elem_of_fmap. apply Hz. rewrite E.
    by apply list_elem_of_fmap_2.
  - rewrite filter_cons_False by done. by apply IH.
Qed.
Lemma fmap_filter (f : A -> B) (P : B -> Prop) (Q : A -> Prop)
    `{!forall x, Decision (P x)} `{!forall x, Decision (Q x)} (l : list A) :
  (forall x, Q x <-> P (f x)) -> f <$> filter Q l = filter P (f <$> l).
Proof.
  intros HQ. induction l as [|z l IH]; [done|]. rewrite fmap_cons. pose proof (HQ z) as Hz.
  destruct (decide (Q z)).
  - rewrite !filter_cons_True by tauto. rewrite fmap_cons. by rewrite IH.
  - rewrite !filter_cons_False by tauto. done.
Qed.
Lemma drop_min (n : nat) (l : list A) : drop (Nat.min n (length l)) l = drop n l.
Proof. destruct (Nat.min_spec n (length l)) as [[? ->]|[? ->]]; [done|]. by rewrite !drop_ge by lia. Qed.
Lemma find_app (p : A -> bool) (l k : list A) :
  List.find p (l ++ k) = match List.find p l with Some x => Some x | None => List.find p k end.
Proof. induction l as [|x l IH]; [done|]. cbn. by destruct (p x). Qed.
Lemma sorted_app_inv (R : A -> A -> Prop) (a b : list A) :
  StronglySorted R (a ++ b) ->
  StronglySorted R a /\ StronglySorted R b /\ forall x y, x ∈ a -> y ∈ b -> R x y.
Proof.
  induction a as [|z a IH]; cbn [app].
  - intros Hs. split_and!; [constructor|done|]. by intros x y ?%elem_of_nil.
  - intros Hs. apply StronglySorted_inv in Hs as [Hs Hz]. destruct (IH Hs) as (Ha & Hb & Hab).
    apply Forall_app in Hz as [Hza Hzb]. split_and!; [by constructor|done|].
    intros x y [->|Hx]%elem_of_cons Hy; [|by apply Hab]. rewrite Forall_forall in Hzb. by apply Hzb.
Qed.
End lists.
