(* ===== verification/GoStrings.v ===== *)
(** * The parts of Go's [strings] and [strconv] packages the program uses

    Functions of the language's standard library on byte strings, written out
    so that the components can be evaluated.  Case mapping of non-ASCII text
    depends on the Unicode tables, which are an argument ([UnicodeTables]);
    for ASCII text, the fast path of the library, nothing is assumed. *)

From S2P Require Import Prelude.

Definition code (c : ascii) : Z := Z.of_N (N_of_ascii c).
Definition chr (n : Z) : ascii := ascii_of_N (Z.to_N n).
Definition isASCII (c : ascii) : bool := code c <? 128.
Definition between (lo hi : ascii) (c : ascii) : bool :=
  (code lo <=? code c) && (code c <=? code hi).

(** ** Searching *)

Definition HasPrefix (s p : gostr) : bool := bool_decide (p `prefix_of` s).
Definition HasSuffix (s p : gostr) : bool := bool_decide (p `suffix_of` s).

(** [strings.Index]: the first position of [sub] in [s], [None] for -1. *)
Fixpoint Index (s sub : gostr) : option nat :=
  if HasPrefix s sub then Some 0%nat
  else match s with
       | [] => None
       | _ :: s' => S <$> Index s' sub
       end.
Definition Contains (s sub : gostr) : bool :=
  match Index s sub with Some _ => true | None => false end.

Fixpoint IndexFunc (p : ascii -> bool) (s : gostr) : option nat :=
  match s with
  | [] => None
  | c :: s' => if p c then Some 0%nat else S <$> IndexFunc p s'
  end.
Definition IndexByte (s : gostr) (b : ascii) : option nat :=
  IndexFunc (fun c => bool_decide (c = b)) s.
Definition inSet (chars : gostr) (c : ascii) : bool := bool_decide (c ∈ chars).
Definition IndexAny (s chars : gostr) : option nat := IndexFunc (inSet chars) s.
Definition ContainsAny (s chars : gostr) : bool :=
  match IndexAny s chars with Some _ => true | None => false end.

(** ** Cutting and joining *)

Definition TrimPrefix (s p : gostr) : gostr :=
  if HasPrefix s p then drop (length p) s else s.
Definition TrimSuffix (s p : gostr) : gostr :=
  if HasSuffix s p then take (length s - length p) s else s.

Fixpoint TrimLeftFunc (p : ascii -> bool) (s : gostr) : gostr :=
  match s with
  | [] => []
  | c :: s' => if p c then TrimLeftFunc p s' else s
  end.
Definition TrimRightFunc (p : ascii -> bool) (s : gostr) : gostr :=
  reverse (TrimLeftFunc p (reverse s)).
(** [strings.Trim] with a cutset of ASCII characters. *)
Definition Trim (s cutset : gostr) : gostr :=
  TrimRightFunc (inSet cutset) (TrimLeftFunc (inSet cutset) s).
Definition TrimRight (s cutset : gostr) : gostr := TrimRightFunc (inSet cutset) s.

(** [strings.Split] for a non-empty separator: [skip] counts the bytes of a
    separator that is being consumed, [acc] is the current piece, reversed. *)
Fixpoint split_from (sep s : gostr) (skip : nat) (acc : gostr) : list gostr :=
  match s with
  | [] => [reverse acc]
  | c :: s' =>
      match skip with
      | S k => split_from sep s' k acc
      | O =>
          if HasPrefix s sep
          then reverse acc :: split_from sep s' (length sep - 1) []
          else split_from sep s' 0 (c :: acc)
      end
  end.
Definition Split (s sep : gostr) : list gostr := split_from sep s 0 [].

Fixpoint Join (parts : list gostr) (sep : gostr) : gostr :=
  match parts with
  | [] => []
  | [p] => p
  | p :: ps => p ++ sep ++ Join ps sep
  end.
Definition ReplaceAll (s old new : gostr) : gostr := Join (Split s old) new.

(** ** White space: ASCII space and the UTF-8 encodings of the code points
    with the Unicode property White_Space. *)

Definition asciiSpace (c : ascii) : bool :=
  let n := code c in ((9 <=? n) && (n <=? 13)) || (n =? 32).
Definition bytes_of (ns : list Z) : gostr := chr <$> ns.
Definition wideSpaces : list gostr :=
  bytes_of <$>
  [[194; 133]; [194; 160]; [225; 154; 128];
   [226; 128; 128]; [226; 128; 129]; [226; 128; 130]; [226; 128; 131];
   [226; 128; 132]; [226; 128; 133]; [226; 128; 134]; [226; 128; 135];
   [226; 128; 136]; [226; 128; 137]; [226; 128; 138];
   [226; 128; 168]; [226; 128; 169]; [226; 128; 175];
   [226; 129; 159]; [227; 128; 128]].

(** The number of bytes of a leading (after [rev], trailing) space, 0 if the
    text does not start with one. *)
Definition space_len (wide : list gostr) (s : gostr) : nat :=
  match s with
  | [] => 0
  | c :: _ =>
      if asciiSpace c then 1
      else match list_find (fun w => w `prefix_of` s) wide with
           | Some (_, w) => length w
           | None => 0
           end
  end.
Fixpoint trim_spaces (wide : list gostr) (s : gostr) (skip : nat) : gostr :=
  match s with
  | [] => []
  | _ :: s' =>
      match skip with
      | S k => trim_spaces wide s' k
      | O => match space_len wide s with
             | O => s
             | S k => trim_spaces wide s' k
             end
      end
  end.
Definition TrimLeftSpace (s : gostr) : gostr := trim_spaces wideSpaces s 0.
Definition TrimRightSpace (s : gostr) : gostr :=
  reverse (trim_spaces (reverse <$> wideSpaces) (reverse s) 0).
Definition TrimSpace (s : gostr) : gostr := TrimRightSpace (TrimLeftSpace s).

(** [strings.Fields]: the maximal runs of non-space characters. *)
Definition push_field (acc : gostr) (fs : list gostr) : list gostr :=
  match acc with [] => fs | _ => reverse acc :: fs end.
Fixpoint fields_from (s : gostr) (skip : nat) (acc : gostr) : list gostr :=
  match s with
  | [] => push_field acc []
  | c :: s' =>
      match skip with
      | S k => fields_from s' k acc
      | O => match space_len wideSpaces s with
             | O => fields_from s' 0 (c :: acc)
             | S k => push_field acc (fields_from s' k [])
             end
      end
  end.
Definition Fields (s : gostr) : list gostr := fields_from s 0 [].

(** ** Case *)

Class UnicodeTables := {
  uni_ToLower : gostr -> gostr;
  uni_ToUpper : gostr -> gostr;
  uni_EqualFold : gostr -> gostr -> bool
}.

Definition lower_ascii (c : ascii) : ascii :=
  if between "A" "Z" c then chr (code c + 32) else c.
Definition upper_ascii (c : ascii) : ascii :=
  if between "a" "z" c then chr (code c - 32) else c.

Section Case.
Context `{UnicodeTables}.

Definition ToLower (s : gostr) : gostr :=
  if forallb isASCII s then lower_ascii <$> s else uni_ToLower s.
Definition ToUpper (s : gostr) : gostr :=
  if forallb isASCII s then upper_ascii <$> s else uni_ToUpper s.

Fixpoint EqualFold (s t : gostr) : bool :=
  match s, t with
  | c :: s', d :: t' =>
      if negb (isASCII c && isASCII d) then uni_EqualFold s t
      else if bool_decide (lower_ascii c = lower_ascii d) then EqualFold s' t'
      else false
  | [], [] => true
  | _, _ => false
  end.
End Case.

(** Tables that leave non-ASCII text as it is, to evaluate the definitions. *)
Definition ascii_tables : UnicodeTables :=
  {| uni_ToLower := fun s => s; uni_ToUpper := fun s => s;
     uni_EqualFold := fun s t => bool_decide (s = t) |}.

(** ** Numbers *)

Definition digit (n : Z) : ascii := chr (48 + n).
(** Decimal digits of a non-negative number; [fuel] bounds their number. *)
Fixpoint digits_of (fuel : nat) (n : Z) : gostr :=
  match fuel with
  | O => []
  | S k => if n <? 10 then [digit n] else digits_of k (n / 10) ++ [digit (n mod 10)]
  end.
Definition utoa (n : Z) : gostr := digits_of (S (Z.to_nat (Z.log2 n))) n.
Definition Itoa (n : Z) : gostr :=
  if n <? 0 then "-"%char :: utoa (- n) else utoa n.

Definition isDigit (c : ascii) : bool := between "0" "9" c.
(** The value of a non-empty digit string. *)
Definition parse_digits (s : gostr) : option Z :=
  match s with
  | [] => None
  | _ => if forallb isDigit s
         then Some (fold_left (fun acc c => acc * 10 + (code c - 48)) s 0)
         else None
  end.
Definition MaxInt64 : Z := 2 ^ 63 - 1.
Definition MinInt64 : Z := - 2 ^ 63.
(** [strconv.ParseInt(s, 10, 64)] (and [strconv.Atoi] on a 64-bit platform):
    an optional sign, digits only, and a value in range. *)
Definition ParseInt (s : gostr) : option Z :=
  let signed :=
    match s with
    | "+"%char :: t => parse_digits t
    | "-"%char :: t => Z.opp <$> parse_digits t
    | _ => parse_digits s
    end in
  match signed with
  | Some n => if (MinInt64 <=? n) && (n <=? MaxInt64) then Some n else None
  | None => None
  end.

(** Two's-complement wrap-around of 64-bit signed arithmetic. *)
Definition int64 (n : Z) : Z := (n + 2 ^ 63) mod 2 ^ 64 - 2 ^ 63.

(** ** Facts used by the components *)

Lemma HasPrefix_true s p : HasPrefix s p = true <-> p `prefix_of` s.
Proof. apply bool_decide_eq_true. Qed.
Lemma HasSuffix_true s p : HasSuffix s p = true <-> p `suffix_of` s.
Proof. apply bool_decide_eq_true. Qed.
Lemma HasPrefix_app s p : HasPrefix (p ++ s) p = true.
Proof. apply HasPrefix_true. by exists s. Qed.
Lemma HasSuffix_app s p : HasSuffix (s ++ p) p = true.
Proof. apply HasSuffix_true. by exists s. Qed.

Lemma Index_Some s sub i :
  Index s sub = Some i -> exists a b, s = a ++ sub ++ b /\ length a = i.
Proof.
  revert i. induction s as [|c s IH]; intros i; simpl.
  - destruct (HasPrefix [] sub) eqn:E; [|done]. intros [= <-].
    apply HasPrefix_true in E as [b Hb]. by exists [], b.
  - destruct (HasPrefix (c :: s) sub) eqn:E.
    + intros [= <-]. apply HasPrefix_true in E as [b Hb]. by exists [], b.
    + intros (j & Hj & ->)%fmap_Some.
      destruct (IH j Hj) as (a & b & -> & <-). by exists (c :: a), b.
Qed.

(** [strings.Contains] decides the substring relation. *)
Lemma Contains_true s sub : Contains s sub = true <-> exists a b, s = a ++ sub ++ b.
Proof.
  unfold Contains. split.
  - destruct (Index s sub) as [i|] eqn:E; [|done]. intros _.
    apply Index_Some in E as (a & b & ? & _). eauto.
  - intros (a & b & ->). induction a as [|c a IH].
    + pose proof (HasPrefix_app b sub) as Hp. simpl.
      destruct (sub ++ b); simpl; by rewrite Hp.
    + simpl. destruct (HasPrefix (c :: a ++ sub ++ b) sub); [done|].
      by destruct (Index (a ++ sub ++ b) sub).
Qed.
Lemma Contains_false s sub : Contains s sub = false <-> forall a b, s <> a ++ sub ++ b.
Proof.
  rewrite <-not_true_iff_false, Contains_true. split; [eauto|].
  intros Hno (a & b & Hs). by apply (Hno a b).
Qed.
(** A substring of a substring. *)
Lemma Contains_mono s a b sub : Contains s sub = true -> Contains (a ++ s ++ b) sub = true.
Proof.
  rewrite !Contains_true. intros (x & y & ->). exists (a ++ x), (y ++ b).
  by rewrite !app_assoc.
Qed.

(** Splitting at one byte, structurally. *)
Fixpoint split_on (c : ascii) (s : gostr) : list gostr :=
  match s with
  | [] => [[]]
  | d :: s' =>
      if bool_decide (d = c) then [] :: split_on c s'
      else match split_on c s' with
           | p :: ps => (d :: p) :: ps
           | [] => [[d]]
           end
  end.

Lemma split_on_nonempty c s : split_on c s <> [].
Proof. destruct s; simpl; [done|]. case_bool_decide; [done|]. by destruct (split_on c s). Qed.

Lemma split_on_sep c s : split_on c (c :: s) = [] :: split_on c s.
Proof. simpl. by rewrite bool_decide_true. Qed.

Lemma split_from_one c s acc :
  split_from [c] s 0 acc =
  match split_on c s with p :: ps => (reverse acc ++ p) :: ps | [] => [] end.
Proof.
  revert acc. induction s as [|d s IH]; intros acc; simpl; [by rewrite app_nil_r|].
  case_bool_decide as Hd; simpl; unfold HasPrefix.
  - subst. rewrite bool_decide_true by (by exists s). rewrite IH, app_nil_r.
    destruct (split_on c s) as [|p ps] eqn:E; [by apply split_on_nonempty in E|]. done.
  - rewrite bool_decide_false by (intros [? [=]]; congruence). rewrite IH.
    destruct (split_on c s) as [|p ps] eqn:E; [by apply split_on_nonempty in E|].
    by rewrite reverse_cons, <-app_assoc.
Qed.
Lemma Split_one c s : Split s [c] = split_on c s.
Proof.
  unfold Split. rewrite split_from_one.
  destruct (split_on c s) eqn:E; [by apply split_on_nonempty in E|done].
Qed.

Lemma Join_cons p ps sep : ps <> [] -> Join (p :: ps) sep = p ++ sep ++ Join ps sep.
Proof. by destruct ps. Qed.

Lemma Join_cons1 p ps c : ps <> [] -> Join (p :: ps) [c] = p ++ c :: Join ps [c].
Proof. by destruct ps. Qed.
Lemma Join_cons2 p ps c : ps <> [] -> Join (p :: ps) [c; c] = p ++ c :: c :: Join ps [c; c].
Proof. by destruct ps. Qed.

Lemma Join_split_on c s : Join (split_on c s) [c] = s.
Proof.
  induction s as [|d s IH]; simpl; [done|]. case_bool_decide as Hd.
  - rewrite Join_cons by apply split_on_nonempty. rewrite IH. by subst.
  - destruct (split_on c s) as [|p ps] eqn:E; [by apply split_on_nonempty in E|].
    destruct ps as [|q ps]; simpl in *; congruence.
Qed.

Lemma split_on_no_sep c s p : p ∈ split_on c s -> c ∉ p.
Proof.
  revert p. induction s as [|d s IH]; simpl; intros p.
  - rewrite list_elem_of_singleton. intros ->. apply not_elem_of_nil.
  - case_bool_decide as Hd.
    + rewrite elem_of_cons. intros [->|Hp]; [apply not_elem_of_nil|eauto].
    + destruct (split_on c s) as [|q qs] eqn:E; [by apply split_on_nonempty in E|].
      rewrite elem_of_cons. intros [->|Hp].
      * apply not_elem_of_cons. split; [done|]. apply IH. by left.
      * apply IH. by right.
Qed.

Lemma split_on_app_gen c a b : split_on c (a ++ c :: b) = split_on c a ++ split_on c b.
Proof.
  induction a as [|d a IH]; simpl.
  - by rewrite bool_decide_true.
  - rewrite IH. case_bool_decide; [done|].
    by destruct (split_on c a) eqn:E; [apply split_on_nonempty in E|].
Qed.
Lemma split_on_app c p s : c ∉ p -> split_on c (p ++ c :: s) = p :: split_on c s.
Proof.
  induction p as [|d p IH]; simpl; intros Hp.
  - by rewrite bool_decide_true.
  - apply not_elem_of_cons in Hp as [? ?]. rewrite bool_decide_false by done.
    by rewrite IH.
Qed.
Lemma split_on_plain c p : c ∉ p -> split_on c p = [p].
Proof.
  induction p as [|d p IH]; simpl; intros Hp; [done|].
  apply not_elem_of_cons in Hp as [? ?]. rewrite bool_decide_false by done. by rewrite IH.
Qed.

(** Joining pieces that lack the separator and splitting again is the
    identity. *)
Lemma split_on_Join c ps :
  ps <> [] -> Forall (fun p => c ∉ p) ps -> split_on c (Join ps [c]) = ps.
Proof.
  induction ps as [|p ps IH]; [done|]. intros _ Hps.
  apply Forall_cons in Hps as [Hp Hps]. destruct ps as [|q ps].
  - simpl. by apply split_on_plain.
  - rewrite Join_cons1, split_on_app by done. f_equal. by apply IH.
Qed.

(** The same for separators of any positive length. *)
Lemma split_from_nonempty sep s skip acc : split_from sep s skip acc <> [].
Proof.
  revert skip acc. induction s as [|c s IH]; intros skip acc; [done|]. simpl.
  destruct skip; [|done]. by destruct (HasPrefix _ _).
Qed.

Lemma HasPrefix_split c s sep :
  sep <> [] -> HasPrefix (c :: s) sep = true ->
  (length sep - 1 <= length s)%nat /\ c :: s = sep ++ drop (length sep - 1) s.
Proof.
  intros Hne [b Hb]%HasPrefix_true. destruct sep as [|d sep]; [done|].
  simplify_eq/=. rewrite length_app, Nat.sub_0_r, drop_app_length. split; [lia|done].
Qed.

Lemma Join_split_from sep s skip acc :
  sep <> [] -> (skip <= length s)%nat ->
  Join (split_from sep s skip acc) sep = reverse acc ++ drop skip s.
Proof.
  intros Hne. revert skip acc. induction s as [|c s IH]; intros skip acc Hk; simpl in Hk.
  - destruct skip; [|lia]. simpl. by rewrite app_nil_r.
  - destruct skip as [|k]; simpl; [|apply IH; lia].
    destruct (HasPrefix (c :: s) sep) eqn:E.
    + apply HasPrefix_split in E as [Hl Hs]; [|done].
      rewrite Join_cons by apply split_from_nonempty. rewrite IH by done.
      by rewrite Hs.
    + rewrite IH by lia. by rewrite reverse_cons, <-app_assoc.
Qed.
Lemma Join_Split s sep : sep <> [] -> Join (Split s sep) sep = s.
Proof. intros H. unfold Split. by rewrite Join_split_from by (done || lia). Qed.

(** Total length of the pieces. *)
Definition total_length (ps : list gostr) : nat := sum_list_with length ps.

Lemma length_Join ps sep :
  (length (Join ps sep) = total_length ps + (length ps - 1) * length sep)%nat.
Proof.
  induction ps as [|p ps IH]; [done|]. destruct ps as [|q ps]; [simpl; lia|].
  rewrite Join_cons by done. rewrite !length_app, IH. simpl. lia.
Qed.

Lemma split_from_found sep s acc :
  sep <> [] -> Contains s sep = true -> (2 <= length (split_from sep s 0 acc))%nat.
Proof.
  intros Hne. revert acc. induction s as [|c s IH]; intros acc Hc.
  - apply Contains_true in Hc as (a & b & H). symmetry in H.
    apply app_eq_nil in H as [_ [-> _]%app_eq_nil]. done.
  - simpl. destruct (HasPrefix (c :: s) sep) eqn:E.
    + simpl. pose proof (split_from_nonempty sep s (length sep - 1) []).
      destruct (split_from sep s (length sep - 1) []); [done|simpl; lia].
    + apply IH. unfold Contains in Hc |- *. simpl in Hc. rewrite E in Hc.
      by destruct (Index s sep).
Qed.

(** Replacing a separator that occurs by a shorter one shortens the text. *)
Lemma ReplaceAll_shorter s old new :
  old <> [] -> (length new < length old)%nat -> Contains s old = true ->
  (length (ReplaceAll s old new) < length s)%nat.
Proof.
  intros Hne Hlt Hc. rewrite <-(Join_Split s old Hne) at 2. unfold ReplaceAll.
  rewrite !length_Join. pose proof (split_from_found old s [] Hne Hc) as H.
  fold (Split s old) in H. nia.
Qed.

(** Replacing one byte by another. *)
(** Replacing one byte by a string is done byte by byte. *)
Definition subst_byte (c : ascii) (new : gostr) (x : ascii) : gostr :=
  if bool_decide (x = c) then new else [x].
Lemma ReplaceAll_byte c new s : ReplaceAll s [c] new = s ≫= subst_byte c new.
Proof.
  unfold ReplaceAll. rewrite Split_one. induction s as [|x s IH]; [done|].
  cbn [mbind list_bind]. rewrite <-IH. unfold subst_byte. destruct (decide (x = c)) as [->|Hx].
  - rewrite split_on_sep, Join_cons by apply split_on_nonempty. by rewrite bool_decide_eq_true_2.
  - rewrite bool_decide_eq_false_2 by done. cbn [split_on]. rewrite bool_decide_eq_false_2 by done.
    pose proof (split_on_nonempty c s). destruct (split_on c s) as [|p [|q ps]]; done.
Qed.
Definition replace_byte (c d x : ascii) : ascii := if bool_decide (x = c) then d else x.
Lemma ReplaceAll_one c d s : ReplaceAll s [c] [d] = map (replace_byte c d) s.
Proof.
  unfold ReplaceAll. rewrite Split_one. induction s as [|x s IH]; [done|].
  simpl. unfold replace_byte at 1. case_bool_decide.
  - rewrite Join_cons by apply split_on_nonempty. by rewrite IH.
  - destruct (split_on c s) as [|p ps] eqn:E; [by apply split_on_nonempty in E|].
    rewrite <-IH. by destruct ps.
Qed.

(** ** Decimal numerals: printing and parsing back *)

Lemma code_chr n : 0 <= n < 256 -> code (chr n) = n.
Proof. intros Hn. unfold code, chr. rewrite N_ascii_embedding by lia. lia. Qed.
Lemma digit_code d : 0 <= d <= 9 -> code (digit d) = 48 + d.
Proof. intros Hd. unfold digit. apply code_chr. lia. Qed.
Lemma digit_isDigit d : 0 <= d <= 9 -> isDigit (digit d) = true.
Proof.
  intros Hd. unfold isDigit, between. rewrite digit_code by done.
  change (code "0") with 48. change (code "9") with 57. lia.
Qed.

Definition digits_value (s : gostr) : Z := fold_left (fun acc c => acc * 10 + (code c - 48)) s 0.

Lemma digits_of_correct fuel n :
  0 <= n -> n < 2 ^ Z.of_nat fuel -> (0 < fuel)%nat ->
  digits_value (digits_of fuel n) = n /\ forallb isDigit (digits_of fuel n) = true /\
  digits_of fuel n <> [].
Proof.
  revert n. induction fuel as [|k IH]; intros n Hn Hlt Hf; [lia|]. simpl.
  destruct (n <? 10) eqn:E; bool_facts.
  - unfold digits_value. simpl. rewrite digit_code, digit_isDigit by lia. split_and!; [lia|done|done].
  - rewrite Nat2Z.inj_succ, Z.pow_succ_r in Hlt by lia.
    pose proof (Z.div_mod n 10 ltac:(lia)) as Hdm. pose proof (Z.mod_pos_bound n 10 ltac:(lia)).
    assert (0 < k)%nat by (destruct k; simpl in *; lia).
    assert (0 <= n / 10 < 2 ^ Z.of_nat k) as [Hq0 Hq1] by lia.
    destruct (IH (n / 10) Hq0 Hq1 ltac:(done)) as (Hv & Hd & Hne).
    unfold digits_value in *. rewrite fold_left_app, Hv. simpl.
    rewrite digit_code, forallb_app, Hd by lia. simpl. rewrite digit_isDigit by lia.
    split_and!; [lia|done|]. by intros [? ?]%app_eq_nil.
Qed.
Lemma utoa_correct n :
  0 <= n -> digits_value (utoa n) = n /\ forallb isDigit (utoa n) = true /\ utoa n <> [].
Proof.
  intros Hn. apply digits_of_correct; [done| |lia].
  rewrite Nat2Z.inj_succ, Z2Nat.id by apply Z.log2_nonneg.
  destruct (decide (n = 0)) as [->|]; [done|]. apply Z.log2_spec. lia.
Qed.
Lemma Itoa_nonneg n : 0 <= n -> Itoa n = utoa n.
Proof. unfold Itoa. go. Qed.
Lemma Itoa_digits n : 0 <= n -> forallb isDigit (Itoa n) = true.
Proof. intros Hn. rewrite Itoa_nonneg by done. by apply utoa_correct. Qed.
Lemma parse_digits_Itoa n : 0 <= n -> parse_digits (Itoa n) = Some n.
Proof.
  intros Hn. rewrite Itoa_nonneg by done. destruct (utoa_correct n Hn) as (Hv & Hd & Hne).
  unfold parse_digits. rewrite Hd. destruct (utoa n); [done|]. unfold digits_value in Hv. by rewrite Hv.
Qed.
Lemma Itoa_inj m n : 0 <= m -> 0 <= n -> Itoa m = Itoa n -> m = n.
Proof. intros Hm Hn E. apply parse_digits_Itoa in Hm, Hn. congruence. Qed.

(** ** Text of visible ASCII characters is not trimmed *)

Definition visible (c : ascii) : bool := between "!" "~" c.
Lemma visible_not_space c : visible c = true -> asciiSpace c = false /\ code c < 128.
Proof. by destruct c as [[] [] [] [] [] [] [] []]. Qed.
Lemma trim_spaces_visible wide c s :
  Forall (fun w => match w with d :: _ => 128 <= code d | [] => False end) wide ->
  visible c = true -> trim_spaces wide (c :: s) 0 = c :: s.
Proof.
  intros Hw [Hs Hc]%visible_not_space. cbn [trim_spaces space_len]. rewrite Hs.
  destruct (list_find (fun w => w `prefix_of` c :: s) wide) as [[i w]|] eqn:E; [|done].
  apply list_find_Some in E as (Hi & Hp & _). rewrite Forall_lookup in Hw. specialize (Hw i w Hi). cbn in Hw.
  destruct w as [|d w]; [done|]. apply prefix_cons_inv_1 in Hp as ->. lia.
Qed.
Lemma TrimSpace_visible s : forallb visible s = true -> TrimSpace s = s.
Proof.
  intros Hv. destruct s as [|c s]; [done|]. unfold TrimSpace, TrimLeftSpace.
  assert (visible c = true) as Hc by (by apply andb_true_iff in Hv as [? _]).
  rewrite trim_spaces_visible by (done || (by repeat constructor; vm_compute)).
  unfold TrimRightSpace. destruct (reverse (c :: s)) as [|d t] eqn:E; [by apply (f_equal length) in E; rewrite length_reverse in E|].
  rewrite trim_spaces_visible; [by rewrite <-E, reverse_involutive|by repeat constructor; vm_compute|].
  rewrite forallb_forall in Hv. apply Hv, list_elem_of_In, elem_of_reverse. rewrite E. apply list_elem_of_here.
Qed.
Lemma digits_visible s : forallb isDigit s = true -> forallb visible s = true.
Proof.
  rewrite !forallb_forall. intros H c Hc. specialize (H c Hc). revert H. clear.
  by destruct c as [[] [] [] [] [] [] [] []].
Qed.
Lemma ToUpper_digits `{UnicodeTables} ds t : forallb isDigit ds = true -> forallb isASCII t = true ->
  ToUpper (ds ++ t) = ds ++ ToUpper t.
Proof.
  intros Hd Ht. unfold ToUpper. rewrite forallb_app, Ht.
  assert (forallb isASCII ds = true /\ upper_ascii <$> ds = ds) as [-> E].
  { clear Ht. induction ds as [|c ds IH]; [done|]. apply andb_true_iff in Hd as [Hc Hd]. destruct (IH Hd) as [Ha IE].
    cbn [forallb fmap list_fmap]. rewrite Ha, IE. revert Hc. clear. by destruct c as [[] [] [] [] [] [] [] []]. }
  cbn [andb]. by rewrite fmap_app, E.
Qed.
Lemma TrimSuffix_app ds t : TrimSuffix (ds ++ t) t = ds.
Proof. unfold TrimSuffix. rewrite HasSuffix_app, length_app, Nat.add_sub. by rewrite take_app_length. Qed.
Lemma ParseInt_Itoa n : 0 <= n <= MaxInt64 -> ParseInt (Itoa n) = Some n.
Proof.
  intros Hn. pose proof (Itoa_digits n ltac:(lia)) as Hd. pose proof (parse_digits_Itoa n ltac:(lia)) as Hp.
  unfold ParseInt. destruct (Itoa n) as [|c s] eqn:E; [done|].
  assert (isDigit c = true) as Hc by (by apply andb_true_iff in Hd as [? _]).
  replace (match c :: s with "+"%char :: t => parse_digits t | "-"%char :: t => Z.opp <$> parse_digits t | _ => parse_digits (c :: s) end)
    with (parse_digits (c :: s)) by (revert Hc; clear; by destruct c as [[] [] [] [] [] [] [] []]).
  rewrite Hp. unfold MinInt64. rewrite (proj2 (Z.leb_le _ _)), (proj2 (Z.leb_le _ _)) by lia. done.
Qed.
(** A line of visible characters is read without its line break. *)
Lemma TrimSpace_line s : s <> [] -> forallb visible s = true -> TrimSpace (s ++ ["010"%char]) = s.
Proof.
  intros Hne Hv. destruct s as [|c s]; [done|]. assert (visible c = true) as Hc by (by apply andb_true_iff in Hv as [? _]).
  unfold TrimSpace, TrimLeftSpace. cbn [app]. rewrite trim_spaces_visible by (done || (by repeat constructor; vm_compute)).
  unfold TrimRightSpace. change (c :: s ++ ["010"%char]) with ((c :: s) ++ ["010"%char]). rewrite reverse_snoc.
  destruct (reverse (c :: s)) as [|d t] eqn:E; [by apply (f_equal length) in E; rewrite length_reverse in E|].
  change (trim_spaces (reverse <$> wideSpaces) ("010"%char :: d :: t) 0) with (trim_spaces (reverse <$> wideSpaces) (d :: t) 0).
  rewrite trim_spaces_visible; [by rewrite <- E, reverse_involutive|by repeat constructor; vm_compute|].
  rewrite forallb_forall in Hv. apply Hv, list_elem_of_In, elem_of_reverse. rewrite E. apply list_elem_of_here.
Qed.
