(* ===== verification/GoUtf8.v ===== *)
(** * Runes: UTF-8 as the language decodes and encodes it

    [for _, r := range s] and the conversions between [string] and [[]rune].
    A byte that does not start a well-formed sequence decodes to U+FFFD and
    takes one byte. *)

From S2P Require Import Prelude GoStrings.

Definition RuneError : Z := 65533.

Definition cont (c : ascii) : bool := (128 <=? code c) && (code c <=? 191).
Definition within (lo hi : Z) (c : ascii) : bool := (lo <=? code c) && (code c <=? hi).

(** The bounds of the second byte of a three- and of a four-byte sequence. *)
Definition second3 (b0 : Z) : Z * Z :=
  if b0 =? 224 then (160, 191) else if b0 =? 237 then (128, 159) else (128, 191).
Definition second4 (b0 : Z) : Z * Z :=
  if b0 =? 240 then (144, 191) else if b0 =? 244 then (128, 143) else (128, 191).

(** [utf8.DecodeRuneInString] on a non-empty string: the rune and its width. *)
Definition decode_rune (c : ascii) (s : gostr) : Z * nat :=
  let b0 := code c in
  if b0 <? 128 then (b0, 1%nat)
  else if within 194 223 c then
    match s with
    | c1 :: _ =>
        if cont c1 then (Z.land b0 31 * 64 + Z.land (code c1) 63, 2%nat) else (RuneError, 1%nat)
    | _ => (RuneError, 1%nat)
    end
  else if within 224 239 c then
    match s with
    | c1 :: c2 :: _ =>
        if within (second3 b0).1 (second3 b0).2 c1 && cont c2
        then (Z.land b0 15 * 4096 + Z.land (code c1) 63 * 64 + Z.land (code c2) 63, 3%nat)
        else (RuneError, 1%nat)
    | _ => (RuneError, 1%nat)
    end
  else if within 240 244 c then
    match s with
    | c1 :: c2 :: c3 :: _ =>
        if within (second4 b0).1 (second4 b0).2 c1 && cont c2 && cont c3
        then (Z.land b0 7 * 262144 + Z.land (code c1) 63 * 4096 +
              Z.land (code c2) 63 * 64 + Z.land (code c3) 63, 4%nat)
        else (RuneError, 1%nat)
    | _ => (RuneError, 1%nat)
    end
  else (RuneError, 1%nat).

(** The runes of a string; [skip] bytes belong to the rune already read. *)
Fixpoint runes_from (s : gostr) (skip : nat) : list Z :=
  match s with
  | [] => []
  | c :: s' =>
      match skip with
      | S k => runes_from s' k
      | O => let '(r, w) := decode_rune c s' in r :: runes_from s' (w - 1)
      end
  end.
Definition runes (s : gostr) : list Z := runes_from s 0.

(** [utf8.EncodeRune]: surrogates and values out of range are encoded as
    U+FFFD. *)
Definition encode_rune (r : Z) : gostr :=
  let three r := [chr (224 + r / 4096); chr (128 + (r / 64) mod 64); chr (128 + r mod 64)] in
  if (0 <=? r) && (r <? 128) then [chr r]
  else if (128 <=? r) && (r <? 2048) then [chr (192 + r / 64); chr (128 + r mod 64)]
  else if (r <? 0) || ((55296 <=? r) && (r <=? 57343)) || (1114111 <? r) then three RuneError
  else if r <? 65536 then three r
  else [chr (240 + r / 262144); chr (128 + (r / 4096) mod 64);
        chr (128 + (r / 64) mod 64); chr (128 + r mod 64)].
Definition string_of_runes (rs : list Z) : gostr := rs ≫= encode_rune.

(** [utf8.RuneCountInString] *)
Definition RuneCount (s : gostr) : Z := Z.of_nat (length (runes s)).

(** ** Facts *)

(** The bytes of an encoded rune are the rune itself, or all at least 128. *)
Lemma encode_rune_bytes r c :
  c ∈ encode_rune r -> (code c = r /\ 0 <= r < 128) \/ 128 <= code c.
Proof.
  assert (forall n, 128 <= n < 256 -> 128 <= code (chr n)) as Hchr.
  { intros n Hn. rewrite code_chr; lia. }
  assert (forall k, 0 <= k mod 64 < 64) as Hm by (intros; apply Z.mod_pos_bound; lia).
  assert (forall n k q, 0 <= n < q * k -> 0 < k -> 0 <= n / k < q) as Hd.
  { intros n k q Hn Hk. split; [apply Z.div_pos; lia|apply Z.div_lt_upper_bound; lia]. }
  unfold encode_rune, RuneError.
  pose proof (Hm r). pose proof (Hm (r / 64)). pose proof (Hm (r / 4096)).
  destruct ((0 <=? r) && (r <? 128)) eqn:E1; bool_facts.
  { intros ->%list_elem_of_singleton. left. rewrite code_chr; lia. }
  destruct ((128 <=? r) && (r <? 2048)) eqn:E2; bool_facts.
  { pose proof (Hd r 64 32 ltac:(lia) ltac:(lia)).
    intros Hin. right. repeat (apply elem_of_cons in Hin as [->|Hin]; [apply Hchr; lia|]).
    by apply elem_of_nil in Hin. }
  destruct (_ || _) eqn:E3.
  { change (65533 / 4096) with 15. change (65533 / 64 mod 64) with 63. change (65533 mod 64) with 61.
    intros Hin. right. repeat (apply elem_of_cons in Hin as [->|Hin]; [apply Hchr; lia|]).
    by apply elem_of_nil in Hin. }
  bool_facts.
  assert (2048 <= r) by (apply andb_false_iff in E1, E2; destruct E1, E2; bool_facts; lia).
  assert (r <= 1114111) by lia. pose proof (Hd r 262144 5 ltac:(lia) ltac:(lia)).
  destruct (r <? 65536) eqn:E4; bool_facts; intros Hin; right;
    [pose proof (Hd r 4096 16 ltac:(lia) ltac:(lia))|];
    repeat (apply elem_of_cons in Hin as [->|Hin]; [apply Hchr; lia|]);
    by apply elem_of_nil in Hin.
Qed.
Lemma encode_rune_length r : (1 <= length (encode_rune r) <= 4)%nat.
Proof. unfold encode_rune. repeat case_match; simpl; lia. Qed.
Lemma elem_of_string_of_runes c rs :
  c ∈ string_of_runes rs -> exists r, r ∈ rs /\ c ∈ encode_rune r.
Proof. unfold string_of_runes. intros (r & ? & ?)%list_elem_of_bind. by exists r. Qed.
Lemma string_of_runes_length rs : (length (string_of_runes rs) <= 4 * length rs)%nat.
Proof.
  induction rs as [|r rs IH]; [done|].
  change (string_of_runes (r :: rs)) with (encode_rune r ++ string_of_runes rs).
  rewrite length_app. cbn [length]. pose proof (encode_rune_length r). lia.
Qed.

(** Text of ASCII bytes only: the runes are the bytes. *)
Lemma runes_ascii s : forallb isASCII s = true -> runes s = code <$> s.
Proof.
  unfold runes. induction s as [|c s IH]; [done|]. cbn [forallb runes_from]. unfold isASCII at 1.
  intros [Hc Hs]%andb_true_iff. unfold decode_rune. rewrite Hc. cbn. by rewrite IH.
Qed.
