(* ===== verification/GoPath.v ===== *)
(** * Go's [path] and [path/filepath] packages on a Unix platform

    A slash-separated path is cleaned component by component; [Clean], [Join],
    [Rel] and [Abs] are the library functions the program calls.  On Unix
    [filepath.ToSlash] is the identity and [filepath.Clean] is [path.Clean]. *)

From S2P Require Import Prelude GoStrings.

Definition slash : ascii := "/".
Definition dot : gostr := str ".".
Definition dotdot : gostr := str "..".

(** One component read by [Clean]; the output components are on a stack. *)
Definition clean_push (rooted : bool) (out : list gostr) (c : gostr) : list gostr :=
  if bool_decide (c = []) || bool_decide (c = dot) then out
  else if bool_decide (c = dotdot) then
    match out with
    | top :: rest => if bool_decide (top = dotdot) then dotdot :: out else rest
    | [] => if rooted then [] else [dotdot]
    end
  else c :: out.
Definition clean_comps (rooted : bool) (cs : list gostr) : list gostr :=
  reverse (fold_left (clean_push rooted) cs []).

Definition isRooted (p : gostr) : bool :=
  match p with c :: _ => bool_decide (c = slash) | [] => false end.
(** The cleaned components of a path. *)
Definition comps (p : gostr) : list gostr :=
  clean_comps (isRooted p) (split_on slash p).
Definition render (rooted : bool) (cs : list gostr) : gostr :=
  if rooted then slash :: Join cs [slash]
  else match cs with [] => dot | _ => Join cs [slash] end.
Definition Clean (p : gostr) : gostr := render (isRooted p) (comps p).

Definition path_Join (a b : gostr) : gostr :=
  match a, b with
  | [], [] => []
  | [], _ => Clean b
  | _, _ => Clean (a ++ slash :: b)
  end.

(** The components [Rel] compares: those of the cleaned path, where a target
    "." is one component. *)
Fixpoint strip_common (bs ts : list gostr) : list gostr * list gostr :=
  match bs, ts with
  | b :: bs', t :: ts' => if bool_decide (b = t) then strip_common bs' ts' else (bs, ts)
  | _, _ => (bs, ts)
  end.
Definition targ_comps (p : gostr) : list gostr :=
  match comps p with [] => if isRooted p then [] else [dot] | cs => cs end.
Definition Rel (base targ : gostr) : option gostr :=
  if bool_decide (Clean targ = Clean base) then Some dot
  else if negb (Bool.eqb (isRooted base) (isRooted targ)) then None
  else
    let '(bs, ts) := strip_common (comps base) (targ_comps targ) in
    match bs with
    | [] => Some (Join ts [slash])
    | b :: _ =>
        if bool_decide (b = dotdot) then None
        else Some (Join (replicate (length bs) dotdot ++ ts) [slash])
    end.

(** [filepath.Abs] relative to the working directory [wd], an absolute path. *)
Definition Abs (wd p : gostr) : gostr :=
  if isRooted p then Clean p else path_Join wd p.

(** ** Cleaned component lists *)

(** What [Clean] leaves: no empty, "." component or slash, and ".." only as a
    leading run of a relative path. *)
Definition plain (c : gostr) : Prop := c <> [] /\ c <> dot /\ c <> dotdot /\ slash ∉ c.
Definition clean_list (rooted : bool) (cs : list gostr) : Prop :=
  exists n rest, cs = replicate n dotdot ++ rest /\ Forall plain rest /\
                 (rooted = true -> n = 0%nat).
(** The same of the stack [Clean] builds, whose top is the last component. *)
Definition clean_stack (rooted : bool) (out : list gostr) : Prop :=
  exists n rest, out = rest ++ replicate n dotdot /\ Forall plain rest /\
                 (rooted = true -> n = 0%nat).

Lemma slash_dotdot : slash ∉ dotdot.
Proof. decided. Qed.

Lemma plain_push rooted out c : plain c -> clean_push rooted out c = c :: out.
Proof.
  intros (H1 & H2 & H3 & _). unfold clean_push.
  by rewrite !bool_decide_false by done.
Qed.
Lemma dotdot_push out : clean_push false (replicate out dotdot) dotdot = replicate (S out) dotdot.
Proof. destruct out; done. Qed.

Lemma clean_push_stack rooted out c :
  slash ∉ c -> clean_stack rooted out -> clean_stack rooted (clean_push rooted out c).
Proof.
  intros Hc (n & rest & -> & Hr & Hn). unfold clean_push.
  destruct (bool_decide (c = [])) eqn:E1; simpl; [by exists n, rest|].
  destruct (bool_decide (c = dot)) eqn:E2; simpl; [by exists n, rest|].
  destruct (bool_decide (c = dotdot)) eqn:E3; bool_facts.
  - destruct rest as [|top rest]; simpl.
    + destruct n as [|n]; simpl; [destruct rooted; [by exists 0%nat, []|by exists 1%nat, []]|].
      exists (S (S n)), []. split_and!; [done..|]. intros Hroot. by specialize (Hn Hroot).
    + apply Forall_cons in Hr as [Htop Hr]. rewrite bool_decide_false by apply Htop.
      by exists n, rest.
  - exists n, (c :: rest). split_and!; [done| |done]. by constructor.
Qed.

Lemma clean_fold_stack rooted cs out :
  Forall (fun c => slash ∉ c) cs -> clean_stack rooted out ->
  clean_stack rooted (fold_left (clean_push rooted) cs out).
Proof.
  revert out. induction cs as [|c cs IH]; intros out Hcs Hout; simpl; [done|].
  apply Forall_cons in Hcs as [Hc Hcs]. apply IH; [done|]. by apply clean_push_stack.
Qed.

Lemma clean_stack_list rooted out : clean_stack rooted out -> clean_list rooted (reverse out).
Proof.
  intros (n & rest & -> & Hr & Hn). exists n, (reverse rest).
  rewrite reverse_app, reverse_replicate. split_and!; [done| |done].
  by apply Forall_reverse.
Qed.

Lemma split_on_slashless p : Forall (fun c => slash ∉ c) (split_on slash p).
Proof. apply Forall_forall. intros c. apply split_on_no_sep. Qed.

(** [Clean] produces clean components. *)
Lemma comps_clean p : clean_list (isRooted p) (comps p).
Proof.
  apply clean_stack_list, clean_fold_stack; [apply split_on_slashless|].
  by exists 0%nat, [].
Qed.

Lemma fold_plain rooted rest out :
  Forall plain rest -> fold_left (clean_push rooted) rest out = reverse rest ++ out.
Proof.
  revert out. induction rest as [|c rest IH]; intros out Hr; simpl; [done|].
  apply Forall_cons in Hr as [Hc Hr]. rewrite plain_push by done.
  rewrite IH by done. by rewrite reverse_cons, <-app_assoc.
Qed.
Lemma fold_dotdot n m :
  fold_left (clean_push false) (replicate n dotdot) (replicate m dotdot) = replicate (n + m) dotdot.
Proof.
  revert m. induction n as [|n IH]; intros m; simpl; [done|].
  etrans; [|etrans; [apply (IH (S m))|]].
  - f_equal. apply dotdot_push.
  - by rewrite Nat.add_succ_r.
Qed.

(** Clean components are a fixed point of cleaning. *)
Lemma clean_comps_id rooted cs : clean_list rooted cs -> clean_comps rooted cs = cs.
Proof.
  intros (n & rest & -> & Hr & Hn). unfold clean_comps. rewrite fold_left_app.
  assert (fold_left (clean_push rooted) (replicate n dotdot) [] = replicate n dotdot) as ->.
  { destruct rooted; [by rewrite Hn|]. etrans; [apply (fold_dotdot n 0)|]. by rewrite Nat.add_0_r. }
  rewrite fold_plain by done. by rewrite reverse_app, reverse_involutive, reverse_replicate.
Qed.

Lemma clean_list_slashless rooted cs : clean_list rooted cs -> Forall (fun c => slash ∉ c) cs.
Proof.
  intros (n & rest & -> & Hr & _). apply Forall_app. split.
  - apply Forall_replicate, slash_dotdot.
  - eapply Forall_impl; [done|]. intros c Hc. apply Hc.
Qed.
Lemma clean_list_nonempty rooted cs c : clean_list rooted cs -> c ∈ cs -> c <> [].
Proof.
  intros (n & rest & -> & Hr & _) [H|H]%elem_of_app.
  - apply elem_of_replicate in H as [-> _]. done.
  - rewrite Forall_forall in Hr. by apply Hr.
Qed.

Lemma split_on_comps rooted cs :
  clean_list rooted cs -> cs <> [] -> split_on slash (Join cs [slash]) = cs.
Proof. intros H Hne. apply split_on_Join; [done|]. by eapply clean_list_slashless. Qed.

Lemma isRooted_Join r cs : clean_list r cs -> isRooted (Join cs [slash]) = false.
Proof.
  intros H. destruct cs as [|c cs]; [done|].
  pose proof (clean_list_nonempty _ _ c H (list_elem_of_here _ _)) as Hc.
  pose proof (clean_list_slashless _ _ H) as [Hs _]%Forall_cons.
  destruct c as [|a c]; [done|]. apply not_elem_of_cons in Hs as [Ha _].
  destruct cs; simpl; by rewrite bool_decide_false.
Qed.

(** The components of a rendered clean list are that list. *)
Lemma render_rooted rooted cs : clean_list rooted cs -> isRooted (render rooted cs) = rooted.
Proof.
  intros H. unfold render. destruct rooted; [done|].
  destruct cs as [|c cs']; [done|]. by eapply isRooted_Join.
Qed.
Lemma comps_render rooted cs : clean_list rooted cs -> comps (render rooted cs) = cs.
Proof.
  intros H. unfold comps. rewrite render_rooted by done. unfold render.
  destruct cs as [|c cs']; [by destruct rooted|]. destruct rooted.
  - rewrite split_on_sep, (split_on_comps true) by done.
    etrans; [|by apply (clean_comps_id true)]. done.
  - rewrite (split_on_comps false) by done. by apply (clean_comps_id false).
Qed.

Lemma comps_Clean p : comps (Clean p) = comps p.
Proof. apply comps_render, comps_clean. Qed.
Lemma isRooted_Clean p : isRooted (Clean p) = isRooted p.
Proof. apply render_rooted, comps_clean. Qed.

(** [Clean] is idempotent. *)
Lemma Clean_idem p : Clean (Clean p) = Clean p.
Proof. unfold Clean at 1. by rewrite isRooted_Clean, comps_Clean. Qed.
#[export] Hint Rewrite comps_Clean isRooted_Clean Clean_idem : ipgaze.

(** Paths with equal rootedness and components are equal after cleaning. *)
Lemma Clean_eq p q : isRooted p = isRooted q -> comps p = comps q -> Clean p = Clean q.
Proof. unfold Clean. congruence. Qed.

(** ** Empty components do not matter *)

(** The non-empty slash-separated components of a string. *)
Definition segments (s : gostr) : list gostr :=
  filter (fun c => c <> []) (split_on slash s).

Lemma segments_app a b : segments (a ++ slash :: b) = segments a ++ segments b.
Proof. unfold segments. by rewrite split_on_app_gen, filter_app. Qed.
Lemma segments_slash b : segments (slash :: b) = segments b.
Proof. apply (segments_app []). Qed.

Lemma segments_Join ps : segments (Join ps [slash]) = ps ≫= segments.
Proof.
  induction ps as [|p ps IH]; [done|]. destruct ps as [|q ps].
  - simpl. by rewrite app_nil_r.
  - rewrite Join_cons1, segments_app by done. by rewrite IH.
Qed.
Lemma segments_Join2 ps : segments (Join ps [slash; slash]) = ps ≫= segments.
Proof.
  induction ps as [|p ps IH]; [done|]. destruct ps as [|q ps].
  - simpl. by rewrite app_nil_r.
  - rewrite Join_cons2, segments_app, segments_slash by done. by rewrite IH.
Qed.

Lemma clean_fold_filter rooted cs out :
  fold_left (clean_push rooted) (filter (fun c => c <> []) cs) out = fold_left (clean_push rooted) cs out.
Proof.
  revert out. induction cs as [|c cs IH]; intros out; [done|].
  rewrite filter_cons. case_decide as Hc; simpl; rewrite IH; [done|].
  by subst.
Qed.
(** Cleaning only reads the non-empty components. *)
Lemma comps_segments p : comps p = clean_comps (isRooted p) (segments p).
Proof. unfold comps, clean_comps, segments. by rewrite clean_fold_filter. Qed.

Lemma Clean_segments p q : isRooted p = isRooted q -> segments p = segments q -> Clean p = Clean q.
Proof. intros Hr Hs. apply Clean_eq; [done|]. by rewrite !comps_segments, Hr, Hs. Qed.

(** Appending plain components to a cleaned path appends them. *)
Lemma clean_comps_plain rooted cs rest :
  Forall plain rest -> clean_comps rooted (cs ++ rest) = clean_comps rooted cs ++ rest.
Proof.
  intros H. unfold clean_comps. rewrite fold_left_app, fold_plain by done.
  by rewrite reverse_app, reverse_involutive.
Qed.

Lemma isRooted_HasPrefix p : HasPrefix p (str "/") = isRooted p.
Proof.
  destruct p as [|c p]; [done|]. unfold HasPrefix, isRooted. apply bool_decide_ext. split.
  - intros [k Hk]. by simplify_eq/=.
  - intros ->. by exists p.
Qed.

(** The bytes of a cleaned path come from the path, apart from "/" and ".". *)
Lemma elem_of_Join c ps sep : c ∈ Join ps sep -> c ∈ sep \/ exists p, p ∈ ps /\ c ∈ p.
Proof.
  induction ps as [|p ps IH]; [by intros ?%elem_of_nil|].
  destruct ps as [|q ps]; [intros H; right; exists p; set_solver|].
  rewrite Join_cons, !elem_of_app by done. intros [H|[H|H]]; [right; exists p; set_solver|by left|].
  destruct (IH H) as [?|(r & Hr & ?)]; [by left|right]. exists r. split; [by right|done].
Qed.
Lemma elem_of_split_on c s p x : p ∈ split_on c s -> x ∈ p -> x ∈ s.
Proof.
  revert p. induction s as [|d s IH]; simpl; intros p.
  - intros ->%list_elem_of_singleton. done.
  - case_bool_decide.
    + intros [->|Hp]%elem_of_cons Hx; [by apply elem_of_nil in Hx|right; eauto].
    + destruct (split_on c s) as [|q qs] eqn:E; [by apply split_on_nonempty in E|].
      intros [->|Hp]%elem_of_cons Hx.
      * apply elem_of_cons in Hx as [->|Hx]; [by left|]. right. apply (IH q); [by left|done].
      * right. apply (IH p); [by right|done].
Qed.
Lemma clean_fold_elem rooted cs out c :
  c ∈ fold_left (clean_push rooted) cs out -> c = dotdot \/ c ∈ cs \/ c ∈ out.
Proof.
  revert out. induction cs as [|d cs IH]; intros out Hc; simpl in *; [auto|].
  destruct (IH _ Hc) as [?|[?|Hin]]; [auto|right; left; by right|].
  unfold clean_push in Hin. repeat (case_match; bool_facts; simplify_eq); set_solver.
Qed.
Lemma elem_of_Clean p x : x ∈ Clean p -> x = slash \/ x = "."%char \/ x ∈ p.
Proof.
  assert (x ∈ Join (comps p) [slash] -> x = slash \/ x = "."%char \/ x ∈ p) as HJ.
  { intros [->%list_elem_of_singleton|(c & Hc & Hx)]%elem_of_Join; [by left|right].
    unfold comps, clean_comps in Hc. apply elem_of_reverse, clean_fold_elem in Hc as [->|[Hc|Hc]].
    - left. unfold dotdot in Hx. simpl in Hx. set_solver.
    - right. by eapply elem_of_split_on.
    - by apply elem_of_nil in Hc. }
  unfold Clean, render. destruct (isRooted p).
  - intros [->|?]%elem_of_cons; auto.
  - destruct (comps p); [|done]. unfold dot; simpl. set_solver.
Qed.

(** ** Joining and relativising *)

Lemma Clean_nonempty p : Clean p <> [].
Proof.
  unfold Clean, render. destruct (isRooted p); [done|].
  pose proof (comps_clean p) as H. destruct (comps p) as [|c cs]; [done|].
  pose proof (clean_list_nonempty _ _ c H (list_elem_of_here _ _)) as Hc.
  destruct cs; [done|]. rewrite Join_cons1 by done. by destruct c.
Qed.

Lemma filter_clean rooted cs : clean_list rooted cs -> filter (fun c => c <> []) cs = cs.
Proof.
  intros H. assert (Forall (fun c => c <> []) cs) as Hne.
  { apply Forall_forall. intros c. by eapply clean_list_nonempty. }
  clear H. induction Hne as [|c cs Hc _ IH]; [done|]. by rewrite filter_cons_True, IH.
Qed.
Lemma segments_comps rooted cs : clean_list rooted cs -> segments (Join cs [slash]) = cs.
Proof.
  intros H. destruct cs as [|c cs]; [done|]. unfold segments.
  rewrite (split_on_comps rooted) by done. by eapply filter_clean.
Qed.
(** The segments of a cleaned path are its components; "." stands for none. *)
Lemma segments_Clean p :
  segments (Clean p) = comps p \/ (comps p = [] /\ segments (Clean p) = [dot]).
Proof.
  pose proof (comps_clean p) as H. unfold Clean, render. destruct (isRooted p).
  - left. rewrite segments_slash. by eapply segments_comps.
  - destruct (comps p) as [|c cs]; [by right|left]. by eapply segments_comps.
Qed.
Lemma segments_Clean_rooted p : isRooted p = true -> segments (Clean p) = comps p.
Proof.
  intros Hr. pose proof (comps_clean p) as H. unfold Clean, render. rewrite Hr.
  rewrite segments_slash. by eapply segments_comps.
Qed.

Lemma comps_join base p :
  Forall plain (comps p) -> base <> [] ->
  isRooted (path_Join (Clean base) (Clean p)) = isRooted base /\
  comps (path_Join (Clean base) (Clean p)) = comps base ++ comps p.
Proof.
  intros Hp Hb. unfold path_Join. pose proof (Clean_nonempty base) as Hne.
  assert (isRooted (Clean base ++ slash :: Clean p) = isRooted base) as Hr.
  { rewrite <-(isRooted_Clean base). by destruct (Clean base). }
  destruct (Clean base) as [|x xs] eqn:Eb; [done|]. rewrite <-Eb in *.
  rewrite isRooted_Clean, comps_Clean. split; [done|].
  rewrite comps_segments, Hr, segments_app.
  assert (clean_comps (isRooted base) (segments (Clean base)) = comps base) as Hcb.
  { rewrite <-(isRooted_Clean base), <-comps_segments. apply comps_Clean. }
  destruct (segments_Clean p) as [->|[Hn ->]].
  - by rewrite clean_comps_plain, Hcb.
  - rewrite Hn, app_nil_r, <-Hcb. unfold clean_comps. by rewrite fold_left_app.
Qed.

Lemma strip_common_app bs ts : strip_common bs (bs ++ ts) = ([], ts).
Proof. induction bs as [|b bs IH]; simpl; [by destruct ts|]. by rewrite bool_decide_true. Qed.

(** The relative path from a directory to a path below it. *)
Lemma Rel_below base full rest :
  isRooted full = isRooted base -> comps full = comps base ++ rest ->
  Rel base full = Some (if bool_decide (rest = []) then dot else Join rest [slash]).
Proof.
  intros Hr Hc. unfold Rel. destruct (decide (rest = [])) as [->|Hne].
  - rewrite !bool_decide_true; [done..|]. apply Clean_eq; [done|]. by rewrite Hc, app_nil_r.
  - assert (comps full <> comps base) as Hdiff.
    { rewrite Hc. intros E. rewrite <-(app_nil_r (comps base)) in E at 2.
      by apply app_inv_head in E. }
    rewrite (bool_decide_false (rest = [])), bool_decide_false by
      (done || (intros E; apply Hdiff; by rewrite <-(comps_Clean full), E, comps_Clean)).
    rewrite Hr, Bool.eqb_reflx. simpl.
    assert (targ_comps full = comps base ++ rest) as ->.
    { unfold targ_comps. rewrite Hc. destruct (comps base ++ rest) eqn:E; [|done].
      apply app_eq_nil in E as [_ ?]. done. }
    by rewrite strip_common_app.
Qed.

Lemma Contains_Join c cs sep : c ∈ cs -> Contains (Join cs sep) c = true.
Proof.
  rewrite Contains_true. induction cs as [|d cs IH]; [by intros ?%elem_of_nil|].
  intros [->|Hc]%elem_of_cons.
  - destruct cs; [exists [], []; by rewrite app_nil_r|]. rewrite Join_cons by done. by exists [], (sep ++ Join (l :: cs) sep).
  - destruct cs as [|e cs]; [by apply elem_of_nil in Hc|]. destruct (IH Hc) as (a & b & E).
    rewrite Join_cons, E by done. exists (d ++ sep ++ a), b. by rewrite <-!app_assoc.
Qed.

(** A cleaned path without ".." has only plain components. *)
Lemma Clean_Join_sub p : exists a b, Clean p = a ++ Join (comps p) [slash] ++ b.
Proof.
  unfold Clean, render. destruct (isRooted p).
  - exists [slash], []. by rewrite app_nil_r.
  - destruct (comps p) as [|c cs]; [by exists [], dot|]. exists [], []. by rewrite app_nil_r.
Qed.
Lemma no_dotdot_plain p : Contains (Clean p) dotdot = false -> Forall plain (comps p).
Proof.
  intros Hd. destruct (comps_clean p) as (n & rest & Hc & Hr & _).
  destruct n as [|n]; [by rewrite Hc|]. destruct (Clean_Join_sub p) as (a & b & E).
  rewrite E, Contains_mono in Hd; [done|]. apply Contains_Join. rewrite Hc. by left.
Qed.

Lemma Clean_no_double_slash p k : Clean p <> slash :: slash :: k.
Proof.
  pose proof (isRooted_Join _ _ (comps_clean p)) as Hj. unfold Clean, render.
  destruct (isRooted p).
  - intros [= E]. by rewrite E in Hj.
  - destruct (comps p); [done|]. intros E. by rewrite E in Hj.
Qed.
