(* ===== verification/GoNet.v ===== *)
(** * Go's [net] and [net/netip] address functions

    An address ([net.IP]) is its list of bytes, 4 or 16 of them; [[]] is the
    nil address.  Parsing, printing, masks, networks and the classification
    predicates are those of the language's standard library. *)

From S2P Require Import Prelude GoStrings.

Abbreviation IP := (list Z).

Definition v4InV6Prefix : list Z := [0;0;0;0;0;0;0;0;0;0;255;255].
Definition IPv4 (a b c d : Z) : IP := v4InV6Prefix ++ [a; b; c; d].
Definition IPv6loopback : IP := [0;0;0;0;0;0;0;0;0;0;0;0;0;0;0;1].
Definition IPv6unspecified : IP := replicate 16 0.

Definition To4 (ip : IP) : option IP :=
  if Nat.eqb (length ip) 4 then Some ip
  else if Nat.eqb (length ip) 16 && bool_decide (take 12 ip = v4InV6Prefix)
  then Some (drop 12 ip)
  else None.

Definition IP_Equal (ip x : IP) : bool :=
  if Nat.eqb (length ip) (length x) then bool_decide (ip = x)
  else if Nat.eqb (length ip) 4 && Nat.eqb (length x) 16
  then bool_decide (take 12 x = v4InV6Prefix) && bool_decide (ip = drop 12 x)
  else if Nat.eqb (length ip) 16 && Nat.eqb (length x) 4
  then bool_decide (take 12 ip = v4InV6Prefix) && bool_decide (drop 12 ip = x)
  else false.

(** ** Parsing *)

(** [parseIPv4Fields]: [first] and [prevdot] tell where the current byte is. *)
Fixpoint v4_fields (s : gostr) (first prevdot : bool) (val digLen pos : Z) (acc : list Z)
  : option (list Z) :=
  match s with
  | [] => if pos <? 3 then None else Some (acc ++ [val])
  | c :: s' =>
      if isDigit c then
        if (digLen =? 1) && (val =? 0) then None
        else
          let val := val * 10 + (code c - 48) in
          if 255 <? val then None
          else v4_fields s' false false val (digLen + 1) pos acc
      else if bool_decide (c = "."%char) then
        if first || bool_decide (s' = []) || prevdot then None
        else if pos =? 3 then None
        else v4_fields s' false true 0 0 (pos + 1) (acc ++ [val])
      else None
  end.
Definition parseIPv4Fields (s : gostr) : option (list Z) := v4_fields s true false 0 0 0 [].

Definition hexval (c : ascii) : option Z :=
  if between "0" "9" c then Some (code c - 48)
  else if between "a" "f" c then Some (code c - 87)
  else if between "A" "F" c then Some (code c - 55)
  else None.
(** The maximal run of hexadecimal digits: its values and the rest. *)
Fixpoint hex_run (s : gostr) : list Z * gostr :=
  match s with
  | c :: s' =>
      match hexval c with
      | Some v => let '(vs, r) := hex_run s' in (v :: vs, r)
      | None => ([], s)
      end
  | [] => ([], [])
  end.
Definition hex_value (vs : list Z) : Z := fold_left (fun acc v => acc * 16 + v) vs 0.

(** The group loop of [parseIPv6]: [groups] is the number of groups left,
    [acc] the bytes read, [ell] the position of an ellipsis. *)
Fixpoint parse6 (groups : nat) (s : gostr) (acc : list Z) (ell : option nat)
  : option (list Z * option nat * gostr) :=
  match groups with
  | O => Some (acc, ell, s)
  | S k =>
      let '(vs, rest) := hex_run s in
      if Nat.eqb (length vs) 0 || Nat.ltb 4 (length vs) then None
      else match rest with
           | "."%char :: _ =>
               if bool_decide (ell = None) && negb (Nat.eqb (length acc) 12) then None
               else if Nat.ltb 12 (length acc) then None
               else match parseIPv4Fields s with
                    | Some b => Some (acc ++ b, ell, [])
                    | None => None
                    end
           | _ =>
               let v := hex_value vs in
               let acc := acc ++ [v / 256; v mod 256] in
               match rest with
               | [] => Some (acc, ell, [])
               | ":"%char :: [] => None
               | ":"%char :: ":"%char :: s'' =>
                   if bool_decide (ell <> None) then None
                   else match s'' with
                        | [] => Some (acc, Some (length acc), [])
                        | _ => parse6 k s'' acc (Some (length acc))
                        end
               | ":"%char :: s' => parse6 k s' acc ell
               | _ => None
               end
           end
  end.

Definition expand6 (r : option (list Z * option nat * gostr)) : option (list Z) :=
  match r with
  | Some (acc, ell, []) =>
      if Nat.ltb (length acc) 16 then
        match ell with
        | None => None
        | Some e => Some (take e acc ++ replicate (16 - length acc) 0 ++ drop e acc)
        end
      else if bool_decide (ell <> None) then None
      else Some acc
  | _ => None
  end.

(** An address of [net/netip]: 4 bytes, or 16 bytes with a zone. *)
Inductive addr :=
| Addr4 (b : list Z)
| Addr6 (b : list Z) (zone : gostr).

Definition parse6_body (s : gostr) : option (list Z) :=
  match s with
  | ":"%char :: ":"%char :: [] => Some IPv6unspecified
  | ":"%char :: ":"%char :: s' => expand6 (parse6 8 s' [] (Some 0%nat))
  | _ => expand6 (parse6 8 s [] None)
  end.
Definition parseIPv6 (s : gostr) : option addr :=
  match IndexByte s "%" with
  | Some i =>
      let zone := drop (S i) s in
      if bool_decide (zone = []) then None
      else (fun b => Addr6 b zone) <$> parse6_body (take i s)
  | None => (fun b => Addr6 b []) <$> parse6_body s
  end.

Fixpoint addr_kind (s : gostr) : option ascii :=
  match s with
  | [] => None
  | c :: s' => if bool_decide (c ∈ [".";":";"%"]%char) then Some c else addr_kind s'
  end.
Definition ParseAddr (s : gostr) : option addr :=
  match addr_kind s with
  | Some "."%char => Addr4 <$> parseIPv4Fields s
  | Some ":"%char => parseIPv6 s
  | _ => None
  end.

Definition ParseIP (s : gostr) : option IP :=
  match ParseAddr s with
  | Some (Addr4 b) => Some (v4InV6Prefix ++ b)
  | Some (Addr6 b []) => Some b
  | _ => None
  end.

(** ** Networks *)

(** [net.CIDRMask(ones, 8 * n)] *)
Fixpoint cidr_mask (ones : Z) (n : nat) : list Z :=
  match n with
  | O => []
  | S k =>
      (if 8 <=? ones then 255
       else if ones <=? 0 then 0
       else 255 - (Z.shiftr 255 ones))
        :: cidr_mask (ones - 8) k
  end.

Definition and_bytes (a m : list Z) : list Z := zip_with Z.land a m.
Definition IP_Mask (ip : IP) (mask : list Z) : option IP :=
  let mask := if Nat.eqb (length mask) 16 && Nat.eqb (length ip) 4 &&
                 bool_decide (take 12 mask = replicate 12 255)
              then drop 12 mask else mask in
  let ip := if Nat.eqb (length mask) 4 && Nat.eqb (length ip) 16 &&
               bool_decide (take 12 ip = v4InV6Prefix)
            then drop 12 ip else ip in
  if Nat.eqb (length ip) (length mask) then Some (and_bytes ip mask) else None.

Record IPNet := { net_IP : IP; net_Mask : list Z }.

Definition networkNumberAndMask (n : IPNet) : option (IP * list Z) :=
  let ip := match To4 (net_IP n) with
            | Some x => Some x
            | None => if Nat.eqb (length (net_IP n)) 16 then Some (net_IP n) else None
            end in
  match ip with
  | None => None
  | Some ip =>
      let m := net_Mask n in
      if Nat.eqb (length m) 4 then
        if Nat.eqb (length ip) 4 then Some (ip, m) else None
      else if Nat.eqb (length m) 16 then
        if Nat.eqb (length ip) 4 then Some (ip, drop 12 m) else Some (ip, m)
      else None
  end.
Definition IPNet_Contains (n : IPNet) (ip : IP) : bool :=
  let ip := match To4 ip with Some x => x | None => ip end in
  match networkNumberAndMask n with
  | None => Nat.eqb (length ip) 0
  | Some (nn, m) =>
      Nat.eqb (length ip) (length nn) && bool_decide (and_bytes nn m = and_bytes ip m)
  end.

(** [dtoi]: decimal digits up to the first other byte, failing on overflow
    and on no digits. *)
Definition dtoi_all (s : gostr) : option Z :=
  match parse_digits s with
  | Some n => if n <? 16777215 then Some n else None
  | None => None
  end.
Definition ParseCIDR (s : gostr) : option (IP * IPNet) :=
  match IndexByte s "/" with
  | None => None
  | Some i =>
      let mask := drop (S i) s in
      match ParseAddr (take i s), dtoi_all mask with
      | Some (Addr4 b), Some n =>
          if 32 <? n then None
          else
            let m := cidr_mask n 4 in
            (fun nip => (v4InV6Prefix ++ b, {| net_IP := nip; net_Mask := m |}))
              <$> IP_Mask (v4InV6Prefix ++ b) m
      | Some (Addr6 b []), Some n =>
          if 128 <? n then None
          else
            let m := cidr_mask n 16 in
            (fun nip => (b, {| net_IP := nip; net_Mask := m |})) <$> IP_Mask b m
      | _, _ => None
      end
  end.

(** ** Host and port *)

Definition LastIndexByte (s : gostr) (b : ascii) : option nat :=
  (fun i => (length s - 1 - i)%nat) <$> IndexByte (reverse s) b.
Definition noByte (s : gostr) (b : ascii) : bool := bool_decide (IndexByte s b = None).

Definition SplitHostPort (hostport : gostr) : option (gostr * gostr) :=
  match LastIndexByte hostport ":" with
  | None => None
  | Some i =>
      let port := drop (S i) hostport in
      match hostport with
      | "["%char :: _ =>
          match IndexByte hostport "]" with
          | None => None
          | Some e =>
              if Nat.eqb (S e) i then
                if noByte (drop 1 hostport) "[" && noByte (drop (S e) hostport) "]"
                then Some (drop 1 (take e hostport), port) else None
              else None
          end
      | _ =>
          let host := take i hostport in
          if noByte host ":" && noByte hostport "[" && noByte hostport "]"
          then Some (host, port) else None
      end
  end.

(** The host part when the text is host:port, the text itself otherwise, as
    the callers write it. *)
Definition host_of (addr : gostr) : gostr :=
  match SplitHostPort addr with Some (h, _) => h | None => addr end.

(** ** Printing *)

Definition dotted (b : list Z) : gostr := Join (Itoa <$> b) (str ".").
Definition hexdigit (n : Z) : ascii := if n <? 10 then chr (48 + n) else chr (87 + n).
Fixpoint hex_digits (fuel : nat) (n : Z) : gostr :=
  match fuel with
  | O => []
  | S k => if n <? 16 then [hexdigit n] else hex_digits k (n / 16) ++ [hexdigit (n mod 16)]
  end.
Definition hex16 (n : Z) : gostr := hex_digits 4 n.

Fixpoint groups16 (b : list Z) : list Z :=
  match b with
  | h :: l :: b' => (h * 256 + l) :: groups16 b'
  | _ => []
  end.
(** Length of the run of zero groups at the head. *)
Fixpoint zero_run (gs : list Z) : nat :=
  match gs with
  | 0 :: gs' => S (zero_run gs')
  | _ => 0
  end.
(** The first longest run of at least two zero groups: start and length. *)
Fixpoint best_run (i : nat) (gs : list Z) (best : nat * nat) : nat * nat :=
  match gs with
  | [] => best
  | _ :: gs' =>
      let l := zero_run gs in
      best_run (S i) gs' (if Nat.leb 2 l && Nat.ltb best.2 l then (i, l) else best)
  end.
Definition string6 (b : list Z) : gostr :=
  let gs := groups16 b in
  let '(e, l) := best_run 0 gs (0%nat, 0%nat) in
  if Nat.eqb l 0 then Join (hex16 <$> gs) (str ":")
  else Join (hex16 <$> take e gs) (str ":") ++ str "::" ++ Join (hex16 <$> drop (e + l) gs) (str ":").
Definition IP_String (ip : IP) : gostr :=
  match ip with
  | [] => str "<nil>"
  | _ =>
      match To4 ip with
      | Some b => dotted b
      | None =>
          if Nat.eqb (length ip) 16 then string6 ip
          else str "?" ++ (ip ≫= fun b => [hexdigit (b / 16); hexdigit (b mod 16)])
      end
  end.

(** ** Classification *)

Definition byte_at (ip : IP) (i : nat) : Z := default 0 (ip !! i).

Definition IsUnspecified (ip : IP) : bool :=
  IP_Equal ip (IPv4 0 0 0 0) || IP_Equal ip IPv6unspecified.
Definition IsLoopback (ip : IP) : bool :=
  match To4 ip with
  | Some ip4 => byte_at ip4 0 =? 127
  | None => IP_Equal ip IPv6loopback
  end.
Definition IsMulticast (ip : IP) : bool :=
  match To4 ip with
  | Some ip4 => Z.land (byte_at ip4 0) 240 =? 224
  | None => Nat.eqb (length ip) 16 && (byte_at ip 0 =? 255)
  end.
Definition IsLinkLocalMulticast (ip : IP) : bool :=
  match To4 ip with
  | Some ip4 => (byte_at ip4 0 =? 224) && (byte_at ip4 1 =? 0) && (byte_at ip4 2 =? 0)
  | None => Nat.eqb (length ip) 16 && (byte_at ip 0 =? 255) && (Z.land (byte_at ip 1) 15 =? 2)
  end.
Definition IsLinkLocalUnicast (ip : IP) : bool :=
  match To4 ip with
  | Some ip4 => (byte_at ip4 0 =? 169) && (byte_at ip4 1 =? 254)
  | None => Nat.eqb (length ip) 16 && (byte_at ip 0 =? 254) && (Z.land (byte_at ip 1) 192 =? 128)
  end.
Definition IsGlobalUnicast (ip : IP) : bool :=
  (Nat.eqb (length ip) 4 || Nat.eqb (length ip) 16) &&
  negb (IP_Equal ip (IPv4 255 255 255 255)) && negb (IsUnspecified ip) &&
  negb (IsLoopback ip) && negb (IsMulticast ip) && negb (IsLinkLocalUnicast ip).

(** ** Facts used by the components *)

Definition is_byte (b : Z) : Prop := 0 <= b < 256.
#[export] Hint Unfold is_byte : ipgaze.

(** A boolean fact about every byte, by evaluation. *)
Lemma byte_forallb (p : Z -> bool) :
  forallb p (seqZ 0 256) = true -> forall b, is_byte b -> p b = true.
Proof.
  intros Hall b Hb. rewrite forallb_forall in Hall. apply Hall.
  apply list_elem_of_In, elem_of_seqZ. unfold is_byte in Hb. lia.
Qed.
(** A property of every byte, case by case. *)
Lemma byte_cases (P : Z -> Prop) : Forall P (seqZ 0 256) -> forall b, is_byte b -> P b.
Proof.
  intros Hall b Hb. rewrite Forall_forall in Hall. apply Hall, elem_of_seqZ.
  unfold is_byte in Hb. lia.
Qed.

Lemma land_255 b : is_byte b -> Z.land b 255 = b.
Proof. intros Hb. change 255 with (Z.ones 8). rewrite Z.land_ones by lia. by apply Z.mod_small. Qed.
Lemma land_range k lo hi b :
  forallb (fun x => Bool.eqb (Z.land x k =? lo) ((lo <=? x) && (x <=? hi))) (seqZ 0 256) = true ->
  is_byte b -> Z.land b k = lo <-> lo <= b <= hi.
Proof.
  intros Hall Hb. pose proof (byte_forallb _ Hall b Hb) as H. apply Bool.eqb_prop in H.
  split; intros E.
  - apply Z.eqb_eq in E. rewrite E in H. symmetry in H. bool_facts. lia.
  - apply Z.eqb_eq. rewrite H. apply andb_true_intro. lia.
Qed.

(** *** Well-formed parses *)

Lemma code_range c : 0 <= code c < 256.
Proof. unfold code. pose proof (N_ascii_bounded c). lia. Qed.
Lemma isDigit_value c : isDigit c = true -> 0 <= code c - 48 <= 9.
Proof.
  unfold isDigit, between. change (code "0") with 48. change (code "9") with 57.
  intros H. bool_facts. lia.
Qed.

Lemma v4_fields_wf s first pd val dig pos acc bs :
  0 <= val <= 255 -> pos = Z.of_nat (length acc) -> (length acc <= 3)%nat -> Forall is_byte acc ->
  v4_fields s first pd val dig pos acc = Some bs -> length bs = 4%nat /\ Forall is_byte bs.
Proof.
  revert first pd val dig pos acc.
  induction s as [|c s IH]; intros first pd val dig pos acc Hv Hp Hl Ha; simpl.
  - destruct (pos <? 3) eqn:E; [done|]. intros [= <-]. bool_facts. rewrite length_app; simpl.
    split; [lia|]. apply Forall_app. split; [done|]. constructor; [unfold is_byte; lia|done].
  - destruct (isDigit c) eqn:Ed.
    + apply isDigit_value in Ed. destruct (_ && _); [done|].
      destruct (255 <? _) eqn:E; [done|]. bool_facts. apply IH; [lia|done..].
    + destruct (bool_decide _); [|done]. destruct (_ || _); [done|].
      destruct (pos =? 3) eqn:E; [done|]. bool_facts.
      apply IH; [lia|rewrite length_app; simpl; lia..|].
      apply Forall_app. split; [done|]. constructor; [unfold is_byte; lia|done].
Qed.
Lemma parseIPv4Fields_wf s bs :
  parseIPv4Fields s = Some bs -> length bs = 4%nat /\ Forall is_byte bs.
Proof. apply v4_fields_wf; simpl; [lia..|constructor]. Qed.

Lemma hexval_range c v : hexval c = Some v -> 0 <= v <= 15.
Proof.
  unfold hexval, between. change (code "0") with 48. change (code "9") with 57.
  change (code "a") with 97. change (code "f") with 102. change (code "A") with 65.
  change (code "F") with 70. go.
Qed.
Lemma hex_run_range s vs rest : hex_run s = (vs, rest) -> Forall (fun v => 0 <= v <= 15) vs.
Proof.
  revert vs rest. induction s as [|c s IH]; intros vs rest; simpl; [by intros [= <- _]|].
  destruct (hexval c) as [v|] eqn:E; [|by intros [= <- _]].
  destruct (hex_run s) as [vs' r]. intros [= <- _]. constructor; [by eapply hexval_range|by eapply IH].
Qed.
Lemma hex_value_range vs :
  (length vs <= 4)%nat -> Forall (fun v => 0 <= v <= 15) vs -> 0 <= hex_value vs < 65536.
Proof.
  intros Hl Hv. unfold hex_value.
  destruct vs as [|a [|b [|c [|d [|]]]]]; simpl in *; try lia;
    repeat (apply Forall_cons in Hv as [? Hv]); lia.
Qed.
Lemma hex_bytes v : 0 <= v < 65536 -> Forall is_byte [v / 256; v mod 256].
Proof.
  intros Hv. repeat constructor; unfold is_byte;
    [apply Z.div_pos; lia|apply Z.div_lt_upper_bound; lia|apply Z.mod_pos_bound; lia|apply Z.mod_pos_bound; lia].
Qed.

(** What the group loop maintains. *)
Definition parse6_inv (groups : nat) (acc : list Z) (ell : option nat) : Prop :=
  (length acc + 2 * groups = 16)%nat /\ Forall is_byte acc /\
  (forall e, ell = Some e -> (e <= length acc)%nat).
Definition parse6_post (r : list Z * option nat * gostr) : Prop :=
  let '(acc, ell, _) := r in
  (length acc <= 16)%nat /\ Forall is_byte acc /\ (forall e, ell = Some e -> (e <= length acc)%nat).

Lemma parse6_wf groups s acc ell r :
  parse6_inv groups acc ell -> parse6 groups s acc ell = Some r -> parse6_post r.
Proof.
  revert s acc ell. induction groups as [|k IH]; intros s acc ell (Hl & Ha & He); simpl.
  { intros [= <-]. repeat split; [lia|done|done]. }
  destruct (hex_run s) as [vs rest] eqn:Er. destruct (_ || _) eqn:El; [done|].
  apply orb_false_iff in El as [_ Hvs%Nat.ltb_ge].
  pose proof (hex_bytes _ (hex_value_range vs Hvs (hex_run_range _ _ _ Er))) as Hb.
  set (acc' := acc ++ [hex_value vs / 256; hex_value vs mod 256]).
  assert (parse6_inv k acc' ell) as Hinv.
  { unfold acc'. repeat split; rewrite ?length_app; simpl; [lia|by apply Forall_app|].
    intros e He'. specialize (He e He'). lia. }
  assert (forall o, parse6_inv k acc' o -> parse6_post (acc', o, [])) as Hstop.
  { intros o (H1 & H2 & H3). repeat split; [lia|done|done]. }
  assert (parse6_inv k acc' (Some (length acc'))) as Hinv'.
  { destruct Hinv as (H1 & H2 & H3). repeat split; [lia|done|]. intros e [= <-]. lia. }
  assert (forall b, parseIPv4Fields s = Some b -> (12 <? length acc)%nat = false ->
    parse6_post (acc ++ b, ell, [])) as Hv4.
  { intros b [Hb4 Hbb]%parseIPv4Fields_wf Hlt%Nat.ltb_ge.
    repeat split; [rewrite length_app; lia|by apply Forall_app|].
    intros e He'. specialize (He e He'). rewrite length_app. lia. }
  repeat (case_match; try discriminate); intros; simplify_eq; eauto.
Qed.

Lemma expand6_wf r b :
  (forall x, r = Some x -> parse6_post x) -> expand6 r = Some b -> length b = 16%nat /\ Forall is_byte b.
Proof.
  intros Hr. unfold expand6. destruct r as [[[acc ell] [|]]|]; try done.
  destruct (Hr _ eq_refl) as (Hl & Ha & He).
  destruct (Nat.ltb (length acc) 16) eqn:E.
  - apply Nat.ltb_lt in E. destruct ell as [e|]; [|done]. intros [= <-]. specialize (He e eq_refl).
    rewrite !length_app, length_take, length_replicate, length_drop. split; [lia|].
    rewrite !Forall_app. split_and!; [by apply Forall_take| |by apply Forall_drop].
    apply Forall_replicate. unfold is_byte. lia.
  - apply Nat.ltb_ge in E. destruct (bool_decide _); [done|]. intros [= <-]. split; [lia|done].
Qed.
Lemma parse6_body_wf s b : parse6_body s = Some b -> length b = 16%nat /\ Forall is_byte b.
Proof.
  assert (forall s ell, parse6_inv 8 [] ell -> expand6 (parse6 8 s [] ell) = Some b ->
    length b = 16%nat /\ Forall is_byte b) as Hgo.
  { intros s' ell Hinv. apply expand6_wf. intros x. by apply parse6_wf. }
  assert (parse6_inv 8 [] None) as H1 by (by repeat split).
  assert (parse6_inv 8 [] (Some 0%nat)) as H2 by (repeat split; [done..|]; by intros e [= <-]).
  unfold parse6_body. intros Hs. repeat case_match; simplify_eq; eauto.
  split; [done|]. apply Forall_replicate. unfold is_byte. lia.
Qed.

Lemma prefix_bytes : Forall is_byte v4InV6Prefix.
Proof. repeat constructor; unfold is_byte; lia. Qed.
Lemma ParseAddr_wf s a :
  ParseAddr s = Some a ->
  match a with
  | Addr4 b => length b = 4%nat /\ Forall is_byte b
  | Addr6 b _ => length b = 16%nat /\ Forall is_byte b
  end.
Proof.
  unfold ParseAddr, parseIPv6. intros Hs.
  repeat match type of Hs with
  | context [match ?x with _ => _ end] => destruct x; try discriminate
  end;
    apply fmap_Some in Hs as (b' & Hb & ->);
    by (apply parseIPv4Fields_wf in Hb || apply parse6_body_wf in Hb).
Qed.
(** A parsed address has 16 bytes. *)
Lemma ParseIP_wf s ip : ParseIP s = Some ip -> length ip = 16%nat /\ Forall is_byte ip.
Proof.
  unfold ParseIP. destruct (ParseAddr s) as [[b|b [|]]|] eqn:E; intros Hs; try discriminate;
    apply ParseAddr_wf in E as [Hl Hb]; [|by simplify_eq].
  assert (ip = v4InV6Prefix ++ b) as -> by congruence.
  split; [by rewrite length_app, Hl|]. apply Forall_app. split; [apply prefix_bytes|done].
Qed.

(** *** IPv4 *)

Lemma To4_IPv4 a b c d : To4 (IPv4 a b c d) = Some [a; b; c; d].
Proof. done. Qed.
Lemma To4_len4 x : length x = 4%nat -> To4 x = Some x.
Proof. unfold To4. by intros ->. Qed.
Lemma To4_len16 ip x : length ip = 16%nat -> To4 ip = Some x -> ip = v4InV6Prefix ++ x.
Proof.
  unfold To4. intros ->. cbn [Nat.eqb andb]. case_bool_decide as E; [|done]. intros [= <-].
  rewrite <-E. by rewrite take_drop.
Qed.
(** A 16-byte address of the IPv4 form. *)
Lemma IPv4_form ip x :
  length ip = 16%nat -> To4 ip = Some x -> exists a b c d, ip = IPv4 a b c d /\ x = [a; b; c; d].
Proof.
  intros Hl Hx. pose proof (To4_len16 _ _ Hl Hx) as ->. rewrite length_app in Hl.
  simpl in Hl. destruct x as [|a [|b [|c [|d [|]]]]]; try (simpl in Hl; lia). by exists a, b, c, d.
Qed.
Lemma Contains_IPv4 nn m a b c d :
  length nn = 4%nat -> length m = 4%nat ->
  IPNet_Contains {| net_IP := nn; net_Mask := m |} (IPv4 a b c d) =
  bool_decide (and_bytes nn m = and_bytes [a; b; c; d] m).
Proof.
  intros Hn Hm. unfold IPNet_Contains, networkNumberAndMask. rewrite To4_IPv4.
  cbn [net_IP net_Mask]. rewrite (To4_len4 nn Hn), Hm, Hn. cbn [Nat.eqb]. by rewrite Hn.
Qed.

(** Printing an IPv4 address and parsing it back. *)
Lemma v4_fields_octet a : is_byte a -> forall first pd pos acc rest,
  v4_fields (Itoa a ++ rest) first pd 0 0 pos acc =
  v4_fields rest false false a (Z.of_nat (length (Itoa a))) pos acc.
Proof.
  intros Ha. pattern a. revert a Ha. apply byte_cases.
  let l := eval vm_compute in (seqZ 0 256) in change (seqZ 0 256) with l.
  repeat (constructor; [intros; reflexivity|]). constructor.
Qed.
Lemma v4_fields_dot val dig pos acc rest :
  rest <> [] -> pos <> 3 ->
  v4_fields ("."%char :: rest) false false val dig pos acc =
  v4_fields rest false true 0 0 (pos + 1) (acc ++ [val]).
Proof.
  intros Hr Hp. cbn [v4_fields]. change (isDigit ".") with false. cbn match.
  rewrite bool_decide_true by done. rewrite (bool_decide_false _ Hr).
  cbn [orb]. by rewrite (proj2 (Z.eqb_neq _ _) Hp).
Qed.
Lemma Itoa_app_nonnil a rest : is_byte a -> Itoa a ++ rest <> [].
Proof.
  intros Ha. pattern a. revert a Ha. apply byte_cases.
  let l := eval vm_compute in (seqZ 0 256) in change (seqZ 0 256) with l.
  repeat (constructor; [discriminate|]). constructor.
Qed.
Lemma parse_dotted a b c d :
  is_byte a -> is_byte b -> is_byte c -> is_byte d ->
  parseIPv4Fields (dotted [a; b; c; d]) = Some [a; b; c; d].
Proof.
  intros Ha Hb Hc Hd. unfold parseIPv4Fields, dotted. cbn [fmap list_fmap].
  change (Join [Itoa a; Itoa b; Itoa c; Itoa d] (str ".")) with
    (Itoa a ++ "."%char :: (Itoa b ++ "."%char :: (Itoa c ++ "."%char :: Itoa d))).
  rewrite <-(app_nil_r (Itoa d)).
  rewrite (v4_fields_octet a Ha), v4_fields_dot by (by first [apply Itoa_app_nonnil | lia]).
  rewrite (v4_fields_octet b Hb), v4_fields_dot by (by first [apply Itoa_app_nonnil | lia]).
  rewrite (v4_fields_octet c Hc), v4_fields_dot by (by first [apply Itoa_app_nonnil | lia]).
  by rewrite (v4_fields_octet d Hd).
Qed.

(** *** Positions *)

Lemma IndexByte_notin b s : b ∉ s -> IndexByte s b = None.
Proof.
  unfold IndexByte. induction s as [|c s IH]; simpl; [done|].
  rewrite not_elem_of_cons. intros [Hne Hs]. rewrite bool_decide_false by congruence. by rewrite IH.
Qed.
Lemma IndexByte_first b s t : b ∉ s -> IndexByte (s ++ b :: t) b = Some (length s).
Proof.
  unfold IndexByte. induction s as [|c s IH]; simpl; [by rewrite bool_decide_true|].
  rewrite not_elem_of_cons. intros [Hne Hs]. rewrite bool_decide_false by congruence. by rewrite IH.
Qed.
Lemma IndexByte_None b s : IndexByte s b = None -> b ∉ s.
Proof.
  unfold IndexByte. induction s as [|c s IH]; simpl; [by intros _ ?%elem_of_nil|].
  case_bool_decide as Hc; [done|]. destruct (IndexFunc _ s); [done|]. intros _.
  rewrite not_elem_of_cons. split; [congruence|by apply IH].
Qed.
Lemma LastIndexByte_last b s t : b ∉ t -> LastIndexByte (s ++ b :: t) b = Some (length s).
Proof.
  intros Ht. unfold LastIndexByte. rewrite reverse_app, reverse_cons, <-app_assoc. simpl.
  rewrite IndexByte_first by (by rewrite elem_of_reverse). simpl.
  rewrite length_app, length_reverse. simpl. f_equal. lia.
Qed.

(** Splitting what was joined, for a host without colons or brackets. *)
Definition plain_host (h : gostr) : Prop :=
  (":"%char ∉ h) /\ ("["%char ∉ h) /\ ("]"%char ∉ h).
Lemma plain_host_app h t : plain_host h -> plain_host t -> plain_host (h ++ t).
Proof. unfold plain_host. set_solver. Qed.
Lemma SplitHostPort_join h p :
  plain_host h -> plain_host p -> SplitHostPort (h ++ ":"%char :: p) = Some (h, p).
Proof.
  intros (H1 & H2 & H3) (P1 & P2 & P3). unfold SplitHostPort.
  rewrite (LastIndexByte_last _ _ _ P1).
  assert (forall c, c <> ":"%char -> c ∉ h -> c ∉ p -> noByte (h ++ ":"%char :: p) c = true) as Hno.
  { intros c Hc Hh Hp. unfold noByte. rewrite IndexByte_notin; [done|]. set_solver. }
  rewrite drop_app_ge by lia. rewrite take_app_length.
  replace (S (length h) - length h)%nat with 1%nat by lia.
  assert (forall A (x y : A), match h ++ ":"%char :: p with "["%char :: _ => x | _ => y end = y) as Hm.
  { intros A x y. destruct h as [|c h]; [done|]. cbn [app].
    assert (c <> "["%char) as Hc by set_solver.
    destruct c as [[] [] [] [] [] [] [] []]; done. }
  rewrite Hm. rewrite !Hno by done. unfold noByte. by rewrite IndexByte_notin.
Qed.

Lemma Itoa_byte_digits a : is_byte a -> forallb isDigit (Itoa a) = true.
Proof. apply (byte_forallb (fun a => forallb isDigit (Itoa a))). by vm_compute. Qed.
Lemma digits_notin s c : forallb isDigit s = true -> isDigit c = false -> c ∉ s.
Proof.
  intros Hs Hc Hin. rewrite forallb_forall in Hs.
  rewrite Hs in Hc; [done|by apply list_elem_of_In].
Qed.
Lemma digits_plain s : forallb isDigit s = true -> plain_host s.
Proof. intros Hs. split_and!; by apply digits_notin. Qed.
Lemma dotted4 a b c d :
  dotted [a; b; c; d] =
  Itoa a ++ "."%char :: (Itoa b ++ "."%char :: (Itoa c ++ "."%char :: Itoa d)).
Proof. done. Qed.
Lemma dot_plain s : plain_host s -> plain_host ("."%char :: s).
Proof. unfold plain_host. rewrite !not_elem_of_cons. by intros (? & ? & ?). Qed.
Lemma dotted_plain a b c d :
  is_byte a -> is_byte b -> is_byte c -> is_byte d -> plain_host (dotted [a; b; c; d]).
Proof.
  intros. rewrite dotted4.
  repeat first [apply plain_host_app | apply dot_plain | by apply digits_plain, Itoa_byte_digits].
Qed.
Lemma addr_kind_digits s rest : forallb isDigit s = true -> addr_kind (s ++ rest) = addr_kind rest.
Proof.
  induction s as [|c s IH]; simpl; [done|]. intros [Hc Hs]%andb_true_iff.
  rewrite bool_decide_false; [by apply IH|]. intros Hin.
  repeat (apply elem_of_cons in Hin as [->|Hin]; [done|]). by apply elem_of_nil in Hin.
Qed.
(** Printing an IPv4 address and parsing it back gives the address. *)
Lemma ParseAddr_dotted a b c d :
  is_byte a -> is_byte b -> is_byte c -> is_byte d ->
  ParseAddr (dotted [a; b; c; d]) = Some (Addr4 [a; b; c; d]).
Proof.
  intros. unfold ParseAddr.
  assert (addr_kind (dotted [a; b; c; d]) = Some "."%char) as ->.
  { rewrite dotted4, addr_kind_digits by (by apply Itoa_byte_digits). done. }
  by rewrite parse_dotted.
Qed.
Lemma ParseIP_dotted a b c d :
  is_byte a -> is_byte b -> is_byte c -> is_byte d ->
  ParseIP (dotted [a; b; c; d]) = Some (IPv4 a b c d).
Proof. intros. unfold ParseIP. by rewrite ParseAddr_dotted. Qed.

(** The peer address of a connection over IPv4, as the server prints it. *)
Definition v4_remote (a b c d : Z) (port : gostr) : gostr := dotted [a; b; c; d] ++ ":"%char :: port.
Lemma host_of_v4_remote a b c d port :
  is_byte a -> is_byte b -> is_byte c -> is_byte d -> forallb isDigit port = true ->
  host_of (v4_remote a b c d port) = dotted [a; b; c; d].
Proof.
  intros. unfold host_of, v4_remote.
  rewrite SplitHostPort_join; [done|by apply dotted_plain|by apply digits_plain].
Qed.
