(* ===== verification/IpText.v ===== *)
(** * Addresses as text: printing and parsing are inverse

    Every address of 16 bytes is printed by [net.IP.String] to a text that
    [net.ParseIP] reads back as the address: dotted for the IPv4 form, with the longest
    run of zero groups abbreviated otherwise.  The endpoints that name an address in
    their path hand it on as text, so their answers rest on this. *)
From S2P Require Import Prelude GoStrings GoNet.
#[local] Open Scope go_scope.

(** ** Hexadecimal groups *)

Definition group (g : Z) : Prop := 0 <= g < 65536.
Lemma hexval_digit n : 0 <= n < 16 -> hexval (hexdigit n) = Some n.
Proof.
  intros Hn. assert (forallb (fun m => bool_decide (hexval (hexdigit m) = Some m)) (seqZ 0 16) = true) as Hall by (vm_compute; reflexivity).
  rewrite forallb_forall in Hall. eapply bool_decide_eq_true, Hall, list_elem_of_In, elem_of_seqZ. lia.
Qed.
(** The digits of a group, most significant first. *)
Fixpoint hex_vals (fuel : nat) (n : Z) : list Z :=
  match fuel with
  | O => []
  | S k => if n <? 16 then [n] else hex_vals k (n / 16) ++ [n mod 16]
  end.
Lemma hex_digits_vals fuel n : hex_digits fuel n = hexdigit <$> hex_vals fuel n.
Proof.
  revert n. induction fuel as [|k IH]; intros n; [done|]. cbn [hex_digits hex_vals]. destruct (n <? 16); [done|]. by rewrite fmap_app, IH.
Qed.
Lemma hex_vals_range fuel n : 0 <= n -> Forall (fun v => 0 <= v < 16) (hex_vals fuel n).
Proof.
  revert n. induction fuel as [|k IH]; intros n Hn; [constructor|]. cbn [hex_vals]. destruct (Z.ltb_spec n 16); [by repeat constructor|].
  apply Forall_app. split; [apply IH; apply Z.div_pos; lia|]. repeat constructor; apply Z.mod_pos_bound; lia.
Qed.
Lemma hex_value_snoc vs v : hex_value (vs ++ [v]) = hex_value vs * 16 + v.
Proof. unfold hex_value. by rewrite fold_left_app. Qed.
Lemma hex_vals_value fuel n : 0 <= n < 16 ^ Z.of_nat fuel -> hex_value (hex_vals fuel n) = n.
Proof.
  revert n. induction fuel as [|k IH]; intros n Hn; [cbn in Hn; cbn; lia|]. cbn [hex_vals]. destruct (Z.ltb_spec n 16); [cbn; lia|].
  rewrite hex_value_snoc, IH; [pose proof (Z.div_mod n 16); lia|]. rewrite Nat2Z.inj_succ, Z.pow_succ_r in Hn by lia. split; [apply Z.div_pos; lia|]. apply Z.div_lt_upper_bound; lia.
Qed.
Lemma hex_vals_length fuel n : (0 < fuel)%nat -> (1 <= length (hex_vals fuel n) <= fuel)%nat.
Proof.
  revert n. induction fuel as [|k IH]; intros n Hf; [lia|]. cbn [hex_vals]. destruct (n <? 16); [cbn; lia|]. rewrite length_app. cbn.
  destruct k as [|k]; [cbn; lia|]. specialize (IH (n / 16)). lia.
Qed.
Lemma hex_run_digits vs rest : Forall (fun v => 0 <= v < 16) vs -> (forall c s, rest = c :: s -> hexval c = None) -> hex_run ((hexdigit <$> vs) ++ rest) = (vs, rest).
Proof.
  intros Hv Hr. induction Hv as [|v vs Hv _ IH].
  - destruct rest as [|c s]; [done|]. cbn. by rewrite (Hr c s).
  - rewrite fmap_cons. cbn [app hex_run]. rewrite hexval_digit by done. by rewrite IH.
Qed.
Definition ends (rest : gostr) : Prop := rest = [] \/ exists s, rest = ":"%char :: s.
Lemma hex_run_group g rest : group g -> ends rest -> exists vs, hex_run (hex16 g ++ rest) = (vs, rest) /\ hex_value vs = g /\ (1 <= length vs <= 4)%nat.
Proof.
  intros Hg Hr. exists (hex_vals 4 g). unfold hex16. rewrite hex_digits_vals. split_and!.
  - apply hex_run_digits; [apply hex_vals_range; unfold group in Hg; lia|]. intros c s E. destruct Hr as [->|[s' ->]]; [done|]. by injection E as <- <-.
  - apply hex_vals_value. unfold group in Hg. change (16 ^ Z.of_nat 4) with 65536. lia.
  - pose proof (hex_vals_length 4 g ltac:(lia)). lia.
  - pose proof (hex_vals_length 4 g ltac:(lia)). lia.
Qed.
Lemma hex16_head g : group g -> exists v t, hex16 g = hexdigit v :: t /\ 0 <= v < 16.
Proof.
  intros Hg. unfold hex16. rewrite hex_digits_vals. pose proof (hex_vals_length 4 g ltac:(lia)) as Hl. assert (0 <= g) as H0 by (unfold group in Hg; lia). pose proof (hex_vals_range 4 g H0) as Hr.
  destruct (hex_vals 4 g) as [|v vs]; [cbn in Hl; lia|]. apply Forall_cons in Hr as [Hv _]. by exists v, (hexdigit <$> vs).
Qed.
Lemma hexdigit_not v c : 0 <= v < 16 -> hexval c = None -> hexdigit v <> c.
Proof. intros Hv Hc E. rewrite <- E, hexval_digit in Hc by done. done. Qed.

(** ** Sequences of groups *)

Definition bytes_of (gs : list Z) : list Z := gs ≫= fun g => [g / 256; g mod 256].
Definition text_of (gs : list Z) : gostr := Join (hex16 <$> gs) (str ":").
Lemma text_of_cons g gs : gs <> [] -> text_of (g :: gs) = hex16 g ++ ":"%char :: text_of gs.
Proof. intros Hne. unfold text_of. rewrite fmap_cons. change (str ":") with [":"%char]. by rewrite Join_cons1 by by destruct gs. Qed.
Lemma text_of_head gs : gs <> [] -> Forall group gs -> exists v t, text_of gs = hexdigit v :: t /\ 0 <= v < 16.
Proof.
  intros Hne Hg. destruct gs as [|g gs]; [done|]. apply Forall_cons in Hg as [Hg _]. destruct (hex16_head g Hg) as (v & t & E & Hv).
  destruct gs as [|g2 gs]; [exists v, t; by split|]. rewrite text_of_cons, E by done. by eexists _, _.
Qed.
Lemma bytes_of_length gs : length (bytes_of gs) = (2 * length gs)%nat.
Proof. unfold bytes_of. induction gs as [|g gs IH]; [done|]. cbn in *. lia. Qed.
Lemma bytes_of_app gs hs : bytes_of (gs ++ hs) = bytes_of gs ++ bytes_of hs.
Proof. apply bind_app. Qed.
Lemma bytes_of_zeros n : bytes_of (replicate n 0) = replicate (2 * n) 0.
Proof. induction n as [|n IH]; [done|]. cbn [replicate]. change (bytes_of (0 :: replicate n 0)) with ([0; 0] ++ bytes_of (replicate n 0)). rewrite IH. by replace (2 * S n)%nat with (2 + 2 * n)%nat by lia. Qed.
Lemma bytes_of_groups b : length b = 16%nat -> Forall is_byte b -> bytes_of (groups16 b) = b /\ length (groups16 b) = 8%nat /\ Forall group (groups16 b).
Proof.
  intros Hl Hb. do 16 (destruct b as [|? b]; [done|]). destruct b; [|done]. cbn [groups16]. repeat (apply Forall_cons in Hb as [? Hb]). clear Hb. unfold is_byte, group in *. split_and!.
  - cbn. repeat f_equal; Z.div_mod_to_equations; lia.
  - done.
  - repeat (apply Forall_cons_2; [lia|]). constructor.
Qed.
(** One group and what follows it. *)
Lemma parse6_last k g acc ell : group g -> parse6 (S k) (hex16 g) acc ell = Some (acc ++ [g / 256; g mod 256], ell, []).
Proof.
  intros Hg. destruct (hex_run_group g [] Hg ltac:(by left)) as (vs & Hr & Hv & Hl). rewrite app_nil_r in Hr. cbn [parse6]. rewrite Hr.
  replace (Nat.eqb (length vs) 0 || Nat.ltb 4 (length vs)) with false by (symmetry; apply orb_false_iff; split; [apply Nat.eqb_neq|apply Nat.ltb_ge]; lia). by rewrite Hv.
Qed.
Lemma parse6_next k g v t acc ell : group g -> 0 <= v < 16 -> parse6 (S k) (hex16 g ++ ":"%char :: hexdigit v :: t) acc ell = parse6 k (hexdigit v :: t) (acc ++ [g / 256; g mod 256]) ell.
Proof.
  intros Hg Hv. destruct (hex_run_group g (":"%char :: hexdigit v :: t) Hg ltac:(right; by eexists)) as (vs & Hr & Hval & Hl). cbn [parse6]. rewrite Hr.
  replace (Nat.eqb (length vs) 0 || Nat.ltb 4 (length vs)) with false by (symmetry; apply orb_false_iff; split; [apply Nat.eqb_neq|apply Nat.ltb_ge]; lia). rewrite Hval.
  pose proof (hexdigit_not v ":"%char Hv eq_refl) as Hn. destruct (hexdigit v) as [[] [] [] [] [] [] [] []]; try done.
Qed.
Lemma parse6_groups k gs acc ell : gs <> [] -> Forall group gs -> (length gs <= k)%nat -> parse6 k (text_of gs) acc ell = Some (acc ++ bytes_of gs, ell, []).
Proof.
  revert k acc. induction gs as [|g gs IH]; intros k acc Hne Hg Hk; [done|]. apply Forall_cons in Hg as [Hg Hgs]. destruct k as [|k]; [cbn in Hk; lia|].
  destruct gs as [|g2 gs].
  - change (text_of [g]) with (hex16 g). rewrite parse6_last by done. done.
  - rewrite text_of_cons by done. destruct (text_of_head (g2 :: gs) ltac:(done) Hgs) as (v & t & E & Hv). rewrite E, parse6_next by done. rewrite <- E.
    rewrite IH by (done || (cbn in *; lia)). by rewrite <- app_assoc.
Qed.
Lemma parse6_ellipsis k gs hs acc : gs <> [] -> Forall group gs -> Forall group hs -> (length gs + length hs <= k)%nat ->
  parse6 k (text_of gs ++ str "::" ++ text_of hs) acc None = Some (acc ++ bytes_of gs ++ bytes_of hs, Some (length (acc ++ bytes_of gs)), []).
Proof.
  revert k acc. induction gs as [|g gs IH]; intros k acc Hne Hg Hh Hk; [done|]. apply Forall_cons in Hg as [Hg Hgs]. destruct k as [|k]; [cbn in Hk; lia|]. destruct gs as [|g2 gs].
  - change (text_of [g]) with (hex16 g). change (str "::" ++ text_of hs) with (":"%char :: ":"%char :: text_of hs).
    destruct (hex_run_group g (":"%char :: ":"%char :: text_of hs) Hg ltac:(right; by eexists)) as (vs & Hr & Hval & Hl). cbn [parse6]. rewrite Hr.
    replace (Nat.eqb (length vs) 0 || Nat.ltb 4 (length vs)) with false by (symmetry; apply orb_false_iff; split; [apply Nat.eqb_neq|apply Nat.ltb_ge]; lia). rewrite Hval.
    change (bytes_of [g]) with [g / 256; g mod 256]. destruct hs as [|h hs].
    + by cbn.
    + destruct (text_of_head (h :: hs) ltac:(done) Hh) as (v & t & E & Hv). cbn [bool_decide]. rewrite bool_decide_eq_false_2 by (intros Hx; by apply Hx). rewrite E. rewrite <- E.
      rewrite parse6_groups by (done || (cbn in *; lia)). by rewrite <- app_assoc.
  - rewrite text_of_cons by done. destruct (text_of_head (g2 :: gs) ltac:(done) Hgs) as (v & t & E & Hv).
    rewrite <- app_assoc. cbn [app]. rewrite E. cbn [app]. rewrite parse6_next by done. change (hexdigit v :: t ++ str "::" ++ text_of hs) with ((hexdigit v :: t) ++ str "::" ++ text_of hs). rewrite <- E.
    rewrite IH by (done || (cbn in *; lia)). change (bytes_of (g :: g2 :: gs)) with ([g / 256; g mod 256] ++ bytes_of (g2 :: gs)). by rewrite <- !app_assoc.
Qed.

(** ** The run that is abbreviated *)

Lemma zero_run_spec gs : (zero_run gs <= length gs)%nat /\ take (zero_run gs) gs = replicate (zero_run gs) 0.
Proof. induction gs as [|g gs [IH1 IH2]]; [done|]. destruct g; cbn; [|split; [lia|done]..]. rewrite IH2. split; [lia|done]. Qed.
(** A run within the groups: none, or at least two zeros at a position. *)
Definition run_at (gs : list Z) (r : nat * nat) : Prop := r.2 = 0%nat \/ ((2 <= r.2)%nat /\ (r.1 + r.2 <= length gs)%nat /\ take r.2 (drop r.1 gs) = replicate r.2 0).
Lemma best_run_spec pre gs best : run_at (pre ++ gs) best -> run_at (pre ++ gs) (best_run (length pre) gs best).
Proof.
  revert pre best. induction gs as [|g gs IH]; intros pre best Hb; [done|]. cbn [best_run].
  replace (pre ++ g :: gs) with ((pre ++ [g]) ++ gs) in * by (by rewrite <- app_assoc). replace (S (length pre)) with (length (pre ++ [g])) by (rewrite length_app; cbn; lia).
  apply IH. destruct (Nat.leb_spec 2 (zero_run (g :: gs))) as [Hle|]; [|done]. destruct (Nat.ltb_spec best.2 (zero_run (g :: gs))); [|done]. cbn [andb].
  right. cbn [fst snd]. destruct (zero_run_spec (g :: gs)) as [Hlen Ht]. split_and!; [done| |].
  - rewrite !length_app. cbn in *. lia.
  - rewrite <- app_assoc. cbn [app]. by rewrite drop_app_length.
Qed.
Lemma string6_chars gs : Forall group gs -> forall c, hexval c = None -> c <> ":"%char -> c ∉ text_of gs.
Proof.
  intros Hg c Hc Hcol. assert (forall g, group g -> c ∉ hex16 g) as Hh.
  { intros g Hgr. unfold hex16. rewrite hex_digits_vals. intros (v & E & Hin)%list_elem_of_fmap. assert (0 <= g) as H0 by (unfold group in Hgr; lia).
    pose proof (hex_vals_range 4 g H0) as Hr. rewrite Forall_forall in Hr. by apply (hexdigit_not v c (Hr v Hin) Hc). }
  induction gs as [|g gs IH]; [apply not_elem_of_nil|]. apply Forall_cons in Hg as [Hg Hgs]. destruct gs as [|g2 gs]; [by apply Hh|].
  rewrite text_of_cons by done. rewrite elem_of_app, elem_of_cons. intros [Hin|[->|Hin]]; [by apply (Hh g Hg)|done|by apply IH].
Qed.
Lemma addr_kind_colon s t : (forall c, c ∈ s -> hexval c <> None) -> addr_kind (s ++ ":"%char :: t) = Some ":"%char.
Proof.
  induction s as [|c s IH]; intros Hs; [done|]. cbn [app addr_kind]. rewrite bool_decide_eq_false_2.
  - apply IH. intros d Hd. apply Hs. by right.
  - intros Hin. apply (Hs c); [by left|]. repeat (apply elem_of_cons in Hin as [-> | Hin]; [done|]). by apply not_elem_of_nil in Hin.
Qed.
Lemma hex16_hex g c : group g -> c ∈ hex16 g -> hexval c <> None.
Proof.
  intros Hg. unfold hex16. rewrite hex_digits_vals. intros (v & -> & Hin)%list_elem_of_fmap. assert (0 <= g) as H0 by (unfold group in Hg; lia).
  pose proof (hex_vals_range 4 g H0) as Hr. rewrite Forall_forall in Hr. by rewrite hexval_digit by (by apply Hr).
Qed.
(** The first special character of a printed address is a colon. *)
Lemma text_kind gs t : Forall group gs -> (gs <> [] -> gs <> [List.hd 0 gs] \/ exists t', t = ":"%char :: t') -> (gs = [] -> exists t', t = ":"%char :: t') -> addr_kind (text_of gs ++ t) = Some ":"%char.
Proof.
  intros Hg Hne He. destruct gs as [|g gs]; [by destruct He as [t' ->]|]. apply Forall_cons in Hg as [Hg Hgs]. destruct gs as [|g2 gs].
  - destruct Hne as [Hne|[t' ->]]; [done|done|]. apply addr_kind_colon. intros c Hc. by apply (hex16_hex g c Hg).
  - rewrite text_of_cons by done. rewrite <- app_assoc. cbn [app]. apply addr_kind_colon. intros c Hc. by apply (hex16_hex g c Hg).
Qed.
Lemma parse6_body_plain gs : length gs = 8%nat -> Forall group gs -> parse6_body (text_of gs) = Some (bytes_of gs).
Proof.
  intros Hl Hg. assert (gs <> []) as Hne by (by destruct gs). assert (parse6_body (text_of gs) = expand6 (parse6 8 (text_of gs) [] None)) as ->.
  { destruct (text_of_head gs Hne Hg) as (v & t & E & Hv). rewrite E. pose proof (hexdigit_not v ":"%char Hv eq_refl). unfold parse6_body. by destruct (hexdigit v) as [[] [] [] [] [] [] [] []]. }
  rewrite parse6_groups by (done || lia). cbn [app expand6]. rewrite bytes_of_length, Hl. done.
Qed.
Lemma parse6_body_run gs e l : length gs = 8%nat -> Forall group gs -> (2 <= l)%nat -> (e + l <= 8)%nat -> take l (drop e gs) = replicate l 0 ->
  parse6_body (text_of (take e gs) ++ str "::" ++ text_of (drop (e + l) gs)) = Some (bytes_of gs).
Proof.
  intros Hl Hg Hl2 Hel Hz. set (A := take e gs). set (B := drop (e + l) gs).
  assert (gs = A ++ replicate l 0 ++ B) as Hgs. { unfold A, B. rewrite <- Hz, <- drop_drop. by rewrite take_drop, take_drop. }
  assert (length A = e) as HA by (unfold A; rewrite length_take; lia). assert (length B = (8 - e - l)%nat) as HB by (unfold B; rewrite length_drop; lia).
  assert (Forall group A) as HgA by (by apply Forall_take). assert (Forall group B) as HgB by (by apply Forall_drop).
  assert (bytes_of gs = bytes_of A ++ replicate (2 * l) 0 ++ bytes_of B) as Hb by (rewrite Hgs at 1; by rewrite !bytes_of_app, bytes_of_zeros).
  assert (expand6 (Some (bytes_of A ++ bytes_of B, Some (length (bytes_of A)), [])) = Some (bytes_of gs)) as Hex.
  { assert (length (bytes_of A ++ bytes_of B) = 16 - 2 * l)%nat as Hn by (rewrite length_app, !bytes_of_length, HA, HB; lia).
    unfold expand6. rewrite Hn. replace (Nat.ltb (16 - 2 * l) 16) with true by (symmetry; apply Nat.ltb_lt; lia).
    replace (16 - (16 - 2 * l))%nat with (2 * l)%nat by lia. by rewrite take_app_length, drop_app_length, Hb. }
  destruct A as [|a A'].
  - change (text_of []) with (@nil ascii). cbn [app]. change (str "::" ++ text_of B) with (":"%char :: ":"%char :: text_of B). destruct B as [|b B'].
    + cbn [parse6_body]. rewrite Hb. cbn in HA, HB. subst e. assert (l = 8%nat) as -> by lia. reflexivity.
    + destruct (text_of_head (b :: B') ltac:(done) HgB) as (v & t & E & Hv). assert (parse6_body (":"%char :: ":"%char :: text_of (b :: B')) = expand6 (parse6 8 (text_of (b :: B')) [] (Some 0%nat))) as ->.
      { rewrite E. reflexivity. }
      rewrite parse6_groups by (done || lia). exact Hex.
  - destruct (text_of_head (a :: A') ltac:(done) HgA) as (v & t & E & Hv).
    assert (parse6_body (text_of (a :: A') ++ str "::" ++ text_of B) = expand6 (parse6 8 (text_of (a :: A') ++ str "::" ++ text_of B) [] None)) as ->.
    { rewrite E. pose proof (hexdigit_not v ":"%char Hv eq_refl). cbn [app]. unfold parse6_body. by destruct (hexdigit v) as [[] [] [] [] [] [] [] []]. }
    rewrite parse6_ellipsis by (done || lia). exact Hex.
Qed.
(** The characters of a printed address. *)
Lemma IP_String_chars ip c : length ip = 16%nat -> Forall is_byte ip -> hexval c = None -> c <> ":"%char -> c <> "."%char -> c ∉ IP_String ip.
Proof.
  intros Hl Hb Hc H1 H2. unfold IP_String. destruct ip as [|b0 ip0] eqn:Eip; [done|]. rewrite <- Eip in *. clear Eip b0 ip0. destruct (To4 ip) as [x|] eqn:E4.
  - destruct (IPv4_form ip x Hl E4) as (a & b & c' & d & -> & ->). unfold IPv4 in Hb. apply Forall_app in Hb as [_ Hb]. repeat (apply Forall_cons in Hb as [? Hb]).
    assert (isDigit c = false) as Hd. { destruct (isDigit c) eqn:Ed; [|done]. unfold hexval in Hc. unfold isDigit in Ed. by rewrite Ed in Hc. }
    assert (forall a, is_byte a -> c ∉ Itoa a) as Hi by (intros a' Ha; apply digits_notin; [by apply Itoa_byte_digits|done]).
    unfold dotted. cbn [fmap list_fmap Join]. change (str ".") with ["."%char]. rewrite !not_elem_of_app, !not_elem_of_cons. pose proof (not_elem_of_nil (A := ascii) c). split_and!; auto.
  - rewrite Hl. cbn [Nat.eqb]. destruct (bytes_of_groups ip Hl Hb) as (_ & _ & Hg). unfold string6. destruct (best_run _ _ _) as [e l].
    destruct (Nat.eqb l 0); [by apply string6_chars|]. rewrite !not_elem_of_app. split_and!; [apply string6_chars; [by apply Forall_take|done..]| |apply string6_chars; [by apply Forall_drop|done..]].
    change (str "::") with [":"%char; ":"%char]. rewrite !not_elem_of_cons. pose proof (not_elem_of_nil (A := ascii) c). done.
Qed.
(** Printing any address and parsing the text gives the address back: dotted for the
    IPv4 form, with the longest run of zero groups abbreviated otherwise. *)
Theorem ParseIP_String ip : length ip = 16%nat -> Forall is_byte ip -> ParseIP (IP_String ip) = Some ip.
Proof.
  intros Hl Hb. unfold IP_String. destruct ip as [|b0 ip0] eqn:Eip; [done|]. rewrite <- Eip in *. clear Eip b0 ip0.
  destruct (To4 ip) as [x|] eqn:E4.
  - destruct (IPv4_form ip x Hl E4) as (a & b & c & d & -> & ->). unfold IPv4 in Hb. apply Forall_app in Hb as [_ Hb]. repeat (apply Forall_cons in Hb as [? Hb]). by apply ParseIP_dotted.
  - rewrite Hl. cbn [Nat.eqb]. destruct (bytes_of_groups ip Hl Hb) as (Hbytes & Hlen & Hg). unfold string6. set (gs := groups16 ip) in *.
    assert (forall text, addr_kind text = Some ":"%char -> "%"%char ∉ text -> parse6_body text = Some (bytes_of gs) -> ParseIP text = Some ip) as Hfin.
    { intros text Hk Hp Hbody. unfold ParseIP, ParseAddr. rewrite Hk. unfold parseIPv6. rewrite IndexByte_notin by done. rewrite Hbody. cbn. by rewrite Hbytes. }
    pose proof (best_run_spec [] gs (0%nat, 0%nat) ltac:(by left)) as Hrun. cbn [length app] in Hrun. destruct (best_run 0 gs (0%nat, 0%nat)) as [e l]. cbn [fst snd] in Hrun.
    destruct Hrun as [Hz|(Hl2 & Hel & Hz)].
    + cbn in Hz. subst l. cbn [Nat.eqb]. fold (text_of gs). apply Hfin.
      * rewrite <- (app_nil_r (text_of gs)). apply text_kind; [done|intros _; left; by destruct gs as [|? [|]]|by destruct gs].
      * by apply string6_chars.
      * by apply parse6_body_plain.
    + cbn in Hl2, Hel, Hz. destruct (Nat.eqb_spec l 0); [lia|]. fold (text_of (take e gs)) (text_of (drop (e + l) gs)). rewrite Hlen in Hel.
      assert (Forall group (take e gs)) as HA by (by apply Forall_take). assert (Forall group (drop (e + l) gs)) as HB by (by apply Forall_drop). apply Hfin.
      * apply text_kind; [done|intros _; right; by eexists|intros _; by eexists].
      * rewrite !elem_of_app. intros [Hin|[Hin|Hin]]; [by apply string6_chars in Hin| |by apply string6_chars in Hin]. revert Hin. change ("%"%char ∉ str "::"). decided.
      * by apply parse6_body_run.
Qed.
Lemma ParseIP_String_witness : ParseIP (IP_String [32; 1; 13; 184; 0; 0; 0; 0; 0; 0; 0; 0; 0; 0; 0; 1]) = Some [32; 1; 13; 184; 0; 0; 0; 0; 0; 0; 0; 0; 0; 0; 0; 1].
Proof. apply (ParseIP_String [32; 1; 13; 184; 0; 0; 0; 0; 0; 0; 0; 0; 0; 0; 0; 1]); [reflexivity|]. unfold is_byte. repeat (apply Forall_cons_2; [lia|]). constructor. Defined.
