(* ===== verification/Paths.v ===== *)
(** * Safe paths: [src/paths/safe.go]

    Traversal detection, the two containment checks ([SafePath] and
    [SafeFilePath]) and the URL-path normaliser of the routing middleware. *)

From S2P Require Import Prelude GoStrings GoPath.
#[local] Open Scope go_scope.

(** The sentinel errors of the package; [ErrGetwd] is the error of the
    operating system that [filepath.Abs] passes on. *)
Inductive path_error :=
| ErrPathTraversal
| ErrInvalidPath
| ErrPathTooLong
| ErrPathOutsideBase
| ErrGetwd.

Definition backslash : ascii := "\".
Definition NUL : ascii := "000".

(** ** Operations *)

Definition traversal_patterns : list gostr :=
  [str ".."; str "./."; str "..\"; str "\..\"].
Definition encoded_patterns : list gostr :=
  [str "%2e%2e"; str "%2e%2e/"; str "..%2f"; str "%2e%2e%2f"; str "..%5c";
   str "%2e%2e%5c"; str "..%c0%af"; str "..%c1%9c"].

Section Ops.
Context `{UnicodeTables}.

Definition containsTraversal (path : gostr) : bool :=
  let normalized := path in
  any (Contains normalized) traversal_patterns ||
  any (Contains (ToLower normalized)) encoded_patterns.

Definition SafePath (base requestPath : gostr) : result path_error gostr :=
  if base =s [] then Err ErrInvalidPath
  else if requestPath =s [] then Ok base
  else
    let cleanBase := Clean base in
    if bool_decide (NUL ∈ requestPath) then Err ErrPathTraversal
    else
      let cleanPath := Clean requestPath in
      if containsTraversal requestPath || containsTraversal cleanPath
      then Err ErrPathTraversal
      else
        let fullPath := Clean (path_Join cleanBase cleanPath) in
        match Rel cleanBase fullPath with
        | None => Err ErrPathOutsideBase
        | Some rel =>
            if HasPrefix rel (str "..") || (rel =s str "..")
            then Err ErrPathOutsideBase
            else Ok fullPath
        end.

Definition IsPathSafe (path : gostr) : bool := negb (containsTraversal path).
End Ops.

(** [for strings.Contains(path, "//") { path = strings.ReplaceAll(...) }] *)
Fixpoint collapse_slashes (fuel : nat) (path : gostr) : gostr :=
  match fuel with
  | O => path
  | S k =>
      if Contains path (str "//")
      then collapse_slashes k (ReplaceAll path (str "//") (str "/"))
      else path
  end.

Definition NormalizeURLPath (path : gostr) : gostr :=
  if (path =s []) || (path =s str "/") then str "/"
  else
    let path := ReplaceAll path [backslash] (str "/") in
    let path := collapse_slashes (length path) path in
    let path := if HasPrefix path (str "/") then path else str "/" ++ path in
    let path := if Nat.ltb 1 (length path) then TrimSuffix path (str "/") else path in
    Clean path.

Definition ValidateFilename (name : gostr) : result path_error unit :=
  if name =s [] then Err ErrInvalidPath
  else if bool_decide (NUL ∈ name) then Err ErrPathTraversal
  else if ContainsAny name [slash; backslash] then Err ErrInvalidPath
  else if (name =s str ".") || (name =s str "..") then Err ErrPathTraversal
  else if HasPrefix name (str "..") then Err ErrPathTraversal
  else Ok tt.

Definition normalizePath (input : gostr) : gostr :=
  if input =s [] then []
  else
    let cleaned := Trim (Clean input) (str "/") in
    if Contains cleaned (str "..") then [] else cleaned.

(** The regular expression [^[a-z0-9_-]+$]. *)
Definition segment_char (c : ascii) : bool :=
  between "a" "z" c || between "0" "9" c || bool_decide (c = "_"%char) || bool_decide (c = "-"%char).
Definition validPathSegment (s : gostr) : bool :=
  negb (bool_decide (s = [])) && forallb segment_char s.

Definition validatePathSegment (segment : gostr) : result path_error unit :=
  if segment =s [] then Err ErrInvalidPath
  else if Nat.ltb 64 (length segment) then Err ErrPathTooLong
  else if negb (validPathSegment segment) then Err ErrInvalidPath
  else if (segment =s str ".") || (segment =s str "..") then Err ErrPathTraversal
  else Ok tt.

Fixpoint validate_segments (segs : list gostr) : result path_error unit :=
  match segs with
  | [] => Ok tt
  | seg :: rest =>
      if seg =s [] then validate_segments rest
      else match validatePathSegment seg with
           | Err e => Err e
           | Ok _ => validate_segments rest
           end
  end.
Definition validatePath (p : gostr) : result path_error unit :=
  if Nat.ltb 2048 (length p) then Err ErrPathTooLong
  else if Contains p (str "..") then Err ErrPathTraversal
  else validate_segments (Split (Trim p (str "/")) (str "/")).

Definition SafePathSimple (input : gostr) : result path_error gostr :=
  match validatePath input with
  | Err e => Err e
  | Ok _ => Ok (normalizePath input)
  end.

(** [wd] is the working directory [filepath.Abs] reads, [None] when reading it
    fails. *)
Definition abs_path (wd : option gostr) (p : gostr) : result path_error gostr :=
  if isRooted p then Ok (Clean p)
  else match wd with Some d => Ok (Abs d p) | None => Err ErrGetwd end.

Definition SafeFilePath (wd : option gostr) (baseDir userPath : gostr) : result path_error gostr :=
  let? safe := SafePathSimple userPath in
  let fullPath := path_Join baseDir safe in
  let? absPath := abs_path wd fullPath in
  let? absBase := abs_path wd baseDir in
  if negb (HasPrefix absPath (absBase ++ [slash])) && (absPath <>s absBase)
  then Err ErrPathTraversal
  else Ok absPath.

(** ** The URL-path normaliser *)

Definition to_slash : ascii -> ascii := replace_byte backslash slash.

Lemma collapse_segments fuel p : segments (collapse_slashes fuel p) = segments p.
Proof.
  revert p. induction fuel as [|k IH]; intros p; [done|]. simpl.
  destruct (Contains p (str "//")); [|done]. rewrite IH. unfold ReplaceAll.
  change (str "/") with [slash]. change (str "//") with [slash; slash].
  by rewrite segments_Join, <-segments_Join2, Join_Split.
Qed.

Lemma collapse_rooted fuel p : isRooted (collapse_slashes fuel p) = isRooted p.
Proof.
  revert p. induction fuel as [|k IH]; intros p; [done|]. simpl.
  destruct (Contains p (str "//")); [|done]. rewrite IH.
  rewrite <-(Join_Split p (str "//")) at 2 by done. unfold ReplaceAll.
  destruct (Split p (str "//")) as [|q [|q' qs]]; [done..|].
  rewrite !Join_cons by done. by destruct q.
Qed.

(** The loop ends: as many rounds as the path has bytes leave no "//". *)
Lemma collapse_terminates fuel p :
  (length p <= fuel)%nat -> Contains (collapse_slashes fuel p) (str "//") = false.
Proof.
  revert p. induction fuel as [|k IH]; intros p Hl; simpl.
  - by destruct p; [|simpl in Hl; lia].
  - destruct (Contains p (str "//")) eqn:E; [|done]. apply IH.
    pose proof (ReplaceAll_shorter p (str "//") (str "/")). simpl in *.
    specialize (H ltac:(done) ltac:(lia) E). lia.
Qed.

Lemma TrimSuffix_slash_segments p :
  isRooted p = true -> (1 < length p)%nat ->
  isRooted (TrimSuffix p (str "/")) = true /\ segments (TrimSuffix p (str "/")) = segments p.
Proof.
  intros Hr Hl. unfold TrimSuffix. destruct (HasSuffix p (str "/")) eqn:E; [|done].
  apply HasSuffix_true in E as [k ->]. rewrite length_app in *. simpl in *.
  replace (length k + 1 - 1)%nat with (length k) by lia. rewrite take_app_length.
  split; [by destruct k; [simpl in Hl; lia|]|]. etrans; [|symmetry; apply (segments_app k [])].
  by rewrite app_nil_r.
Qed.

(** The normaliser in one line: read backslashes as slashes, anchor at the
    root, clean lexically. *)
Lemma NormalizeURLPath_eq p : NormalizeURLPath p = Clean (slash :: map to_slash p).
Proof.
  unfold NormalizeURLPath. destruct (bool_decide (p = [])) eqn:E1; bool_facts; [by subst|].
  destruct (bool_decide (p = str "/")) eqn:E2; bool_facts; [by subst|]. cbv zeta. cbn [orb].
  change (ReplaceAll p [backslash] (str "/")) with (ReplaceAll p [backslash] [slash]).
  rewrite ReplaceAll_one. fold to_slash. set (q := collapse_slashes _ _).
  assert (Hq : segments q = segments (map to_slash p)) by apply collapse_segments.
  set (q' := if HasPrefix q (str "/") then q else str "/" ++ q).
  assert (isRooted q' = true /\ segments q' = segments (map to_slash p)) as [Hr Hs].
  { unfold q'. rewrite isRooted_HasPrefix. destruct (isRooted q) eqn:Eq; [done|].
    split; [done|]. etrans; [apply segments_slash|done]. }
  destruct (Nat.ltb 1 (length q')) eqn:El.
  - apply Nat.ltb_lt in El. destruct (TrimSuffix_slash_segments q' Hr El) as [Hr' Hs'].
    apply Clean_segments; [by rewrite Hr'|]. by rewrite segments_slash, Hs'.
  - apply Clean_segments; [by rewrite Hr|]. by rewrite segments_slash.
Qed.

Lemma to_slash_id p : backslash ∉ p -> map to_slash p = p.
Proof.
  intros H. induction p as [|c p IH]; [done|]. apply not_elem_of_cons in H as [Hc Hp].
  simpl. rewrite IH by done. unfold to_slash, replace_byte. by rewrite bool_decide_false.
Qed.
Lemma to_slash_no_backslash p : backslash ∉ map to_slash p.
Proof.
  induction p as [|c p IH]; [by apply not_elem_of_nil|]. simpl. apply not_elem_of_cons.
  split; [|done]. unfold to_slash, replace_byte. by case_bool_decide.
Qed.

Lemma Clean_anchored p : isRooted p = true -> Clean (slash :: p) = Clean p.
Proof. intros H. apply Clean_segments; [by rewrite H|apply segments_slash]. Qed.

Lemma NormalizeURLPath_idem p : NormalizeURLPath (NormalizeURLPath p) = NormalizeURLPath p.
Proof.
  rewrite !NormalizeURLPath_eq. rewrite to_slash_id.
  - rewrite Clean_anchored by (by rewrite isRooted_Clean). apply Clean_idem.
  - intros [?|[?|H]]%elem_of_Clean; [done..|]. apply elem_of_cons in H as [?|H]; [done|].
    by apply to_slash_no_backslash in H.
Qed.

(** ** Containment *)

Lemma traversal_no_dotdot `{UnicodeTables} p :
  containsTraversal p = false -> Contains p dotdot = false.
Proof.
  unfold containsTraversal. intros [Ht _]%orb_false_iff. rewrite any_false in Ht.
  apply Ht. by left.
Qed.

(** What remains of the checks of [SafePath]: once the traversal tests pass,
    the joined path is below the base and the final [Rel] test accepts it. *)
Lemma SafePath_eq `{UnicodeTables} base req :
  base <> [] -> req <> [] ->
  SafePath base req =
  if bool_decide (NUL ∈ req) || (containsTraversal req || containsTraversal (Clean req))
  then Err ErrPathTraversal
  else Ok (Clean (path_Join (Clean base) (Clean req))).
Proof.
  intros Hb Hr. unfold SafePath. rewrite !bool_decide_false by done. cbv zeta.
  destruct (bool_decide (NUL ∈ req)); [done|].
  destruct (containsTraversal req || containsTraversal (Clean req)) eqn:Et; [done|].
  apply orb_false_iff in Et as [_ Ht]. apply traversal_no_dotdot in Ht.
  pose proof (no_dotdot_plain req Ht) as Hplain.
  destruct (comps_join base req Hplain Hb) as [Hj1 Hj2].
  rewrite (Rel_below (Clean base) _ (comps req)) by (by rewrite ?isRooted_Clean, ?comps_Clean).
  assert (forall s, Contains s dotdot = false ->
    HasPrefix s (str "..") || bool_decide (s = str "..") = false) as Hdd.
  { intros s Hs. apply orb_false_iff. split.
    - destruct (HasPrefix s _) eqn:E; [|done]. apply HasPrefix_true in E as [k ->].
      by rewrite (proj2 (Contains_true _ _)) in Hs by (by exists [], k).
    - case_bool_decide; [|done]. by subst. }
  rewrite Hdd; [done|]. case_bool_decide; [done|].
  destruct (Clean_Join_sub req) as (a & b & E). apply not_true_is_false. intros Hc.
  by rewrite E, Contains_mono in Ht.
Qed.

Lemma clean_list_rooted_plain cs : clean_list true cs -> Forall plain cs.
Proof. intros (n & rest & -> & Hr & Hn). by rewrite Hn. Qed.

(** A cleaned absolute path that has another one plus "/" as a prefix is
    below it. *)
Lemma prefix_below p q :
  isRooted p = true -> isRooted q = true -> (Clean q ++ [slash]) `prefix_of` Clean p ->
  exists rest, comps p = comps q ++ rest /\ Forall plain rest.
Proof.
  intros Hp Hq [more E]. rewrite <-app_assoc in E.
  assert (comps p = comps q ++ segments more) as Hc.
  { rewrite <-!segments_Clean_rooted by done. rewrite E. apply segments_app. }
  exists (segments more). split; [done|].
  pose proof (comps_clean p) as H. rewrite Hp in H. apply clean_list_rooted_plain in H.
  rewrite Hc in H. by apply Forall_app in H as [_ H].
Qed.

(** With a rooted working directory [abs_path] yields a cleaned rooted path. *)
Lemma abs_path_clean wd p q :
  (forall d, wd = Some d -> isRooted d = true) -> abs_path wd p = Ok q ->
  exists p', q = Clean p' /\ isRooted p' = true.
Proof.
  intros Hwd. unfold abs_path. destruct (isRooted p) eqn:Ep; [intros [= <-]; eauto|].
  destruct wd as [d|]; [|done]. intros [= <-]. specialize (Hwd d eq_refl).
  unfold Abs. rewrite Ep. unfold path_Join. destruct d as [|c d]; [done|]. eauto.
Qed.

(** ** Properties *)

(** C16. A path accepted by [SafePath] stays inside the base directory: it is
    anchored like the base and its components are those of the base followed
    by ordinary names, none of them empty, "." or "..". *)
Theorem SafePath_confines `{UnicodeTables} base req full :
  SafePath base req = Ok full -> req <> [] ->
  isRooted full = isRooted base /\
  exists rest, comps full = comps base ++ rest /\ Forall plain rest.
Proof.
  intros Hok Hr. assert (base <> []) as Hb by (by intros ->).
  rewrite SafePath_eq in Hok by done. destruct (_ || _) eqn:E; [done|]. simplify_eq.
  apply orb_false_iff in E as [_ [_ Ht]%orb_false_iff].
  apply traversal_no_dotdot, no_dotdot_plain in Ht.
  destruct (comps_join base req Ht Hb) as [Hj1 Hj2].
  autorewrite with ipgaze. eauto.
Qed.
Lemma SafePath_confines_witness :
  @SafePath ascii_tables (str "/srv//www/") (str "a/./b") = Ok (str "/srv/www/a/b") /\
  exists rest, comps (str "/srv/www/a/b") = comps (str "/srv//www/") ++ rest /\ Forall plain rest.
Proof.
  split; [reflexivity|].
  apply (@SafePath_confines ascii_tables (str "/srv//www/") (str "a/./b")); done.
Defined.

(** [SafePath] accepts exactly the non-empty requests without a NUL byte
    and without a traversal pattern before or after cleaning, and returns the
    cleaned join; the containment test at its end never fails. *)
Theorem SafePath_accepts `{UnicodeTables} base req full :
  base <> [] -> req <> [] ->
  (SafePath base req = Ok full <->
   (NUL ∉ req) /\ IsPathSafe req = true /\ IsPathSafe (Clean req) = true /\
   full = Clean (path_Join (Clean base) (Clean req))) /\
  SafePath base req <> Err ErrPathOutsideBase.
Proof.
  intros Hb Hr. rewrite SafePath_eq by done. unfold IsPathSafe.
  destruct (bool_decide (NUL ∈ req)) eqn:E1, (containsTraversal req) eqn:E2,
    (containsTraversal (Clean req)) eqn:E3; bool_facts; naive_solver.
Qed.
Lemma SafePath_accepts_witness :
  @SafePath ascii_tables (str "/srv") (str "x/y") = Ok (str "/srv/x/y").
Proof.
  apply (proj1 (@SafePath_accepts ascii_tables (str "/srv") (str "x/y") (str "/srv/x/y")
                  ltac:(done) ltac:(done))).
  split_and!; [decided|reflexivity..].
Defined.

(** The URL normaliser is canonical: its result is a fixed point, starts
    with "/", has only ordinary components, and they are the lexically cleaned
    components of the path read with backslashes as slashes. *)
Theorem NormalizeURLPath_canonical p :
  NormalizeURLPath (NormalizeURLPath p) = NormalizeURLPath p /\
  isRooted (NormalizeURLPath p) = true /\
  comps (NormalizeURLPath p) = clean_comps true (segments (map to_slash p)) /\
  Forall plain (comps (NormalizeURLPath p)).
Proof.
  split; [apply NormalizeURLPath_idem|]. rewrite NormalizeURLPath_eq. autorewrite with ipgaze.
  pose proof (comps_clean (slash :: map to_slash p)) as Hc.
  split_and!; [done| |by apply clean_list_rooted_plain].
  by rewrite comps_segments, segments_slash.
Qed.

(** A path returned by [SafeFilePath] is an absolute path inside the
    absolute form of the base directory. *)
Theorem SafeFilePath_confines wd baseDir userPath p absBase :
  (forall d, wd = Some d -> isRooted d = true) ->
  SafeFilePath wd baseDir userPath = Ok p -> abs_path wd baseDir = Ok absBase ->
  isRooted p = true /\ exists rest, comps p = comps absBase ++ rest /\ Forall plain rest.
Proof.
  intros Hwd Hok Hbase. unfold SafeFilePath, rbind in Hok.
  destruct (SafePathSimple userPath) as [safe|]; [|done].
  destruct (abs_path wd (path_Join baseDir safe)) as [ap|] eqn:Hap; [|done].
  rewrite Hbase in Hok. destruct (_ && _) eqn:E; simplify_eq.
  destruct (abs_path_clean _ _ _ Hwd Hap) as (p' & -> & Hp').
  destruct (abs_path_clean _ _ _ Hwd Hbase) as (b' & -> & Hb').
  autorewrite with ipgaze. split; [done|].
  apply andb_false_iff in E as [E|E]; bool_facts.
  - by apply prefix_below; [..|apply HasPrefix_true].
  - exists []. rewrite app_nil_r. split; [|done].
    by rewrite <-(comps_Clean p'), E, comps_Clean.
Qed.
Lemma SafeFilePath_confines_witness :
  exists p, SafeFilePath (Some (str "/home")) (str "data") (str "/a/b_c") = Ok p /\
  exists rest, comps p = comps (str "/home/data") ++ rest /\ Forall plain rest.
Proof.
  exists (str "/home/data/a/b_c"). split; [reflexivity|].
  apply (SafeFilePath_confines (Some (str "/home")) (str "data") (str "/a/b_c")
           (str "/home/data/a/b_c") (str "/home/data")); [|reflexivity..].
  by intros d [= <-].
Defined.

(** With the root directory as base [SafeFilePath] accepts nothing below
    it: the prefix test looks for "//", which no cleaned path contains. *)
Theorem SafeFilePath_root_base wd userPath p :
  SafeFilePath wd (str "/") userPath = Ok p -> p = str "/".
Proof.
  unfold SafeFilePath, rbind. destruct (SafePathSimple userPath) as [safe|]; [|done].
  set (full := path_Join (str "/") safe).
  assert (abs_path wd full = Ok (Clean full)) as ->.
  { unfold abs_path. by assert (isRooted full = true) as -> by reflexivity. }
  change (abs_path wd (str "/")) with (@Ok path_error gostr (str "/")). cbv beta iota.
  destruct (_ && _) eqn:E; intros [= <-]. apply andb_false_iff in E as [E|E]; bool_facts; [|done].
  apply HasPrefix_true in E as [k E]. by apply Clean_no_double_slash in E.
Qed.
Lemma SafeFilePath_root_base_witness :
  SafeFilePath None (str "/") [] = Ok (str "/") /\ str "/" = str "/".
Proof. split; [reflexivity|]. by apply (SafeFilePath_root_base None []). Defined.
