(* ===== verification/Http.v ===== *)
(** * Requests, responses and handlers

    The parts of [net/http] the middleware reads and writes.  A request is the
    record of what the server has parsed; a handler threads the state of its
    component and produces the list of its visible effects, in order. *)

From S2P Require Import Prelude GoStrings GoNet.

(** ** Headers *)

Definition token_byte (c : ascii) : bool :=
  between "0" "9" c || between "a" "z" c || between "A" "Z" c ||
  bool_decide (c ∈ str "!#$%&'*+-.^_`|~").
Fixpoint canon (up : bool) (s : gostr) : gostr :=
  match s with
  | [] => []
  | c :: s' =>
      (if up then upper_ascii c else lower_ascii c) :: canon (bool_decide (c = "-"%char)) s'
  end.
(** [textproto.CanonicalMIMEHeaderKey]: names with a byte that is not a token
    byte are left as they are. *)
Definition CanonicalHeaderKey (s : gostr) : gostr :=
  if forallb token_byte s then canon true s else s.

Abbreviation header := (gmap gostr (list gostr)).
Definition Header_Get (h : header) (name : gostr) : gostr :=
  match h !! CanonicalHeaderKey name with
  | Some (v :: _) => v
  | _ => []
  end.

(** ** Requests *)

(** The values middleware stores in the request context. *)
Record req_context := {
  ctx_client_ip : option IP;
  ctx_tor : bool;
  ctx_allowlisted : bool;
  ctx_csrf_token : option gostr;
  (* the locale under the server's key, and under the i18n package's key *)
  ctx_lang : option gostr;
  ctx_i18n_lang : option gostr;
  ctx_request_id : option gostr
}.
Definition background : req_context :=
  {| ctx_client_ip := None; ctx_tor := false; ctx_allowlisted := false;
     ctx_csrf_token := None; ctx_lang := None; ctx_i18n_lang := None; ctx_request_id := None |}.

Record request := {
  r_Method : gostr;
  r_Host : gostr;
  r_URL_Host : gostr;
  r_URL_Path : gostr;
  r_URL_RawPath : gostr;
  r_Header : header;
  (* the cookies of the Cookie header, in order *)
  r_Cookies : list (gostr * gostr);
  (* the decoded query parameters, in order *)
  r_Query : list (gostr * gostr);
  (* what ParseForm collects: None when it fails *)
  r_Form : option (list (gostr * gostr));
  r_RemoteAddr : gostr;
  (* the connection is TLS *)
  r_TLS : bool;
  r_ContentLength : Z;
  r_ctx : req_context
}.

Definition get (r : request) (name : string) : gostr := Header_Get (r_Header r) (str name).

(** The first value of a key in an ordered list of pairs. *)
Fixpoint assoc (k : gostr) (l : list (gostr * gostr)) : option gostr :=
  match l with
  | [] => None
  | (k', v) :: l' => if bool_decide (k = k') then Some v else assoc k l'
  end.
Definition Cookie (r : request) (name : gostr) : option gostr := assoc name (r_Cookies r).

Definition with_ctx (r : request) (c : req_context) : request :=
  {| r_Method := r_Method r; r_Host := r_Host r; r_URL_Host := r_URL_Host r;
     r_URL_Path := r_URL_Path r; r_URL_RawPath := r_URL_RawPath r;
     r_Header := r_Header r; r_Cookies := r_Cookies r; r_Query := r_Query r;
     r_Form := r_Form r; r_RemoteAddr := r_RemoteAddr r; r_TLS := r_TLS r;
     r_ContentLength := r_ContentLength r; r_ctx := c |}.

(** [context.WithValue] for each key. *)
Definition set_client_ip (c : req_context) (ip : IP) : req_context :=
  {| ctx_client_ip := Some ip; ctx_tor := ctx_tor c; ctx_allowlisted := ctx_allowlisted c;
     ctx_csrf_token := ctx_csrf_token c; ctx_lang := ctx_lang c; ctx_i18n_lang := ctx_i18n_lang c;
     ctx_request_id := ctx_request_id c |}.
Definition set_tor (c : req_context) : req_context :=
  {| ctx_client_ip := ctx_client_ip c; ctx_tor := true; ctx_allowlisted := ctx_allowlisted c;
     ctx_csrf_token := ctx_csrf_token c; ctx_lang := ctx_lang c; ctx_i18n_lang := ctx_i18n_lang c;
     ctx_request_id := ctx_request_id c |}.
Definition set_allowlisted (c : req_context) : req_context :=
  {| ctx_client_ip := ctx_client_ip c; ctx_tor := ctx_tor c; ctx_allowlisted := true;
     ctx_csrf_token := ctx_csrf_token c; ctx_lang := ctx_lang c; ctx_i18n_lang := ctx_i18n_lang c;
     ctx_request_id := ctx_request_id c |}.
Definition set_csrf_token (c : req_context) (t : gostr) : req_context :=
  {| ctx_client_ip := ctx_client_ip c; ctx_tor := ctx_tor c; ctx_allowlisted := ctx_allowlisted c;
     ctx_csrf_token := Some t; ctx_lang := ctx_lang c; ctx_i18n_lang := ctx_i18n_lang c;
     ctx_request_id := ctx_request_id c |}.
Definition set_lang (c : req_context) (l : gostr) : req_context :=
  {| ctx_client_ip := ctx_client_ip c; ctx_tor := ctx_tor c; ctx_allowlisted := ctx_allowlisted c;
     ctx_csrf_token := ctx_csrf_token c; ctx_lang := Some l; ctx_i18n_lang := ctx_i18n_lang c;
     ctx_request_id := ctx_request_id c |}.
Definition set_i18n_lang (c : req_context) (l : gostr) : req_context :=
  {| ctx_client_ip := ctx_client_ip c; ctx_tor := ctx_tor c; ctx_allowlisted := ctx_allowlisted c;
     ctx_csrf_token := ctx_csrf_token c; ctx_lang := ctx_lang c; ctx_i18n_lang := Some l;
     ctx_request_id := ctx_request_id c |}.
Definition set_request_id (c : req_context) (id : gostr) : req_context :=
  {| ctx_client_ip := ctx_client_ip c; ctx_tor := ctx_tor c; ctx_allowlisted := ctx_allowlisted c;
     ctx_csrf_token := ctx_csrf_token c; ctx_lang := ctx_lang c; ctx_i18n_lang := ctx_i18n_lang c;
     ctx_request_id := Some id |}.

(** A request with nothing but a peer address, to build examples from. *)
Definition bare_request (remote : gostr) : request :=
  {| r_Method := str "GET"; r_Host := str "example.org"; r_URL_Host := [];
     r_URL_Path := str "/"; r_URL_RawPath := []; r_Header := ∅;
     r_Cookies := []; r_Query := []; r_Form := Some []; r_RemoteAddr := remote;
     r_TLS := false; r_ContentLength := 0; r_ctx := background |}.

(** ** Responses *)

Inductive same_site := SameSiteDefault | SameSiteLax | SameSiteStrict | SameSiteNone.

Record cookie := {
  c_Name : gostr; c_Value : gostr; c_Path : gostr;
  c_Secure : bool; c_HttpOnly : bool; c_SameSite : same_site; c_MaxAge : Z
}.

(** The values of a flat JSON document. *)
Inductive json_value := JBool (b : bool) | JString (s : gostr) | JNumber (n : Z).

(** What a handler does to the outside: response headers, status and body, and
    the log records that other tools act on. *)
Inductive effect :=
| SetHeader (name value : gostr)
| SetCookie (c : cookie)
| WriteHeader (status : Z)
| WriteBody (body : gostr)
| WriteJSON (fields : list (gostr * json_value))
(* writeNegotiatedError(w, r, status, errorCode, msg) *)
| NegotiatedError (status : Z) (errorCode msg : gostr)
| Redirect (location : gostr) (status : Z)
(* Manager.WriteSecurity(event, ip) *)
| WriteSecurity (event ip : gostr)
(* Manager.WriteAuditEvent: action, client IP, details *)
| WriteAuditEvent (action ip : gostr) (details : list (gostr * gostr))
(* log.Print, and Manager.WriteError and WriteServer(level, line) *)
| LogPrint (line : gostr)
| WriteServer (level line : gostr)
| WriteError (level line : gostr)
(* the OnBlocked hook *)
| OnBlocked (clientIP : gostr)
(* a downstream handler ran on this request *)
| Served (r : request).

Definition handler (S : Type) : Type := request -> S -> S * list effect.
Definition middleware (S : Type) : Type := handler S -> handler S.

(** The innermost handler of an example: it records that it was reached. *)
Definition serve {S} : handler S := fun r s => (s, [Served r]).

(** The requests a run handed to the innermost handler. *)
Fixpoint served (es : list effect) : list request :=
  match es with
  | Served r :: es' => r :: served es'
  | _ :: es' => served es'
  | [] => []
  end.
Definition reaches (es : list effect) : bool :=
  match served es with [] => false | _ => true end.
