(* ===== verification/Netutil.v ===== *)
(** * Trusted proxies and client identity: [src/netutil]

    [trust.go] (which peers may speak for a client), [proxy.go] (client
    address, scheme, host and port of a request) and the host discovery of
    [fqdn.go]. *)

From S2P Require Import Prelude GoStrings GoNet Http.
#[local] Open Scope go_scope.

(** ** [proxy.go]: the always-trusted networks *)

Fixpoint parse_cidrs (raw : list gostr) : list IPNet :=
  match raw with
  | [] => []
  | cidr :: raw' =>
      match ParseCIDR cidr with
      | Some (_, n) => n :: parse_cidrs raw'
      | None => parse_cidrs raw'
      end
  end.
Definition alwaysTrustedCIDRs : list IPNet :=
  parse_cidrs [str "127.0.0.0/8"; str "::1/128"; str "10.0.0.0/8"; str "172.16.0.0/12";
               str "192.168.0.0/16"; str "fc00::/7"; str "169.254.0.0/16"; str "fe80::/10"].

(** ** [trust.go] *)

Record TrustResolver := {
  listenCIDR : option IPNet;
  additional : list gostr;
  dnsCache : gmap gostr (list IP);
  OnionAddress : gostr;
  I2PAddress : gostr
}.

(** [net.LookupHost], an answer of the name service; [None] for an error. *)
Definition resolver := gostr -> option (list gostr).

Definition refresh_entry (LookupHost : resolver) (fresh : gmap gostr (list IP)) (entry : gostr)
  : gmap gostr (list IP) :=
  match ParseIP entry with
  | Some _ => fresh
  | None =>
      match ParseCIDR entry with
      | Some _ => fresh
      | None =>
          match LookupHost entry with
          | None => fresh
          | Some addrs =>
              match omap ParseIP addrs with
              | [] => fresh
              | ips => <[entry := ips]> fresh
              end
          end
      end
  end.
Definition refreshDNS (LookupHost : resolver) (tr : TrustResolver) : TrustResolver :=
  {| listenCIDR := listenCIDR tr; additional := additional tr;
     dnsCache := fold_left (refresh_entry LookupHost) (additional tr) ∅;
     OnionAddress := OnionAddress tr; I2PAddress := I2PAddress tr |}.

Definition listen_subnet (listenAddr : gostr) : option IPNet :=
  if (listenAddr <>s []) && (listenAddr <>s str "0.0.0.0") &&
     (listenAddr <>s str "::") && (listenAddr <>s str "[::]")
  then match ParseIP listenAddr with
       | None => None
       | Some ip =>
           let cidrStr :=
             match To4 ip with
             | Some ip4 => IP_String (default [] (IP_Mask ip4 (cidr_mask 24 4))) ++ str "/24"
             | None => IP_String (default [] (IP_Mask ip (cidr_mask 64 16))) ++ str "/64"
             end in
           snd <$> ParseCIDR cidrStr
       end
  else None.
Definition NewTrustResolver (LookupHost : resolver) (cfgAdditional : list gostr)
    (listenAddr : gostr) : TrustResolver :=
  refreshDNS LookupHost
    {| listenCIDR := listen_subnet listenAddr; additional := cfgAdditional;
       dnsCache := ∅; OnionAddress := []; I2PAddress := [] |}.

(** One iteration of the loop over the configured entries. *)
Definition entry_trusts (tr : TrustResolver) (ip : IP) (entry : gostr) : bool :=
  match ParseCIDR entry with
  | Some (_, network) => IPNet_Contains network ip
  | None =>
      match ParseIP entry with
      | Some entryIP => IP_Equal entryIP ip
      | None =>
          match dnsCache tr !! entry with
          | Some resolved => any (fun a => IP_Equal a ip) resolved
          | None => false
          end
      end
  end.
Definition IsTrustedPeer (tr : option TrustResolver) (r : request) : bool :=
  match ParseIP (host_of (r_RemoteAddr r)) with
  | None => false
  | Some ip =>
      if any (fun n => IPNet_Contains n ip) alwaysTrustedCIDRs then true
      else match tr with
           | None => false
           | Some t =>
               if match listenCIDR t with Some n => IPNet_Contains n ip | None => false end
               then true
               else any (entry_trusts t ip) (additional t)
           end
  end.

(** ** [proxy.go]: what a request says about its client *)

Definition TorClientSentinel : gostr := str "tor".
(** [fc00:dead:beef:4dad::/64] *)
Definition torCircuitPrefix : list Z := [252; 0; 222; 173; 190; 239; 77; 173].

Definition be64 (b : list Z) : Z := fold_left (fun acc x => acc * 256 + x) b 0.
(** [netip.Prefix.Contains] is false for an address with a zone and for the
    other family. *)
Definition torCircuitIdentifier (host : gostr) : option gostr :=
  match ParseAddr host with
  | Some (Addr6 b []) =>
      if bool_decide (take 8 b = torCircuitPrefix)
      then Some (TorClientSentinel ++ str ":" ++ Itoa (be64 (drop 8 b)))
      else None
  | _ => None
  end.

(** [v := strings.TrimSpace(r.Header.Get(h)); v != ""] for the first header of
    a list. *)
Fixpoint first_header (r : request) (hs : list string) : option gostr :=
  match hs with
  | [] => None
  | h :: hs' =>
      let v := TrimSpace (get r h) in
      if v <>s [] then Some v else first_header r hs'
  end.

(** The part before the first comma, if the comma is not the first byte. *)
Definition before_comma (s : gostr) : gostr :=
  match IndexByte s "," with
  | Some (S i) => TrimSpace (take (S i) s)
  | _ => TrimSpace s
  end.

Definition remote_client (r : request) : gostr :=
  let host := host_of (r_RemoteAddr r) in
  match torCircuitIdentifier host with Some id => id | None => host end.

Definition proxied_client (r : request) : option gostr :=
  match first_header r ["CF-Connecting-IP"; "True-Client-IP"; "X-Real-IP"]%string with
  | Some v => Some v
  | None =>
      let xff := get r "X-Forwarded-For" in
      if TrimSpace xff <>s [] then Some (before_comma xff)
      else first_header r ["X-Client-IP"%string]
  end.
Definition GetClientIP (r : request) (trusted : bool) : gostr :=
  if trusted then
    match proxied_client r with Some v => v | None => remote_client r end
  else remote_client r.

Definition request_host (r : request) : gostr :=
  if r_Host r =s [] then r_URL_Host r else r_Host r.

Section Identity.
Context `{UnicodeTables}.

Definition hostMatchesOverlayAddress (r : request) (address : gostr) : bool :=
  if address =s [] then false
  else EqualFold (TrimSpace (host_of (request_host r))) (TrimSpace address).
Definition isTorRequest (r : request) (onionAddress : gostr) : bool :=
  hostMatchesOverlayAddress r onionAddress.
Definition IsTorRequest (r : request) (tr : option TrustResolver) : bool :=
  match tr with None => false | Some t => isTorRequest r (OnionAddress t) end.
Definition isI2PRequest (r : request) (i2pAddress : gostr) : bool :=
  hostMatchesOverlayAddress r i2pAddress.
Definition IsI2PRequest (r : request) (tr : option TrustResolver) : bool :=
  match tr with None => false | Some t => isI2PRequest r (I2PAddress t) end.

Definition GetClientIdentifier (r : request) (tr : option TrustResolver) : gostr :=
  if IsTorRequest r tr then
    match torCircuitIdentifier (host_of (r_RemoteAddr r)) with
    | Some id => id
    | None => TorClientSentinel
    end
  else GetClientIP r (match tr with None => false | Some _ => IsTrustedPeer tr r end).

Definition getProto (r : request) (trusted : bool) : gostr :=
  let direct := if r_TLS r then str "https" else str "http" in
  if trusted then
    let v := get r "X-Forwarded-Proto" in
    if v <>s [] then ToLower v
    else if ToLower (get r "X-Forwarded-Ssl") =s str "on" then str "https"
    else
      let v := get r "X-Url-Scheme" in
      if v <>s [] then ToLower v else direct
  else direct.
End Identity.

Definition default_port (p : gostr) : bool := (p =s str "80") || (p =s str "443").
Definition getPort (r : request) (trusted : bool) : gostr :=
  let from_host :=
    match SplitHostPort (request_host r) with
    | Some (_, port) => if negb (default_port port) then port else []
    | None => []
    end in
  if trusted then
    let v := TrimSpace (get r "X-Forwarded-Port") in
    if v <>s [] then (if negb (default_port v) then v else []) else from_host
  else from_host.

Definition getBaseURLPath (r : request) (trusted : bool) : gostr :=
  if trusted then
    match first_header r ["X-Forwarded-Prefix"; "X-Forwarded-Path"; "X-Script-Name"]%string with
    | Some v => v
    | None => str "/"
    end
  else str "/".

(** ** [fqdn.go] *)

(** A network interface: up, loopback, and its addresses ([None] when listing
    them fails). *)
Record iface := { if_up : bool; if_loopback : bool; if_addrs : option (list IP) }.

(** What host discovery reads from the process environment and the system. *)
Record host_env := {
  env_DOMAIN : gostr;
  env_HOSTNAME : gostr;
  os_Hostname : option gostr;
  net_Interfaces : option (list iface);
  (* net.LookupAddr and the public-suffix list, third-party answers *)
  net_LookupAddr : gostr -> option (list gostr);
  EffectiveTLDPlusOne : gostr -> option gostr
}.

Definition public_excluded : list gostr :=
  [str "10.0.0.0/8"; str "172.16.0.0/12"; str "192.168.0.0/16"; str "100.64.0.0/10";
   str "169.254.0.0/16"; str "fc00::/7"; str "fe80::/10"; str "::1/128"; str "127.0.0.0/8"].
Definition isPublicIP (ip : IP) : bool :=
  negb (any (fun n => IPNet_Contains n ip) (parse_cidrs public_excluded)).

(** The test of the loops of [getGlobalIPv6] and [getGlobalIPv4], which differ
    in the family they keep. *)
Definition usable (want4 : bool) (ip : IP) : bool :=
  negb (bool_decide (ip = [])) && Bool.eqb want4 (bool_decide (is_Some (To4 ip))) &&
  IsGlobalUnicast ip && isPublicIP ip.
Definition candidate_addrs (e : host_env) : list IP :=
  match net_Interfaces e with
  | None => []
  | Some ifs =>
      ifs ≫= fun i => if negb (if_up i) || if_loopback i then [] else default [] (if_addrs i)
  end.
Definition first_usable (want4 : bool) (ips : list IP) : gostr :=
  match List.find (usable want4) ips with Some ip => IP_String ip | None => [] end.
Definition getGlobalIPv6 (e : host_env) : gostr := first_usable false (candidate_addrs e).
Definition getGlobalIPv4 (e : host_env) : gostr := first_usable true (candidate_addrs e).

Definition devOnlyTLDs : list gostr :=
  [str "local"; str "test"; str "example"; str "invalid"; str "localhost"; str "lan";
   str "internal"; str "home"; str "localdomain"; str "home.arpa"; str "intranet";
   str "corp"; str "private"].

Definition formatURL (scheme host port : gostr) : gostr :=
  if (port =s []) || (port =s str "0") then scheme ++ str "://" ++ host
  else if ((scheme =s str "http") && (port =s str "80")) ||
          ((scheme =s str "https") && (port =s str "443"))
  then scheme ++ str "://" ++ host
  else scheme ++ str "://" ++ host ++ str ":" ++ port.

Section Fqdn.
Context `{UnicodeTables} (e : host_env).

Definition isLoopback (host : gostr) : bool :=
  if ToLower host =s str "localhost" then true
  else match ParseIP host with Some ip => IsLoopback ip | None => false end.

Definition getFQDN : gostr :=
  if env_DOMAIN e <>s [] then before_comma (env_DOMAIN e)
  else
    let from_ips :=
      let ipv6 := getGlobalIPv6 e in
      if ipv6 <>s [] then ipv6
      else
        let ipv4 := getGlobalIPv4 e in
        if ipv4 <>s [] then ipv4 else str "localhost" in
    let from_env :=
      if (env_HOSTNAME e <>s []) && negb (isLoopback (env_HOSTNAME e))
      then env_HOSTNAME e else from_ips in
    match os_Hostname e with
    | Some hostname =>
        if (hostname <>s []) && negb (isLoopback hostname) then hostname else from_env
    | None => from_env
    end.
Definition GetFQDN : gostr := getFQDN.

Definition IsDevTLD (host projectName : gostr) : bool :=
  let lower := ToLower (TrimSpace host) in
  let under tld := (lower =s tld) || HasSuffix lower (str "." ++ tld) in
  if lower =s [] then false
  else if (projectName <>s []) && under (ToLower projectName) then true
  else any under devOnlyTLDs.

Definition GetDisplayURL (projectName port : gostr) (sslEnabled : bool) : gostr :=
  let scheme := if sslEnabled then str "https" else str "http" in
  let fqdn := getFQDN in
  if negb (IsDevTLD fqdn projectName) && negb (isLoopback fqdn) then formatURL scheme fqdn port
  else
    let ipv6 := getGlobalIPv6 e in
    if ipv6 <>s [] then formatURL scheme (str "[" ++ ipv6 ++ str "]") port
    else
      let ipv4 := getGlobalIPv4 e in
      if ipv4 <>s [] then formatURL scheme ipv4 port
      else formatURL scheme fqdn port.

Definition extractBaseDomain (fqdn : gostr) : gostr :=
  let fqdn := TrimSuffix fqdn (str ".") in
  match ParseIP fqdn with
  | Some _ => []
  | None => default [] (EffectiveTLDPlusOne e fqdn)
  end.
Definition getWildcardDomain (fqdn : gostr) : gostr :=
  let base := extractBaseDomain fqdn in
  if base =s [] then [] else str "*." ++ base.

(** [getServerDomains]: the closure [add] keeps the first occurrence of
    every name that is neither empty nor "localhost". *)
Definition add_domain (domains : list gostr) (d : gostr) : list gostr :=
  if (d =s []) || (d =s str "localhost") then domains
  else if bool_decide (d ∈ domains) then domains
  else domains ++ [d].
Definition getServerDomains : list gostr :=
  let domains := add_domain [] getFQDN in
  let domains := match os_Hostname e with Some h => add_domain domains h | None => domains end in
  let ip4 := getGlobalIPv4 e in
  let domains :=
    if ip4 <>s [] then
      let domains := add_domain domains ip4 in
      match net_LookupAddr e ip4 with
      | Some names => fold_left (fun ds n => add_domain ds (TrimSuffix n (str "."))) names domains
      | None => domains
      end
    else domains in
  let ip6 := getGlobalIPv6 e in
  let domains := if ip6 <>s [] then add_domain domains ip6 else domains in
  match domains with [] => [str "localhost"] | _ => domains end.

Definition getAllDomains : list gostr :=
  if env_DOMAIN e <>s [] then
    let domains := filter (fun d => d <> []) (TrimSpace <$> Split (env_DOMAIN e) (str ",")) in
    match domains with [] => getServerDomains | _ => domains end
  else getServerDomains.

Definition getWildcardDomainFromEnv : gostr :=
  match getAllDomains with
  | d0 :: (_ :: _) as rest =>
      let base := extractBaseDomain d0 in
      if any (fun d => extractBaseDomain d <>s base) (tail rest) then []
      else str "*." ++ base
  | _ => []
  end.
End Fqdn.

(** [getHostFromRequest]: forwarded host headers, then the request's host. *)
Fixpoint forwarded_host (r : request) (hs : list string) : option gostr :=
  match hs with
  | [] => None
  | h :: hs' =>
      let val := get r h in
      if val <>s [] then
        let host := TrimSpace (default [] (head (Split val (str ",")))) in
        if host <>s [] then Some (host_of host) else forwarded_host r hs'
      else forwarded_host r hs'
  end.
Definition getHostFromRequest (r : request) : gostr :=
  match forwarded_host r ["X-Forwarded-Host"; "X-Real-Host"; "X-Original-Host"]%string with
  | Some h => h
  | None => host_of (request_host r)
  end.

(** ** [proxy.go]: the URL of a request *)

Section URL.
Context `{UnicodeTables} (e : host_env).

Definition getURLVars (r : request) (tr : option TrustResolver) : gostr * gostr * gostr :=
  let ordinary :=
    let trusted := IsTrustedPeer tr r in
    let proto := getProto r trusted in
    let fqdn := if trusted then getHostFromRequest r else host_of (request_host r) in
    let fqdn := if (fqdn =s []) && (env_DOMAIN e <>s []) then before_comma (env_DOMAIN e) else fqdn in
    let fqdn := if fqdn =s [] then getFQDN e else fqdn in
    (proto, fqdn, getPort r trusted) in
  match tr with
  | Some t =>
      if isTorRequest r (OnionAddress t) then (str "http", OnionAddress t, [])
      else if isI2PRequest r (I2PAddress t) then (str "http", I2PAddress t, [])
      else ordinary
  | None => ordinary
  end.

Definition BuildURL (r : request) (tr : option TrustResolver) (path : gostr) : gostr :=
  let '(proto, fqdn, port) := getURLVars r tr in
  if port =s [] then proto ++ str "://" ++ fqdn ++ path
  else proto ++ str "://" ++ fqdn ++ str ":" ++ port ++ path.
End URL.

(** ** The trust decision *)

(** The IPv4 ranges the built-in list stands for: loopback, the private
    blocks of RFC 1918 and link-local. *)
Definition v4_internal (a b : Z) : bool :=
  (a =? 127) || (a =? 10) || ((a =? 172) && (16 <=? b) && (b <=? 31)) ||
  ((a =? 192) && (b =? 168)) || ((a =? 169) && (b =? 254)).
Definition v4_cgnat (a b : Z) : bool := (a =? 100) && (64 <=? b) && (b <=? 127).

Lemma alwaysTrusted_value :
  alwaysTrustedCIDRs =
  [ {| net_IP := [127; 0; 0; 0]; net_Mask := [255; 0; 0; 0] |};
    {| net_IP := IPv6loopback; net_Mask := replicate 16 255 |};
    {| net_IP := [10; 0; 0; 0]; net_Mask := [255; 0; 0; 0] |};
    {| net_IP := [172; 16; 0; 0]; net_Mask := [255; 240; 0; 0] |};
    {| net_IP := [192; 168; 0; 0]; net_Mask := [255; 255; 0; 0] |};
    {| net_IP := 252 :: replicate 15 0; net_Mask := 254 :: replicate 15 0 |};
    {| net_IP := [169; 254; 0; 0]; net_Mask := [255; 255; 0; 0] |};
    {| net_IP := 254 :: 128 :: replicate 14 0; net_Mask := 255 :: 192 :: replicate 14 0 |} ].
Proof. reflexivity. Qed.
Lemma public_excluded_value :
  parse_cidrs public_excluded =
  [ {| net_IP := [10; 0; 0; 0]; net_Mask := [255; 0; 0; 0] |};
    {| net_IP := [172; 16; 0; 0]; net_Mask := [255; 240; 0; 0] |};
    {| net_IP := [192; 168; 0; 0]; net_Mask := [255; 255; 0; 0] |};
    {| net_IP := [100; 64; 0; 0]; net_Mask := [255; 192; 0; 0] |};
    {| net_IP := [169; 254; 0; 0]; net_Mask := [255; 255; 0; 0] |};
    {| net_IP := 252 :: replicate 15 0; net_Mask := 254 :: replicate 15 0 |};
    {| net_IP := 254 :: 128 :: replicate 14 0; net_Mask := 255 :: 192 :: replicate 14 0 |};
    {| net_IP := IPv6loopback; net_Mask := replicate 16 255 |};
    {| net_IP := [127; 0; 0; 0]; net_Mask := [255; 0; 0; 0] |} ].
Proof. reflexivity. Qed.

(** An IPv6 network holds no IPv4 address. *)
Lemma Contains_v6_v4 n a b c d :
  To4 (net_IP n) = None -> length (net_IP n) = 16%nat -> length (net_Mask n) = 16%nat ->
  IPNet_Contains n (IPv4 a b c d) = false.
Proof.
  intros H4 H16 Hm. unfold IPNet_Contains, networkNumberAndMask.
  rewrite To4_IPv4, H4, H16, Hm. cbn [Nat.eqb]. rewrite H16. cbn [Nat.eqb]. by rewrite H16.
Qed.

(** Networks whose mask ends inside the first or the second octet. *)
Lemma Contains_8 x a b c d :
  is_byte a ->
  IPNet_Contains {| net_IP := [x; 0; 0; 0]; net_Mask := [255; 0; 0; 0] |} (IPv4 a b c d) =
  (a =? Z.land x 255).
Proof.
  intros Ha. rewrite Contains_IPv4 by done. unfold and_bytes. cbn [zip_with].
  rewrite !Z.land_0_r, (land_255 a Ha). apply eq_true_iff_eq.
  rewrite bool_decide_eq_true, Z.eqb_eq. split; [by intros [= ->]|by intros ->].
Qed.
Lemma Contains_16 x y m a b c d :
  is_byte a -> is_byte x ->
  IPNet_Contains {| net_IP := [x; y; 0; 0]; net_Mask := [255; m; 0; 0] |} (IPv4 a b c d) =
  (a =? x) && (Z.land b m =? Z.land y m).
Proof.
  intros Ha Hx. rewrite Contains_IPv4 by done. unfold and_bytes. cbn [zip_with].
  rewrite !Z.land_0_r, (land_255 a Ha), (land_255 x Hx). apply eq_true_iff_eq.
  rewrite bool_decide_eq_true, andb_true_iff, !Z.eqb_eq.
  split; [by intros [= -> ->]|by intros [-> ->]].
Qed.
Lemma land_240_16 b : is_byte b -> (Z.land b 240 =? 16) = (16 <=? b) && (b <=? 31).
Proof.
  intros Hb. apply eq_true_iff_eq. rewrite Z.eqb_eq, andb_true_iff, !Z.leb_le.
  by apply (land_range 240 16 31 b); [vm_compute|].
Qed.
Lemma land_192_64 b : is_byte b -> (Z.land b 192 =? 64) = (64 <=? b) && (b <=? 127).
Proof.
  intros Hb. apply eq_true_iff_eq. rewrite Z.eqb_eq, andb_true_iff, !Z.leb_le.
  by apply (land_range 192 64 127 b); [vm_compute|].
Qed.

(** Boolean identities over octet tests: one test at a time, dropping the
    branches that are settled. *)
Ltac bool_cases :=
  repeat match goal with
  | |- context [?x =? ?k] => destruct (x =? k); cbn [orb andb negb];
      rewrite ?orb_true_r, ?orb_false_r, ?andb_false_r; try reflexivity
  end.
Ltac v4_nets :=
  cbn [existsb]; rewrite ?Contains_v6_v4 by done;
  rewrite ?Contains_8 by (auto with ipgaze);
  rewrite ?Contains_16 by first [assumption | unfold is_byte; lia];
  rewrite ?(land_255 _) by (first [assumption | unfold is_byte; lia]).

Lemma alwaysTrusted_v4 a b c d :
  is_byte a -> is_byte b ->
  any (fun n => IPNet_Contains n (IPv4 a b c d)) alwaysTrustedCIDRs = v4_internal a b.
Proof.
  intros Ha Hb. rewrite alwaysTrusted_value. v4_nets.
  change (Z.land 127 255) with 127. change (Z.land 10 255) with 10.
  change (Z.land 16 240) with 16. rewrite land_240_16 by done.
  change (Z.land 168 255) with 168. change (Z.land 254 255) with 254.
  unfold v4_internal. bool_cases.
Qed.
Lemma isPublicIP_v4 a b c d :
  is_byte a -> is_byte b ->
  isPublicIP (IPv4 a b c d) = negb (v4_internal a b || v4_cgnat a b).
Proof.
  intros Ha Hb. unfold isPublicIP. rewrite public_excluded_value. v4_nets.
  change (Z.land 127 255) with 127. change (Z.land 10 255) with 10.
  change (Z.land 16 240) with 16. rewrite land_240_16 by done.
  change (Z.land 64 192) with 64. rewrite land_192_64 by done.
  change (Z.land 168 255) with 168. change (Z.land 254 255) with 254.
  unfold v4_internal, v4_cgnat. bool_cases.
Qed.

(** *** The subnet of the listen address *)

Lemma slash_notin_digits s : forallb isDigit s = true -> "/"%char ∉ s.
Proof. intros Hs. by apply digits_notin. Qed.
Lemma slash_notin_dotted a b c d :
  is_byte a -> is_byte b -> is_byte c -> is_byte d -> "/"%char ∉ dotted [a; b; c; d].
Proof.
  intros Ha Hb Hc Hd. rewrite dotted4, !elem_of_app, !elem_of_cons, !elem_of_app, !elem_of_cons, !elem_of_app, elem_of_cons.
  pose proof (fun x Hx => slash_notin_digits _ (Itoa_byte_digits x Hx)) as Hs.
  intros H. destruct_or! H; try done; by eapply Hs in H.
Qed.
Lemma dotted_neq a b c d s :
  is_byte a -> is_byte b -> is_byte c -> is_byte d ->
  ParseAddr s <> Some (Addr4 [a; b; c; d]) -> dotted [a; b; c; d] <> s.
Proof.
  intros Ha Hb Hc Hd Hs E. apply Hs.
  rewrite <-E. by apply ParseAddr_dotted.
Qed.

Definition v4_any (w x y z : Z) : bool := (w =? 0) && (x =? 0) && (y =? 0) && (z =? 0).

Lemma mask24 w x y z :
  is_byte w -> is_byte x -> is_byte y ->
  and_bytes [w; x; y; z] [255; 255; 255; 0] = [w; x; y; 0].
Proof.
  intros Hw Hx Hy. unfold and_bytes. cbn [zip_with].
  by rewrite !land_255, Z.land_0_r by done.
Qed.
Lemma listen_subnet_v4 w x y z :
  is_byte w -> is_byte x -> is_byte y -> is_byte z ->
  listen_subnet (dotted [w; x; y; z]) =
  if v4_any w x y z then None
  else Some {| net_IP := [w; x; y; 0]; net_Mask := [255; 255; 255; 0] |}.
Proof.
  intros Hw Hx Hy Hz. unfold listen_subnet.
  rewrite (bool_decide_false (dotted [w; x; y; z] = [])) by (by apply dotted_neq).
  rewrite (bool_decide_false (dotted [w; x; y; z] = str "::")) by (by apply dotted_neq).
  rewrite (bool_decide_false (dotted [w; x; y; z] = str "[::]")) by (by apply dotted_neq).
  rewrite !andb_true_r. cbn [negb andb].
  destruct (v4_any w x y z) eqn:E.
  { unfold v4_any in E. bool_facts. by subst. }
  rewrite bool_decide_false.
  2: { apply dotted_neq; [done..|]. change (ParseAddr (str "0.0.0.0")) with (Some (Addr4 [0; 0; 0; 0])).
       intros [= <- <- <- <-]. done. }
  cbn [negb].
  rewrite ParseIP_dotted by done. rewrite To4_IPv4.
  change (IP_Mask [w; x; y; z] (cidr_mask 24 4)) with (Some (and_bytes [w; x; y; z] [255; 255; 255; 0])).
  rewrite mask24 by done. cbn [default].
  change (IP_String (id [w; x; y; 0])) with (dotted [w; x; y; 0]).
  assert (is_byte 0) as H0 by (unfold is_byte; lia).
  unfold ParseCIDR. change (str "/24") with ("/"%char :: str "24").
  rewrite IndexByte_first by (by apply slash_notin_dotted).
  rewrite take_app_length. rewrite (ParseAddr_dotted w x y 0) by done.
  rewrite drop_app_ge by lia. replace (S _ - _)%nat with 1%nat by lia.
  change (dtoi_all (drop 1 ("/"%char :: str "24"))) with (Some 24). cbn match.
  change (IP_Mask (v4InV6Prefix ++ [w; x; y; 0]) (cidr_mask 24 4)) with
    (Some (and_bytes [w; x; y; 0] [255; 255; 255; 0])).
  by rewrite mask24.
Qed.
Lemma Contains_24 w x y a b c d :
  is_byte w -> is_byte x -> is_byte y -> is_byte a -> is_byte b -> is_byte c ->
  IPNet_Contains {| net_IP := [w; x; y; 0]; net_Mask := [255; 255; 255; 0] |} (IPv4 a b c d) =
  (a =? w) && (b =? x) && (c =? y).
Proof.
  intros. rewrite Contains_IPv4, !mask24 by done. apply eq_true_iff_eq.
  rewrite bool_decide_eq_true, !andb_true_iff, !Z.eqb_eq.
  split; [by intros [= -> -> ->]|by intros [[-> ->] ->]].
Qed.

(** *** The configured entries *)

(** What a configured entry stands for: the members of a network, one address,
    or the addresses its name resolves to. *)
Definition entry_denotes (LookupHost : resolver) (entry : gostr) (ip : IP) : bool :=
  match ParseCIDR entry with
  | Some (_, network) => IPNet_Contains network ip
  | None =>
      match ParseIP entry with
      | Some entryIP => IP_Equal entryIP ip
      | None => any (fun a => IP_Equal a ip) (omap ParseIP (default [] (LookupHost entry)))
      end
  end.

Lemma refresh_entry_other lk m e e' :
  e <> e' -> refresh_entry lk m e !! e' = m !! e'.
Proof. intros Hne. unfold refresh_entry. repeat case_match; by rewrite ?lookup_insert_ne. Qed.
Lemma refresh_entry_self lk m e :
  ParseIP e = None -> ParseCIDR e = None ->
  refresh_entry lk m e !! e =
  match omap ParseIP (default [] (lk e)) with [] => m !! e | ips => Some ips end.
Proof.
  intros H1 H2. unfold refresh_entry. rewrite H1, H2.
  destruct (lk e); simpl; [|done]. case_match; [done|]. by rewrite lookup_insert_eq.
Qed.
Lemma refresh_fold lk es e m :
  ParseIP e = None -> ParseCIDR e = None ->
  m !! e = None \/ m !! e = Some (omap ParseIP (default [] (lk e))) ->
  fold_left (refresh_entry lk) es m !! e =
  if decide (e ∈ es)
  then match omap ParseIP (default [] (lk e)) with [] => m !! e | ips => Some ips end
  else m !! e.
Proof.
  intros H1 H2. revert m. induction es as [|e' es IH]; intros m Hm; [done|]. cbn [fold_left].
  destruct (decide (e' = e)) as [->|Hne].
  - rewrite IH.
    + rewrite refresh_entry_self by done. rewrite (decide_True (P := e ∈ e :: es)) by apply list_elem_of_here.
      by case_decide; case_match.
    + rewrite refresh_entry_self by done. revert Hm. destruct (omap ParseIP _); auto.
  - rewrite IH by (by rewrite refresh_entry_other). rewrite refresh_entry_other by done.
    apply decide_ext. rewrite elem_of_cons. split; [by right|]. by intros [->|].
Qed.
Lemma entry_trusts_denotes lk cfg listen ip e :
  e ∈ cfg -> entry_trusts (NewTrustResolver lk cfg listen) ip e = entry_denotes lk e ip.
Proof.
  intros Hin. unfold entry_trusts, entry_denotes.
  destruct (ParseCIDR e) as [[? ?]|] eqn:E1; [done|]. destruct (ParseIP e) eqn:E2; [done|].
  unfold NewTrustResolver, refreshDNS. cbn [dnsCache additional].
  rewrite refresh_fold by (done || (left; apply lookup_empty)). rewrite decide_True by done.
  rewrite lookup_empty. by destruct (omap ParseIP _).
Qed.
Lemma any_ext {A} (p q : A -> bool) xs : (forall x, x ∈ xs -> p x = q x) -> any p xs = any q xs.
Proof.
  induction xs as [|x xs IH]; intros Hpq; simpl; [done|].
  rewrite Hpq, IH; [done| |apply list_elem_of_here]. intros y Hy. by apply Hpq, list_elem_of_further.
Qed.

(** C8. A connection from the IPv4 address [a.b.c.d] to a server configured
    with the extra proxies [cfg] and listening on [w.x.y.z] is trusted exactly
    when the address is loopback, private or link-local, or shares the first
    three octets with a listen address that is not 0.0.0.0, or is denoted by a
    configured entry: a member of its network, the address itself, or one of
    the addresses its name resolved to. *)
Theorem IsTrustedPeer_spec lk cfg r a b c d port w x y z
    (Hpeer : Forall is_byte [a; b; c; d]) (Hport : forallb isDigit port = true)
    (Hlisten : Forall is_byte [w; x; y; z]) (Hr : r_RemoteAddr r = v4_remote a b c d port) :
  IsTrustedPeer (Some (NewTrustResolver lk cfg (dotted [w; x; y; z]))) r = true <->
  v4_internal a b = true \/
  (v4_any w x y z = false /\ a = w /\ b = x /\ c = y) \/
  exists entry, entry ∈ cfg /\ entry_denotes lk entry (IPv4 a b c d) = true.
Proof.
  rewrite !Forall_cons in Hpeer, Hlisten. destruct Hpeer as (Ha & Hb & Hc & Hd & _).
  destruct Hlisten as (Hw & Hx & Hy & Hz & _).
  unfold IsTrustedPeer. rewrite Hr, host_of_v4_remote, ParseIP_dotted, alwaysTrusted_v4 by done.
  destruct (v4_internal a b); [by split; auto|].
  change (listenCIDR _) with (listen_subnet (dotted [w; x; y; z])).
  change (additional _) with cfg. rewrite listen_subnet_v4 by done.
  rewrite (any_ext _ (fun e => entry_denotes lk e (IPv4 a b c d)))
    by (intros; by apply entry_trusts_denotes).
  rewrite <-any_true. destruct (v4_any w x y z).
  - split; [by auto|]. by intros [?|[[? ?]|?]].
  - rewrite Contains_24 by done.
    destruct ((a =? w) && (b =? x) && (c =? y)) eqn:E.
    + bool_facts. split; [by right; left|done].
    + split; [by auto|]. intros [?|[(_ & -> & -> & ->)|?]]; [done| |done].
      by rewrite !Z.eqb_refl in E.
Qed.
Lemma IsTrustedPeer_spec_witness :
  IsTrustedPeer (Some (NewTrustResolver (fun _ => None) [str "203.0.113.0/29"] (dotted [198; 51; 100; 1])))
    (bare_request (v4_remote 203 0 113 5 (str "4711"))) = true.
Proof.
  apply (IsTrustedPeer_spec (fun _ => None) [str "203.0.113.0/29"] _ 203 0 113 5 (str "4711") 198 51 100 1);
    [repeat constructor; unfold is_byte; lia|reflexivity|repeat constructor; unfold is_byte; lia
    |reflexivity|].
  right; right. exists (str "203.0.113.0/29"). split; [apply list_elem_of_here|reflexivity].
Defined.

(** *** Requests of an untrusted peer *)

Section Untrusted.
Context `{UnicodeTables}.

(** Two requests of the same connection for the same host. *)
Definition same_connection (r1 r2 : request) : Prop :=
  r_RemoteAddr r1 = r_RemoteAddr r2 /\ r_Host r1 = r_Host r2 /\
  r_URL_Host r1 = r_URL_Host r2 /\ r_TLS r1 = r_TLS r2.

Lemma host_same r1 r2 : same_connection r1 r2 -> request_host r1 = request_host r2.
Proof. unfold request_host. by intros (_ & -> & -> & _). Qed.
Lemma overlay_same r1 r2 a :
  same_connection r1 r2 -> hostMatchesOverlayAddress r1 a = hostMatchesOverlayAddress r2 a.
Proof. intros Hs. unfold hostMatchesOverlayAddress. by rewrite (host_same _ _ Hs). Qed.
Lemma trusted_same tr r1 r2 :
  same_connection r1 r2 -> IsTrustedPeer tr r1 = IsTrustedPeer tr r2.
Proof. unfold IsTrustedPeer. by intros (-> & _). Qed.
Lemma remote_same r1 r2 : same_connection r1 r2 -> remote_client r1 = remote_client r2.
Proof. unfold remote_client. by intros (-> & _). Qed.
End Untrusted.

(** A peer that is not trusted cannot influence how it is identified or
    which URLs are built for it with any header: the client identifier and the
    scheme, host and port of the request depend only on the connection and on
    the requested host. *)
Theorem untrusted_headers_ignored `{UnicodeTables} e tr r1 r2
    (Huntrusted : IsTrustedPeer (Some tr) r1 = false) (Hsame : same_connection r1 r2) :
  GetClientIdentifier r1 (Some tr) = GetClientIdentifier r2 (Some tr) /\
  getURLVars e r1 (Some tr) = getURLVars e r2 (Some tr).
Proof.
  pose proof (trusted_same (Some tr) _ _ Hsame) as Ht. rewrite Huntrusted in Ht.
  unfold GetClientIdentifier, getURLVars, IsTorRequest, isTorRequest, isI2PRequest, getProto, getPort.
  rewrite Huntrusted, <-Ht, !(overlay_same _ _ _ Hsame), !(host_same _ _ Hsame).
  unfold GetClientIP. rewrite (remote_same _ _ Hsame). destruct Hsame as (-> & _ & _ & ->). done.
Qed.
Lemma untrusted_headers_ignored_witness :
  let e := {| env_DOMAIN := []; env_HOSTNAME := []; os_Hostname := None; net_Interfaces := None;
              net_LookupAddr := fun _ => None; EffectiveTLDPlusOne := fun _ => None |} in
  let tr := NewTrustResolver (fun _ => None) [] [] in
  let r1 := bare_request (str "203.0.113.5:4711") in
  let r2 := {| r_Method := r_Method r1; r_Host := r_Host r1; r_URL_Host := r_URL_Host r1;
               r_URL_Path := r_URL_Path r1; r_URL_RawPath := []; r_Cookies := []; r_Query := [];
               r_Header := {[ str "X-Real-Ip" := [str "127.0.0.1"];
                              str "X-Forwarded-Host" := [str "evil.test"] ]};
               r_Form := None; r_RemoteAddr := r_RemoteAddr r1; r_TLS := r_TLS r1;
               r_ContentLength := 0; r_ctx := background |} in
  @GetClientIdentifier ascii_tables r1 (Some tr) = @GetClientIdentifier ascii_tables r2 (Some tr) /\
  @getURLVars ascii_tables e r1 (Some tr) = @getURLVars ascii_tables e r2 (Some tr).
Proof.
  intros e tr r1 r2.
  apply (@untrusted_headers_ignored ascii_tables e tr r1 r2); [vm_compute; reflexivity|by repeat split].
Defined.

(** *** Tor circuits *)

Lemma be64_app b x : be64 (b ++ [x]) = be64 b * 256 + x.
Proof. unfold be64. by rewrite fold_left_app. Qed.
Lemma be64_range b : Forall is_byte b -> 0 <= be64 b.
Proof.
  induction b as [|x b IH] using rev_ind; [done|]. rewrite Forall_app, Forall_singleton.
  intros [Hb Hx]. rewrite be64_app. specialize (IH Hb). unfold is_byte in Hx. lia.
Qed.
Lemma be64_inj b1 b2 :
  Forall is_byte b1 -> Forall is_byte b2 -> length b1 = length b2 -> be64 b1 = be64 b2 -> b1 = b2.
Proof.
  revert b2. induction b1 as [|x b1 IH] using rev_ind; intros b2 H1 H2 Hl E.
  { by destruct b2. }
  destruct b2 as [|y b2 _] using rev_ind; [rewrite length_app in Hl; simpl in Hl; lia|].
  rewrite !length_app in Hl. rewrite !be64_app in E. rewrite Forall_app, Forall_singleton in H1, H2.
  destruct H1 as [H1 Hx], H2 as [H2 Hy]. unfold is_byte in *.
  assert (x = y /\ be64 b1 = be64 b2) as [-> E'] by lia.
  f_equal. apply IH; [done..|simpl in Hl; lia|done].
Qed.

Lemma torCircuit_Some host id :
  torCircuitIdentifier host = Some id ->
  exists b, ParseIP host = Some b /\ take 8 b = torCircuitPrefix /\
            id = TorClientSentinel ++ str ":" ++ Itoa (be64 (drop 8 b)).
Proof.
  unfold torCircuitIdentifier, ParseIP. destruct (ParseAddr host) as [[b|b [|]]|]; try done.
  case_bool_decide as Hp; [|done]. intros [= <-]. by exists b.
Qed.
Lemma ParseIP_tor_id n : 0 <= n -> ParseIP (TorClientSentinel ++ str ":" ++ Itoa n) = None.
Proof.
  intros Hn. unfold ParseIP, ParseAddr.
  change (TorClientSentinel ++ str ":" ++ Itoa n) with (str "tor:" ++ Itoa n).
  change (addr_kind (str "tor:" ++ Itoa n)) with (Some ":"%char). cbn match.
  unfold parseIPv6. rewrite IndexByte_notin; [done|].
  rewrite elem_of_app. intros [Hin|Hin]; [by vm_compute in Hin; set_solver|].
  by apply (digits_notin _ "%"%char (Itoa_digits n Hn)).
Qed.

(** The identifier of a Tor circuit names that circuit alone: it is never
    the text of an IP address, so it cannot collide with a clearnet client,
    and two hosts get the same identifier only if they are the same address. *)
Theorem torCircuitIdentifier_faithful host1 host2 id
    (H1 : torCircuitIdentifier host1 = Some id) (H2 : torCircuitIdentifier host2 = Some id) :
  ParseIP id = None /\ ParseIP host1 = ParseIP host2.
Proof.
  apply torCircuit_Some in H1 as (b1 & P1 & T1 & E1). apply torCircuit_Some in H2 as (b2 & P2 & T2 & E2).
  destruct (ParseIP_wf _ _ P1) as [L1 B1], (ParseIP_wf _ _ P2) as [L2 B2].
  assert (0 <= be64 (drop 8 b1) /\ 0 <= be64 (drop 8 b2)) as [N1 N2]
    by (split; by apply be64_range, Forall_drop).
  split; [rewrite E1; by apply ParseIP_tor_id|].
  rewrite E2 in E1. apply app_inv_head, app_inv_head, Itoa_inj in E1; [|done..].
  apply be64_inj in E1; [|by apply Forall_drop..|by rewrite !length_drop, L1, L2].
  rewrite P1, P2, <-(take_drop 8 b1), <-(take_drop 8 b2). congruence.
Qed.
Lemma torCircuitIdentifier_faithful_witness :
  ParseIP (str "tor:258") = None /\
  ParseIP (str "fc00:dead:beef:4dad::102") = ParseIP (str "fc00:dead:beef:4dad:0:0:0:0102").
Proof.
  apply (torCircuitIdentifier_faithful (str "fc00:dead:beef:4dad::102")
    (str "fc00:dead:beef:4dad:0:0:0:0102") (str "tor:258")); reflexivity.
Defined.

(** *** Host discovery *)

Lemma To4_octets ip x :
  Forall is_byte ip -> To4 ip = Some x -> exists a b c d, x = [a; b; c; d] /\ Forall is_byte x.
Proof.
  intros Hwf. unfold To4. destruct (length ip =? 4)%nat eqn:El.
  - intros [= <-]. apply Nat.eqb_eq in El.
    destruct ip as [|? [|? [|? [|? [|]]]]]; try (simpl in El; lia). by do 4 eexists.
  - destruct (_ && _) eqn:E2; [|done]. apply andb_true_iff in E2 as [E2%Nat.eqb_eq _].
    intros [= Hx]. pose proof (Forall_drop _ 12 _ Hwf) as Hb. rewrite Hx in Hb.
    assert (length x = 4%nat) as El4 by (rewrite <-Hx, length_drop, E2; done).
    destruct x as [|? [|? [|? [|? [|]]]]]; try (simpl in El4; lia). by do 4 eexists.
Qed.
Lemma Contains_To4 n ip x : To4 ip = Some x -> IPNet_Contains n ip = IPNet_Contains n x.
Proof.
  intros Hx. unfold IPNet_Contains. rewrite Hx.
  assert (length x = 4%nat) as Hl.
  { unfold To4 in Hx. destruct (length ip =? 4)%nat eqn:E; [apply Nat.eqb_eq in E; congruence|].
    destruct (_ && _) eqn:E2; [|done]. apply andb_true_iff in E2 as [E2%Nat.eqb_eq _].
    injection Hx as <-. by rewrite length_drop, E2. }
  by rewrite (To4_len4 x Hl).
Qed.
Lemma isPublicIP_To4 ip x : To4 ip = Some x -> isPublicIP ip = isPublicIP x.
Proof. intros Hx. unfold isPublicIP. f_equal. apply any_ext. intros n _. by apply Contains_To4. Qed.

(** The IPv4 address that host discovery advertises belongs to an interface
    that is up and not loopback, and it is a public address: outside the
    loopback, private, link-local and carrier-grade NAT ranges. *)
Theorem getGlobalIPv4_public e
    (Hwf : Forall (fun ip => Forall is_byte ip) (candidate_addrs e)) :
  getGlobalIPv4 e = [] \/
  exists ip a b c d, ip ∈ candidate_addrs e /\ To4 ip = Some [a; b; c; d] /\
    getGlobalIPv4 e = dotted [a; b; c; d] /\ v4_internal a b = false /\ v4_cgnat a b = false.
Proof.
  unfold getGlobalIPv4, first_usable.
  destruct (List.find _ _) as [ip|] eqn:E; [right|by left].
  apply find_some in E as [Hin%list_elem_of_In Hu]. unfold usable in Hu. bool_facts.
  rewrite Forall_forall in Hwf. specialize (Hwf ip Hin).
  match goal with Hx : Bool.eqb _ _ = true |- _ => apply Bool.eqb_prop in Hx; symmetry in Hx end.
  bool_facts. match goal with Hs : is_Some _ |- _ => destruct Hs as [x H4] end.
  destruct (To4_octets _ _ Hwf H4) as (a & b & c & d & -> & Hb).
  rewrite !Forall_cons in Hb. destruct Hb as (Ha & Hb & _).
  match goal with Hx : isPublicIP _ = true |- _ => rename Hx into Hp end.
  rewrite (isPublicIP_To4 _ _ H4), <-(isPublicIP_To4 (IPv4 a b c d)) in Hp by done.
  rewrite isPublicIP_v4 in Hp by done. bool_facts.
  exists ip, a, b, c, d. split_and!; try done.
  unfold IP_String. rewrite H4. by destruct ip.
Qed.
Lemma getGlobalIPv4_public_witness :
  let e := {| env_DOMAIN := []; env_HOSTNAME := []; os_Hostname := None;
              net_Interfaces := Some [ {| if_up := true; if_loopback := false;
                 if_addrs := Some [[10; 0; 0; 7]; [203; 0; 113; 9]] |} ];
              net_LookupAddr := fun _ => None; EffectiveTLDPlusOne := fun _ => None |} in
  getGlobalIPv4 e = [] \/
  exists ip a b c d, ip ∈ candidate_addrs e /\ To4 ip = Some [a; b; c; d] /\
    getGlobalIPv4 e = dotted [a; b; c; d] /\ v4_internal a b = false /\ v4_cgnat a b = false.
Proof.
  intros e. apply (getGlobalIPv4_public e).
  repeat constructor; unfold is_byte; lia.
Defined.

(** *** Corner cases *)

(** A request for an IPv6 literal on a non-default port: the brackets that
    [SplitHostPort] removed are not put back, so the host and the port of the
    built URL run together. *)
Example BuildURL_ipv6_unbracketed :
  let r := {| r_Method := str "GET"; r_Host := str "[2001:db8::1]:8080"; r_URL_Host := [];
              r_URL_Path := str "/x"; r_URL_RawPath := []; r_Header := ∅; r_Cookies := [];
              r_Query := []; r_Form := None; r_RemoteAddr := str "203.0.113.5:4711";
              r_TLS := false; r_ContentLength := 0; r_ctx := background |} in
  let e := {| env_DOMAIN := []; env_HOSTNAME := []; os_Hostname := None; net_Interfaces := None;
              net_LookupAddr := fun _ => None; EffectiveTLDPlusOne := fun _ => None |} in
  @BuildURL ascii_tables e r None (str "/x") = str "http://2001:db8::1:8080/x".
Proof. reflexivity. Qed.

(** Domains that all lack a registrable base share the empty base, and the
    wildcard name built from it is "*." *)
Example wildcard_of_addresses :
  let e := {| env_DOMAIN := str "192.0.2.1, 192.0.2.2"; env_HOSTNAME := []; os_Hostname := None;
              net_Interfaces := None; net_LookupAddr := fun _ => None;
              EffectiveTLDPlusOne := fun _ => None |} in
  @getWildcardDomainFromEnv ascii_tables e = str "*.".
Proof. reflexivity. Qed.
