(* ===== verification/I18n.v ===== *)
(** * Locales and translations: [src/common/i18n] and [LangMiddleware]

    Locale detection from the query, the cookie and the Accept-Language
    header, the flattening of the locale files, and translation with fallback
    and plural forms.  The embedded locale files are the argument [files], the
    parsed JSON object of each locale. *)

From S2P Require Import Prelude GoStrings GoNet Http.
#[local] Open Scope go_scope.

(** ** Locale codes *)

Definition SupportedLocales : list gostr :=
  [str "en"; str "es"; str "fr"; str "de"; str "zh"; str "ar"; str "ja"].
Definition IsSupported (c : gostr) : bool := any (fun l => l =s c) SupportedLocales.

Inductive Direction := DirectionLTR | DirectionRTL.
Definition LocaleDirection (c : gostr) : Direction :=
  if c =s str "ar" then DirectionRTL else DirectionLTR.

(** ** Parsed JSON and the flattening of a locale file *)

#[local] Set Warnings "-register-all".
Inductive jval :=
| JStr (s : gostr)
(* null, a boolean, a number or an array *)
| JOther
(* an object, in the order the map iteration visits its keys *)
| JObj (kvs : list (gostr * jval)).

Definition qualify (prefix k : gostr) : gostr :=
  if prefix <>s [] then prefix ++ str "." ++ k else k.
Fixpoint flattenJSON (prefix : gostr) (v : jval) : gmap gostr jval :=
  match v with
  | JObj kvs =>
      (fix loop (kvs : list (gostr * jval)) (out : gmap gostr jval) :=
         match kvs with
         | [] => out
         | (k, val) :: rest =>
             let key := qualify prefix k in
             loop rest match val with
                       | JObj _ => flattenJSON key val ∪ out
                       | _ => <[key := val]> out
                       end
         end) kvs ∅
  | _ => ∅
  end.

(** ** The translation manager *)

Record I18NManager := {
  translations : gmap gostr (gmap gostr jval);
  fallback : gostr
}.
(** [NewTranslationManager]: [None] is the panic on a locale file that is
    missing or does not hold an object. *)
Definition load_locale (files : gostr -> option (list (gostr * jval)))
    (m : option (gmap gostr (gmap gostr jval))) (lang : gostr)
  : option (gmap gostr (gmap gostr jval)) :=
  match m, files lang with
  | Some t, Some kvs => Some (<[lang := flattenJSON [] (JObj kvs)]> t)
  | _, _ => None
  end.
Definition NewTranslationManager (files : gostr -> option (list (gostr * jval))) : option I18NManager :=
  (fun t => {| translations := t; fallback := str "en" |})
    <$> fold_left (load_locale files) SupportedLocales (Some ∅).

Definition string_at (m : I18NManager) (locale key : gostr) : option gostr :=
  match translations m !! locale with
  | Some t => match t !! key with Some (JStr s) => Some s | _ => None end
  | None => None
  end.
Definition manager_T (m : I18NManager) (locale key : gostr) : gostr :=
  match string_at m locale key with
  | Some s => s
  | None =>
      match string_at m (fallback m) key with
      | Some s => s
      | None => key
      end
  end.
Fixpoint substitute (s : gostr) (args : list gostr) : gostr :=
  match args with
  | name :: value :: args' => substitute (ReplaceAll s (str "{" ++ name ++ str "}") value) args'
  | _ => s
  end.
Definition Tf (m : I18NManager) (locale key : gostr) (args : list gostr) : gostr :=
  substitute (manager_T m locale key) args.

(** The remainder of Go's [%] has the sign of the dividend. *)
Definition pluralForm (lang : gostr) (count : Z) : gostr :=
  if lang =s str "ar" then
    if count =? 0 then str "zero"
    else if count =? 1 then str "one"
    else if count =? 2 then str "two"
    else if (3 <=? Z.rem count 100) && (Z.rem count 100 <=? 10) then str "few"
    else if (11 <=? Z.rem count 100) && (Z.rem count 100 <=? 99) then str "many"
    else str "other"
  else if lang =s str "fr" then
    if (count =? 0) || (count =? 1) then str "one" else str "other"
  else if (lang =s str "zh") || (lang =s str "ja") then str "other"
  else if count =? 1 then str "one" else str "other".

(** The loop over the four candidate entries of [TN] and [TranslatePlural]. *)
Fixpoint first_plural (m : I18NManager) (key : gostr) (count : Z) (tries : list (gostr * gostr)) : gostr :=
  match tries with
  | [] => key
  | (l, f) :: tries' =>
      let k := key ++ str "." ++ f in
      let val := manager_T m l k in
      if val <>s k then ReplaceAll val (str "{count}") (Itoa count)
      else first_plural m key count tries'
  end.
Definition TranslatePlural (m : I18NManager) (locale key : gostr) (count : Z) : gostr :=
  let form := pluralForm locale count in
  first_plural m key count
    [(locale, form); (str "en", form); (locale, str "other"); (str "en", str "other")].

Definition Translate (m : I18NManager) (locale key : gostr) : gostr := manager_T m locale key.
Definition AvailableLanguages (m : I18NManager) : list (gostr * gostr) :=
  (fun c =>
     let name := Translate m c (str "meta.native_name") in
     (c, if name =s str "meta.native_name" then c else name)) <$> SupportedLocales.

(** [validateKeys]: the English keys each other locale lacks. *)
Definition missing_keys (m : I18NManager) (lang : gostr) : list gostr :=
  let other := default ∅ (translations m !! lang) in
  filter (fun k => other !! k = None)
    (fst <$> map_to_list (default ∅ (translations m !! str "en"))).
Definition validateKeys (m : I18NManager) : list (gostr * list gostr) :=
  filter (fun p => p.2 <> [])
    ((fun l => (l, missing_keys m l)) <$> filter (fun l => l <> str "en") SupportedLocales).

(** ** The language of a context *)

Definition WithLang (c : req_context) (lang : gostr) : req_context :=
  set_i18n_lang c (if IsSupported lang then lang else str "en").
Definition i18n_LangFromContext (c : req_context) : gostr :=
  match ctx_i18n_lang c with
  | Some l => if l <>s [] then l else str "en"
  | None => str "en"
  end.
Definition T (m : I18NManager) (c : req_context) (key : gostr) : gostr :=
  manager_T m (i18n_LangFromContext c) key.
Definition TN (m : I18NManager) (c : req_context) (key : gostr) (count : Z) : gostr :=
  TranslatePlural m (i18n_LangFromContext c) key count.

(** ** Detection *)

Definition lang_cookie (r : request) (lang : gostr) : cookie :=
  {| c_Name := str "lang"; c_Value := lang; c_Path := str "/"; c_MaxAge := 365 * 24 * 60 * 60;
     c_SameSite := SameSiteLax; c_Secure := r_TLS r; c_HttpOnly := true |}.
Definition SetLangCookie (r : request) (lang : gostr) : effect := SetCookie (lang_cookie r lang).

Definition blank (c : ascii) : bool := bool_decide (c = " "%char) || bool_decide (c = "009"%char).
Definition trimSpace (s : gostr) : gostr := TrimRightFunc blank (TrimLeftFunc blank s).
Definition splitAcceptLanguage (s : gostr) : list gostr := trimSpace <$> split_on "," s.

Definition query_lang (r : request) : gostr := default [] (assoc (str "lang") (r_Query r)).
Definition cookie_lang (r : request) : option gostr :=
  match Cookie r (str "lang") with
  | Some v => if IsSupported v then Some v else None
  | None => None
  end.

Section Detection.
Context `{UnicodeTables}.

Definition ParseLocale (s : gostr) : gostr :=
  let s := ToLower (TrimSpace s) in
  let s := match IndexAny s (str "-_") with Some (S i) => take (S i) s | _ => s end in
  if IsSupported s then s else str "en".

(** The loop over the parts of the Accept-Language header. *)
Fixpoint accept_language (parts : list gostr) : gostr :=
  match parts with
  | [] => str "en"
  | part :: parts' =>
      let lang := TrimSpace (default [] (head (Split part (str ";")))) in
      let parsed := ParseLocale lang in
      if (parsed <>s str "en") || HasPrefix lang (str "en") then parsed
      else accept_language parts'
  end.
Definition DetectLocale (r : request) : gostr :=
  let q := query_lang r in
  if (q <>s []) && IsSupported q then q
  else match cookie_lang r with
       | Some v => v
       | None =>
           let al := get r "Accept-Language" in
           if al <>s [] then accept_language (Split al (str ",")) else str "en"
       end.

Definition tag_of (part : gostr) : gostr :=
  trimSpace match IndexByte part ";" with Some i => take i part | None => part end.
Fixpoint first_tag (parts : list gostr) : gostr :=
  match parts with
  | [] => str "en"
  | part :: parts' =>
      let tag := tag_of part in
      if (tag =s []) || (tag =s str "*") then first_tag parts'
      else
        let parsed := ParseLocale tag in
        if IsSupported parsed then parsed else first_tag parts'
  end.
Definition parseAcceptLanguage (h : gostr) : gostr :=
  if h =s [] then str "en" else first_tag (splitAcceptLanguage h).

(** [i18n.LanguageMiddleware] *)
Definition LanguageMiddleware {S} : middleware S := fun next r s =>
  let q := query_lang r in
  let chosen := (q <>s []) && IsSupported q in
  let lang := if chosen then q else [] in
  let lang := if lang =s [] then default [] (cookie_lang r) else lang in
  let lang := if lang =s [] then parseAcceptLanguage (get r "Accept-Language") else lang in
  let lang := if lang =s [] then str "en" else lang in
  let '(s', es) := next (with_ctx r (WithLang (r_ctx r) lang)) s in
  (s', (if chosen then [SetLangCookie r q] else []) ++ es).

(** [server.LangMiddleware] and its reader *)
Definition LangMiddleware {S} : middleware S := fun next r s =>
  let lang := DetectLocale r in
  let q := query_lang r in
  let cookie := if (q <>s []) && IsSupported q then [SetLangCookie r q] else [] in
  let '(s', es) := next (with_ctx r (set_lang (r_ctx r) lang)) s in
  (s', cookie ++ es).
End Detection.
Definition LangFromContext (c : req_context) : gostr :=
  match ctx_lang c with
  | Some l => if l <>s [] then l else str "en"
  | None => str "en"
  end.

(** ** Flattening is lookup along a path *)

Section jval_induction.
Context (P : jval -> Prop) (Hstr : forall s, P (JStr s)) (Hother : P JOther)
  (Hobj : forall kvs, Forall (fun kv => P kv.2) kvs -> P (JObj kvs)).
Fixpoint jval_rect' (v : jval) : P v :=
  match v with
  | JStr s => Hstr s
  | JOther => Hother
  | JObj kvs =>
      Hobj kvs ((fix all (kvs : list (gostr * jval)) : Forall (fun kv => P kv.2) kvs :=
         match kvs with
         | [] => List.Forall_nil _
         | kv :: rest => List.Forall_cons _ kv rest (jval_rect' kv.2) (all rest)
         end) kvs)
  end.
End jval_induction.

Definition is_obj (v : jval) : bool := match v with JObj _ => true | _ => false end.

(** [leaf_at p v w]: following the keys of [p] from [v] ends at the value [w],
    which is not an object. *)
Inductive leaf_at : list gostr -> jval -> jval -> Prop :=
| leaf_here k w kvs : (k, w) ∈ kvs -> is_obj w = false -> leaf_at [k] (JObj kvs) w
| leaf_below k p v kvs w :
    (k, v) ∈ kvs -> is_obj v = true -> leaf_at p v w -> leaf_at (k :: p) (JObj kvs) w.

(** A locale file: at every level the keys are distinct, not empty and free of
    dots. *)
Inductive wf_json : jval -> Prop :=
| wf_str s : wf_json (JStr s)
| wf_other : wf_json JOther
| wf_obj kvs :
    NoDup (fst <$> kvs) -> Forall (fun k => k <> [] /\ "."%char ∉ k) (fst <$> kvs) ->
    Forall (fun kv => wf_json kv.2) kvs -> wf_json (JObj kvs).

Definition qualified (prefix : gostr) (p : list gostr) : gostr :=
  match p with
  | [] => prefix
  | k :: p' => fold_left (fun q k => q ++ str "." ++ k) p' (qualify prefix k)
  end.
Lemma qualify_nonnil prefix k : k <> [] -> qualify prefix k <> [].
Proof.
  intros Hk. unfold qualify. destruct (negb _); [|done]. by intros [? [? ?]%app_eq_nil]%app_eq_nil.
Qed.
Lemma qualified_below prefix k p :
  k <> [] -> p <> [] -> qualified (qualify prefix k) p = qualified prefix (k :: p).
Proof.
  intros Hk Hp. destruct p as [|k' p]; [done|]. unfold qualified. cbn [fold_left].
  f_equal. unfold qualify at 1. by rewrite bool_decide_false by (by apply qualify_nonnil).
Qed.
Lemma leaf_nonnil p v w : leaf_at p v w -> p <> [].
Proof. by destruct 1. Qed.

(** The loop of [flattenJSON] over the keys of an object. *)
Definition flatten_step (prefix : gostr) (out : gmap gostr jval) (kv : gostr * jval) : gmap gostr jval :=
  let key := qualify prefix kv.1 in
  match kv.2 with
  | JObj _ => flattenJSON key kv.2 ∪ out
  | _ => <[key := kv.2]> out
  end.
Lemma flattenJSON_obj prefix kvs :
  flattenJSON prefix (JObj kvs) = fold_left (flatten_step prefix) kvs ∅.
Proof.
  cbn [flattenJSON]. generalize (∅ : gmap gostr jval).
  induction kvs as [|[k v] kvs IH]; intros out; [done|]. cbn [fold_left]. rewrite <-IH.
  by destruct v.
Qed.

Lemma flatten_fold_mono prefix kvs out q :
  is_Some (out !! q) -> is_Some (fold_left (flatten_step prefix) kvs out !! q).
Proof.
  revert out. induction kvs as [|[k v] kvs IH]; intros out Hq; [done|]. cbn [fold_left]. apply IH.
  unfold flatten_step. cbn [fst snd].
  destruct v; [rewrite lookup_insert; by case_decide..|].
  apply lookup_union_is_Some. by right.
Qed.

(** Every entry of the flat map is a leaf of the tree under its path. *)
Lemma flatten_sound v : forall prefix q w,
  (forall kvs, v = JObj kvs -> wf_json v) -> flattenJSON prefix v !! q = Some w ->
  exists p, q = qualified prefix p /\ leaf_at p v w.
Proof.
  induction v as [s| |kvs IH] using jval_rect'; intros prefix q w Hwf; [done..|].
  specialize (Hwf kvs eq_refl). inversion Hwf as [| |? Hnd Hks Hvs]; subst.
  rewrite flattenJSON_obj.
  assert (forall todo out, todo ⊆ kvs ->
    (forall q w, out !! q = Some w -> exists p, q = qualified prefix p /\ leaf_at p (JObj kvs) w) ->
    forall q w, fold_left (flatten_step prefix) todo out !! q = Some w ->
    exists p, q = qualified prefix p /\ leaf_at p (JObj kvs) w) as Hloop.
  2: { intros Hq. by apply (Hloop kvs ∅ (reflexivity _)) in Hq. }
  induction todo as [|[k v] todo IHt]; intros out Hsub Hout; [done|]. cbn [fold_left].
  assert ((k, v) ∈ kvs) as Hin by (apply Hsub; left).
  apply IHt; [set_solver|]. intros q' w'. unfold flatten_step. cbn [fst snd].
  rewrite !Forall_forall in *.
  destruct v as [s| |kvs'].
  - rewrite lookup_insert. case_decide as Hk; [intros [= <-]|by apply Hout].
    exists [k]. split; [done|]. by apply leaf_here.
  - rewrite lookup_insert. case_decide as Hk; [intros [= <-]|by apply Hout].
    exists [k]. split; [done|]. by apply leaf_here.
  - intros [Hq|[_ Hq]]%lookup_union_Some_raw; [|by apply Hout].
    specialize (Hvs _ Hin). apply (IH _ Hin) in Hq as (p & -> & Hp); [|done].
    assert (k <> []) as Hk by (apply Hks; rewrite list_elem_of_fmap; by exists (k, JObj kvs')).
    exists (k :: p). split; [apply qualified_below; [done|by eapply leaf_nonnil]|].
    by eapply leaf_below.
Qed.

(** Every leaf has an entry. *)
Lemma flatten_complete p v w : leaf_at p v w -> wf_json v -> forall prefix,
  is_Some (flattenJSON prefix v !! qualified prefix p).
Proof.
  induction 1 as [k w kvs Hin Hw|k p v kvs w Hin Hv Hp IH]; intros Hwf prefix;
    inversion Hwf as [| |? Hnd Hks Hvs]; subst; rewrite !Forall_forall in *; rewrite flattenJSON_obj;
    apply list_elem_of_split in Hin as (l1 & l2 & ->); rewrite fold_left_app; cbn [fold_left];
    apply flatten_fold_mono; unfold flatten_step; cbn [fst snd].
  - destruct w; [by rewrite lookup_insert_eq..|done].
  - destruct v as [| |kvs']; [done..|]. apply lookup_union_is_Some. left.
    assert (k <> []).
    { apply Hks. rewrite fmap_app. apply elem_of_app. right. left. }
    rewrite <-qualified_below by (done || by eapply leaf_nonnil). apply IH.
    apply (Hvs (k, JObj kvs')). apply elem_of_app. right. left.
Qed.

(** Distinct paths have distinct dotted names, and a path has one leaf. *)
Lemma qualified_split p prefix :
  Forall (fun k => k <> [] /\ "."%char ∉ k) p ->
  p <> [] -> split_on "." (qualified prefix p) = (if prefix <>s [] then split_on "." prefix else []) ++ p.
Proof.
  intros Hp Hne. destruct p as [|k p]; [done|]. clear Hne. unfold qualified.
  apply Forall_cons in Hp as [[Hk Hd] Hp].
  assert (split_on "." (qualify prefix k) = (if prefix <>s [] then split_on "." prefix else []) ++ [k]) as Hq.
  { unfold qualify. destruct (negb _); [|by rewrite split_on_plain].
    change (prefix ++ str "." ++ k) with (prefix ++ "."%char :: k).
    by rewrite split_on_app_gen, (split_on_plain _ k). }
  revert Hq. generalize (qualify prefix k). clear Hk Hd. generalize k. clear k.
  generalize (if prefix <>s [] then split_on "." prefix else []).
  induction Hp as [|k' p [Hk' Hd'] Hp IH]; intros pre k q Hq; [done|]. cbn [fold_left].
  rewrite (IH (pre ++ [k]) k'); [by rewrite <-app_assoc|].
  change (q ++ str "." ++ k') with (q ++ "."%char :: k').
  by rewrite split_on_app_gen, Hq, (split_on_plain _ k').
Qed.
Lemma leaf_keys p v w : leaf_at p v w -> wf_json v -> Forall (fun k => k <> [] /\ "."%char ∉ k) p.
Proof.
  induction 1 as [k w kvs Hin Hw|k p v kvs w Hin Hv Hp IH]; intros Hwf;
    inversion Hwf as [| |? Hnd Hks Hvs]; subst; rewrite Forall_forall in Hks; rewrite Forall_forall in Hvs.
  - apply Forall_singleton, Hks, list_elem_of_fmap. by exists (k, w).
  - constructor; [apply Hks, list_elem_of_fmap; by exists (k, v)|]. apply IH, (Hvs _ Hin).
Qed.
Lemma wf_fun (kvs : list (gostr * jval)) k v1 v2 :
  NoDup (fst <$> kvs) -> (k, v1) ∈ kvs -> (k, v2) ∈ kvs -> v1 = v2.
Proof.
  induction kvs as [|[k' v'] kvs IH]; [by intros _ ?%elem_of_nil|]. cbn.
  rewrite NoDup_cons, !elem_of_cons, list_elem_of_fmap. intros [Hn Hnd] [E1|E1] [E2|E2]; simplify_eq.
  - done.
  - exfalso. apply Hn. by exists (k', v2).
  - exfalso. apply Hn. by exists (k', v1).
  - by apply IH.
Qed.
Lemma leaf_fun p v w : leaf_at p v w -> forall w', wf_json v -> leaf_at p v w' -> w = w'.
Proof.
  induction 1 as [k w kvs Hin Hw|k p v kvs w Hin Hv Hp IH]; intros w' Hwf Hl;
    inversion Hwf as [| |? Hnd Hks Hvs]; subst; inversion Hl; subst.
  - by eapply wf_fun.
  - by match goal with Hx : leaf_at [] _ _ |- _ => apply leaf_nonnil in Hx end.
  - by apply leaf_nonnil in Hp.
  - assert (v = v0) as <- by (by eapply wf_fun). apply IH; [|done].
    rewrite Forall_forall in Hvs. apply (Hvs _ Hin).
Qed.

(** In the flat table of a locale file, the entry under the dotted name of
    a path of keys is exactly the value found by following these keys through
    the nested objects: no translation is lost and none is invented, in
    whatever order the maps are visited. *)
Theorem flattenJSON_spec v p w (Hv : wf_json v)
    (Hp : Forall (fun k => k <> [] /\ "."%char ∉ k) p) (Hne : p <> []) :
  flattenJSON [] v !! Join p (str ".") = Some w <-> leaf_at p v w.
Proof.
  assert (forall q, Forall (fun k => k <> [] /\ "."%char ∉ k) q -> q <> [] ->
    qualified [] q = Join q (str ".")) as Hjoin.
  { intros q Hq Hqn. rewrite <-(Join_split_on "." (qualified [] q)).
    by rewrite qualified_split. }
  rewrite <-Hjoin by done.
  assert (forall w', flattenJSON [] v !! qualified [] p = Some w' -> leaf_at p v w') as Hs.
  { intros w' (p' & E & Hl)%flatten_sound; [|by intros].
    assert (p = p') as ->; [|done].
    apply (f_equal (split_on ".")) in E.
    rewrite !qualified_split in E by (done || by eapply leaf_keys || by eapply leaf_nonnil). done. }
  split; [apply Hs|]. intros Hl.
  destruct (flatten_complete _ _ _ Hl Hv []) as [w' Hw']. rewrite Hw'. f_equal.
  symmetry. by apply (leaf_fun _ _ _ Hl); [|apply Hs].
Qed.
Lemma flattenJSON_spec_witness :
  let v := JObj [(str "nav", JObj [(str "home", JStr (str "Home"))]); (str "ok", JStr (str "OK"))] in
  flattenJSON [] v !! str "nav.home" = Some (JStr (str "Home")) <->
  leaf_at [str "nav"; str "home"] v (JStr (str "Home")).
Proof.
  intros v. apply (flattenJSON_spec v [str "nav"; str "home"]); [| |done].
  - repeat constructor; try (vm_compute; set_solver).
  - repeat constructor; try done; vm_compute; set_solver.
Defined.

(** ** Detection always answers a supported locale *)

Lemma IsSupported_true c : IsSupported c = true <-> c ∈ SupportedLocales.
Proof.
  unfold IsSupported. rewrite any_true. split.
  - intros (l & Hl & E). bool_facts. by subst.
  - intros Hc. exists c. split; [done|]. by apply bool_decide_eq_true.
Qed.
Lemma supported_nonnil c : IsSupported c = true -> c <> [].
Proof. by intros Hc ->. Qed.
Lemma cookie_lang_supported r c : cookie_lang r = Some c -> IsSupported c = true.
Proof. unfold cookie_lang. repeat case_match; congruence. Qed.

Section DetectionFacts.
Context `{UnicodeTables}.

Lemma ParseLocale_supported s : IsSupported (ParseLocale s) = true.
Proof. unfold ParseLocale. by split_ifs. Qed.
Lemma accept_language_supported ps : IsSupported (accept_language ps) = true.
Proof.
  induction ps as [|p ps IH]; cbn [accept_language]; [done|].
  split_ifs; [apply ParseLocale_supported|done].
Qed.
Lemma DetectLocale_supported r : IsSupported (DetectLocale r) = true.
Proof.
  unfold DetectLocale. destruct (_ && _) eqn:E; [by apply andb_true_iff in E as [_ E]|].
  destruct (cookie_lang r) eqn:Ec; [by eapply cookie_lang_supported|].
  split_ifs; [apply accept_language_supported|done].
Qed.

Lemma query_decides r lang : query_lang r = lang -> IsSupported lang = true -> DetectLocale r = lang.
Proof.
  intros Hq Hl. unfold DetectLocale. rewrite Hq, Hl.
  by rewrite bool_decide_false by (by apply supported_nonnil).
Qed.
Lemma cookie_decides r lang :
  query_lang r = [] -> Cookie r (str "lang") = Some lang -> IsSupported lang = true ->
  DetectLocale r = lang.
Proof. intros Hq Hc Hl. unfold DetectLocale, cookie_lang. by rewrite Hq, Hc, Hl. Qed.
End DetectionFacts.

(** [LangMiddleware] hands every request on exactly once, with a supported
    locale in its context; the locale a visitor picks with [?lang=] is stored
    in the [lang] cookie, and a later request that brings this cookie back
    (and picks nothing else) gets the same locale. *)
Theorem LangMiddleware_persists `{UnicodeTables} {S} (next : handler S) r s :
  exists lang cookies,
    IsSupported lang = true /\
    LangMiddleware next r s =
      ((next (with_ctx r (set_lang (r_ctx r) lang)) s).1,
       cookies ++ (next (with_ctx r (set_lang (r_ctx r) lang)) s).2) /\
    LangFromContext (set_lang (r_ctx r) lang) = lang /\
    (cookies = [] \/ cookies = [SetLangCookie r lang]) /\
    (IsSupported (query_lang r) = true -> cookies = [SetLangCookie r (query_lang r)]) /\
    (cookies = [SetLangCookie r lang] -> forall r',
      query_lang r' = [] -> Cookie r' (str "lang") = Some lang -> DetectLocale r' = lang).
Proof.
  pose proof (DetectLocale_supported r) as Hs.
  exists (DetectLocale r), (if (query_lang r <>s []) && IsSupported (query_lang r)
                            then [SetLangCookie r (query_lang r)] else []).
  split_and!; [done| | | | |].
  - unfold LangMiddleware. by destruct (next _ s).
  - unfold LangFromContext. cbn. by rewrite bool_decide_false by (by apply supported_nonnil).
  - destruct (_ && _) eqn:E; [right|by left]. apply andb_true_iff in E as [_ E].
    by rewrite (query_decides r _ eq_refl E).
  - intros E. rewrite E. by rewrite bool_decide_false by (by apply supported_nonnil).
  - intros _ r' Hq Hc. by apply cookie_decides.
Qed.

(** *** Two readings of Accept-Language *)

(** The part of a header that holds one tag and nothing else. *)
Definition bare_tag (tag : gostr) : Prop :=
  tag <> [] /\ tag <> str "*" /\ ("," ∉ tag)%char /\ (";" ∉ tag)%char /\ trimSpace tag = tag.

Lemma first_tag_decides `{UnicodeTables} tag rest :
  bare_tag tag -> parseAcceptLanguage (tag ++ str "," ++ rest) = ParseLocale tag.
Proof.
  intros (Hne & Hstar & Hc & Hs & Ht). unfold parseAcceptLanguage, splitAcceptLanguage.
  rewrite bool_decide_false by (by destruct tag).
  change (tag ++ str "," ++ rest) with (tag ++ ","%char :: rest). rewrite split_on_app by done.
  cbn [fmap list_fmap first_tag]. unfold tag_of. rewrite Ht, IndexByte_notin, Ht by done.
  rewrite !bool_decide_false by done. cbn [orb]. by rewrite ParseLocale_supported.
Qed.

(** Only the first tag counts in [parseAcceptLanguage]: a supported language
    in second place is never reached, while [DetectLocale] finds it. *)
Example accept_language_readings :
  let h := str "sv, fr;q=0.8" in
  let r := {| r_Method := str "GET"; r_Host := []; r_URL_Host := []; r_URL_Path := str "/";
              r_URL_RawPath := []; r_Header := {[ str "Accept-Language" := [h] ]}; r_Cookies := [];
              r_Query := []; r_Form := None; r_RemoteAddr := []; r_TLS := false;
              r_ContentLength := 0; r_ctx := background |} in
  @parseAcceptLanguage ascii_tables h = str "en" /\ @DetectLocale ascii_tables r = str "fr".
Proof. split; reflexivity. Qed.
