(* ===== verification/AccessControl.v ===== *)
(** * Address lists and the access-control middleware

    [blocklist/blocklist.go] ([Lookup]), [threat/threat.go] ([Lookup]), and the
    middleware of [server/middleware_allowlist.go], [middleware_blocklist.go]
    and [middleware_geoip.go], which [AccessPolicy] composes. *)

From S2P Require Import Prelude GoStrings GoUtf8 GoNet Http Netutil I18n.
#[local] Open Scope go_scope.

(** ** Lists on disk *)

(** [bufio.Scanner] with the default split: the lines of the text without
    their line ends, up to the first one that does not fit the 64 KiB buffer;
    the flag is whether there was such a line. *)
Definition MaxScanTokenSize : Z := 64 * 1024.
Definition drop_cr (l : gostr) : gostr :=
  match reverse l with
  | "013"%char :: l' => reverse l'
  | _ => l
  end.
Fixpoint scan (max : Z) (ls : list gostr) : list gostr * bool :=
  match ls with
  | [] => ([], false)
  | [last] =>
      if bool_decide (last = []) then ([], false)
      else if Z.of_nat (length last) <? max then ([drop_cr last], false) else ([], true)
  | l :: ls' =>
      if Z.of_nat (length l) <? max
      then let '(rest, err) := scan max ls' in (drop_cr l :: rest, err)
      else ([], true)
  end.
Definition Scanner (content : gostr) : list gostr * bool :=
  scan MaxScanTokenSize (split_on "010" content).

(** The entries of a list: networks and single addresses. *)
Record ip_list := { nets : list IPNet; singles : list IP }.
Definition no_entries : ip_list := {| nets := []; singles := [] |}.
Definition add_line (sep : gostr) (l : ip_list) (raw : gostr) : ip_list :=
  let line := TrimSpace raw in
  if (line =s []) || HasPrefix line (str "#") || HasPrefix line (str ";") then l
  else
    let line := match IndexAny line sep with Some i => TrimSpace (take i line) | None => line end in
    if Contains line (str "/") then
      match ParseCIDR line with
      | Some (_, n) => {| nets := nets l ++ [n]; singles := singles l |}
      | None => l
      end
    else
      match ParseIP line with
      | Some ip => {| nets := nets l; singles := singles l ++ [ip] |}
      | None => l
      end.
Definition list_contains (l : ip_list) (ip : IP) : bool :=
  if any (fun n => IPNet_Contains n ip) (nets l) then true
  else any (fun s => IP_Equal s ip) (singles l).

(** A file of a directory as the loader sees it: the content it reads, [None]
    when it cannot be opened, and whether closing it succeeds. *)
Record dir_entry := {
  e_Name : gostr; e_IsDir : bool; e_content : option gostr; e_close_ok : bool
}.
Inductive read_dir := DirNotExist | DirError | DirEntries (es : list dir_entry).

Module Blocklist.
(** [Lookup.LoadDir]: [Err] leaves the loaded data as it was. *)
Fixpoint load_entries (es : list dir_entry) (l : ip_list) : result unit ip_list :=
  match es with
  | [] => Ok l
  | e :: es' =>
      if e_IsDir e || negb (HasSuffix (e_Name e) (str ".txt")) then load_entries es' l
      else match e_content e with
           | None => load_entries es' l
           | Some content =>
               let l' := fold_left (add_line (str " ")) (Scanner content).1 l in
               if e_close_ok e then load_entries es' l' else Err tt
           end
  end.
Definition LoadDir (dir : read_dir) (lookup : ip_list) : ip_list * result unit unit :=
  match dir with
  | DirNotExist => (lookup, Ok tt)
  | DirError => (lookup, Err tt)
  | DirEntries es =>
      match load_entries es no_entries with
      | Ok l => (l, Ok tt)
      | Err e => (lookup, Err e)
      end
  end.
(** [Lookup.Contains]; [[]] is the nil address. *)
Definition Contains (lookup : ip_list) (ip : IP) : bool :=
  if bool_decide (ip = []) then false else list_contains lookup ip.
End Blocklist.

Module Threat.
Record Source := { Name : gostr; URL : gostr; File : gostr; Kind : gostr }.
Record Lookup := { tor : ip_list; vpn : ip_list; proxy : ip_list }.
Definition empty_lookup : Lookup := {| tor := no_entries; vpn := no_entries; proxy := no_entries |}.

(** [parseFile]: the updated sets and the error it reports, if any.  A file
    that does not exist is [None]. *)
Definition parseFile (content : option gostr) (kind : gostr) (l : Lookup) : Lookup * bool :=
  match content with
  | None => (l, false)
  | Some content =>
      let '(lines, err) := Scanner content in
      let add := fold_left (add_line (str " " ++ ["009"%char])) lines in
      if kind =s str "tor" then ({| tor := add (tor l); vpn := vpn l; proxy := proxy l |}, err)
      else if kind =s str "vpn" then ({| tor := tor l; vpn := add (vpn l); proxy := proxy l |}, err)
      else if kind =s str "proxy" then ({| tor := tor l; vpn := vpn l; proxy := add (proxy l) |}, err)
      else (l, true)
  end.
(** [Lookup.LoadDir]: errors are logged, partial data is kept, and the
    tables that were there before are replaced. *)
Definition LoadDir (files : gostr -> option gostr) (sources : list Source) : Lookup :=
  fold_left (fun l src => (parseFile (files (File src)) (Kind src) l).1) sources empty_lookup.

Definition IsTor (l : Lookup) (ip : IP) : bool :=
  if bool_decide (ip = []) then false else list_contains (tor l) ip.
Definition IsVPN (l : Lookup) (ip : IP) : bool :=
  if bool_decide (ip = []) then false else list_contains (vpn l) ip.
Definition IsProxy (l : Lookup) (ip : IP) : bool :=
  if bool_decide (ip = []) then false else list_contains (proxy l) ip.
End Threat.

(** ** Log values ([server/middleware.go]) *)

Definition maxLogValueLen : nat := 512.
Definition log_rune (r : Z) : bool :=
  negb ((r =? 10) || (r =? 13) || ((r <? 32) && negb (r =? 9)) || (r =? 127)).
Definition sanitizeLogValue (s : gostr) : gostr :=
  string_of_runes (take maxLogValueLen (filter (fun r => log_rune r = true) (runes s))).

(** ** Allowlist *)

Record AllowlistEntry := { CIDR : gostr; Description : gostr }.
Definition NewAllowlistLookup (entries : list AllowlistEntry) : ip_list :=
  {| nets := omap (fun e =>
       let cidr := TrimSpace (CIDR e) in
       if cidr =s [] then None
       else
         let cidr :=
           if negb (Contains cidr (str "/")) then
             if Contains cidr (str ":") then cidr ++ str "/128" else cidr ++ str "/32"
           else cidr in
         snd <$> ParseCIDR cidr) entries;
     singles := [] |}.
Definition Allowlist_Contains (al : ip_list) (ip : IP) : bool :=
  if bool_decide (ip = []) then false else list_contains al ip.

Definition IsTorRequestContext (c : req_context) : bool := ctx_tor c.
Definition IsAllowlisted (c : req_context) : bool := ctx_allowlisted c.

Definition extractIP (r : request) : option IP :=
  match ctx_client_ip (r_ctx r) with
  | Some ip => Some ip
  | None => ParseIP (host_of (r_RemoteAddr r))
  end.

Definition AllowlistMiddleware {S} (al : option ip_list) : middleware S := fun next r s =>
  match al with
  | Some al =>
      if negb (IsTorRequestContext (r_ctx r)) then
        match extractIP r with
        | Some ip =>
            if Allowlist_Contains al ip then next (with_ctx r (set_allowlisted (r_ctx r))) s
            else next r s
        | None => next r s
        end
      else next r s
  | None => next r s
  end.

(** ** Country codes and private addresses *)

Definition privateRanges : list gostr :=
  [str "10.0.0.0/8"; str "172.16.0.0/12"; str "192.168.0.0/16"; str "fc00::/7"; str "::1/128"].
Definition isPrivateIP (ip : IP) : bool :=
  if IsLoopback ip || IsLinkLocalUnicast ip || IsLinkLocalMulticast ip then true
  else any (fun n => IPNet_Contains n ip) (parse_cidrs privateRanges).

(** [geo.Reader], as far as the middleware uses it: [Country] answers the ISO
    code, or [None] for an error. *)
Record geo_reader := { IsEmpty : bool; Country : IP -> option gostr }.

Section Enforcement.
Context `{UnicodeTables} (translator : I18NManager) {S : Type}.

Definition ClientIPMiddleware (tr : option TrustResolver) : middleware S := fun next r s =>
  match tr with
  | Some _ =>
      if IsTorRequest r tr then next (with_ctx r (set_tor (r_ctx r))) s
      else match ParseIP (GetClientIdentifier r tr) with
           | Some ip => next (with_ctx r (set_client_ip (r_ctx r) ip)) s
           | None => next r s
           end
  | None => next r s
  end.

Definition localized (r : request) (key : gostr) : gostr :=
  T translator (WithLang (r_ctx r) (DetectLocale r)) key.
Definition writeForbidden (msg : gostr) : effect := NegotiatedError 403 [] msg.

Definition BlocklistMiddleware (lookup : option ip_list) : middleware S := fun next r s =>
  if IsAllowlisted (r_ctx r) then next r s
  else match lookup with
       | Some lookup =>
           if negb (IsTorRequestContext (r_ctx r)) then
             match extractIP r with
             | Some ip =>
                 if negb (isPrivateIP ip) && Blocklist.Contains lookup ip
                 then (s, [WriteSecurity (str "Blocked request from blocklisted IP")
                                         (sanitizeLogValue (IP_String ip));
                           writeForbidden (localized r (str "errors.blocked_by_blocklist"))])
                 else next r s
             | None => next r s
             end
           else next r s
       | None => next r s
       end.

Definition country_set (codes : list gostr) : gset gostr :=
  list_to_set ((fun c => ToUpper (TrimSpace c)) <$> codes).
Definition country_blocked (deny allow : gset gostr) (code : gostr) : bool :=
  if bool_decide (allow <> ∅) then bool_decide (code ∉ allow)
  else if bool_decide (deny <> ∅) then bool_decide (code ∈ deny)
  else false.
Definition GeoIPMiddleware (gr : option geo_reader) (denyCountries allowCountries : list gostr)
  : middleware S :=
  let deny := country_set denyCountries in
  let allow := country_set allowCountries in
  fun next r s =>
    match gr with
    | None => next r s
    | Some g =>
        if IsEmpty g || (bool_decide (deny = ∅) && bool_decide (allow = ∅)) ||
           IsAllowlisted (r_ctx r)
        then next r s
        else match extractIP r with
             | None => next r s
             | Some ip =>
                 if isPrivateIP ip then next r s
                 else match Country g ip with
                      | None => next r s
                      | Some iso =>
                          if iso =s [] then next r s
                          else if country_blocked deny allow (ToUpper iso)
                          then (s, [writeForbidden (localized r (str "errors.blocked_by_country"))])
                          else next r s
                      end
             end
    end.

(** What the chain is configured with; [AccessPolicy] composes it. *)
Record access_config := {
  a_trust : option TrustResolver;
  a_allowlist : option ip_list;
  a_blocklist : option ip_list;
  a_geo : option geo_reader;
  a_deny : list gostr;
  a_allow : list gostr
}.
End Enforcement.

(** ** Loaded lists are the union of their lines *)

(** The addresses a line of a list file stands for. *)
Definition line_denotes (sep raw : gostr) (ip : IP) : bool :=
  list_contains (add_line sep no_entries raw) ip.

Lemma list_contains_or l ip :
  list_contains l ip = any (fun n => IPNet_Contains n ip) (nets l) || any (fun s => IP_Equal s ip) (singles l).
Proof. unfold list_contains. by destruct (any _ _). Qed.
Lemma add_line_contains sep l raw ip :
  list_contains (add_line sep l raw) ip = list_contains l ip || line_denotes sep raw ip.
Proof.
  unfold line_denotes. rewrite !list_contains_or. unfold add_line.
  destruct ((TrimSpace raw =s []) || _ || _); [by rewrite !orb_false_r|].
  destruct (Contains _ _).
  - destruct (ParseCIDR _) as [[? n]|]; cbn; [|by rewrite orb_false_r].
    rewrite existsb_app. cbn. rewrite !orb_false_r.
    destruct (existsb _ (nets l)), (existsb _ (singles l)); cbn; by rewrite ?orb_true_r, ?orb_false_r.
  - destruct (ParseIP _) as [a|]; cbn; [|by rewrite orb_false_r].
    rewrite existsb_app. cbn. rewrite !orb_false_r. by rewrite orb_assoc.
Qed.
Lemma fold_lines_contains sep lines l ip :
  list_contains (fold_left (add_line sep) lines l) ip =
  list_contains l ip || any (fun raw => line_denotes sep raw ip) lines.
Proof.
  revert l. induction lines as [|raw lines IH]; intros l; cbn; [by rewrite orb_false_r|].
  by rewrite IH, add_line_contains, orb_assoc.
Qed.

(** The files the blocklist loader reads. *)
Definition listed_in (es : list dir_entry) (ip : IP) : Prop :=
  exists e content raw,
    e ∈ es /\ e_IsDir e = false /\ HasSuffix (e_Name e) (str ".txt") = true /\
    e_content e = Some content /\ raw ∈ (Scanner content).1 /\ line_denotes (str " ") raw ip = true.

Lemma listed_in_cons e es ip :
  listed_in (e :: es) ip <-> listed_in [e] ip \/ listed_in es ip.
Proof. unfold listed_in. set_solver. Qed.
Lemma load_entries_contains es l l' ip :
  Blocklist.load_entries es l = Ok l' ->
  list_contains l' ip = true <-> list_contains l ip = true \/ listed_in es ip.
Proof.
  revert l. induction es as [|e es IH]; intros l; cbn.
  { intros [= ->]. split; [by left|]. intros [?|(? & ? & ? & ?%elem_of_nil & _)]; done. }
  rewrite listed_in_cons.
  destruct (e_IsDir e || _) eqn:Eskip.
  { intros ->%IH. assert (~ listed_in [e] ip) as Hno; [|tauto].
    intros (? & ? & ? & ->%list_elem_of_singleton & Hd & Hs & _). rewrite Hd, Hs in Eskip. done. }
  apply orb_false_iff in Eskip as [Hd Hs%negb_false_iff].
  destruct (e_content e) as [content|] eqn:Ec.
  2: { intros ->%IH. assert (~ listed_in [e] ip) as Hno; [|tauto].
       intros (? & ? & ? & ->%list_elem_of_singleton & _ & _ & Hc & _). congruence. }
  destruct (e_close_ok e); [|done]. intros ->%IH.
  rewrite fold_lines_contains, orb_true_iff, any_true.
  assert ((exists raw, raw ∈ (Scanner content).1 /\ line_denotes (str " ") raw ip = true) <->
          listed_in [e] ip) as Hhead; [|tauto].
  split.
  - intros (raw & Hr & Hl). exists e, content, raw. by rewrite list_elem_of_singleton.
  - intros (? & c & raw & ->%list_elem_of_singleton & _ & _ & Hc & Hr). exists raw.
    by replace c with content in Hr by congruence.
Qed.

(** After a successful load of a directory, an address is on the blocklist
    exactly when a line of one of its readable [.txt] files denotes it; a
    missing directory and a failed load leave the list in force unchanged. *)
Theorem LoadDir_spec dir lookup :
  match dir with
  | DirEntries es =>
      match Blocklist.LoadDir dir lookup with
      | (l, Ok _) => forall ip, ip <> [] -> Blocklist.Contains l ip = true <-> listed_in es ip
      | (l, Err _) => l = lookup /\ exists e, e ∈ es /\ e_close_ok e = false
      end
  | _ => (Blocklist.LoadDir dir lookup).1 = lookup
  end.
Proof.
  destruct dir as [| |es]; [done..|]. unfold Blocklist.LoadDir.
  destruct (Blocklist.load_entries es no_entries) as [l|u] eqn:E.
  - intros ip Hip. unfold Blocklist.Contains. rewrite bool_decide_false by done.
    rewrite (load_entries_contains _ _ _ _ E). split; [by intros [?|?]|by right].
  - split; [done|]. revert E. generalize no_entries.
    induction es as [|e es IH]; intros l; cbn; [done|].
    assert ((exists e', e' ∈ es /\ e_close_ok e' = false) ->
            exists e', e' ∈ e :: es /\ e_close_ok e' = false) as Hmono by set_solver.
    destruct (_ || _); [by eauto|]. destruct (e_content e); [|by eauto].
    destruct (e_close_ok e) eqn:Ec; [by eauto|]. intros _. exists e. split; [left|done].
Qed.

(** ** Private addresses *)

Lemma privateRanges_value :
  parse_cidrs privateRanges =
  [ {| net_IP := [10; 0; 0; 0]; net_Mask := [255; 0; 0; 0] |};
    {| net_IP := [172; 16; 0; 0]; net_Mask := [255; 240; 0; 0] |};
    {| net_IP := [192; 168; 0; 0]; net_Mask := [255; 255; 0; 0] |};
    {| net_IP := 252 :: replicate 15 0; net_Mask := 254 :: replicate 15 0 |};
    {| net_IP := IPv6loopback; net_Mask := replicate 16 255 |} ].
Proof. reflexivity. Qed.
Lemma isPrivateIP_v4 a b c d :
  is_byte a -> is_byte b ->
  isPrivateIP (IPv4 a b c d) = v4_internal a b || ((a =? 224) && (b =? 0) && (c =? 0)).
Proof.
  intros Ha Hb. unfold isPrivateIP, IsLoopback, IsLinkLocalUnicast, IsLinkLocalMulticast.
  rewrite To4_IPv4, privateRanges_value. unfold byte_at. cbn [lookup list_lookup default]. v4_nets.
  change (Z.land 10 255) with 10. change (Z.land 16 240) with 16. rewrite land_240_16 by done.
  change (Z.land 168 255) with 168. cbn [default id]. unfold v4_internal. bool_cases.
Qed.

(** ** Log values *)

(** What [sanitizeLogValue] returns can be written to a line-based log:
    it has no line feed, no carriage return, no other control byte except the
    tab and no DEL, and at most 512 runes (2048 bytes). *)
Theorem sanitizeLogValue_safe s :
  (forall c, c ∈ sanitizeLogValue s -> (32 <= code c \/ code c = 9) /\ code c <> 127) /\
  Z.of_nat (length (sanitizeLogValue s)) <= 2048.
Proof.
  unfold sanitizeLogValue. set (rs := take _ _). split.
  - intros c (r & Hr & Hc)%elem_of_string_of_runes.
    assert (log_rune r = true) as Hl.
    { apply elem_of_take in Hr as (i & Hr & _). apply list_elem_of_lookup_2 in Hr.
      by apply list_elem_of_filter in Hr as [? _]. }
    apply encode_rune_bytes in Hc as [[-> Hlt]|Hge]; [|lia].
    unfold log_rune in Hl. bool_facts.
    destruct (r <? 32) eqn:E; cbn in *; bool_facts; lia.
  - pose proof (string_of_runes_length rs). assert (length rs <= 512)%nat; [|lia].
    unfold rs. rewrite length_take. unfold maxLogValueLen. lia.
Qed.

(** Printable ASCII text that fits is kept as it is. *)
Lemma sanitizeLogValue_keeps s :
  forallb isASCII s = true -> forallb (fun c => log_rune (code c)) s = true ->
  (length s <= maxLogValueLen)%nat -> sanitizeLogValue s = s.
Proof.
  intros Ha Hl Hn. unfold sanitizeLogValue. rewrite runes_ascii by done.
  assert (filter (fun r => log_rune r = true) (code <$> s) = code <$> s) as ->.
  { clear Ha Hn. induction s as [|c s IH]; [done|]. rewrite fmap_cons.
    cbn [forallb] in Hl. apply andb_true_iff in Hl as [Hc Hs].
    rewrite filter_cons_True by done. by rewrite IH. }
  rewrite take_ge by (by rewrite length_fmap). clear Hl Hn.
  induction s as [|c s IH]; [done|]. cbn [forallb] in Ha. apply andb_true_iff in Ha as [Hc Hs].
  change (string_of_runes (code <$> c :: s)) with (encode_rune (code c) ++ string_of_runes (code <$> s)).
  rewrite IH by done. unfold encode_rune, isASCII in *. bool_facts.
  pose proof (code_range c) as Hr. rewrite (proj2 (Z.leb_le _ _)), (proj2 (Z.ltb_lt _ _)) by lia. cbn.
  unfold chr, code. rewrite N2Z.id. by rewrite ascii_N_embedding.
Qed.

(** ** The decision of the access chain *)

Section Decision.
Context `{UnicodeTables} (translator : I18NManager) {S : Type}.
Variable cfg : access_config.

(** The address the chain acts on. *)
Definition client_address (r : request) : option IP :=
  let direct := ParseIP (host_of (r_RemoteAddr r)) in
  if IsTorRequest r (a_trust cfg) then direct
  else match a_trust cfg with
       | None => direct
       | Some _ => match ParseIP (GetClientIdentifier r (a_trust cfg)) with
                   | Some ip => Some ip
                   | None => direct
                   end
       end.

Definition on (l : option ip_list) (ip : IP) : bool :=
  match l with Some l => Blocklist.Contains l ip | None => false end.
Definition country_refused (ip : IP) : bool :=
  match a_geo cfg with
  | None => false
  | Some g =>
      negb (IsEmpty g) &&
      match Country g ip with
      | None => false
      | Some iso => (iso <>s []) && country_blocked (country_set (a_deny cfg)) (country_set (a_allow cfg)) (ToUpper iso)
      end
  end.
End Decision.

Section ChainFacts.
Context `{UnicodeTables} (translator : I18NManager) {S : Type}.
Variable cfg : access_config.

(** A refusal leaves the state alone, answers 403 and hands nothing on. *)
Definition refusal (s : S) (res : S * list effect) : Prop :=
  res.1 = s /\ served res.2 = [] /\ exists msg, NegotiatedError 403 [] msg ∈ res.2.

Lemma country_blocked_noop deny allow code :
  deny = ∅ -> allow = ∅ -> country_blocked deny allow code = false.
Proof. intros -> ->. unfold country_blocked. by rewrite !bool_decide_false by auto. Qed.

(** The country filter, on a request that carries the flags of the outer
    middleware. *)
Lemma GeoIP_decision (next : handler S) r s :
  let res := GeoIPMiddleware translator (a_geo cfg) (a_deny cfg) (a_allow cfg) next r s in
  let stop := negb (ctx_allowlisted (r_ctx r)) &&
              match extractIP r with
              | None => false
              | Some ip => negb (isPrivateIP ip) && country_refused cfg ip
              end in
  if stop then refusal s res else res = next r s.
Proof.
  cbn zeta. unfold GeoIPMiddleware, country_refused, IsAllowlisted.
  destruct (a_geo cfg) as [g|]; [|destruct (extractIP r); by rewrite ?andb_false_r].
  destruct (IsEmpty g); [destruct (extractIP r); by rewrite ?andb_false_r|].
  destruct (ctx_allowlisted (r_ctx r)); [by rewrite !orb_true_r|]. rewrite orb_false_r. cbn [negb orb andb].
  destruct (_ && _) eqn:Enoop.
  { bool_facts. destruct (extractIP r) as [ip|]; [|done]. destruct (Country g ip) as [iso|];
      rewrite ?country_blocked_noop by done; by rewrite ?andb_false_r. }
  destruct (extractIP r) as [ip|]; [|done]. destruct (isPrivateIP ip); [done|].
  destruct (Country g ip) as [iso|]; [|done]. cbn [negb andb].
  destruct (bool_decide (iso = [])); [done|]. cbn [negb andb].
  destruct (country_blocked _ _ _); [|done].
  repeat split. eexists. apply list_elem_of_singleton. done.
Qed.
Lemma Blocklist_decision (next : handler S) r s :
  let res := BlocklistMiddleware translator (a_blocklist cfg) next r s in
  let stop := negb (ctx_allowlisted (r_ctx r)) && negb (ctx_tor (r_ctx r)) &&
              match extractIP r with
              | None => false
              | Some ip => negb (isPrivateIP ip) && on (a_blocklist cfg) ip
              end in
  if stop then refusal s res else res = next r s.
Proof.
  cbn zeta. unfold BlocklistMiddleware, IsAllowlisted, IsTorRequestContext, on.
  destruct (ctx_allowlisted (r_ctx r)); [done|].
  destruct (a_blocklist cfg) as [l|].
  2: { destruct (ctx_tor _); [done|]. destruct (extractIP r); [|done]. by rewrite andb_false_r. }
  destruct (ctx_tor (r_ctx r)); [done|]. cbn [negb andb]. destruct (extractIP r) as [ip|]; [|done].
  destruct (_ && _); [|done]. repeat split. eexists. right. apply list_elem_of_singleton. done.
Qed.
Lemma Allowlist_decision (next : handler S) r s :
  AllowlistMiddleware (a_allowlist cfg) next r s =
  next (if negb (ctx_tor (r_ctx r)) &&
           match extractIP r with Some ip => on (a_allowlist cfg) ip | None => false end
        then with_ctx r (set_allowlisted (r_ctx r)) else r) s.
Proof.
  unfold AllowlistMiddleware, IsTorRequestContext, on. destruct (a_allowlist cfg) as [al|].
  - destruct (ctx_tor _); [done|]. destruct (extractIP r) as [ip|]; [|done].
    change (Allowlist_Contains al ip) with (Blocklist.Contains al ip). by destruct (Blocklist.Contains al ip).
  - destruct (ctx_tor _); [done|]. by destruct (extractIP r).
Qed.

(** A context the access middleware has not written to yet. *)
Definition unmarked (c : req_context) : Prop :=
  ctx_client_ip c = None /\ ctx_tor c = false /\ ctx_allowlisted c = false.

(** The request that leaves [ClientIPMiddleware]: its flags and the address
    the later stages read. *)
Lemma ClientIP_decision (next : handler S) r s :
  unmarked (r_ctx r) ->
  exists c, ClientIPMiddleware (a_trust cfg) next r s = next (with_ctx r c) s /\
    ctx_tor c = IsTorRequest r (a_trust cfg) /\ ctx_allowlisted c = false /\
    extractIP (with_ctx r c) = client_address cfg r.
Proof.
  intros (Hip & Htor & Hal). unfold ClientIPMiddleware, client_address, extractIP.
  assert (with_ctx r (r_ctx r) = r) as Hr by by destruct r.
  destruct (a_trust cfg) as [t|] eqn:Et.
  - destruct (IsTorRequest r (Some t)) eqn:Ei.
    { exists (set_tor (r_ctx r)). cbn. by rewrite Hip, Hal. }
    destruct (ParseIP (GetClientIdentifier r (Some t))) as [ip|].
    + exists (set_client_ip (r_ctx r) ip). by split_and!.
    + exists (r_ctx r). rewrite Hr, Hip. by split_and!.
  - exists (r_ctx r). rewrite Hr, Hip. by split_and!.
Qed.
End ChainFacts.

(** Concrete configurations. *)
Definition no_translations : I18NManager := {| translations := ∅; fallback := str "en" |}.
Definition sample_config (onion : gostr) (gr : option geo_reader) : access_config :=
  {| a_trust := Some {| listenCIDR := None; additional := []; dnsCache := ∅;
                        OnionAddress := onion; I2PAddress := [] |};
     a_allowlist := Some (NewAllowlistLookup [ {| CIDR := str "203.0.113.7"; Description := [] |} ]);
     a_blocklist := Some (fold_left (add_line (str " ")) [str "203.0.113.0/24 ; test net"] no_entries);
     a_geo := gr; a_deny := [str "xx"]; a_allow := [] |}.
