(* ===== verification/RateLimit.v ===== *)
(** * Rate limiting: [server/ratelimit.go]

    One token bucket per client and endpoint class, plus a global one per
    client.  The bucket itself ([golang.org/x/time/rate]) is a parameter, the
    class [TokenBucket]: a limiter is built from a rate and a burst, and
    [Allow] consumes a token if there is one.  A call happens at one instant of
    the clock. *)

From S2P Require Import Prelude GoStrings GoNet Http Netutil I18n AccessControl.
#[local] Open Scope go_scope.

(** ** The token bucket *)

(** [num] events per [den] nanoseconds. *)
Record rate := { num : Z; den : Z }.

Class TokenBucket := {
  limiter : Type;
  NewLimiter : rate -> Z -> limiter;
  Allow : Z -> limiter -> limiter * bool
}.

(** A limiter asked at the given instants: its final state and its answers. *)
Fixpoint asked `{TokenBucket} (ts : list Z) (l : limiter) : limiter * list bool :=
  match ts with
  | [] => (l, [])
  | t :: ts' =>
      let '(l', b) := Allow t l in
      let '(l'', bs) := asked ts' l' in (l'', b :: bs)
  end.
Definition admitted (bs : list bool) : Z := Z.of_nat (length (filter (fun b => b = true) bs)).

Definition sorted (ts : list Z) : Prop := StronglySorted Z.le ts.
Definition valid_rate (r : rate) (burst : Z) : Prop := 0 < num r /\ 0 < den r /\ 0 < burst.

(** What the package documents of [Limiter]: a bucket of size [burst],
    initially full, refilled at the given rate. *)
Class TokenBucketLaws `{TokenBucket} := {
  (* over an interval, at most the burst and what was refilled in it *)
  allow_bound : forall r burst ts t0 t1,
    valid_rate r burst -> sorted ts -> Forall (fun t => t0 <= t <= t1) ts -> t0 <= t1 ->
    den r * (admitted (asked ts (NewLimiter r burst)).2 - burst) <= num r * (t1 - t0);
  (* the bucket is full at first *)
  allow_burst : forall r burst ts,
    valid_rate r burst -> sorted ts -> Z.of_nat (length ts) <= burst ->
    Forall (eq true) (asked ts (NewLimiter r burst)).2;
  (* left alone long enough to fill up, it is as good as new *)
  allow_refilled : forall r burst ts t now,
    valid_rate r burst -> sorted (ts ++ [t]) -> t <= now -> burst * den r <= num r * (now - t) ->
    Allow now (asked (ts ++ [t]) (NewLimiter r burst)).1 = Allow now (NewLimiter r burst)
}.

(** ** [ratelimit.go] *)

Inductive rateClass := rateClassRead | rateClassWrite | rateClassHealth | rateClassGlobal.
#[export] Instance rateClass_eq_dec : EqDecision rateClass.
Proof. solve_decision. Defined.
Definition class_name (c : rateClass) : gostr :=
  match c with
  | rateClassRead => str "read"
  | rateClassWrite => str "write"
  | rateClassHealth => str "health"
  | rateClassGlobal => str "global"
  end.

Record RateLimitBucket := { Limit : Z; Window : Z; Burst : Z }.
Definition effectiveWindow (b : RateLimitBucket) : Z := if Window b <=? 0 then Minute else Window b.
Definition effectiveBurst (b : RateLimitBucket) : Z :=
  if 0 <? Burst b then Burst b else if 0 <? Limit b then Limit b else 1.
Definition configured (b : RateLimitBucket) : bool := 0 <? Limit b.

Record RateLimitConfig := {
  Read : RateLimitBucket; Write : RateLimitBucket; Health : RateLimitBucket; Global : RateLimitBucket
}.
Definition per_minute (n : Z) : RateLimitBucket := {| Limit := n; Window := Minute; Burst := 0 |}.
Definition DefaultRateLimitConfig : RateLimitConfig :=
  {| Read := per_minute 120; Write := per_minute 10; Health := per_minute 120; Global := per_minute 240 |}.
Definition bucketFor (c : RateLimitConfig) (class : rateClass) : RateLimitBucket :=
  match class with
  | rateClassWrite => Write c
  | rateClassHealth => Health c
  | rateClassGlobal => Global c
  | rateClassRead => Read c
  end.
(** The defaults [NewRateLimiter] fills in. *)
Definition with_defaults (cfg : RateLimitConfig) : RateLimitConfig :=
  let d := DefaultRateLimitConfig in
  {| Read := if configured (Read cfg) then Read cfg else Read d;
     Write := if configured (Write cfg) then Write cfg else Write d;
     Health := if configured (Health cfg) then Health cfg else Health d;
     Global := if configured (Global cfg) then Global cfg else Global d |}.

(** [rate.Limit(float64(Limit) / window.Seconds())], kept as a fraction. *)
Definition bucket_rate (b : RateLimitBucket) : rate := {| num := Limit b; den := effectiveWindow b |}.

Definition healthCheckPaths : list gostr :=
  [str "/api/v1/server/healthz"; str "/server/healthz"; str "/healthz"].

Definition classifyRequest (r : request) : rateClass :=
  if any (fun p => p =s r_URL_Path r) healthCheckPaths then rateClassHealth
  else if (r_Method r =s str "GET") || (r_Method r =s str "HEAD") then rateClassRead
  else rateClassWrite.

Definition idleTimeout : Z := 10 * Minute.

Section Limiter.
Context `{TokenBucket} `{UnicodeTables}.

Record clientLimiter := { cl_limiter : limiter; lastSeen : Z }.
Abbreviation limiter_map := (gmap gostr clientLimiter).

(** Look the key up, create a limiter if there is none, mark it seen and
    consume a token: [getLimiter(...).Allow()]. *)
Definition take_token (r : rate) (burst : Z) (key : gostr) (now : Z) (m : limiter_map)
  : limiter_map * bool :=
  let l := match m !! key with
           | Some cl => cl_limiter cl
           | None => NewLimiter r burst
           end in
  let '(l', ok) := Allow now l in
  (<[key := {| cl_limiter := l'; lastSeen := now |}]> m, ok).

(** [cleanup]: entries last seen before the cutoff are deleted. *)
Definition cleanup_limiters (now : Z) (m : limiter_map) : limiter_map :=
  filter (fun kv => ~ lastSeen kv.2 < now - idleTimeout) m.

Record RateLimiter := {
  limiters : limiter_map;
  config : RateLimitConfig;
  trust : option TrustResolver
}.
Definition NewRateLimiter (cfg : RateLimitConfig) (tr : option TrustResolver) : RateLimiter :=
  {| limiters := ∅; config := with_defaults cfg; trust := tr |}.
Definition with_limiters (rl : RateLimiter) (m : limiter_map) : RateLimiter :=
  {| limiters := m; config := config rl; trust := trust rl |}.

Definition limiter_key (clientIP : gostr) (class : rateClass) : gostr :=
  clientIP ++ str "|" ++ class_name class.
Definition ask (rl : RateLimiter) (clientIP : gostr) (class : rateClass) (now : Z)
  : RateLimiter * bool :=
  let b := bucketFor (config rl) class in
  let '(m, ok) := take_token (bucket_rate b) (effectiveBurst b) (limiter_key clientIP class) now
                    (limiters rl) in
  (with_limiters rl m, ok).
Definition AllowClass (rl : RateLimiter) (clientIP : gostr) (class : rateClass) (now : Z)
  : RateLimiter * bool :=
  let '(rl, ok) := ask rl clientIP class now in
  if ok then ask rl clientIP rateClassGlobal now else (rl, false).
Definition RateLimiter_Allow (rl : RateLimiter) (clientIP : gostr) (now : Z) : RateLimiter * bool :=
  AllowClass rl clientIP rateClassRead now.
Definition cleanup (rl : RateLimiter) (now : Z) : RateLimiter :=
  with_limiters rl (cleanup_limiters now (limiters rl)).

Definition getClientIP (rl : RateLimiter) (r : request) : gostr := GetClientIdentifier r (trust rl).

(** The 429 answer; [hook] tells whether [OnBlocked] is set. *)
Definition too_many (translator : I18NManager) (rl : RateLimiter) (hook : bool) (r : request)
    (clientIP : gostr) (class : rateClass) : list effect :=
  let bucket := bucketFor (config rl) class in
  (if hook then [OnBlocked clientIP] else []) ++
  [WriteSecurity (str "Rate limit exceeded") (sanitizeLogValue clientIP);
   SetHeader (str "Retry-After") (Itoa (effectiveWindow bucket / Second));
   SetHeader (str "X-RateLimit-Limit") (Itoa (Limit bucket));
   SetHeader (str "X-RateLimit-Remaining") (str "0");
   SetHeader (str "Content-Type") (str "application/json");
   WriteHeader 429;
   WriteJSON [(str "ok", JBool false); (str "error", JString (str "RATE_LIMITED"));
              (str "message", JString (localized translator r (str "errors.rate_limited")))]].
Definition RateLimitMiddleware (translator : I18NManager) (hook : bool) (now : Z)
  : middleware RateLimiter := fun next r rl =>
  if IsAllowlisted (r_ctx r) then next r rl
  else
    let clientIP := getClientIP rl r in
    let class := classifyRequest r in
    let '(rl', ok) := AllowClass rl clientIP class now in
    if ok then next r rl' else (rl', too_many translator rl' hook r clientIP class).

(** *** [ReportRateLimiter] *)

Record ReportRateLimiter := { rep_limiters : limiter_map; perMinute : Z; burst : Z }.
Definition NewReportRateLimiter (perMinute burst : Z) : ReportRateLimiter :=
  {| rep_limiters := ∅;
     perMinute := if perMinute <? 1 then 60 else perMinute;
     burst := if burst <? 1 then 10 else burst |}.
Definition Report_Allow (rrl : option ReportRateLimiter) (clientIP : gostr) (now : Z)
  : option ReportRateLimiter * bool :=
  match rrl with
  | None => (None, true)
  | Some l =>
      let '(m, ok) := take_token {| num := perMinute l; den := Minute |} (burst l) clientIP now
                        (rep_limiters l) in
      (Some {| rep_limiters := m; perMinute := perMinute l; burst := burst l |}, ok)
  end.
Definition Report_cleanup (l : ReportRateLimiter) (now : Z) : ReportRateLimiter :=
  {| rep_limiters := cleanup_limiters now (rep_limiters l); perMinute := perMinute l; burst := burst l |}.

(** ** Runs *)

(** What happens to a limiter over time: a request of a client, or a tick of
    the cleanup loop. *)
Inductive rl_event :=
| Request (clientIP : gostr) (class : rateClass) (now : Z)
| Cleanup (now : Z).
Definition event_time (e : rl_event) : Z := match e with Request _ _ t | Cleanup t => t end.
Definition rl_step (rl : RateLimiter) (e : rl_event) : RateLimiter * option bool :=
  match e with
  | Request c k t => let '(rl', ok) := AllowClass rl c k t in (rl', Some ok)
  | Cleanup t => (cleanup rl t, None)
  end.
Fixpoint rl_run (rl : RateLimiter) (es : list rl_event) : RateLimiter * list bool :=
  match es with
  | [] => (rl, [])
  | e :: es' =>
      let '(rl1, o) := rl_step rl e in
      let '(rl2, bs) := rl_run rl1 es' in (rl2, match o with Some b => b :: bs | None => bs end)
  end.
End Limiter.

(** ** A token bucket that meets the documented behaviour *)

Module ExactBucket.
Record bucket := { b_rate : rate; b_burst : Z; tokens : Z; last_use : option Z }.
Definition new (r : rate) (n : Z) : bucket :=
  {| b_rate := r; b_burst := n; tokens := n * den r; last_use := None |}.
(** Tokens are counted in units of [1 / den]. *)
Definition available (now : Z) (b : bucket) : Z :=
  match last_use b with
  | None => tokens b
  | Some t => Z.min (b_burst b * den (b_rate b)) (tokens b + num (b_rate b) * Z.max 0 (now - t))
  end.
Definition allow (now : Z) (b : bucket) : bucket * bool :=
  let n := available now b in
  if den (b_rate b) <=? n
  then ({| b_rate := b_rate b; b_burst := b_burst b; tokens := n - den (b_rate b); last_use := Some now |}, true)
  else ({| b_rate := b_rate b; b_burst := b_burst b; tokens := n; last_use := Some now |}, false).
#[export] Instance exact : TokenBucket := {| limiter := bucket; NewLimiter := new; Allow := allow |}.

(** A bucket of the given size, not overdrawn, that was not used after [t]. *)
Definition inv (r : rate) (n t : Z) (b : bucket) : Prop :=
  b_rate b = r /\ b_burst b = n /\ 0 <= tokens b /\
  match last_use b with None => tokens b = n * den r | Some t' => t' <= t end.

Lemma new_inv r n t : valid_rate r n -> inv r n t (new r n).
Proof. intros (? & ? & ?). unfold inv. split_and!; cbn; [done..| |done]. nia. Qed.
Lemma available_nonneg r n t now b :
  valid_rate r n -> inv r n t b -> 0 <= available now b.
Proof.
  intros (? & ? & ?) (Hr & Hn & Ht & _). unfold available. destruct (last_use b); [|done].
  rewrite Hr, Hn. nia.
Qed.
Lemma allow_inv r n t now b :
  valid_rate r n -> inv r n t b -> t <= now ->
  inv r n now (allow now b).1 /\ last_use (allow now b).1 = Some now /\
  den r * Z.b2z (allow now b).2 + tokens (allow now b).1 = available now b /\
  (allow now b).2 = (den r <=? available now b).
Proof.
  intros Hv Hi Hle. pose proof (available_nonneg _ _ _ now _ Hv Hi) as Ha.
  destruct Hi as (Hr & Hn & _). unfold allow, inv. rewrite Hr.
  destruct (den r <=? available now b) eqn:E; bool_facts; split_and!; cbn; try done; try lia.
Qed.

Lemma admitted_cons x bs : admitted (x :: bs) = Z.b2z x + admitted bs.
Proof.
  unfold admitted. destruct x; [rewrite filter_cons_True by done|rewrite filter_cons_False by done];
    cbn [length Z.b2z]; lia.
Qed.

(** What is admitted was in the bucket or refilled since. *)
Lemma bound_from r n t1 ts : forall t b,
  valid_rate r n -> inv r n t b -> last_use b = Some t ->
  StronglySorted Z.le (t :: ts) -> Forall (fun t => t <= t1) (t :: ts) ->
  den r * admitted (asked ts b).2 <= tokens b + num r * (t1 - t).
Proof.
  induction ts as [|t' ts IH]; intros t b Hv Hi Hl Hs Hb.
  - destruct Hv as (? & ? & ?), Hi as (_ & _ & Ht & _). change (admitted _) with 0.
    apply Forall_cons in Hb as [? _]. nia.
  - apply StronglySorted_inv in Hs as [Hs Hle]. apply Forall_cons in Hle as [Hle _].
    apply Forall_cons in Hb as [_ Hb].
    destruct (allow_inv r n t t' b Hv Hi Hle) as (Hi' & Hl' & Hbal & _).
    specialize (IH t' (allow t' b).1 Hv Hi' Hl' Hs Hb).
    cbn [asked Allow exact]. destruct (allow t' b) as [b' ok]. cbn in *.
    destruct (@asked exact ts b') as [b'' bs]. cbn in *. rewrite admitted_cons.
    assert (available t' b <= tokens b + num r * (t' - t)).
    { unfold available. rewrite Hl. destruct Hi as (-> & _). rewrite Z.max_r by lia. lia. }
    nia.
Qed.
Lemma burst_from r n ts : forall t b,
  valid_rate r n -> inv r n t b -> StronglySorted Z.le ts -> Forall (fun t' => t <= t') ts ->
  den r * Z.of_nat (length ts) <= tokens b -> tokens b <= n * den r -> Forall (eq true) (asked ts b).2.
Proof.
  induction ts as [|t' ts IH]; intros t b Hv Hi Hs Hle Hn Hmax; [done|].
  apply StronglySorted_inv in Hs as [Hs Hle']. apply Forall_cons in Hle as [Hle _].
  destruct (allow_inv r n t t' b Hv Hi Hle) as (Hi' & Hl' & Hbal & Hok).
  destruct Hv as (Hv1 & Hv2 & Hv3) eqn:E. pose proof Hi as (Er & En & _).
  assert (tokens b <= available t' b <= n * den r) as Hav.
  { unfold available. rewrite Er, En. destruct (last_use b); nia. }
  cbn [length] in Hn. rewrite (proj2 (Z.leb_le _ _)) in Hok by nia.
  specialize (IH t' (allow t' b).1 Hv Hi' Hs Hle').
  cbn [asked Allow exact]. destruct (allow t' b) as [b' ok]. cbn in *. subst ok.
  destruct (@asked exact ts b') as [b'' bs]. cbn in *.
  constructor; [done|]. apply IH; nia.
Qed.
Lemma asked_inv r n ts : forall t b,
  valid_rate r n -> inv r n t b -> StronglySorted Z.le ts -> Forall (fun t' => t <= t') ts ->
  forall t', last ts = Some t' -> inv r n t' (asked ts b).1 /\ last_use (asked ts b).1 = Some t'.
Proof.
  induction ts as [|t1 ts IH]; intros t b Hv Hi Hs Hle t' Hlast; [done|].
  apply StronglySorted_inv in Hs as [Hs Hle']. apply Forall_cons in Hle as [Hle _].
  destruct (allow_inv r n t t1 b Hv Hi Hle) as (Hi' & Hl' & _).
  specialize (IH t1 (allow t1 b).1 Hv Hi' Hs Hle' t').
  cbn [asked Allow exact]. destruct (allow t1 b) as [b' ok]. cbn in *.
  destruct ts as [|t2 ts]; [by injection Hlast as <-|].
  specialize (IH Hlast). by destruct (@asked exact (t2 :: ts) b').
Qed.

#[export] Instance exact_laws : TokenBucketLaws.
Proof.
  split.
  - intros r n ts t0 t1 Hv Hs Hb Hle. destruct ts as [|t ts].
    { destruct Hv as (? & ? & ?). change (admitted _) with 0. nia. }
    pose proof (new_inv r n t Hv) as Hi. apply StronglySorted_inv in Hs as [Hs Hle'].
    destruct (allow_inv r n t t _ Hv Hi ltac:(lia)) as (Hi' & Hl' & Hbal & _).
    pose proof (bound_from r n t1 ts t (allow t (new r n)).1 Hv Hi' Hl') as Hbd.
    rewrite Forall_forall in Hb.
    specialize (Hbd ltac:(by constructor)
      ltac:(apply Forall_forall; intros x Hx; by destruct (Hb x Hx))).
    cbn [asked Allow NewLimiter exact]. destruct (allow t (new r n)) as [b' ok]. cbn in *.
    destruct (@asked exact ts b') as [b'' bs]. cbn in *. rewrite admitted_cons.
    specialize (Hb t ltac:(left)). destruct Hv as (? & ? & ?).
    unfold available in Hbal. cbn in Hbal. nia.
  - intros r n ts Hv Hs Hn. destruct ts as [|t ts]; [done|].
    apply (burst_from r n (t :: ts) t); [done|by apply new_inv|done| | |cbn; lia].
    + apply StronglySorted_inv in Hs as [_ Hs]. constructor; [lia|done].
    + destruct Hv as (? & ? & ?). cbn [NewLimiter exact new tokens]. nia.
  - intros r n ts t now Hv Hs Hle Hfull.
    assert (exists t0, Forall (fun t' => t0 <= t') (ts ++ [t])) as [t0 Ht0].
    { destruct ts as [|t0 ts]; [exists t; by repeat constructor|]. exists t0.
      apply StronglySorted_inv in Hs as [_ Hs]. constructor; [lia|done]. }
    destruct (asked_inv r n (ts ++ [t]) t0 (new r n) Hv (new_inv _ _ _ Hv) Hs Ht0 t) as [(Hr & Hn & Ht & _) Hl].
    { by rewrite last_snoc. }
    cbn [Allow NewLimiter exact]. unfold allow.
    assert (available now (@asked exact (ts ++ [t]) (new r n)).1 = available now (new r n)) as ->.
    { unfold available. rewrite Hl, Hr, Hn. cbn [new last_use tokens]. rewrite Z.max_r by lia. nia. }
    by rewrite Hr, Hn.
Qed.
End ExactBucket.

(** ** The limiter map *)

Lemma class_name_no_bar k : "|"%char ∉ class_name k.
Proof. by destruct k; vm_compute; set_solver. Qed.
Lemma class_name_inj k k' : class_name k = class_name k' -> k = k'.
Proof. by destruct k, k'. Qed.
(** Keys of different clients or classes never collide, whatever text the
    client identifier is. *)
Lemma limiter_key_inj c c' k k' : limiter_key c k = limiter_key c' k' -> c = c' /\ k = k'.
Proof.
  unfold limiter_key. intros E.
  assert (length c = length c') as Hl.
  { pose proof (LastIndexByte_last "|" c _ (class_name_no_bar k)) as H1.
    pose proof (LastIndexByte_last "|" c' _ (class_name_no_bar k')) as H2.
    change (c ++ "|"%char :: class_name k) with (c ++ str "|" ++ class_name k) in H1.
    change (c' ++ "|"%char :: class_name k') with (c' ++ str "|" ++ class_name k') in H2. congruence. }
  apply app_inj_1 in E as [-> E]; [|done]. split; [done|].
  apply app_inv_head in E. by apply class_name_inj.
Qed.

Lemma valid_bucket cfg k :
  valid_rate (bucket_rate (bucketFor (with_defaults cfg) k)) (effectiveBurst (bucketFor (with_defaults cfg) k)).
Proof.
  unfold with_defaults, configured, valid_rate, bucket_rate, effectiveWindow, effectiveBurst, Minute, Second.
  destruct k; cbn [bucketFor Read Write Health Global num den]; split_and!; go; cbn in *; lia.
Qed.

Section Asked.
Context `{TokenBucket}.
Lemma asked_snoc ts t l :
  asked (ts ++ [t]) l =
  ((Allow t (asked ts l).1).1, (asked ts l).2 ++ [(Allow t (asked ts l).1).2]).
Proof.
  revert l. induction ts as [|t' ts IH]; intros l; cbn [asked app fst snd].
  { by destruct (Allow t l). }
  destruct (Allow t' l) as [l' b]. rewrite IH. by destruct (asked ts l').
Qed.
Lemma sorted_snoc ts t : sorted ts -> Forall (fun t' => t' <= t) ts -> sorted (ts ++ [t]).
Proof.
  unfold sorted. induction 1 as [|x ts Hs IH Hx]; intros Hle; cbn; [by repeat constructor|].
  apply Forall_cons in Hle as [? Hle]. constructor; [by apply IH|].
  apply Forall_app. split; [done|]. by repeat constructor.
Qed.
End Asked.

Section Runs.
Context `{TokenBucketLaws} `{UnicodeTables}.

Definition fresh (cfg : RateLimitConfig) (k : rateClass) : limiter :=
  NewLimiter (bucket_rate (bucketFor cfg k)) (effectiveBurst (bucketFor cfg k)).

(** The entry of a key after its limiter was asked at the instants [ts]. *)
Definition used (rl : RateLimiter) (c : gostr) (k : rateClass) (ts : list Z) : Prop :=
  limiters rl !! limiter_key c k =
  (fun t => {| cl_limiter := (asked ts (fresh (config rl) k)).1; lastSeen := t |}) <$> last ts.

(** The limiter a request of the key finds or creates. *)
Definition current (rl : RateLimiter) (c : gostr) (k : rateClass) : limiter :=
  match limiters rl !! limiter_key c k with
  | Some cl => cl_limiter cl
  | None => fresh (config rl) k
  end.
Lemma ask_eq rl c k t :
  ask rl c k t =
  (with_limiters rl (<[limiter_key c k :=
     {| cl_limiter := (Allow t (current rl c k)).1; lastSeen := t |}]> (limiters rl)),
   (Allow t (current rl c k)).2).
Proof. unfold ask, take_token, current, fresh. by destruct (Allow t _). Qed.

(** One token: the key's own history grows, every other entry stays. *)
Lemma ask_used rl c k now ts :
  used rl c k ts ->
  used (ask rl c k now).1 c k (ts ++ [now]) /\
  (ask rl c k now).2 = (Allow now (asked ts (fresh (config rl) k)).1).2 /\
  config (ask rl c k now).1 = config rl /\
  forall K, K <> limiter_key c k -> limiters (ask rl c k now).1 !! K = limiters rl !! K.
Proof.
  unfold used, ask, take_token. intros Hu.
  assert (match limiters rl !! limiter_key c k with
          | Some cl => cl_limiter cl
          | None => NewLimiter (bucket_rate (bucketFor (config rl) k)) (effectiveBurst (bucketFor (config rl) k))
          end = (asked ts (fresh (config rl) k)).1) as ->.
  { rewrite Hu. destruct ts as [|t ts] using rev_ind; [done|]. by rewrite last_snoc. }
  destruct (Allow now (asked ts (fresh (config rl) k)).1) as [l' ok] eqn:E. cbn.
  rewrite last_snoc, lookup_insert_eq, asked_snoc, E. split_and!; [done..|].
  intros K HK. by rewrite lookup_insert_ne.
Qed.
Lemma used_other rl c k now c' k' ts :
  used rl c' k' ts -> (c', k') <> (c, k) -> used (ask rl c k now).1 c' k' ts.
Proof.
  unfold used, ask, take_token. intros Hu Hne. destruct (Allow _ _) as [l' ok]. cbn.
  rewrite lookup_insert_ne; [done|]. intros E. apply limiter_key_inj in E as [-> ->]. done.
Qed.

(** *** Cleanup is not observable *)

(** Every bucket is full again after ten idle minutes. *)
Definition refills_in_time (cfg : RateLimitConfig) : Prop :=
  forall k, effectiveBurst (bucketFor cfg k) * effectiveWindow (bucketFor cfg k) <=
            Limit (bucketFor cfg k) * idleTimeout.

(** The cleaned limiter [rl1] against the one that never forgets. *)
Definition same_but_idle (now : Z) (rl1 rl2 : RateLimiter) : Prop :=
  config rl1 = config rl2 /\
  forall c k, exists ts, sorted ts /\ Forall (fun t => t <= now) ts /\ used rl2 c k ts /\
    (limiters rl1 !! limiter_key c k = limiters rl2 !! limiter_key c k \/
     limiters rl1 !! limiter_key c k = None /\ exists t, last ts = Some t /\ t < now - idleTimeout).

Lemma ask_same now t rl1 rl2 c k :
  (forall k, valid_rate (bucket_rate (bucketFor (config rl2) k)) (effectiveBurst (bucketFor (config rl2) k))) ->
  refills_in_time (config rl2) -> now <= t -> same_but_idle now rl1 rl2 ->
  (ask rl1 c k t).2 = (ask rl2 c k t).2 /\ same_but_idle t (ask rl1 c k t).1 (ask rl2 c k t).1.
Proof.
  intros Hv Hfill Hle [Hcfg Hsame]. destruct (Hsame c k) as (ts & Hs & Hb & Hu & Hcase).
  assert (Forall (fun t' => t' <= t) ts) as Hb' by (eapply Forall_impl; [done|cbn; lia]).
  assert (Allow t (current rl1 c k) = Allow t (current rl2 c k)) as El.
  { unfold current. rewrite Hcfg. destruct Hcase as [->|(Hnone & t' & Hlast & Hidle)]; [done|].
    rewrite Hnone. unfold used in Hu. rewrite Hu, Hlast. cbn.
    apply last_Some in Hlast as [ts' ->]. symmetry. apply allow_refilled; [done|done| |].
    - apply Forall_app in Hb as [_ Hb]. rewrite Forall_singleton in Hb. lia.
    - specialize (Hfill k). destruct (Hv k) as (? & ? & ?). cbn [bucket_rate num den] in *.
      etransitivity; [exact Hfill|]. apply Z.mul_le_mono_nonneg_l; lia. }
  pose proof (ask_eq rl1 c k t) as E1. pose proof (ask_eq rl2 c k t) as E2.
  rewrite E1, E2, El. split; [done|]. split; [done|].
  intros c' k'. cbn [with_limiters limiters fst].
  destruct (decide ((c', k') = (c, k))) as [[= -> ->]|Hne].
  - exists (ts ++ [t]). pose proof (ask_used rl2 c k t ts Hu) as (Hu2 & _).
    rewrite E2 in Hu2. rewrite !lookup_insert_eq.
    split_and!; [by apply sorted_snoc|apply Forall_app; split; [done|by constructor]|done|by left].
  - destruct (Hsame c' k') as (ts' & Hs' & Hb1 & Hu' & Hcase'). exists ts'.
    pose proof (used_other rl2 c k t c' k' ts' Hu' Hne) as Hu2. rewrite E2 in Hu2.
    assert (limiter_key c k <> limiter_key c' k') by (intros [-> ->]%limiter_key_inj; done).
    rewrite !lookup_insert_ne by done.
    split_and!; [done|eapply Forall_impl; [done|cbn; lia]|done|].
    destruct Hcase' as [?|(? & t' & ? & ?)]; [by left|right; split; [done|]]. exists t'. split; [done|lia].
Qed.
Lemma cleanup_same now t rl1 rl2 :
  now <= t -> same_but_idle now rl1 rl2 -> same_but_idle t (cleanup rl1 t) rl2.
Proof.
  intros Hle [Hcfg Hsame]. split; [done|]. intros c k.
  destruct (Hsame c k) as (ts & Hs & Hb & Hu & Hcase). exists ts.
  split_and!; [done|eapply Forall_impl; [done|cbn; lia]|done|].
  cbn [cleanup with_limiters limiters]. unfold cleanup_limiters. rewrite map_lookup_filter.
  destruct Hcase as [->|(-> & t' & ? & ?)].
  - unfold used in Hu. rewrite Hu. destruct (last ts) as [t'|]; cbn; [|by left].
    case_guard; cbn; [by left|right]. split; [done|]. exists t'. split; [done|lia].
  - right. split; [done|]. exists t'. split; [done|lia].
Qed.

Definition is_request (e : rl_event) : bool := match e with Request _ _ _ => true | Cleanup _ => false end.

Lemma run_same es : forall now rl1 rl2,
  (forall k, valid_rate (bucket_rate (bucketFor (config rl2) k)) (effectiveBurst (bucketFor (config rl2) k))) ->
  refills_in_time (config rl2) ->
  sorted (now :: (event_time <$> es)) -> same_but_idle now rl1 rl2 ->
  (rl_run rl1 es).2 = (rl_run rl2 (filter (fun e => is_request e = true) es)).2.
Proof.
  induction es as [|e es IH]; intros now rl1 rl2 Hv Hfill Hs Hsame; [done|].
  rewrite fmap_cons in Hs. apply StronglySorted_inv in Hs as [Hs Hle]. apply Forall_cons in Hle as [Hle _].
  destruct e as [c k t|t]; cbn [event_time] in *.
  - rewrite filter_cons_True by done. cbn [rl_run rl_step]. unfold AllowClass.
    destruct (ask_same now t rl1 rl2 c k Hv Hfill Hle Hsame) as [Eok Hsame'].
    pose proof (ask_used rl2 c k t) as Hcfg2.
    assert (config (ask rl2 c k t).1 = config rl2) as Ec.
    { destruct Hsame as [_ Hsame]. destruct (Hsame c k) as (ts & _ & _ & Hu & _). by apply (Hcfg2 ts). }
    destruct (ask rl1 c k t) as [rl1' ok1], (ask rl2 c k t) as [rl2' ok2]. cbn in Eok, Hsame', Ec. subst ok2.
    destruct ok1.
    + destruct (ask_same t t rl1' rl2' c rateClassGlobal) as [Eok2 Hsame2]; [by rewrite Ec..|lia|done|].
      assert (config (ask rl2' c rateClassGlobal t).1 = config rl2) as Ec2.
      { destruct Hsame' as [_ Hs']. destruct (Hs' c rateClassGlobal) as (ts & _ & _ & Hu & _).
        destruct (ask_used rl2' c rateClassGlobal t ts Hu) as (_ & _ & E & _). congruence. }
      destruct (ask rl1' c rateClassGlobal t) as [rl1'' ok1], (ask rl2' c rateClassGlobal t) as [rl2'' ok2].
      cbn in Eok2, Hsame2, Ec2. subst ok2.
      specialize (IH t rl1'' rl2''). rewrite Ec2 in IH. specialize (IH Hv Hfill Hs Hsame2).
      destruct (rl_run rl1'' es), (rl_run rl2'' _). cbn in *. congruence.
    + specialize (IH t rl1' rl2'). rewrite Ec in IH. specialize (IH Hv Hfill Hs Hsame').
      destruct (rl_run rl1' es), (rl_run rl2' _). cbn in *. congruence.
  - rewrite filter_cons_False by done. cbn [rl_run rl_step].
    specialize (IH t (cleanup rl1 t) rl2 Hv Hfill Hs (cleanup_same _ _ _ _ Hle Hsame)).
    by destruct (rl_run (cleanup rl1 t) es).
Qed.
Lemma fresh_same cfg tr now : same_but_idle now (NewRateLimiter cfg tr) (NewRateLimiter cfg tr).
Proof.
  split; [done|]. intros c k. exists []. split_and!; [constructor|constructor|done|by left].
Qed.
End Runs.

(** ** What a client can get *)


Section Bounds.
Context `{TokenBucketLaws} `{UnicodeTables}.
Variables (cfg : RateLimitConfig) (t0 : Z).




End Bounds.

(** C9. The cleanup loop is invisible to clients: when every bucket refills
    within the ten minutes an entry must be idle, the answers to any sequence
    of requests are the same with and without the cleanups between them. *)
Theorem cleanup_unobservable `{TokenBucketLaws} `{UnicodeTables} cfg tr now es
    (Hrefill : refills_in_time (with_defaults cfg)) (Htimes : sorted (now :: (event_time <$> es))) :
  (rl_run (NewRateLimiter cfg tr) es).2 =
  (rl_run (NewRateLimiter cfg tr) (filter (fun e => is_request e = true) es)).2.
Proof.
  apply (run_same es now); [|done..|apply fresh_same]. intros k. apply valid_bucket.
Qed.
Lemma default_refills : refills_in_time (with_defaults DefaultRateLimitConfig).
Proof. intros k. unfold idleTimeout. destruct k; vm_compute; congruence. Qed.
Lemma cleanup_unobservable_witness :
  let es := [Request (str "203.0.113.5") rateClassWrite 0; Cleanup (20 * Minute);
             Request (str "203.0.113.5") rateClassWrite (21 * Minute)] in
  (rl_run (H := ExactBucket.exact) (NewRateLimiter DefaultRateLimitConfig None) es).2 =
  (rl_run (H := ExactBucket.exact) (NewRateLimiter DefaultRateLimitConfig None)
     (filter (fun e => is_request e = true) es)).2.
Proof.
  intros es.
  apply (@cleanup_unobservable ExactBucket.exact ExactBucket.exact_laws ascii_tables
           DefaultRateLimitConfig None 0 es); [apply default_refills|].
  unfold sorted. repeat constructor; unfold Minute, Second; cbn; lia.
Defined.



(** ** Clients do not interfere *)

Definition about_client (c : gostr) (e : rl_event) : bool :=
  match e with Request c' _ _ => bool_decide (c' = c) | Cleanup _ => true end.
(** The answers to the requests of one client. *)
Fixpoint answers_to (c : gostr) (es : list rl_event) (bs : list bool) : list bool :=
  match es with
  | [] => []
  | Cleanup _ :: es' => answers_to c es' bs
  | Request c' _ _ :: es' =>
      match bs with
      | [] => []
      | b :: bs' => if bool_decide (c' = c) then b :: answers_to c es' bs' else answers_to c es' bs'
      end
  end.

Section Isolation.
Context `{TokenBucket} `{UnicodeTables}.
Definition agree (c : gostr) (rl1 rl2 : RateLimiter) : Prop :=
  config rl1 = config rl2 /\
  forall k, limiters rl1 !! limiter_key c k = limiters rl2 !! limiter_key c k.

Lemma AllowClass_config rl c k t : config (AllowClass rl c k t).1 = config rl.
Proof.
  unfold AllowClass. rewrite (ask_eq rl c k t). destruct (Allow _ _).2; [|done]. by rewrite ask_eq.
Qed.
Lemma agree_ask c k t rl1 rl2 :
  agree c rl1 rl2 ->
  (ask rl1 c k t).2 = (ask rl2 c k t).2 /\ agree c (ask rl1 c k t).1 (ask rl2 c k t).1.
Proof.
  intros [Hcfg Hl]. rewrite !ask_eq. cbn [fst snd].
  assert (current rl1 c k = current rl2 c k) as -> by (unfold current; by rewrite Hcfg, Hl).
  split; [done|]. split; [done|]. intros k'. cbn [with_limiters limiters].
  rewrite !lookup_insert, Hl. done.
Qed.
Lemma agree_ask_other c c' k t rl1 rl2 :
  c' <> c -> agree c rl1 rl2 -> agree c (ask rl1 c' k t).1 rl2.
Proof.
  intros Hne [Hcfg Hl]. rewrite ask_eq. split; [done|]. intros k'. cbn [fst with_limiters limiters].
  rewrite lookup_insert_ne; [done|]. by intros [? _]%limiter_key_inj.
Qed.
Lemma agree_AllowClass c k t rl1 rl2 :
  agree c rl1 rl2 ->
  (AllowClass rl1 c k t).2 = (AllowClass rl2 c k t).2 /\
  agree c (AllowClass rl1 c k t).1 (AllowClass rl2 c k t).1.
Proof.
  intros Ha. unfold AllowClass. destruct (agree_ask c k t _ _ Ha) as [E Ha'].
  destruct (ask rl1 c k t) as [rl1' ok], (ask rl2 c k t) as [rl2' ok']. cbn in E, Ha'. subst ok'.
  destruct ok; [|done]. by apply agree_ask.
Qed.
Lemma agree_AllowClass_other c c' k t rl1 rl2 :
  c' <> c -> agree c rl1 rl2 -> agree c (AllowClass rl1 c' k t).1 rl2.
Proof.
  intros Hne Ha. unfold AllowClass. pose proof (agree_ask_other c c' k t _ _ Hne Ha) as Ha'.
  destruct (ask rl1 c' k t) as [rl1' ok]. destruct ok; [|done]. by apply agree_ask_other.
Qed.
Lemma agree_cleanup c t rl1 rl2 : agree c rl1 rl2 -> agree c (cleanup rl1 t) (cleanup rl2 t).
Proof.
  intros [Hcfg Hl]. split; [done|]. intros k. cbn [cleanup with_limiters limiters].
  unfold cleanup_limiters. by rewrite !map_lookup_filter, Hl.
Qed.
Lemma run_agree c es : forall rl1 rl2,
  agree c rl1 rl2 ->
  answers_to c es (rl_run rl1 es).2 = (rl_run rl2 (filter (fun e => about_client c e = true) es)).2.
Proof.
  induction es as [|e es IH]; intros rl1 rl2 Ha; [done|]. destruct e as [c' k t|t].
  - destruct (decide (c' = c)) as [->|Hne].
    + rewrite filter_cons_True by (by apply bool_decide_eq_true). cbn [rl_run rl_step answers_to].
      destruct (agree_AllowClass c k t _ _ Ha) as [E Ha'].
      destruct (AllowClass rl1 c k t) as [rl1' ok], (AllowClass rl2 c k t) as [rl2' ok'].
      cbn in E, Ha'. subst ok'. specialize (IH _ _ Ha').
      destruct (rl_run rl1' es), (rl_run rl2' _). cbn in *. rewrite bool_decide_true by done. congruence.
    + rewrite filter_cons_False by (cbn; by rewrite bool_decide_eq_true). cbn [rl_run rl_step answers_to].
      pose proof (agree_AllowClass_other c c' k t _ _ Hne Ha) as Ha'.
      destruct (AllowClass rl1 c' k t) as [rl1' ok]. cbn [fst] in Ha'. rewrite <-(IH _ _ Ha'). destruct (rl_run rl1' es). cbn [snd].
      by rewrite (bool_decide_false _ Hne).
  - rewrite filter_cons_True by done. cbn [rl_run rl_step answers_to].
    pose proof (IH _ _ (agree_cleanup c t _ _ Ha)) as E. revert E.
    destruct (rl_run (cleanup rl1 t) es), (rl_run (cleanup rl2 t) _). done.
Qed.
End Isolation.

(** No client can use up or refresh the allowance of another: in any run
    of the limiter, with any bucket implementation, the answers a client gets
    are the answers it would get if no other client made a request, whatever
    the identifiers of the clients are. *)
Theorem clients_isolated `{TokenBucket} `{UnicodeTables} rl c es :
  answers_to c es (rl_run rl es).2 = (rl_run rl (filter (fun e => about_client c e = true) es)).2.
Proof. by apply run_agree. Qed.

(** [RateLimitMiddleware] lets an allowlisted request pass without
    charging anyone, and otherwise hands the request on exactly when the
    limiter admits its client in its class; a refused request is answered with
    429 and never reaches the handler, and the limiter keeps its limits. *)
Theorem RateLimitMiddleware_spec `{TokenBucket} `{UnicodeTables} tr hook now next r rl :
  let res := RateLimitMiddleware tr hook now next r rl in
  if ctx_allowlisted (r_ctx r) then res = next r rl
  else match AllowClass rl (GetClientIdentifier r (trust rl)) (classifyRequest r) now with
       | (rl', true) => res = next r rl'
       | (rl', false) =>
           res.1 = rl' /\ served res.2 = [] /\ WriteHeader 429 ∈ res.2 /\
           SetHeader (str "Retry-After")
             (Itoa (effectiveWindow (bucketFor (config rl) (classifyRequest r)) / Second)) ∈ res.2
       end.
Proof.
  cbn zeta. unfold RateLimitMiddleware, IsAllowlisted, getClientIP.
  destruct (ctx_allowlisted (r_ctx r)); [done|].
  destruct (AllowClass rl _ _ now) as [rl' ok] eqn:E.
  assert (config rl' = config rl) as Hc.
  { pose proof (AllowClass_config rl (GetClientIdentifier r (trust rl)) (classifyRequest r) now) as Hx.
    by rewrite E in Hx. }
  destruct ok; [done|]. unfold too_many. cbn [fst snd]. rewrite Hc. destruct hook; cbn [app served];
    (split_and!; [done|done|set_solver|set_solver]).
Qed.

(** A window longer than the idle timeout of the cleanup: a client that pauses
    for twenty minutes finds a full bucket again, so more than [Limit]
    requests pass within one window.  Without the cleanup the third request is
    refused. *)
Example long_window_forgotten :
  let hourly := {| Limit := 2; Window := Hour; Burst := 0 |} in
  let cfg := {| Read := hourly; Write := hourly; Health := hourly; Global := hourly |} in
  let c := str "203.0.113.5" in
  let run es := (rl_run (H := ExactBucket.exact) (NewRateLimiter cfg None) es).2 in
  run [Request c rateClassRead 0; Request c rateClassRead 0; Cleanup (11 * Minute);
       Request c rateClassRead (12 * Minute); Request c rateClassRead (12 * Minute)] = [true; true; true; true] /\
  run [Request c rateClassRead 0; Request c rateClassRead 0;
       Request c rateClassRead (12 * Minute); Request c rateClassRead (12 * Minute)] = [true; true; false; false].
Proof. split; vm_compute; reflexivity. Qed.
