(* ===== verification/LruCache.v ===== *)
(** * The lookup cache: [server/cache.go]

    A bounded cache of lookup responses: a doubly linked list in insertion
    order ([container/list]) and a map from the hash of the address to the
    list element.  Elements are named by the order of their creation, so that
    the map and the list share them the way the pointers do. *)

From S2P Require Import Prelude GoStrings GoNet.

(** [hash/fnv] FNV-1a, 64 bits. *)
Definition fnv_offset : Z := 14695981039346656037.
Definition fnv_prime : Z := 1099511628211.
Definition key (ip : IP) : Z :=
  fold_left (fun h b => (Z.lxor h b * fnv_prime) mod 2 ^ 64) ip fnv_offset.
#[global] Arguments key : simpl never.

Section Cache.
(** The fields of [model.IPLookupResponse] other than the address. *)
Context {fields : Type}.

Record IPLookupResponse := { resp_IP : IP; resp_fields : fields }.

Record Cache := {
  capacity : Z;
  entries : gmap Z nat;
  values : list (nat * IPLookupResponse);
  next_element : nat;
  evictions : Z
}.
Definition NewCache (cap : Z) : Cache :=
  {| capacity := if cap <? 0 then 0 else cap; entries := ∅; values := [];
     next_element := 0; evictions := 0 |}.

(** The loop that drops elements from the front. *)
Fixpoint evict (vs : list (nat * IPLookupResponse)) (es : gmap Z nat) (evicted minEvictions : Z)
  : list (nat * IPLookupResponse) * gmap Z nat * Z :=
  match vs with
  | (_, value) :: vs' =>
      if evicted <? minEvictions
      then evict vs' (delete (key (resp_IP value)) es) (evicted + 1) minEvictions
      else (vs, es, evicted)
  | [] => (vs, es, evicted)
  end.
(** [values.Remove(el)] *)
Definition remove_element (el : nat) (vs : list (nat * IPLookupResponse)) :=
  filter (fun v => v.1 <> el) vs.

Definition Set_ (ip : IP) (resp : IPLookupResponse) (c : Cache) : Cache :=
  if capacity c =? 0 then c
  else
    let k := key ip in
    let minEvictions := Z.of_nat (size (entries c)) - capacity c + 1 in
    let '(vs, es, n) :=
      if 0 <? minEvictions then evict (values c) (entries c) 0 minEvictions
      else (values c, entries c, 0) in
    let vs := match es !! k with Some current => remove_element current vs | None => vs end in
    {| capacity := capacity c;
       entries := <[k := next_element c]> es;
       values := vs ++ [(next_element c, resp)];
       next_element := S (next_element c);
       evictions := (evictions c + n) mod 2 ^ 64 |}.

Definition element (el : nat) (vs : list (nat * IPLookupResponse)) : option IPLookupResponse :=
  snd <$> List.find (fun v => Nat.eqb v.1 el) vs.
(** [r.Value] of an element that is in the list. *)
Definition Get (ip : IP) (c : Cache) : option IPLookupResponse :=
  match entries c !! key ip with
  | None => None
  | Some el => element el (values c)
  end.

Definition Resize (cap : Z) (c : Cache) : result gostr Cache :=
  if cap <? 0 then Err (str "invalid capacity: " ++ Itoa cap)
  else Ok {| capacity := cap; entries := entries c; values := values c;
             next_element := next_element c; evictions := 0 |}.
Definition Stats (c : Cache) : Z * Z * Z :=
  (Z.of_nat (size (entries c)), capacity c, evictions c).

(** ** The abstract cache: an ordered association list *)

Definition keys (c : Cache) : list Z := (fun v => key (resp_IP v.2)) <$> values c.
(** The map and the list describe the same elements, each key once. *)
Definition consistent (c : Cache) : Prop :=
  NoDup (keys c) /\ NoDup (fst <$> values c) /\
  Forall (fun v => (v.1 < next_element c)%nat) (values c) /\
  entries c = list_to_map ((fun v => (key (resp_IP v.2), v.1)) <$> values c).

Definition contents (c : Cache) : list IPLookupResponse := snd <$> values c.
Definition spec_set (cap : Z) (ip : IP) (resp : IPLookupResponse) (l : list IPLookupResponse)
  : list IPLookupResponse :=
  filter (fun v => key (resp_IP v) <> key ip) (drop (Z.to_nat (Z.of_nat (length l) - cap + 1)) l) ++ [resp].
Definition spec_get (ip : IP) (l : list IPLookupResponse) : option IPLookupResponse :=
  List.find (fun v => key (resp_IP v) =? key ip) l.
End Cache.
Arguments IPLookupResponse : clear implicits.
Arguments Cache : clear implicits.

Section CacheFacts.
Context {fields : Type}.
Implicit Types (c : Cache fields) (resp : IPLookupResponse fields).

Lemma NewCache_consistent cap : consistent (NewCache (fields := fields) cap).
Proof. split_and!; [constructor|constructor|constructor|done]. Qed.

Lemma consistent_keys c :
  consistent c -> fst <$> ((fun v => (key (resp_IP v.2), v.1)) <$> values c) = keys c.
Proof. intros _. unfold keys. by rewrite <-list_fmap_compose. Qed.
Lemma consistent_size c : consistent c -> size (entries c) = length (values c).
Proof.
  intros Hc. pose proof (consistent_keys c Hc) as Hk. destruct Hc as (Hnd & _ & _ & ->).
  rewrite map_size_list_to_map by (by rewrite Hk). by rewrite length_fmap.
Qed.

(** The eviction loop drops the front of the list and its keys. *)
Lemma evict_drop vs es n m :
  NoDup ((fun v : nat * IPLookupResponse fields => key (resp_IP v.2)) <$> vs) -> 0 <= n <= m ->
  es = list_to_map ((fun v => (key (resp_IP v.2), v.1)) <$> vs) ->
  exists k, evict vs es n m =
    (drop k vs, list_to_map ((fun v => (key (resp_IP v.2), v.1)) <$> drop k vs), n + Z.of_nat k) /\
    k = Nat.min (Z.to_nat (m - n)) (length vs).
Proof.
  revert es n. induction vs as [|[el v] vs IH]; intros es n Hnd Hn ->; cbn.
  { exists 0%nat. rewrite Z.add_0_r. split; [done|lia]. }
  destruct (n <? m) eqn:E; bool_facts.
  - cbn in Hnd. apply NoDup_cons in Hnd as [Hnotin Hnd].
    destruct (IH (list_to_map ((fun v => (key (resp_IP v.2), v.1)) <$> vs)) (n + 1) Hnd ltac:(lia) eq_refl)
      as (k & Hk & Hkl).
    exists (S k). cbn [drop]. rewrite delete_insert_id.
    + rewrite Hk. split; [f_equal; lia|]. cbn [length]. lia.
    + apply not_elem_of_list_to_map_1. by rewrite <-list_fmap_compose.
  - exists 0%nat. rewrite Z.add_0_r. split; [done|]. lia.
Qed.

Abbreviation key_of := (fun v : nat * IPLookupResponse fields => key (resp_IP v.2)).
Abbreviation index vs := (list_to_map ((fun v : nat * IPLookupResponse fields => (key (resp_IP v.2), v.1)) <$> vs)).

Lemma index_keys (vs : list (nat * IPLookupResponse fields)) :
  ((fun v => (key (resp_IP v.2), v.1)) <$> vs).*1 = key_of <$> vs.
Proof. by rewrite <-list_fmap_compose. Qed.
Lemma index_Some vs k el :
  NoDup (key_of <$> vs) ->
  (index vs : gmap Z nat) !! k = Some el <-> exists v, (el, v) ∈ vs /\ key (resp_IP v) = k.
Proof.
  intros Hnd. rewrite <-elem_of_list_to_map by (by rewrite index_keys). rewrite list_elem_of_fmap.
  split; [intros ([el' v] & E & Hin); simplify_eq/=; eauto|].
  intros (v & Hin & <-). by exists (el, v).
Qed.

(** Removing the element the map points to removes the entries of that key. *)
Lemma remove_current vs k :
  NoDup (key_of <$> vs) -> NoDup (fst <$> vs) ->
  match (index vs : gmap Z nat) !! k with Some el => remove_element el vs | None => vs end =
  filter (fun v => key_of v <> k) vs.
Proof.
  intros Hk Hi. destruct (_ !! k) as [el|] eqn:E.
  - apply index_Some in E as (v & Hin & Ekey); [|done].
    apply filter_ext_in. intros [el' v'] Hin'. cbn. split; intros Hne E'; apply Hne.
    + assert ((el', v') = (el, v)) as [= -> ->]; [|done].
      apply (NoDup_fmap_inj key_of vs); [done|done|done|]. cbn [snd].
      by rewrite E', Ekey.
    + assert ((el', v') = (el, v)) as [= -> ->]; [|done].
      by apply (NoDup_fmap_inj fst vs).
  - symmetry. apply filter_all. intros [el v] Hin Ekey. cbn in Ekey.
    assert ((index vs : gmap Z nat) !! k = Some el) as E'; [|congruence].
    apply index_Some; [done|]. by exists v.
Qed.

(** [Set] on a consistent cache: the front goes first, the entry of the key
    is replaced, and the new one is last. *)
Lemma Set_values c ip resp :
  consistent c -> resp_IP resp = ip -> 0 < capacity c ->
  let n := Nat.min (Z.to_nat (Z.of_nat (length (values c)) - capacity c + 1)) (length (values c)) in
  values (Set_ ip resp c) =
    filter (fun v => key_of v <> key ip) (drop n (values c)) ++ [(next_element c, resp)] /\
  consistent (Set_ ip resp c) /\
  evictions (Set_ ip resp c) = (evictions c + Z.of_nat n) mod 2 ^ 64.
Proof.
  intros Hc Hip Hcap n. pose proof (consistent_size c Hc) as Hsize.
  destruct Hc as (Hk & Hi & Hn & He). unfold Set_.
  rewrite (proj2 (Z.eqb_neq _ _)) by lia. rewrite Hsize.
  set (m := Z.of_nat (length (values c)) - capacity c + 1) in *.
  assert ((if 0 <? m then evict (values c) (entries c) 0 m else (values c, entries c, 0)) =
    (drop n (values c), index (drop n (values c)), Z.of_nat n)) as ->.
  { destruct (0 <? m) eqn:E; bool_facts.
    - destruct (evict_drop (values c) (entries c) 0 m Hk ltac:(lia) He) as (k & -> & ->).
      rewrite Z.sub_0_r. done.
    - subst n. replace (Nat.min _ _) with 0%nat by lia. by rewrite He. }
  assert (NoDup (key_of <$> drop n (values c))) as Hk' by (rewrite fmap_drop; eapply sublist_NoDup; [done|apply sublist_drop]).
  assert (NoDup (fst <$> drop n (values c))) as Hi' by (rewrite fmap_drop; eapply sublist_NoDup; [done|apply sublist_drop]).
  assert (Forall (fun v => (v.1 < next_element c)%nat) (drop n (values c))) as Hn' by (by apply Forall_drop).
  rewrite remove_current by done. cbn [values evictions]. split_and!; [done| |done].
  generalize dependent (drop n (values c)). intros vs Hk' Hi' Hn'.
  set (kept := filter (fun v => key_of v <> key ip) vs).
  unfold consistent, keys. cbn [values next_element entries].
  rewrite !fmap_app. cbn [fmap list_fmap fst snd]. rewrite Hip.
  assert (NoDup (key_of <$> kept)) by (by apply NoDup_fmap_filter).
  assert (key ip ∉ (key_of <$> kept)) as Hnew.
  { intros (v & E & [Hne _]%list_elem_of_filter)%list_elem_of_fmap. done. }
  split_and!.
  - apply NoDup_app. split_and!; [done| |by apply NoDup_singleton].
    intros x Hx ->%list_elem_of_singleton. done.
  - apply NoDup_app. split_and!; [by apply NoDup_fmap_filter| |by apply NoDup_singleton].
    intros x (v & -> & [_ Hv]%list_elem_of_filter)%list_elem_of_fmap E%list_elem_of_singleton.
    rewrite Forall_forall in Hn'. specialize (Hn' v Hv). lia.
  - apply Forall_app. split; [|by apply Forall_singleton; cbn; lia].
    rewrite Forall_forall in *. intros v [_ Hv]%list_elem_of_filter. specialize (Hn' v Hv). lia.
  - apply map_eq. intros k. rewrite list_to_map_app. cbn. 
    destruct (decide (k = key ip)) as [->|Hne].
    + rewrite lookup_insert_eq, lookup_union_r; [by rewrite lookup_insert_eq|].
      apply not_elem_of_list_to_map_1. by rewrite index_keys.
    + rewrite lookup_insert_ne by done. rewrite lookup_union_l by (by rewrite lookup_insert_ne).
      apply option_eq. intros el. rewrite !index_Some by done. unfold kept.
      split; intros (v & Hv & E); exists v; (split; [|done]).
      * apply list_elem_of_filter. split; [cbn; congruence|done].
      * by apply list_elem_of_filter in Hv as [_ Hv].
Qed.

(** [Get] reads the abstract list. *)
Lemma Get_contents c ip : consistent c -> Get ip c = spec_get ip (contents c).
Proof.
  intros (Hk & Hi & _ & He). unfold Get, spec_get, contents, element. rewrite He.
  unfold keys in Hk. revert Hk Hi. generalize (values c). intros vs Hk Hi.
  destruct ((index vs : gmap Z nat) !! key ip) as [el|] eqn:E.
  - apply index_Some in E as (v & Hin & Ekey); [|done].
    clear He c. induction vs as [|[el' v'] vs IH]; [by apply elem_of_nil in Hin|]. cbn.
    destruct (Nat.eqb el' el) eqn:Eel.
    + apply Nat.eqb_eq in Eel as ->.
      assert ((el, v') = (el, v)) as [= ->] by (by apply (NoDup_fmap_inj fst ((el, v') :: vs)); [|left| |]).
      by rewrite Ekey, Z.eqb_refl.
    + apply Nat.eqb_neq in Eel. apply elem_of_cons in Hin as [[= -> ->]|Hin]; [done|].
      destruct (key (resp_IP v') =? key ip) eqn:Ek.
      * bool_facts. exfalso. apply Eel.
        assert ((el', v') = (el, v)) as [= -> ->]; [|done].
        apply (NoDup_fmap_inj key_of ((el', v') :: vs)); [done|left|by right|cbn; congruence].
      * apply NoDup_cons in Hk as [_ Hk], Hi as [_ Hi]. by apply IH.
  - symmetry. destruct (List.find _ _) as [v|] eqn:Ef; [|done].
    apply find_some in Ef as [Hin%list_elem_of_In Ek]. bool_facts.
    apply list_elem_of_fmap in Hin as ([el v'] & -> & Hin).
    assert ((index vs : gmap Z nat) !! key ip = Some el) as E'; [|congruence].
    apply index_Some; [done|]. by exists v'.
Qed.
End CacheFacts.

(** What was stored is read back. *)
Lemma set_get {fields} (c : Cache fields) ip resp :
  consistent c -> resp_IP resp = ip -> 0 < capacity c -> Get ip (Set_ ip resp c) = Some resp.
Proof.
  intros Hc Hip Hcap. destruct (Set_values c ip resp Hc Hip Hcap) as (Hv & Hc' & _). cbn zeta in Hv.
  rewrite (Get_contents _ _ Hc'). unfold spec_get, contents. rewrite Hv, fmap_app, find_app.
  destruct (List.find _ (snd <$> filter _ _)) as [v|] eqn:E.
  { apply find_some in E as [Hin%list_elem_of_In Ek]. bool_facts.
    apply list_elem_of_fmap in Hin as ([el v'] & -> & [Hne _]%list_elem_of_filter). done. }
  cbn. by rewrite Hip, Z.eqb_refl.
Qed.

(** C14. [Set] and [Get] implement a bounded first-in-first-out map: on a
    consistent cache, [Set] drops the oldest entries needed to make room,
    replaces the entry of the key, keeps the cache consistent and within its
    capacity, and the new response is what [Get] then returns for its address;
    [Get] reads exactly the abstract list. *)
Theorem Set_refines {fields} (c : Cache fields) ip resp
    (Hc : consistent c) (Hip : resp_IP resp = ip) (Hcap : 0 < capacity c) :
  let c' := Set_ ip resp c in
  consistent c' /\
  contents c' = spec_set (capacity c) ip resp (contents c) /\
  Z.of_nat (length (contents c')) <= capacity c /\
  Get ip c' = Some resp /\
  (forall ip', Get ip' c' = spec_get ip' (spec_set (capacity c) ip resp (contents c))).
Proof.
  destruct (Set_values c ip resp Hc Hip Hcap) as (Hv & Hc' & _). cbn zeta in Hv. cbn zeta.
  assert (contents (Set_ ip resp c) = spec_set (capacity c) ip resp (contents c)) as Hcont.
  { unfold contents, spec_set. rewrite Hv, fmap_app, length_fmap, drop_min. f_equal.
    rewrite <-fmap_drop. by apply fmap_filter. }
  rewrite Hcont. split_and!; [done|done| | |].
  - unfold spec_set. rewrite length_app.
    pose proof (length_filter (fun v => key (resp_IP v) <> key ip)
      (drop (Z.to_nat (Z.of_nat (length (contents c)) - capacity c + 1)) (contents c))) as Hl.
    rewrite length_drop in Hl. cbn [length]. lia.
  - rewrite (Get_contents _ _ Hc'), Hcont. unfold spec_get, spec_set. rewrite find_app.
    destruct (List.find _ (filter _ _)) as [v|] eqn:E.
    { apply find_some in E as [Hin%list_elem_of_In Ek]. bool_facts.
      by apply list_elem_of_filter in Hin as [Hne _]. }
    cbn. by rewrite Hip, Z.eqb_refl.
  - intros ip'. by rewrite (Get_contents _ _ Hc'), Hcont.
Qed.
Lemma Set_refines_witness :
  let ip := [203; 0; 113; 5] in
  let c := NewCache (fields := unit) 1 in
  let resp := {| resp_IP := ip; resp_fields := tt |} in
  consistent (Set_ ip resp c) /\ Get ip (Set_ ip resp c) = Some resp.
Proof.
  intros ip c resp.
  destruct (Set_refines c ip resp (NewCache_consistent 1) eq_refl eq_refl) as (H1 & _ & _ & H2 & _).
  by split.
Defined.

(** ** Lookups through the cache: [service/ip.go] *)

Section Lookup.
Context {fields : Type}.
(** What a lookup computes for an address: databases, reverse name and
    threat lists. *)
Variable compute : IP -> fields.

Definition response (ip : IP) : IPLookupResponse fields := {| resp_IP := ip; resp_fields := compute ip |}.
Definition Lookup (ip : IP) (c : Cache fields) : IPLookupResponse fields * Cache fields :=
  match Get ip c with
  | Some resp => (resp, c)
  | None => (response ip, Set_ ip (response ip) c)
  end.

(** The states a cache goes through: lookups and changes of the capacity. *)
Inductive cache_op := OLookup (ip : IP) | OResize (cap : Z).
Definition cache_step (c : Cache fields) (o : cache_op) : Cache fields :=
  match o with
  | OLookup ip => (Lookup ip c).2
  | OResize cap => match Resize cap c with Ok c' => c' | Err _ => c end
  end.
(** Every cached response has a property. *)
Definition holds (R : IPLookupResponse fields -> Prop) (c : Cache fields) : Prop :=
  consistent c /\ 0 <= capacity c /\ Forall R (contents c).
Lemma Lookup_holds R ip c : holds R c -> (0 < capacity c -> R (response ip)) ->
  holds R (Lookup ip c).2 /\ capacity (Lookup ip c).2 = capacity c.
Proof.
  intros (Hc & Hcap & Hf) HR. unfold Lookup. destruct (Get ip c); [done|]. cbn [snd].
  destruct (decide (capacity c = 0)) as [E|E].
  { unfold Set_. rewrite E. by split_and!. }
  destruct (Set_values c ip (response ip) Hc eq_refl ltac:(lia)) as (Hv & Hc' & _). cbn zeta in Hv.
  assert (capacity (Set_ ip (response ip) c) = capacity c) as Ecap
    by (unfold Set_; rewrite (proj2 (Z.eqb_neq _ _)) by lia; by repeat case_match).
  split_and!; [split_and!|done]; [done|by rewrite Ecap|].
  unfold contents in *. rewrite Hv, fmap_app. apply Forall_app. split; [|apply Forall_singleton, HR; lia].
  rewrite Forall_forall in *. intros v (x & -> & [_ Hx]%list_elem_of_filter)%list_elem_of_fmap.
  apply Hf, list_elem_of_fmap_2. by apply (subseteq_drop _ (values c)) in Hx.
Qed.
(** A lookup answers with what it computes, or with a cached response of the same hash. *)
Lemma Lookup_from R ip c : holds R c ->
  (Lookup ip c).1 = response ip \/ exists v, R v /\ key (resp_IP v) = key ip /\ (Lookup ip c).1 = v.
Proof.
  intros (Hc & _ & Hf). unfold Lookup. destruct (Get ip c) as [resp|] eqn:E; [right|by left]. cbn.
  rewrite Get_contents in E by done. apply find_some in E as [Hin%list_elem_of_In Ek]. bool_facts.
  rewrite Forall_forall in Hf. by eauto.
Qed.
Lemma NewCache_holds R cap : holds R (NewCache cap).
Proof. split_and!; [apply NewCache_consistent|cbn; by case_match; bool_facts; lia|constructor]. Qed.

(** Every cached response is the computed one, of an address in [Q]. *)
Variable Q : IP -> Prop.
Definition op_in (o : cache_op) : Prop := match o with OLookup ip => Q ip | OResize _ => True end.
Definition cache_inv : Cache fields -> Prop := holds (fun v => v = response (resp_IP v) /\ Q (resp_IP v)).

Lemma cache_step_inv c o : op_in o -> cache_inv c -> cache_inv (cache_step c o).
Proof.
  intros HQ Hi. destruct o as [ip|cap]; cbn [cache_step]; [by apply Lookup_holds|].
  unfold Resize. destruct (cap <? 0) eqn:E; bool_facts; [done|]. destruct Hi as (? & ? & ?). by split_and!.
Qed.
Lemma cache_run_inv ops c : Forall op_in ops -> cache_inv c -> cache_inv (fold_left cache_step ops c).
Proof.
  intros Ho. revert c. induction Ho as [|o ops Ho Hops IH]; intros c Hc; [done|].
  by apply IH, cache_step_inv.
Qed.
Lemma NewCache_inv cap : cache_inv (NewCache cap).
Proof. apply NewCache_holds. Qed.
End Lookup.

(** A cache of computed responses answers with the computed one, but for a collision. *)
Lemma Lookup_inv {fields} (compute : IP -> fields) Q c ip :
  cache_inv compute Q c -> (forall ip', Q ip' -> key ip' = key ip -> ip' = ip) -> (Lookup compute ip c).1 = response compute ip.
Proof.
  intros Hi HQ. destruct (Lookup_from compute _ ip c Hi) as [->|(v & [Hv Hq] & Hk & ->)]; [done|].
  by rewrite Hv, (HQ _ Hq Hk).
Qed.

(** The cache never changes the answer of a lookup: after any sequence of
    lookups and resizes, a lookup returns what it would compute without a
    cache, unless one of the other addresses looked up before has the same
    64-bit hash. *)
Theorem Lookup_transparent {fields} (compute : IP -> fields) cap ops ip
    (Hhash : forall ip', OLookup ip' ∈ ops -> key ip' = key ip -> ip' = ip) :
  (Lookup compute ip (fold_left (cache_step compute) ops (NewCache cap))).1 = response compute ip.
Proof.
  set (Q := fun ip' => OLookup ip' ∈ ops). apply (Lookup_inv compute Q); [|done].
  apply (cache_run_inv compute Q); [|apply NewCache_inv]. apply Forall_forall. by intros [ip'|n] Hin.
Qed.
Lemma Lookup_transparent_witness :
  let compute := fun ip : IP => length ip in
  (Lookup compute [203; 0; 113; 5]
     (fold_left (cache_step compute) [OLookup [203; 0; 113; 5]; OLookup [198; 51; 100; 7]; OResize 1]
        (NewCache 2))).1 = response compute [203; 0; 113; 5].
Proof.
  intros compute. apply (Lookup_transparent compute 2).
  intros ip' Hin Hkey. apply elem_of_cons in Hin as [[= ->]|Hin]; [reflexivity|].
  apply elem_of_cons in Hin as [[= ->]|Hin]; [exfalso; revert Hkey; vm_compute; discriminate|].
  clear Hkey. apply elem_of_cons in Hin as [[=]|Hin]. by apply elem_of_nil in Hin.
Defined.

(** A capacity of zero stops new entries but not the answers from the old
    ones: what was cached is returned until the process ends. *)
Theorem Resize_zero_keeps_answering {fields} (c : Cache fields) :
  exists c', Resize 0 c = Ok c' /\ (forall ip, Get ip c' = Get ip c) /\
    forall ip resp, Set_ ip resp c' = c'.
Proof. eexists. split; [done|]. split; [done|]. done. Qed.

(** Storing an address again in a full cache evicts another entry although no
    room was needed. *)
Example overwrite_evicts :
  let r ip := {| resp_IP := ip; resp_fields := tt |} in
  let c := Set_ [2] (r [2]) (Set_ [1] (r [1]) (NewCache 2)) in
  length (contents c) = 2%nat /\ contents (Set_ [2] (r [2]) c) = [r [2]].
Proof. split; reflexivity. Qed.
