(* ===== verification/CacheBackends.v ===== *)
(** * The cache interface and its backends: [cache/cache.go]

    The interface [Cache] as a class of operations, its contract, and the
    noop, memory, Redis and memcache backends.  The Redis and memcache clients
    are parameters.  Every operation runs at one instant [now]. *)

From S2P Require Import Prelude GoStrings.
#[local] Open Scope go_scope.

Inductive cache_error := ErrNotFound | ErrBackend.

(** ** The interface *)

Class CacheOps (St : Type) := {
  Get : Z -> gostr -> St -> St * result cache_error gostr;
  Set_ : Z -> gostr -> gostr -> Z -> St -> St * result cache_error unit;
  Delete : Z -> gostr -> St -> St * result cache_error unit;
  Flush : St -> St * result cache_error unit;
  Ping : St -> result cache_error unit;
  (* the TTL used when the caller passes zero *)
  default_ttl : St -> Z
}.
Definition effective_ttl `{CacheOps St} (ttl : Z) (s : St) : Z := if ttl <=? 0 then default_ttl s else ttl.

(** What callers rely on: the cache is a map whose entries live for their TTL. *)
Class CacheContract (St : Type) `{CacheOps St} := {
  (* the value a reader sees under a key from [now] on *)
  live : St -> Z -> gostr -> option gostr;
  get_live : forall s now k,
    (Get now k s).2 = match live s now k with Some v => Ok v | None => Err ErrNotFound end;
  get_frame : forall s now k now' k', now <= now' -> live (Get now k s).1 now' k' = live s now' k';
  set_live : forall s now k v ttl now' k', now <= now' ->
    (Set_ now k v ttl s).2 = Ok tt /\
    live (Set_ now k v ttl s).1 now' k' =
      if decide (k' = k) then (if now' <=? now + effective_ttl ttl s then Some v else None)
      else live s now' k';
  delete_live : forall s now k now' k', now <= now' ->
    (Delete now k s).2 = Ok tt /\
    live (Delete now k s).1 now' k' = if decide (k' = k) then None else live s now' k';
  flush_live : forall s now k, (Flush s).2 = Ok tt /\ live (Flush s).1 now k = None;
  default_frame : forall s now k v ttl,
    default_ttl (Set_ now k v ttl s).1 = default_ttl s /\ default_ttl (Get now k s).1 = default_ttl s
}.

(** [Key] and [ApplyEnvOverrides] *)
Definition Key (prefix resource id : gostr) : gostr :=
  if prefix <>s [] then prefix ++ resource ++ str ":" ++ id else resource ++ str ":" ++ id.
Record CacheConfig := { cfg_Type : gostr; cfg_URL : gostr }.
Definition ApplyEnvOverrides (CACHE_URL : gostr) (cfg : CacheConfig) : CacheConfig :=
  if CACHE_URL =s [] then cfg
  else {| cfg_URL := CACHE_URL;
          cfg_Type := if (cfg_Type cfg =s []) || (cfg_Type cfg =s str "none") || (cfg_Type cfg =s str "memory")
                      then str "valkey" else cfg_Type cfg |}.
(** The backend [NewCache] builds. *)
Inductive backend := BackendNoop | BackendRedis | BackendMemcache | BackendMemory.
Definition select_backend (cfg : CacheConfig) : backend :=
  let t := cfg_Type cfg in
  if t =s str "none" then BackendNoop
  else if (t =s str "valkey") || (t =s str "redis") then BackendRedis
  else if t =s str "memcache" then BackendMemcache
  else BackendMemory.

(** ** noop *)

Module Noop.
Definition noopCache := unit.
#[global] Instance ops : CacheOps noopCache := {|
  Get _ _ s := (s, Err ErrNotFound);
  Set_ _ _ _ _ s := (s, Ok tt);
  Delete _ _ s := (s, Ok tt);
  Flush s := (s, Ok tt);
  Ping _ := Ok tt;
  default_ttl _ := 0 |}.
End Noop.

(** ** memory *)

Module Memory.
Record memoryEntry := { value : gostr; expires : Z }.
Record memoryCache := { entries : gmap gostr memoryEntry; prefix : gostr; defaultTTL : Z }.
Definition newMemoryCache (prefix : gostr) (ttl : Z) : memoryCache :=
  {| entries := ∅; prefix := prefix; defaultTTL := ttl |}.
Definition with_entries (m : memoryCache) (es : gmap gostr memoryEntry) : memoryCache :=
  {| entries := es; prefix := prefix m; defaultTTL := defaultTTL m |}.
Definition key (m : memoryCache) (k : gostr) : gostr := prefix m ++ k.

Definition get (now : Z) (k : gostr) (m : memoryCache) : memoryCache * result cache_error gostr :=
  match entries m !! key m k with
  | None => (m, Err ErrNotFound)
  | Some e =>
      if expires e <? now then (with_entries m (delete (key m k) (entries m)), Err ErrNotFound)
      else (m, Ok (value e))
  end.
Definition set (now : Z) (k v : gostr) (ttl : Z) (m : memoryCache) : memoryCache * result cache_error unit :=
  let ttl := if ttl <=? 0 then defaultTTL m else ttl in
  (with_entries m (<[key m k := {| value := v; expires := now + ttl |}]> (entries m)), Ok tt).
Definition del (now : Z) (k : gostr) (m : memoryCache) : memoryCache * result cache_error unit :=
  (with_entries m (delete (key m k) (entries m)), Ok tt).
Definition flush (m : memoryCache) : memoryCache * result cache_error unit :=
  (with_entries m ∅, Ok tt).
(** One tick of [runJanitor]. *)
Definition sweep (now : Z) (m : memoryCache) : memoryCache :=
  with_entries m (filter (fun ke => ~ expires ke.2 < now) (entries m)).

#[global] Instance ops : CacheOps memoryCache := {|
  Get := get; Set_ := set; Delete := del; Flush := flush; Ping _ := Ok tt; default_ttl := defaultTTL |}.

Definition live (m : memoryCache) (now : Z) (k : gostr) : option gostr :=
  match entries m !! key m k with
  | Some e => if now <=? expires e then Some (value e) else None
  | None => None
  end.

#[global] Instance contract : CacheContract memoryCache.
Proof.
  refine {| CacheBackends.live := live |}.
  - intros s now k. cbn [Get ops]. unfold get, live. destruct (entries s !! key s k) as [e|]; [|done].
    destruct (expires e <? now) eqn:E, (now <=? expires e) eqn:E'; bool_facts; (done || lia).
  - intros s now k now' k' Hle. cbn [Get ops]. unfold get, live. destruct (entries s !! key s k) as [e|] eqn:Ek; [|done].
    destruct (expires e <? now) eqn:E; [|done]. bool_facts. cbn [fst entries with_entries].
    change (key (with_entries s _) k') with (key s k').
    destruct (decide (key s k' = key s k)) as [->|Hne].
    + rewrite lookup_delete_eq, Ek. by rewrite (proj2 (Z.leb_gt _ _)) by lia.
    + by rewrite lookup_delete_ne.
  - intros s now k v ttl now' k' Hle. split; [done|]. cbn [Set_ Delete ops]. unfold set, del, live. cbn [entries with_entries fst].
    change (key (with_entries s _) k') with (key s k').
    destruct (decide (k' = k)) as [->|Hne].
    + by rewrite lookup_insert_eq.
    + rewrite lookup_insert_ne; [done|]. unfold key. by intros ->%app_inv_head.
  - intros s now k now' k' Hle. split; [done|]. cbn [Set_ Delete ops]. unfold set, del, live. cbn [entries with_entries fst].
    change (key (with_entries s _) k') with (key s k').
    destruct (decide (k' = k)) as [->|Hne].
    + by rewrite lookup_delete_eq.
    + rewrite lookup_delete_ne; [done|]. unfold key. by intros ->%app_inv_head.
  - intros s now k. split; [done|]. unfold live. cbn [Flush ops]. unfold flush. cbn [fst entries with_entries].
    by rewrite lookup_empty.
  - intros s now k v ttl. split; [done|]. cbn [Get ops]. unfold get. by repeat case_match.
Defined.

(** The janitor removes only what no reader can see any more. *)
Lemma sweep_live m now now' k : now <= now' -> live (sweep now m) now' k = live m now' k.
Proof.
  intros Hle. unfold live, sweep. cbn [entries with_entries].
  change (key (with_entries m _) k) with (key m k). rewrite map_lookup_filter.
  destruct (entries m !! key m k) as [e|]; [|done]. cbn. case_guard; [done|]. cbn.
  by rewrite (proj2 (Z.leb_gt _ _)) by lia.
Qed.
Lemma sweep_default m now : default_ttl (sweep now m) = default_ttl m.
Proof. done. Qed.
End Memory.

(** ** Redis / Valkey *)

Inductive redis_reply := RedisValue (v : gostr) | RedisNil | RedisError.
(** The client as the backend uses it: commands at an instant on the state of
    the server; the flag is whether the command succeeded. *)
Class RedisClient (srv : Type) := {
  client_Get : Z -> gostr -> srv -> redis_reply;
  client_Set : Z -> gostr -> gostr -> Z -> srv -> srv * bool;
  client_Del : Z -> gostr -> srv -> srv * bool;
  client_FlushDB : srv -> srv * bool;
  client_Ping : srv -> bool
}.
(** The documented behaviour of a reachable server: SET with an expiry, GET,
    DEL and FLUSHDB. *)
Class RedisLaws (srv : Type) `{RedisClient srv} := {
  stored : srv -> Z -> gostr -> option gostr;
  redis_get : forall s now k, client_Get now k s = match stored s now k with Some v => RedisValue v | None => RedisNil end;
  redis_set : forall s now k v ttl now' k', 0 < ttl -> now <= now' ->
    (client_Set now k v ttl s).2 = true /\
    stored (client_Set now k v ttl s).1 now' k' =
      if decide (k' = k) then (if now' <=? now + ttl then Some v else None) else stored s now' k';
  redis_del : forall s now k now' k', now <= now' ->
    (client_Del now k s).2 = true /\
    stored (client_Del now k s).1 now' k' = if decide (k' = k) then None else stored s now' k';
  redis_flush : forall s now k, (client_FlushDB s).2 = true /\ stored (client_FlushDB s).1 now k = None
}.

Module Redis.
Section Backend.
Context {srv : Type} `{RedisClient srv}.
Record redisCache := { server : srv; prefix : gostr; defaultTTL : Z }.
Definition with_server (r : redisCache) (s : srv) : redisCache :=
  {| server := s; prefix := prefix r; defaultTTL := defaultTTL r |}.
Definition key (r : redisCache) (k : gostr) : gostr := prefix r ++ k.
Definition status (p : srv * bool) (r : redisCache) : redisCache * result cache_error unit :=
  (with_server r p.1, if p.2 then Ok tt else Err ErrBackend).

Definition get (now : Z) (k : gostr) (r : redisCache) : redisCache * result cache_error gostr :=
  (r, match client_Get now (key r k) (server r) with
      | RedisNil => Err ErrNotFound
      | RedisError => Err ErrBackend
      | RedisValue v => Ok v
      end).
Definition set (now : Z) (k v : gostr) (ttl : Z) (r : redisCache) : redisCache * result cache_error unit :=
  let ttl := if ttl <=? 0 then defaultTTL r else ttl in
  status (client_Set now (key r k) v ttl (server r)) r.
Definition del (now : Z) (k : gostr) (r : redisCache) : redisCache * result cache_error unit :=
  status (client_Del now (key r k) (server r)) r.
Definition flush (r : redisCache) : redisCache * result cache_error unit :=
  status (client_FlushDB (server r)) r.
Definition ping (r : redisCache) : result cache_error unit :=
  if client_Ping (server r) then Ok tt else Err ErrBackend.
#[global] Instance ops : CacheOps redisCache := {|
  Get := get; Set_ := set; Delete := del; Flush := flush; Ping := ping; default_ttl := defaultTTL |}.
End Backend.
Arguments redisCache : clear implicits.

(** A backend whose default TTL is positive, as [parseDuration] makes it. *)
Section Contract.
Context {srv : Type} `{RedisLaws srv}.
Lemma get_stored (r : redisCache srv) now k :
  (get now k r).2 = match stored (server r) now (key r k) with Some v => Ok v | None => Err ErrNotFound end.
Proof. unfold get. cbn. rewrite redis_get. by destruct (stored _ _ _). Qed.
Lemma set_stored (r : redisCache srv) now k v ttl now' k' :
  0 < defaultTTL r -> now <= now' ->
  (set now k v ttl r).2 = Ok tt /\
  stored (server (set now k v ttl r).1) now' (key r k') =
    if decide (k' = k) then (if now' <=? now + effective_ttl ttl r then Some v else None)
    else stored (server r) now' (key r k').
Proof.
  intros Hd Hle. unfold set, status.
  assert (0 < (if ttl <=? 0 then defaultTTL r else ttl)) as Hpos by (destruct (ttl <=? 0) eqn:E; bool_facts; lia).
  destruct (redis_set (server r) now (key r k) v _ now' (key r k') Hpos Hle) as [-> Hs].
  split; [done|]. cbn [fst server with_server]. rewrite Hs. unfold effective_ttl. cbn [default_ttl ops].
  destruct (decide (k' = k)) as [->|Hne]; [by rewrite decide_True|].
  rewrite decide_False; [done|]. unfold key. by intros ->%app_inv_head.
Qed.
End Contract.
End Redis.

(** ** memcache *)

Module Memcache.
Definition maxRelativeTTL : Z := 30 * 24 * Hour.
(** Conversion to a 32-bit integer wraps around. *)
Definition int32 (n : Z) : Z := (n + 2 ^ 31) mod 2 ^ 32 - 2 ^ 31.
(** The expiration [Set] puts into the item. *)
Definition expiration (now defaultTTL ttl : Z) : Z :=
  let ttl := if ttl <=? 0 then defaultTTL else ttl in
  if maxRelativeTTL <? ttl then int32 ((now + ttl) / Second)
  else
    let expSecs := int32 (ttl / Second) in
    if expSecs <=? 0 then 3600 else expSecs.
(** How the protocol reads it: the instant the item expires, [None] for
    never. *)
Definition protocol_deadline (now exp : Z) : option Z :=
  if exp =? 0 then None
  else if exp <? 0 then Some now
  else if exp <=? 30 * 24 * 3600 then Some (now + exp * Second)
  else Some (exp * Second).

Lemma int32_small n : - 2 ^ 31 <= n < 2 ^ 31 -> int32 n = n.
Proof. intros Hn. unfold int32. rewrite Z.mod_small by lia. lia. Qed.
End Memcache.

(** An item stored in memcache with a TTL of at least one second expires
    at the requested instant or less than a second before it, also for TTLs
    over thirty days, which the protocol reads as absolute times; the bound is
    the year 2038 of the 32-bit field. *)
Theorem memcache_expiration now dflt ttl
    (Hnow : 30 * 24 * Hour <= now) (Httl : Second <= ttl) (H2038 : now + ttl < 2 ^ 31 * Second) :
  exists deadline,
    Memcache.protocol_deadline now (Memcache.expiration now dflt ttl) = Some deadline /\
    now + ttl - Second < deadline <= now + ttl.
Proof.
  unfold Memcache.expiration, Memcache.protocol_deadline, Memcache.maxRelativeTTL.
  unfold Hour, Minute, Second in *.
  rewrite (proj2 (Z.leb_gt ttl 0)) by lia.
  destruct (_ <? ttl) eqn:Eb; bool_facts.
  - rewrite Memcache.int32_small by (split; [|apply Z.div_lt_upper_bound]; zlia).
    rewrite (proj2 (Z.eqb_neq _ _)), (proj2 (Z.ltb_ge _ _)), (proj2 (Z.leb_gt _ _)) by zlia.
    eexists. split; [done|]. zlia.
  - rewrite Memcache.int32_small by (split; [|apply Z.div_lt_upper_bound]; zlia).
    rewrite (proj2 (Z.leb_gt (ttl / _) 0)) by zlia.
    rewrite (proj2 (Z.eqb_neq _ _)), (proj2 (Z.ltb_ge _ _)), (proj2 (Z.leb_le _ _)) by zlia.
    eexists. split; [done|]. zlia.
Qed.
Lemma memcache_expiration_witness :
  exists deadline,
    Memcache.protocol_deadline (1700000000 * Second)
      (Memcache.expiration (1700000000 * Second) 0 (31 * 24 * Hour)) = Some deadline /\
    1700000000 * Second + 31 * 24 * Hour - Second < deadline <= 1700000000 * Second + 31 * 24 * Hour.
Proof. apply (memcache_expiration (1700000000 * Second) 0 (31 * 24 * Hour)); by vm_compute. Defined.

(** A TTL below one second becomes one hour. *)
Example memcache_subsecond_ttl :
  Memcache.protocol_deadline (1700000000 * Second)
    (Memcache.expiration (1700000000 * Second) Hour (Second / 2)) = Some (1700000000 * Second + Hour).
Proof. reflexivity. Qed.

(** ** Callers of the interface *)

Section Callers.
Context `{CacheContract St}.

(** What else may happen to a cache. *)
Inductive cache_call :=
| CGet (k : gostr)
| CSet (k v : gostr) (ttl : Z)
| CDelete (k : gostr).
Definition call_key (c : cache_call) : gostr := match c with CGet k | CSet k _ _ | CDelete k => k end.
Definition writes (k : gostr) (c : cache_call) : bool :=
  match c with CGet _ => false | CSet k' _ _ | CDelete k' => bool_decide (k' = k) end.
Definition do_call (s : St) (tc : Z * cache_call) : St :=
  match tc.2 with
  | CGet k => (Get tc.1 k s).1
  | CSet k v ttl => (Set_ tc.1 k v ttl s).1
  | CDelete k => (Delete tc.1 k s).1
  end.

Lemma call_frame s tc k now :
  writes k tc.2 = false -> tc.1 <= now -> live (do_call s tc) now k = live s now k.
Proof.
  destruct tc as [t c]. cbn [fst snd]. intros Hw Hle. unfold do_call. cbn [fst snd].
  destruct c as [k'|k' v ttl|k']; cbn in Hw.
  - by apply get_frame.
  - destruct (set_live s t k' v ttl now k Hle) as [_ ->]. bool_facts. by rewrite decide_False by congruence.
  - destruct (delete_live s t k' now k Hle) as [_ ->]. bool_facts. by rewrite decide_False by congruence.
Qed.
Lemma calls_frame tcs s k now :
  Forall (fun tc => writes k tc.2 = false /\ tc.1 <= now) tcs ->
  live (fold_left do_call tcs s) now k = live s now k.
Proof.
  intros Hf. revert s. induction Hf as [|tc tcs [Hw Hle] Hf IH]; intros s; [done|]. cbn [fold_left].
  by rewrite IH, call_frame.
Qed.
End Callers.

(** Every backend that keeps the contract of the cache interface gives
    back what was stored: after [Set k v ttl], whatever is read, written or
    deleted under other keys, [Get k] answers [v] until the TTL has passed and
    "not found" after it. *)
Theorem read_your_write `{CacheContract St} s k v ttl t tcs now
    (Hle : t <= now) (Hcalls : Forall (fun tc => writes k tc.2 = false /\ tc.1 <= now) tcs) :
  (Get now k (fold_left do_call tcs (Set_ t k v ttl s).1)).2 =
  if now <=? t + effective_ttl ttl s then Ok v else Err ErrNotFound.
Proof.
  rewrite get_live, calls_frame by done. destruct (set_live s t k v ttl now k Hle) as [_ ->].
  rewrite decide_True by done. by destruct (now <=? _).
Qed.
Lemma read_your_write_witness :
  (Get 60 (str "k") (fold_left do_call [(10, CSet (str "other") (str "w") 5); (20, CGet (str "k"))]
     (Set_ 0 (str "k") (str "v") 100 (Memory.newMemoryCache (str "ipgaze:") 300)).1)).2 = Ok (str "v").
Proof.
  apply (read_your_write (Memory.newMemoryCache (str "ipgaze:") 300) (str "k") (str "v") 100 0
    [(10, CSet (str "other") (str "w") 5); (20, CGet (str "k"))] 60); [lia|].
  repeat constructor; cbn; lia.
Defined.

(** The janitor of the memory backend cannot be noticed: a sweep at any
    instant leaves every later [Get] with the same answer. *)
Theorem janitor_unobservable (m : Memory.memoryCache) t now k (Hle : t <= now) :
  (Get now k (Memory.sweep t m)).2 = (Get now k m).2.
Proof. rewrite !get_live. change live with Memory.live. by rewrite Memory.sweep_live. Qed.
Lemma janitor_unobservable_witness :
  let m := (Set_ 0 (str "k") (str "v") 10 (Memory.newMemoryCache [] 300)).1 in
  (Get 20 (str "k") (Memory.sweep 15 m)).2 = (Get 20 (str "k") m).2.
Proof. intros m. apply (janitor_unobservable m 15 20 (str "k")). lia. Defined.
