(* ===== verification/Csrf.v ===== *)
(** * Cross-site request forgery: [server/middleware_csrf.go]

    The double-submit cookie middleware, its exemptions and its tokens.  The
    random bytes of a token are the argument [entropy] of the middleware: a
    request that needs a token encodes these. *)

From S2P Require Import Prelude GoStrings GoPath GoNet Http I18n AccessControl Paths.
#[local] Open Scope go_scope.

Record CSRFConfig := {
  Enabled : bool;
  TokenLength : Z;
  CookieName : gostr;
  HeaderName : gostr;
  FormField : gostr;
  Secure : option bool;
  SameSite : same_site;
  ExemptPaths : list gostr
}.
Definition default_exempt : list gostr :=
  [str "/api/v1/webhooks/*"; str "/api/v1/server/reports/*"; str "/debug/*"; str "/server/consent";
   str "/announcements/dismiss"].
Definition DefaultCSRFConfig : CSRFConfig :=
  {| Enabled := true; TokenLength := 32; CookieName := str "csrf_token";
     HeaderName := str "X-CSRF-Token"; FormField := str "csrf_token"; Secure := None;
     SameSite := SameSiteStrict; ExemptPaths := default_exempt |}.

(** The operator's settings ([config.CSRFConfig]) and [csrfConfigFrom] of
    [http.go]. *)
Record csrf_settings := {
  s_Enabled : bool; s_TokenLength : Z; s_CookieName : gostr; s_HeaderName : gostr;
  s_Secure : gostr; s_ExemptPaths : list gostr
}.
Definition csrfConfigFrom (c : csrf_settings) : CSRFConfig :=
  {| Enabled := s_Enabled c; TokenLength := s_TokenLength c; CookieName := s_CookieName c;
     HeaderName := s_HeaderName c; FormField := FormField DefaultCSRFConfig;
     SameSite := SameSiteStrict; ExemptPaths := ExemptPaths DefaultCSRFConfig ++ s_ExemptPaths c;
     Secure := if s_Secure c =s str "true" then Some true
               else if s_Secure c =s str "false" then Some false else None |}.

(** ** Tokens *)

Definition url_alphabet : gostr :=
  str "ABCDEFGHIJKLMNOPQRSTUVWXYZabcdefghijklmnopqrstuvwxyz0123456789-_".
Definition b64 (n : Z) : ascii := default "A"%char (url_alphabet !! Z.to_nat n).
(** [base64.RawURLEncoding.EncodeToString] *)
Fixpoint base64url (b : list Z) : gostr :=
  match b with
  | x :: y :: z :: b' =>
      [b64 (x / 4); b64 (x mod 4 * 16 + y / 16); b64 (y mod 16 * 4 + z / 64); b64 (z mod 64)] ++ base64url b'
  | [x; y] => [b64 (x / 4); b64 (x mod 4 * 16 + y / 16); b64 (y mod 16 * 4)]
  | [x] => [b64 (x / 4); b64 (x mod 4 * 16)]
  | [] => []
  end.
(** [entropy n] are the [n] bytes read from the system's random source. *)
Definition generateCSRFToken (entropy : nat -> list Z) (length : Z) : gostr :=
  base64url (entropy (Z.to_nat (if length <=? 0 then 32 else length))).

(** ** Exemptions *)

Definition hasBearerAuth (r : request) : bool :=
  if HasPrefix (get r "Authorization") (str "Bearer ") then true
  else get r "X-API-Token" <>s [].

Definition matchPath (pattern requestPath : gostr) : bool :=
  let pattern := Clean (str "/" ++ pattern) in
  let requestPath := Clean (str "/" ++ requestPath) in
  if pattern =s requestPath then true
  else if HasSuffix pattern (str "/*") &&
          HasPrefix requestPath (TrimSuffix pattern (str "/*") ++ str "/") then true
  else if Contains pattern (str "/**") then
    match Split pattern (str "/**") with
    | [a; b] => HasPrefix requestPath a && HasSuffix requestPath b
    | _ => false
    end
  else false.
Definition isExemptPath (requestPath : gostr) (exemptPaths : list gostr) : bool :=
  any (fun pattern => matchPath pattern requestPath) exemptPaths.

(** ** The middleware *)

Definition csrf_cookie (cfg : CSRFConfig) (secure : bool) (token : gostr) : cookie :=
  {| c_Name := CookieName cfg; c_Value := token; c_Path := str "/"; c_Secure := secure;
     c_HttpOnly := false; c_SameSite := SameSite cfg; c_MaxAge := 0 |}.
Definition setCSRFCookieWithToken (cfg : CSRFConfig) (secure : bool) (token : gostr) : effect :=
  SetCookie (csrf_cookie cfg secure token).
(** [ensureCSRFCookie]: the effects and the token now in effect. *)
Definition ensureCSRFCookie (entropy : nat -> list Z) (r : request) (cfg : CSRFConfig) (secure : bool)
  : list effect * gostr :=
  match Cookie r (CookieName cfg) with
  | Some v => ([], v)
  | None =>
      let token := generateCSRFToken entropy (TokenLength cfg) in
      ([setCSRFCookieWithToken cfg secure token], token)
  end.

Section Middleware.
Context `{UnicodeTables} (translator : I18NManager).

Definition csrfError (r : request) (reason : gostr) : list effect :=
  let clientIP := match extractIP r with Some ip => IP_String ip | None => [] end in
  let msg := localized translator r (str "errors.csrf_failed") in
  let msg := if (msg =s []) || (msg =s str "errors.csrf_failed")
             then str "CSRF token validation failed" else msg in
  [WriteAuditEvent (str "security.csrf_failure") clientIP
     [(str "endpoint", r_URL_Path r); (str "reason", reason)];
   WriteSecurity (str "CSRF validation failed") (sanitizeLogValue clientIP);
   NegotiatedError 403 (str "CSRF_FAILED") msg].

Definition safe_method (r : request) : bool :=
  let method := ToUpper (r_Method r) in
  (method =s str "GET") || (method =s str "HEAD") || (method =s str "OPTIONS").
Definition submitted_token (cfg : CSRFConfig) (r : request) : gostr :=
  let header := Header_Get (r_Header r) (HeaderName cfg) in
  if header =s [] then
    match r_Form r with
    | Some form => default [] (assoc (FormField cfg) form)
    | None => header
    end
  else header.

Definition CSRFMiddleware {St} (cfg : CSRFConfig) (sslEnabled : bool) (entropy : nat -> list Z)
  : middleware St := fun next r s =>
  if negb (Enabled cfg) then next r s
  else
    let secure := default sslEnabled (Secure cfg) in
    if EqualFold (get r "Upgrade") (str "websocket") then next r s
    else if safe_method r then
      let '(es, token) := ensureCSRFCookie entropy r cfg secure in
      let '(s', es') := next (with_ctx r (set_csrf_token (r_ctx r) token)) s in
      (s', es ++ es')
    else if hasBearerAuth r then next r s
    else if isExemptPath (r_URL_Path r) (ExemptPaths cfg) then next r s
    else
      let cookieToken := default [] (Cookie r (CookieName cfg)) in
      let submittedToken := submitted_token cfg r in
      if (cookieToken =s []) || (submittedToken =s [])
      then (s, csrfError r (str "missing_token"))
      else if cookieToken <>s submittedToken
      then (s, csrfError r (str "token_mismatch"))
      else
        let newToken := generateCSRFToken entropy (TokenLength cfg) in
        let '(s', es') := next (with_ctx r (set_csrf_token (r_ctx r) newToken)) s in
        (s', setCSRFCookieWithToken cfg secure newToken :: es').
End Middleware.

Definition GetCSRFToken (r : request) (cookieName : gostr) : gostr :=
  let from_cookie :=
    default [] (Cookie r (if cookieName =s [] then str "csrf_token" else cookieName)) in
  match ctx_csrf_token (r_ctx r) with
  | Some t => if t <>s [] then t else from_cookie
  | None => from_cookie
  end.

(** ** Exempt paths *)

Lemma Join_app ps qs c :
  ps <> [] -> qs <> [] -> Join (ps ++ qs) [c] = Join ps [c] ++ c :: Join qs [c].
Proof.
  intros Hp Hq. induction ps as [|p ps IH]; [done|]. destruct ps as [|p' ps].
  - cbn [app]. by rewrite Join_cons1.
  - change ((p :: p' :: ps) ++ qs) with (p :: (p' :: ps) ++ qs). rewrite !Join_cons1 by done.
    rewrite IH by done. by rewrite <-app_assoc.
Qed.
Lemma Clean_rooted p : isRooted p = true -> Clean p = slash :: Join (comps p) [slash].
Proof. intros Hp. unfold Clean, render. by rewrite Hp. Qed.

Lemma star_plain : plain (str "*").
Proof. repeat split; try done. vm_compute. set_solver. Qed.
Lemma star_comps p : comps (str "/" ++ p ++ str "/*") = comps (str "/" ++ p) ++ [str "*"].
Proof.
  change (str "/" ++ p ++ str "/*") with ((slash :: p) ++ slash :: str "*").
  change (str "/" ++ p) with (slash :: p).
  rewrite !comps_segments. change (isRooted ((slash :: p) ++ slash :: str "*")) with true.
  change (isRooted (slash :: p)) with true. rewrite segments_app.
  change (segments (str "*")) with [str "*"]. apply clean_comps_plain.
  constructor; [apply star_plain|constructor].
Qed.

(** The part of a pattern before its final "/*". *)
Definition stem (p : gostr) : gostr :=
  match comps (str "/" ++ p) with [] => [] | cs => slash :: Join cs [slash] end.
Lemma star_Clean p : Clean (str "/" ++ p ++ str "/*") = stem p ++ str "/*".
Proof.
  rewrite Clean_rooted by done. rewrite star_comps. unfold stem.
  destruct (comps (str "/" ++ p)) as [|c cs]; [done|].
  rewrite Join_app by done. done.
Qed.
Lemma stem_no_star p : "*"%char ∉ p -> "*"%char ∉ stem p.
Proof.
  intros Hp Hin. assert ("*"%char ∈ Clean (str "/" ++ p)) as Hc.
  { rewrite Clean_rooted by done. unfold stem in Hin. destruct (comps _); [by apply elem_of_nil in Hin|done]. }
  apply elem_of_Clean in Hc as [[=]|[[=]|Hc]]. change (str "/" ++ p) with (slash :: p) in Hc.
  by apply elem_of_cons in Hc as [[=]|Hc].
Qed.
Definition stars (s : gostr) : nat := length (filter (fun c => c = "*"%char) s).
Lemma stars_app a b : stars (a ++ b) = (stars a + stars b)%nat.
Proof. unfold stars. by rewrite filter_app, length_app. Qed.
Lemma stars_none s : "*"%char ∉ s -> stars s = 0%nat.
Proof.
  intros Hs. unfold stars. induction s as [|c s IH]; [done|].
  apply not_elem_of_cons in Hs as [Hc Hs]. rewrite filter_cons_False by congruence. by apply IH.
Qed.
Lemma star_no_double p : "*"%char ∉ p -> Contains (stem p ++ str "/*") (str "/**") = false.
Proof.
  intros Hp. apply Contains_false. intros a b E. apply (f_equal stars) in E.
  rewrite !stars_app, (stars_none _ (stem_no_star p Hp)) in E.
  change (stars (str "/*")) with 1%nat in E. change (stars (str "/**")) with 2%nat in E. lia.
Qed.


(** A cleaned request path below the stem. *)
Lemma below_stem p rp :
  comps (str "/" ++ p) <> [] ->
  HasPrefix (Clean (str "/" ++ rp)) (stem p ++ str "/") = true <->
  exists c rest, comps (str "/" ++ rp) = comps (str "/" ++ p) ++ c :: rest.
Proof.
  intros Hne. rewrite HasPrefix_true.
  assert (stem p = Clean (str "/" ++ p)) as ->.
  { rewrite Clean_rooted by done. unfold stem. by destruct (comps _). }
  split.
  - intros Hpre. destruct (prefix_below (str "/" ++ rp) (str "/" ++ p) eq_refl eq_refl Hpre) as (rest & E & _).
    destruct rest as [|c rest]; [|by exists c, rest]. exfalso. rewrite app_nil_r in E.
    rewrite (Clean_eq (str "/" ++ rp) (str "/" ++ p) eq_refl E) in Hpre.
    apply prefix_length in Hpre. rewrite length_app in Hpre.
    change (length (str "/")) with 1%nat in Hpre. lia.
  - intros (c & rest & E). rewrite (Clean_rooted (str "/" ++ rp)), E by done.
    rewrite Join_app by done. rewrite (Clean_rooted (str "/" ++ p)) by done.
    exists (Join (c :: rest) [slash]). cbn. by rewrite <-app_assoc.
Qed.

(** An exemption pattern that ends in "/*" and has no other wildcard
    matches exactly the paths strictly below its directory, after the path has
    been cleaned: a request cannot reach another path through "..", doubled
    slashes or a longer name with the same prefix. *)
Theorem matchPath_star p rp
    (Hp : "*"%char ∉ p) (Hne : comps (str "/" ++ p) <> []) :
  matchPath (p ++ str "/*") rp = true <->
  exists c rest, comps (str "/" ++ rp) = comps (str "/" ++ p) ++ c :: rest.
Proof.
  unfold matchPath. rewrite star_Clean, star_no_double by done.
  rewrite HasSuffix_app, TrimSuffix_app. cbn [andb].
  destruct (bool_decide (stem p ++ str "/*" = Clean (str "/" ++ rp))) eqn:E.
  - bool_facts. split; [intros _|done]. exists (str "*"), [].
    rewrite <-star_comps, <-(comps_Clean (str "/" ++ rp)), <-E, <-star_Clean. by rewrite comps_Clean.
  - rewrite <-(below_stem p rp Hne). by destruct (HasPrefix _ _).
Qed.
Lemma matchPath_star_witness :
  matchPath (str "/api/v1/webhooks" ++ str "/*") (str "/api//v1/x/../webhooks/github") = true.
Proof.
  apply (matchPath_star (str "/api/v1/webhooks")); [vm_compute; set_solver|done|].
  exists (str "github"), []. reflexivity.
Defined.

(** ** Validation *)

(** A request the double-submit check applies to. *)
Definition checked `{UnicodeTables} (cfg : CSRFConfig) (r : request) : bool :=
  Enabled cfg && negb (EqualFold (get r "Upgrade") (str "websocket")) && negb (safe_method r) &&
  negb (hasBearerAuth r) && negb (isExemptPath (r_URL_Path r) (ExemptPaths cfg)).
(** Cookie and submitted token are present and equal. *)
Definition tokens_match (cfg : CSRFConfig) (r : request) : bool :=
  let t := default [] (Cookie r (CookieName cfg)) in (t <>s []) && (submitted_token cfg r =s t).

Lemma checked_run `{UnicodeTables} translator {St} cfg ssl entropy (next : handler St) r s :
  checked cfg r = true ->
  let token := generateCSRFToken entropy (TokenLength cfg) in
  let r' := with_ctx r (set_csrf_token (r_ctx r) token) in
  let res := CSRFMiddleware translator cfg ssl entropy next r s in
  if tokens_match cfg r
  then res = ((next r' s).1, setCSRFCookieWithToken cfg (default ssl (Secure cfg)) token :: (next r' s).2)
  else exists reason, res = (s, csrfError translator r reason).
Proof.
  unfold checked. intros Hc. bool_facts. cbn zeta. unfold CSRFMiddleware, tokens_match.
  repeat match goal with Hx : _ = _ |- _ => rewrite Hx; clear Hx end. cbn [negb].
  set (t := default [] (Cookie r (CookieName cfg))). set (sub := submitted_token cfg r).
  destruct (decide (t = [])) as [Et|Et].
  { rewrite (bool_decide_true (t = [])) by done. cbn. eauto. }
  rewrite (bool_decide_false (t = [])) by done. cbn [orb negb andb].
  destruct (decide (sub = t)) as [Es|Es].
  - rewrite Es. rewrite (bool_decide_false (t = [])), (bool_decide_true (t = t)) by done. cbn [negb].
    by destruct (next _ s).
  - rewrite (bool_decide_false (sub = t)) by done.
    destruct (bool_decide (sub = [])); [by eauto|]. rewrite (bool_decide_false (t = sub)) by congruence.
    cbn. by eauto.
Qed.

(** C3. A state-changing request that no exemption covers reaches the handler
    exactly when it carries the token of its own non-empty cookie in the header
    or the form field; then the token is replaced, in the cookie and in the
    context, before the handler runs.  Otherwise nothing is handed on, the
    state is untouched, the answer is 403 CSRF_FAILED and the failure is
    recorded under the trust-resolved client address. *)
Theorem csrf_validates `{UnicodeTables} translator {St} cfg ssl entropy (next : handler St) r s
    (Hchecked : checked cfg r = true) :
  let token := generateCSRFToken entropy (TokenLength cfg) in
  let r' := with_ctx r (set_csrf_token (r_ctx r) token) in
  let res := CSRFMiddleware translator cfg ssl entropy next r s in
  if tokens_match cfg r
  then res = ((next r' s).1, setCSRFCookieWithToken cfg (default ssl (Secure cfg)) token :: (next r' s).2)
  else res.1 = s /\ served res.2 = [] /\ (exists msg, NegotiatedError 403 (str "CSRF_FAILED") msg ∈ res.2) /\
       WriteSecurity (str "CSRF validation failed")
         (sanitizeLogValue match extractIP r with Some ip => IP_String ip | None => [] end) ∈ res.2.
Proof.
  pose proof (checked_run translator cfg ssl entropy next r s Hchecked) as Hrun. cbn zeta in *.
  destruct (tokens_match cfg r); [done|]. destruct Hrun as [reason ->]. unfold csrfError. cbn [fst snd served].
  split_and!; [done|done| |].
  - eexists. do 2 right. left.
  - right. left.
Qed.
(** A form submission with a cookie and a token. *)
Definition form_post (cookie_value field : gostr) : request :=
  {| r_Method := str "POST"; r_Host := str "example.org"; r_URL_Host := []; r_URL_Path := str "/server/contact";
     r_URL_RawPath := []; r_Header := ∅; r_Cookies := [(str "csrf_token", cookie_value)]; r_Query := [];
     r_Form := Some [(str "csrf_token", field)]; r_RemoteAddr := str "203.0.113.5:4711"; r_TLS := false;
     r_ContentLength := 0; r_ctx := background |}.
Lemma csrf_validates_witness :
  let res := @CSRFMiddleware ascii_tables no_translations unit DefaultCSRFConfig true (fun n => replicate n 7)
               serve (form_post (str "abc") (str "abd")) tt in
  res.1 = tt /\ served res.2 = [].
Proof.
  intros res.
  destruct (@csrf_validates ascii_tables no_translations unit DefaultCSRFConfig true (fun n => replicate n 7)
    serve (form_post (str "abc") (str "abd")) tt ltac:(vm_compute; reflexivity)) as (H1 & H2 & _).
  by split.
Defined.

Lemma token_nonempty entropy n :
  (forall k, length (entropy k) = k) -> generateCSRFToken entropy n <> [].
Proof.
  intros He. unfold generateCSRFToken.
  assert (lt 0 (length (entropy (Z.to_nat (if n <=? 0 then 32 else n))))) as Hl.
  { rewrite He. destruct (n <=? 0) eqn:E; bool_facts; lia. }
  destruct (entropy _) as [|x [|y [|z b]]]; [cbn in Hl; lia|done..].
Qed.

(** The first visit works: a read-only request without the cookie gets a
    cookie with a fresh token and renders the same token into its page; the
    form submitted from that page, with that cookie and that field, reaches
    the handler. *)
Theorem csrf_first_visit `{UnicodeTables} translator {St} cfg ssl entropy (next : handler St) r1 r2 s s2
    (Henabled : Enabled cfg = true) (Hentropy : forall k, length (entropy k) = k)
    (Hws : EqualFold (get r1 "Upgrade") (str "websocket") = false) (Hsafe : safe_method r1 = true)
    (Hnone : Cookie r1 (CookieName cfg) = None)
    (Hchecked : checked cfg r2 = true) (Hheader : Header_Get (r_Header r2) (HeaderName cfg) = []) :
  exists token r1',
    CSRFMiddleware translator cfg ssl entropy next r1 s =
      ((next r1' s).1, SetCookie (csrf_cookie cfg (default ssl (Secure cfg)) token) :: (next r1' s).2) /\
    GetCSRFToken r1' (CookieName cfg) = token /\
    (Cookie r2 (CookieName cfg) = Some token -> r_Form r2 = Some [(FormField cfg, token)] ->
     exists r2' es, CSRFMiddleware translator cfg ssl entropy next r2 s2 = ((next r2' s2).1, es ++ (next r2' s2).2)).
Proof.
  pose proof (token_nonempty entropy (TokenLength cfg) Hentropy) as Hne.
  set (token := generateCSRFToken entropy (TokenLength cfg)) in *.
  exists token, (with_ctx r1 (set_csrf_token (r_ctx r1) token)). split_and!.
  - unfold CSRFMiddleware, ensureCSRFCookie. rewrite Henabled, Hws, Hsafe, Hnone. cbn [negb].
    fold token. by destruct (next _ s).
  - unfold GetCSRFToken. cbn. by rewrite bool_decide_false.
  - intros Hcookie Hform.
    pose proof (checked_run translator cfg ssl entropy next r2 s2 Hchecked) as Hrun. cbn zeta in Hrun.
    assert (tokens_match cfg r2 = true) as Hm.
    { unfold tokens_match, submitted_token. rewrite Hcookie, Hheader, Hform. cbn [default assoc].
      rewrite (bool_decide_true ([] = [])), (bool_decide_true (FormField cfg = FormField cfg)) by done.
      cbn [default id]. rewrite (bool_decide_false (token = [])), (bool_decide_true (token = token)) by done.
      done. }
    rewrite Hm in Hrun. eexists _, [_]. exact Hrun.
Qed.
Lemma csrf_first_visit_witness :
  let entropy := fun n : nat => replicate n 7 in
  exists token r1',
    @CSRFMiddleware ascii_tables no_translations unit DefaultCSRFConfig true entropy serve
      (bare_request (str "203.0.113.5:1")) tt =
    ((serve r1' tt).1, SetCookie (csrf_cookie DefaultCSRFConfig true token) :: (serve r1' tt).2) /\
    GetCSRFToken r1' (str "csrf_token") = token.
Proof.
  intros entropy.
  destruct (@csrf_first_visit ascii_tables no_translations unit DefaultCSRFConfig true entropy serve
    (bare_request (str "203.0.113.5:1")) (form_post (str "x") (str "x")) tt tt)
    as (token & r1' & H1 & H2 & _); [reflexivity|intros k; apply length_replicate|vm_compute; reflexivity..|].
  by exists token, r1'.
Defined.

(** A cookie that is present but empty is never replaced: reads return it as
    the token in effect, and every later submission is refused, whatever it
    carries. *)
Theorem csrf_empty_cookie_stuck `{UnicodeTables} translator {St} cfg ssl entropy (next : handler St) r s
    (Hcookie : Cookie r (CookieName cfg) = Some []) :
  ensureCSRFCookie entropy r cfg (default ssl (Secure cfg)) = ([], []) /\
  (checked cfg r = true -> served (CSRFMiddleware translator cfg ssl entropy next r s).2 = []).
Proof.
  split; [unfold ensureCSRFCookie; by rewrite Hcookie|]. intros Hc.
  pose proof (checked_run translator cfg ssl entropy next r s Hc) as Hrun. cbn zeta in Hrun.
  unfold tokens_match in Hrun. rewrite Hcookie in Hrun. cbn in Hrun. by destruct Hrun as [reason ->].
Qed.
