(* ===== verification/Telemetry.v ===== *)
(** * Counters, the recent-log ring and audit identifiers

    [server/reqstats.go], [server/metrics/logbuffer.go] and [log/ulid.go]. *)

From S2P Require Import Prelude GoStrings GoNet Http.
#[local] Open Scope go_scope.

(** ** Request counters: [reqstats.go] *)

Module ReqStats.

(** The two arrays are indexed by the hour modulo 24. *)
Record requestStats := {
  total : Z; active : Z; hourBuckets : list Z; hourStamps : list Z
}.
Definition newRequestStats : requestStats :=
  {| total := 0; active := 0; hourBuckets := replicate 24 0; hourStamps := replicate 24 0 |}.
Definition recordStart (rs : requestStats) : requestStats :=
  {| total := total rs; active := active rs + 1; hourBuckets := hourBuckets rs; hourStamps := hourStamps rs |}.
Definition recordEnd (rs : requestStats) : requestStats :=
  {| total := total rs; active := active rs - 1; hourBuckets := hourBuckets rs; hourStamps := hourStamps rs |}.
(** [hour] is [time.Now().Unix() / 3600]. *)
Definition recordRequest (hour : Z) (rs : requestStats) : requestStats :=
  let idx := Z.to_nat (hour mod 24) in
  let fresh := negb (hourStamps rs !!! idx =? hour) in
  let stamps := if fresh then <[idx := hour]> (hourStamps rs) else hourStamps rs in
  let buckets := if fresh then <[idx := 0]> (hourBuckets rs) else hourBuckets rs in
  {| total := total rs + 1; active := active rs;
     hourBuckets := <[idx := buckets !!! idx + 1]> buckets; hourStamps := stamps |}.
Definition snapshot (nowHour : Z) (rs : requestStats) : Z * Z * Z :=
  let last24h :=
    fold_left (fun acc i => if nowHour - hourStamps rs !!! i <? 24 then acc + hourBuckets rs !!! i else acc)
      (seq 0 24) 0 in
  (total rs, last24h, active rs).

(** A request through [statsMiddleware]: its hour, and what the handler does
    with the counters while it runs. *)
Definition statsMiddleware (hour : Z) : middleware requestStats := fun next r rs =>
  let '(rs', es) := next r (recordRequest hour (recordStart rs)) in (recordEnd rs', es).

(** *** The counters against the log of all requests *)

Definition count (p : Z -> bool) (log : list Z) : Z := Z.of_nat (length (filter (fun h => p h = true) log)).
Definition residue (i : nat) (h : Z) : bool := h mod 24 =? Z.of_nat i.
(** The latest hour of a residue class, zero if there is none. *)
Definition latest (i : nat) (log : list Z) : Z := default 0 (last (filter (fun h => residue i h = true) log)).

Definition tracks (rs : requestStats) (log : list Z) : Prop :=
  length (hourBuckets rs) = 24%nat /\ length (hourStamps rs) = 24%nat /\
  total rs = Z.of_nat (length log) /\
  forall i, (i < 24)%nat ->
    hourStamps rs !!! i = latest i log /\
    hourBuckets rs !!! i = count (fun h => residue i h && (h =? latest i log)) log.

Lemma count_app p a b : count p (a ++ b) = count p a + count p b.
Proof. unfold count. rewrite filter_app, length_app. lia. Qed.
Lemma count_one p h : count p [h] = Z.b2z (p h).
Proof. unfold count. rewrite filter_cons. destruct (p h); [by rewrite decide_True|by rewrite decide_False]. Qed.
Lemma count_ext p q log : (forall h, h ∈ log -> p h = q h) -> count p log = count q log.
Proof. intros Hpq. unfold count. do 2 f_equal. apply filter_ext_in. intros h Hh. by rewrite Hpq. Qed.
Lemma latest_snoc i log h :
  latest i (log ++ [h]) = if residue i h then h else latest i log.
Proof.
  unfold latest. rewrite filter_app, filter_cons, filter_nil.
  destruct (residue i h); [rewrite decide_True by done|rewrite decide_False by done].
  - by rewrite last_snoc.
  - by rewrite app_nil_r.
Qed.

Lemma residue_index h : residue (Z.to_nat (h mod 24)) h = true.
Proof. unfold residue. pose proof (Z.mod_pos_bound h 24 ltac:(lia)). rewrite Z2Nat.id by lia. apply Z.eqb_refl. Qed.
Lemma residue_other i h : i <> Z.to_nat (h mod 24) -> residue i h = false.
Proof.
  unfold residue. pose proof (Z.mod_pos_bound h 24 ltac:(lia)). intros Hne. apply Z.eqb_neq. lia.
Qed.

(** In a log that never goes back, the latest entry of a class is its
    greatest. *)
Lemma latest_max i log h :
  StronglySorted Z.le log -> h ∈ log -> residue i h = true -> h <= latest i log /\ latest i log ∈ log.
Proof.
  intros Hs. induction log as [|x log IH] using rev_ind; [by intros ?%elem_of_nil|].
  apply sorted_app_inv in Hs as (Hs' & _ & Hx). rewrite latest_snoc. intros Hh Hr. rewrite elem_of_app, list_elem_of_singleton in Hh.
  destruct (residue i x) eqn:Ex.
  - split; [|apply elem_of_app; right; by apply list_elem_of_singleton].
    destruct Hh as [Hh| ->]; [apply Hx; [done|left]|lia].
  - destruct Hh as [Hh| ->]; [|congruence]. destruct (IH Hs' Hh Hr) as [H1 H2].
    split; [done|]. apply elem_of_app. by left.
Qed.
Lemma count_none p log : (forall h, h ∈ log -> p h = false) -> count p log = 0.
Proof.
  intros Hp. unfold count. assert (filter (fun h => p h = true) log = []) as ->; [|done].
  induction log as [|x log IH]; [done|]. rewrite filter_cons_False.
  - apply IH. intros h Hh. apply Hp. by right.
  - rewrite Hp; [done|left].
Qed.

Lemma record_tracks rs log h :
  StronglySorted Z.le log -> Forall (fun x => x <= h) log ->
  tracks rs log -> tracks (recordRequest h rs) (log ++ [h]).
Proof.
  intros Hsort Hle (Hb & Hs & Ht & Hi). pose proof (Z.mod_pos_bound h 24 ltac:(lia)) as Hm.
  set (idx := Z.to_nat (h mod 24)). assert (idx < 24)%nat as Hidx by (unfold idx; lia).
  assert (residue idx h = true) as Hres by apply residue_index.
  destruct (Hi idx Hidx) as [Es Eb].
  unfold recordRequest, tracks. fold idx. cbn [total hourBuckets hourStamps].
  set (fresh := negb (hourStamps rs !!! idx =? h)).
  set (stamps := if fresh then <[idx := h]> (hourStamps rs) else hourStamps rs).
  set (buckets := if fresh then <[idx := 0]> (hourBuckets rs) else hourBuckets rs).
  assert (length stamps = 24%nat /\ length buckets = 24%nat) as [Ls Lb].
  { subst stamps buckets. destruct fresh; by rewrite ?length_insert. }
  assert (stamps !!! idx = h /\ buckets !!! idx = count (fun x => residue idx x && (x =? h)) log) as [Ssi Bsi].
  { subst stamps buckets. subst fresh. destruct (hourStamps rs !!! idx =? h) eqn:E; cbn [negb]; bool_facts.
    - split; [done|]. by rewrite Eb, <-Es, E.
    - rewrite !list_lookup_total_insert_eq by lia. split; [done|]. symmetry. apply count_none.
      intros x Hx. apply andb_false_iff. destruct (residue idx x) eqn:Er; [right|by left].
      apply Z.eqb_neq. intros ->. destruct (latest_max idx log h Hsort Hx Er) as [H1 H2].
      rewrite Forall_forall in Hle. specialize (Hle _ H2). lia. }
  assert (forall i, i <> idx -> stamps !!! i = hourStamps rs !!! i /\ buckets !!! i = hourBuckets rs !!! i) as Hother.
  { intros i Hne. subst stamps buckets. destruct fresh; by rewrite ?list_lookup_total_insert_ne. }
  rewrite length_insert. split_and!; [done|done|rewrite length_app; cbn; lia|]. intros i Hi24.
  rewrite latest_snoc, count_app, count_one.
  destruct (decide (i = idx)) as [->|Hne].
  - rewrite Hres, list_lookup_total_insert_eq by lia. rewrite Z.eqb_refl. split; [done|].
    rewrite Bsi. cbn. lia.
  - rewrite (residue_other i h Hne). rewrite list_lookup_total_insert_ne by done. cbn [andb Z.b2z].
    destruct (Hother i Hne) as [-> ->]. destruct (Hi i Hi24) as [-> ->]. split; [done|lia].
Qed.
Lemma new_tracks : tracks newRequestStats [].
Proof.
  split_and!; [done..|]. intros i Hi. cbn [hourStamps hourBuckets newRequestStats].
  rewrite !list_lookup_total_alt, !lookup_replicate_2 by done. done.
Qed.
Lemma hours_tracked hs : forall rs log,
  StronglySorted Z.le (log ++ hs) -> tracks rs log ->
  tracks (fold_left (fun rs h => recordRequest h rs) hs rs) (log ++ hs).
Proof.
  induction hs as [|h hs IH]; intros rs log Hs Ht; [by rewrite app_nil_r|]. cbn [fold_left].
  change (h :: hs) with ([h] ++ hs) in *. rewrite (app_assoc log) in *.
  apply IH; [done|]. apply sorted_app_inv in Hs as (Hs & _).
  apply sorted_app_inv in Hs as (Hs & _ & Hle). apply record_tracks; [done| |done].
  apply Forall_forall. intros x Hx. apply Hle; [done|left].
Qed.

Lemma count_disjoint p q r log :
  (forall h, Z.b2z (r h) = Z.b2z (p h) + Z.b2z (q h)) -> count r log = count p log + count q log.
Proof.
  intros Hr. induction log as [|h log IH]; [done|]. change (h :: log) with ([h] ++ log).
  rewrite !count_app, !count_one, IH, Hr. lia.
Qed.
Definition sum_over (f : nat -> Z) (ks : list nat) : Z := fold_left (fun acc i => acc + f i) ks 0.
Lemma sum_over_app f a b : sum_over f (a ++ b) = sum_over f a + sum_over f b.
Proof.
  unfold sum_over. rewrite fold_left_app. generalize (fold_left (fun acc i => acc + f i) a 0).
  induction b as [|i b IH]; intros z; cbn [fold_left]; [lia|]. rewrite IH, (IH (0 + f i)). lia.
Qed.
(** The classes of the residues cover every hour once. *)
Lemma count_residues p log n :
  sum_over (fun i => count (fun h => residue i h && p h) log) (seq 0 n) =
  count (fun h => (h mod 24 <? Z.of_nat n) && p h) log.
Proof.
  induction n as [|n IH].
  - symmetry. apply count_none. intros h _. pose proof (Z.mod_pos_bound h 24 ltac:(lia)).
    by rewrite (proj2 (Z.ltb_ge _ _)) by lia.
  - rewrite seq_S, sum_over_app, IH. cbn [sum_over fold_left Nat.add]. rewrite Z.add_0_l. symmetry.
    apply count_disjoint. intros h. unfold residue.
    destruct (p h); rewrite ?andb_false_r, ?andb_true_r; [|done].
    destruct (h mod 24 <? Z.of_nat (S n)) eqn:E1, (h mod 24 <? Z.of_nat n) eqn:E2,
      (h mod 24 =? Z.of_nat n) eqn:E3; bool_facts; cbn; lia.
Qed.

Lemma count_all p log : count p log = count (fun h => (h mod 24 <? Z.of_nat 24) && p h) log.
Proof.
  apply count_ext. intros h _. pose proof (Z.mod_pos_bound h 24 ltac:(lia)).
  by rewrite (proj2 (Z.ltb_lt _ _)) by lia.
Qed.
Lemma sum_over_ext f g ks : (forall i, i ∈ ks -> f i = g i) -> sum_over f ks = sum_over g ks.
Proof.
  intros Hfg. unfold sum_over. generalize 0. induction ks as [|i ks IH]; intros z; [done|]. cbn [fold_left].
  rewrite Hfg by left. apply IH. intros j Hj. apply Hfg. by right.
Qed.
Lemma snapshot_sum now rs :
  fold_left (fun acc i => if now - hourStamps rs !!! i <? 24 then acc + hourBuckets rs !!! i else acc) (seq 0 24) 0 =
  sum_over (fun i => if now - hourStamps rs !!! i <? 24 then hourBuckets rs !!! i else 0) (seq 0 24).
Proof.
  assert (forall ks z,
    fold_left (fun acc i => if now - hourStamps rs !!! i <? 24 then acc + hourBuckets rs !!! i else acc) ks z =
    fold_left (fun acc i => acc + (if now - hourStamps rs !!! i <? 24 then hourBuckets rs !!! i else 0)) ks z) as Hks.
  { induction ks as [|i ks IH]; intros z; [done|]. cbn [fold_left]. rewrite IH. f_equal.
    destruct (now - hourStamps rs !!! i <? 24); lia. }
  apply Hks.
Qed.
Lemma active_run hs rs : active (fold_left (fun rs h => recordRequest h rs) hs rs) = active rs.
Proof. revert rs. induction hs as [|h hs IH]; intros rs; [done|]. cbn [fold_left]. by rewrite IH. Qed.

(** One residue class in the window: only its latest hour can lie in it. *)
Lemma window_class i log now :
  StronglySorted Z.le log -> Forall (fun h => h <= now) log -> 24 <= now ->
  (if now - latest i log <? 24 then count (fun h => residue i h && (h =? latest i log)) log else 0) =
  count (fun h => residue i h && (now - h <? 24)) log.
Proof.
  intros Hs Hle Hnow. rewrite Forall_forall in Hle.
  assert (forall h, h ∈ log -> residue i h = true -> now - h < 24 -> h = latest i log) as Honly.
  { intros h Hh Hr Hw. destruct (latest_max i log h Hs Hh Hr) as [H1 H2].
    pose proof (Hle _ H2). assert (residue i (latest i log) = true) as Hrl.
    { unfold latest in *. destruct (last _) as [x|] eqn:E; cbn in *.
      - apply last_Some_elem_of, list_elem_of_filter in E as [? _]. done.
      - apply last_None in E. exfalso.
        assert (h ∈ filter (fun h => residue i h = true) log) as Hin by (by apply list_elem_of_filter).
        rewrite E in Hin. by apply elem_of_nil in Hin. }
    unfold residue in *. bool_facts. zlia. }
  destruct (now - latest i log <? 24) eqn:E; bool_facts.
  - apply count_ext. intros h Hh. destruct (residue i h) eqn:Er; [|done]. cbn [andb].
    destruct (h =? latest i log) eqn:E1, (now - h <? 24) eqn:E2; bool_facts; try done; [lia|].
    specialize (Honly h Hh Er ltac:(lia)). done.
  - symmetry. apply count_none. intros h Hh. destruct (residue i h) eqn:Er; [|done]. cbn [andb].
    apply Z.ltb_ge. destruct (decide (now - h < 24)) as [Hw|]; [|lia].
    specialize (Honly h Hh Er Hw). lia.
Qed.
End ReqStats.

(** The health page reports the truth: after any sequence of requests whose
    hours never go back, the total is the number of requests and the 24-hour
    figure is the number of them in the current hour and the 23 before it. *)
Theorem snapshot_exact hs now
    (Hsorted : StronglySorted Z.le hs) (Hnow : Forall (fun h => h <= now) hs) (Hpos : 24 <= now) :
  ReqStats.snapshot now (fold_left (fun rs h => ReqStats.recordRequest h rs) hs ReqStats.newRequestStats) =
  (Z.of_nat (length hs), ReqStats.count (fun h => now - h <? 24) hs, 0).
Proof.
  pose proof (ReqStats.hours_tracked hs _ [] Hsorted ReqStats.new_tracks) as (_ & _ & Ht & Hi). cbn [app] in *.
  pose proof (ReqStats.active_run hs ReqStats.newRequestStats) as Ha.
  set (rs := fold_left _ hs _) in *. unfold ReqStats.snapshot. rewrite Ht, Ha. repeat f_equal.
  rewrite (ReqStats.snapshot_sum now rs). etransitivity; [|symmetry; apply ReqStats.count_all].
  rewrite <-ReqStats.count_residues. apply ReqStats.sum_over_ext. intros i Hin.
  apply elem_of_seq in Hin. destruct (Hi i ltac:(lia)) as [-> ->]. by apply ReqStats.window_class.
Qed.
Lemma snapshot_exact_witness :
  let hs := [471888; 471900; 471900; 471913] in
  ReqStats.snapshot 471913 (fold_left (fun rs h => ReqStats.recordRequest h rs) hs ReqStats.newRequestStats) =
  (4, 3, 0).
Proof.
  intros hs. apply (snapshot_exact hs 471913); [repeat constructor; lia|repeat constructor; lia|lia].
Defined.

(** ** The ring of recent log records: [logbuffer.go] *)

Module LogBuffer.

Record LogEntry := { Time : Z; Level : gostr; Line : gostr }.
Record buffer := { entries : list LogEntry; max : Z }.
Definition NewLogBuffer (max : Z) : buffer :=
  {| entries := []; max := if max <=? 0 then 1000 else max |}.

(** [copy(b, b[k:])] then [b[:n]]. *)
Definition copy_down (k : nat) (l : list LogEntry) : list LogEntry := drop k l ++ drop (length l - k) l.
Definition Append (e : LogEntry) (b : buffer) : buffer :=
  let n := Z.of_nat (length (entries b)) in
  let kept :=
    if max b <=? n then take (Z.to_nat (max b - 1)) (copy_down (Z.to_nat (n - max b + 1)) (entries b))
    else entries b in
  {| entries := kept ++ [e]; max := max b |}.
(** [cutoff] is the zero time when there is no age limit; [now] is not zero. *)
Definition Recent (now limit maxAge : Z) (b : buffer) : list LogEntry :=
  let out := if 0 <? maxAge then filter (fun e => ~ Time e < now - maxAge) (entries b) else entries b in
  if (0 <? limit) && (limit <? Z.of_nat (length out))
  then drop (length out - Z.to_nat limit) out else out.
Definition Len (b : buffer) : Z := Z.of_nat (length (entries b)).

(** *** Redaction *)

Definition sensitiveKeyParts : list gostr :=
  [str "token"; str "password"; str "passwd"; str "secret"; str "apikey"; str "api_key"; str "credential";
   str "authorization"; str "encryption_key"; str "private_key"].
Definition redactedValue : gostr := str "xxxxx".
Definition isSensitiveKey `{UnicodeTables} (key : gostr) : bool :=
  let lower := ToLower key in any (fun part => Contains lower part) sensitiveKeyParts.

(** The pattern [(?i)\bbearer\s+\S+] and its replacement: [prev] is whether
    the byte before the current one is a word byte; [skip] bytes belong to a
    match already replaced. *)
Definition word_byte (c : ascii) : bool :=
  between "0" "9" c || between "a" "z" c || between "A" "Z" c || bool_decide (c = "_"%char).
Definition re_space (c : ascii) : bool :=
  bool_decide (c ∈ [" "; "009"; "010"; "012"; "013"]%char).
Fixpoint run_length (p : ascii -> bool) (s : gostr) : nat :=
  match s with c :: s' => if p c then S (run_length p s') else 0%nat | [] => 0%nat end.
(** The length of the match at the head of the string, if there is one. *)
Definition bearer_match (s : gostr) : option nat :=
  if bool_decide (lower_ascii <$> take 6 s = str "bearer") then
    let rest := drop 6 s in
    let spaces := run_length re_space rest in
    let value := run_length (fun c => negb (re_space c)) (drop spaces rest) in
    if Nat.eqb spaces 0 || Nat.eqb value 0 then None else Some (6 + spaces + value)%nat
  else None.
Fixpoint redact_from (s : gostr) (prev : bool) (skip : nat) : gostr :=
  match s with
  | [] => []
  | c :: s' =>
      match skip with
      | S k => redact_from s' (word_byte c) k
      | O =>
          if negb prev && word_byte c then
            match bearer_match s with
            | Some n => str "Bearer xxxxx" ++ redact_from s' (word_byte c) (n - 1)
            | None => c :: redact_from s' (word_byte c) 0
            end
          else c :: redact_from s' (word_byte c) 0
      end
  end.
Definition redactLine (line : gostr) : gostr := redact_from line false 0.

Section Record_.
Context `{UnicodeTables}.
(** An attribute: its key and its value as text. *)
Definition formatAttr (a : gostr * gostr) : gostr :=
  if isSensitiveKey a.1 then a.1 ++ str "=" ++ redactedValue
  else a.1 ++ str "=" ++ redactLine a.2.
Definition Record_entry (now : Z) (level msg : gostr) (attrs : list (gostr * gostr)) (b : buffer) : buffer :=
  Append {| Time := now; Level := ToLower level;
            Line := Join (redactLine msg :: (formatAttr <$> attrs)) (str " ") |} b.
End Record_.

(** *** The ring holds the last records *)

Definition last_n {A} (n : Z) (l : list A) : list A := drop (length l - Z.to_nat n) l.

Lemma Append_last e b l :
  0 < max b -> entries b = last_n (max b) l ->
  entries (Append e b) = last_n (max b) (l ++ [e]) /\ max (Append e b) = max b.
Proof.
  intros Hm E. split; [|done]. unfold Append. cbn [entries].
  unfold last_n in *. rewrite length_app. cbn [length].
  destruct (max b <=? Z.of_nat (length (entries b))) eqn:Ef; bool_facts;
    rewrite E in *; rewrite length_drop in *.
  - assert (Z.to_nat (max b) <= length l)%nat as Hl by lia.
    unfold copy_down. rewrite length_drop.
    replace (Z.to_nat (Z.of_nat (length l - (length l - Z.to_nat (max b))) - max b + 1)) with 1%nat by lia.
    rewrite take_app_le by (rewrite !length_drop; lia).
    rewrite drop_drop, take_ge by (rewrite length_drop; lia).
    replace (length l + 1 - Z.to_nat (max b))%nat with (length l - Z.to_nat (max b) + 1)%nat by lia.
    rewrite drop_app_le by lia. done.
  - replace (length l + 1 - Z.to_nat (max b))%nat with 0%nat by lia.
    replace (length l - Z.to_nat (max b))%nat with 0%nat by lia. done.
Qed.

(** *** What redaction leaves *)

Definition mask : gostr := str "Bearer xxxxx".
(** Every credential of the pattern in [s] is the mask; [prev] is whether a
    word byte precedes [s]. *)
Fixpoint clean (prev : bool) (s : gostr) : Prop :=
  match s with
  | [] => True
  | c :: s' =>
      (if negb prev && word_byte c then
         match bearer_match s with Some n => take n s = mask | None => True end
       else True) /\ clean (word_byte c) s'
  end.
Definition ends_value (s : gostr) : Prop :=
  match s with [] => True | c :: _ => re_space c = true end.

Lemma space_not_word c : re_space c = true -> word_byte c = false.
Proof. by destruct c as [[] [] [] [] [] [] [] []]. Qed.
Lemma word_lower c : word_byte (lower_ascii c) = word_byte c.
Proof. by destruct c as [[] [] [] [] [] [] [] []]. Qed.
Lemma redact_spaces s prev :
  let out := redact_from s prev 0 in
  run_length re_space out = run_length re_space s /\
  (drop (run_length re_space s) out = [] <-> drop (run_length re_space s) s = []).
Proof.
  revert prev. induction s as [|c s IH]; intros prev; [done|]. cbn [redact_from run_length].
  destruct (re_space c) eqn:Ec.
  - rewrite (space_not_word c Ec), andb_false_r. cbn [run_length drop]. rewrite Ec.
    destruct (IH false) as [-> IH2]. done.
  - destruct (negb prev && word_byte c); [destruct (bearer_match _)|]; cbn [run_length drop];
      rewrite ?Ec; (split; [done|by split]).
Qed.
Lemma redact_word w t s : Forall (fun c => word_byte c = true) w ->
  redact_from s true 0 = w ++ t -> exists s2, s = w ++ s2 /\ t = redact_from s2 true 0.
Proof.
  intros Hw. revert s. induction Hw as [|c w Hc Hw IH]; intros s E; [by exists s|].
  destruct s as [|c' s]; [done|]. cbn [redact_from negb andb] in E. injection E as -> E.
  rewrite Hc in E. destruct (IH s E) as (s2 & -> & ->). by exists s2.
Qed.
Lemma value_zero s :
  run_length (fun c => negb (re_space c)) (drop (run_length re_space s) s) = 0%nat <->
  drop (run_length re_space s) s = [].
Proof.
  induction s as [|c s IH]; [done|]. cbn [run_length]. destruct (re_space c) eqn:Ec; cbn [drop]; [done|].
  cbn [run_length]. rewrite Ec. done.
Qed.
(** The match of a string that starts with the word. *)
Lemma bearer_match_app w t : lower_ascii <$> w = str "bearer" ->
  bearer_match (w ++ t) = None <-> run_length re_space t = 0%nat \/ drop (run_length re_space t) t = [].
Proof.
  intros Ew. assert (length w = 6%nat) as Hl by (by rewrite <-(length_fmap lower_ascii), Ew).
  unfold bearer_match.
  rewrite (take_app_length' w t 6), (drop_app_length' w t 6), bool_decide_true, <-value_zero by done.
  destruct (Nat.eqb_spec (run_length re_space t) 0) as [E1|E1]; cbn [orb]; [intuition congruence|].
  destruct (Nat.eqb_spec (run_length (fun c => negb (re_space c)) (drop (run_length re_space t) t)) 0);
    intuition congruence.
Qed.
Lemma bearer_match_split s n : bearer_match s = Some n -> exists w t,
  s = w ++ t /\ lower_ascii <$> w = str "bearer" /\ Forall (fun c => word_byte c = true) w.
Proof.
  unfold bearer_match. case_bool_decide as E; [|done]. intros _.
  exists (take 6 s), (drop 6 s). rewrite take_drop. split_and!; [done..|].
  apply Forall_forall. intros c Hc. rewrite <-word_lower.
  assert (lower_ascii c ∈ str "bearer") as H by (rewrite <-E; by apply list_elem_of_fmap_2).
  revert H. generalize (lower_ascii c). intros d Hd. 
  assert (Forall (fun d => word_byte d = true) (str "bearer")) as HF by (by repeat constructor).
  rewrite Forall_forall in HF. by apply HF.
Qed.
Lemma kept_no_match c s :
  word_byte c = true -> bearer_match (c :: s) = None -> bearer_match (c :: redact_from s true 0) = None.
Proof.
  intros Hc Hn. destruct (bearer_match (c :: redact_from s true 0)) as [n|] eqn:E; [|done]. exfalso.
  destruct (bearer_match_split _ _ E) as (w & t & Ew & Hw & HF).
  destruct w as [|c' w]; [done|]. injection Ew as <- Ew. apply Forall_cons in HF as [_ HF].
  destruct (redact_word w t s HF Ew) as (s2 & -> & ->). rewrite Ew in E.
  change (c :: w ++ redact_from s2 true 0) with ((c :: w) ++ redact_from s2 true 0) in E.
  change (c :: w ++ s2) with ((c :: w) ++ s2) in Hn. rewrite bearer_match_app in Hn by done.
  destruct (redact_spaces s2 true) as [E1 E2]. cbn zeta in *.
  assert (bearer_match ((c :: w) ++ redact_from s2 true 0) = None) as Hn'; [|congruence].
  apply bearer_match_app; [done|]. rewrite E1, E2. done.
Qed.
Lemma clean_mask t p : ends_value t -> clean true t -> clean p (mask ++ t).
Proof.
  intros Ht Hc.
  assert (run_length (fun c => negb (re_space c)) (str "xxxxx" ++ t) = 5%nat) as E5.
  { transitivity (5 + run_length (fun c => negb (re_space c)) t)%nat; [done|].
    destruct t as [|c t]; [done|]. cbn in Ht. cbn [run_length]. by rewrite Ht. }
  assert (bearer_match (mask ++ t) = Some 12%nat) as E.
  { unfold bearer_match. rewrite bool_decide_true by done.
    change (run_length re_space (drop 6 (mask ++ t))) with 1%nat.
    change (drop 1 (drop 6 (mask ++ t))) with (str "xxxxx" ++ t). by rewrite E5. }
  change ((if negb p && true then match bearer_match (mask ++ t) with Some n => take n (mask ++ t) = mask | None => True end
           else True) /\ clean true (str "earer xxxxx" ++ t)).
  rewrite E. split; [by destruct p|by repeat split].
Qed.
Lemma run_length_ends p s : match drop (run_length p s) s with [] => True | c :: _ => p c = false end.
Proof. induction s as [|c s IH]; [done|]. cbn [run_length]. destruct (p c) eqn:E; [exact IH|done]. Qed.
Lemma bearer_match_ends s n : bearer_match s = Some n -> (0 < n)%nat /\ ends_value (drop n s).
Proof.
  unfold bearer_match. case_bool_decide; [|done]. destruct (_ || _); [done|]. intros E.
  set (a := run_length re_space (drop 6 s)) in *. set (s' := drop a (drop 6 s)) in *.
  assert (n = (6 + a + run_length (fun c => negb (re_space c)) s')%nat) as -> by congruence. split; [lia|].
  rewrite <-!drop_drop. fold s'.
  pose proof (run_length_ends (fun c => negb (re_space c)) s') as H'. unfold ends_value.
  destruct (drop _ s'); [done|]. by apply negb_false_iff.
Qed.
Lemma redact_clean s : forall prev,
  clean prev (redact_from s prev 0) /\
  forall k q, ends_value (drop k s) -> ends_value (redact_from s prev k) /\ clean q (redact_from s prev k).
Proof.
  induction s as [|c s IH]; intros prev; [split; [done|by intros [|k] q _]|].
  assert (clean prev (redact_from (c :: s) prev 0)) as H0.
  { cbn [redact_from]. destruct (negb prev && word_byte c) eqn:Eb.
    - destruct (bearer_match (c :: s)) as [n|] eqn:E.
      + destruct (bearer_match_ends _ _ E) as [Hn He]. destruct n as [|n]; [lia|].
        replace (S n - 1)%nat with n by lia.
        destruct (IH (word_byte c)) as [_ IH2]. destruct (IH2 n true He). by apply clean_mask.
      + apply andb_true_iff in Eb as [Ep Ec]. cbn [clean]. rewrite Ec, Ep. cbn [andb].
        rewrite kept_no_match by done. split; [done|exact (proj1 (IH _))].
    - cbn [clean]. rewrite Eb. split; [done|exact (proj1 (IH _))]. }
  split; [done|]. intros [|k] q He; [|exact (proj2 (IH _) k q He)].
  cbn [drop ends_value] in He. cbn [redact_from]. rewrite (space_not_word c He), andb_false_r.
  split; [done|]. cbn [clean]. rewrite (space_not_word c He), andb_false_r. split; [done|exact (proj1 (IH _))].
Qed.
(** The word boundary before a position, from what precedes it. *)
Definition at_boundary (pre : gostr) : Prop :=
  match last pre with Some c => word_byte c = false | None => True end.
Lemma clean_split pre rest prev n :
  clean prev (pre ++ rest) -> (if decide (pre = []) then prev = false else at_boundary pre) ->
  bearer_match rest = Some n -> take n rest = mask.
Proof.
  revert prev. induction pre as [|c pre IH]; intros prev Hc Hb E.
  - destruct (bearer_match_split _ _ E) as (w & t & -> & Hw & HF).
    destruct w as [|c w]; [done|]. apply Forall_cons in HF as [Hcw _]. cbn [decide] in Hb.
    change ((if decide ([] = ([] : gostr)) then prev = false else at_boundary []) : Prop) with (prev = false) in Hb.
    subst prev. destruct Hc as [Hc _]. rewrite Hcw in Hc. cbn [negb andb] in Hc. cbn [app] in *. by rewrite E in Hc.
  - destruct Hc as [_ Hc]. apply (IH _ Hc); [|done]. clear - Hb.
    rewrite decide_False in Hb by done. unfold at_boundary in *. destruct pre as [|d pre]; [by rewrite decide_True|].
    rewrite decide_False by done. done.
Qed.
End LogBuffer.

(** The ring of recent log records is a window on the full log: after any
    records, it holds the last [max] of them in order, never more, and
    [Recent] answers the last [limit] of those that are not older than the
    given age. *)
Theorem LogBuffer_window max es now limit maxAge :
  let b := fold_left (fun b e => LogBuffer.Append e b) es (LogBuffer.NewLogBuffer max) in
  let n := if max <=? 0 then 1000 else max in
  let window := LogBuffer.last_n n es in
  let young := if 0 <? maxAge then filter (fun e => ~ LogBuffer.Time e < now - maxAge) window else window in
  LogBuffer.entries b = window /\ LogBuffer.Len b <= n /\
  LogBuffer.Recent now limit maxAge b = if 0 <? limit then LogBuffer.last_n limit young else young.
Proof.
  cbn zeta. set (n := if max <=? 0 then 1000 else max).
  assert (0 < n) as Hn by (unfold n; destruct (max <=? 0) eqn:E; bool_facts; lia).
  assert (forall es l b, LogBuffer.max b = n -> LogBuffer.entries b = LogBuffer.last_n n l ->
    LogBuffer.entries (fold_left (fun b e => LogBuffer.Append e b) es b) = LogBuffer.last_n n (l ++ es)) as Hrun.
  { clear es. induction es as [|e es IH]; intros l b Hm E; [by rewrite app_nil_r|]. cbn [fold_left].
    destruct (LogBuffer.Append_last e b l ltac:(lia) ltac:(by rewrite Hm)) as [E' Hm'].
    rewrite (IH (l ++ [e])); [by rewrite <-app_assoc|lia|]. by rewrite E', Hm. }
  specialize (Hrun es [] (LogBuffer.NewLogBuffer max) eq_refl eq_refl). cbn [app] in Hrun.
  set (b := fold_left _ es _) in *. split_and!; [done| |].
  - unfold LogBuffer.Len. rewrite Hrun. unfold LogBuffer.last_n. rewrite length_drop. lia.
  - unfold LogBuffer.Recent. rewrite Hrun. set (young := if 0 <? maxAge then _ else _).
    destruct (0 <? limit) eqn:El; bool_facts; cbn [andb]; [|done].
    destruct (limit <? _) eqn:E; bool_facts; [done|]. unfold LogBuffer.last_n.
    by replace (length young - Z.to_nat limit)%nat with 0%nat by lia.
Qed.

(** No bearer credential reaches the log endpoint: in a stored line's
    message part every text that the credential pattern matches is the fixed
    mask, whatever the message was; and an attribute whose key names a
    credential is stored without any of its value. *)
Theorem log_redaction `{UnicodeTables} :
  (forall line pre rest n, LogBuffer.redactLine line = pre ++ rest -> LogBuffer.at_boundary pre ->
     LogBuffer.bearer_match rest = Some n -> take n rest = str "Bearer xxxxx") /\
  (forall now level msg key value1 value2 before after b, LogBuffer.isSensitiveKey key = true ->
     LogBuffer.Record_entry now level msg (before ++ (key, value1) :: after) b =
     LogBuffer.Record_entry now level msg (before ++ (key, value2) :: after) b).
Proof.
  split.
  - intros line pre rest n E Hb Hm. apply (LogBuffer.clean_split pre rest false n); [|by destruct pre|done].
    rewrite <-E. exact (proj1 (LogBuffer.redact_clean line false)).
  - intros now level msg key value1 value2 before after b Hk. unfold LogBuffer.Record_entry, LogBuffer.formatAttr.
    rewrite !fmap_app, !fmap_cons. cbn [fst snd]. by rewrite Hk.
Qed.
Lemma log_redaction_witness :
  let msg := str "auth: BEARER   abc.def ok" in
  LogBuffer.redactLine msg = str "auth: Bearer xxxxx ok" /\
  take 12 (str "Bearer xxxxx ok") = str "Bearer xxxxx" /\
  LogBuffer.Record_entry (H:=ascii_tables) 5 (str "info") msg [(str "API_Token", str "s3cret")] (LogBuffer.NewLogBuffer 10) =
  LogBuffer.Record_entry (H:=ascii_tables) 5 (str "info") msg [(str "API_Token", str "other")] (LogBuffer.NewLogBuffer 10).
Proof.
  intros msg. split_and!; [by vm_compute| |].
  - by apply (proj1 (log_redaction (H:=ascii_tables)) msg (str "auth: ") (str "Bearer xxxxx ok") 12%nat); vm_compute.
  - by apply (proj2 (log_redaction (H:=ascii_tables)) 5 (str "info") msg (str "API_Token") (str "s3cret") (str "other") [] []);
      vm_compute.
Defined.

(** ** Audit identifiers: [log/ulid.go] *)

Module Ulid.

Definition crockford : gostr := str "0123456789ABCDEFGHJKMNPQRSTVWXYZ".
Definition crockford_at (i : Z) : ascii := nth (Z.to_nat i) crockford "0"%char.

(** The 16 bytes: 48 bits of the millisecond clock, then what [rand.Read]
    put in the other ten. *)
Definition ulid_bytes (ms : Z) (random : list Z) : list Z :=
  [Z.shiftr ms 40 mod 256; Z.shiftr ms 32 mod 256; Z.shiftr ms 24 mod 256;
   Z.shiftr ms 16 mod 256; Z.shiftr ms 8 mod 256; ms mod 256] ++ random.

(** The five-bit groups of the 16 bytes, as the assignments to [dst] take them. *)
Definition ulid_digits (bs : list Z) : list Z :=
  let b i := nth i bs 0 in
  [Z.shiftr (Z.land (b 0%nat) 224) 5;
   Z.land (b 0%nat) 31;
   Z.shiftr (Z.land (b 1%nat) 248) 3;
   Z.lor (Z.shiftl (Z.land (b 1%nat) 7) 2) (Z.shiftr (Z.land (b 2%nat) 192) 6);
   Z.shiftr (Z.land (b 2%nat) 62) 1;
   Z.lor (Z.shiftl (Z.land (b 2%nat) 1) 4) (Z.shiftr (Z.land (b 3%nat) 240) 4);
   Z.lor (Z.shiftl (Z.land (b 3%nat) 15) 1) (Z.shiftr (Z.land (b 4%nat) 128) 7);
   Z.shiftr (Z.land (b 4%nat) 124) 2;
   Z.lor (Z.shiftl (Z.land (b 4%nat) 3) 3) (Z.shiftr (Z.land (b 5%nat) 224) 5);
   Z.land (b 5%nat) 31;
   Z.shiftr (Z.land (b 6%nat) 248) 3;
   Z.lor (Z.shiftl (Z.land (b 6%nat) 7) 2) (Z.shiftr (Z.land (b 7%nat) 192) 6);
   Z.shiftr (Z.land (b 7%nat) 62) 1;
   Z.lor (Z.shiftl (Z.land (b 7%nat) 1) 4) (Z.shiftr (Z.land (b 8%nat) 240) 4);
   Z.lor (Z.shiftl (Z.land (b 8%nat) 15) 1) (Z.shiftr (Z.land (b 9%nat) 128) 7);
   Z.shiftr (Z.land (b 9%nat) 124) 2;
   Z.lor (Z.shiftl (Z.land (b 9%nat) 3) 3) (Z.shiftr (Z.land (b 10%nat) 224) 5);
   Z.land (b 10%nat) 31;
   Z.shiftr (Z.land (b 11%nat) 248) 3;
   Z.lor (Z.shiftl (Z.land (b 11%nat) 7) 2) (Z.shiftr (Z.land (b 12%nat) 192) 6);
   Z.shiftr (Z.land (b 12%nat) 62) 1;
   Z.lor (Z.shiftl (Z.land (b 12%nat) 1) 4) (Z.shiftr (Z.land (b 13%nat) 240) 4);
   Z.lor (Z.shiftl (Z.land (b 13%nat) 15) 1) (Z.shiftr (Z.land (b 14%nat) 128) 7);
   Z.shiftr (Z.land (b 14%nat) 124) 2;
   Z.lor (Z.shiftl (Z.land (b 14%nat) 3) 3) (Z.shiftr (Z.land (b 15%nat) 224) 5);
   Z.land (b 15%nat) 31].
Definition newULID (ms : Z) (random : list Z) : gostr := crockford_at <$> ulid_digits (ulid_bytes ms random).
Definition NewAuditID (ms : Z) (random : list Z) : gostr := str "audit_" ++ newULID ms random.

(** *** Reading a numeral back, and comparing strings *)

(** The number a list of digits of base [base] writes. *)
Definition value (base : Z) (ds : list Z) : Z := fold_left (fun acc d => acc * base + d) ds 0.
Fixpoint index_of (c : ascii) (s : gostr) : Z :=
  match s with [] => 0 | c' :: s' => if bool_decide (c = c') then 0 else 1 + index_of c s' end.
Definition decode (s : gostr) : Z := value 32 ((fun c => index_of c crockford) <$> s).
(** Go's [<] on strings: byte by byte, a proper prefix first. *)
Fixpoint str_ltb (s t : gostr) : bool :=
  match s, t with
  | _, [] => false
  | [], _ :: _ => true
  | c :: s', d :: t' =>
      if bool_decide (c = d) then str_ltb s' t' else (nat_of_ascii c <? nat_of_ascii d)%nat
  end.

(** *** The bit operations on one byte and on two *)

Definition byte (x : Z) : Prop := 0 <= x < 256.
Definition bytes_all : list Z := Z.of_nat <$> seq 0 256.
Lemma byte_elem x : byte x -> In x bytes_all.
Proof.
  intros [H1 H2]. apply in_map_iff. exists (Z.to_nat x). split; [lia|]. apply in_seq. lia.
Qed.
Lemma byte_ind (P : Z -> bool) x : forallb P bytes_all = true -> byte x -> P x = true.
Proof. intros H Hx. rewrite forallb_forall in H. by apply H, byte_elem. Qed.
(** [(x & (2^(k+w) - 2^k)) >> k] is the digit of [w] bits from bit [k]. *)
Definition field_ok (k w : Z) (x : Z) : bool :=
  Z.shiftr (Z.land x (2 ^ (k + w) - 2 ^ k)) k =? x / 2 ^ k mod 2 ^ w.
Lemma field k w x : forallb (field_ok k w) bytes_all = true -> byte x ->
  Z.shiftr (Z.land x (2 ^ (k + w) - 2 ^ k)) k = x / 2 ^ k mod 2 ^ w.
Proof. intros H Hx. apply Z.eqb_eq. by apply (byte_ind (field_ok k w)). Qed.
(** [((x & (2^w - 1)) << l) | ((y & mask) >> (8 - l))] puts the low [w] bits of
    one byte before the high [l] bits of the next. *)
Definition join_ok (w l : Z) (x y : Z) : bool :=
  Z.lor (Z.shiftl (Z.land x (2 ^ w - 1)) l) (Z.shiftr (Z.land y (256 - 2 ^ (8 - l))) (8 - l)) =?
  x mod 2 ^ w * 2 ^ l + y / 2 ^ (8 - l).
Lemma join w l x y :
  forallb (fun x => forallb (join_ok w l x) bytes_all) bytes_all = true -> byte x -> byte y ->
  Z.lor (Z.shiftl (Z.land x (2 ^ w - 1)) l) (Z.shiftr (Z.land y (256 - 2 ^ (8 - l))) (8 - l)) =
  x mod 2 ^ w * 2 ^ l + y / 2 ^ (8 - l).
Proof.
  intros H Hx Hy. apply Z.eqb_eq. apply (byte_ind (join_ok w l x)); [|done].
  by apply (byte_ind (fun x => forallb (join_ok w l x) bytes_all)).
Qed.

(** The eight digits of five bytes. *)
Definition five_digits (a b c d e : Z) : list Z :=
  [a / 8 mod 32; a mod 8 * 4 + b / 64; b / 2 mod 32; b mod 2 * 16 + c / 16; c mod 16 * 2 + d / 128;
   d / 4 mod 32; d mod 4 * 8 + e / 32; e mod 32].
Lemma five a b c d e : byte a -> byte b -> byte c -> byte d -> byte e ->
  [Z.shiftr (Z.land a 248) 3; Z.lor (Z.shiftl (Z.land a 7) 2) (Z.shiftr (Z.land b 192) 6);
   Z.shiftr (Z.land b 62) 1; Z.lor (Z.shiftl (Z.land b 1) 4) (Z.shiftr (Z.land c 240) 4);
   Z.lor (Z.shiftl (Z.land c 15) 1) (Z.shiftr (Z.land d 128) 7); Z.shiftr (Z.land d 124) 2;
   Z.lor (Z.shiftl (Z.land d 3) 3) (Z.shiftr (Z.land e 224) 5); Z.land e 31] = five_digits a b c d e.
Proof.
  intros Ha Hb Hc Hd He.
  assert (forall a, byte a -> Z.shiftr (Z.land a 248) 3 = a / 8 mod 32) as H1
    by exact (fun a => field 3 5 a ltac:(by vm_compute)).
  assert (forall b, byte b -> Z.shiftr (Z.land b 62) 1 = b / 2 mod 32) as H2
    by exact (fun b => field 1 5 b ltac:(by vm_compute)).
  assert (forall d, byte d -> Z.shiftr (Z.land d 124) 2 = d / 4 mod 32) as H3
    by exact (fun d => field 2 5 d ltac:(by vm_compute)).
  assert (forall x y, byte x -> byte y ->
    Z.lor (Z.shiftl (Z.land x 7) 2) (Z.shiftr (Z.land y 192) 6) = x mod 8 * 4 + y / 64) as H4
    by exact (fun x y => join 3 2 x y ltac:(by vm_compute)).
  assert (forall x y, byte x -> byte y ->
    Z.lor (Z.shiftl (Z.land x 1) 4) (Z.shiftr (Z.land y 240) 4) = x mod 2 * 16 + y / 16) as H5
    by exact (fun x y => join 1 4 x y ltac:(by vm_compute)).
  assert (forall x y, byte x -> byte y ->
    Z.lor (Z.shiftl (Z.land x 15) 1) (Z.shiftr (Z.land y 128) 7) = x mod 16 * 2 + y / 128) as H6
    by exact (fun x y => join 4 1 x y ltac:(by vm_compute)).
  assert (forall x y, byte x -> byte y ->
    Z.lor (Z.shiftl (Z.land x 3) 3) (Z.shiftr (Z.land y 224) 5) = x mod 4 * 8 + y / 32) as H7
    by exact (fun x y => join 2 3 x y ltac:(by vm_compute)).
  rewrite H1, H2, H3, H4, H5, H6, H7 by done.
  unfold five_digits. repeat f_equal. exact (Z.land_ones e 5 ltac:(lia)).
Qed.
Lemma first a : byte a -> [Z.shiftr (Z.land a 224) 5; Z.land a 31] = [a / 32 mod 8; a mod 32].
Proof.
  intros Ha. f_equal; [exact (field 5 3 a ltac:(by vm_compute) Ha)|].
  f_equal. exact (Z.land_ones a 5 ltac:(lia)).
Qed.

(** *** The 26 digits write the 128-bit number *)

Lemma value_snoc base ds d : value base (ds ++ [d]) = value base ds * base + d.
Proof. unfold value. by rewrite fold_left_app. Qed.
Lemma pow_snoc {A} base (ds : list A) d : base ^ Z.of_nat (length (ds ++ [d])) = base ^ Z.of_nat (length ds) * base.
Proof. rewrite length_app. cbn [length]. rewrite Nat2Z.inj_add, Z.pow_add_r by lia. f_equal. apply Z.pow_1_r. Qed.
Lemma value_app base ds es :
  value base (ds ++ es) = value base ds * base ^ Z.of_nat (length es) + value base es.
Proof.
  induction es as [|e es IH] using rev_ind; [rewrite app_nil_r; cbn; lia|].
  rewrite app_assoc, !value_snoc, IH, pow_snoc. ring.
Qed.
Lemma value_bound base ds : 0 < base -> Forall (fun d => 0 <= d < base) ds ->
  0 <= value base ds < base ^ Z.of_nat (length ds).
Proof.
  intros Hb. induction ds as [|d ds IH] using rev_ind; intros H; [cbn; lia|].
  apply Forall_app in H as [H1 H2]. apply Forall_inv in H2. specialize (IH H1).
  rewrite value_snoc, pow_snoc. nia.
Qed.

Lemma five_value a b c d e : byte a -> byte b -> byte c -> byte d -> byte e ->
  value 32 (five_digits a b c d e) = value 256 [a; b; c; d; e] /\
  Forall (fun x => 0 <= x < 32) (five_digits a b c d e).
Proof.
  unfold byte, five_digits. intros Ha Hb Hc Hd He. split; [|repeat constructor; zlia].
  unfold value. cbn [fold_left]. zlia.
Qed.
Lemma ulid_digits_value bs : length bs = 16%nat -> Forall byte bs ->
  value 32 (ulid_digits bs) = value 256 bs /\ Forall (fun x => 0 <= x < 32) (ulid_digits bs) /\
  length (ulid_digits bs) = 26%nat.
Proof.
  intros Hl HF.
  destruct bs as [|a [|b [|c [|d [|e [|f [|g [|h [|i [|j [|k [|l [|m [|n [|o [|p [|? ?]]]]]]]]]]]]]]]]]; try done.
  decompose_Forall_hyps.
  assert (ulid_digits [a; b; c; d; e; f; g; h; i; j; k; l; m; n; o; p] =
    [a / 32 mod 8; a mod 32] ++ five_digits b c d e f ++ five_digits g h i j k ++ five_digits l m n o p) as ->.
  { rewrite <-(first a), <-!five by done. reflexivity. }
  destruct (five_value b c d e f) as [V1 F1]; [done..|].
  destruct (five_value g h i j k) as [V2 F2]; [done..|].
  destruct (five_value l m n o p) as [V3 F3]; [done..|].
  split_and!; [|repeat apply Forall_app_2; try done; repeat constructor; unfold byte in *; zlia|done].
  change [a; b; c; d; e; f; g; h; i; j; k; l; m; n; o; p] with ([a] ++ [b; c; d; e; f] ++ [g; h; i; j; k] ++ [l; m; n; o; p]).
  rewrite !value_app, V1, V2, V3. unfold five_digits. cbn [length app]. unfold value at 1 5. cbn [fold_left].
  unfold byte in *. zlia.
Qed.

(** *** The alphabet keeps the order *)

Definition digits_all : list Z := Z.of_nat <$> seq 0 32.
Lemma digit_elem x : 0 <= x < 32 -> In x digits_all.
Proof. intros H. apply in_map_iff. exists (Z.to_nat x). split; [lia|]. apply in_seq. lia. Qed.
Lemma crockford_index x : 0 <= x < 32 -> index_of (crockford_at x) crockford = x.
Proof.
  intros H. apply Z.eqb_eq.
  assert (forallb (fun x => index_of (crockford_at x) crockford =? x) digits_all = true) as HF by by vm_compute.
  rewrite forallb_forall in HF. by apply HF, digit_elem.
Qed.
Lemma crockford_lt x y : 0 <= x < 32 -> 0 <= y < 32 ->
  (nat_of_ascii (crockford_at x) <? nat_of_ascii (crockford_at y))%nat = (x <? y).
Proof.
  intros Hx Hy. apply eqb_true_iff.
  assert (forallb (fun x => forallb (fun y =>
    eqb (nat_of_ascii (crockford_at x) <? nat_of_ascii (crockford_at y))%nat (x <? y)) digits_all) digits_all = true)
    as HF by by vm_compute.
  rewrite forallb_forall in HF. specialize (HF x (digit_elem x Hx)). cbn beta in HF.
  rewrite forallb_forall in HF. exact (HF y (digit_elem y Hy)).
Qed.
Lemma crockford_inj x y : 0 <= x < 32 -> 0 <= y < 32 -> crockford_at x = crockford_at y -> x = y.
Proof. intros Hx Hy E. by rewrite <-(crockford_index x), <-(crockford_index y), E. Qed.

Lemma value_cons base d ds : value base (d :: ds) = d * base ^ Z.of_nat (length ds) + value base ds.
Proof. change (d :: ds) with ([d] ++ ds). by rewrite value_app. Qed.
(** On numerals of one length the order of the strings is that of the numbers. *)
Lemma str_ltb_value ds es :
  length ds = length es -> Forall (fun x => 0 <= x < 32) ds -> Forall (fun x => 0 <= x < 32) es ->
  str_ltb (crockford_at <$> ds) (crockford_at <$> es) = (value 32 ds <? value 32 es).
Proof.
  revert es. induction ds as [|d ds IH]; intros [|e es] Hl Hd He; try done.
  apply Forall_cons in Hd as [Hd Hds]. apply Forall_cons in He as [He Hes]. injection Hl as Hl.
  rewrite !fmap_cons, !value_cons. cbn [str_ltb]. rewrite (IH es) by done.
  pose proof (value_bound 32 ds ltac:(lia) Hds) as Bd. pose proof (value_bound 32 es ltac:(lia) Hes) as Be.
  rewrite Hl in *. case_bool_decide as E.
  - apply crockford_inj in E as ->; [|done..].
    apply eq_bool_prop_intro. rewrite !Is_true_true, !Z.ltb_lt. lia.
  - assert (d <> e) by congruence. rewrite crockford_lt by done.
    apply eq_bool_prop_intro. rewrite !Is_true_true, !Z.ltb_lt. nia.
Qed.

(** *** The clock bytes *)

Definition random_ok (random : list Z) : Prop := length random = 10%nat /\ Forall byte random.
Definition ulid_number (ms : Z) (random : list Z) : Z := ms mod 2 ^ 48 * 2 ^ 80 + value 256 random.
Lemma ulid_bytes_ok ms random : random_ok random ->
  length (ulid_bytes ms random) = 16%nat /\ Forall byte (ulid_bytes ms random) /\
  value 256 (ulid_bytes ms random) = ulid_number ms random.
Proof.
  intros [Hl HF]. unfold ulid_bytes. split_and!.
  - rewrite length_app, Hl. done.
  - apply Forall_app_2; [|done]. repeat constructor; unfold byte; apply Z.mod_pos_bound; lia.
  - rewrite value_app, Hl. unfold ulid_number. f_equal. f_equal.
    rewrite !Z.shiftr_div_pow2 by lia. unfold value. cbn [fold_left]. zlia.
Qed.
Lemma newULID_value ms random : random_ok random ->
  length (newULID ms random) = 26%nat /\ decode (newULID ms random) = ulid_number ms random.
Proof.
  intros Hr. destruct (ulid_bytes_ok ms random Hr) as (Hl & HF & HV).
  destruct (ulid_digits_value _ Hl HF) as (HV' & HF' & Hl'). unfold newULID, decode.
  rewrite length_fmap. split; [done|]. rewrite <-list_fmap_compose, <-HV, <-HV'. f_equal.
  rewrite <-(list_fmap_id (ulid_digits _)) at 2. apply list_fmap_ext. intros i x Hx.
  cbn. apply crockford_index. rewrite Forall_lookup in HF'. by apply (HF' i).
Qed.
End Ulid.

(** A ULID is the 128-bit number of its 48 clock bits and 80 random bits:
    the 26 characters decode to it, and comparing two audit identifiers as
    strings compares the clocks first and the random bits next, so that
    sorting identifiers by text sorts them by time. *)
Theorem NewAuditID_sorts ms1 ms2 r1 r2
    (Hr1 : Ulid.random_ok r1) (Hr2 : Ulid.random_ok r2) (H1 : 0 <= ms1 < 2 ^ 48) (H2 : 0 <= ms2 < 2 ^ 48) :
  Ulid.decode (Ulid.newULID ms1 r1) = ms1 * 2 ^ 80 + Ulid.value 256 r1 /\
  Ulid.str_ltb (Ulid.NewAuditID ms1 r1) (Ulid.NewAuditID ms2 r2) =
  (ms1 <? ms2) || (ms1 =? ms2) && (Ulid.value 256 r1 <? Ulid.value 256 r2).
Proof.
  assert (forall ms r, 0 <= ms < 2 ^ 48 -> Ulid.ulid_number ms r = ms * 2 ^ 80 + Ulid.value 256 r) as En
    by (intros ms r Hms; unfold Ulid.ulid_number; by rewrite Z.mod_small).
  split; [rewrite <-En by done; by apply Ulid.newULID_value|].
  change (Ulid.str_ltb (Ulid.NewAuditID ms1 r1) (Ulid.NewAuditID ms2 r2)) with
    (Ulid.str_ltb (Ulid.newULID ms1 r1) (Ulid.newULID ms2 r2)).
  destruct (Ulid.ulid_bytes_ok ms1 r1 Hr1) as (L1 & F1 & V1).
  destruct (Ulid.ulid_bytes_ok ms2 r2 Hr2) as (L2 & F2 & V2).
  destruct (Ulid.ulid_digits_value _ L1 F1) as (V1' & F1' & L1').
  destruct (Ulid.ulid_digits_value _ L2 F2) as (V2' & F2' & L2').
  unfold Ulid.newULID. rewrite Ulid.str_ltb_value by (done || congruence).
  rewrite V1', V2', V1, V2, !En by done.
  pose proof (Ulid.value_bound 256 r1 ltac:(lia) (proj2 Hr1)) as B1.
  pose proof (Ulid.value_bound 256 r2 ltac:(lia) (proj2 Hr2)) as B2.
  rewrite (proj1 Hr1) in B1. rewrite (proj1 Hr2) in B2. change (256 ^ Z.of_nat 10) with (2 ^ 80) in *.
  apply eq_bool_prop_intro. rewrite !Is_true_true, orb_true_iff, andb_true_iff, !Z.ltb_lt, Z.eqb_eq. nia.
Qed.
Lemma NewAuditID_sorts_witness :
  let r := [1; 2; 3; 4; 5; 6; 7; 8; 9; 10] in
  Ulid.NewAuditID 1700000000000 r = str "audit_01HF7YAT00041061050R3GG28A" /\
  Ulid.str_ltb (Ulid.NewAuditID 1700000000000 r) (Ulid.NewAuditID 1700000000001 (replicate 10 0)) = true.
Proof.
  intros r. split; [by vm_compute|].
  assert (Ulid.random_ok r) by (split; [done|repeat constructor; unfold Ulid.byte; lia]).
  assert (Ulid.random_ok (replicate 10 0)) by (split; [done|repeat constructor; unfold Ulid.byte; lia]).
  etransitivity; [apply (NewAuditID_sorts 1700000000000 1700000000001 r (replicate 10 0)); (done || lia)|by vm_compute].
Defined.
