(* ===== verification/Complexity.v ===== *)
(** * The complexity limits of GraphQL queries: [graphql/complexity.go]

    The syntax tree is that of the parser library, with the fields the check
    reads; the parser itself is an argument.  Recursion through fragments is
    bounded by the fragments not being visited, which is the fuel. *)

From S2P Require Import Prelude GoStrings.
#[local] Open Scope go_scope.

(** ** Syntax trees *)

(** A selection set is [None] for the nil pointer. *)
Inductive selection :=
| Field (Alias : option gostr) (SelectionSet : option (list selection))
| InlineFragment (SelectionSet : option (list selection))
| FragmentSpread (Name : option gostr).
Abbreviation selection_set := (option (list selection)).
Inductive definition :=
| FragmentDefinition (Name : option gostr) (SelectionSet : selection_set)
| OperationDefinition (SelectionSet : selection_set)
| OtherDefinition.
Abbreviation document := (list definition).

Definition maxQueryDepth : Z := 15.
Definition maxQueryAliases : Z := 50.

(** ** The measure *)

(** The shared state of a traversal: the names being visited and the counter. *)
Record traversal := { visiting : gset gostr; aliasCount : Z }.
Inductive outcome :=
| Depth (depth : Z)
| FragmentCycle (name : gostr)
| OutOfFuel.
Abbreviation fragment_map := (gmap gostr selection_set).

Definition enter (name : gostr) (st : traversal) : traversal :=
  {| visiting := {[name]} ∪ visiting st; aliasCount := aliasCount st |}.
Definition leave (name : gostr) (st : traversal) : traversal :=
  {| visiting := visiting st ∖ {[name]}; aliasCount := aliasCount st |}.
Definition count_alias (alias : option gostr) (st : traversal) : traversal :=
  match alias with
  | Some a => if a <>s [] then {| visiting := visiting st; aliasCount := aliasCount st + 1 |} else st
  | None => st
  end.

Section Measure.
Variable fragments : fragment_map.
(** The recursive call on the selection set of a fragment. *)
Variable expand : selection_set -> Z -> traversal -> outcome * traversal.

(** One turn of the loop: the body of the type switch, which raises [maxDepth]. *)
Fixpoint visit (sel : selection) (depth maxDepth : Z) (st : traversal) : outcome * traversal :=
  let measure (ss : selection_set) (depth : Z) (st : traversal) : outcome * traversal :=
    match ss with
    | None => (Depth (depth - 1), st)
    | Some sels =>
        if maxQueryDepth <? depth then (Depth depth, st) else
        (fix loop (sels : list selection) (maxDepth : Z) (st : traversal) : outcome * traversal :=
           match sels with
           | [] => (Depth maxDepth, st)
           | sel :: rest =>
               match visit sel depth maxDepth st with
               | (Depth maxDepth', st') =>
                   if maxQueryDepth <? maxDepth' then (Depth maxDepth', st') else loop rest maxDepth' st'
               | r => r
               end
           end) sels (depth - 1) st
    end in
  let raise (r : outcome * traversal) : outcome * traversal :=
    match r with (Depth d, st') => (Depth (if maxDepth <? d then d else maxDepth), st') | _ => r end in
  match sel with
  | Field alias ss =>
      let st := count_alias alias st in
      match ss with
      | None => raise (Depth depth, st)
      | Some _ => raise (measure ss (depth + 1) st)
      end
  | InlineFragment ss => raise (measure ss depth st)
  | FragmentSpread None => (Depth maxDepth, st)
  | FragmentSpread (Some name) =>
      if decide (name ∈ visiting st) then (FragmentCycle name, st) else
      match fragments !! name with
      | None | Some None => (Depth maxDepth, st)
      | Some (Some sels) =>
          let '(o, st') := expand (Some sels) depth (enter name st) in
          raise (o, leave name st')
      end
  end.
Definition measure_loop (depth : Z) : list selection -> Z -> traversal -> outcome * traversal :=
  fix loop sels maxDepth st :=
  match sels with
  | [] => (Depth maxDepth, st)
  | sel :: rest =>
      match visit sel depth maxDepth st with
      | (Depth maxDepth', st') =>
          if maxQueryDepth <? maxDepth' then (Depth maxDepth', st') else loop rest maxDepth' st'
      | r => r
      end
  end.
Definition measure_set (ss : selection_set) (depth : Z) (st : traversal) : outcome * traversal :=
  match ss with
  | None => (Depth (depth - 1), st)
  | Some sels => if maxQueryDepth <? depth then (Depth depth, st) else measure_loop depth sels (depth - 1) st
  end.
Definition raise_to (maxDepth : Z) (r : outcome * traversal) : outcome * traversal :=
  match r with (Depth d, st') => (Depth (if maxDepth <? d then d else maxDepth), st') | _ => r end.
Lemma visit_eq sel depth maxDepth st :
  visit sel depth maxDepth st =
  match sel with
  | Field alias None => raise_to maxDepth (Depth depth, count_alias alias st)
  | Field alias ss => raise_to maxDepth (measure_set ss (depth + 1) (count_alias alias st))
  | InlineFragment ss => raise_to maxDepth (measure_set ss depth st)
  | FragmentSpread None => (Depth maxDepth, st)
  | FragmentSpread (Some name) =>
      if decide (name ∈ visiting st) then (FragmentCycle name, st) else
      match fragments !! name with
      | None | Some None => (Depth maxDepth, st)
      | Some (Some sels) =>
          let '(o, st') := expand (Some sels) depth (enter name st) in raise_to maxDepth (o, leave name st')
      end
  end.
Proof. destruct sel as [? []|[]|[]]; reflexivity. Qed.
End Measure.

Fixpoint measureSelectionSet (fuel : nat) (fragments : fragment_map)
    (ss : selection_set) (depth : Z) (st : traversal) : outcome * traversal :=
  measure_set fragments
    (match fuel with
     | O => fun _ _ st => (OutOfFuel, st)
     | S fuel => measureSelectionSet fuel fragments
     end) ss depth st.

(** ** The check *)

Inductive complexity_error :=
| CycleDetected (name : gostr)
| DepthExceeds (depth : Z)
| AliasesExceed (count : Z)
| NoFuel.
Definition fragment_step (fragments : fragment_map) (d : definition) : fragment_map :=
  match d with FragmentDefinition (Some name) ss => <[name := ss]> fragments | _ => fragments end.
Definition fragments_of (doc : document) : fragment_map := fold_left fragment_step doc ∅.
Fixpoint check_operations (fuel : nat) (fragments : fragment_map) (doc : document) (aliases : Z)
    : result complexity_error Z :=
  match doc with
  | [] => Ok aliases
  | OperationDefinition ss :: rest =>
      match measureSelectionSet fuel fragments ss 1 {| visiting := ∅; aliasCount := aliases |} with
      | (Depth depth, st) =>
          if maxQueryDepth <? depth then Err (DepthExceeds depth)
          else check_operations fuel fragments rest (aliasCount st)
      | (FragmentCycle name, _) => Err (CycleDetected name)
      | (OutOfFuel, _) => Err NoFuel
      end
  | _ :: rest => check_operations fuel fragments rest aliases
  end.
Definition checkQueryComplexity (Parse : gostr -> option document) (query : gostr) : result complexity_error unit :=
  if query =s [] then Ok tt else
  match Parse query with
  | None => Ok tt
  | Some doc =>
      let fragments := fragments_of doc in
      match check_operations (size fragments) fragments doc 0 with
      | Err e => Err e
      | Ok aliases => if maxQueryAliases <? aliases then Err (AliasesExceed aliases) else Ok tt
      end
  end.

(** ** What a query expands to *)

Definition alias_one (alias : option gostr) : Z :=
  match alias with Some a => if a <>s [] then 1 else 0 | None => 0 end.
Definition operations (doc : document) : list selection_set :=
  omap (fun d => match d with OperationDefinition ss => Some ss | _ => None end) doc.

(** [expands ss n k h]: replacing every spread by its fragment ends, and gives
    a query of [n] nested selection sets with [k] aliased fields; fragments
    were replaced inside each other [h] times at most. *)
Section Expansion.
Variable fragments : fragment_map.
Inductive expands : selection_set -> Z -> Z -> nat -> Prop :=
| expands_nil : expands None 0 0 0
| expands_set sels n k h : expands_all sels n k h -> expands (Some sels) (Z.max 1 n) k h
with expands_all : list selection -> Z -> Z -> nat -> Prop :=
| expands_done : expands_all [] 0 0 0
| expands_more sel rest n1 k1 h1 n2 k2 h2 :
    expands_one sel n1 k1 h1 -> expands_all rest n2 k2 h2 ->
    expands_all (sel :: rest) (Z.max n1 n2) (k1 + k2) (h1 `max` h2)
with expands_one : selection -> Z -> Z -> nat -> Prop :=
| expands_field a ss n k h : expands ss n k h -> expands_one (Field a ss) (1 + n) (alias_one a + k) h
| expands_inline ss n k h : expands ss n k h -> expands_one (InlineFragment ss) n k h
| expands_unnamed : expands_one (FragmentSpread None) 0 0 0
| expands_unknown name : fragments !! name = None -> expands_one (FragmentSpread (Some name)) 0 0 0
| expands_spread name ss n k h :
    fragments !! name = Some ss -> expands ss n k h -> expands_one (FragmentSpread (Some name)) n k (S h).
Scheme expands_mut := Minimality for expands Sort Prop
with expands_all_mut := Minimality for expands_all Sort Prop
with expands_one_mut := Minimality for expands_one Sort Prop.
Combined Scheme expands_mutind from expands_mut, expands_all_mut, expands_one_mut.

Lemma expands_height_unique :
  (forall ss n k h, expands ss n k h -> forall n' k' h', expands ss n' k' h' -> h' = h) /\
  (forall sels n k h, expands_all sels n k h -> forall n' k' h', expands_all sels n' k' h' -> h' = h) /\
  (forall sel n k h, expands_one sel n k h -> forall n' k' h', expands_one sel n' k' h' -> h' = h).
Proof.
  apply expands_mutind.
  - inversion 1; by subst.
  - intros sels n k h _ IH n' k' h' H. inversion H; subst. eauto.
  - inversion 1; by subst.
  - intros sel rest n1 k1 h1 n2 k2 h2 _ IH1 _ IH2 n' k' h' H. inversion H; subst. f_equal; eauto.
  - intros a ss n k h _ IH n' k' h' H. inversion H; subst. eauto.
  - intros ss n k h _ IH n' k' h' H. inversion H; subst. eauto.
  - inversion 1; by subst.
  - intros name Hn n' k' h' H. inversion H; by simplify_eq.
  - intros name ss n k h Hf _ IH n' k' h' H. inversion H; simplify_eq. f_equal. eauto.
Qed.

(** ** The traversal computes the expansion *)

Definition expand_of (fuel : nat) : selection_set -> Z -> traversal -> outcome * traversal :=
  match fuel with O => fun _ _ st => (OutOfFuel, st) | S fuel => measureSelectionSet fuel fragments end.
Lemma measureSelectionSet_eq fuel ss depth st :
  measureSelectionSet fuel fragments ss depth st = measure_set fragments (expand_of fuel) ss depth st.
Proof. by destruct fuel. Qed.
Definition unvisited (st : traversal) : nat := size (dom fragments ∖ visiting st).
Lemma unvisited_enter name st ss fuel :
  fragments !! name = Some ss -> name ∉ visiting st -> (unvisited st <= S fuel)%nat -> (unvisited (enter name st) <= fuel)%nat.
Proof.
  intros Hf Hn Hu. unfold unvisited in *. cbn [visiting enter].
  assert (name ∈ dom fragments ∖ visiting st) as Hin
    by (apply elem_of_difference; split; [by apply elem_of_dom_2 in Hf|done]).
  replace (dom fragments ∖ ({[name]} ∪ visiting st)) with ((dom fragments ∖ visiting st) ∖ {[name]}) by set_solver.
  rewrite size_difference by set_solver. rewrite size_singleton. lia.
Qed.
Lemma unvisited_zero name st ss :
  fragments !! name = Some ss -> name ∉ visiting st -> unvisited st <> 0%nat.
Proof.
  intros Hf Hn E. unfold unvisited in E. apply size_empty_inv in E. apply elem_of_dom_2 in Hf. set_solver.
Qed.
Lemma unvisited_same st st' : visiting st' = visiting st -> unvisited st' = unvisited st.
Proof. unfold unvisited. by intros ->. Qed.
Lemma leave_enter name st st' :
  name ∉ visiting st -> visiting st' = visiting (enter name st) -> visiting (leave name st') = visiting st.
Proof. intros Hn E. cbn [leave visiting]. rewrite E. cbn [enter visiting]. set_solver. Qed.
Lemma count_alias_visiting a st : visiting (count_alias a st) = visiting st.
Proof. by destruct a as [a|]; [cbn; destruct (_ <>s _)|]. Qed.
Lemma count_alias_count a st : aliasCount (count_alias a st) = aliasCount st + alias_one a.
Proof. destruct a as [a|]; cbn; [destruct (_ <>s _)|]; cbn [aliasCount]; lia. Qed.

(** The recursion ends within the fuel, and leaves the set of visited names as it was. *)
Definition ends (st : traversal) (r : outcome * traversal) : Prop :=
  match r with
  | (Depth _, st') => visiting st' = visiting st
  | (FragmentCycle _, _) => True
  | (OutOfFuel, _) => False
  end.
Lemma ends_raise st m r : ends st r -> ends st (raise_to m r).
Proof. by destruct r as [[]]. Qed.
Lemma ends_visiting st st' r : visiting st' = visiting st -> ends st' r -> ends st r.
Proof. destruct r as [[]]; cbn; congruence. Qed.

(** Induction over selections through their nested sets. *)
Lemma selection_nested_ind (P : selection -> Prop) :
  (forall a, P (Field a None)) -> (forall a sels, Forall P sels -> P (Field a (Some sels))) ->
  P (InlineFragment None) -> (forall sels, Forall P sels -> P (InlineFragment (Some sels))) ->
  (forall name, P (FragmentSpread name)) -> forall sel, P sel.
Proof.
  intros H1 H2 H3 H4 H5. fix IH 1. intros [a [sels|]|[sels|]|name]; [apply H2|apply H1|apply H4|apply H3|apply H5].
  - induction sels; constructor; [apply IH|done].
  - induction sels; constructor; [apply IH|done].
Qed.

Section Loop.
Variable expand : selection_set -> Z -> traversal -> outcome * traversal.
Variable fuel : nat.
Lemma loop_ends sels depth maxDepth st :
  Forall (fun sel => forall depth maxDepth st, (unvisited st <= fuel)%nat ->
    ends st (visit fragments expand sel depth maxDepth st)) sels ->
  (unvisited st <= fuel)%nat -> ends st (measure_loop fragments expand depth sels maxDepth st).
Proof.
  intros HF. revert maxDepth st. induction HF as [|sel sels Hs HF IH]; intros maxDepth st Hu; [done|].
  cbn [measure_loop]. specialize (Hs depth maxDepth st Hu).
  destruct (visit _ _ sel depth maxDepth st) as [[m| |] st']; cbn [ends] in Hs; [|done..].
  destruct (maxQueryDepth <? m); [done|]. apply (ends_visiting _ st'); [done|]. apply IH.
  by rewrite (unvisited_same st).
Qed.
Lemma set_ends sels depth st :
  Forall (fun sel => forall depth maxDepth st, (unvisited st <= fuel)%nat ->
    ends st (visit fragments expand sel depth maxDepth st)) sels ->
  (unvisited st <= fuel)%nat -> ends st (measure_set fragments expand (Some sels) depth st).
Proof. intros HF Hu. cbn [measure_set]. destruct (_ <? _); [done|by apply loop_ends]. Qed.
Hypothesis expand_ends : forall name ss st depth, fragments !! name = Some ss -> name ∉ visiting st ->
  (unvisited st <= fuel)%nat -> ends (enter name st) (expand ss depth (enter name st)).
Lemma visit_ends sel : forall depth maxDepth st,
  (unvisited st <= fuel)%nat -> ends st (visit fragments expand sel depth maxDepth st).
Proof using All.
  induction sel as [a|a sels IH| |sels IH|[name|]] using selection_nested_ind; intros depth maxDepth st Hu;
    rewrite visit_eq; try first [done | by apply ends_raise, count_alias_visiting].
  - apply ends_raise, (ends_visiting _ (count_alias a st)); [apply count_alias_visiting|].
    apply set_ends; [done|]. by rewrite (unvisited_same st) by apply count_alias_visiting.
  - by apply ends_raise, set_ends.
  - case_decide as Hn; [done|]. destruct (fragments !! name) as [[sels|]|] eqn:Hf; [|done..].
    pose proof (expand_ends name (Some sels) st depth Hf Hn Hu) as He.
    destruct (expand _ _ _) as [o st']. apply ends_raise. destruct o; [|done..]. cbn [ends] in *.
    by apply leave_enter.
Qed.
End Loop.
Lemma measure_ends fuel : forall ss depth st,
  (unvisited st <= fuel)%nat -> ends st (measureSelectionSet fuel fragments ss depth st).
Proof.
  induction fuel as [|fuel IH]; intros ss depth st Hu; rewrite measureSelectionSet_eq;
    (destruct ss as [sels|]; [|done]);
    apply set_ends with (fuel := unvisited st); try done; apply Forall_forall; intros sel _ d0 m0 st0 Hu0;
    apply visit_ends with (fuel := unvisited st); try done; intros name ss st1 d Hf Hn Hu'; cbn [expand_of].
  - destruct (unvisited_zero _ _ _ Hf Hn). lia.
  - apply IH. eapply unvisited_enter; [done..|]. lia.
Qed.

(** From depth [depth], a query that expands to [n] levels and [k] aliases is
    measured as such, unless it goes too deep, and then that is reported. *)
Definition agrees (depth n k : Z) (st : traversal) (r : outcome * traversal) : Prop :=
  match r with
  | (Depth m, st') =>
      if depth - 1 + n <=? maxQueryDepth
      then m <= maxQueryDepth /\ visiting st' = visiting st /\ aliasCount st' = aliasCount st + k
      else maxQueryDepth < m
  | _ => False
  end.
(** The fragments being visited have taller expansions than what is left to do. *)
Definition deep (h : nat) (st : traversal) : Prop :=
  forall v, v ∈ visiting st -> exists ss n k h', fragments !! v = Some ss /\ expands ss n k h' /\ (h <= h')%nat.
Lemma deep_visiting h h' st st' : visiting st' = visiting st -> (h' <= h)%nat -> deep h st -> deep h' st'.
Proof.
  intros E Hh Hd v Hv. rewrite E in Hv. destruct (Hd v Hv) as (ss & n & k & h'' & Hf & He & Hle).
  exists ss, n, k, h''. split_and!; (done || lia).
Qed.
Ltac agrees_arith :=
  cbn [agrees]; destruct (_ <=? _) eqn:?; bool_facts; [split_and!; (done || lia)|lia].
Lemma agrees_raise depth n k st maxDepth r : maxDepth <= maxQueryDepth ->
  agrees depth n k st r -> agrees depth n k st (raise_to maxDepth r).
Proof.
  intros Hm. destruct r as [[m| |] st']; cbn [agrees raise_to]; [|done..].
  destruct (maxDepth <? m) eqn:E; bool_facts; [done|].
  destruct (_ <=? _); [intros (? & ? & ?); split_and!; (done || lia)|lia].
Qed.
Lemma agrees_shift d d' n n' k k' st st' r :
  d' - 1 + n' = d - 1 + n -> visiting st' = visiting st -> aliasCount st' + k' = aliasCount st + k ->
  agrees d' n' k' st' r -> agrees d n k st r.
Proof. unfold agrees. intros -> Ev Ek. destruct r as [[]]; [|done..]. destruct (_ <=? _); [|done]. by rewrite Ev, Ek. Qed.

Lemma expand_step fuel name ss n k h depth st :
  (forall fuel depth st, (unvisited st <= fuel)%nat -> deep h st ->
     agrees depth n k st (measure_set fragments (expand_of fuel) ss depth st)) ->
  fragments !! name = Some ss -> expands ss n k h -> name ∉ visiting st -> (unvisited st <= fuel)%nat -> deep h st ->
  agrees depth n k (enter name st) (expand_of fuel ss depth (enter name st)).
Proof.
  intros IH Hf He Hn Hu Hd. destruct fuel as [|fuel].
  - destruct (unvisited_zero _ _ _ Hf Hn). lia.
  - cbn [expand_of]. rewrite measureSelectionSet_eq. apply IH; [by eapply unvisited_enter|].
    intros v Hv. cbn [enter visiting] in Hv. apply elem_of_union in Hv as [Hv|Hv]; [|by apply Hd].
    apply elem_of_singleton in Hv as ->. by exists ss, n, k, h.
Qed.

Lemma measure_expands :
  (forall ss n k h, expands ss n k h -> forall fuel depth st, (unvisited st <= fuel)%nat -> deep h st ->
     agrees depth n k st (measure_set fragments (expand_of fuel) ss depth st)) /\
  (forall sels n k h, expands_all sels n k h -> forall fuel depth maxDepth st,
     (unvisited st <= fuel)%nat -> deep h st -> maxDepth <= maxQueryDepth -> depth <= maxQueryDepth ->
     agrees depth n k st (measure_loop fragments (expand_of fuel) depth sels maxDepth st)) /\
  (forall sel n k h, expands_one sel n k h -> forall fuel depth maxDepth st,
     (unvisited st <= fuel)%nat -> deep h st -> maxDepth <= maxQueryDepth -> depth <= maxQueryDepth ->
     agrees depth n k st (visit fragments (expand_of fuel) sel depth maxDepth st)).
Proof.
  apply expands_mutind.
  - intros fuel depth st _ _. cbn [measure_set agrees]. agrees_arith.
  - intros sels n k h _ IH fuel depth st Hu Hd. cbn [measure_set].
    destruct (maxQueryDepth <? depth) eqn:E; bool_facts.
    + cbn [agrees]. destruct (_ <=? _) eqn:E2; bool_facts; lia.
    + specialize (IH fuel depth (depth - 1) st Hu Hd ltac:(lia) ltac:(lia)). revert IH. unfold agrees.
      destruct (measure_loop _ _ _ _ _ _) as [[m| |] st']; [|done..].
      destruct (depth - 1 + n <=? _) eqn:E2, (depth - 1 + Z.max 1 n <=? _) eqn:E3; bool_facts; (done || lia).
  - intros fuel depth maxDepth st _ _ Hm Hd. cbn [measure_loop agrees].
    agrees_arith.
  - intros sel rest n1 k1 h1 n2 k2 h2 _ IH1 _ IH2 fuel depth maxDepth st Hu Hd Hm Hdep. cbn [measure_loop].
    specialize (IH1 fuel depth maxDepth st Hu (deep_visiting (Nat.max h1 h2) h1 st st eq_refl ltac:(lia) Hd) Hm Hdep).
    destruct (visit _ _ _ _ _ _) as [[m| |] st']; [|done..]. cbn [agrees] in IH1.
    destruct (depth - 1 + n1 <=? _) eqn:E1; bool_facts.
    + destruct IH1 as (Hm' & Hv & Hk). rewrite (proj2 (Z.ltb_ge _ _)) by done.
      specialize (IH2 fuel depth m st'). rewrite (unvisited_same st st' Hv) in IH2.
      specialize (IH2 Hu (deep_visiting (Nat.max h1 h2) h2 st st' Hv ltac:(lia) Hd) Hm' Hdep). revert IH2. unfold agrees.
      destruct (measure_loop _ _ _ _ _ _) as [[m2| |] st2]; [|done..]. rewrite Hv, Hk.
      destruct (depth - 1 + n2 <=? _) eqn:E2, (depth - 1 + Z.max n1 n2 <=? _) eqn:E3; bool_facts;
        try lia; intros (? & ? & ?); split_and!; (done || lia).
    + rewrite (proj2 (Z.ltb_lt _ _)) by done. cbn [agrees]. by rewrite (proj2 (Z.leb_gt _ _)) by lia.
  - intros a ss n k h He IH fuel depth maxDepth st Hu Hd Hm Hdep. rewrite visit_eq. 
    pose proof (count_alias_visiting a st) as Ev. pose proof (count_alias_count a st) as Ek.
    destruct ss as [sels|].
    + apply agrees_raise; [done|]. apply (agrees_shift depth (depth + 1) _ n _ k st (count_alias a st)); [lia|done|lia|].
      apply IH; [by rewrite (unvisited_same st)|by apply (deep_visiting h _ st)].
    + inversion He; subst. apply agrees_raise; [done|]. cbn [agrees].
      agrees_arith.
  - intros ss n k h _ IH fuel depth maxDepth st Hu Hd Hm Hdep. rewrite visit_eq. apply agrees_raise; [done|]. by apply IH.
  - intros fuel depth maxDepth st _ _ Hm Hdep. cbn [visit agrees].
    agrees_arith.
  - intros name Hf fuel depth maxDepth st Hu Hd Hm Hdep. rewrite visit_eq. case_decide as Hn.
    + destruct (Hd _ Hn) as (? & ? & ? & ? & ? & _). congruence.
    + rewrite Hf. cbn [agrees]. agrees_arith.
  - intros name ss n k h Hf He IH fuel depth maxDepth st Hu Hd Hm Hdep. rewrite visit_eq. case_decide as Hn.
    + destruct (Hd _ Hn) as (ss' & n' & k' & h' & Hf' & He' & Hle). simplify_eq.
      rewrite (proj1 expands_height_unique _ _ _ _ He _ _ _ He') in Hle. lia.
    + rewrite Hf. destruct ss as [sels|].
      * pose proof (expand_step fuel name _ n k h depth st IH Hf He Hn Hu (deep_visiting (S h) h st st eq_refl ltac:(lia) Hd)) as Hx.
        destruct (expand_of fuel (Some sels) depth (enter name st)) as [o st']. apply agrees_raise; [done|].
        destruct o as [m| |]; [|done..]. cbn [agrees] in *. destruct (_ <=? _); [|done].
        destruct Hx as (H1 & H2 & H3). split_and!; [done|by apply leave_enter|done].
      * inversion He; subst. cbn [agrees]. agrees_arith.
Qed.

(** What the traversal accepts has an expansion. *)
Definition has_expansion (sel : selection) : Prop := exists n k h, expands_one sel n k h.
Lemma all_expand sels : Forall has_expansion sels -> exists n k h, expands_all sels n k h.
Proof.
  induction 1 as [|sel sels (n1 & k1 & h1 & H1) _ (n2 & k2 & h2 & H2)]; [by exists 0, 0, 0%nat; constructor|].
  eexists _, _, _. by econstructor.
Qed.
Lemma loop_accepts expand depth sels :
  Forall (fun sel => forall depth maxDepth st m st', visit fragments expand sel depth maxDepth st = (Depth m, st') ->
    m <= maxQueryDepth -> has_expansion sel) sels ->
  forall maxDepth st m st', measure_loop fragments expand depth sels maxDepth st = (Depth m, st') ->
  m <= maxQueryDepth -> exists n k h, expands_all sels n k h.
Proof.
  intros HF maxDepth st m st' E Hm. apply all_expand. revert maxDepth st E.
  induction HF as [|sel sels Hs HF IH]; intros maxDepth st E; [constructor|]. cbn [measure_loop] in E.
  destruct (visit _ _ sel depth maxDepth st) as [[m1| |] st1] eqn:E1; [|done..].
  destruct (maxQueryDepth <? m1) eqn:E2; bool_facts; [simplify_eq; lia|].
  constructor; [by apply (Hs _ _ _ _ _ E1)|by apply (IH _ _ E)].
Qed.
Lemma set_accepts expand sels :
  Forall (fun sel => forall depth maxDepth st m st', visit fragments expand sel depth maxDepth st = (Depth m, st') ->
    m <= maxQueryDepth -> has_expansion sel) sels ->
  forall depth st m st', measure_set fragments expand (Some sels) depth st = (Depth m, st') ->
  m <= maxQueryDepth -> exists n k h, expands (Some sels) n k h.
Proof.
  intros HF depth st m st' E Hm. cbn [measure_set] in E.
  destruct (maxQueryDepth <? depth) eqn:E2; bool_facts; [simplify_eq; lia|].
  destruct (loop_accepts _ _ _ HF _ _ _ _ E Hm) as (n & k & h & He). eexists _, _, _. by constructor.
Qed.
Lemma raise_accepts maxDepth r m st' : raise_to maxDepth r = (Depth m, st') -> m <= maxQueryDepth ->
  exists m', r = (Depth m', st') /\ m' <= maxQueryDepth.
Proof.
  destruct r as [[d| |] st]; cbn [raise_to]; [|done..]. intros [= <- ->] Hm. exists d.
  destruct (maxDepth <? d) eqn:E; bool_facts; split; (done || lia).
Qed.
Lemma visit_accepts expand sel :
  (forall ss depth st m st', expand ss depth st = (Depth m, st') -> m <= maxQueryDepth -> exists n k h, expands ss n k h) ->
  forall depth maxDepth st m st', visit fragments expand sel depth maxDepth st = (Depth m, st') ->
  m <= maxQueryDepth -> has_expansion sel.
Proof.
  intros Hx. induction sel as [a|a sels IH| |sels IH|[name|]] using selection_nested_ind;
    intros depth maxDepth st m st' E Hm; rewrite visit_eq in E.
  - eexists _, _, _. constructor. constructor.
  - apply raise_accepts in E as (m' & E & Hm'); [|done].
    destruct (set_accepts _ _ IH _ _ _ _ E Hm') as (n & k & h & He). eexists _, _, _. by constructor.
  - eexists _, _, _. constructor. constructor.
  - apply raise_accepts in E as (m' & E & Hm'); [|done].
    destruct (set_accepts _ _ IH _ _ _ _ E Hm') as (n & k & h & He). eexists _, _, _. by constructor.
  - case_decide; [done|]. destruct (fragments !! name) as [[sels|]|] eqn:Hf.
    + destruct (expand _ _ _) as [o st1] eqn:E1. apply raise_accepts in E as (m' & [= -> _] & Hm'); [|done].
      destruct (Hx _ _ _ _ _ E1 Hm') as (n & k & h & He). eexists _, _, _. by eapply expands_spread.
    + eexists _, _, _. eapply expands_spread; [done|constructor].
    + eexists _, _, _. by apply expands_unknown.
  - eexists _, _, _. constructor.
Qed.
Lemma measure_accepts fuel : forall ss depth st m st',
  measureSelectionSet fuel fragments ss depth st = (Depth m, st') -> m <= maxQueryDepth ->
  exists n k h, expands ss n k h.
Proof.
  induction fuel as [|fuel IH]; intros [sels|] depth st m st'; rewrite measureSelectionSet_eq;
    try (by intros _ _; exists 0, 0, 0%nat; constructor); apply set_accepts, Forall_forall; intros sel _;
    apply visit_accepts; [done|exact IH].
Qed.

(** ** The loop over operations *)

Definition fits (ss : selection_set) (k : Z) : Prop := exists n h, expands ss n k h /\ n <= maxQueryDepth.
Lemma operation_spec fuel ss aliases :
  (size fragments <= fuel)%nat ->
  match measureSelectionSet fuel fragments ss 1 {| visiting := ∅; aliasCount := aliases |} with
  | (Depth depth, st) => if maxQueryDepth <? depth then forall k, ~ fits ss k
                         else forall k, fits ss k <-> k = aliasCount st - aliases
  | (FragmentCycle _, _) => forall k, ~ fits ss k
  | (OutOfFuel, _) => False
  end.
Proof.
  intros Hfuel. set (st0 := {| visiting := ∅; aliasCount := aliases |}).
  assert (unvisited st0 <= fuel)%nat as Hu
    by (unfold unvisited, st0; cbn [visiting]; rewrite difference_empty_L;
        rewrite <-Hfuel; apply Nat.eq_le_incl, (size_dom)).
  assert (forall n k h, expands ss n k h -> agrees 1 n k st0 (measureSelectionSet fuel fragments ss 1 st0)) as Hag.
  { intros n k h He. rewrite measureSelectionSet_eq. apply (proj1 measure_expands _ _ _ _ He); [done|].
    intros v Hv. cbn in Hv. set_solver. }
  pose proof (measure_ends fuel ss 1 st0 Hu) as Hends.
  destruct (measureSelectionSet fuel fragments ss 1 st0) as [[depth|name|] st] eqn:E; [|intros k (n & h & He & _); by apply (Hag n k h)|done].
  destruct (maxQueryDepth <? depth) eqn:Ed; bool_facts.
  - intros k (n & h & He & Hn). specialize (Hag n k h He). cbn [agrees] in Hag.
    rewrite (proj2 (Z.leb_le _ _)) in Hag by lia. lia.
  - assert (forall n k h, expands ss n k h -> n <= maxQueryDepth /\ k = aliasCount st - aliases) as Hk.
    { intros n k h He. specialize (Hag n k h He). cbn [agrees] in Hag. destruct (_ <=? _) eqn:En; bool_facts; [|lia].
      destruct Hag as (_ & _ & Hk). cbn [aliasCount st0] in Hk. lia. }
    destruct (measure_accepts _ _ _ _ _ _ E Ed) as (n & k & h & He). destruct (Hk n k h He) as [Hn ->].
    intros k'. split; [intros (n' & h' & He' & _); by apply (Hk n' k' h')|intros ->; by exists n, h].
Qed.
Definition total (ks : list Z) : Z := foldr Z.add 0 ks.
Lemma check_operations_spec fuel doc : (size fragments <= fuel)%nat -> forall aliases,
  match check_operations fuel fragments doc aliases with
  | Ok sum => exists ks, sum = aliases + total ks /\ forall ks', Forall2 fits (operations doc) ks' <-> ks' = ks
  | Err (CycleDetected _) | Err (DepthExceeds _) => forall ks, ~ Forall2 fits (operations doc) ks
  | Err _ => False
  end.
Proof.
  intros Hfuel. induction doc as [|d doc IH]; intros aliases.
  - exists []. split; [cbn; lia|]. intros ks'. split; [by intros ?%Forall2_nil_inv_l|by intros ->].
  - destruct d as [name ss|ss|]; cbn [check_operations operations omap list_omap]; [apply IH| |apply IH].
    fold (operations doc). pose proof (operation_spec fuel ss aliases Hfuel) as Hop.
    destruct (measureSelectionSet _ _ _ _ _) as [[depth|name|] st]; [|intros ks (k & ks' & H & _)%Forall2_cons_inv_l; by apply (Hop k)|done].
    destruct (maxQueryDepth <? depth); [intros ks (k & ks' & H & _)%Forall2_cons_inv_l; by apply (Hop k)|].
    specialize (IH (aliasCount st)). destruct (check_operations _ _ _ _) as [sum|[]].
    + destruct IH as (ks & -> & Hks). exists ((aliasCount st - aliases) :: ks). cbn [total foldr].
      fold (total ks). split; [lia|]. intros ks'. split.
      * intros (k & ks2 & Hk & Hks2 & ->)%Forall2_cons_inv_l. f_equal; [by apply Hop|by apply Hks].
      * intros ->. constructor; [by apply Hop|by apply Hks].
    + intros ks (k & ks' & _ & H & _)%Forall2_cons_inv_l. by apply (IH ks').
    + intros ks (k & ks' & _ & H & _)%Forall2_cons_inv_l. by apply (IH ks').
    + done.
    + done.
Qed.
End Expansion.

(** C4. The complexity check accepts exactly the queries within the limits: a
    parsed query passes if and only if replacing fragment spreads by their
    fragments comes to an end for each operation (no fragment contains
    itself), no operation nests more than 15 selection sets, and all
    operations together have at most 50 aliased fields after the
    replacement.  The traversal always ends: there is enough fuel. *)
Theorem checkQueryComplexity_spec Parse query doc
    (Hq : query <> []) (Hp : Parse query = Some doc) :
  (checkQueryComplexity Parse query = Ok tt <->
   exists ks, Forall2 (fits (fragments_of doc)) (operations doc) ks /\ total ks <= maxQueryAliases) /\
  checkQueryComplexity Parse query <> Err NoFuel.
Proof.
  unfold checkQueryComplexity. rewrite bool_decide_false, Hp by done. cbn zeta.
  pose proof (check_operations_spec (fragments_of doc) _ doc (le_n _) 0) as Hs.
  destruct (check_operations _ _ _ _) as [sum|e].
  - destruct Hs as (ks & -> & Hks). rewrite Z.add_0_l. destruct (maxQueryAliases <? total ks) eqn:E; bool_facts.
    + split; [split; [done|]|done]. intros (ks' & ->%Hks & Hle). lia.
    + split; [split; [|done]|done]. intros _. exists ks. split; [by apply Hks|done].
  - split; [split; [done|]|by destruct e]. intros (ks & H & _). by destruct e; try destruct (Hs ks).
Qed.
Lemma checkQueryComplexity_spec_witness :
  let doc := [OperationDefinition (Some [FragmentSpread (Some (str "F")); Field (Some (str "b")) None]);
              FragmentDefinition (Some (str "F")) (Some [Field (Some (str "a")) (Some [Field None None])])] in
  exists ks, Forall2 (fits (fragments_of doc)) (operations doc) ks /\ total ks <= maxQueryAliases.
Proof.
  intros doc. apply (checkQueryComplexity_spec (fun _ => Some doc) (str "q") doc); [done|done|by vm_compute].
Defined.

(** ** Work of the check itself *)

(** A chain of fragments, each spreading the next one twice; the last has one
    aliased field.  The query has [n + 1] fragments of two spreads. *)
Definition link (i : nat) : gostr := replicate (S i) "f"%char.
Definition chain_body (n i : nat) : selection_set :=
  if (i <? n)%nat then Some [FragmentSpread (Some (link (S i))); FragmentSpread (Some (link (S i)))]
  else Some [Field (Some (str "a")) None].
Definition chain_fragments (n : nat) : document :=
  (fun i => FragmentDefinition (Some (link i)) (chain_body n i)) <$> seq 0 (S n).
Definition doubling (n : nat) : document :=
  OperationDefinition (Some [FragmentSpread (Some (link 0))]) :: chain_fragments n.

Lemma link_inj i j : link i = link j -> i = j.
Proof. intros E. apply (f_equal length) in E. unfold link in E. rewrite !length_replicate in E. lia. Qed.
Lemma fragments_of_chain n i : (i <= n)%nat -> fragments_of (doubling n) !! link i = Some (chain_body n i).
Proof.
  intros Hi. unfold fragments_of, doubling. cbn [fold_left fragment_step]. unfold chain_fragments.
  assert (forall k, (i < k)%nat -> fold_left fragment_step
    ((fun i => FragmentDefinition (Some (link i)) (chain_body n i)) <$> seq 0 k) ∅ !! link i = Some (chain_body n i)) as H;
    [|apply H; lia].
  induction k as [|k IH]; intros Hk; [lia|].
  rewrite seq_S, fmap_app, fold_left_app. cbn [fmap list_fmap fold_left]. unfold fragment_step at 1.
  rewrite Nat.add_0_l.
  destruct (decide (i = k)) as [->|Hn]; [by rewrite (lookup_insert_eq)|].
  rewrite (lookup_insert_ne) by (intros ?%link_inj; congruence). apply IH. lia.
Qed.
Lemma expands_chain n k i : (i + k = n)%nat ->
  exists h, expands (fragments_of (doubling n)) (chain_body n i) 1 (2 ^ Z.of_nat k) h.
Proof.
  revert i. induction k as [|k IH]; intros i Hi.
  - unfold chain_body. destruct (Nat.ltb_spec i n); [lia|]. eexists. change 1 with (Z.max 1 (Z.max (1 + 0) 0)) at 1.
    constructor. change (2 ^ Z.of_nat 0) with (alias_one (Some (str "a")) + 0 + 0). repeat constructor.
  - destruct (IH (S i) ltac:(lia)) as (h & Hh). unfold chain_body at 1. destruct (Nat.ltb_spec i n); [|lia].
    eexists. change 1 with (Z.max 1 (Z.max 1 (Z.max 1 0))) at 1. constructor.
    replace (2 ^ Z.of_nat (S k)) with (2 ^ Z.of_nat k + (2 ^ Z.of_nat k + 0)) by (rewrite Nat2Z.inj_succ, Z.pow_succ_r; lia).
    repeat econstructor; try (apply fragments_of_chain; lia); done.
Qed.

(** The check itself takes exponential time: on a query of one operation
    and [n + 1] fragments of at most two spreads each, the counter it
    increments one alias at a time ends at [2^n], and only then is the query
    rejected.  The limits do not cut the traversal short. *)
Theorem checkQueryComplexity_doubling Parse query n
    (Hq : query <> []) (Hp : Parse query = Some (doubling n)) (Hn : (6 <= n)%nat) :
  length (doubling n) = (n + 2)%nat /\
  checkQueryComplexity Parse query = Err (AliasesExceed (2 ^ Z.of_nat n)).
Proof.
  split; [cbn; rewrite length_fmap, length_seq; lia|].
  unfold checkQueryComplexity. rewrite bool_decide_false, Hp by done. cbn zeta.
  pose proof (check_operations_spec (fragments_of (doubling n)) _ (doubling n) (le_n _) 0) as Hs.
  destruct (expands_chain n n 0 ltac:(lia)) as (h & Hh).
  assert (operations (doubling n) = [Some [FragmentSpread (Some (link 0))]]) as Eo.
  { unfold doubling, operations, chain_fragments. cbn [omap list_omap]. f_equal.
    generalize (seq 0 (S n)). by induction l. }
  assert (Forall2 (fits (fragments_of (doubling n))) (operations (doubling n)) [2 ^ Z.of_nat n]) as HF.
  { rewrite Eo. repeat constructor. exists (Z.max 1 (Z.max 1 0)), (Nat.max (S h) 0)%nat. split; [|by vm_compute].
    constructor. rewrite <-(Z.add_0_r (2 ^ _)). repeat econstructor; [by apply fragments_of_chain; lia|done]. }
  destruct (check_operations _ _ _ _) as [sum|[]]; try first [done | by destruct (Hs _ HF)].
  destruct Hs as (ks & -> & Hks). apply Hks in HF as <-. cbn [total foldr]. rewrite Z.add_0_r, Z.add_0_l.
  assert (2 ^ 6 <= 2 ^ Z.of_nat n) by (apply Z.pow_le_mono_r; lia).
  by rewrite (proj2 (Z.ltb_lt _ _)) by (unfold maxQueryAliases; lia).
Qed.
Lemma checkQueryComplexity_doubling_witness :
  checkQueryComplexity (fun _ => Some (doubling 60)) (str "q") = Err (AliasesExceed 1152921504606846976).
Proof. apply (checkQueryComplexity_doubling (fun _ => Some (doubling 60)) (str "q") 60); [done|done|lia]. Defined.
