(* ===== verification/Negotiate.v ===== *)
(** * Reading a request: client address, response format, front of the chain

    [common/httputil/detect.go], [server/request.go], the negotiation part of
    [server/error.go], and the middleware of [server/middleware.go] and
    [server/middleware_apitext.go] that looks at the URL. *)

From S2P Require Import Prelude GoStrings GoPath GoNet Paths Http I18n.
#[local] Open Scope go_scope.

(** ** User agents: [detect.go] *)

Definition IsOurCliClient (ua : gostr) : bool := HasPrefix ua (str "ipgaze-cli/").
Definition text_browsers : list gostr :=
  [str "lynx/"; str "w3m/"; str "links "; str "links/"; str "elinks/"; str "browsh/"; str "carbonyl/"; str "netsurf"].
Definition http_tools : list gostr :=
  [str "curl/"; str "wget"; str "httpie/"; str "httpie-go/"; str "libcurl/"; str "python-requests/";
   str "go-http-client/"; str "axios/"; str "node-fetch/"; str "xh/";
   str "mikrotik/"; str "ddclient/"; str "fetch libfetch/"; str "go 1."].
Definition jsonMediaType : gostr := str "application/json".

(** A double quote. *)
Definition dquote : gostr := ["034"%char].
Definition str_of_purge : gostr := dquote ++ str "cache" ++ dquote ++ str ", " ++ dquote ++ str "storage" ++ dquote.

Section Detect.
Context `{UnicodeTables}.
Definition IsTextBrowser (ua : gostr) : bool := let ua := ToLower ua in any (Contains ua) text_browsers.
Definition IsHttpTool (ua : gostr) : bool :=
  if ua =s [] then true else let lower := ToLower ua in any (Contains lower) http_tools.
Definition IsNonInteractiveClient (ua : gostr) : bool :=
  if IsOurCliClient ua then false else if IsTextBrowser ua then false else IsHttpTool ua.

(** ** The format of the answer: [request.go], [error.go] *)

Definition detectClientType (r : request) : gostr :=
  let ua := get r "User-Agent" in
  if IsOurCliClient ua then str "json" else
  let accept := get r "Accept" in
  if Contains accept (str "text/html") then str "html" else
  if Contains accept (str "text/plain") then str "text" else
  if Contains accept (str "application/json") then str "json" else
  if IsTextBrowser ua then str "html" else
  if IsHttpTool ua then str "text" else str "html".
Definition apiResponseFormat (r : request) : gostr :=
  if HasSuffix (r_URL_Path r) (str ".txt") then str "text" else
  if Contains (get r "Accept") (str "text/plain") then str "text" else
  if IsNonInteractiveClient (get r "User-Agent") then str "text" else str "json".
Definition IsNonInteractiveHTTPTool (ua : gostr) : bool := IsHttpTool ua.
Definition apiNotFoundWantsText (r : request) : bool :=
  if HasSuffix (r_URL_Path r) (str ".txt") then true else
  if Contains (get r "Accept") (str "text/plain") then true else
  IsNonInteractiveHTTPTool (get r "User-Agent").
Definition apiHealthWantsText (r : request) : bool :=
  if HasSuffix (r_URL_Path r) (str ".txt") then true else
  let accept := get r "Accept" in
  if Contains accept (str "text/plain") then true else
  if Contains accept (str "text/html") || Contains accept jsonMediaType then false else
  IsNonInteractiveHTTPTool (get r "User-Agent").

(** [Error] is the text the internal error prints as. *)
Record appError := { Error : gostr; Message : gostr; Code : Z; ErrorCode : gostr; ContentType : gostr }.
Definition AsJSON (e : appError) : appError :=
  {| Error := Error e; Message := Message e; Code := Code e; ErrorCode := ErrorCode e; ContentType := jsonMediaType |}.
Definition IsJSON (e : appError) : bool := ContentType e =s jsonMediaType.
Definition ErrorCodeForStatus (code : Z) : gostr :=
  if code =? 400 then str "BAD_REQUEST" else
  if code =? 401 then str "UNAUTHORIZED" else
  if code =? 403 then str "FORBIDDEN" else
  if code =? 404 then str "NOT_FOUND" else
  if code =? 405 then str "METHOD_NOT_ALLOWED" else
  if code =? 409 then str "CONFLICT" else
  if code =? 422 then str "UNPROCESSABLE_ENTITY" else
  if code =? 429 then str "RATE_LIMITED" else
  if code =? 413 then str "PAYLOAD_TOO_LARGE" else
  if code =? 500 then str "SERVER_ERROR" else
  if code =? 502 then str "BAD_GATEWAY" else
  if code =? 503 then str "MAINTENANCE" else str "SERVER_ERROR".
Definition jsonErrorCode (e : appError) : gostr :=
  if ErrorCode e <>s [] then ErrorCode e else ErrorCodeForStatus (Code e).
(** The error that is rendered for a rejection outside a handler. *)
Definition negotiate (r : request) (e : appError) : appError :=
  if HasPrefix (r_URL_Path r) (str "/api/") then
    if negb (apiNotFoundWantsText r) then AsJSON e else e
  else if get r "accept" =s jsonMediaType then AsJSON e else e.
Definition negotiated_error (r : request) (code : Z) (errorCode msg : gostr) : appError :=
  negotiate r {| Error := str "<nil>"; Message := msg; Code := code; ErrorCode := errorCode; ContentType := [] |}.
Definition NotFoundHandler (r : request) : appError :=
  negotiate r {| Error := str "<nil>"; Message := []; Code := 404; ErrorCode := []; ContentType := [] |}.

(** The default text of an error. *)
Definition default_message_key (code : Z) : gostr :=
  if code =? 404 then str "errors.not_found" else
  if code =? 405 then str "errors.method_not_allowed" else
  if code =? 400 then str "errors.bad_request" else
  if code =? 401 then str "errors.unauthorized" else
  if code =? 403 then str "errors.forbidden" else
  if code =? 429 then str "errors.rate_limited" else str "errors.server_error".
Definition RequestIDFromContext (c : req_context) : gostr :=
  match ctx_request_id c with Some id => id | None => [] end.
Definition error_detail (r : request) (e : appError) : gostr :=
  str "server error: request_id=" ++ RequestIDFromContext (r_ctx r) ++
  str " http_status=" ++ Itoa (Code e) ++ str " method=" ++ r_Method r ++ str " path=" ++ r_URL_Path r ++
  str " ip=" ++ r_RemoteAddr r ++ str " internal=" ++ Error e.

(** The cookie that names the build a browser last saw. *)
Definition versionCookieName : gostr := str "ipgaze_build".
Definition version_cookie (stamp : gostr) : cookie :=
  {| c_Name := versionCookieName; c_Value := stamp; c_Path := str "/"; c_Secure := true; c_HttpOnly := false;
     c_SameSite := SameSiteLax; c_MaxAge := 31536000 |}.
Definition applyVersionPurge (r : request) (stamp : gostr) : list effect :=
  (match Cookie r versionCookieName with
   | Some v => if (v <>s []) && (v <>s stamp) then [SetHeader (str "Clear-Site-Data") (str_of_purge)] else []
   | None => []
   end) ++ [SetCookie (version_cookie stamp)].

(** [appHandler.ServeHTTP] on the error of its handler.  [page] renders the
    themed page: [None] when none is installed or the template fails. *)
Definition ServeHTTP (translator : I18NManager) (page : appError -> gostr -> option gostr) (stamp : gostr)
    (logManager : bool) (r : request) (e : appError) : list effect :=
  let logged :=
    if Z.quot (Code e) 100 =? 5 then
      LogPrint (error_detail r e) :: (if logManager then [WriteError (str "error") (error_detail r e)] else [])
    else [] in
  let msg := if Message e =s [] then T translator (r_ctx r) (default_message_key (Code e)) else Message e in
  let plain :=
    (if ContentType e <>s [] then [SetHeader (str "Content-Type") (ContentType e)] else []) ++
    [WriteHeader (Code e);
     if IsJSON e then WriteJSON [(str "ok", JBool false); (str "error", JString (jsonErrorCode e)); (str "message", JString msg)]
     else WriteBody msg] in
  logged ++
  if negb (IsJSON e) && (detectClientType r =s str "html") then
    match page e msg with
    | Some body =>
        [SetHeader (str "Content-Type") (str "text/html; charset=utf-8"); SetHeader (str "Cache-Control") (str "no-store")] ++
        (if stamp <>s [] then [SetHeader (str "ETag") (dquote ++ stamp ++ dquote)] else []) ++
        applyVersionPurge r stamp ++ [WriteHeader (Code e); WriteBody body]
    | None => plain
    end
  else plain.
Definition writeNegotiatedError (translator : I18NManager) (page : appError -> gostr -> option gostr) (stamp : gostr)
    (logManager : bool) (r : request) (code : Z) (errorCode msg : gostr) : list effect :=
  ServeHTTP translator page stamp logManager r (negotiated_error r code errorCode msg).
End Detect.

(** ** The client's address: [request.go] *)

Definition ipFromForwardedForHeader (v : gostr) : gostr :=
  match Index v (str ",") with
  | None => TrimSpace v
  | Some sep => TrimSpace (take sep v)
  end.
Definition header_candidate (r : request) (name : gostr) : gostr :=
  let v := Header_Get (r_Header r) name in
  if CanonicalHeaderKey name =s str "X-Forwarded-For" then ipFromForwardedForHeader v else TrimSpace v.
(** The loop over the trusted headers. *)
Fixpoint first_header (r : request) (headers : list gostr) : gostr :=
  match headers with
  | [] => []
  | name :: rest => let v := header_candidate r name in if v <>s [] then v else first_header r rest
  end.
Inductive ip_error := AddrError (addr : gostr) | CouldNotParse (text : gostr).
Definition ipFromRequest (headers : list gostr) (r : request) (customIP trusted : bool) : result ip_error IP :=
  let remoteIP :=
    if customIP then match assoc (str "ip") (r_Query r) with Some v => v | None => [] end else [] in
  let remoteIP := if (remoteIP =s []) && trusted then first_header r headers else remoteIP in
  let? remoteIP :=
    if remoteIP =s [] then
      match SplitHostPort (r_RemoteAddr r) with
      | None => Err (AddrError (r_RemoteAddr r))
      | Some (host, _) => Ok host
      end
    else Ok remoteIP in
  match ParseIP remoteIP with
  | None => Err (CouldNotParse remoteIP)
  | Some ip => Ok ip
  end.

(** ** Middleware on the URL *)

Section Chain.
Context `{UnicodeTables} (translator : I18NManager) {St : Type}.
(** [u.String()] for the request's URL with another path. *)
Variable url_with_path : request -> gostr -> gostr.
Definition URLNormalizeMiddleware : middleware St := fun next r s =>
  let normalized := NormalizeURLPath (r_URL_Path r) in
  if normalized <>s r_URL_Path r then (s, [Redirect (url_with_path r normalized) 301]) else next r s.
(** [fresh] is the UUID drawn for the request. *)
Definition RequestIDMiddleware (fresh : gostr) : middleware St := fun next r s =>
  let requestID := get r "X-Request-ID" in
  let requestID := if requestID =s [] then fresh else requestID in
  let '(s', es) := next (with_ctx r (set_request_id (r_ctx r) requestID)) s in
  (s', SetHeader (str "X-Request-ID") requestID :: es).
Definition bad_request (r : request) : effect :=
  let lang := DetectLocale r in
  NegotiatedError 400 [] (T translator (WithLang (r_ctx r) lang) (str "errors.bad_request")).
Definition PathSecurityMiddleware : middleware St := fun next r s =>
  if negb (IsPathSafe (r_URL_Path r)) then (s, [bad_request r])
  else if negb (IsPathSafe (r_URL_RawPath r)) && (r_URL_RawPath r <>s []) then (s, [bad_request r])
  else next r s.
(** The first middleware of the chain, in the order [http.go] installs them. *)
Definition front_chain (fresh : gostr) : middleware St := fun next =>
  URLNormalizeMiddleware (RequestIDMiddleware fresh (PathSecurityMiddleware next)).
End Chain.

(** ** Queries in the access log *)

Definition hex_value (c : ascii) : option Z :=
  if between "0" "9" c then Some (code c - 48)
  else if between "a" "f" c then Some (code c - 87)
  else if between "A" "F" c then Some (code c - 55) else None.
(** [url.QueryUnescape]. *)
Fixpoint QueryUnescape (s : gostr) : option gostr :=
  match s with
  | [] => Some []
  | c :: s' =>
      if bool_decide (c = "%"%char) then
        match s' with
        | h :: l :: rest =>
            match hex_value h, hex_value l with
            | Some a, Some b => cons (chr (a * 16 + b)) <$> QueryUnescape rest
            | _, _ => None
            end
        | _ => None
        end
      else cons (if bool_decide (c = "+"%char) then " "%char else c) <$> QueryUnescape s'
  end.
(** [strings.Cut] at an equals sign: what precedes it, and whether there is one. *)
Fixpoint cut_key (s : gostr) : gostr * bool :=
  match s with
  | [] => ([], false)
  | c :: s' => if bool_decide (c = "="%char) then ([], true) else let '(k, b) := cut_key s' in (c :: k, b)
  end.
Definition sensitive_query_keys : list gostr :=
  [str "token"; str "security_id"; str "access_token"; str "api_key"; str "apikey"; str "csrf_token";
   str "password"; str "secret"].

Section LogQuery.
Context `{UnicodeTables}.
Definition isSensitiveLogQueryKey (key : gostr) : bool :=
  bool_decide (ToLower (ReplaceAll key (str "-") (str "_")) ∈ sensitive_query_keys).
Definition sensitive_part (part : gostr) : bool :=
  let '(key, hasValue) := cut_key part in
  match QueryUnescape key with
  | Some decodedKey => isSensitiveLogQueryKey decodedKey && hasValue
  | None => false
  end.
Definition log_part (part : gostr) : gostr :=
  if sensitive_part part then (cut_key part).1 ++ str "=xxxxx" else part.
Definition sanitizeLogQuery (rawQuery : gostr) : gostr :=
  if rawQuery =s [] then [] else Join (log_part <$> Split rawQuery (str "&")) (str "&").
End LogQuery.

(** ** Lemmas *)

Lemma first_header_find r headers :
  first_header r headers =
  match List.find (fun v => v <>s []) (header_candidate r <$> headers) with Some v => v | None => [] end.
Proof.
  induction headers as [|name headers IH]; [done|]. cbn [first_header fmap list_fmap List.find].
  by destruct (header_candidate r name <>s []).
Qed.
Lemma cut_key_app s : exists rest, s = (cut_key s).1 ++ rest /\ ("="%char ∉ (cut_key s).1).
Proof.
  induction s as [|c s (rest & E & Hn)]; [exists []; split; [done|apply not_elem_of_nil]|]. cbn [cut_key]. case_bool_decide as Hc.
  - exists (c :: s). split; [done|]. apply not_elem_of_nil.
  - destruct (cut_key s) as [k b]. cbn [fst] in *. exists rest. split; [cbn; by f_equal|].
    apply not_elem_of_cons. split; [congruence|done].
Qed.
Lemma cut_key_mask k : "="%char ∉ k -> cut_key (k ++ str "=xxxxx") = (k, true).
Proof.
  induction k as [|c k IH]; intros Hn; [done|]. apply not_elem_of_cons in Hn as [Hc Hn]. cbn [app cut_key].
  rewrite bool_decide_false by congruence. by rewrite IH.
Qed.
Lemma log_part_masked `{UnicodeTables} part : sensitive_part (log_part part) = true ->
  log_part part = (cut_key (log_part part)).1 ++ str "=xxxxx".
Proof.
  unfold log_part. destruct (sensitive_part part) eqn:E; [|by rewrite E]. intros _.
  destruct (cut_key_app part) as (rest & _ & Hn). by rewrite cut_key_mask.
Qed.
Lemma log_part_no_amp `{UnicodeTables} part : "&"%char ∉ part -> "&"%char ∉ log_part part.
Proof.
  unfold log_part. destruct (sensitive_part part); [|done]. intros Hn. destruct (cut_key_app part) as (rest & E & _).
  rewrite E in Hn. apply not_elem_of_app in Hn as [Hn _]. apply not_elem_of_app. split; [done|].
  by apply (bool_decide_eq_false_1 _); vm_compute.
Qed.
Lemma split_sanitized `{UnicodeTables} q : q <> [] ->
  Split (sanitizeLogQuery q) (str "&") = log_part <$> Split q (str "&").
Proof.
  intros Hq. unfold sanitizeLogQuery. rewrite bool_decide_false by done.
  change (str "&") with ["&"%char]. rewrite !Split_one, split_on_Join; [done|..].
  - intros E%fmap_nil_inv. by destruct (split_on_nonempty "&"%char q).
  - apply Forall_forall. intros p (p' & -> & Hin)%list_elem_of_fmap. by apply log_part_no_amp, (split_on_no_sep _ q).
Qed.
Lemma safe_no_dotdot `{UnicodeTables} p : IsPathSafe p = true -> dotdot ∉ split_on slash p.
Proof.
  intros Hs Hin. apply negb_true_iff, traversal_no_dotdot in Hs.
  assert (Contains p dotdot = true) as Hc; [|congruence]. apply Contains_true.
  apply list_elem_of_split in Hin as (l1 & l2 & E). rewrite <-(Join_split_on slash p), E. clear.
  induction l1 as [|x l1 (a & b & IH)]; cbn [app].
  - destruct l2 as [|y l2]; [by exists [], []|]. rewrite Join_cons by done. by exists [], ([slash] ++ Join (y :: l2) [slash]).
  - rewrite Join_cons by (by destruct l1). rewrite IH. exists (x ++ [slash] ++ a), b. by rewrite <-!app_assoc.
Qed.

(** ** Theorems *)

(** The address a request is answered for: of the [?ip=] parameter (where
    that is allowed) and the trusted headers (for a trusted peer, the first
    element of X-Forwarded-For), the first that is not empty decides, even
    when it is not an address; the peer address is used only when there is
    none.  For a peer that is not trusted no header matters. *)
Theorem ipFromRequest_spec headers r (customIP trusted : bool) :
  let candidates :=
    (if customIP then match assoc (str "ip") (r_Query r) with Some v => [v] | None => [] end else []) ++
    (if trusted then header_candidate r <$> headers else []) in
  let parse (t : gostr) : result ip_error IP :=
    match ParseIP t with Some ip => Ok ip | None => Err (CouldNotParse t) end in
  ipFromRequest headers r customIP trusted =
    match List.find (fun v => v <>s []) candidates with
    | Some v => parse v
    | None => match SplitHostPort (r_RemoteAddr r) with
              | Some (host, _) => parse host
              | None => Err (AddrError (r_RemoteAddr r))
              end
    end /\
  forall r2, r_RemoteAddr r2 = r_RemoteAddr r -> r_Query r2 = r_Query r ->
    ipFromRequest headers r2 customIP false = ipFromRequest headers r customIP false.
Proof.
  cbn zeta. split; [|intros r2 Ea Eq; unfold ipFromRequest; by rewrite Ea, Eq, !andb_false_r].
  unfold ipFromRequest. rewrite first_header_find, find_app.
  set (custom := if customIP then match assoc _ _ with Some v => v | None => [] end else []).
  assert (List.find (fun v => v <>s [])
    (if customIP then match assoc (str "ip") (r_Query r) with Some v => [v] | None => [] end else []) =
    if custom <>s [] then Some custom else None) as ->.
  { subst custom. destruct customIP; [|done]. destruct (assoc _ _) as [v|]; [|done]. cbn. by destruct (v <>s []). }
  destruct (custom =s []) eqn:Ec; cbn [negb andb].
  - destruct trusted; cbn [List.find].
    + destruct (List.find _ _) as [v|] eqn:Ef.
      * apply find_some in Ef as [_ Hv]. cbn [rbind]. bool_facts. by rewrite bool_decide_false.
      * rewrite bool_decide_true by done. by destruct (SplitHostPort _) as [[]|].
    + rewrite Ec. by destruct (SplitHostPort _) as [[]|].
  - rewrite Ec. done.
Qed.

(** The front of the chain hands on exactly the requests whose path is
    canonical and free of traversal (so no component of the path or of the
    encoded path is ".."), with the request identifier in the context and in
    the answer.  Every other request is answered there, with a redirect to
    the canonical path, which is then not redirected again, or with 400. *)
Theorem front_chain_spec `{UnicodeTables} translator {St} url_with_path fresh (next : handler St) r s :
  let res := front_chain translator url_with_path fresh next r s in
  let path := r_URL_Path r in
  let id := if get r "X-Request-ID" =s [] then fresh else get r "X-Request-ID" in
  if NormalizeURLPath path <>s path then
    res = (s, [Redirect (url_with_path r (NormalizeURLPath path)) 301]) /\
    NormalizeURLPath (NormalizeURLPath path) = NormalizeURLPath path
  else
    if IsPathSafe path && (IsPathSafe (r_URL_RawPath r) || (r_URL_RawPath r =s [])) then
      (let r' := with_ctx r (set_request_id (r_ctx r) id) in
       res = ((next r' s).1, SetHeader (str "X-Request-ID") id :: (next r' s).2)) /\
      (dotdot ∉ split_on slash path) /\ (dotdot ∉ split_on slash (r_URL_RawPath r))
    else exists msg, res = (s, [SetHeader (str "X-Request-ID") id; NegotiatedError 400 [] msg]).
Proof.
  cbn zeta. unfold front_chain, URLNormalizeMiddleware.
  destruct (NormalizeURLPath (r_URL_Path r) <>s r_URL_Path r); [split; [done|apply NormalizeURLPath_idem]|].
  unfold RequestIDMiddleware, PathSecurityMiddleware. cbn [r_URL_Path r_URL_RawPath with_ctx].
  set (id := if _ =s [] then fresh else _). set (r' := with_ctx r _).
  destruct (IsPathSafe (r_URL_Path r)) eqn:Ep; cbn [negb andb]; [|by eexists].
  destruct (IsPathSafe (r_URL_RawPath r)) eqn:Er; cbn [negb andb orb].
  - destruct (next r' s). split_and!; [done|by apply safe_no_dotdot..].
  - destruct (r_URL_RawPath r =s []) eqn:Ee; cbn [negb]; [|by eexists]. bool_facts.
    destruct (next r' s). split_and!; [done|by apply safe_no_dotdot|]. rewrite Ee.
    by apply (bool_decide_eq_false_1 _); vm_compute.
Qed.

(** The query written to the access log has the parameters of the query
    in order, each unchanged or with its value masked: a parameter whose
    decoded name is one of the credential names is logged with the mask for
    value, so the log line does not depend on credentials. *)
Theorem sanitizeLogQuery_masks `{UnicodeTables} q :
  q <> [] ->
  Split (sanitizeLogQuery q) (str "&") = log_part <$> Split q (str "&") /\
  (forall part, part ∈ Split (sanitizeLogQuery q) (str "&") -> sensitive_part part = true ->
     part = (cut_key part).1 ++ str "=xxxxx") /\
  (forall part, part ∈ Split q (str "&") -> sensitive_part part = false -> part ∈ Split (sanitizeLogQuery q) (str "&")).
Proof.
  intros Hq. rewrite split_sanitized by done. split_and!; [done|..].
  - intros part (p & -> & _)%list_elem_of_fmap. apply log_part_masked.
  - intros part Hin Hs. apply list_elem_of_fmap. exists part. split; [|done]. unfold log_part. by rewrite Hs.
Qed.
Lemma sanitizeLogQuery_masks_witness :
  let q := str "a=1&Api%2dKey=s3cret&token&b=2" in
  q <> [] /\ sanitizeLogQuery (H := ascii_tables) q = str "a=1&Api%2dKey=xxxxx&token&b=2" /\
  Split (sanitizeLogQuery (H := ascii_tables) q) (str "&") = log_part (H := ascii_tables) <$> Split q (str "&").
Proof.
  intros q. split_and!; [done|by vm_compute|]. by apply (sanitizeLogQuery_masks (H := ascii_tables) q).
Defined.

(** The status lines and the bodies a run writes. *)
Definition statuses (es : list effect) : list Z :=
  omap (fun e => match e with WriteHeader c => Some c | _ => None end) es.
Definition bodies (es : list effect) : list effect :=
  omap (fun e => match e with WriteBody _ | WriteJSON _ => Some e | _ => None end) es.

(** A rejection is answered exactly once: one status line, with the
    status of the rejection, and one body; it is the JSON envelope with a
    code that is not empty exactly for an API path whose client does not want
    text, or elsewhere for a client that asks for JSON and nothing else.  A
    server error is logged first. *)
Theorem writeNegotiatedError_answers `{UnicodeTables} translator page stamp lm r code errorCode msg :
  let es := writeNegotiatedError translator page stamp lm r code errorCode msg in
  let api := HasPrefix (r_URL_Path r) (str "/api/") in
  let json := if api then negb (apiNotFoundWantsText r) else get r "Accept" =s jsonMediaType in
  statuses es = [code] /\
  (exists text, bodies es =
    if json then [WriteJSON [(str "ok", JBool false);
                             (str "error", JString (if errorCode <>s [] then errorCode else ErrorCodeForStatus code));
                             (str "message", JString text)]]
    else [WriteBody text]) /\
  (500 <= code < 600 -> exists line es', es = LogPrint line :: es').
Proof.
  cbn zeta. unfold writeNegotiatedError, negotiated_error, negotiate.
  change (get r "accept") with (get r "Accept").
  set (json := if HasPrefix (r_URL_Path r) (str "/api/") then negb (apiNotFoundWantsText r)
               else get r "Accept" =s jsonMediaType).
  set (e0 := {| Error := _ |}).
  assert ((if HasPrefix (r_URL_Path r) (str "/api/") then if negb (apiNotFoundWantsText r) then AsJSON e0 else e0
           else if get r "Accept" =s jsonMediaType then AsJSON e0 else e0) = if json then AsJSON e0 else e0) as ->
    by (subst json; by destruct (HasPrefix _ _)).
  unfold ServeHTTP. set (logged := if Z.quot _ _ =? 5 then _ else _).
  assert (statuses logged = [] /\ bodies logged = []) as [Ls Lb]
    by (subst logged; destruct (_ =? 5); [by destruct lm|done]).
  assert (500 <= code < 600 -> exists line es', logged = LogPrint line :: es') as Hl.
  { intros Hc. subst logged. replace (Code (if json then AsJSON e0 else e0)) with code by (by destruct json).
    assert (Z.quot code 100 = 5) as -> by zlia. by eexists _, _. }
  assert (forall es1 es2, statuses (es1 ++ es2) = statuses es1 ++ statuses es2) as Hs by (intros; apply omap_app).
  assert (forall es1 es2, bodies (es1 ++ es2) = bodies es1 ++ bodies es2) as Hb by (intros; apply omap_app).
  rewrite Hs, Hb, Ls, Lb. split_and!; [| |intros (line & es' & ->)%Hl; by eexists _, _].
  - destruct json; [done|]. cbn [IsJSON]. destruct (_ && _); [|done]. destruct (page _ _); [|done].
    rewrite !Hs. unfold applyVersionPurge. rewrite Hs. destruct (stamp <>s []), (Cookie r versionCookieName) as [v|]; try done;
    by destruct (_ && _).
  - destruct json; [by eexists|]. cbn [IsJSON]. destruct (_ && _); [|by eexists]. destruct (page _ _); [|by eexists].
    eexists. rewrite !Hb. unfold applyVersionPurge. rewrite Hb. destruct (stamp <>s []), (Cookie r versionCookieName) as [v|]; try done;
    by destruct (_ && _).
Qed.

(** ** Behaviour that differs from the comments *)

Definition agent_request (headers : header) (path : gostr) : request :=
  {| r_Method := str "GET"; r_Host := str "example.org"; r_URL_Host := []; r_URL_Path := path; r_URL_RawPath := [];
     r_Header := headers; r_Cookies := []; r_Query := []; r_Form := Some []; r_RemoteAddr := str "192.0.2.1:4711";
     r_TLS := false; r_ContentLength := 0; r_ctx := background |}.
(** A client that asks for JSON by its Accept header and sends no agent is
    answered text on an unknown API path, and JSON by the health endpoint. *)
Lemma api_not_found_ignores_accept :
  let r := agent_request {[str "Accept" := [jsonMediaType]]} (str "/api/v1/none") in
  apiNotFoundWantsText (H := ascii_tables) r = true /\ apiHealthWantsText (H := ascii_tables) r = false /\
  IsJSON (NotFoundHandler (H := ascii_tables) r) = false.
Proof. by vm_compute. Qed.
(** An unknown page is not answered in JSON to a browser. *)
Lemma unknown_page_negotiated :
  IsJSON (NotFoundHandler (H := ascii_tables) (agent_request {[str "Accept" := [str "text/html"]]} (str "/server/tor/none"))) = false.
Proof. by vm_compute. Qed.
(** The line of a server error on the process log has the path as the client
    sent it, line breaks included. *)
Lemma error_line_keeps_path `{UnicodeTables} translator page stamp lm r e :
  Z.quot (Code e) 100 = 5 ->
  exists a b es, ServeHTTP translator page stamp lm r e = LogPrint (a ++ r_URL_Path r ++ b) :: es.
Proof.
  intros E. unfold ServeHTTP. rewrite E. unfold error_detail.
  exists (str "server error: request_id=" ++ RequestIDFromContext (r_ctx r) ++ str " http_status=" ++ Itoa (Code e) ++
          str " method=" ++ r_Method r ++ str " path=").
  eexists _, _. cbn [Z.eqb Pos.eqb app]. f_equal. f_equal. by rewrite <-!app_assoc.
Qed.
(** The purge is for one response: a browser that stores the cookie of the
    response is not told to purge again by the same build. *)
Lemma version_purge_once r r2 stamp :
  SetCookie (version_cookie stamp) ∈ applyVersionPurge r stamp /\
  (Cookie r2 versionCookieName = Some stamp -> applyVersionPurge r2 stamp = [SetCookie (version_cookie stamp)]).
Proof.
  split; [unfold applyVersionPurge; apply elem_of_app; right; apply list_elem_of_here|].
  intros E. unfold applyVersionPurge. rewrite E, (bool_decide_true (stamp = stamp)) by done. by rewrite andb_false_r.
Qed.
