(* ===== verification/Limits.v ===== *)
(** * Body limits and response compression: [server/middleware_limits.go] *)

From S2P Require Import Prelude GoStrings GoPath GoNet Paths Http I18n Negotiate.
#[local] Open Scope go_scope.

(** ** Sizes in the configuration *)

Section Size.
Context `{UnicodeTables}.
Definition parseByteSize (v : gostr) : Z :=
  let v := TrimSpace v in
  if v =s [] then 0 else
  let upper := ToUpper v in
  let '(multiplier, digits) :=
    if HasSuffix upper (str "GB") then (1024 * 1024 * 1024, TrimSuffix upper (str "GB"))
    else if HasSuffix upper (str "MB") then (1024 * 1024, TrimSuffix upper (str "MB"))
    else if HasSuffix upper (str "KB") then (1024, TrimSuffix upper (str "KB"))
    else if HasSuffix upper (str "B") then (1, TrimSuffix upper (str "B"))
    else (1, upper) in
  match ParseInt (TrimSpace digits) with
  | None => 0
  | Some n => if n <=? 0 then 0 else int64 (n * multiplier)
  end.
End Size.

(** ** The body limit *)

(** A request body as a reader: the bytes the client sends and the limit of
    [http.MaxBytesReader], if one is installed.  [ReadAll] delivers every byte
    the reader lets through, and whether it stopped at the limit. *)
Record reader := { stream : gostr; limit : option Z }.
Definition MaxBytesReader (body : reader) (n : Z) : reader :=
  {| stream := stream body; limit := Some (match limit body with Some m => Z.min m n | None => n end) |}.
Definition ReadAll (body : reader) : gostr * bool :=
  match limit body with
  | None => (stream body, true)
  | Some n => (take (Z.to_nat n) (stream body), Z.of_nat (length (stream body)) <=? n)
  end.
(** A handler that may read the body. *)
Definition body_handler (St : Type) : Type := request -> reader -> St -> St * list effect.

Definition payload_page : gostr :=
  str "<!DOCTYPE html><html><head><title>413 Payload Too Large</title></head>" ++
  str "<body><h1>413</h1><p>The request body exceeds the maximum allowed size.</p>" ++
  str "<a href=" ++ dquote ++ str "/" ++ dquote ++ str ">Home</a></body></html>".
Definition writePayloadTooLarge `{UnicodeTables} (r : request) : list effect :=
  if detectClientType r =s str "html" then
    [SetHeader (str "Content-Type") (str "text/html; charset=utf-8"); WriteHeader 413; WriteBody payload_page]
  else
    [SetHeader (str "Content-Type") jsonMediaType; WriteHeader 413;
     WriteJSON [(str "ok", JBool false); (str "error", JString (str "PAYLOAD_TOO_LARGE"));
                (str "message", JString (str "Request body exceeds the maximum allowed size"))]].
Definition BodyLimitMiddleware `{UnicodeTables} {St} (maxBytes : Z) (next : body_handler St) : body_handler St :=
  fun r body s =>
  if maxBytes <=? 0 then next r body s
  else if maxBytes <? r_ContentLength r then (s, writePayloadTooLarge r)
  else next r (MaxBytesReader body maxBytes) s.
(** [http.go] installs the limit of [server.limits.max_body_size]. *)
Definition install_body_limit `{UnicodeTables} {St} (maxBodySize : gostr) (next : body_handler St) : body_handler St :=
  let maxBody := parseByteSize maxBodySize in
  if 0 <? maxBody then BodyLimitMiddleware maxBody next else next.

(** ** Compression *)

(** The response as [net/http] keeps it: headers are sent with the first
    status, write or flush and later changes to them are lost. *)
Inductive chunk := Raw (b : gostr) | Gzip (b : gostr) | GzipEnd.
Record response := { hdr : header; sent : option (Z * header); body : list chunk }.
Definition send (status : Z) (w : response) : response :=
  match sent w with
  | Some _ => w
  | None => {| hdr := hdr w; sent := Some (status, hdr w); body := body w |}
  end.
Definition write_chunk (c : chunk) (w : response) : response :=
  let w := send 200 w in {| hdr := hdr w; sent := sent w; body := body w ++ [c] |}.
Definition set_hdr (h : header) (w : response) : response := {| hdr := h; sent := sent w; body := body w |}.
Definition Header_Del (h : header) (name : gostr) : header := delete (CanonicalHeaderKey name) h.
Definition Header_Set (h : header) (name v : gostr) : header := <[CanonicalHeaderKey name := [v]]> h.
Definition Header_Add (h : header) (name v : gostr) : header :=
  <[CanonicalHeaderKey name := default [] (h !! CanonicalHeaderKey name) ++ [v]]> h.

Record gzipResponseWriter := {
  ResponseWriter : response; types : gset gostr; level : Z;
  decided : bool; compress : bool; gz : bool
}.
Definition set_writer (w' : response) (w : gzipResponseWriter) : gzipResponseWriter :=
  {| ResponseWriter := w'; types := types w; level := level w; decided := decided w; compress := compress w; gz := gz w |}.

Section Compression.
Context `{UnicodeTables}.
Definition media_type (ct : gostr) : gostr :=
  let ct := match IndexByte ct ";"%char with Some idx => take idx ct | None => ct end in
  TrimSpace (ToLower ct).
Definition decide_ (w : gzipResponseWriter) : gzipResponseWriter :=
  if decided w then w else
  let h := hdr (ResponseWriter w) in
  if bool_decide (media_type (Header_Get h (str "Content-Type")) ∈ types w) then
    let h := Header_Del h (str "Content-Length") in
    let h := Header_Set h (str "Content-Encoding") (str "gzip") in
    let h := Header_Add h (str "Vary") (str "Accept-Encoding") in
    {| ResponseWriter := set_hdr h (ResponseWriter w); types := types w; level := level w;
       decided := true; compress := true; gz := gz w |}
  else
    {| ResponseWriter := ResponseWriter w; types := types w; level := level w;
       decided := true; compress := compress w; gz := gz w |}.
Definition gz_WriteHeader (status : Z) (w : gzipResponseWriter) : gzipResponseWriter :=
  let w := decide_ w in set_writer (send status (ResponseWriter w)) w.
Definition gz_Write (b : gostr) (w : gzipResponseWriter) : gzipResponseWriter :=
  let w := decide_ w in
  if negb (compress w) then set_writer (write_chunk (Raw b) (ResponseWriter w)) w
  else
    {| ResponseWriter := write_chunk (Gzip b) (ResponseWriter w); types := types w; level := level w;
       decided := decided w; compress := compress w; gz := true |}.
Definition gz_Flush (w : gzipResponseWriter) : gzipResponseWriter :=
  set_writer (send 200 (ResponseWriter w)) w.
Definition gz_Close (w : gzipResponseWriter) : gzipResponseWriter :=
  if gz w then set_writer (write_chunk GzipEnd (ResponseWriter w)) w else w.

Definition acceptsGzip (r : request) : bool :=
  any (fun enc => TrimSpace (hd [] (Split (TrimSpace enc) (str ";"))) =s str "gzip")
    (Split (get r "Accept-Encoding") (str ",")).

(** What a handler does with its writer. *)
Inductive writer_op := OpHeader (name v : gostr) | OpWriteHeader (status : Z) | OpWrite (b : gostr) | OpFlush.
Definition gz_step (w : gzipResponseWriter) (op : writer_op) : gzipResponseWriter :=
  match op with
  | OpHeader name v => set_writer (set_hdr (Header_Set (hdr (ResponseWriter w)) name v) (ResponseWriter w)) w
  | OpWriteHeader status => gz_WriteHeader status w
  | OpWrite b => gz_Write b w
  | OpFlush => gz_Flush w
  end.
Definition plain_step (w : response) (op : writer_op) : response :=
  match op with
  | OpHeader name v => set_hdr (Header_Set (hdr w) name v) w
  | OpWriteHeader status => send status w
  | OpWrite b => write_chunk (Raw b) w
  | OpFlush => send 200 w
  end.

Record CompressionConfig := { Enabled : bool; Level : Z; Types : list gostr }.
Definition compressed_types (cfg : CompressionConfig) : gset gostr :=
  list_to_set (filter (fun t => t <> []) ((fun t => TrimSpace (ToLower t)) <$> Types cfg)).
Definition compression_level (cfg : CompressionConfig) : Z :=
  if (Level cfg <? 1) || (9 <? Level cfg) then -1 else Level cfg.
(** The response a handler produces behind the middleware. *)
Definition CompressionMiddleware (cfg : CompressionConfig) (r : request) (ops : list writer_op) (w : response) : response :=
  let ts := compressed_types cfg in
  if negb (Enabled cfg) || bool_decide (ts = ∅) || negb (acceptsGzip r) then fold_left plain_step ops w
  else
    let gw := {| ResponseWriter := w; types := ts; level := compression_level cfg;
                 decided := false; compress := false; gz := false |} in
    ResponseWriter (gz_Close (fold_left gz_step ops gw)).
End Compression.

(** ** Sizes *)

(** The units a size can be written with, in either case. *)
Definition size_units : list (gostr * Z) :=
  [(str "", 1); (str "B", 1); (str "KB", 2 ^ 10); (str "MB", 2 ^ 20); (str "GB", 2 ^ 30);
   (str "b", 1); (str "kb", 2 ^ 10); (str "mb", 2 ^ 20); (str "gb", 2 ^ 30)].

Lemma digits_no_suffix ds c t : forallb isDigit ds = true -> isDigit c = false -> HasSuffix ds (t ++ [c]) = false.
Proof.
  intros Hd Hc. apply bool_decide_eq_false. intros [pre ->]. rewrite forallb_forall in Hd.
  assert (isDigit c = true); [|congruence]. apply Hd, list_elem_of_In. rewrite !elem_of_app. right; right. apply list_elem_of_here.
Qed.
Lemma digits_no_suffix2 ds c d : forallb isDigit ds = true -> isDigit c = false -> HasSuffix (ds ++ [d]) [c; d] = false.
Proof.
  intros Hd Hc. apply bool_decide_eq_false. intros [pre E]. rewrite forallb_forall in Hd.
  change (pre ++ [c; d]) with (pre ++ [c] ++ [d]) in E. rewrite app_assoc in E. apply app_inv_tail in E as ->.
  assert (isDigit c = true); [|congruence]. apply Hd, list_elem_of_In. rewrite elem_of_app. right. apply list_elem_of_here.
Qed.
(** The switch on the suffix. *)
Definition size_switch (upper : gostr) : Z * gostr :=
  if HasSuffix upper (str "GB") then (1024 * 1024 * 1024, TrimSuffix upper (str "GB"))
  else if HasSuffix upper (str "MB") then (1024 * 1024, TrimSuffix upper (str "MB"))
  else if HasSuffix upper (str "KB") then (1024, TrimSuffix upper (str "KB"))
  else if HasSuffix upper (str "B") then (1, TrimSuffix upper (str "B"))
  else (1, upper).
Lemma suffix_other ds a b c : a <> b -> HasSuffix (ds ++ [a; c]) [b; c] = false.
Proof.
  intros Hab. apply bool_decide_eq_false. intros [pre E].
  change (pre ++ [b; c]) with (pre ++ [b] ++ [c]) in E. change (ds ++ [a; c]) with (ds ++ [a] ++ [c]) in E.
  rewrite !app_assoc in E. apply app_inv_tail, app_inj_tail in E as [_ E]. done.
Qed.
Lemma size_switch_units ds : forallb isDigit ds = true ->
  Forall (fun u => size_switch (ds ++ u.1) = (u.2, ds))
    [(str "", 1); (str "B", 1); (str "KB", 2 ^ 10); (str "MB", 2 ^ 20); (str "GB", 2 ^ 30)].
Proof.
  intros Hd. unfold size_switch. cbn [fst snd].
  assert (forall c, isDigit c = false -> HasSuffix ds [c; "B"%char] = false) as H1
    by (intros c _; exact (digits_no_suffix ds "B"%char [c] Hd eq_refl)).
  repeat constructor; cbn [fst snd].
  - rewrite app_nil_r. change (str "GB") with ["G"; "B"]%char. change (str "MB") with ["M"; "B"]%char.
    change (str "KB") with ["K"; "B"]%char. rewrite !H1 by done.
    change (str "B") with ([] ++ ["B"%char]). by rewrite (digits_no_suffix ds "B"%char [] Hd).
  - change (str "GB") with ["G"; "B"]%char. change (str "MB") with ["M"; "B"]%char. change (str "KB") with ["K"; "B"]%char.
    change (str "B") with ["B"]%char. rewrite !digits_no_suffix2, HasSuffix_app by done. by rewrite TrimSuffix_app.
  - change (str "GB") with ["G"; "B"]%char. change (str "MB") with ["M"; "B"]%char. change (str "KB") with ["K"; "B"]%char.
    rewrite !suffix_other, HasSuffix_app by done. by rewrite TrimSuffix_app.
  - change (str "GB") with ["G"; "B"]%char. change (str "MB") with ["M"; "B"]%char.
    rewrite !suffix_other, HasSuffix_app by done. by rewrite TrimSuffix_app.
  - rewrite HasSuffix_app. by rewrite TrimSuffix_app.
Qed.
Lemma parseByteSize_unit `{UnicodeTables} n unit mult :
  1 <= n <= MaxInt64 -> (unit, mult) ∈ size_units -> parseByteSize (Itoa n ++ unit) = int64 (n * mult).
Proof.
  intros Hn Hu. pose proof (Itoa_digits n ltac:(lia)) as Hd. pose proof (ParseInt_Itoa n ltac:(lia)) as Hp.
  pose proof (digits_visible _ Hd) as Hv.
  assert (Itoa n <> []) as Hne by (intros E; by rewrite E in Hp).
  set (ds := Itoa n) in *. clearbody ds.
  assert (forallb visible unit = true /\ forallb isASCII unit = true /\ size_switch (ds ++ ToUpper unit) = (mult, ds))
    as (Hvu & Ha & Esw).
  { pose proof (size_switch_units ds Hd) as HF. decompose_Forall_hyps. cbn [fst snd] in *.
    repeat (apply elem_of_cons in Hu as [[= -> ->]|Hu]; [by split_and!|]). by apply elem_of_nil in Hu. }
  unfold parseByteSize. rewrite TrimSpace_visible by (by rewrite forallb_app, Hv).
  rewrite bool_decide_false by (by intros [? _]%app_eq_nil). rewrite ToUpper_digits by done.
  fold (size_switch (ds ++ ToUpper unit)). rewrite Esw, TrimSpace_visible, Hp by done.
  by rewrite (proj2 (Z.leb_gt n 0)) by lia.
Qed.

(** ** Theorems *)

(** A configured body limit is enforced: with a size of at most the 64-bit
    range in any unit, a request that declares more is answered 413 without
    reaching the handler, and from any other request the handler can read a
    prefix of the body within the limit, all of it when the body fits. *)
Theorem body_limit_enforced `{UnicodeTables} {St} (next : body_handler St) n unit mult r sent_bytes s
    (Hn : 1 <= n) (Hu : (unit, mult) ∈ size_units) (Hmax : n * mult <= MaxInt64) :
  let run := install_body_limit (Itoa n ++ unit) next in
  let body := {| stream := sent_bytes; limit := None |} in
  if n * mult <? r_ContentLength r then
    run r body s = (s, writePayloadTooLarge r)
  else
    exists body', run r body s = next r body' s /\
      (ReadAll body').1 `prefix_of` sent_bytes /\ Z.of_nat (length (ReadAll body').1) <= n * mult /\
      (Z.of_nat (length sent_bytes) <= n * mult -> ReadAll body' = (sent_bytes, true)).
Proof.
  assert (1 <= mult) as Hm.
  { clear - Hu. unfold size_units in Hu. repeat (apply elem_of_cons in Hu as [[= -> ->]|Hu]; [lia|]).
    by apply elem_of_nil in Hu. }
  assert (1 <= n * mult) as Hpos by nia.
  assert (parseByteSize (Itoa n ++ unit) = n * mult) as E.
  { unfold MaxInt64 in *. rewrite (parseByteSize_unit n unit mult); [|unfold MaxInt64; nia|done].
    unfold int64. rewrite Z.mod_small; lia. }
  cbn zeta. unfold install_body_limit, BodyLimitMiddleware. rewrite E.
  rewrite (proj2 (Z.ltb_lt 0 (n * mult))), (proj2 (Z.leb_gt (n * mult) 0)) by lia.
  destruct (n * mult <? r_ContentLength r) eqn:Ec; bool_facts; [done|].
  eexists. split; [done|]. cbn [ReadAll MaxBytesReader limit stream fst]. split_and!.
  - apply prefix_take.
  - rewrite length_take. lia.
  - intros Hl. rewrite take_ge by lia. by rewrite (proj2 (Z.leb_le _ _)).
Qed.
Lemma body_limit_enforced_witness :
  parseByteSize (H := ascii_tables) (str "2KB") = 2048 /\
  exists body', install_body_limit (H := ascii_tables) (str "2KB") (fun r b s => (s, [Served r])) (bare_request (str "x"))
    {| stream := str "hello"; limit := None |} 7 = (7, [Served (bare_request (str "x"))]) /\
    ReadAll body' = (str "hello", true).
Proof.
  split; [by vm_compute|].
  destruct (body_limit_enforced (H := ascii_tables) (fun r (_ : reader) s => (s, [Served r])) 2 (str "KB") 1024
    (bare_request (str "x")) (str "hello") 7) as (b & Hr & _ & _ & Ha).
  - lia.
  - apply list_elem_of_further, list_elem_of_further, list_elem_of_here.
  - unfold MaxInt64. lia.
  - exists b. split; [exact Hr|]. apply Ha. by vm_compute.
Defined.

(** A size that does not parse, or that leaves the 64-bit range, installs no
    limit at all. *)
Lemma body_limit_dropped {St} (next : body_handler St) :
  install_body_limit (H := ascii_tables) (str "10 mebibytes") next = next /\
  install_body_limit (H := ascii_tables) (str "8589934592GB") next = next.
Proof. split; reflexivity. Qed.

(** ** Compression is consistent *)

(** A flush before anything was written. *)
Fixpoint flushes_first (ops : list writer_op) : bool :=
  match ops with
  | OpHeader _ _ :: ops' => flushes_first ops'
  | OpFlush :: _ => true
  | _ => false
  end.
Definition gzip_chunk (c : chunk) : chunk := match c with Raw b => Gzip b | c => c end.
Definition gzip_headers (h : header) : Prop :=
  Header_Get h (str "Content-Encoding") = str "gzip" /\ h !! CanonicalHeaderKey (str "Content-Length") = None.

Section Run.
Context `{UnicodeTables} (ts : gset gostr) (lvl : Z).
Definition wrap (decided_ compress_ gz_ : bool) (w : response) : gzipResponseWriter :=
  {| ResponseWriter := w; types := ts; level := lvl; decided := decided_; compress := compress_; gz := gz_ |}.
Definition eligible (h : header) : bool := bool_decide (media_type (Header_Get h (str "Content-Type")) ∈ ts).

(** Once compression is refused the writer is transparent. *)
Lemma run_plain ops : forall w, fold_left gz_step ops (wrap true false false w) = wrap true false false (fold_left plain_step ops w).
Proof.
  induction ops as [|op ops IH]; intros w; [done|]. cbn [fold_left].
  destruct op; (etransitivity; [|apply IH]); done.
Qed.
(** Once it is chosen, the body goes through gzip and the rest is the same. *)
Definition compressed_as (gw : gzipResponseWriter) (w : response) : Prop :=
  decided gw = true /\ compress gw = true /\ types gw = ts /\
  gz gw = negb (bool_decide (length (body w) = 0%nat)) /\ body (ResponseWriter gw) = gzip_chunk <$> body w /\
  exists status h h', sent w = Some (status, h) /\ sent (ResponseWriter gw) = Some (status, h') /\
    eligible h = true /\ gzip_headers h'.
Lemma compressed_step gw w op : compressed_as gw w -> compressed_as (gz_step gw op) (plain_step w op).
Proof.
  intros (Hd & Hc & Ht & Hg & Hb & st & h & h' & Hs & Hs' & He & Hh).
  destruct op; cbn [gz_step plain_step]; unfold gz_WriteHeader, gz_Write, gz_Flush, decide_, write_chunk, send, set_writer, set_hdr;
    cbn [hdr sent body ResponseWriter]; rewrite ?Hd, ?Hc; cbn [negb]; rewrite ?Hs, ?Hs';
    cbn [hdr sent body ResponseWriter decided compress types gz];
    (split_and!; [done..| |done| |]) || (split_and!; try done);
    repeat first [done | by exists st, h, h'].
  all: cbn [hdr sent body ResponseWriter]; rewrite ?Hb, ?fmap_app, ?length_app; cbn [length]; try done.
  all: try (rewrite bool_decide_false by lia; done).
  all: by exists st, h, h'.
Qed.
Lemma compressed_run ops : forall gw w, compressed_as gw w ->
  compressed_as (fold_left gz_step ops gw) (fold_left plain_step ops w).
Proof. induction ops as [|op ops IH]; intros gw w Hc; [done|]. by apply IH, compressed_step. Qed.

Definition gzip_header (h : header) : header :=
  Header_Add (Header_Set (Header_Del h (str "Content-Length")) (str "Content-Encoding") (str "gzip"))
    (str "Vary") (str "Accept-Encoding").
Lemma gzip_header_ok h : gzip_headers (gzip_header h).
Proof.
  unfold gzip_headers, gzip_header, Header_Get, Header_Add, Header_Set, Header_Del.
  set (vary := CanonicalHeaderKey (str "Vary")). set (ce := CanonicalHeaderKey (str "Content-Encoding")).
  set (cl := CanonicalHeaderKey (str "Content-Length")).
  assert (vary <> ce /\ vary <> cl /\ ce <> cl) as (H1 & H2 & H3) by (by vm_compute).
  rewrite (lookup_insert_ne _ vary ce), lookup_insert_eq by done. split; [done|].
  rewrite !lookup_insert_ne by done. apply lookup_delete_eq.
Qed.
(** The first status or write decides. *)
Lemma first_write op w :
  sent w = None -> body w = [] -> flushes_first [op] = false -> (forall n v, op <> OpHeader n v) ->
  exists st, sent (plain_step w op) = Some (st, hdr w) /\
  if eligible (hdr w) then compressed_as (gz_step (wrap false false false w) op) (plain_step w op)
  else gz_step (wrap false false false w) op = wrap true false false (plain_step w op).
Proof.
  intros Hs Hb Hf Hop. destruct op as [n v|st|b|]; [by destruct (Hop n v)| | |done].
  - exists st. cbn [plain_step gz_step]. unfold send at 1. rewrite Hs. split; [done|].
    unfold gz_WriteHeader, decide_. cbn [decided wrap ResponseWriter types]. fold (eligible (hdr w)).
    destruct (eligible (hdr w)) eqn:Ee; [|done]. fold (gzip_header (hdr w)).
    unfold send, set_hdr, set_writer. cbn [ResponseWriter sent hdr body]. rewrite Hs. cbn [body]. rewrite Hb.
    unfold compressed_as. cbn [decided compress types gz ResponseWriter body sent length]. split_and!; try done.
    exists st, (hdr w), (gzip_header (hdr w)). split_and!; (done || apply gzip_header_ok).
  - exists 200. cbn [plain_step gz_step]. unfold write_chunk at 1, send. rewrite Hs. split; [done|].
    unfold gz_Write, decide_. cbn [decided wrap ResponseWriter types]. fold (eligible (hdr w)).
    destruct (eligible (hdr w)) eqn:Ee; [|done]. fold (gzip_header (hdr w)).
    unfold write_chunk, send, set_hdr. cbn [ResponseWriter sent hdr body compress negb types gz decided level]. rewrite Hs.
    cbn [body sent hdr]. rewrite Hb.
    unfold compressed_as. cbn [decided compress types gz ResponseWriter body sent length app]. split_and!; try done.
    exists 200, (hdr w), (gzip_header (hdr w)). split_and!; (done || apply gzip_header_ok).
Qed.
Lemma run_undecided ops : flushes_first ops = false -> forall w, sent w = None -> body w = [] ->
  let gw' := fold_left gz_step ops (wrap false false false w) in
  let w' := fold_left plain_step ops w in
  (sent w' = None /\ gw' = wrap false false false w') \/
  exists st h, sent w' = Some (st, h) /\
    if eligible h then compressed_as gw' w' else gw' = wrap true false false w'.
Proof.
  induction ops as [|op ops IH]; intros Hf w Hs Hb; [by left|]. cbn [fold_left].
  destruct op as [n v|st|b|]; [by apply IH| | |done]; right;
    match goal with |- context [plain_step w ?o] =>
      destruct (first_write o w Hs Hb eq_refl ltac:(done)) as (status & Hsent & Hd) end;
    (assert (forall ops w0 x, sent w0 = Some x -> sent (fold_left plain_step ops w0) = Some x) as Hkeep;
      [clear; induction ops as [|op ops IH]; intros w0 x Hx; [done|]; apply IH;
       destruct op; cbn [plain_step]; unfold write_chunk, send, set_hdr; cbn [sent]; by rewrite ?Hx|]);
    exists status, (hdr w); (split; [by apply Hkeep|]); destruct (eligible (hdr w));
    [by apply compressed_run|by rewrite Hd, run_plain|by apply compressed_run|by rewrite Hd, run_plain].
Qed.
End Run.

(** Compression is consistent: unless the handler flushes before it writes,
    the response behind the middleware is the response without it, or, when
    compression is on, the client accepts gzip and the type of the sent
    headers is configured, the same response with its status, its body
    chunks all passed through gzip in order and ended, the encoding declared
    in the headers that were sent, and no declared length. *)
Theorem compression_consistent `{UnicodeTables} cfg r ops w
    (Hs : sent w = None) (Hb : body w = []) (Hf : flushes_first ops = false) :
  let plain := fold_left plain_step ops w in
  let out := CompressionMiddleware cfg r ops w in
  match sent plain with
  | Some (status, h) =>
      if Enabled cfg && acceptsGzip r && eligible (compressed_types cfg) h then
        body out = (gzip_chunk <$> body plain) ++ (if bool_decide (length (body plain) = 0%nat) then [] else [GzipEnd]) /\
        exists h', sent out = Some (status, h') /\ gzip_headers h'
      else out = plain
  | None => out = plain
  end.
Proof.
  cbn zeta. unfold CompressionMiddleware. set (ts := compressed_types cfg).
  destruct (Enabled cfg); cbn [negb orb andb]; [|by destruct (sent (fold_left plain_step ops w)) as [[]|]].
  destruct (acceptsGzip r); cbn [negb]; [rewrite orb_false_r; cbn [andb]|rewrite orb_true_r; by destruct (sent (fold_left plain_step ops w)) as [[]|]].
  case_bool_decide as Et.
  { destruct (sent (fold_left plain_step ops w)) as [[st h]|]; [|done]. unfold eligible. rewrite bool_decide_false; [done|]. rewrite Et. set_solver. }
  pose proof (run_undecided ts (compression_level cfg) ops Hf w Hs Hb) as Hrun. cbn zeta in Hrun. unfold wrap in Hrun.
  set (w' := fold_left plain_step ops w) in *. set (gw := fold_left gz_step ops _) in *.
  destruct Hrun as [[Hn ->]|(st & h & Hs' & Hd)]; [by rewrite Hn|]. rewrite Hs'.
  destruct (eligible ts h); [|by rewrite Hd].
  destruct Hd as (_ & _ & _ & Hg & Hbody & st' & h1 & h' & E1 & E2 & _ & Hh).
  assert (st' = st) as -> by congruence. unfold gz_Close. rewrite Hg.
  case_bool_decide as El; cbn [negb].
  - rewrite app_nil_r. split; [done|by exists h'].
  - unfold set_writer, write_chunk, send. cbn [ResponseWriter]. rewrite E2. cbn [body sent]. rewrite Hbody.
    split; [done|by exists h'].
Qed.
Definition text_response : response :=
  {| hdr := {[str "Content-Type" := [str "text/plain; charset=utf-8"]; str "Content-Length" := [str "5"]]};
     sent := None; body := [] |}.
Lemma compression_consistent_witness :
  let cfg := {| Enabled := true; Level := 6; Types := [str "Text/Plain"] |} in
  let r := agent_request {[str "Accept-Encoding" := [str "br, gzip;q=0.5"]]} (str "/") in
  body (CompressionMiddleware (H := ascii_tables) cfg r [OpWrite (str "he"); OpWrite (str "llo")] text_response) =
  [Gzip (str "he"); Gzip (str "llo"); GzipEnd].
Proof.
  intros cfg r.
  destruct (compression_consistent (H := ascii_tables) cfg r [OpWrite (str "he"); OpWrite (str "llo")] text_response) as [Hb _];
    [done|done|done|exact Hb].
Defined.

(** A flush before the first write sends the headers before the decision:
    the body is compressed and nothing says so. *)
Lemma flush_hides_encoding :
  let cfg := {| Enabled := true; Level := 6; Types := [str "text/plain"] |} in
  let r := agent_request {[str "Accept-Encoding" := [str "gzip"]]} (str "/") in
  let out := CompressionMiddleware (H := ascii_tables) cfg r [OpFlush; OpWrite (str "hello")] text_response in
  body out = [Gzip (str "hello"); GzipEnd] /\
  match sent out with Some (_, h) => Header_Get h (str "Content-Encoding") = [] | None => False end.
Proof. by vm_compute. Qed.
(** A client that refuses gzip with a zero quality is sent gzip. *)
Lemma gzip_refused_is_sent :
  acceptsGzip (agent_request {[str "Accept-Encoding" := [str "gzip;q=0"]]} (str "/")) = true.
Proof. by vm_compute. Qed.
