(* ===== verification/Maintenance.v ===== *)
(** * Maintenance mode: [server/middleware_maintenance.go]

    The operations on the maintenance state, as functions; then the same
    operations cut at their atomic accesses, interleaved with a request that
    reads the flag and the code, as a step relation. *)

From S2P Require Import Prelude GoStrings GoUtf8 GoPath GoNet Paths Http I18n AccessControl Negotiate.
#[local] Open Scope go_scope.

(** ** State and operations *)

Definition maintenanceCodeDatabase : gostr := str "database_connection".
Definition maintenanceCodeDataDir : gostr := str "data_directory_write".

(** [monitor] is whether the [sync.Once] has run, [loops] how many monitor
    goroutines were started. *)
Record maintenanceState := {
  active : bool; code : gostr; reason : gostr; guidance : gostr; monitor : bool; loops : nat
}.
Definition healthy : maintenanceState :=
  {| active := false; code := []; reason := []; guidance := []; monitor := false; loops := 0 |}.

Definition MaintenanceActive (s : maintenanceState) : bool := active s.
Definition MaintenanceReason (s : maintenanceState) : gostr * gostr := (reason s, guidance s).
Definition MaintenanceCode (s : maintenanceState) : gostr := code s.

(** The accesses the operations are made of. *)
Definition set_texts (c re gu : gostr) (s : maintenanceState) : maintenanceState :=
  {| active := active s; code := c; reason := re; guidance := gu; monitor := monitor s; loops := loops s |}.
Definition set_active (b : bool) (s : maintenanceState) : maintenanceState :=
  {| active := b; code := code s; reason := reason s; guidance := guidance s; monitor := monitor s; loops := loops s |}.
Definition StartMaintenanceMonitor (s : maintenanceState) : maintenanceState :=
  if monitor s then s else
  {| active := active s; code := code s; reason := reason s; guidance := guidance s;
     monitor := true; loops := S (loops s) |}.

(** [log]: a log manager is installed. *)
Definition EnterMaintenance (log : bool) (c re gu : gostr) (s : maintenanceState) : maintenanceState * list effect :=
  let s := set_texts c re gu s in
  let was := active s in
  let s := set_active true s in
  if was then (s, []) else
  let es := if log then [WriteError (str "error") (str "entering maintenance mode: " ++ sanitizeLogValue re ++
                                                   str " - " ++ sanitizeLogValue gu)] else [] in
  (StartMaintenanceMonitor s, es).
Definition ExitMaintenance (log : bool) (s : maintenanceState) : maintenanceState * list effect :=
  let was := active s in
  let s := set_active false s in
  if negb was then (s, []) else
  (set_texts [] [] [] s,
   if log then [WriteServer (str "info") (str "leaving maintenance mode: critical condition recovered")] else []).

(** What the probes meet: errors as their texts.  The database is pinged when
    there is one; the data directory is tried when one is set. *)
Record file_probe := {
  open_err : option gostr; write_err : option gostr; close_err : option gostr; remove_err : option gostr
}.
Record probes := { sqlDB : option (option gostr); DataDir : option file_probe }.
(** [errors.Join]: nil without errors, else their texts on lines of their own. *)
Definition errors_Join (errs : list (option gostr)) : option gostr :=
  match omap id errs with [] => None | texts => Some (Join texts ["010"%char]) end.
Definition probeDataDirWritable (p : probes) : option gostr :=
  match DataDir p with
  | None => None
  | Some f =>
      match open_err f with
      | Some err => Some err
      | None => errors_Join [write_err f; close_err f; remove_err f]
      end
  end.
Definition probeCriticalSubsystems (p : probes) : option (gostr * gostr * gostr) :=
  match sqlDB p with
  | Some (Some err) =>
      Some (maintenanceCodeDatabase, str "database connection failed: " ++ err,
            str "Verify the database is reachable and that server.yml's database credentials are correct.")
  | _ =>
      match probeDataDirWritable p with
      | Some err =>
          Some (maintenanceCodeDataDir, str "data directory is not writable: " ++ err,
                str "Check free disk space and the ownership and permissions of the data directory.")
      | None => None
      end
  end.
(** One turn of [maintenanceMonitorLoop]. *)
Definition monitor_tick (log : bool) (p : probes) (s : maintenanceState) : maintenanceState * list effect :=
  match probeCriticalSubsystems p with
  | Some (c, re, gu) =>
      let '(s, es) := EnterMaintenance log c re gu s in
      (s, es ++ if log then [WriteError (str "error") (str "self-healing attempt failed: " ++ sanitizeLogValue re ++
                                                       str " - " ++ sanitizeLogValue gu)] else [])
  | None => ExitMaintenance log s
  end.

(** ** The middleware *)

Definition isReadOnlyMethod (method : gostr) : bool :=
  bool_decide (method ∈ [str "GET"; str "HEAD"; str "OPTIONS"; str "TRACE"]).
Definition maintenance_page : gostr :=
  str "<!DOCTYPE html><html><head><title>503 Maintenance Mode</title></head>" ++
  str "<body><h1>503</h1><p>The server is in read-only maintenance mode. " ++
  str "Please retry shortly.</p><a href=" ++ dquote ++ str "/" ++ dquote ++ str ">Home</a></body></html>".

Section Middleware.
(** [quote] is the verb [%q]. *)
Context `{UnicodeTables} (quote : gostr -> gostr) {St : Type}.
Definition json_field (name value : gostr) : gostr := dquote ++ name ++ dquote ++ str ":" ++ value.
Definition writeMaintenanceRejection (r : request) (c : gostr) : list effect :=
  if detectClientType r =s str "html" then
    [SetHeader (str "Content-Type") (str "text/html; charset=utf-8"); WriteHeader 503; WriteBody maintenance_page]
  else
    let body :=
      str "{" ++ json_field (str "ok") (str "false") ++ str "," ++
      json_field (str "error") (dquote ++ str "MAINTENANCE" ++ dquote) ++ str "," ++
      json_field (str "message") (dquote ++ str "Server is in read-only maintenance mode" ++ dquote) in
    let body :=
      if c <>s [] then
        body ++ str "," ++ json_field (str "details")
          (str "{" ++ json_field (str "reason") (quote c) ++ str "," ++ json_field (str "self_healing") (str "true") ++ str "}")
      else body in
    [SetHeader (str "Content-Type") jsonMediaType; WriteHeader 503; WriteBody (body ++ str "}" ++ ["010"%char])].
(** What is answered once the code was read. *)
Definition reject (r : request) (c : gostr) : list effect :=
  [SetHeader (str "Retry-After") (str "30"); SetHeader (str "X-Maintenance-Mode") (str "true")] ++
  (if c <>s [] then [SetHeader (str "X-Maintenance-Reason") c] else []) ++
  writeMaintenanceRejection r c.
(** [flag] and [c] are the flag and the code at the moments they are read. *)
Definition MaintenanceMiddleware (flag : bool) (c : gostr) : middleware St := fun next r s =>
  if negb flag || isReadOnlyMethod (r_Method r) then next r s else (s, reject r c).
End Middleware.

(** ** Interleaving *)

(** Where a monitor goroutine is: between probes; in [EnterMaintenance] after
    the texts, and after the flag when it was not set before; in
    [ExitMaintenance] after the flag. *)
Inductive monitor_pc := Waiting | Entering | Starting | Exiting.
(** A state-changing request: not yet looked, saw the flag, done. *)
Inductive request_pc := Arrived | SawActive | PassedOn | Rejected (c : gostr).
(** [mons] are the monitor goroutines that run. *)
Record system := { shared : maintenanceState; mons : list monitor_pc; req : request_pc }.
(** The goroutines a call of [StartMaintenanceMonitor] adds. *)
Definition launched (s : maintenanceState) : list monitor_pc :=
  replicate (loops (StartMaintenanceMonitor s) - loops s) Waiting.

Inductive step : system -> system -> Prop :=
(* the call in [http.go], at any time and any number of times *)
| step_assemble s ms rq :
    step {| shared := s; mons := ms; req := rq |}
         {| shared := StartMaintenanceMonitor s; mons := ms ++ launched s; req := rq |}
| step_fail s ms rq i p c re gu : ms !! i = Some Waiting -> probeCriticalSubsystems p = Some (c, re, gu) ->
    step {| shared := s; mons := ms; req := rq |}
         {| shared := set_texts c re gu s; mons := <[i := Entering]> ms; req := rq |}
| step_enter s ms rq i : ms !! i = Some Entering ->
    step {| shared := s; mons := ms; req := rq |}
         {| shared := set_active true s; mons := <[i := if active s then Waiting else Starting]> ms; req := rq |}
| step_restart s ms rq i : ms !! i = Some Starting ->
    step {| shared := s; mons := ms; req := rq |}
         {| shared := StartMaintenanceMonitor s; mons := <[i := Waiting]> ms ++ launched s; req := rq |}
| step_pass s ms rq i p : ms !! i = Some Waiting -> probeCriticalSubsystems p = None ->
    step {| shared := s; mons := ms; req := rq |}
         {| shared := set_active false s; mons := <[i := if active s then Exiting else Waiting]> ms; req := rq |}
| step_exit s ms rq i : ms !! i = Some Exiting ->
    step {| shared := s; mons := ms; req := rq |}
         {| shared := set_texts [] [] [] s; mons := <[i := Waiting]> ms; req := rq |}
| step_look s ms :
    step {| shared := s; mons := ms; req := Arrived |}
         {| shared := s; mons := ms; req := if MaintenanceActive s then SawActive else PassedOn |}
| step_code s ms :
    step {| shared := s; mons := ms; req := SawActive |}
         {| shared := s; mons := ms; req := Rejected (MaintenanceCode s) |}.
Definition start : system := {| shared := healthy; mons := []; req := Arrived |}.
Abbreviation reachable := (rtc step start).

(** ** Lemmas *)

Definition is_code (c : gostr) : Prop := c = maintenanceCodeDatabase \/ c = maintenanceCodeDataDir.
Lemma probe_code p c re gu : probeCriticalSubsystems p = Some (c, re, gu) -> is_code c.
Proof.
  unfold probeCriticalSubsystems. destruct (sqlDB p) as [[err|]|]; [intros [= <- _ _]; by left|..];
    (destruct (probeDataDirWritable p); [|done]; intros [= <- _ _]; by right).
Qed.
Lemma is_code_nonempty c : is_code c -> c <> [].
Proof. by intros [->| ->]. Qed.

(** The invariant of the interleaving: the monitors there are, and what the
    place of the one monitor says about the flag and the code. *)
Definition one_monitor (s : maintenanceState) (ms : list monitor_pc) : Prop :=
  length ms = loops s /\ loops s = if monitor s then 1%nat else 0%nat.
Definition pc_consistent (s : maintenanceState) (m : monitor_pc) : Prop :=
  match m with
  | Waiting => active s = false -> code s = []
  | Entering => is_code (code s)
  | Starting => active s = true
  | Exiting => active s = false
  end.
Record consistent (sys : system) : Prop := {
  cons_code : code (shared sys) = [] \/ is_code (code (shared sys));
  cons_active : active (shared sys) = true -> is_code (code (shared sys));
  cons_none : mons sys = [] -> active (shared sys) = false /\ code (shared sys) = [];
  cons_pc : Forall (pc_consistent (shared sys)) (mons sys);
  cons_rejected c : req sys = Rejected c -> c = [] \/ is_code c;
  cons_one : one_monitor (shared sys) (mons sys)
}.
Lemma launched_running s : monitor s = true -> launched s = [] /\ StartMaintenanceMonitor s = s.
Proof. intros Hm. unfold launched, StartMaintenanceMonitor. rewrite Hm, Nat.sub_diag. done. Qed.
Lemma one_monitor_cases s ms : one_monitor s ms ->
  monitor s = false /\ ms = [] /\ loops s = 0%nat \/ monitor s = true /\ (exists m, ms = [m]) /\ loops s = 1%nat.
Proof.
  intros [Hlen Hl]. destruct (monitor s); rewrite Hl in Hlen; [right|left].
  - destruct ms as [|m [|]]; try done. eauto.
  - by destruct ms.
Qed.
(** A call of [StartMaintenanceMonitor] makes one monitor of none, and leaves one alone. *)
Lemma assemble_consistent s ms rq :
  consistent {| shared := s; mons := ms; req := rq |} ->
  consistent {| shared := StartMaintenanceMonitor s; mons := ms ++ launched s; req := rq |}.
Proof.
  intros [H1 H2 H3 H4 H5 H6]. cbn in *. destruct (one_monitor_cases s ms H6) as [(Hm & -> & Hl)|(Hm & _ & _)].
  - destruct (H3 eq_refl) as [Ha Hc]. unfold launched, StartMaintenanceMonitor. rewrite Hm, Hl. cbn.
    split; cbn; rewrite ?Ha; try done. apply Forall_singleton. by intros _.
  - destruct (launched_running s Hm) as [-> ->]. by rewrite app_nil_r.
Qed.
(** The move of a monitor to another place. *)
Lemma move_consistent s s' ms rq i m m' :
  consistent {| shared := s; mons := ms; req := rq |} -> ms !! i = Some m ->
  monitor s' = monitor s -> loops s' = loops s ->
  (code s' = [] \/ is_code (code s')) -> (active s' = true -> is_code (code s')) -> pc_consistent s' m' ->
  consistent {| shared := s'; mons := <[i := m']> ms; req := rq |}.
Proof.
  intros [H1 H2 H3 H4 H5 H6] Hi Em El Hc Ha Hp. cbn in *.
  destruct (one_monitor_cases s ms H6) as [(_ & -> & _)|(Hm & (n & ->) & Hl)]; [done|].
  destruct i as [|i]; [|by destruct i]. cbn. split; cbn; try done.
  - by apply Forall_singleton.
  - unfold one_monitor. by rewrite El, Em, Hm, Hl.
Qed.
Lemma consistent_start : consistent start.
Proof. split; try done; by left. Qed.
Lemma consistent_step sys sys' : consistent sys -> step sys sys' -> consistent sys'.
Proof.
  intros Hcon Hstep. pose proof Hcon as [H1 H2 H3 H4 H5 H6].
  destruct Hstep as [s ms rq|s ms rq i p c re gu Hi Hp|s ms rq i Hi|s ms rq i Hi|s ms rq i p Hi Hp|s ms rq i Hi|s ms|s ms];
    cbn [shared mons req] in *;
    try (assert (forall m, ms !! i = Some m -> pc_consistent s m) as Hpc by (intros m; by apply Forall_lookup_1);
         specialize (Hpc _ Hi); cbn in Hpc).
  - by apply assemble_consistent.
  - apply probe_code in Hp. eapply move_consistent; try done; cbn; by auto.
  - eapply move_consistent; try done; cbn; [by auto..|]. by destruct (active s).
  - assert (monitor s = true) as Hm.
    { destruct (one_monitor_cases s ms H6) as [(_ & -> & _)|(? & _)]; done. }
    destruct (launched_running s Hm) as [-> ->]. rewrite app_nil_r.
    eapply move_consistent; try done; cbn. congruence.
  - eapply move_consistent; try done; cbn. destruct (active s); [done|by auto].
  - eapply move_consistent; try done; cbn; [by left|congruence].
  - split; try done. cbn. by destruct (MaintenanceActive s).
  - split; try done. cbn. intros c [= <-]. exact H1.
Qed.
Lemma consistent_reachable sys : reachable sys -> consistent sys.
Proof.
  intros Hr. assert (forall a b, rtc step a b -> consistent a -> consistent b) as H; [|apply (H _ _ Hr), consistent_start].
  induction 1; [done|]. eauto using consistent_step.
Qed.

(** A turn of the loop is a run of the atomic steps. *)
Lemma tick_steps log p s rq : monitor s = true ->
  rtc step {| shared := s; mons := [Waiting]; req := rq |}
           {| shared := (monitor_tick log p s).1; mons := [Waiting]; req := rq |}.
Proof.
  intros Hm. unfold monitor_tick. destruct (probeCriticalSubsystems p) as [[[c re] gu]|] eqn:Ep.
  - eapply rtc_l; [by eapply (step_fail _ _ _ 0)|]. eapply rtc_l; [by apply (step_enter _ _ _ 0)|].
    unfold EnterMaintenance. cbn [active set_texts]. destruct (active s); [done|].
    set (s' := set_active true _). assert (monitor s' = true) as Hm' by done.
    eapply rtc_l; [by apply (step_restart _ _ _ 0)|].
    destruct (launched_running s' Hm') as [-> ->]. done.
  - eapply rtc_l; [by eapply (step_pass _ _ _ 0)|]. unfold ExitMaintenance.
    destruct (active s) eqn:Ea; cbn [negb fst]; [|done].
    eapply rtc_l; [by apply (step_exit _ _ _ 0)|]. done.
Qed.
Lemma tick_state log p s : (active s = false -> (code s, reason s, guidance s) = ([], [], [])) ->
  let s' := (monitor_tick log p s).1 in
  (active s', (code s', reason s', guidance s')) =
    match probeCriticalSubsystems p with Some texts => (true, texts) | None => (false, ([], [], [])) end /\
  (loops s' = if monitor s then loops s else if active s' && negb (active s) then S (loops s) else loops s) /\
  (monitor s = true -> monitor s' = true).
Proof.
  intros Hs. unfold monitor_tick. destruct (probeCriticalSubsystems p) as [[[c re] gu]|].
  - unfold EnterMaintenance. cbn [active set_texts]. destruct (active s) eqn:Ea; cbn [fst].
    + cbn. by destruct (monitor s).
    + unfold StartMaintenanceMonitor. cbn [monitor set_active set_texts].
      destruct (monitor s) eqn:Em; cbn; rewrite ?Em; split_and!; (done || congruence).
  - unfold ExitMaintenance. destruct (active s) eqn:Ea; cbn [fst negb]; cbn.
    + by destruct (monitor s).
    + rewrite Hs by done. by destruct (monitor s).
Qed.

(** ** Theorems *)

(** C12. However the atomic accesses of the monitor, of requests and of the
    calls of [StartMaintenanceMonitor] interleave, from the state before any
    monitor runs: at most one monitor goroutine runs, and one does as soon as
    [StartMaintenanceMonitor] was called; an active flag has a reason code;
    while no monitor is in the middle of a turn there is a code exactly when
    the flag is set; and a rejected request was told a known code or (when
    the server recovered in between) none. *)
Theorem maintenance_consistent sys (Hr : reachable sys) :
  length (mons sys) = (if monitor (shared sys) then 1%nat else 0%nat) /\
  (active (shared sys) = true -> is_code (code (shared sys))) /\
  (Forall (fun m => m = Waiting) (mons sys) -> (active (shared sys) = true <-> code (shared sys) <> [])) /\
  (forall c, req sys = Rejected c -> c = [] \/ is_code c).
Proof.
  destruct (consistent_reachable sys Hr) as [H1 H2 H3 H4 H5 H6]. split_and!; [by destruct H6; congruence|done| |done].
  intros Hw. split; [intros Ha; by apply is_code_nonempty, H2|].
  intros Hc. destruct (active (shared sys)) eqn:Ea; [done|]. destruct Hc.
  destruct (mons sys) as [|m ms]; [by apply H3|].
  apply Forall_cons in Hw as [-> _]. apply Forall_cons in H4 as [Hp _]. by apply Hp.
Qed.
Lemma maintenance_consistent_witness :
  let p := {| sqlDB := Some (Some (str "refused")); DataDir := None |} in
  let s := (monitor_tick false p (StartMaintenanceMonitor healthy)).1 in
  active s = true /\ is_code (code s) /\ length [Waiting] = 1%nat.
Proof.
  intros p s.
  assert (reachable {| shared := s; mons := [Waiting]; req := Arrived |}) as Hr.
  { eapply rtc_l; [apply step_assemble|]. apply (tick_steps false p (StartMaintenanceMonitor healthy) Arrived eq_refl). }
  split; [reflexivity|]. destruct (maintenance_consistent _ Hr) as (Hlen & Hcode & _).
  split; [by apply Hcode|exact Hlen].
Defined.

(** Maintenance mode follows the probes: after any turns of the monitor
    the state is what the last probe says (active with the texts of the
    failed subsystem, or healthy without texts), no further monitor was
    started, and a state-changing request is answered 503 without reaching
    the handler exactly when that probe failed, while read-only methods
    always pass. *)
Theorem maintenance_follows_probes `{UnicodeTables} quote {St} log ps p (next : handler St) r st :
  let turn s p := (monitor_tick log p s).1 in
  let s := fold_left turn (ps ++ [p]) (StartMaintenanceMonitor healthy) in
  (active s, (code s, reason s, guidance s)) =
    match probeCriticalSubsystems p with Some texts => (true, texts) | None => (false, ([], [], [])) end /\
  loops s = 1%nat /\
  MaintenanceMiddleware quote (MaintenanceActive s) (MaintenanceCode s) next r st =
    match probeCriticalSubsystems p with
    | Some (c, _, _) =>
        if isReadOnlyMethod (r_Method r) then next r st
        else (st, [SetHeader (str "Retry-After") (str "30"); SetHeader (str "X-Maintenance-Mode") (str "true");
                   SetHeader (str "X-Maintenance-Reason") c] ++ writeMaintenanceRejection quote r c)
    | None => next r st
    end.
Proof.
  cbn zeta. set (turn := fun s p => (monitor_tick log p s).1).
  assert (forall ps s, monitor s = true -> loops s = 1%nat ->
    (active s = false -> (code s, reason s, guidance s) = ([], [], [])) ->
    let s' := fold_left turn ps s in
    monitor s' = true /\ loops s' = 1%nat /\ (active s' = false -> (code s', reason s', guidance s') = ([], [], []))) as Hrun.
  { clear ps p. induction ps as [|p ps IH]; intros s Hm Hl Hs; [done|]. apply IH; subst turn; cbn beta;
      destruct (tick_state log p s Hs) as (E & El & Em); [by apply Em|by rewrite El, Hm|].
    intros Ha. rewrite Ha in E. destruct (probeCriticalSubsystems p); congruence. }
  destruct (Hrun ps (StartMaintenanceMonitor healthy) eq_refl eq_refl (fun _ => eq_refl)) as (Hm & Hl & Hs).
  rewrite fold_left_app. cbn [fold_left]. set (s0 := fold_left turn ps _) in *.
  destruct (tick_state log p s0 Hs) as (E & El & _). fold (turn s0 p) in E, El. set (s := turn s0 p) in *.
  rewrite Hm in El. split_and!; [done|congruence|].
  unfold MaintenanceMiddleware, MaintenanceActive, MaintenanceCode, reject.
  destruct (probeCriticalSubsystems p) as [[[c re] gu]|] eqn:Ep; injection E as Ea Ec _ _; rewrite Ea, Ec; [|done].
  cbn [negb orb]. destruct (isReadOnlyMethod _); [done|].
  rewrite bool_decide_false by (by eapply is_code_nonempty, probe_code). done.
Qed.
