(* ===== verification/AccessPolicy.v ===== *)
(** * The access chain of the server

    The middleware between the headers and the logging in the order
    [server/http.go] installs them: client address, allowlist, blocklist, rate
    limiter (when there is one), maintenance gate, country filter.  The state
    is the rate limiter, the only thing the chain changes. *)

From S2P Require Import Prelude GoStrings GoUtf8 GoPath GoNet Paths Http Netutil I18n AccessControl RateLimit Negotiate Maintenance.
#[local] Open Scope go_scope.

Section Chain.
Context `{TokenBucket} `{UnicodeTables} (translator : I18NManager) (quote : gostr -> gostr).

(** What one passage through the chain meets: whether a limiter is installed
    and has a hook, the time, and the maintenance flag and code as read. *)
Record passage := { p_limited : bool; p_hook : bool; p_now : Z; p_maintenance : bool; p_code : gostr }.

Definition access_chain (cfg : access_config) (p : passage) : middleware RateLimiter := fun next =>
  ClientIPMiddleware (a_trust cfg)
    (AllowlistMiddleware (a_allowlist cfg)
      (BlocklistMiddleware translator (a_blocklist cfg)
        ((if p_limited p then RateLimitMiddleware translator (p_hook p) (p_now p) else fun n => n)
          (MaintenanceMiddleware quote (p_maintenance p) (p_code p)
            (GeoIPMiddleware translator (a_geo cfg) (a_deny cfg) (a_allow cfg) next))))).

(** ** The policy *)

(** Questions about the client address of a request; no address is on no list. *)
Definition client_is (cfg : access_config) (q : IP -> bool) (r : request) : bool :=
  match client_address cfg r with Some ip => q ip | None => false end.
Definition exempt (cfg : access_config) : request -> bool := client_is cfg (on (a_allowlist cfg)).
Definition listed (cfg : access_config) : request -> bool :=
  client_is cfg (fun ip => negb (isPrivateIP ip) && on (a_blocklist cfg) ip).
Definition foreign (cfg : access_config) : request -> bool :=
  client_is cfg (fun ip => negb (isPrivateIP ip) && country_refused cfg ip).
(** What the limiter answers; an exempt client is not asked about. *)
Definition limiter_answer (cfg : access_config) (p : passage) (r : request) (rl : RateLimiter) : RateLimiter * bool :=
  if p_limited p && negb (exempt cfg r)
  then AllowClass rl (GetClientIdentifier r (trust rl)) (classifyRequest r) (p_now p) else (rl, true).

Inductive verdict := OnBlocklist | OverLimit | ReadOnly | WrongCountry | Admit.
Definition policy (cfg : access_config) (p : passage) (ok : bool) (r : request) : verdict :=
  if listed cfg r && negb (exempt cfg r) then OnBlocklist
  else if negb ok then OverLimit
  else if p_maintenance p && negb (isReadOnlyMethod (r_Method r)) then ReadOnly
  else if foreign cfg r && negb (exempt cfg r) then WrongCountry
  else Admit.

(** An answer given instead of the handler's. *)
Definition answered (status : Z) (rl : RateLimiter) (res : RateLimiter * list effect) : Prop :=
  res.1 = rl /\ served res.2 = [] /\ WriteHeader status ∈ res.2.

(** ** Lemmas *)

(** The middleware in front of the chain hands on requests whose context the
    access middleware has not written to. *)
Lemma front_chain_unmarked {St} url_with_path fresh (next : handler St) r s :
  unmarked (r_ctx r) ->
  (exists es, front_chain translator url_with_path fresh next r s = (s, es) /\ served es = []) \/
  (exists r' es, front_chain translator url_with_path fresh next r s = ((next r' s).1, es ++ (next r' s).2) /\
     unmarked (r_ctx r')).
Proof.
  intros Hu. unfold front_chain, URLNormalizeMiddleware. destruct (_ <>s _); [left; by eexists|].
  unfold RequestIDMiddleware, PathSecurityMiddleware. cbn zeta. set (r' := with_ctx r _).
  destruct (negb (IsPathSafe (r_URL_Path r'))); [left; by eexists|].
  destruct (_ && _); [left; by eexists|]. right. exists r'.
  destruct (next r' s) as [s' es]. by eexists [_].
Qed.

Lemma Maintenance_decision {St} p (next : handler St) r s :
  MaintenanceMiddleware quote (p_maintenance p) (p_code p) next r s =
  if p_maintenance p && negb (isReadOnlyMethod (r_Method r)) then (s, reject quote r (p_code p)) else next r s.
Proof. unfold MaintenanceMiddleware. by destruct (p_maintenance p), (isReadOnlyMethod _). Qed.
Lemma reject_answers r c rl : answered 503 rl (rl, reject quote r c).
Proof.
  unfold answered, reject, writeMaintenanceRejection. cbn [fst snd].
  destruct (c <>s []), (detectClientType r =s str "html"); (split_and!; [done|done|set_solver]).
Qed.

(** The marks of a request that has passed the client address and the
    allowlist middleware. *)
Definition marked (cfg : access_config) (r r' : request) : Prop :=
  (exists c, r' = with_ctx r c) /\ extractIP r' = client_address cfg r /\ ctx_tor (r_ctx r') = false /\
  ctx_allowlisted (r_ctx r') = exempt cfg r.
Lemma marks_decision {St} cfg (next : handler St) r s :
  unmarked (r_ctx r) -> IsTorRequest r (a_trust cfg) = false ->
  exists r', ClientIPMiddleware (a_trust cfg) (AllowlistMiddleware (a_allowlist cfg) next) r s = next r' s /\
    marked cfg r r'.
Proof.
  intros Hu Hclear. destruct (ClientIP_decision cfg (AllowlistMiddleware (a_allowlist cfg) next) r s Hu)
    as (c & -> & Htor & Hal & Hip).
  rewrite Allowlist_decision, Hip. cbn [r_ctx with_ctx]. rewrite Htor, Hclear. cbn [negb andb].
  eexists. split; [done|]. unfold marked, exempt, client_is.
  destruct (client_address cfg r) as [ip|]; [destruct (on _ ip)|]; by eauto 8.
Qed.
End Chain.

Section Decision.
Context `{TokenBucket} `{UnicodeTables} (translator : I18NManager) (quote : gostr -> gostr).
Variables (cfg : access_config) (p : passage).

(** The stages on a marked request. *)
Lemma country_stage next r r' rl :
  marked cfg r r' ->
  let res := GeoIPMiddleware translator (a_geo cfg) (a_deny cfg) (a_allow cfg) next r' rl in
  if foreign cfg r && negb (exempt cfg r) then refusal (rl : RateLimiter) res
  else exists c, res = next (with_ctx r c) rl.
Proof.
  intros ((c & ->) & Hip & _ & Hal). pose proof (GeoIP_decision translator cfg next (with_ctx r c) rl) as Hg.
  cbn zeta in *. rewrite Hip, Hal, andb_comm in Hg. unfold foreign, client_is. destruct (_ && _); [done|by eauto].
Qed.
Lemma blocklist_stage (next : handler RateLimiter) r r' rl :
  marked cfg r r' ->
  let res := BlocklistMiddleware translator (a_blocklist cfg) next r' rl in
  if listed cfg r && negb (exempt cfg r) then refusal rl res else res = next r' rl.
Proof.
  intros (_ & Hip & Htor & Hal). pose proof (Blocklist_decision translator cfg next r' rl) as Hb.
  cbn zeta in *. rewrite Hip, Hal, Htor, andb_true_r, andb_comm in Hb. exact Hb.
Qed.
Lemma limiter_stage (next : handler RateLimiter) r r' rl :
  marked cfg r r' ->
  let res := (if p_limited p then RateLimitMiddleware translator (p_hook p) (p_now p) else fun n => n) next r' rl in
  let '(rl', ok) := limiter_answer cfg p r rl in
  if ok then res = next r' rl' else answered 429 rl' res.
Proof.
  intros ((c & ->) & _ & _ & Hal). unfold limiter_answer. destruct (p_limited p); [|done].
  unfold RateLimitMiddleware, IsAllowlisted, getClientIP. rewrite Hal. destruct (exempt cfg r); [done|].
  cbn [negb andb]. change (GetClientIdentifier (with_ctx r c)) with (GetClientIdentifier r).
  change (classifyRequest (with_ctx r c)) with (classifyRequest r).
  destruct (AllowClass rl _ _ _) as [rl' []]; [done|].
  unfold answered, too_many. destruct (p_hook p); cbn [fst snd]; (split_and!; [done|done|set_solver]).
Qed.
End Decision.

(** ** Theorems *)

(** C1. A request that did not come over a hidden service is decided by the
    access chain, in the order the server installs it, exactly as [policy]
    says, on one client address that is resolved once: a blocklisted address
    is refused with 403 before the rate limiter is asked; then the limiter,
    which is charged once for the client's identifier, refuses with 429; then
    the maintenance gate refuses state-changing methods with 503; then the
    country filter refuses with 403; every other request reaches the handler
    unchanged except for its context.  Allowlisted clients skip both address
    filters and are not charged, but not the maintenance gate; private addresses are never
    refused by an address filter; a refused request never reaches the handler. *)
Theorem access_chain_decision `{TokenBucket} `{UnicodeTables} translator quote cfg p (next : handler RateLimiter) r rl
    (Hfresh : unmarked (r_ctx r)) (Hclear : IsTorRequest r (a_trust cfg) = false) :
  let res := access_chain translator quote cfg p next r rl in
  let '(rl', ok) := limiter_answer cfg p r rl in
  match policy cfg p ok r with
  | OnBlocklist => refusal rl res
  | OverLimit => answered 429 rl' res
  | ReadOnly => answered 503 rl' res
  | WrongCountry => refusal rl' res
  | Admit => exists c, res = next (with_ctx r c) rl'
  end.
Proof.
  cbn zeta. unfold access_chain.
  match goal with |- context [AllowlistMiddleware _ ?n] =>
    destruct (marks_decision cfg n r rl Hfresh Hclear) as (r' & -> & Hm) end.
  pose proof (blocklist_stage translator cfg
    ((if p_limited p then RateLimitMiddleware translator (p_hook p) (p_now p) else fun n => n)
       (MaintenanceMiddleware quote (p_maintenance p) (p_code p)
          (GeoIPMiddleware translator (a_geo cfg) (a_deny cfg) (a_allow cfg) next))) r r' rl Hm) as Hb.
  pose proof (limiter_stage translator cfg p
    (MaintenanceMiddleware quote (p_maintenance p) (p_code p)
       (GeoIPMiddleware translator (a_geo cfg) (a_deny cfg) (a_allow cfg) next)) r r' rl Hm) as Hl.
  cbn zeta in Hb, Hl. destruct (limiter_answer cfg p r rl) as [rl' ok]. unfold policy.
  destruct (listed cfg r && negb (exempt cfg r)); [done|]. rewrite Hb.
  destruct ok; [|done]. cbn [negb]. rewrite Hl, Maintenance_decision.
  assert (r_Method r' = r_Method r) as -> by (by destruct Hm as ((c & ->) & _)).
  destruct (_ && _); [apply reject_answers|].
  pose proof (country_stage translator cfg next r r' rl' Hm) as Hc. cbn zeta in Hc.
  by destruct (_ && _).
Qed.

(** One request, with a limiter of one request a minute. *)
Definition one_a_minute : RateLimiter (H := ExactBucket.exact) :=
  NewRateLimiter {| Read := per_minute 1; Write := per_minute 1; Health := per_minute 1; Global := per_minute 1 |} None.
Definition quiet : passage := {| p_limited := true; p_hook := false; p_now := 0; p_maintenance := false; p_code := [] |}.
Definition pass (cfg : access_config) (p : passage) (r : request) (rl : RateLimiter (H := ExactBucket.exact)) :=
  access_chain (H0 := ascii_tables) no_translations id cfg p serve r rl.
Definition served_by (res : RateLimiter (H := ExactBucket.exact) * list effect) : bool := reaches res.2.
Lemma access_chain_decision_witness :
  let r := bare_request (str "203.0.113.5:1") in
  refusal one_a_minute (pass (sample_config [] None) quiet r one_a_minute) /\
  let r := bare_request (str "198.51.100.9:1") in
  exists c, pass (sample_config [] None) quiet r one_a_minute =
    serve (with_ctx r c) (limiter_answer (H0 := ascii_tables) (sample_config [] None) quiet r one_a_minute).1.
Proof.
  split.
  - apply (access_chain_decision (H0 := ascii_tables) no_translations id (sample_config [] None) quiet serve
      (bare_request (str "203.0.113.5:1")) one_a_minute); [by split_and!|reflexivity].
  - apply (access_chain_decision (H0 := ascii_tables) no_translations id (sample_config [] None) quiet serve
      (bare_request (str "198.51.100.9:1")) one_a_minute); [by split_and!|reflexivity].
Defined.

(** ** Hidden-service requests *)

(** A hidden-service request is recognised by its Host header alone, which any
    client chooses: a blocklisted clearnet client that names the onion address
    passes the blocklist. *)
Definition onion : gostr := str "example.onion".
Definition hosted (host remote : gostr) : request :=
  {| r_Method := str "GET"; r_Host := host; r_URL_Host := []; r_URL_Path := str "/";
     r_URL_RawPath := []; r_Header := ∅; r_Cookies := []; r_Query := []; r_Form := None;
     r_RemoteAddr := remote; r_TLS := false; r_ContentLength := 0; r_ctx := background |}.
Example onion_host_passes_blocklist :
  let run h := pass (sample_config onion None) quiet (hosted h (str "203.0.113.5:4711")) one_a_minute in
  served_by (run (str "ipgaze.example")) = false /\ served_by (run onion) = true.
Proof. split; reflexivity. Qed.

(** The country filter does not look at the hidden-service flag. *)
Example country_filter_on_tor :
  let gr := {| IsEmpty := false; Country := fun _ => Some (str "XX") |} in
  served_by (pass (sample_config onion (Some gr)) quiet (hosted onion (str "198.51.100.9:4711")) one_a_minute) = false.
Proof. reflexivity. Qed.
