(* ===== verification/Scheduler.v ===== *)
(** * Scheduled tasks: [scheduler/scheduler.go]

    The task table in memory, the job handles, the two tables in the database
    and every operation on them.  The cron library (gocron) is the class
    [Gocron] with what it documents in [GocronLaws]; a failing database
    statement is an argument of the operation that issues it. *)

From S2P Require Import Prelude GoStrings.
#[local] Open Scope go_scope.

(** ** Data *)

Inductive TaskStatus := TaskStatusSuccess | TaskStatusFailed | TaskStatusSkipped | TaskStatusRunning.
Record Task := { ID : gostr; Name : gostr; Schedule : gostr; HasFn : bool; Enabled : bool; IsGlobal : bool }.
Definition set_Enabled (b : bool) (t : Task) : Task :=
  {| ID := ID t; Name := Name t; Schedule := Schedule t; HasFn := HasFn t; Enabled := b; IsGlobal := IsGlobal t |}.

(** A row of [scheduler_tasks] and of [scheduler_history]; times are Unix seconds. *)
Record task_row := {
  row_name : gostr; row_schedule : gostr; row_enabled : bool;
  last_run : option Z; last_status : option TaskStatus; last_error : option gostr;
  run_count : Z; fail_count : Z
}.
Record history_row := {
  h_task : gostr; h_started : Z; h_finished : Z; h_status : TaskStatus; h_error : option gostr; h_duration_ms : Z
}.
Record database := { scheduler_tasks : gmap gostr task_row; scheduler_history : list history_row }.

Inductive JobDefinition := CronJob (crontab : gostr) | DurationJob (d : Z).

(** ** The cron library *)

Class Gocron := {
  gcron : Type;
  job : Type;
  job_eq_dec :: EqDecision job;
  NewJob : JobDefinition -> gostr -> gcron -> gcron * option job;
  RemoveJob : job -> gcron -> gcron * bool;
  gStart : gcron -> gcron;
  Shutdown : gcron -> gcron
}.
(** [live g j]: the name of the job [j] that [g] runs on schedule. *)
Class GocronLaws `{Gocron} := {
  live : gcron -> job -> option gostr;
  new_job : forall def name g,
    match NewJob def name g with
    | (g', Some j) => live g j = None /\ live g' j = Some name /\ forall j', j' <> j -> live g' j' = live g j'
    | (g', None) => forall j', live g' j' = live g j'
    end;
  remove_job : forall j g, live g j <> None ->
    (RemoveJob j g).2 = true /\ live (RemoveJob j g).1 j = None /\
    forall j', j' <> j -> live (RemoveJob j g).1 j' = live g j';
  start_live : forall g j, live (gStart g) j = live g j;
  shutdown_live : forall g j, live (Shutdown g) j = None
}.

(** ** State *)

Inductive sched_error :=
| IDRequired | ScheduleRequired | FunctionRequired | InvalidEvery (schedule : gostr) | FailedToSchedule (id : gostr)
| AlreadyRunning | TaskNotFound (id : gostr).

Section Ops.
Context `{Gocron} (ParseDuration : gostr -> option Z).

Record Scheduler := {
  sched : gcron; tasks : gmap gostr Task; jobs : gmap gostr job; db : option database;
  CatchUpWindow : Z; running : bool
}.
Definition NewScheduler (g : gcron) (d : option database) (catchUp : Z) : Scheduler :=
  {| sched := g; tasks := ∅; jobs := ∅; db := d; CatchUpWindow := if catchUp =? 0 then Hour else catchUp; running := false |}.
Definition set_tasks (ts : gmap gostr Task) (s : Scheduler) : Scheduler :=
  {| sched := sched s; tasks := ts; jobs := jobs s; db := db s; CatchUpWindow := CatchUpWindow s; running := running s |}.
Definition set_jobs (g : gcron) (js : gmap gostr job) (s : Scheduler) : Scheduler :=
  {| sched := g; tasks := tasks s; jobs := js; db := db s; CatchUpWindow := CatchUpWindow s; running := running s |}.
Definition set_db (d : option database) (s : Scheduler) : Scheduler :=
  {| sched := sched s; tasks := tasks s; jobs := jobs s; db := d; CatchUpWindow := CatchUpWindow s; running := running s |}.
Definition set_running (b : bool) (s : Scheduler) : Scheduler :=
  {| sched := sched s; tasks := tasks s; jobs := jobs s; db := db s; CatchUpWindow := CatchUpWindow s; running := b |}.

(** ** Statements *)

Definition upsert_task (t : Task) (d : database) : database :=
  let row :=
    match scheduler_tasks d !! ID t with
    | Some r => {| row_name := Name t; row_schedule := Schedule t; row_enabled := Enabled t; last_run := last_run r;
                   last_status := last_status r; last_error := last_error r;
                   run_count := run_count r; fail_count := fail_count r |}
    | None => {| row_name := Name t; row_schedule := Schedule t; row_enabled := Enabled t; last_run := None;
                 last_status := None; last_error := None; run_count := 0; fail_count := 0 |}
    end in
  {| scheduler_tasks := <[ID t := row]> (scheduler_tasks d); scheduler_history := scheduler_history d |}.
Definition update_row (id : gostr) (f : task_row -> task_row) (d : database) : database :=
  {| scheduler_tasks := alter f id (scheduler_tasks d); scheduler_history := scheduler_history d |}.
Definition row_set_enabled (b : bool) (r : task_row) : task_row :=
  {| row_name := row_name r; row_schedule := row_schedule r; row_enabled := b; last_run := last_run r;
     last_status := last_status r; last_error := last_error r; run_count := run_count r; fail_count := fail_count r |}.
(** A statement that takes effect when it succeeds; its error is only logged. *)
Definition exec (ok : bool) (f : database -> database) (d : option database) : option database :=
  if ok then f <$> d else d.

(** ** Scheduling *)

Definition jobDefinition (schedule : gostr) : result sched_error JobDefinition :=
  if schedule =s str "@hourly" then Ok (CronJob (str "0 * * * *")) else
  if schedule =s str "@daily" then Ok (CronJob (str "0 0 * * *")) else
  if schedule =s str "@weekly" then Ok (CronJob (str "0 0 * * 0")) else
  if schedule =s str "@monthly" then Ok (CronJob (str "0 0 1 * *")) else
  if HasPrefix schedule (str "@every ") then
    match ParseDuration (TrimPrefix schedule (str "@every ")) with
    | None => Err (InvalidEvery schedule)
    | Some dur => Ok (DurationJob dur)
    end
  else Ok (CronJob schedule).
Definition scheduleTask (t : Task) (s : Scheduler) : Scheduler * option sched_error :=
  match jobDefinition (Schedule t) with
  | Err e => (s, Some e)
  | Ok def =>
      match NewJob def (ID t) (sched s) with
      | (g, None) => (set_jobs g (jobs s) s, Some (FailedToSchedule (ID t)))
      | (g, Some j) => (set_jobs g (<[ID t := j]> (jobs s)) s, None)
      end
  end.
Definition AddTask (db_ok : bool) (t : Task) (s : Scheduler) : Scheduler * option sched_error :=
  if ID t =s [] then (s, Some IDRequired) else
  if Schedule t =s [] then (s, Some ScheduleRequired) else
  if negb (HasFn t) then (s, Some FunctionRequired) else
  let s := set_tasks (<[ID t := t]> (tasks s)) s in
  match (if running s && Enabled t then scheduleTask t s else (s, None)) with
  | (s, Some e) => (s, Some e)
  | (s, None) => (set_db (exec db_ok (upsert_task t) (db s)) s, None)
  end.

(** [loadTaskStates]: the switch of each task the table knows. *)
Definition load_row (id : gostr) (r : task_row) (ts : gmap gostr Task) : gmap gostr Task :=
  alter (set_Enabled (row_enabled r)) id ts.
Definition loadTaskStates (d : database) (ts : gmap gostr Task) : gmap gostr Task :=
  map_fold load_row ts (scheduler_tasks d).
(** [checkMissedTasks]: the tasks started again at the instant [now]. *)
Definition is_missed (cutoff : Z) (r : task_row) : bool :=
  row_enabled r && match last_run r with None => true | Some t => t <? cutoff end.
Definition missed_in (cutoff : Z) (d : database) (id : gostr) : bool :=
  match scheduler_tasks d !! id with Some r => is_missed cutoff r | None => false end.
Definition missed_tasks (now : Z) (s : Scheduler) : gmap gostr Task :=
  match db s with
  | None => ∅
  | Some d => filter (fun kv => missed_in ((now - CatchUpWindow s) / Second) d kv.1 = true) (tasks s)
  end.
Fixpoint schedule_all (order : list gostr) (s : Scheduler) : Scheduler :=
  match order with
  | [] => s
  | id :: rest =>
      schedule_all rest
        (match tasks s !! id with
         | Some t => if Enabled t then (scheduleTask t s).1 else s
         | None => s
         end)
  end.
(** [order] is the order in which the task map is walked, [load_ok] whether the
    states were read, [missed_ok] whether the missed tasks were.  The result
    has the tasks started to catch up. *)
Definition Start (load_ok missed_ok : bool) (now : Z) (order : list gostr) (s : Scheduler)
    : Scheduler * gmap gostr Task * option sched_error :=
  if running s then (s, ∅, Some AlreadyRunning) else
  let s := match db s with
           | Some d => if load_ok then set_tasks (loadTaskStates d (tasks s)) s else s
           | None => s
           end in
  let missed := if missed_ok then missed_tasks now s else ∅ in
  let s := schedule_all order s in
  (set_running true (set_jobs (gStart (sched s)) (jobs s) s), missed, None).
Definition Stop (s : Scheduler) : Scheduler :=
  if negb (running s) then s else set_running false (set_jobs (Shutdown (sched s)) (jobs s) s).

Definition EnableTask (db_ok : bool) (id : gostr) (s : Scheduler) : Scheduler * option sched_error :=
  match tasks s !! id with
  | None => (s, Some (TaskNotFound id))
  | Some t =>
      let t := set_Enabled true t in
      let s := set_tasks (<[id := t]> (tasks s)) s in
      match (if running s && bool_decide (jobs s !! id = None) then scheduleTask t s else (s, None)) with
      | (s, Some e) => (s, Some e)
      | (s, None) => (set_db (exec db_ok (update_row id (row_set_enabled true)) (db s)) s, None)
      end
  end.
Definition DisableTask (db_ok : bool) (id : gostr) (s : Scheduler) : Scheduler * option sched_error :=
  match tasks s !! id with
  | None => (s, Some (TaskNotFound id))
  | Some t =>
      let s := set_tasks (<[id := set_Enabled false t]> (tasks s)) s in
      let s := match jobs s !! id with
               | Some j => set_jobs (RemoveJob j (sched s)).1 (delete id (jobs s)) s
               | None => s
               end in
      (set_db (exec db_ok (update_row id (row_set_enabled false)) (db s)) s, None)
  end.
Definition RunNow (id : gostr) (s : Scheduler) : result sched_error Task :=
  match tasks s !! id with None => Err (TaskNotFound id) | Some t => Ok t end.

(** ** Runs *)

(** How a task function ended: it returned, returned an error, or panicked. *)
Inductive fn_result := Returned | Failed (msg : gostr) | Panicked (msg : gostr).
Definition run_error (o : fn_result) : option gostr :=
  match o with Returned => None | Failed m => Some m | Panicked m => Some (str "panic: " ++ m) end.
Definition updateTaskRun (now : Z) (status : TaskStatus) (errMsg : gostr) (r : task_row) : task_row :=
  match status with
  | TaskStatusSuccess =>
      {| row_name := row_name r; row_schedule := row_schedule r; row_enabled := row_enabled r; last_run := Some now;
         last_status := Some status; last_error := None; run_count := run_count r + 1; fail_count := fail_count r |}
  | _ =>
      {| row_name := row_name r; row_schedule := row_schedule r; row_enabled := row_enabled r; last_run := Some now;
         last_status := Some status; last_error := Some errMsg; run_count := run_count r; fail_count := fail_count r + 1 |}
  end.
Definition appendHistory (id : gostr) (started now : Z) (status : TaskStatus) (errMsg : gostr) (ms : Z) (d : database) : database :=
  {| scheduler_tasks := scheduler_tasks d;
     scheduler_history := scheduler_history d ++
       [{| h_task := id; h_started := started; h_finished := now; h_status := status;
           h_error := if errMsg <>s [] then Some errMsg else None; h_duration_ms := ms |}] |}.
Record run := { r_task : Task; r_started : Z; r_finished : Z; r_ms : Z; r_outcome : fn_result }.
(** The end of [runTask]: the new state and whether [OnFailure] is called, with
    the error. *)
Definition runTask (upd_ok hist_ok : bool) (x : run) (s : Scheduler) : Scheduler * option gostr :=
  let err := run_error (r_outcome x) in
  let '(status, errMsg) :=
    match err with Some m => (TaskStatusFailed, m) | None => (TaskStatusSuccess, []) end in
  let d := exec upd_ok (update_row (ID (r_task x)) (updateTaskRun (r_finished x) status errMsg)) (db s) in
  let d := exec hist_ok (appendHistory (ID (r_task x)) (r_started x) (r_finished x) status errMsg (r_ms x)) d in
  (set_db d s, err).

(** [Status] without the times, which the job handles supply. *)
Definition Status (s : Scheduler) : gmap gostr (Task * option job) := map_imap (fun id t => Some (t, jobs s !! id)) (tasks s).
End Ops.
Arguments Scheduler {_}.

(** ** Jobs and tasks correspond *)

Section Inv.
Context `{GocronLaws} (ParseDuration : gostr -> option Z).
Implicit Type s : Scheduler.

(** Every live job is the one recorded for its task, every recorded job is
    live, and only enabled tasks have one. *)
Record tracked s : Prop := {
  tr_key id t : tasks s !! id = Some t -> ID t = id;
  tr_live id j : jobs s !! id = Some j -> live (sched s) j = Some id;
  tr_known id j : live (sched s) j = Some id -> jobs s !! id = Some j;
  tr_enabled id j : jobs s !! id = Some j -> exists t, tasks s !! id = Some t /\ Enabled t = true
}.

Lemma tracked_fields s s' :
  sched s' = sched s -> jobs s' = jobs s -> tasks s' = tasks s -> tracked s -> tracked s'.
Proof. intros E1 E2 E3 [? ? ? ?]. split; rewrite ?E1, ?E2, ?E3; done. Qed.
(** Changing the task of an identifier that has no job. *)
Lemma tracked_set_task id t s :
  ID t = id -> jobs s !! id = None -> tracked s -> tracked (set_tasks (<[id := t]> (tasks s)) s).
Proof.
  intros Ht Hj [Hk Hl Hn He]. split; cbn [set_tasks sched jobs tasks]; [|done..|].
  - intros id' t' [[<- <-]|[_ Hx]]%lookup_insert_Some; [done|by apply Hk].
  - intros id' j Hx. destruct (decide (id = id')) as [<-|]; [congruence|].
    rewrite lookup_insert_ne by done. by apply (He id' j).
Qed.
Lemma scheduleTask_tracked t s :
  tracked s -> tasks s !! ID t = Some t -> Enabled t = true -> jobs s !! ID t = None ->
  let s' := (scheduleTask ParseDuration t s).1 in
  tracked s' /\ tasks s' = tasks s /\ running s' = running s /\
  (forall id, id <> ID t -> jobs s' !! id = jobs s !! id).
Proof.
  intros [Hk Hl Hn He] Ht Hen Hj. unfold scheduleTask.
  destruct (jobDefinition _ _) as [def|e]; [|by split_and!].
  pose proof (new_job def (ID t) (sched s)) as Hnew. destruct (NewJob def (ID t) (sched s)) as [g [j|]].
  - destruct Hnew as (Hfresh & Hlive & Hother). cbn [fst]. split_and!; [|done|done|].
    + split; cbn [set_jobs sched jobs tasks]; [done|..].
      * intros id j' [[<- <-]|[Hne Hx]]%lookup_insert_Some; [done|].
        rewrite Hother; [by apply Hl|]. intros ->. apply Hl in Hx. congruence.
      * intros id j' Hx. destruct (decide (j' = j)) as [->|Hne].
        -- rewrite Hlive in Hx. injection Hx as <-. apply lookup_insert_eq.
        -- rewrite Hother in Hx by done. apply Hn in Hx. rewrite lookup_insert_ne; [done|]. intros <-. congruence.
      * intros id j' [[<- <-]|[Hne Hx]]%lookup_insert_Some; [by exists t|by apply (He id j')].
    + intros id Hne. cbn [set_jobs jobs]. by rewrite lookup_insert_ne.
  - cbn [fst]. split_and!; [|done..]. split; cbn [set_jobs sched jobs tasks]; try done.
    + intros id j Hx. rewrite Hnew. by apply Hl.
    + intros id j Hx. rewrite Hnew in Hx. by apply Hn.
Qed.
Lemma AddTask_tracked ok t s : tracked s -> jobs s !! ID t = None -> tracked (AddTask ParseDuration ok t s).1.
Proof.
  intros Htr Hj. unfold AddTask. destruct (ID t =s []), (Schedule t =s []), (HasFn t); try done. cbn [negb].
  set (s1 := set_tasks _ s). assert (tracked s1) as T1 by (by apply tracked_set_task).
  destruct (running s1 && Enabled t) eqn:E.
  - bool_facts. destruct (scheduleTask_tracked t s1 T1) as (T2 & _); [apply lookup_insert_eq|done|done|].
    destruct (scheduleTask ParseDuration t s1) as [s2 [e|]]; [done|]. cbn [fst] in *. by apply (tracked_fields s2).
  - by apply (tracked_fields s1).
Qed.
Lemma EnableTask_tracked ok id s : tracked s -> tracked (EnableTask ParseDuration ok id s).1.
Proof.
  intros Htr. unfold EnableTask. destruct (tasks s !! id) as [t|] eqn:Et; [|done].
  assert (ID t = id) as Hid by (by apply (tr_key s)). set (t1 := set_Enabled true t). set (s1 := set_tasks _ s).
  assert (ID t1 = id) as Hid1 by done.
  assert (tracked s1) as T1.
  { destruct (jobs s !! id) as [j|] eqn:Ej; [|by apply tracked_set_task].
    destruct Htr as [Hk Hl Hn He]. split; cbn [s1 set_tasks sched jobs tasks]; [|done..|].
    - intros id' t' [[<- <-]|[_ Hx]]%lookup_insert_Some; [done|by apply Hk].
    - intros id' j' Hx. destruct (decide (id = id')) as [<-|]; [exists t1; by rewrite lookup_insert_eq|].
      rewrite lookup_insert_ne by done. by apply (He id' j'). }
  destruct (running s1 && bool_decide (jobs s1 !! id = None)) eqn:E; [|by apply (tracked_fields s1)].
  bool_facts. destruct (scheduleTask_tracked t1 s1 T1) as (T2 & _);
    [rewrite Hid1; apply lookup_insert_eq|done|by rewrite Hid1|].
  destruct (scheduleTask ParseDuration t1 s1) as [s2 [e|]]; [done|]. cbn [fst] in *. by apply (tracked_fields s2).
Qed.
Lemma DisableTask_tracked ok id s : tracked s -> tracked (DisableTask ok id s).1 /\ jobs (DisableTask ok id s).1 !! id = None.
Proof.
  intros Htr. unfold DisableTask. destruct (tasks s !! id) as [t|] eqn:Et.
  2:{ split; [done|]. cbn [fst]. destruct (jobs s !! id) as [j|] eqn:Ej; [|done].
      destruct (tr_enabled s Htr id j Ej) as (t & ? & _). congruence. }
  assert (ID t = id) as Hid by (by apply (tr_key s)). cbn [set_tasks jobs sched].
  destruct (jobs s !! id) as [j|] eqn:Ej; cbn [fst].
  - split; [|apply lookup_delete_eq]. destruct Htr as [Hk Hl Hn He].
    destruct (remove_job j (sched s)) as (_ & Hgone & Hother); [by rewrite (Hl id j Ej)|].
    split; cbn [set_db set_jobs set_tasks sched jobs tasks].
    + intros id' t' [[<- <-]|[_ Hx]]%lookup_insert_Some; [done|by apply Hk].
    + intros id' j' [Hne Hx]%lookup_delete_Some. rewrite Hother; [by apply Hl|].
      intros ->. apply Hl in Hx. rewrite (Hl id j Ej) in Hx. congruence.
    + intros id' j' Hx. destruct (decide (j' = j)) as [->|Hne]; [congruence|]. rewrite Hother in Hx by done.
      apply Hn in Hx. rewrite lookup_delete_ne; [done|]. intros <-. congruence.
    + intros id' j' [Hne Hx]%lookup_delete_Some. rewrite lookup_insert_ne by done. by apply (He id' j').
  - split; [|done]. by apply (tracked_fields (set_tasks (<[id:=set_Enabled false t]> (tasks s)) s)), tracked_set_task.
Qed.
Lemma schedule_all_tracked order : forall s, NoDup order -> (forall id, id ∈ order -> jobs s !! id = None) ->
  tracked s -> tracked (schedule_all ParseDuration order s).
Proof.
  induction order as [|id order IH]; intros s Hnd Hno Htr; [done|]. cbn [schedule_all].
  apply NoDup_cons in Hnd as [Hid Hnd].
  assert (forall id', id' ∈ order -> jobs s !! id' = None) as Hno' by (intros; apply Hno; by right).
  destruct (tasks s !! id) as [t|] eqn:Et; [|by apply IH]. destruct (Enabled t) eqn:Een; [|by apply IH].
  assert (ID t = id) as Ht by (by apply (tr_key s)).
  destruct (scheduleTask_tracked t s Htr) as (T2 & _ & _ & Hj);
    [by rewrite Ht|done|rewrite Ht; apply Hno; by left|].
  apply IH; [done| |done]. intros id' Hin. rewrite Hj; [by apply Hno'|]. rewrite Ht. by intros ->.
Qed.
Lemma loadTaskStates_keys d ts : (forall id t, ts !! id = Some t -> ID t = id) ->
  forall id t, loadTaskStates d ts !! id = Some t -> ID t = id.
Proof.
  unfold loadTaskStates. apply (map_fold_weak_ind (fun ts' _ => (forall id t, ts !! id = Some t -> ID t = id) ->
    forall id t, ts' !! id = Some t -> ID t = id)); [done|].
  intros i r m ts' _ IH Hts id t. unfold load_row. destruct (decide (i = id)) as [->|Hne].
  - rewrite lookup_alter_eq. intros (t' & Ht' & ->)%fmap_Some. cbn. by apply IH.
  - rewrite lookup_alter_ne by done. by apply IH.
Qed.
Lemma Start_tracked lo mo now order s : tracked s -> jobs s = ∅ -> NoDup order ->
  tracked (Start ParseDuration lo mo now order s).1.1.
Proof.
  intros Htr Hj Hnd. unfold Start. destruct (running s); [done|]. cbn [fst].
  set (s1 := match db s with Some _ => _ | None => _ end).
  assert (tracked s1 /\ jobs s1 = ∅) as [T1 Hj1].
  { subst s1. destruct (db s) as [d|]; [|done]. destruct lo; [|done]. split; [|done].
    destruct Htr as [Hk Hl Hn He]. split; cbn [set_tasks sched jobs tasks]; [by apply loadTaskStates_keys|done..|].
    rewrite Hj. by intros id j ?%lookup_empty_Some. }
  assert (tracked (schedule_all ParseDuration order s1)) as T2
    by (apply schedule_all_tracked; [done|intros; by rewrite Hj1, lookup_empty|done]).
  destruct T2 as [Hk Hl Hn He]. split; cbn [set_running set_jobs sched jobs tasks]; try done.
  - intros id j Hx. rewrite start_live. by apply Hl.
  - intros id j Hx. rewrite start_live in Hx. by apply Hn.
Qed.

(** The life of a scheduler until it is stopped: tasks are added under
    identifiers that have no job, it is started once, tasks are switched and
    run. *)
Inductive sched_step : Scheduler -> Scheduler -> Prop :=
| step_add ok t s : jobs s !! ID t = None -> sched_step s (AddTask ParseDuration ok t s).1
| step_start lo mo now order s : jobs s = ∅ -> NoDup order -> sched_step s (Start ParseDuration lo mo now order s).1.1
| step_enable ok id s : sched_step s (EnableTask ParseDuration ok id s).1
| step_disable ok id s : sched_step s (DisableTask ok id s).1
| step_run uo ho x s : sched_step s (runTask uo ho x s).1.
Definition fresh_scheduler (s : Scheduler) : Prop := exists g d w, s = NewScheduler g d w /\ forall j, live g j = None.

Lemma tracked_reachable s s' : fresh_scheduler s -> rtc sched_step s s' -> tracked s'.
Proof.
  intros (g & d & w & -> & Hg) Hr.
  assert (tracked (NewScheduler g d w)) as T0.
  { split; cbn [NewScheduler tasks jobs sched]; [by intros ? ? ?%lookup_empty_Some..| |by intros ? ? ?%lookup_empty_Some].
    intros id j Hx. by rewrite Hg in Hx. }
  induction Hr as [|s1 s2 s3 Hs _ IH]; [done|]. apply IH. destruct Hs.
  - by apply AddTask_tracked.
  - by apply Start_tracked.
  - by apply EnableTask_tracked.
  - by apply DisableTask_tracked.
  - refine (tracked_fields _ _ _ _ _ T0); unfold runTask; by destruct (run_error _).
Qed.
End Inv.

(** ** A cron library that keeps the laws *)

(** Jobs are numbered; every definition but an empty crontab is accepted. *)
Module TableCron.
Record table := { next : positive; table_jobs : gmap positive gostr }.
Definition accepted (def : JobDefinition) : bool := match def with CronJob [] => false | _ => true end.
Definition table_new (def : JobDefinition) (name : gostr) (g : table) : table * option positive :=
  if accepted def && bool_decide (table_jobs g !! next g = None)
  then ({| next := Pos.succ (next g); table_jobs := <[next g := name]> (table_jobs g) |}, Some (next g))
  else (g, None).
Definition table_remove (j : positive) (g : table) : table * bool :=
  ({| next := next g; table_jobs := delete j (table_jobs g) |}, bool_decide (is_Some (table_jobs g !! j))).
#[global] Instance cron : Gocron :=
  {| gcron := table; job := positive; NewJob := table_new; RemoveJob := table_remove; gStart := id;
     Shutdown := fun g => {| next := next g; table_jobs := ∅ |} |}.
#[global] Program Instance cron_laws : GocronLaws := {| live := fun g j => table_jobs g !! j |}.
Next Obligation.
  intros def name g. cbn. unfold table_new. destruct (accepted def && _) eqn:E; [|done]. bool_facts.
  cbn [table_jobs]. split_and!; [done|apply lookup_insert_eq|]. intros j' Hj. by rewrite lookup_insert_ne.
Qed.
Next Obligation.
  intros j g Hj. cbn. split_and!; [|apply lookup_delete_eq|intros j' Hne; by rewrite lookup_delete_ne].
  apply bool_decide_eq_true. by apply not_eq_None_Some.
Qed.
Next Obligation. done. Qed.
Next Obligation. intros g j. apply lookup_empty. Qed.
Definition empty : table := {| next := 1; table_jobs := ∅ |}.
End TableCron.

Definition daily_task (id : gostr) : Task :=
  {| ID := id; Name := str "Update"; Schedule := str "@daily"; HasFn := true; Enabled := true; IsGlobal := false |}.
Definition no_durations (_ : gostr) : option Z := None.

(** ** Theorems *)

(** C11. Jobs and tasks correspond for as long as a scheduler runs: when tasks
    are added under identifiers that have no job, the cron library runs
    exactly the jobs the scheduler has recorded, at most one for a task, and
    none for a disabled task.  After [DisableTask] the task has no job, and
    after [Stop] there is none at all. *)
Theorem jobs_tracked `{GocronLaws} ParseDuration s s' ok id
    (Hf : fresh_scheduler s) (Hr : rtc (sched_step ParseDuration) s s') :
  (forall id j, live (sched s') j = Some id <-> jobs s' !! id = Some j) /\
  (forall id j, live (sched s') j = Some id -> exists t, tasks s' !! id = Some t /\ Enabled t = true) /\
  (forall j, live (sched (DisableTask ok id s').1) j <> Some id) /\
  (running s' = true -> forall j, live (sched (Stop s')) j = None).
Proof.
  pose proof (tracked_reachable ParseDuration s s' Hf Hr) as [Hk Hl Hn He]. split_and!.
  - intros id' j. split; [apply Hn|apply Hl].
  - intros id' j Hx. by apply (He id' j), Hn.
  - intros j Hx. destruct (DisableTask_tracked ok id s' ltac:(done)) as [[_ _ Hn' _] Hnone].
    apply Hn' in Hx. congruence.
  - intros Hrun j. unfold Stop. rewrite Hrun. apply shutdown_live.
Qed.
Lemma jobs_tracked_witness :
  let s0 := NewScheduler TableCron.empty None 0 in
  let s1 := (AddTask no_durations true (daily_task (str "geoip")) s0).1 in
  let s2 := (Start no_durations true true 0 [str "geoip"] s1).1.1 in
  jobs s2 !! str "geoip" = Some 1%positive /\ running s2 = true /\
  forall j, live (sched (DisableTask true (str "geoip") s2).1) j <> Some (str "geoip").
Proof.
  intros s0 s1 s2.
  assert (fresh_scheduler s0) as Hf by (exists TableCron.empty, None, 0; split; [done|intros j; apply lookup_empty]).
  assert (rtc (sched_step no_durations) s0 s2) as Hr.
  { eapply rtc_l; [by apply (step_add no_durations true (daily_task (str "geoip")))|].
    eapply rtc_l; [|apply rtc_refl]. apply (step_start no_durations true true 0 [str "geoip"] s1); [done|].
    apply NoDup_singleton. }
  split_and!; [done|done|].
  apply (jobs_tracked no_durations s0 s2 true (str "geoip") Hf Hr).
Defined.

(** Runs of one task, and how many of them failed. *)
Definition runs_of (id : gostr) (xs : list run) : list run := filter (fun x => ID (r_task x) = id) xs.
Definition failed_run (x : run) : bool := match run_error (r_outcome x) with Some _ => true | None => false end.
Definition failures (xs : list run) : list run := filter (fun x => failed_run x = true) xs.
Definition finish_all `{Gocron} (xs : list run) (s : Scheduler) : Scheduler :=
  fold_left (fun s x => (runTask true true x s).1) xs s.

Lemma finish_rows `{Gocron} xs : forall s d, db s = Some d ->
  exists d', db (finish_all xs s) = Some d' /\
  length (scheduler_history d') = (length (scheduler_history d) + length xs)%nat /\
  forall id r, scheduler_tasks d !! id = Some r -> exists r', scheduler_tasks d' !! id = Some r' /\
    run_count r' = run_count r + Z.of_nat (length (runs_of id xs) - length (failures (runs_of id xs))) /\
    fail_count r' = fail_count r + Z.of_nat (length (failures (runs_of id xs))) /\
    (length (failures (runs_of id xs)) <= length (runs_of id xs))%nat /\
    last_run r' = match last (runs_of id xs) with Some x => Some (r_finished x) | None => last_run r end.
Proof.
  induction xs as [|x xs IH] using rev_ind; intros s d Hd.
  { exists d. split_and!; [done|cbn; lia|]. intros id r Hr. exists r. cbn. split_and!; (done || lia). }
  destruct (IH s d Hd) as (d1 & Hd1 & Hh & Hrows). unfold finish_all. rewrite fold_left_app. cbn [fold_left].
  fold (finish_all xs s). unfold runTask. rewrite Hd1. unfold runs_of in *.
  set (p := match run_error (r_outcome x) with Some m => _ | None => _ end).
  assert (p = (if failed_run x then TaskStatusFailed else TaskStatusSuccess, p.2)) as Ep
    by (subst p; unfold failed_run; by destruct (run_error (r_outcome x))).
  rewrite Ep. cbn [exec fmap option_fmap option_map fst snd set_db db]. eexists. split; [done|].
  cbn [appendHistory scheduler_history scheduler_tasks update_row]. split; [rewrite !length_app, Hh; cbn; lia|].
  intros id r Hr. destruct (Hrows id r Hr) as (r1 & Hr1 & E1 & E2 & E3 & E4).
  unfold failures in *. rewrite filter_app, filter_cons, filter_nil. destruct (decide (ID (r_task x) = id)) as [<-|Hne].
  - rewrite lookup_alter_eq, Hr1. eexists. split; [done|]. rewrite last_snoc.
    rewrite filter_app, filter_cons, filter_nil, !length_app. cbn [length].
    destruct (failed_run x); [rewrite decide_True by done|rewrite decide_False by done]; cbn [length];
      (split_and!; [cbn; lia|cbn; lia|lia|done]).
  - rewrite app_nil_r, lookup_alter_ne by done. exists r1. done.
Qed.

(** The accounts of a task are exact: after any finished runs of any tasks
    its row counts the runs that returned and the runs that failed (an error
    or a panic), it has the time of the last one, and the history has one
    more row for each run; [OnFailure] is called for a run exactly when it
    failed. *)
Theorem runs_accounted `{Gocron} xs s d id r x
    (Hd : db s = Some d) (Hr : scheduler_tasks d !! id = Some r) :
  (exists d' r', db (finish_all xs s) = Some d' /\ scheduler_tasks d' !! id = Some r' /\
     run_count r' + fail_count r' = run_count r + fail_count r + Z.of_nat (length (runs_of id xs)) /\
     fail_count r' = fail_count r + Z.of_nat (length (failures (runs_of id xs))) /\
     last_run r' = match last (runs_of id xs) with Some x => Some (r_finished x) | None => last_run r end /\
     length (scheduler_history d') = (length (scheduler_history d) + length xs)%nat) /\
  (is_Some (runTask true true x s).2 <-> failed_run x = true).
Proof.
  split.
  - destruct (finish_rows xs s d Hd) as (d' & Hd' & Hh & Hrows).
    destruct (Hrows id r Hr) as (r' & Hr' & E1 & E2 & E3 & E4). exists d', r'. split_and!; (done || lia).
  - unfold runTask, failed_run. destruct (run_error (r_outcome x)); cbn [snd]; split; (done || by intros []).
Qed.
Definition geoip_row : task_row :=
  {| row_name := str "Update"; row_schedule := str "@daily"; row_enabled := true; last_run := None;
     last_status := None; last_error := None; run_count := 4; fail_count := 1 |}.
Definition geoip_db : database := {| scheduler_tasks := {[str "geoip" := geoip_row]}; scheduler_history := [] |}.
Definition run_at (t : Z) (o : fn_result) : run :=
  {| r_task := daily_task (str "geoip"); r_started := t; r_finished := t + 1; r_ms := 900; r_outcome := o |}.
Lemma runs_accounted_witness :
  let s := NewScheduler TableCron.empty (Some geoip_db) 0 in
  let xs := [run_at 10 Returned; run_at 20 (Panicked (str "nil"))] in
  exists d' r', db (finish_all xs s) = Some d' /\ scheduler_tasks d' !! str "geoip" = Some r' /\
    run_count r' + fail_count r' = 4 + 1 + 2 /\ last_run r' = Some 21.
Proof.
  intros s xs. destruct (runs_accounted xs s geoip_db (str "geoip") geoip_row (run_at 10 Returned))
    as [(d' & r' & H1 & H2 & H3 & _ & H4 & _) _]; [done|done|]. by exists d', r'.
Defined.

(** ** Behaviour that differs from what is meant *)

(** A task added again while the scheduler runs leaves its first job running:
    the cron library then has two jobs for it, of which one is recorded. *)
Lemma readded_task_runs_twice :
  let s0 := NewScheduler TableCron.empty None 0 in
  let t := daily_task (str "geoip") in
  let s1 := (AddTask no_durations true t (Start no_durations true true 0 [] s0).1.1).1 in
  let s2 := (DisableTask true (str "geoip") (AddTask no_durations true t s1).1).1 in
  live (sched s2) 1%positive = Some (str "geoip") /\ jobs s2 !! str "geoip" = None.
Proof. by vm_compute. Qed.

(** A task switched off is on again after a restart: the registration that
    precedes [Start] overwrites the stored switch. *)
Lemma disabled_task_returns :
  let t := daily_task (str "geoip") in
  let off := update_row (str "geoip") (row_set_enabled false) geoip_db in
  let s := (AddTask no_durations true t (NewScheduler TableCron.empty (Some off) 0)).1 in
  let s' := (Start no_durations true true 0 [str "geoip"] s).1.1 in
  live (sched s') 1%positive = Some (str "geoip").
Proof. by vm_compute. Qed.

(** A weekly task that ran two hours ago is taken for missed and run again
    at every start. *)
Lemma weekly_task_rerun :
  let t := {| ID := str "geoip"; Name := str "Update"; Schedule := str "@weekly"; HasFn := true; Enabled := true; IsGlobal := false |} in
  let ran := update_row (str "geoip") (updateTaskRun (1000000 - 7200) TaskStatusSuccess []) geoip_db in
  let s := (AddTask no_durations true t (NewScheduler TableCron.empty (Some ran) 0)).1 in
  (Start no_durations true true (1000000 * Second) [str "geoip"] s).1.2 !! str "geoip" = Some t.
Proof. by vm_compute. Qed.
