(* ===== verification/GoTime.v ===== *)
(** The part of Go's [time] package the logging and backup code uses: an
    instant with its zone offset, the proleptic Gregorian calendar, ISO weeks
    and the fixed-width layouts of [Time.Format].  The calendar is defined from
    [days_before_year]; its lemmas say that a day number and its date determine
    each other, that dates are ordered as days, and that a fixed-width decimal
    is ordered as the number it writes. *)
From stdpp Require Import base list strings sorting.
From Stdlib Require Import ZArith Lia.
From S2P Require Import Prelude GoStrings.
Local Open Scope Z_scope.

(** A [time.Time]: nanoseconds since the Unix epoch, and the seconds east of
    UTC of its location at that instant. *)
Record Time := mkTime { unix_ns : Z; zone : Z }.
#[export] Instance Time_eq_dec : EqDecision Time.
Proof. solve_decision. Defined.

Definition UTC (t : Time) : Time := mkTime (unix_ns t) 0.
Definition Before (t u : Time) : bool := unix_ns t <? unix_ns u.
Definition Add (t : Time) (d : Z) : Time := mkTime (unix_ns t + d) (zone t).

(** Seconds, days (day 0 is 0000-01-01) and seconds of the day on the wall clock. *)
Definition wall_seconds (t : Time) : Z := unix_ns t / Second + zone t.
Definition epoch_day : Z := 719528.
Definition day_number (t : Time) : Z := wall_seconds t / 86400 + epoch_day.
Definition day_second (t : Time) : Z := wall_seconds t mod 86400.
Definition hour (t : Time) : Z := day_second t / 3600.
Definition minute (t : Time) : Z := day_second t mod 3600 / 60.
Definition second (t : Time) : Z := day_second t mod 60.

(** The proleptic Gregorian calendar. *)
Definition leap (y : Z) : bool := (y mod 4 =? 0) && (negb (y mod 100 =? 0) || (y mod 400 =? 0)).
Definition days_before_year (y : Z) : Z :=
  365 * y + (y + 3) / 4 - (y + 99) / 100 + (y + 399) / 400.
Definition year_of_day (d : Z) : Z :=
  let y := (400 * d) / 146097 in
  if d <? days_before_year y then y - 1
  else if days_before_year (y + 1) <=? d then y + 1 else y.
Definition days_before_month (lp : bool) (m : Z) : Z :=
  (if m <=? 2 then 31 * (m - 1)
   else (153 * (m - 3) + 2) / 5 + 59 + (if lp then 1 else 0)).
Definition month_of_yday (lp : bool) (n : Z) : Z :=
  let f := 59 + (if lp then 1 else 0) in
  if n <? 31 then 1 else if n <? f then 2 else (5 * (n - f) + 2) / 153 + 3.

Definition year (t : Time) : Z := year_of_day (day_number t).
Definition yday_of_day (d : Z) : Z := d - days_before_year (year_of_day d).
Definition month_of_day (d : Z) : Z := month_of_yday (leap (year_of_day d)) (yday_of_day d).
Definition mday_of_day (d : Z) : Z :=
  yday_of_day d - days_before_month (leap (year_of_day d)) (month_of_day d) + 1.
Definition month (t : Time) : Z := month_of_day (day_number t).
Definition day (t : Time) : Z := mday_of_day (day_number t).

(** [Time.ISOWeek]: the year and the week of the Thursday of this week (the
    day number 5 modulo 7 is a Thursday's: 0000-01-01 was a Saturday). *)
Definition iso_week_index (d : Z) : Z := (d + 5) / 7.
Definition thursday (d : Z) : Z := 7 * iso_week_index d - 2.
Definition ISOWeek (t : Time) : Z * Z :=
  let th := thursday (day_number t) in (year_of_day th, yday_of_day th / 7 + 1).

(** [time.appendInt]: zero-padded to a width, the sign outside it. *)
Definition zero_pad (w : nat) (s : gostr) : gostr := replicate (w - length s) "0"%char ++ s.
Definition appendInt (w : nat) (n : Z) : gostr :=
  if n <? 0 then "-"%char :: zero_pad w (utoa (- n)) else zero_pad w (utoa n).
(** The layout element [_2]: padded with a blank. *)
Definition space_pad2 (n : Z) : gostr :=
  (if n <? 10 then str " " else []) ++ utoa n.

Definition month_names : list gostr :=
  str <$> ["Jan"; "Feb"; "Mar"; "Apr"; "May"; "Jun"; "Jul"; "Aug"; "Sep"; "Oct"; "Nov"; "Dec"]%string.
Definition month_name (m : Z) : gostr := nth (Z.to_nat (m - 1)) month_names [].

(** The zone elements [-0700] and [Z07:00]. *)
Definition zone_numeric (sep : gostr) (off : Z) : gostr :=
  let z := Z.quot off 60 in
  (if z <? 0 then str "-" else str "+")
  ++ appendInt 2 (Z.abs z / 60) ++ sep ++ appendInt 2 (Z.abs z mod 60).
Definition zone_rfc3339 (off : Z) : gostr :=
  if off =? 0 then str "Z" else zone_numeric (str ":") off.

(** The layouts the program formats with. *)
Definition fmt_hms (t : Time) : gostr :=
  appendInt 2 (hour t) ++ str ":" ++ appendInt 2 (minute t) ++ str ":" ++ appendInt 2 (second t).
Definition fmt_y (t : Time) : gostr := appendInt 4 (year t).
Definition fmt_ym (t : Time) : gostr := fmt_y t ++ str "-" ++ appendInt 2 (month t).
Definition fmt_ymd (t : Time) : gostr := fmt_ym t ++ str "-" ++ appendInt 2 (day t).
Definition fmt_date (t : Time) : gostr := fmt_y t ++ appendInt 2 (month t) ++ appendInt 2 (day t).
Definition fmt_clock (t : Time) : gostr :=
  appendInt 2 (hour t) ++ appendInt 2 (minute t) ++ appendInt 2 (second t).
Definition fmt_stamp (t : Time) : gostr := fmt_date t ++ str "-" ++ fmt_clock t.
Definition RFC3339 (t : Time) : gostr :=
  fmt_ymd t ++ str "T" ++ fmt_hms t ++ zone_rfc3339 (zone t).
Definition fmt_stamp_syslog (t : Time) : gostr :=
  month_name (month t) ++ str " " ++ space_pad2 (day t) ++ str " " ++ fmt_hms t.
Definition fmt_apache (t : Time) : gostr :=
  str "[" ++ appendInt 2 (day t) ++ str "/" ++ month_name (month t) ++ str "/" ++ fmt_y t
  ++ str ":" ++ fmt_hms t ++ str " " ++ zone_numeric [] (zone t) ++ str "]".
(** The fraction of [RFC3339Nano]: nine digits without their trailing zeros. *)
Definition fmt_nanos (n : Z) : gostr :=
  let ds := TrimRight (zero_pad 9 (utoa n)) (str "0") in
  if decide (ds = []) then [] else str "." ++ ds.
Definition RFC3339Nano (t : Time) : gostr :=
  fmt_ymd t ++ str "T" ++ fmt_hms t ++ fmt_nanos (unix_ns t mod Second) ++ zone_rfc3339 (zone t).

(** ** The calendar *)

Lemma days_before_year_succ y :
  days_before_year (y + 1) = days_before_year y + 365 + (if leap y then 1 else 0).
Proof.
  unfold days_before_year, leap.
  destruct (Z.eqb_spec (y mod 4) 0), (Z.eqb_spec (y mod 100) 0), (Z.eqb_spec (y mod 400) 0);
    simpl; zlia.
Qed.

Lemma days_before_year_mono x y : x <= y -> days_before_year x <= days_before_year y.
Proof. intros. unfold days_before_year. zlia. Qed.

Lemma year_of_day_bounds d :
  days_before_year (year_of_day d) <= d < days_before_year (year_of_day d + 1).
Proof.
  unfold year_of_day. set (y := 400 * d / 146097).
  assert (Hy : days_before_year (y - 1) <= d < days_before_year (y + 2)).
  { unfold days_before_year. subst y. zlia. }
  destruct (Z.ltb_spec d (days_before_year y)).
  - replace (y - 1 + 1) with y by lia. lia.
  - destruct (Z.leb_spec (days_before_year (y + 1)) d); [|lia].
    replace (y + 1 + 1) with (y + 2) by lia. lia.
Qed.

(** The year of a day is the only one whose days contain it. *)
Lemma year_of_day_unique d y :
  days_before_year y <= d < days_before_year (y + 1) -> year_of_day d = y.
Proof.
  intros Hy. pose proof (year_of_day_bounds d).
  destruct (Z.lt_trichotomy (year_of_day d) y) as [Hlt|[Heq|Hgt]]; [|done|].
  - pose proof (days_before_year_mono (year_of_day d + 1) y). lia.
  - pose proof (days_before_year_mono (y + 1) (year_of_day d)). lia.
Qed.

Lemma yday_bounds d : 0 <= yday_of_day d < 365 + (if leap (year_of_day d) then 1 else 0).
Proof.
  unfold yday_of_day. pose proof (year_of_day_bounds d). rewrite days_before_year_succ in H. lia.
Qed.

Lemma year_of_day_mono c d : c <= d -> year_of_day c <= year_of_day d.
Proof.
  intros. pose proof (year_of_day_bounds c). pose proof (year_of_day_bounds d).
  destruct (Z.le_gt_cases (year_of_day c) (year_of_day d)) as [|Hlt]; [done|].
  pose proof (days_before_year_mono (year_of_day d + 1) (year_of_day c)). lia.
Qed.

Lemma month_bounds (lp : bool) (n : Z) :
  0 <= n < 365 + (if lp then 1 else 0) ->
  1 <= month_of_yday lp n <= 12 /\
  1 <= n - days_before_month lp (month_of_yday lp n) + 1 <= 31.
Proof.
  unfold month_of_yday, days_before_month. intros Hn.
  destruct lp; split_ifs; bool_facts; zlia.
Qed.

(** Within a year, months and days of the month are ordered as days of the year. *)
Lemma month_mono (lp : bool) (n k : Z) :
  0 <= n -> n < k -> k < 365 + (if lp then 1 else 0) ->
  month_of_yday lp n < month_of_yday lp k \/
  month_of_yday lp n = month_of_yday lp k.
Proof.
  unfold month_of_yday. intros. destruct lp; split_ifs; bool_facts; zlia.
Qed.

(** The date as one number, whose order is the order of dates. *)
Definition date_key (d : Z) : Z := (year_of_day d * 100 + month_of_day d) * 100 + mday_of_day d.

Lemma month_of_day_bounds d : 1 <= month_of_day d <= 12.
Proof. unfold month_of_day. apply month_bounds, yday_bounds. Qed.
Lemma mday_of_day_bounds d : 1 <= mday_of_day d <= 31.
Proof. unfold mday_of_day, month_of_day. apply month_bounds, yday_bounds. Qed.

Lemma date_key_mono c d : c < d -> date_key c < date_key d.
Proof.
  intros Hlt. pose proof (month_of_day_bounds c). pose proof (month_of_day_bounds d).
  pose proof (mday_of_day_bounds c). pose proof (mday_of_day_bounds d).
  pose proof (yday_bounds c). pose proof (yday_bounds d).
  pose proof (year_of_day_mono c d ltac:(lia)) as Hy. unfold date_key.
  destruct (Z.eq_dec (year_of_day c) (year_of_day d)) as [He|]; [|lia].
  assert (Hyd : yday_of_day c < yday_of_day d) by (unfold yday_of_day; rewrite He; lia).
  assert (Hm : month_of_day c < month_of_day d \/ month_of_day c = month_of_day d).
  { unfold month_of_day. rewrite He in *. apply month_mono; lia. }
  destruct Hm as [Hm|Hm]; [rewrite He; lia|].
  assert (mday_of_day c < mday_of_day d) by (unfold mday_of_day; rewrite Hm, He; lia).
  rewrite Hm, He. lia.
Qed.

Lemma date_key_inj c d : date_key c = date_key d -> c = d.
Proof.
  intros He. destruct (Z.lt_trichotomy c d) as [Hlt|[|Hlt]]; [|done|];
    apply date_key_mono in Hlt; lia.
Qed.

Lemma thursday_week d : iso_week_index (thursday d) = iso_week_index d.
Proof. unfold thursday, iso_week_index. zlia. Qed.

(** The ISO year and week name the week: they agree exactly within one. *)
Lemma ISOWeek_week t u :
  ISOWeek t = ISOWeek u <-> iso_week_index (day_number t) = iso_week_index (day_number u).
Proof.
  unfold ISOWeek. split.
  - intros [= Hy Hw]. unfold yday_of_day in Hw. rewrite Hy in Hw.
    assert (thursday (day_number t) = thursday (day_number u)) as He.
    { unfold thursday in *. zlia. }
    by rewrite <-thursday_week, He, thursday_week.
  - intros He. unfold thursday. by rewrite He.
Qed.

(** ** The order of strings *)

(** Go's [<] on strings: bytewise and lexicographic. *)
Fixpoint str_ltb (s t : gostr) : bool :=
  match s, t with
  | _, [] => false
  | [], _ :: _ => true
  | c :: s', d :: t' =>
      if code c <? code d then true else if code d <? code c then false else str_ltb s' t'
  end.
(** [>=], by which [sort.Reverse(sort.StringSlice(_))] orders. *)
Definition str_ge (s t : gostr) : Prop := str_ltb s t = false.
#[export] Instance str_ge_dec : RelDecision str_ge.
Proof. intros s t. unfold str_ge. apply _. Defined.

Lemma code_inj c d : code c = code d -> c = d.
Proof.
  unfold code. intros E. apply N2Z.inj in E.
  rewrite <-(ascii_N_embedding c), <-(ascii_N_embedding d). by rewrite E.
Qed.
Lemma str_ltb_irrefl s : str_ltb s s = false.
Proof. induction s as [|c s IH]; [done|]. simpl. by rewrite Z.ltb_irrefl. Qed.
Lemma str_ltb_trichotomy s t : str_ltb s t = true \/ s = t \/ str_ltb t s = true.
Proof.
  revert t. induction s as [|c s IH]; intros [|d t]; simpl; eauto.
  destruct (Z.ltb_spec (code c) (code d)), (Z.ltb_spec (code d) (code c)); eauto.
  assert (c = d) as -> by (apply code_inj; lia).
  destruct (IH t) as [?|[->|?]]; eauto.
Qed.
Lemma str_ltb_trans s t u : str_ltb s t = true -> str_ltb t u = true -> str_ltb s u = true.
Proof.
  revert t u. induction s as [|c s IH]; intros [|d t] [|e u]; simpl; try done.
  repeat case_match; bool_facts; try done; try lia. eauto.
Qed.
Lemma str_ltb_asym s t : str_ltb s t = true -> str_ltb t s = false.
Proof.
  intros H. destruct (str_ltb t s) eqn:E; [|done].
  pose proof (str_ltb_trans _ _ _ H E) as F. by rewrite str_ltb_irrefl in F.
Qed.
#[export] Instance str_ge_total : Total str_ge.
Proof.
  intros s t. unfold str_ge. destruct (str_ltb s t) eqn:E; [right|by left]. by apply str_ltb_asym.
Qed.
#[export] Instance str_ge_trans : Transitive str_ge.
Proof.
  intros s t u. unfold str_ge. intros Hst Htu. destruct (str_ltb s u) eqn:E; [|done].
  destruct (str_ltb_trichotomy t u) as [?|[->|H]]; [congruence|congruence|].
  rewrite (str_ltb_trans _ _ _ E H) in Hst. done.
Qed.
#[export] Instance str_ge_antisymm : AntiSymm (=) str_ge.
Proof.
  intros s t. unfold str_ge. intros ? ?. destruct (str_ltb_trichotomy s t) as [?|[->|?]]; congruence.
Qed.

(** The string order ascending, as [sort.Strings] sorts. *)
Definition str_le (s t : gostr) : Prop := str_ge t s.
#[export] Instance str_le_dec : RelDecision str_le.
Proof. intros s t. unfold str_le. apply _. Defined.
#[export] Instance str_le_total : Total str_le.
Proof. intros s t. unfold str_le. destruct (total str_ge s t); auto. Qed.
#[export] Instance str_le_trans : Transitive str_le.
Proof. intros s t u H1 H2. unfold str_le in *. by etrans. Qed.

(** A common prefix does not matter, and the first parts of one length decide. *)
Lemma str_ltb_prefix p s t : str_ltb (p ++ s) (p ++ t) = str_ltb s t.
Proof. induction p as [|c p IH]; [done|]. simpl. by rewrite Z.ltb_irrefl. Qed.
Lemma str_ltb_app a b x y : length a = length b ->
  str_ltb (a ++ x) (b ++ y) = str_ltb a b || (bool_decide (a = b) && str_ltb x y).
Proof.
  revert b. induction a as [|c a IH]; intros [|d b] Hl; simpl in *; try done.
  destruct (Z.ltb_spec (code c) (code d)); [done|].
  destruct (Z.ltb_spec (code d) (code c)).
  - rewrite bool_decide_eq_false_2; [done|]. intros [= -> _]. lia.
  - assert (c = d) as -> by (apply code_inj; lia). rewrite IH by lia. f_equal. f_equal.
    apply bool_decide_ext. split; congruence.
Qed.

(** ** Fixed-width decimals are ordered as the numbers they write *)

Lemma digits_value_acc s acc :
  fold_left (fun acc c => acc * 10 + (code c - 48)) s acc = acc * 10 ^ Z.of_nat (length s) + digits_value s.
Proof.
  unfold digits_value. revert acc. induction s as [|c s IH]; intros acc; cbn [fold_left length]; [simpl; lia|].
  rewrite IH, (IH (0 * 10 + _)), Nat2Z.inj_succ, Z.pow_succ_r by lia. lia.
Qed.
Lemma digits_value_app a b :
  digits_value (a ++ b) = digits_value a * 10 ^ Z.of_nat (length b) + digits_value b.
Proof. unfold digits_value at 1. rewrite fold_left_app. apply digits_value_acc. Qed.
Lemma digits_value_cons c s :
  digits_value (c :: s) = (code c - 48) * 10 ^ Z.of_nat (length s) + digits_value s.
Proof. change (c :: s) with ([c] ++ s). rewrite digits_value_app. unfold digits_value at 1. simpl. lia. Qed.
Lemma isDigit_code c : isDigit c = true -> 48 <= code c <= 57.
Proof.
  unfold isDigit, between. change (code "0") with 48. change (code "9") with 57. lia.
Qed.
Lemma digits_value_bounds s : forallb isDigit s = true -> 0 <= digits_value s < 10 ^ Z.of_nat (length s).
Proof.
  induction s as [|c s IH]; [done|]. cbn [forallb]. intros [Hc%isDigit_code Hs]%andb_true_iff.
  specialize (IH Hs). rewrite digits_value_cons. cbn [length]. rewrite Nat2Z.inj_succ, Z.pow_succ_r by lia. nia.
Qed.
Lemma str_ltb_digits a b :
  forallb isDigit a = true -> forallb isDigit b = true -> length a = length b ->
  str_ltb a b = (digits_value a <? digits_value b).
Proof.
  revert b. induction a as [|c a IH]; intros [|d b] Ha Hb Hl; try done.
  cbn [forallb] in Ha, Hb. injection Hl as Hl.
  apply andb_true_iff in Ha as [Hc%isDigit_code Ha], Hb as [Hd%isDigit_code Hb].
  pose proof (digits_value_bounds a Ha). pose proof (digits_value_bounds b Hb).
  rewrite !digits_value_cons, Hl in *. cbn [str_ltb].
  destruct (Z.ltb_spec (code c) (code d)); [symmetry; apply Z.ltb_lt; nia|].
  destruct (Z.ltb_spec (code d) (code c)); [symmetry; apply Z.ltb_ge; nia|].
  rewrite IH by done. assert (code c = code d) as -> by lia.
  destruct (Z.ltb_spec (digits_value a) (digits_value b)); symmetry; [apply Z.ltb_lt|apply Z.ltb_ge]; lia.
Qed.

Lemma digits_of_length fuel w n :
  (0 < w)%nat -> 0 <= n < 10 ^ Z.of_nat w -> (length (digits_of fuel n) <= w)%nat.
Proof.
  revert w n. induction fuel as [|k IH]; intros w n Hw Hn; simpl; [lia|].
  destruct (n <? 10) eqn:E; bool_facts; [simpl; lia|]. rewrite length_app. simpl.
  destruct w as [|[|w]]; [lia|simpl in *; lia|].
  rewrite Nat2Z.inj_succ, Z.pow_succ_r in Hn by lia.
  assert (0 <= n / 10 < 10 ^ Z.of_nat (S w)) as Hq.
  { split; [apply Z.div_pos; lia|apply Z.div_lt_upper_bound; lia]. }
  specialize (IH (S w) (n / 10) ltac:(lia) Hq). lia.
Qed.
Lemma digits_value_zeros k s : digits_value (replicate k "0"%char ++ s) = digits_value s.
Proof.
  induction k as [|k IH]; [done|]. cbn [replicate app]. rewrite digits_value_cons, IH.
  change (code "0") with 48. lia.
Qed.

(** A block of [w] digits of value [n]; two blocks side by side are a block. *)
Definition block (w : nat) (n : Z) (s : gostr) : Prop :=
  length s = w /\ forallb isDigit s = true /\ digits_value s = n.
Lemma block_app w k m n s t : block w m s -> block k n t -> block (w + k) (m * 10 ^ Z.of_nat k + n) (s ++ t).
Proof.
  intros (Hs & Hds & Hm) (Ht & Hdt & Hn). unfold block.
  rewrite length_app, forallb_app, Hds, Hdt, digits_value_app, Ht, Hm, Hn. by rewrite Hs.
Qed.
Lemma block_ltb w m n s t : block w m s -> block w n t -> str_ltb s t = (m <? n).
Proof. intros (Hs & ? & <-) (Ht & ? & <-). apply str_ltb_digits; [done..|congruence]. Qed.
Lemma block_eq w n s t : block w n s -> block w n t -> s = t.
Proof.
  intros Hs Ht. pose proof (block_ltb w n n s t Hs Ht) as H1. pose proof (block_ltb w n n t s Ht Hs) as H2.
  rewrite Z.ltb_irrefl in H1, H2. by apply (anti_symm str_ge).
Qed.
Lemma block_eq_iff w m n s t : block w m s -> block w n t -> (s = t <-> m = n).
Proof.
  intros Hs Ht. split.
  - intros ->. destruct Hs as (_ & _ & <-), Ht as (_ & _ & <-). done.
  - intros ->. by eapply block_eq.
Qed.

(** [appendInt w] of a number below [10^w]: exactly [w] digits of that value. *)
Lemma appendInt_fixed w n : (0 < w)%nat -> 0 <= n < 10 ^ Z.of_nat w -> block w n (appendInt w n).
Proof.
  intros Hw Hn. unfold block, appendInt. rewrite (proj2 (Z.ltb_ge n 0)) by lia. unfold zero_pad.
  destruct (utoa_correct n ltac:(lia)) as (Hv & Hd & _).
  pose proof (digits_of_length (S (Z.to_nat (Z.log2 n))) w n Hw Hn) as Hl. fold (utoa n) in Hl.
  rewrite length_app, length_replicate, digits_value_zeros, forallb_app, Hd, andb_true_r.
  split_and!; [lia| |done]. apply forallb_forall. intros c Hc%list_elem_of_In%elem_of_replicate. by destruct Hc as [-> _].
Qed.

(** The years the four-digit layouts can write. *)
Definition four_digit_year (t : Time) : Prop := 0 <= year t <= 9999.
#[export] Instance four_digit_year_dec t : Decision (four_digit_year t).
Proof. unfold four_digit_year. apply _. Defined.

Lemma clock_bounds t : 0 <= hour t <= 23 /\ 0 <= minute t <= 59 /\ 0 <= second t <= 59.
Proof.
  unfold hour, minute, second, day_second. pose proof (Z.mod_pos_bound (wall_seconds t) 86400 ltac:(lia)).
  split_and!; zlia.
Qed.
Definition clock_key (t : Time) : Z := (hour t * 100 + minute t) * 100 + second t.
Lemma clock_key_mono t u : clock_key t < clock_key u <-> day_second t < day_second u.
Proof.
  pose proof (clock_bounds t). pose proof (clock_bounds u).
  unfold clock_key, hour, minute, second in *. zlia.
Qed.

Lemma two_digits n : 0 <= n <= 99 -> block 2 n (appendInt 2 n).
Proof. intros. apply appendInt_fixed; simpl; lia. Qed.
Lemma four_digits t : four_digit_year t -> block 4 (year t) (appendInt 4 (year t)).
Proof. intros. unfold four_digit_year in *. apply appendInt_fixed; simpl; lia. Qed.
Lemma date_block t : four_digit_year t ->
  block 8 (date_key (day_number t)) (fmt_date t).
Proof.
  intros Ht. pose proof (month_of_day_bounds (day_number t)). pose proof (mday_of_day_bounds (day_number t)).
  replace (date_key (day_number t)) with (year t * 10 ^ Z.of_nat 4 + (month t * 10 ^ Z.of_nat 2 + day t))
    by (unfold date_key, year, month, day; simpl; lia).
  apply (block_app 4 4); [by apply four_digits|]. apply (block_app 2 2); apply two_digits; unfold month, day; lia.
Qed.
Lemma clock_block t :
  block 6 (clock_key t) (fmt_clock t).
Proof.
  pose proof (clock_bounds t).
  replace (clock_key t) with (hour t * 10 ^ Z.of_nat 4 + (minute t * 10 ^ Z.of_nat 2 + second t))
    by (unfold clock_key; simpl; lia).
  apply (block_app 2 4); [|apply (block_app 2 2)]; apply two_digits; lia.
Qed.

(** The order of the wall clock is the order of dates, then of times of day. *)
Lemma wall_seconds_split t :
  wall_seconds t = 86400 * (day_number t - epoch_day) + day_second t /\ 0 <= day_second t < 86400.
Proof. unfold day_number, day_second. zlia. Qed.
Lemma wall_seconds_lt t u : wall_seconds t < wall_seconds u <->
  date_key (day_number t) < date_key (day_number u) \/
  date_key (day_number t) = date_key (day_number u) /\ clock_key t < clock_key u.
Proof.
  rewrite clock_key_mono. pose proof (wall_seconds_split t). pose proof (wall_seconds_split u).
  destruct (Z.lt_trichotomy (day_number t) (day_number u)) as [Hd|[Hd|Hd]].
  - apply date_key_mono in Hd as ?. lia.
  - rewrite Hd. lia.
  - apply date_key_mono in Hd as ?. lia.
Qed.

(** Stamps are ordered as the wall-clock seconds they name. *)
Lemma fmt_stamp_ltb t u : four_digit_year t -> four_digit_year u ->
  str_ltb (fmt_stamp t) (fmt_stamp u) = (wall_seconds t <? wall_seconds u).
Proof.
  intros Ht Hu. pose proof (date_block t Ht) as Bt. pose proof (date_block u Hu) as Bu.
  pose proof (clock_block t) as Ct. pose proof (clock_block u) as Cu. unfold fmt_stamp.
  rewrite str_ltb_app by (destruct Bt as [-> _], Bu as [-> _]; done).
  rewrite str_ltb_prefix, (block_ltb _ _ _ _ _ Bt Bu), (block_ltb _ _ _ _ _ Ct Cu).
  rewrite (bool_decide_ext _ _ (block_eq_iff _ _ _ _ _ Bt Bu)).
  apply eq_true_iff_eq. rewrite orb_true_iff, andb_true_iff, bool_decide_eq_true, !Z.ltb_lt.
  by rewrite wall_seconds_lt.
Qed.
Lemma fmt_stamp_length t : four_digit_year t -> length (fmt_stamp t) = 15%nat.
Proof.
  intros Ht. unfold fmt_stamp. rewrite !length_app.
  destruct (date_block t Ht) as [-> _], (clock_block t) as [-> _]. done.
Qed.

(** ** Reading a time: [time.Parse] with the layout [time.RFC3339] *)

(** [getnum]: one or two digits, always two when [fixed]. *)
Definition getnum (fixed : bool) (s : gostr) : option (Z * gostr) :=
  match s with
  | a :: b :: rest =>
      if negb (isDigit a) then None
      else if isDigit b then Some ((code a - 48) * 10 + (code b - 48), rest)
      else if fixed then None else Some (code a - 48, b :: rest)
  | [a] => if isDigit a && negb fixed then Some (code a - 48, []) else None
  | [] => None
  end.
Definition skip_byte (c : ascii) (s : gostr) : option gostr :=
  match s with d :: rest => if bool_decide (c = d) then Some rest else None | [] => None end.
Definition ranged (lo hi : Z) (fixed : bool) (s : gostr) : option (Z * gostr) :=
  match getnum fixed s with
  | Some (n, rest) => if (lo <=? n) && (n <=? hi) then Some (n, rest) else None
  | None => None
  end.
Definition get_year (s : gostr) : option (Z * gostr) :=
  if Nat.leb 4 (length s) && forallb isDigit (take 4 s) then Some (digits_value (take 4 s), drop 4 s) else None.
(** Digits after a point or a comma behind the seconds, cut off at nanoseconds. *)
Definition get_fraction (s : gostr) : Z * gostr :=
  match s with
  | c :: d :: _ =>
      if (bool_decide (c = "."%char) || bool_decide (c = ","%char)) && isDigit d then
        let rest := tail s in
        let n := default (length rest) (IndexFunc (fun x => negb (isDigit x)) rest) in
        let digits := take 9 (take n rest) in
        (digits_value digits * 10 ^ (9 - Z.of_nat (length digits)), drop n rest)
      else (0, s)
  | _ => (0, s)
  end.
Definition get_zone (s : gostr) : option (Z * gostr) :=
  match s with
  | "Z"%char :: rest => Some (0, rest)
  | sign :: rest =>
      h ← getnum true rest;
      r ← skip_byte ":" h.2;
      m ← getnum true r;
      if (24 <? h.1) || (60 <? m.1) then None
      else
        let off := (h.1 * 60 + m.1) * 60 in
        if bool_decide (sign = "+"%char) then Some (off, m.2)
        else if bool_decide (sign = "-"%char) then Some (- off, m.2) else None
  | [] => None
  end.
Definition days_in (y m : Z) : Z := days_before_month (leap y) (m + 1) - days_before_month (leap y) m.
Definition Parse_RFC3339 (s : gostr) : option Time :=
  y ← get_year s;
  r1 ← skip_byte "-" y.2; mo ← ranged 1 12 true r1;
  r2 ← skip_byte "-" mo.2; d ← getnum true r2;
  r3 ← skip_byte "T" d.2; h ← ranged 0 23 false r3;
  r4 ← skip_byte ":" h.2; mi ← ranged 0 59 true r4;
  r5 ← skip_byte ":" mi.2; se ← ranged 0 59 true r5;
  let fr := get_fraction se.2 in
  z ← get_zone fr.2;
  if negb (bool_decide (z.2 = [])) || (d.1 <? 1) || (days_in y.1 mo.1 <? d.1) then None
  else
    let days := days_before_year y.1 + days_before_month (leap y.1) mo.1 + (d.1 - 1) - epoch_day in
    let secs := days * 86400 + h.1 * 3600 + mi.1 * 60 + se.1 - z.1 in
    Some (mkTime (secs * Second + fr.1) z.1).
