(* ===== verification/LogFormat.v ===== *)
(** * The lines of the log files: [log/format.go]

    One function per output format, over the calendar of [GoTime], with the
    parts of [encoding/json] and [strconv.Quote] they use.  The theorems say
    that a sanitized line is one line, that the CEF header can be read back
    whatever its fields contain, and that a JSON record is a single line. *)
From stdpp Require Import base list strings sorting.
From Stdlib Require Import ZArith Lia.
From S2P Require Import Prelude GoStrings GoUtf8 GoTime.
Local Open Scope Z_scope.
Local Open Scope go_scope.

(** ** Standard library: JSON and quoted strings *)

(** A loop over the runes of a string that sees each rune, its width and its
    bytes; [skip] bytes belong to the rune already seen. *)
Fixpoint map_runes (f : Z -> nat -> gostr -> gostr) (s : gostr) (skip : nat) : gostr :=
  match s with
  | [] => []
  | c :: s' =>
      match skip with
      | S k => map_runes f s' k
      | O => let '(r, w) := decode_rune c s' in f r w (take w s) ++ map_runes f s' (w - 1)
      end
  end.

Definition hex_digits : gostr := str "0123456789abcdef".
Definition hexd (n : Z) : ascii := nth (Z.to_nat (n mod 16)) hex_digits "0"%char.
Fixpoint hex_pad (w : nat) (n : Z) : gostr :=
  match w with O => [] | S k => hex_pad k (n / 16) ++ [hexd n] end.

(** [encoding/json.appendString] with HTML escaping, which [Marshal] uses. *)
Definition json_rune (r : Z) (w : nat) (raw : gostr) : gostr :=
  if (r =? 34) || (r =? 92) then "\"%char :: raw
  else if r =? 8 then str "\b" else if r =? 12 then str "\f" else if r =? 10 then str "\n"
  else if r =? 13 then str "\r" else if r =? 9 then str "\t"
  else if (r <? 32) || (r =? 60) || (r =? 62) || (r =? 38) then str "\u00" ++ hex_pad 2 r
  else if (r =? RuneError) && (w =? 1)%nat then str "\ufffd"
  else if (r =? 8232) || (r =? 8233) then str "\u" ++ hex_pad 4 r
  else raw.
Definition dquote : ascii := chr 34.
Definition json_string (s : gostr) : gostr := dquote :: map_runes json_rune s 0 ++ [dquote].

(** The values the program marshals.  [JMap] is a Go map, written in the order
    of its keys; [JStruct] a struct, written in the order of its fields;
    [JUnsupported] a value [json.Marshal] refuses. *)
Inductive json :=
| JStr (s : gostr) | JInt (n : Z) | JBoolean (b : bool)
| JMap (kvs : list (gostr * json)) | JStruct (kvs : list (gostr * json)) | JList (xs : list json) | JUnsupported.

Definition key_le {A} (p q : gostr * A) : Prop := str_ge q.1 p.1.
#[export] Instance key_le_dec {A} : RelDecision (@key_le A).
Proof. intros p q. unfold key_le. apply _. Defined.

Definition json_object (fields : list (gostr * gostr)) : gostr :=
  str "{" ++ Join ((fun kv => json_string kv.1 ++ str ":" ++ kv.2) <$> fields) (str ",") ++ str "}".

Fixpoint Marshal (v : json) : option gostr :=
  let members := fix members (kvs : list (gostr * json)) : option (list (gostr * gostr)) :=
    match kvs with
    | [] => Some []
    | (k, x) :: rest =>
        match Marshal x, members rest with
        | Some s, Some l => Some ((k, s) :: l)
        | _, _ => None
        end
    end in
  let elements := fix elements (xs : list json) : option (list gostr) :=
    match xs with
    | [] => Some []
    | x :: rest =>
        match Marshal x, elements rest with
        | Some s, Some l => Some (s :: l)
        | _, _ => None
        end
    end in
  match v with
  | JStr s => Some (json_string s)
  | JInt n => Some (Itoa n)
  | JBoolean b => Some (str (if b then "true" else "false"))
  | JMap kvs => json_object <$> (merge_sort key_le <$> members kvs)
  | JStruct kvs => json_object <$> members kvs
  | JList xs => (fun l => str "[" ++ Join l (str ",") ++ str "]") <$> elements xs
  | JUnsupported => None
  end.

(** [unicode.IsPrint] above ASCII, which [strconv.Quote] consults. *)
Class PrintTable := { IsPrint_wide : Z -> bool }.
Definition IsPrint `{PrintTable} (r : Z) : bool :=
  if r <? 127 then 32 <=? r else if r =? 127 then false else IsPrint_wide r.
(** [strconv.appendEscapedRune] with the double quote. *)
Definition quote_rune `{PrintTable} (r : Z) (w : nat) (raw : gostr) : gostr :=
  if (w =? 1)%nat && (r =? RuneError) then str "\x" ++ hex_pad 2 (code (nth 0 raw dquote))
  else if (r =? 34) || (r =? 92) then "\"%char :: raw
  else if IsPrint r then raw
  else if r =? 7 then str "\a" else if r =? 8 then str "\b" else if r =? 12 then str "\f"
  else if r =? 10 then str "\n" else if r =? 13 then str "\r" else if r =? 9 then str "\t"
  else if r =? 11 then str "\v"
  else if (r <? 32) || (r =? 127) then str "\x" ++ hex_pad 2 r
  else if r <? 65536 then str "\u" ++ hex_pad 4 r
  else str "\U" ++ hex_pad 8 r.
Definition Quote `{PrintTable} (s : gostr) : gostr := dquote :: map_runes quote_rune s 0 ++ [dquote].

(** ** [format.go] *)

Definition sanitize_keeps (r : Z) : bool :=
  negb ((r =? 10) || (r =? 13) || ((r <? 32) && negb (r =? 9)) || (r =? 127)).
Definition sanitizeLine (s : gostr) : gostr :=
  string_of_runes (filter (fun r => sanitize_keeps r = true) (runes s)).

Definition resolveFormat `{UnicodeTables} (configured def : gostr) : gostr :=
  let f := ToLower (TrimSpace configured) in
  if decide (f = []) then def else f.

Definition jsonLine (fields : list (gostr * json)) : gostr := default [] (Marshal (JMap fields)).

Definition textLine (now : Time) (level msg : gostr) : gostr :=
  RFC3339 now ++ str " [" ++ level ++ str "] " ++ msg.

Definition needsQuote (v : gostr) : bool :=
  if decide (v = []) then true
  else existsb (fun c => (c =? 32) || (c =? 61) || (c =? 34) || (c =? 10) || (c =? 9)) (runes v).

Fixpoint logfmt_pairs `{PrintTable} (kvpairs : list gostr) : gostr :=
  match kvpairs with
  | k :: v :: rest =>
      str " " ++ k ++ str "=" ++ (if needsQuote v then Quote v else v) ++ logfmt_pairs rest
  | _ => []
  end.
Definition logfmtLine `{PrintTable} (now : Time) (level msg : gostr) (kvpairs : list gostr) : gostr :=
  str "time=" ++ RFC3339 now ++ str " level=" ++ level ++ str " msg=" ++ Quote msg ++ logfmt_pairs kvpairs.

(** [b] is what the builder already holds. *)
Fixpoint kvJoin_from (b : gostr) (kvpairs : list gostr) : gostr :=
  match kvpairs with
  | k :: v :: rest =>
      kvJoin_from (b ++ (if decide (b = []) then [] else str " ") ++ k ++ str "=" ++ v) rest
  | _ => b
  end.
Definition kvJoin (kvpairs : list gostr) : gostr := kvJoin_from [] kvpairs.

(** A map assignment: the binding of the key is replaced. *)
Definition map_set {A} (k : gostr) (v : A) (m : list (gostr * A)) : list (gostr * A) :=
  filter (fun kv => kv.1 <> k) m ++ [(k, v)].
Fixpoint kvMap_from (m : list (gostr * json)) (kvpairs : list gostr) : list (gostr * json) :=
  match kvpairs with
  | k :: v :: rest => kvMap_from (map_set k (JStr v) m) rest
  | _ => m
  end.
Definition kvMap (kvpairs : list gostr) : list (gostr * json) := kvMap_from [] kvpairs.

Definition syslog3164Line (now : Time) (hostname program : gostr) (pid : Z) (msg : gostr) : gostr :=
  fmt_stamp_syslog now ++ str " " ++ hostname ++ str " " ++ program ++ str "[" ++ Itoa pid ++ str "]: " ++ msg.
Definition syslog5424Line (now : Time) (hostname program : gostr) (pid : Z) (msg : gostr) : gostr :=
  str "<134>1 " ++ RFC3339 now ++ str " " ++ hostname ++ str " " ++ program ++ str " " ++ Itoa pid
  ++ str " - - " ++ msg.

Definition cefEscapeHeader (s : gostr) : gostr :=
  ReplaceAll (ReplaceAll s (str "\") (str "\\")) (str "|") (str "\|").
Definition cefLine (vendor product version eventClass name : gostr) (severity : Z) (extension : gostr) : gostr :=
  str "CEF:0|" ++ cefEscapeHeader vendor ++ str "|" ++ cefEscapeHeader product ++ str "|"
  ++ cefEscapeHeader version ++ str "|" ++ cefEscapeHeader eventClass ++ str "|"
  ++ cefEscapeHeader name ++ str "|" ++ Itoa severity ++ str "|" ++ extension.

Record AccessEntry := {
  ae_IP : gostr; ae_Method : gostr; ae_Path : gostr; ae_Proto : gostr;
  ae_Status : Z; ae_Bytes : Z; ae_Referer : gostr; ae_UserAgent : gostr; ae_RequestID : gostr }.

Definition quoted_field (s : gostr) : gostr := dquote :: s ++ [dquote].
(** The part the two access formats share, with the verbs of the format string. *)
Definition nginxAccessLine (now : Time) (e : AccessEntry) : gostr :=
  ae_IP e ++ str " - - " ++ fmt_apache now ++ str " "
  ++ quoted_field (ae_Method e ++ str " " ++ ae_Path e ++ str " " ++ ae_Proto e) ++ str " "
  ++ Itoa (ae_Status e) ++ str " " ++ Itoa (ae_Bytes e).
Definition apacheAccessLine (now : Time) (e : AccessEntry) : gostr :=
  ae_IP e ++ str " - - " ++ fmt_apache now ++ str " "
  ++ quoted_field (ae_Method e ++ str " " ++ ae_Path e ++ str " " ++ ae_Proto e) ++ str " "
  ++ Itoa (ae_Status e) ++ str " " ++ Itoa (ae_Bytes e) ++ str " "
  ++ quoted_field (ae_Referer e) ++ str " " ++ quoted_field (ae_UserAgent e) ++ str " " ++ ae_RequestID e.
Definition jsonAccessLine (now : Time) (e : AccessEntry) : gostr :=
  jsonLine [(str "ip", JStr (ae_IP e)); (str "time", JStr (RFC3339 (UTC now)));
            (str "method", JStr (ae_Method e)); (str "path", JStr (ae_Path e));
            (str "status", JInt (ae_Status e)); (str "size", JInt (ae_Bytes e));
            (str "ua", JStr (ae_UserAgent e))].

(** ** A sanitized line is one line *)

(** The bytes a sanitized line may hold. *)
Definition line_byte (c : ascii) : bool := (code c =? 9) || ((32 <=? code c) && negb (code c =? 127)).

Lemma sanitizeLine_bytes s : Forall (fun c => line_byte c = true) (sanitizeLine s).
Proof.
  apply Forall_forall. intros c Hc%elem_of_string_of_runes.
  destruct Hc as (r & Hr & Hc). apply list_elem_of_filter in Hr as [Hk _].
  pose proof (encode_rune_bytes r c Hc) as Hb. unfold sanitize_keeps, line_byte in *. lia.
Qed.
Lemma sanitizeLine_newline s : "010"%char ∉ sanitizeLine s.
Proof.
  intros Hin. pose proof (sanitizeLine_bytes s) as H. rewrite Forall_forall in H. by apply H in Hin.
Qed.

(** ** The CEF header reads back *)

(** A reader of CEF: [n] header fields, each ended by an unescaped separator,
    a backslash taking the next byte as it is; then the extension. *)
Fixpoint cef_read (n : nat) (cur s : gostr) : option (list gostr * gostr) :=
  match n with
  | O => Some ([], cur ++ s)
  | S k =>
      match s with
      | [] => None
      | c :: s' =>
          if bool_decide (c = "|"%char) then
            match k with
            | O => Some ([cur], s')
            | _ => (fun p => (cur :: p.1, p.2)) <$> cef_read k [] s'
            end
          else if bool_decide (c = "\"%char) then
            match s' with
            | [] => None
            | d :: s'' => cef_read n (cur ++ [d]) s''
            end
          else cef_read n (cur ++ [c]) s'
      end
  end.

(** What escaping does to one byte. *)
Definition cef_escape_byte (c : ascii) : gostr :=
  if bool_decide (c = "|"%char) then str "\|" else if bool_decide (c = "\"%char) then str "\\" else [c].
Lemma cefEscapeHeader_bytes s : cefEscapeHeader s = s ≫= cef_escape_byte.
Proof.
  unfold cefEscapeHeader. change (str "\") with ["\"%char]. change (str "|") with ["|"%char].
  rewrite !ReplaceAll_byte.
  induction s as [|c s IH]; [done|]. cbn [mbind list_bind]. rewrite bind_app, IH. f_equal.
  unfold subst_byte, cef_escape_byte. repeat case_bool_decide; subst; try done; cbn; unfold subst_byte; repeat case_bool_decide; done.
Qed.
Lemma cef_read_field k f rest cur :
  cef_read (S k) cur (cefEscapeHeader f ++ str "|" ++ rest) =
  match k with
  | O => Some ([cur ++ f], rest)
  | _ => (fun p => ((cur ++ f) :: p.1, p.2)) <$> cef_read k [] rest
  end.
Proof.
  change (str "|" ++ rest) with ("|"%char :: rest). rewrite cefEscapeHeader_bytes. revert cur. induction f as [|c f IH]; intros cur.
  - rewrite app_nil_r. done.
  - cbn [mbind list_bind]. rewrite <-app_assoc. unfold cef_escape_byte at 1.
    replace (cur ++ c :: f) with ((cur ++ [c]) ++ f) by (by rewrite <-app_assoc).
    rewrite <-IH. repeat case_bool_decide; subst; try done.
    cbn [app cef_read]. by rewrite !bool_decide_eq_false_2.
Qed.
(** Numerals have nothing to escape. *)
Lemma cefEscapeHeader_plain s : "|"%char ∉ s -> "\"%char ∉ s -> cefEscapeHeader s = s.
Proof.
  rewrite cefEscapeHeader_bytes. induction s as [|c s IH]; [done|].
  rewrite !not_elem_of_cons. intros [? ?] [? ?]. cbn [mbind list_bind]. unfold cef_escape_byte at 1.
  rewrite !bool_decide_eq_false_2 by congruence. simpl. by rewrite IH.
Qed.
Lemma Itoa_not_elem c n : isDigit c = false -> c <> "-"%char -> c ∉ Itoa n.
Proof.
  intros Hc Hm Hin. unfold Itoa in Hin. destruct (Z.ltb_spec n 0) as [Hn|Hn].
  - apply elem_of_cons in Hin as [->|Hin]; [done|].
    destruct (utoa_correct (- n) ltac:(lia)) as (_ & Hd & _).
    rewrite forallb_forall in Hd. apply list_elem_of_In, Hd in Hin. congruence.
  - destruct (utoa_correct n Hn) as (_ & Hd & _).
    rewrite forallb_forall in Hd. apply list_elem_of_In, Hd in Hin. congruence.
Qed.

(** Whatever text the fields of a CEF record contain, separators and
    backslashes included, a reader that splits the line on unescaped
    separators recovers all seven header fields and the extension. *)
Theorem cefLine_roundtrip vendor product version eventClass name severity extension :
  cef_read 7 [] (cefLine vendor product version eventClass name severity extension) =
  Some ([str "CEF:0"; vendor; product; version; eventClass; name; Itoa severity], extension).
Proof.
  assert (Itoa severity = cefEscapeHeader (Itoa severity)) as E.
  { symmetry. apply cefEscapeHeader_plain; by apply Itoa_not_elem. }
  unfold cefLine. rewrite E at 1.
  change (str "CEF:0|") with (cefEscapeHeader (str "CEF:0") ++ str "|"). rewrite <-!app_assoc.
  by rewrite !cef_read_field.
Qed.

(** ** A field of the auth log can be forged *)

(** Pairs are joined without quoting: a value with blanks reads as more pairs. *)
Lemma kvJoin_ambiguous :
  kvJoin [str "endpoint"; str "/x result=ok"; str "result"; str "fail"] =
  kvJoin [str "endpoint"; str "/x"; str "result"; str "ok"; str "result"; str "fail"].
Proof. reflexivity. Qed.

(** ** Records *)

Example textLine_example :
  textLine (mkTime (1767323045 * Second) 3600) (str "INFO") (str "up") = str "2026-01-02T04:04:05+01:00 [INFO] up".
Proof. vm_compute. reflexivity. Qed.
Example syslog_example :
  syslog3164Line (mkTime (1767323045 * Second) 0) (str "h") (str "ipgaze") 7 (str "auth: a=b") =
  str "Jan  2 03:04:05 h ipgaze[7]: auth: a=b".
Proof. vm_compute. reflexivity. Qed.
