(* ===== verification/LogFiles.v ===== *)
(** * The self-rotating log files: [log/rotate.go] and the writers of [log/manager.go]

    A log directory is a map from paths to files; a writer holds an open file,
    which stays the same file when its path is renamed.  Every call into the
    operating system can fail, as its argument of type [faults] says.  The
    theorems: archive names sort as time; the period key changes exactly when
    the period does; retention keeps exactly the newest archives and touches
    nothing but archives; a file outgrows its ceiling only by a single line; and
    a directory whose archives are all kept holds every line written, in order. *)
From stdpp Require Import base list gmap strings sorting.
From Stdlib Require Import ZArith Lia.
From S2P Require Import Prelude GoStrings GoUtf8 GoPath GoTime LogFormat.
Local Open Scope Z_scope.
Local Open Scope go_scope.

(** ** Policies *)

Record rotatePolicy := mkRotate { period : gostr; maxBytes : Z }.
Definition enabled (p : rotatePolicy) : bool := (period p <>s []) || (0 <? maxBytes p).

(** [keepPolicy]: the mode with the field it uses. *)
Inductive keepPolicy := KeepNone | KeepCount (count : Z) | KeepAge (age : Z) | KeepForever.
#[export] Instance keepPolicy_eq_dec : EqDecision keepPolicy.
Proof. solve_decision. Defined.

Definition parseSize (tok : gostr) : Z :=
  let '(multiplier, digits) :=
    if HasSuffix tok (str "kb") then (1024, TrimSuffix tok (str "kb"))
    else if HasSuffix tok (str "mb") then (1024 * 1024, TrimSuffix tok (str "mb"))
    else if HasSuffix tok (str "gb") then (1024 * 1024 * 1024, TrimSuffix tok (str "gb"))
    else if HasSuffix tok (str "b") then (1, TrimSuffix tok (str "b"))
    else (1, tok) in
  match ParseInt (TrimSpace digits) with
  | Some n => if n <=? 0 then 0 else int64 (n * multiplier)
  | None => 0
  end.

Definition periods : list gostr := str <$> ["daily"; "weekly"; "monthly"; "yearly"]%string.
Definition parseRotate_token (p : rotatePolicy) (tok : gostr) : rotatePolicy :=
  let tok := TrimSpace tok in
  if decide (tok ∈ [[]; str "never"; str "none"]) then p
  else if decide (tok ∈ periods) then mkRotate tok (maxBytes p)
  else let n := parseSize tok in if 0 <? n then mkRotate (period p) n else p.
Definition parseRotate `{UnicodeTables} (s : gostr) : rotatePolicy :=
  fold_left parseRotate_token (Split (ToLower (TrimSpace s)) (str ",")) (mkRotate [] 0).

Definition Day : Z := 24 * Hour.
Definition parseKeep `{UnicodeTables} (s : gostr) : keepPolicy :=
  let s := ToLower (TrimSpace s) in
  if decide (s ∈ [[]; str "none"]) then KeepNone
  else if decide (s ∈ [str "forever"; str "always"]) then KeepForever
  else
    let unit := List.last s "0"%char in
    if isDigit unit then
      match ParseInt s with
      | Some n => if n <=? 0 then KeepNone else KeepCount n
      | None => KeepNone
      end
    else
      match ParseInt (removelast s) with
      | Some n =>
          if n <=? 0 then KeepNone
          else if bool_decide (unit = "d"%char) then KeepAge (int64 (n * Day))
          else if bool_decide (unit = "w"%char) then KeepAge (int64 (int64 (n * 7) * Day))
          else if bool_decide (unit = "m"%char) then KeepAge (int64 (int64 (n * 30) * Day))
          else KeepNone
      | None => KeepNone
      end.

Definition periodKey (period : gostr) (t : Time) : gostr :=
  if period =s str "daily" then fmt_ymd t
  else if period =s str "weekly" then
    let '(y, w) := ISOWeek t in appendInt 4 y ++ str "-W" ++ appendInt 2 w
  else if period =s str "monthly" then fmt_ym t
  else if period =s str "yearly" then fmt_y t
  else [].

(** ** Archive names *)

(** [filepath.Ext]: from the last dot of the last element, walking back to a
    separator. *)
Fixpoint ext_back (rev acc : gostr) : gostr :=
  match rev with
  | [] => []
  | c :: rest =>
      if bool_decide (c = slash) then []
      else if bool_decide (c = "."%char) then c :: acc else ext_back rest (c :: acc)
  end.
Definition Ext (p : gostr) : gostr := ext_back (reverse p) [].

Definition archiveName (filename : gostr) (t : Time) : gostr :=
  let ext := Ext filename in
  TrimSuffix filename ext ++ str "-" ++ fmt_stamp t ++ ext.
Definition archivePrefixSuffix (filename : gostr) : gostr * gostr :=
  let ext := Ext filename in (TrimSuffix filename ext ++ str "-", ext).

(** ** The file system *)

Record inode := mkInode { i_data : gostr; i_mtime : Time }.
Inductive entry := File (ino : nat) | Directory.
#[export] Instance entry_eq_dec : EqDecision entry.
Proof. solve_decision. Defined.
Record fs := mkFs { names : gmap gostr entry; inodes : gmap nat inode; next_ino : nat }.

(** The calls that can fail.  A gzip pass fails before it opens its output, while
    it writes it, or when it removes its input; a write after some bytes. *)
Inductive compress_fault := COpen | CWrite | CRemove.
Record faults := mkFaults {
  f_mkdir : bool; f_close : bool; f_rename : bool; f_open : gostr -> bool; f_stat : gostr -> bool;
  f_fstat : bool; f_readdir : bool; f_remove : gostr -> bool; f_write : option nat;
  f_compress : option compress_fault }.
Definition no_faults : faults :=
  mkFaults false false false (fun _ => false) (fun _ => false) false false (fun _ => false) None None.
Inductive os_error := EMkdir | EClose | ERename | EOpen | EReadDir | ERemove (name : gostr) | ECompress.

Definition data_of (fsys : fs) (ino : nat) : gostr := default [] (i_data <$> inodes fsys !! ino).
Definition file_at (fsys : fs) (path : gostr) : option nat :=
  match names fsys !! path with Some (File i) => Some i | _ => None end.

(** [os.OpenFile(path, O_WRONLY|O_CREATE|O_APPEND, 0640)] *)
Definition open_append (e : faults) (now : Time) (path : gostr) (fsys : fs) : option nat * fs :=
  if f_open e path then (None, fsys)
  else match names fsys !! path with
       | Some (File i) => (Some i, fsys)
       | Some Directory => (None, fsys)
       | None =>
           let i := next_ino fsys in
           (Some i, mkFs (<[path := File i]> (names fsys)) (<[i := mkInode [] now]> (inodes fsys)) (S i))
       end.
(** [os.Rename]: an existing file at the target is replaced. *)
Definition rename (e : faults) (path target : gostr) (fsys : fs) : option fs :=
  if f_rename e then None
  else match names fsys !! path with
       | Some (File i) =>
           if decide (names fsys !! target = Some Directory) then None
           else Some (mkFs (<[target := File i]> (delete path (names fsys))) (inodes fsys) (next_ino fsys))
       | _ => None
       end.
Definition remove_name (path : gostr) (fsys : fs) : fs :=
  mkFs (delete path (names fsys)) (inodes fsys) (next_ino fsys).
(** [os.ReadDir]: the names directly below [dir] that are not directories. *)
Definition last_element (p : gostr) : gostr := List.last (segments p) [].
Definition ReadDir_files (dir : gostr) (fsys : fs) : list gostr :=
  omap (fun pe => let n := last_element pe.1 in
                  if decide (pe.2 <> Directory /\ path_Join dir n = pe.1) then Some n else None)
       (map_to_list (names fsys)).

(** [fileSize] *)
Definition fileSize (e : faults) (ino : nat) (fsys : fs) : Z :=
  if f_fstat e then 0 else Z.of_nat (length (data_of fsys ino)).

(** ** Writers *)

Record writer := mkWriter {
  w_file : option nat; w_dir : gostr; w_filename : gostr; w_format : gostr; w_size : Z;
  w_opened : Time; w_rotate : rotatePolicy; w_keep : keepPolicy; w_compress : bool }.
Definition set_file (f : option nat) (w : writer) : writer :=
  mkWriter f (w_dir w) (w_filename w) (w_format w) (w_size w) (w_opened w) (w_rotate w) (w_keep w) (w_compress w).
Definition set_active (f : option nat) (sz : Z) (opened : Time) (w : writer) : writer :=
  mkWriter f (w_dir w) (w_filename w) (w_format w) sz opened (w_rotate w) (w_keep w) (w_compress w).
Definition active_path (w : writer) : gostr := path_Join (w_dir w) (w_filename w).

Definition needsRotateLocked (w : writer) (now : Time) (n : Z) : bool :=
  if bool_decide (w_file w = None) || negb (enabled (w_rotate w)) || (w_size w =? 0) then false
  else if (0 <? maxBytes (w_rotate w)) && (maxBytes (w_rotate w) <? w_size w + n) then true
  else (period (w_rotate w) <>s []) &&
       (periodKey (period (w_rotate w)) (w_opened w) <>s periodKey (period (w_rotate w)) now).

(** The names [pruneLocked] collects, newest first. *)
Definition is_archive (filename name : gostr) : bool :=
  let '(prefix, suffix) := archivePrefixSuffix filename in
  HasPrefix name prefix && (HasSuffix name suffix || HasSuffix name (suffix ++ str ".gz")).
Definition archives (w : writer) (fsys : fs) : list gostr :=
  merge_sort str_ge (filter (fun n => is_archive (w_filename w) n = true) (ReadDir_files (w_dir w) fsys)).

(** The closure [remove]: the first error is kept, the rest goes on. *)
Definition remove (e : faults) (w : writer) (st : fs * option os_error) (name : gostr) : fs * option os_error :=
  let '(fsys, err) := st in
  let path := path_Join (w_dir w) name in
  if f_remove e path || bool_decide (names fsys !! path = None)
  then (fsys, match err with None => Some (ERemove name) | _ => err end)
  else (remove_name path fsys, err).

(** [os.Stat(...).ModTime().Before(cutoff)]; an archive that cannot be examined is left. *)
Definition older_than (e : faults) (w : writer) (cutoff : Time) (fsys : fs) (name : gostr) : bool :=
  let path := path_Join (w_dir w) name in
  if f_stat e path then false
  else match file_at fsys path ≫= (fun i => inodes fsys !! i) with
       | Some nd => Before (i_mtime nd) cutoff
       | None => false
       end.

Definition pruneLocked (e : faults) (w : writer) (now : Time) (fsys : fs) : fs * option os_error :=
  if bool_decide (w_keep w = KeepForever) || (w_dir w =s []) || (w_filename w =s []) then (fsys, None)
  else if f_readdir e then (fsys, Some EReadDir)
  else
    let arch := archives w fsys in
    match w_keep w with
    | KeepCount count => fold_left (remove e w) (drop (Z.to_nat count) arch) (fsys, None)
    | KeepAge age =>
        let cutoff := Add now (int64 (- age)) in
        fold_left (fun st name => if older_than e w cutoff st.1 name then remove e w st name else st)
                  arch (fsys, None)
    | _ => fold_left (remove e w) arch (fsys, None)
    end.

Section gzip.
  (** The output of [compress/gzip] for an input. *)
  Context (gz : gostr -> gostr).

(** [compressFile] *)
Definition compressFile (e : faults) (now : Time) (path : gostr) (fsys : fs) : fs * option os_error :=
  let gzPath := path ++ str ".gz" in
  match file_at fsys path, names fsys !! gzPath, f_compress e with
  | None, _, _ | _, Some Directory, _ | _, _, Some COpen => (fsys, Some ECompress)
  | _, _, Some CWrite => (remove_name gzPath fsys, Some ECompress)
  | Some i, old, f =>
      let j := match old with Some (File j) => j | _ => next_ino fsys end in
      let fsys1 := mkFs (<[gzPath := File j]> (names fsys))
                     (<[j := mkInode (gz (data_of fsys i)) now]> (inodes fsys))
                     (Nat.max (next_ino fsys) (S j)) in
      match f with
      | Some _ => (fsys1, Some ECompress)
      | None => (remove_name path fsys1, None)
      end
  end.

Definition rotateLocked (e : faults) (w : writer) (now : Time) (fsys : fs)
    : writer * fs * option os_error :=
  if bool_decide (w_file w = None) || (w_dir w =s []) || (w_filename w =s []) then (w, fsys, None)
  else
    let path := active_path w in
    let archive := path_Join (w_dir w) (archiveName (w_filename w) now) in
    if f_close e then (w, fsys, Some EClose)
    else match rename e path archive fsys with
         | None =>
             match open_append e now path fsys with
             | (Some i, fsys1) => (set_active (Some i) (fileSize e i fsys1) now w, fsys1, Some ERename)
             | (None, fsys1) => (set_file None w, fsys1, Some ERename)
             end
         | Some fsys1 =>
             match open_append e now path fsys1 with
             | (None, fsys2) => (set_file None w, fsys2, Some EOpen)
             | (Some i, fsys2) =>
                 let w1 := set_active (Some i) 0 now w in
                 let '(fsys3, err) :=
                   if w_compress w then compressFile e now archive fsys2 else (fsys2, None) in
                 match err with
                 | Some _ => (w1, fsys3, err)
                 | None => let '(fsys4, err') := pruneLocked e w1 now fsys3 in (w1, fsys4, err')
                 end
             end
         end.

Definition rotateIfDue (e : faults) (w : writer) (now : Time) (fsys : fs)
    : writer * fs * option os_error :=
  if bool_decide (w_file w = None) then (w, fsys, None)
  else if needsRotateLocked w now 0 then rotateLocked e w now fsys
  else let '(fsys1, err) := pruneLocked e w now fsys in (w, fsys1, err).

(** Appending to the open file: all of the bytes, or the first few of them. *)
Definition append (now : Time) (ino : nat) (bytes : gostr) (fsys : fs) : fs :=
  mkFs (names fsys) (<[ino := mkInode (data_of fsys ino ++ bytes) now]> (inodes fsys)) (next_ino fsys).
Definition newline : gostr := ["010"%char].

Definition write (e : faults) (line : gostr) (now : Time) (w : writer) (fsys : fs) : writer * fs :=
  let line := sanitizeLine line in
  if decide (line = []) then (w, fsys)
  else match w_file w with
       | None => (w, fsys)
       | Some _ =>
           let n := Z.of_nat (length line) + 1 in
           let '(w1, fsys1) :=
             if needsRotateLocked w now n
             then let '(w1, fsys1, _) := rotateLocked e w now fsys in (w1, fsys1)
             else (w, fsys) in
           match w_file w1 with
           | None => (w1, fsys1)
           | Some i =>
               match f_write e with
               | Some k => (w1, append now i (take k (line ++ newline)) fsys1)
               | None => (set_active (Some i) (w_size w1 + n) (w_opened w1) w1,
                          append now i (line ++ newline) fsys1)
               end
           end
       end.
End gzip.

Definition close (w : writer) : writer := set_file None w.
(** [replace]: the receiver takes the other writer's file and configuration. *)
Definition replace (w next : writer) : writer * writer := (next, set_file None next).

Record LogFileConfig := {
  lf_Enabled : bool; lf_Filename : gostr; lf_Format : gostr; lf_Custom : gostr; lf_Rotate : gostr; lf_Keep : gostr }.

(** The zero [time.Time], of a writer without a file. *)
Definition zero_time : Time := mkTime (-62135596800 * Second) 0.
Definition openWriter `{UnicodeTables} (e : faults) (now : Time) (logDir : gostr) (cfg : LogFileConfig)
    (defaultFormat : gostr) (compress : bool) (fsys : fs) : result os_error writer * fs :=
  let format := resolveFormat (lf_Format cfg) defaultFormat in
  if negb (lf_Enabled cfg) || (logDir =s []) || (lf_Filename cfg =s [])
  then (Ok (mkWriter None [] [] format 0 zero_time (mkRotate [] 0) KeepNone false), fsys)
  else if f_mkdir e then (Err EMkdir, fsys)
  else
    let path := path_Join logDir (lf_Filename cfg) in
    match open_append e now path fsys with
    | (None, fsys1) => (Err EOpen, fsys1)
    | (Some i, fsys1) =>
        let size := fileSize e i fsys1 in
        let opened :=
          if negb (f_fstat e) && (0 <? size)
          then default now (i_mtime <$> inodes fsys1 !! i) else now in
        (Ok (mkWriter (Some i) logDir (lf_Filename cfg) format size opened
               (parseRotate (lf_Rotate cfg)) (parseKeep (lf_Keep cfg)) compress), fsys1)
    end.

(** ** Archive names *)

Lemma ext_back_split rev acc :
  ext_back rev acc = [] \/
  exists e rest, rev = e ++ "."%char :: rest /\ ext_back rev acc = "."%char :: reverse e ++ acc.
Proof.
  revert acc. induction rev as [|c rev IH]; intros acc; [by left|]. simpl.
  case_bool_decide; [by left|]. case_bool_decide as Hc.
  - right. subst c. by exists [], rev.
  - destruct (IH (c :: acc)) as [->|(e & rest & -> & ->)]; [by left|right].
    exists (c :: e), rest. split; [done|]. by rewrite reverse_cons, <-app_assoc.
Qed.
(** A file name is its stem and its extension, which is empty or starts with a dot. *)
Lemma Ext_split f :
  f = TrimSuffix f (Ext f) ++ Ext f /\ (Ext f = [] \/ exists r, Ext f = "."%char :: r).
Proof.
  unfold Ext. destruct (ext_back_split (reverse f) []) as [->|(e & rest & Hr & He)].
  - split; [|by left]. pose proof (TrimSuffix_app f []) as E. rewrite app_nil_r in E |- *. done.
  - rewrite He, app_nil_r. split; [|by eauto].
    assert (f = reverse rest ++ "."%char :: reverse e) as ->.
    { apply (f_equal reverse) in Hr. rewrite reverse_involutive in Hr. rewrite Hr.
      by rewrite reverse_app, reverse_cons, <-app_assoc. }
    by rewrite TrimSuffix_app.
Qed.
Definition stem (f : gostr) : gostr := TrimSuffix f (Ext f).

Lemma archiveName_is_archive f t : is_archive f (archiveName f t) = true.
Proof.
  unfold is_archive, archivePrefixSuffix, archiveName. cbn zeta.
  rewrite (app_assoc _ (str "-")), HasPrefix_app, (app_assoc _ (fmt_stamp t)), HasSuffix_app. done.
Qed.
(** The active file is never taken for an archive of itself. *)
Lemma active_not_archive f : is_archive f f = false.
Proof.
  unfold is_archive, archivePrefixSuffix. destruct (Ext_split f) as [Hf He].
  apply andb_false_iff. left. unfold HasPrefix. apply bool_decide_eq_false_2.
  intros Hp. assert (TrimSuffix f (Ext f) ++ str "-" `prefix_of` TrimSuffix f (Ext f) ++ Ext f) as Hq by (by rewrite <-Hf).
  clear Hp Hf. apply prefix_app_inv in Hq as Hp. destruct Hp as [k Hk].
  destruct He as [E|[r E]]; rewrite E in Hk; by simplify_eq/=.
Qed.

Lemma archiveName_ltb f t u : four_digit_year t -> four_digit_year u ->
  str_ltb (archiveName f t) (archiveName f u) = (wall_seconds t <? wall_seconds u).
Proof.
  intros Ht Hu. unfold archiveName. rewrite !str_ltb_prefix, str_ltb_app by (by rewrite !fmt_stamp_length).
  by rewrite fmt_stamp_ltb, str_ltb_irrefl, andb_false_r, orb_false_r.
Qed.

(** The names of the archives of a log file sort as the wall-clock times at
    which they were made, so that the descending order of names in which
    pruning walks them is newest first (four-digit years). *)
Theorem archiveName_sorts f t u : four_digit_year t -> four_digit_year u ->
  str_ltb (archiveName f t) (archiveName f u) = (wall_seconds t <? wall_seconds u).
Proof. apply archiveName_ltb. Qed.
Lemma archiveName_sorts_witness :
  str_ltb (archiveName (str "access.log") (mkTime 0 0)) (archiveName (str "access.log") (mkTime Second 0)) = true.
Proof. apply (archiveName_sorts (str "access.log") (mkTime 0 0) (mkTime Second 0)); decided. Defined.

(** ** Periods *)

(** The calendar period a time falls in, counted without any formatting. *)
Definition period_index (p : gostr) (t : Time) : Z :=
  if p =s str "daily" then day_number t
  else if p =s str "weekly" then iso_week_index (day_number t)
  else if p =s str "monthly" then 12 * year t + month t
  else year t.
(** Every year the keys write, the ISO year included, has four digits. *)
Definition key_years (t : Time) : Prop := four_digit_year t /\ 0 <= (ISOWeek t).1 <= 9999.
#[export] Instance key_years_dec t : Decision (key_years t).
Proof. unfold key_years. apply _. Defined.

Lemma fmt_y_eq t u : four_digit_year t -> four_digit_year u -> fmt_y t = fmt_y u <-> year t = year u.
Proof. intros Ht Hu. apply (block_eq_iff 4); by apply four_digits. Qed.
Lemma two_digits_eq m n : 0 <= m <= 99 -> 0 <= n <= 99 -> appendInt 2 m = appendInt 2 n <-> m = n.
Proof. intros Hm Hn. apply (block_eq_iff 2); by apply two_digits. Qed.
(** Two texts of a fixed-width part and a rest agree when both parts do. *)
Lemma fixed_app_eq (a b x y : gostr) : length a = length b -> a ++ x = b ++ y <-> a = b /\ x = y.
Proof. intros Hl. split; [by apply app_inj_1|by intros [-> ->]]. Qed.
Lemma fmt_y_length t : four_digit_year t -> length (fmt_y t) = 4%nat.
Proof. intros Ht. by destruct (four_digits t Ht) as [? _]. Qed.
Lemma month_range t : 0 <= month t <= 99.
Proof. pose proof (month_of_day_bounds (day_number t)). unfold month. lia. Qed.
Lemma day_range t : 0 <= day t <= 99.
Proof. pose proof (mday_of_day_bounds (day_number t)). unfold day. lia. Qed.
Lemma fmt_ym_eq t u : four_digit_year t -> four_digit_year u ->
  fmt_ym t = fmt_ym u <-> year t = year u /\ month t = month u.
Proof.
  intros Ht Hu. unfold fmt_ym. rewrite fixed_app_eq by (by rewrite !fmt_y_length).
  rewrite fixed_app_eq by done. rewrite fmt_y_eq, two_digits_eq by (done || apply month_range). naive_solver.
Qed.
Lemma fmt_ymd_eq t u : four_digit_year t -> four_digit_year u ->
  fmt_ymd t = fmt_ymd u <-> day_number t = day_number u.
Proof.
  intros Ht Hu. unfold fmt_ymd. rewrite fixed_app_eq.
  - rewrite fixed_app_eq, fmt_ym_eq, two_digits_eq by (done || apply day_range). split.
    + intros ((Hy & Hm) & _ & Hd). apply date_key_inj. unfold date_key, year, month, day in *. lia.
    + unfold year, month, day. by intros ->.
  - unfold fmt_ym. rewrite !length_app, !fmt_y_length by done.
    pose proof (two_digits _ (month_range t)) as [-> _]. by pose proof (two_digits _ (month_range u)) as [-> _].
Qed.
Lemma periodKey_weekly t :
  periodKey (str "weekly") t = appendInt 4 (ISOWeek t).1 ++ str "-W" ++ appendInt 2 (ISOWeek t).2.
Proof. reflexivity. Qed.
Lemma week_range t : 0 <= (ISOWeek t).2 <= 99.
Proof.
  unfold ISOWeek. cbn [snd]. pose proof (yday_bounds (thursday (day_number t))). destruct (leap _); zlia.
Qed.
Lemma week_key_eq t u : key_years t -> key_years u ->
  periodKey (str "weekly") t = periodKey (str "weekly") u <-> ISOWeek t = ISOWeek u.
Proof.
  intros [_ Ht] [_ Hu]. rewrite !periodKey_weekly.
  pose proof (appendInt_fixed 4 _ ltac:(lia) ltac:(simpl; split; [apply Ht|lia])) as By.
  pose proof (appendInt_fixed 4 _ ltac:(lia) ltac:(simpl; split; [apply Hu|lia])) as By'.
  rewrite fixed_app_eq by (destruct By as [-> _], By' as [-> _]; done).
  rewrite fixed_app_eq by done. rewrite (block_eq_iff _ _ _ _ _ By By'), two_digits_eq by apply week_range.
  destruct (ISOWeek t), (ISOWeek u). naive_solver.
Qed.

(** Within four-digit years, the key of a rotation period changes exactly
    when the calendar day, ISO week, month or year does. *)
Theorem periodKey_exact p t u : p ∈ periods -> key_years t -> key_years u ->
  periodKey p t = periodKey p u <-> period_index p t = period_index p u.
Proof.
  intros Hp Ht Hu. pose proof (month_of_day_bounds (day_number t)). pose proof (month_of_day_bounds (day_number u)).
  pose proof Ht as [Hty _]. pose proof Hu as [Huy _].
  unfold periods in Hp. cbn [fmap list_fmap] in Hp. rewrite !elem_of_cons in Hp.
  destruct Hp as [->|[->|[->|[->|Hp]]]]; [| | | |by apply elem_of_nil in Hp].
  - by apply fmt_ymd_eq.
  - rewrite week_key_eq by done. apply ISOWeek_week.
  - change (fmt_ym t = fmt_ym u <-> 12 * year t + month t = 12 * year u + month u).
    rewrite fmt_ym_eq by done. unfold month in *. lia.
  - by apply fmt_y_eq.
Qed.
(** Midnight between two ISO weeks, between 2020-W53 and 2021-W01. *)
Lemma periodKey_exact_witness :
  periodKey (str "weekly") (mkTime (1609718399 * Second) 0) <> periodKey (str "weekly") (mkTime (1609718400 * Second) 0).
Proof.
  rewrite (periodKey_exact (str "weekly") (mkTime (1609718399 * Second) 0) (mkTime (1609718400 * Second) 0));
    [vm_compute; discriminate|decided..].
Defined.

(** ** Reading and pruning the directory *)

Lemma segments_plain n : plain n -> segments n = [n].
Proof.
  intros (Hn & _ & _ & Hs). unfold segments. rewrite split_on_plain by done. by rewrite filter_cons_True.
Qed.
Lemma last_element_Join dir n : dir <> [] -> plain n -> last_element (path_Join dir n) = n.
Proof.
  intros Hd Hn. unfold path_Join. destruct dir as [|c d]; [done|].
  assert (exists cs, comps ((c :: d) ++ slash :: n) = cs ++ [n]) as [cs Hcs].
  { rewrite comps_segments, segments_app, (segments_plain n) by done.
    rewrite clean_comps_plain by (by constructor). by eexists. }
  unfold last_element. destruct (segments_Clean ((c :: d) ++ slash :: n)) as [->|[E _]].
  - rewrite Hcs. apply last_last.
  - rewrite Hcs in E. by apply app_eq_nil in E as [_ ?].
Qed.

Lemma elem_of_ReadDir dir fsys n :
  n ∈ ReadDir_files dir fsys <->
  (exists i, names fsys !! path_Join dir n = Some (File i)) /\ last_element (path_Join dir n) = n.
Proof.
  unfold ReadDir_files. rewrite list_elem_of_omap. split.
  - intros ([p en] & Hin & Hif). cbn in Hif. case_decide as Hd; [|done]. destruct Hd as [Hf Hp].
    injection Hif as <-. apply elem_of_map_to_list in Hin. rewrite Hp. split; [|done].
    destruct en as [i|]; [by exists i|done].
  - intros [[i Hi] Hl]. exists (path_Join dir n, File i). rewrite elem_of_map_to_list. split; [done|].
    cbn [fst snd]. rewrite Hl. by rewrite decide_True.
Qed.
Lemma NoDup_ReadDir dir fsys : NoDup (ReadDir_files dir fsys).
Proof.
  unfold ReadDir_files. pose proof (NoDup_map_to_list (names fsys)) as H.
  pose proof (NoDup_fst_map_to_list (names fsys)) as Hk. clear H.
  induction (map_to_list (names fsys)) as [|[p en] l IH]; [constructor|].
  cbn in Hk. apply NoDup_cons in Hk as [Hp Hk]. cbn. case_decide as Hd; [|by apply IH].
  constructor; [|by apply IH]. intros ([q en'] & Hq & Hif)%list_elem_of_omap. cbn in Hif. case_decide as Hd'; [|done].
  injection Hif as Hif. rewrite Hif in Hd'. apply Hp.
  replace p with q by (by destruct Hd, Hd'; congruence). apply list_elem_of_fmap. by exists (q, en').
Qed.

Lemma elem_of_archives w fsys n :
  n ∈ archives w fsys <-> is_archive (w_filename w) n = true /\ n ∈ ReadDir_files (w_dir w) fsys.
Proof. unfold archives. by rewrite merge_sort_Permutation, list_elem_of_filter. Qed.
Lemma NoDup_archives w fsys : NoDup (archives w fsys).
Proof. unfold archives. rewrite merge_sort_Permutation. apply NoDup_filter, NoDup_ReadDir. Qed.
Lemma Sorted_archives w fsys : StronglySorted str_ge (archives w fsys).
Proof. unfold archives. apply (StronglySorted_merge_sort _). Qed.
(** A sorted list without repetitions is determined by its elements. *)
Lemma sorted_ext (k l : list gostr) :
  NoDup k -> NoDup l -> StronglySorted str_ge k -> StronglySorted str_ge l ->
  (forall x, x ∈ k <-> x ∈ l) -> k = l.
Proof.
  intros Hk Hl Sk Sl He. apply (StronglySorted_unique str_ge); [done..|]. by apply NoDup_Permutation.
Qed.

(** What a removal leaves: the other names and every file's contents. *)
Lemma remove_frame e w st n p :
  p <> path_Join (w_dir w) n -> names (remove e w st n).1 !! p = names st.1 !! p.
Proof. intros Hp. unfold remove. destruct st. case_match; [done|]. cbn. by rewrite lookup_delete_ne. Qed.
Lemma remove_inodes e w st n : inodes (remove e w st n).1 = inodes st.1.
Proof. unfold remove. destruct st. by case_match. Qed.
(** Pruning removes some of the archives, in the order it walks them. *)
Lemma prune_removes e w now fsys : exists l,
  l `sublist_of` archives w fsys /\
  (pruneLocked e w now fsys).1 = (fold_left (remove e w) l (fsys, None)).1.
Proof.
  unfold pruneLocked. case_match; [by exists []; split; [apply sublist_nil_l|]|].
  case_match; [by exists []; split; [apply sublist_nil_l|]|].
  destruct (w_keep w) as [|count|age|].
  - by exists (archives w fsys).
  - exists (drop (Z.to_nat count) (archives w fsys)). split; [apply sublist_drop|done].
  - generalize (fsys, @None os_error) at 1 2. generalize (Add now (int64 (- age))). intros cutoff.
    induction (archives w fsys) as [|n l IH]; intros st; [by exists []|]. cbn [fold_left].
    destruct (older_than e w cutoff st.1 n).
    + destruct (IH (remove e w st n)) as (k & Hk & ->). exists (n :: k). split; [by constructor|done].
    + destruct (IH st) as (k & Hk & ->). exists k. split; [by constructor|done].
  - by exists (archives w fsys).
Qed.
Lemma fold_remove_frame e w l st p :
  (forall n, n ∈ l -> p <> path_Join (w_dir w) n) ->
  names (fold_left (remove e w) l st).1 !! p = names st.1 !! p.
Proof.
  revert st. induction l as [|n l IH]; intros st Hp; [done|]. cbn.
  rewrite IH by (intros; apply Hp; by right). apply remove_frame, Hp. by left.
Qed.
Lemma fold_remove_inodes e w l st : inodes (fold_left (remove e w) l st).1 = inodes st.1.
Proof. revert st. induction l as [|n l IH]; intros st; [done|]. cbn. by rewrite IH, remove_inodes. Qed.
Lemma remove_stays_gone e w st n p : names st.1 !! p = None -> names (remove e w st n).1 !! p = None.
Proof. intros Hp. unfold remove. destruct st. case_match; [done|]. cbn. by apply lookup_delete_None; right. Qed.
Lemma fold_remove_stays_gone e w l st p :
  names st.1 !! p = None -> names (fold_left (remove e w) l st).1 !! p = None.
Proof. revert st. induction l as [|n l IH]; intros st Hp; [done|]. cbn. by apply IH, remove_stays_gone. Qed.
Lemma fold_remove_gone w l st n :
  n ∈ l -> names (fold_left (remove no_faults w) l st).1 !! path_Join (w_dir w) n = None.
Proof.
  revert st. induction l as [|m l IH]; intros st Hin; [by apply elem_of_nil in Hin|]. cbn.
  apply elem_of_cons in Hin as [->|?]; [|by apply IH]. apply fold_remove_stays_gone.
  unfold remove. destruct st as [f err]. cbn [f_remove no_faults orb fst]. case_bool_decide as Hn; [done|].
  cbn. apply lookup_delete_eq.
Qed.

(** Whatever the retention policy and whichever system calls fail, pruning
    removes archives of its own file only: every other name of the directory
    keeps its entry, the active file among them, and no file changes its
    contents. *)
Theorem pruneLocked_frame e w now fsys :
  inodes (pruneLocked e w now fsys).1 = inodes fsys /\
  forall p, names (pruneLocked e w now fsys).1 !! p = names fsys !! p \/
            exists n, n ∈ archives w fsys /\ p = path_Join (w_dir w) n.
Proof.
  destruct (prune_removes e w now fsys) as (l & Hl & ->). split; [by rewrite fold_remove_inodes|].
  intros p. destruct (decide (p ∈ path_Join (w_dir w) <$> l)) as [Hp|Hp].
  - right. apply list_elem_of_fmap in Hp as (n & -> & Hn). exists n. split; [|done]. by eapply elem_of_sublist.
  - left. rewrite fold_remove_frame; [done|]. intros n Hn ->. apply Hp, list_elem_of_fmap. by exists n.
Qed.

(** A listed name is the last element of its path, so paths tell names apart. *)
Lemma listed_inj w fsys (l : list gostr) n m :
  (forall k, k ∈ l -> k ∈ archives w fsys) -> last_element (path_Join (w_dir w) n) = n ->
  m ∈ l -> path_Join (w_dir w) n = path_Join (w_dir w) m -> n = m.
Proof.
  intros Hl Hn Hm E. apply Hl, elem_of_archives in Hm as [_ [_ Hm]%elem_of_ReadDir]. congruence.
Qed.
Lemma fold_remove_archives w fsys (l : list gostr) :
  (forall n, n ∈ l -> n ∈ archives w fsys) ->
  forall n, n ∈ archives w (fold_left (remove no_faults w) l (fsys, None)).1 <-> n ∈ archives w fsys /\ n ∉ l.
Proof.
  intros Hl n. rewrite !elem_of_archives, !elem_of_ReadDir. split.
  - intros (Ha & [i Hi] & Hn). assert (n ∉ l) as Hnl.
    { intros Hin. by rewrite fold_remove_gone in Hi. }
    rewrite fold_remove_frame in Hi; [by eauto 6|]. intros m Hm E. apply Hnl.
    by rewrite (listed_inj w fsys l n m).
  - intros ((Ha & [i Hi] & Hn) & Hnl). split_and!; [done| |done]. exists i.
    rewrite fold_remove_frame; [done|]. intros m Hm E. apply Hnl. by rewrite (listed_inj w fsys l n m).
Qed.

Definition count_policy (w : writer) : option nat :=
  match w_keep w with KeepNone => Some 0%nat | KeepCount c => Some (Z.to_nat c) | _ => None end.
Lemma prune_count w now fsys count :
  count_policy w = Some count -> w_dir w <> [] -> w_filename w <> [] ->
  pruneLocked no_faults w now fsys = fold_left (remove no_faults w) (drop count (archives w fsys)) (fsys, None).
Proof.
  intros Hc Hd Hf. unfold pruneLocked, count_policy in *. rewrite !(bool_decide_eq_false_2 (_ = [])) by done.
  rewrite bool_decide_eq_false_2 by (intros E; by rewrite E in Hc). by destruct (w_keep w); simplify_eq.
Qed.

(** When the directory can be read and its files removed, a policy that
    keeps [count] archives leaves exactly the [count] newest of them, and none
    for the policy "none". *)
Theorem pruneLocked_newest w now fsys count :
  count_policy w = Some count -> w_dir w <> [] -> w_filename w <> [] ->
  archives w (pruneLocked no_faults w now fsys).1 = take count (archives w fsys).
Proof.
  intros Hc Hd Hf. rewrite (prune_count _ _ _ count) by done.
  pose proof (NoDup_archives w fsys) as Hnd. pose proof (Sorted_archives w fsys) as Hs.
  rewrite <-(take_drop count (archives w fsys)) in Hnd, Hs. apply NoDup_app in Hnd as (Hnt & Hdis & _).
  apply sorted_ext; [apply NoDup_archives|done|apply Sorted_archives|by eapply StronglySorted_app_1_l|].
  intros n. rewrite fold_remove_archives by (intros m Hm; by eapply elem_of_sublist, sublist_drop).
  rewrite <-(take_drop count (archives w fsys)) at 1. rewrite elem_of_app. naive_solver.
Qed.
Definition fresh_fs (ns : list (gostr * gostr)) (now : Time) : fs :=
  mkFs (list_to_map (imap (fun i p => (p.1, File i)) ns)) (list_to_map (imap (fun i p => (i, mkInode p.2 now)) ns)) (length ns).
Definition demo_writer (f : gostr) (rot : rotatePolicy) (k : keepPolicy) : writer :=
  mkWriter (Some 0%nat) (str "/logs") f (str "text") 0 (mkTime 0 0) rot k false.
Lemma pruneLocked_newest_witness :
  let w := demo_writer (str "a.log") (mkRotate [] 0) (KeepCount 1) in
  let dir := fresh_fs [(str "/logs/a.log", str "x"); (str "/logs/a-20260101-000000.log", str "y");
                       (str "/logs/a-20260102-000000.log", str "z"); (str "/logs/b.log", str "t")] (mkTime 0 0) in
  archives w (pruneLocked no_faults w (mkTime 0 0) dir).1 = [str "a-20260102-000000.log"].
Proof.
  cbv zeta. rewrite (pruneLocked_newest _ _ _ 1); [vm_compute; reflexivity|reflexivity|discriminate..].
Defined.

(** ** Rotation *)

(** The characters of a stamp. *)
Definition stamp_char (c : ascii) : bool := isDigit c || bool_decide (c = "-"%char).
Lemma utoa_stamp n : 0 <= n -> forallb stamp_char (utoa n) = true.
Proof.
  intros Hn. destruct (utoa_correct n Hn) as (_ & Hd & _). rewrite forallb_forall in Hd |- *.
  intros c Hc. unfold stamp_char. by rewrite Hd.
Qed.
Lemma appendInt_stamp w n : forallb stamp_char (appendInt w n) = true.
Proof.
  assert (forall k, forallb stamp_char (replicate k "0"%char) = true) as Hz by (induction k; done).
  unfold appendInt, zero_pad. destruct (Z.ltb_spec n 0); cbn [forallb];
    rewrite forallb_app, Hz, utoa_stamp; done || lia.
Qed.
Lemma fmt_stamp_chars t : forallb stamp_char (fmt_stamp t) = true.
Proof. unfold fmt_stamp, fmt_date, fmt_clock, fmt_y. by rewrite !forallb_app, !appendInt_stamp. Qed.

Lemma archiveName_plain f t : plain f -> plain (archiveName f t).
Proof.
  intros (Hne & _ & _ & Hs). pose proof (fmt_stamp_chars t) as Hc. rewrite forallb_forall in Hc.
  destruct (Ext_split f) as [Hf _]. fold (stem f) in Hf.
  assert (archiveName f t = stem f ++ str "-" ++ fmt_stamp t ++ Ext f) as E by done.
  assert ("-"%char ∈ archiveName f t) as Hd.
  { rewrite E, elem_of_app. right. apply list_elem_of_here. }
  repeat split; intros Ha; [by rewrite Ha in Hd; apply elem_of_nil in Hd|..].
  1-2: rewrite Ha in Hd; revert Hd; apply (bool_decide_unpack _); by vm_compute.
  rewrite E in Ha. rewrite Hf, not_elem_of_app in Hs. rewrite !elem_of_app in Ha.
  destruct Ha as [?|[Ha|[Ha|?]]]; [by destruct Hs| |by apply list_elem_of_In, Hc in Ha|by destruct Hs].
  apply list_elem_of_singleton in Ha. done.
Qed.

Definition archive_path (w : writer) (now : Time) : gostr :=
  path_Join (w_dir w) (archiveName (w_filename w) now).

(** A writer and its directory: the open file is the one at the active path and
    its size is the tracked one; paths are files of their own. *)
Record tracked (w : writer) (fsys : fs) : Prop := {
  tr_file : exists i, w_file w = Some i /\ names fsys !! active_path w = Some (File i) /\
                      w_size w = Z.of_nat (length (data_of fsys i));
  tr_dir : w_dir w <> [];
  tr_name : plain (w_filename w);
  tr_files : forall p, names fsys !! p <> Some Directory;
  tr_fresh : forall p i, names fsys !! p = Some (File i) -> (i < next_ino fsys)%nat;
  tr_inj : forall p q i, names fsys !! p = Some (File i) -> names fsys !! q = Some (File i) -> p = q }.

Lemma active_ne_archive w now : w_dir w <> [] -> plain (w_filename w) -> active_path w <> archive_path w now.
Proof.
  intros Hd Hn E. apply (f_equal last_element) in E. unfold active_path, archive_path in E.
  rewrite !last_element_Join in E by (try apply archiveName_plain; done).
  pose proof (archiveName_is_archive (w_filename w) now) as Ha. rewrite <-E in Ha.
  by rewrite active_not_archive in Ha.
Qed.
Lemma active_unlisted w fsys n :
  w_dir w <> [] -> plain (w_filename w) -> n ∈ archives w fsys -> active_path w <> path_Join (w_dir w) n.
Proof.
  intros Hd Hp [Ha [_ Hn]%elem_of_ReadDir]%elem_of_archives E. rewrite <-E in Hn. unfold active_path in Hn.
  rewrite last_element_Join in Hn by done. subst n. by rewrite active_not_archive in Ha.
Qed.

(** The directory after the renaming and the reopening of a rotation. *)
Definition rotated (w : writer) (now : Time) (i : nat) (fsys : fs) : fs :=
  mkFs (<[active_path w := File (next_ino fsys)]> (<[archive_path w now := File i]> (delete (active_path w) (names fsys))))
       (<[next_ino fsys := mkInode [] now]> (inodes fsys)) (S (next_ino fsys)).

Lemma data_of_insert fsys i nd k ns nx :
  data_of (mkFs ns (<[i := nd]> (inodes fsys)) nx) k = if decide (k = i) then i_data nd else data_of fsys k.
Proof. unfold data_of. cbn. case_decide; [subst; by rewrite lookup_insert_eq|by rewrite lookup_insert_ne]. Qed.

Lemma rotated_tracked w now i fsys :
  tracked w fsys -> w_file w = Some i -> tracked (set_active (Some (next_ino fsys)) 0 now w) (rotated w now i fsys).
Proof.
  intros [(i' & Hi & Hn & Hsz) Hd Hp Hfs Hfr Hinj] Hf. assert (i' = i) as -> by congruence. split; try done.
  - exists (next_ino fsys). split; [done|]. unfold rotated. cbn. rewrite lookup_insert_eq. split; [done|].
    rewrite data_of_insert, decide_True by done. done.
  - intros p. cbn. rewrite !lookup_insert, lookup_delete. by repeat case_decide.
  - intros p j. cbn. rewrite !lookup_insert, lookup_delete. apply Hfr in Hn.
    repeat case_decide; intros E; simplify_eq; try apply Hfr in E; lia.
  - intros p q j. cbn. rewrite !lookup_insert, !lookup_delete.
    repeat case_decide; intros E1 E2; simplify_eq; try done; try (by eapply Hinj); exfalso;
      try apply Hfr in E1 as ?; try apply Hfr in E2 as ?; try apply Hfr in Hn as ?; try lia; naive_solver.
Qed.

(** All names directly below a directory share the path before them. *)
Lemma Join_snoc (ps : list gostr) c : exists pre, forall n : gostr, Join (ps ++ [n]) [c] = pre ++ n.
Proof.
  induction ps as [|p ps [pre IH]]; [by exists []|]. exists (p ++ c :: pre). intros n.
  change ((p :: ps) ++ [n]) with (p :: (ps ++ [n])). rewrite Join_cons1 by (by destruct ps). rewrite IH.
  by rewrite <-app_assoc.
Qed.
Lemma path_Join_prefix dir : dir <> [] -> exists pre, forall n, plain n -> path_Join dir n = pre ++ n.
Proof.
  intros Hd. set (cs := clean_comps (isRooted dir) (segments dir)).
  destruct (Join_snoc cs slash) as [pre Hpre].
  exists (if isRooted dir then slash :: pre else pre). intros n Hn. unfold path_Join.
  destruct dir as [|c d]; [done|]. unfold Clean.
  assert (comps ((c :: d) ++ slash :: n) = cs ++ [n]) as ->.
  { rewrite comps_segments, segments_app, (segments_plain n) by done. by rewrite clean_comps_plain by (by constructor). }
  change (isRooted ((c :: d) ++ slash :: n)) with (isRooted (c :: d)). unfold render.
  destruct (isRooted (c :: d)); [by rewrite Hpre|]. by destruct cs; rewrite <-Hpre.
Qed.

Lemma gz_name_plain f t : plain f -> plain (archiveName f t ++ str ".gz").
Proof.
  intros Hp. apply (archiveName_plain f t) in Hp as (Hne & _ & _ & Hs).
  split_and!; [by destruct (archiveName f t)| | |].
  - intros E%(f_equal length). rewrite length_app in E. simpl in E. destruct (archiveName f t); simpl in *; [done|lia].
  - intros E%(f_equal length). rewrite length_app in E. simpl in E. lia.
  - rewrite not_elem_of_app. split; [done|]. by apply (bool_decide_eq_false_1 _).
Qed.
Lemma gz_path w now : w_dir w <> [] -> plain (w_filename w) ->
  archive_path w now ++ str ".gz" = path_Join (w_dir w) (archiveName (w_filename w) now ++ str ".gz").
Proof.
  intros Hd Hp. destruct (path_Join_prefix _ Hd) as [pre Hpre]. unfold archive_path.
  rewrite !Hpre by (by apply archiveName_plain || apply gz_name_plain). by rewrite app_assoc.
Qed.
Lemma gz_is_archive f t : is_archive f (archiveName f t ++ str ".gz") = true.
Proof.
  unfold is_archive, archivePrefixSuffix, archiveName. cbn zeta.
  rewrite (app_assoc _ (str "-")), <-!app_assoc, (app_assoc _ (str "-")), HasPrefix_app.
  rewrite (app_assoc _ (fmt_stamp t)), HasSuffix_app. by rewrite orb_true_r.
Qed.
Lemma active_ne_gz w now : w_dir w <> [] -> plain (w_filename w) -> active_path w <> archive_path w now ++ str ".gz".
Proof.
  intros Hd Hp E. rewrite gz_path in E by done. apply (f_equal last_element) in E. unfold active_path in E.
  rewrite !last_element_Join in E by (done || by apply gz_name_plain).
  pose proof (gz_is_archive (w_filename w) now) as Ha. rewrite <-E in Ha. by rewrite active_not_archive in Ha.
Qed.

(** Losing names other than the active one keeps a writer tracked. *)
Lemma tracked_sub w fsys fsys' :
  tracked w fsys -> names fsys' !! active_path w = names fsys !! active_path w ->
  (forall p en, names fsys' !! p = Some en -> names fsys !! p = Some en) ->
  inodes fsys' = inodes fsys -> next_ino fsys' = next_ino fsys -> tracked w fsys'.
Proof.
  intros [(i & Hi & Hn & Hsz) Hd Hp Hfs Hfr Hinj] Ha Hsub Hino Hnx. split; try done.
  - exists i. unfold data_of. by rewrite Ha, Hino.
  - intros p Hdir. by apply (Hfs p), Hsub.
  - intros p j Hj. rewrite Hnx. by eapply Hfr, Hsub.
  - intros p q j Hj Hk. eapply Hinj; by apply Hsub.
Qed.

Lemma fold_remove_sub e w l st :
  (forall p en, names (fold_left (remove e w) l st).1 !! p = Some en -> names st.1 !! p = Some en) /\
  next_ino (fold_left (remove e w) l st).1 = next_ino st.1.
Proof.
  revert st. induction l as [|n l IH]; intros st; [done|]. cbn. destruct (IH (remove e w st n)) as [Hs Hx].
  unfold remove in *. destruct st as [f err]. case_match; [done|]. cbn in *. split; [|done].
  intros p en Hp. apply Hs in Hp. by apply lookup_delete_Some in Hp as [_ ?].
Qed.
Lemma pruneLocked_tracked e w now fsys : tracked w fsys -> tracked w (pruneLocked e w now fsys).1.
Proof.
  intros Ht. pose proof Ht as [_ Hd Hp _ _ _]. destruct (prune_removes e w now fsys) as (l & Hl & ->).
  destruct (fold_remove_sub e w l (fsys, None)) as [Hs Hx].
  apply (tracked_sub _ _ _ Ht); [|done|apply (fold_remove_inodes e w l (fsys, None))|done].
  rewrite fold_remove_frame; [done|]. intros n Hn. eapply active_unlisted; [done..|]. by eapply elem_of_sublist.
Qed.

(** Compressing an archive leaves the writer and its open file alone. *)
Lemma compressFile_tracked gz w now t fsys :
  tracked w fsys -> tracked w (compressFile gz no_faults t (archive_path w now) fsys).1.
Proof.
  intros Ht. pose proof Ht as [(i & Hi & Hn & Hsz) Hd Hp Hfs Hfr Hinj].
  pose proof (active_ne_archive w now Hd Hp) as Hna. pose proof (active_ne_gz w now Hd Hp) as Hng.
  unfold compressFile. set (gzp := archive_path w now ++ str ".gz") in *.
  destruct (file_at fsys (archive_path w now)) as [k|] eqn:Ek; [|done].
  assert (exists j, names fsys !! gzp = Some (File j) \/ names fsys !! gzp = None /\ j = next_ino fsys) as [j Hj].
  { destruct (names fsys !! gzp) as [[j|]|] eqn:E; [by eauto|by apply Hfs in E|by eauto]. }
  assert (forall p, names fsys !! p = Some (File j) -> p = gzp) as Hjp.
  { intros p Hpj. destruct Hj as [Hj|[_ ->]]; [by eapply Hinj|]. apply Hfr in Hpj. lia. }
  match goal with |- tracked w (?m).1 => replace m with
    (remove_name (archive_path w now) (mkFs (<[gzp := File j]> (names fsys))
      (<[j := mkInode (gz (data_of fsys k)) t]> (inodes fsys)) (Nat.max (next_ino fsys) (S j))), @None os_error) end;
    [|by destruct Hj as [->|[-> ->]]].
  cbn [fst]. split; try done.
  - exists i. cbn. rewrite lookup_delete_ne, lookup_insert_ne by congruence. split_and!; [done|done|].
    rewrite Hsz. unfold remove_name. cbn. rewrite data_of_insert, decide_False; [done|].
    intros ->. apply Hjp in Hn. congruence.
  - intros p. cbn. rewrite lookup_delete, lookup_insert. by repeat case_decide.
  - intros p q. cbn. rewrite lookup_delete, lookup_insert.
    repeat case_decide; intros E; simplify_eq; try apply Hfr in E; lia.
  - intros p q m. cbn. rewrite !lookup_delete, !lookup_insert.
    repeat case_decide; intros E1 E2; simplify_eq; try done; [apply Hjp in E2|apply Hjp in E1|by eapply Hinj]; congruence.
Qed.

(** A rotation without failures ends with a fresh, empty active file. *)
Lemma rotateLocked_tracked gz w now fsys : tracked w fsys ->
  exists fsys' err,
    rotateLocked gz no_faults w now fsys = (set_active (Some (next_ino fsys)) 0 now w, fsys', err) /\
    tracked (set_active (Some (next_ino fsys)) 0 now w) fsys' /\
    (w_compress w = false -> w_keep w = KeepForever -> forall i, w_file w = Some i -> fsys' = rotated w now i fsys).
Proof.
  intros Ht. pose proof Ht as [(i & Hi & Hn & Hsz) Hd Hp Hfs Hfr Hinj].
  pose proof (active_ne_archive w now Hd Hp) as Hna.
  pose proof (rotated_tracked w now i fsys Ht Hi) as Hr.
  unfold rotateLocked. rewrite Hi. rewrite !bool_decide_eq_false_2 by (done || apply Hp || congruence).
  cbn [orb f_close no_faults]. fold (archive_path w now). unfold rename. cbn [f_rename no_faults]. rewrite Hn.
  rewrite decide_False by apply Hfs. unfold open_append. cbn [f_open no_faults names next_ino inodes].
  rewrite lookup_insert_ne, lookup_delete_eq by congruence. fold (rotated w now i fsys).
  set (w1 := set_active _ _ _ _) in *.
  destruct (w_compress w) eqn:Ec.
  - pose proof (compressFile_tracked gz w1 now now _ Hr) as Hc. change (archive_path w1 now) with (archive_path w now) in Hc.
    destruct (compressFile gz no_faults now (archive_path w now) (rotated w now i fsys)) as [fs3 err]. cbn in Hc.
    destruct err as [err|]; [by eexists _, _; split_and!; [done|done|discriminate]|].
    pose proof (pruneLocked_tracked no_faults w1 now fs3 Hc) as Hq.
    destruct (pruneLocked no_faults w1 now fs3) as [fs4 err']. eexists _, _. split_and!; [done|done|done].
  - pose proof (pruneLocked_tracked no_faults w1 now _ Hr) as Hq.
    destruct (pruneLocked no_faults w1 now (rotated w now i fsys)) as [fs4 err'] eqn:Epr.
    eexists _, _. split_and!; [done|done|]. intros _ Hk k [= <-].
    unfold pruneLocked in Epr. cbn in Epr. rewrite Hk in Epr. by simplify_eq/=.
Qed.

(** ** Writing *)

Lemma data_of_append now i bytes fsys k :
  data_of (append now i bytes fsys) k = if decide (k = i) then data_of fsys i ++ bytes else data_of fsys k.
Proof. unfold append. by rewrite data_of_insert. Qed.
Lemma append_tracked w fsys i now bytes n : tracked w fsys -> w_file w = Some i -> n = Z.of_nat (length bytes) ->
  tracked (set_active (Some i) (w_size w + n) (w_opened w) w) (append now i bytes fsys).
Proof.
  intros [(i' & Hi & Hn & Hsz) Hd Hp Hfs Hfr Hinj] Hf ->. assert (i' = i) as -> by congruence. split; try done.
  exists i. split_and!; [done|done|]. rewrite data_of_append, decide_True, length_app by done. cbn [w_size set_active].
  lia.
Qed.

(** What a write does without failures: perhaps a rotation, then the line is
    appended to the open file. *)
Definition rotates (w : writer) (line : gostr) (now : Time) : bool :=
  (sanitizeLine line <>s []) && needsRotateLocked w now (Z.of_nat (length (sanitizeLine line)) + 1).
Definition record (line : gostr) : gostr :=
  if decide (sanitizeLine line = []) then [] else sanitizeLine line ++ newline.

Lemma write_tracked gz line now w fsys : tracked w fsys -> sanitizeLine line <> [] ->
  exists w0 fs0 i, tracked w0 fs0 /\ w_file w0 = Some i /\
    write gz no_faults line now w fsys =
      (set_active (Some i) (w_size w0 + Z.of_nat (length (record line))) (w_opened w0) w0, append now i (record line) fs0) /\
    (if rotates w line now
     then w0 = set_active (Some (next_ino fsys)) 0 now w /\
          (w_compress w = false -> w_keep w = KeepForever -> forall k, w_file w = Some k -> fs0 = rotated w now k fsys)
     else w0 = w /\ fs0 = fsys).
Proof.
  intros Ht Hl. pose proof Ht as [(i & Hi & _ & _) _ _ _ _ _]. unfold write, rotates, record.
  rewrite bool_decide_eq_false_2, !decide_False, Hi by done. cbn [negb andb].
  rewrite length_app. change (length newline) with 1%nat.
  replace (Z.of_nat (length (sanitizeLine line) + 1)) with (Z.of_nat (length (sanitizeLine line)) + 1) by lia.
  destruct (needsRotateLocked w now (Z.of_nat (length (sanitizeLine line)) + 1)).
  - destruct (rotateLocked_tracked gz w now fsys Ht) as (fs' & err & -> & Ht' & Hk).
    cbn [w_file set_active]. eexists _, _, _. split_and!; [exact Ht'|reflexivity|reflexivity|reflexivity|rewrite <-Hi; exact Hk].
  - cbn [f_write no_faults]. rewrite Hi. exists w, fsys, i. done.
Qed.
Lemma write_keeps_tracked gz line now w fsys :
  tracked w fsys -> tracked (write gz no_faults line now w fsys).1 (write gz no_faults line now w fsys).2.
Proof.
  intros Ht. destruct (decide (sanitizeLine line = [])) as [E|Hl].
  - unfold write. by rewrite decide_True.
  - destruct (write_tracked gz line now w fsys Ht Hl) as (w0 & fs0 & i & H0 & Hi & -> & _). cbn [fst snd].
    by apply append_tracked.
Qed.

(** After every write the tracked size is the length of the active file,
    and that file is within the configured ceiling or holds nothing but the
    line just written. *)
Theorem write_respects_ceiling gz line now w fsys :
  tracked w fsys -> 0 < maxBytes (w_rotate w) -> sanitizeLine line <> [] ->
  let '(w', fsys') := write gz no_faults line now w fsys in
  tracked w' fsys' /\
  exists i, w_file w' = Some i /\
    (Z.of_nat (length (data_of fsys' i)) <= maxBytes (w_rotate w) \/
     data_of fsys' i = sanitizeLine line ++ newline).
Proof.
  intros Ht Hm Hl. pose proof (write_keeps_tracked gz line now w fsys Ht) as Hk.
  destruct (write_tracked gz line now w fsys Ht Hl) as (w0 & fs0 & i & H0 & Hi & E & Hr). rewrite E in *. split; [done|].
  exists i. split; [done|]. rewrite data_of_append, decide_True by done.
  assert (record line = sanitizeLine line ++ newline) as Er by (unfold record; by rewrite decide_False).
  assert (w_size w0 = 0 -> data_of fs0 i = []) as Hz.
  { destruct H0 as [(j & Hj & _ & Hsz) _ _ _ _ _]. assert (j = i) as -> by congruence. intros Hs.
    rewrite Hsz in Hs. destruct (data_of fs0 i); [done|simpl in *; lia]. }
  destruct (decide (w_size w0 = 0)) as [Hs|Hs]; [right; by rewrite Hz, Er|left].
  destruct (rotates w line now) eqn:Ero; [by destruct Hr as [-> _]|]. destruct Hr as [-> ->].
  destruct Ht as [(j & Hj & _ & Hsz) _ _ _ _ _]. assert (j = i) as -> by congruence.
  unfold rotates in Ero. rewrite bool_decide_eq_false_2 in Ero by done. cbn [negb andb] in Ero.
  unfold needsRotateLocked, enabled in Ero. rewrite Hi, (proj2 (Z.ltb_lt 0 _)), orb_true_r, (proj2 (Z.eqb_neq _ 0)) in Ero by done.
  rewrite bool_decide_eq_false_2 in Ero by done. cbn [orb negb andb] in Ero.
  destruct (Z.ltb_spec (maxBytes (w_rotate w)) (w_size w + (Z.of_nat (length (sanitizeLine line)) + 1))); [done|].
  rewrite length_app, Er, length_app. change (length newline) with 1%nat. lia.
Qed.
(** A fresh log file in an otherwise empty directory. *)
Lemma demo_tracked rot k t :
  tracked (demo_writer (str "a.log") rot k) (fresh_fs [(str "/logs/a.log", [])] t).
Proof.
  split; cbn.
  - exists 0%nat. split_and!; reflexivity.
  - discriminate.
  - repeat split; [discriminate..|]. by apply (bool_decide_eq_false_1 _).
  - intros p. rewrite lookup_insert. case_decide; [discriminate|]. by rewrite lookup_empty.
  - intros p i. rewrite lookup_insert. case_decide; [intros [= <-]; lia|]. by rewrite lookup_empty.
  - intros p q i. rewrite !lookup_insert. do 2 case_decide; rewrite ?lookup_empty; congruence.
Qed.
Lemma write_respects_ceiling_witness :
  let w := demo_writer (str "a.log") (mkRotate [] 4) KeepForever in
  let dir := fresh_fs [(str "/logs/a.log", [])] (mkTime 0 0) in
  tracked (write id no_faults (str "abcdef") (mkTime 0 0) w dir).1 (write id no_faults (str "abcdef") (mkTime 0 0) w dir).2.
Proof.
  cbv zeta. pose proof (write_respects_ceiling id (str "abcdef") (mkTime 0 0)
    (demo_writer (str "a.log") (mkRotate [] 4) KeepForever) (fresh_fs [(str "/logs/a.log", [])] (mkTime 0 0))) as H.
  destruct (write id no_faults (str "abcdef") (mkTime 0 0) _ _) as [w' fs'].
  apply H; [apply demo_tracked|reflexivity|discriminate].
Defined.

(** ** The directory as an append-only log *)

Definition data_at (w : writer) (fsys : fs) (n : gostr) : gostr :=
  default [] (data_of fsys <$> file_at fsys (path_Join (w_dir w) n)).
Definition active_data (w : writer) (fsys : fs) : gostr := default [] (data_of fsys <$> w_file w).
(** What the directory holds of a log: the archives, oldest first, and the active file. *)
Definition journal (w : writer) (fsys : fs) : gostr :=
  concat (data_at w fsys <$> reverse (archives w fsys)) ++ active_data w fsys.

Lemma archive_not_active w n :
  w_dir w <> [] -> plain (w_filename w) -> is_archive (w_filename w) n = true ->
  last_element (path_Join (w_dir w) n) = n -> path_Join (w_dir w) n <> active_path w.
Proof.
  intros Hd Hp Ha Hn E. rewrite E in Hn. unfold active_path in Hn. rewrite last_element_Join in Hn by done.
  subst n. by rewrite active_not_archive in Ha.
Qed.

(** Appending to the open file appends to the journal. *)
Lemma journal_append w fsys i now bytes sz op : tracked w fsys -> w_file w = Some i ->
  journal (set_active (Some i) sz op w) (append now i bytes fsys) = journal w fsys ++ bytes.
Proof.
  intros [(i' & Hi & Hn & _) Hd Hp _ _ Hinj] Hf. assert (i' = i) as -> by congruence. unfold journal.
  change (archives (set_active (Some i) sz op w) (append now i bytes fsys)) with (archives w fsys).
  rewrite <-app_assoc. f_equal.
  - f_equal. apply list_fmap_ext. intros k n Hk%list_elem_of_lookup_2.
    apply elem_of_reverse, elem_of_archives in Hk as [Ha [[j Hj] Hl]%elem_of_ReadDir].
    unfold data_at, file_at. cbn. rewrite Hj. cbn. rewrite data_of_append, decide_False; [done|].
    intros ->. by eapply archive_not_active, Hinj.
  - unfold active_data. rewrite Hf. cbn. by rewrite data_of_append, decide_True.
Qed.

(** A rotation to a name later than every archive only moves the journal. *)
Section rotation.
  Context (w : writer) (fsys : fs) (now : Time) (i : nat).
  Context (Ht : tracked w fsys) (Hi : w_file w = Some i).
  Context (Hlate : forall n, n ∈ archives w fsys -> str_ltb n (archiveName (w_filename w) now) = true).
Let w1 := set_active (Some (next_ino fsys)) 0 now w.
Let arch := archiveName (w_filename w) now.

Lemma rotated_lookup n :
  is_archive (w_filename w) n = true -> last_element (path_Join (w_dir w) n) = n ->
  names (rotated w now i fsys) !! path_Join (w_dir w) n =
  if decide (n = arch) then Some (File i) else names fsys !! path_Join (w_dir w) n.
Proof.
  destruct Ht as [_ Hd Hp _ _ _]. intros Ha Hn. pose proof (archive_not_active w n Hd Hp Ha Hn) as Hna.
  cbn. rewrite lookup_insert_ne by congruence. case_decide as Hc.
  - subst n. unfold archive_path. by rewrite lookup_insert_eq.
  - rewrite lookup_insert_ne, lookup_delete_ne by congruence || (intros E; apply Hc; rewrite <-Hn, <-E;
      apply last_element_Join; [done|by apply archiveName_plain]). done.
Qed.
Lemma arch_listed : last_element (path_Join (w_dir w) arch) = arch.
Proof. destruct Ht as [_ Hd Hp _ _ _]. apply last_element_Join; [done|by apply archiveName_plain]. Qed.
Lemma arch_new n : n ∈ archives w fsys -> n <> arch.
Proof. intros Hn ->. apply Hlate in Hn. by rewrite str_ltb_irrefl in Hn. Qed.

Lemma rotated_archives : archives w1 (rotated w now i fsys) = arch :: archives w fsys.
Proof.
  apply sorted_ext.
  - apply NoDup_archives.
  - constructor; [|apply NoDup_archives]. intros Hin. by apply (arch_new arch).
  - apply Sorted_archives.
  - constructor; [apply Sorted_archives|]. apply Forall_forall. intros n Hn. apply str_ltb_asym. by apply Hlate.
  - intros n. rewrite elem_of_cons, !elem_of_archives, !elem_of_ReadDir. cbn [w1 w_dir w_filename set_active].
    split.
    + intros (Ha & [j Hj] & Hn). rewrite rotated_lookup in Hj by done. case_decide; [by left|right]. by eauto.
    + intros [->|(Ha & [j Hj] & Hn)].
      * pose proof arch_listed as Hl. pose proof (archiveName_is_archive (w_filename w) now) as Ha.
        split_and!; [done| |done]. exists i. rewrite rotated_lookup by done. by rewrite decide_True.
      * split_and!; [done| |done]. rewrite rotated_lookup by done. case_decide; by eauto.
Qed.
Lemma rotated_data_of k :
  data_of (rotated w now i fsys) k = if decide (k = next_ino fsys) then [] else data_of fsys k.
Proof. unfold rotated. by rewrite data_of_insert. Qed.
Lemma rotated_data n : n ∈ archives w fsys -> data_at w1 (rotated w now i fsys) n = data_at w fsys n.
Proof.
  intros Hin. pose proof (arch_new n Hin) as Hne. destruct Ht as [_ _ _ _ Hfr _].
  apply elem_of_archives in Hin as [Ha [[j Hj] Hn]%elem_of_ReadDir].
  unfold data_at, file_at. cbn [w1 w_dir set_active]. rewrite rotated_lookup, decide_False, Hj by done.
  cbn -[data_of rotated]. rewrite rotated_data_of, decide_False; [done|]. intros ->. apply Hfr in Hj. lia.
Qed.
Lemma journal_rotated : journal w1 (rotated w now i fsys) = journal w fsys.
Proof.
  unfold journal. rewrite rotated_archives, reverse_cons, fmap_app, concat_app, <-app_assoc. f_equal.
  - f_equal. apply list_fmap_ext. intros k n Hk%list_elem_of_lookup_2. rewrite elem_of_reverse in Hk. by apply rotated_data.
  - pose proof arch_listed as Hl. pose proof (archiveName_is_archive (w_filename w) now) as Ha.
    destruct Ht as [(i' & Hi' & Hn & _) _ _ _ Hfr _]. assert (i' = i) as -> by congruence.
    unfold active_data. rewrite Hi. cbn [w1 w_file set_active fmap list_fmap option_fmap option_map concat default].
    unfold data_at at 1, file_at. cbn [w_dir w1 set_active]. rewrite rotated_lookup, decide_True by done.
    apply Hfr in Hn. cbn -[data_of rotated]. rewrite !rotated_data_of, decide_False, decide_True by (done || lia).
    by rewrite !app_nil_r.
Qed.
End rotation.

(** A run of writes, each with its time, and the condition that no two of its
    rotations fall into the same second; [last] is the second of the previous
    rotation. *)
Fixpoint write_all (gz : gostr -> gostr) (ops : list (gostr * Time)) (w : writer) (fsys : fs) : writer * fs :=
  match ops with
  | [] => (w, fsys)
  | (line, now) :: ops' =>
      let '(w', fsys') := write gz no_faults line now w fsys in write_all gz ops' w' fsys'
  end.
Fixpoint spaced (gz : gostr -> gostr) (last : Z) (ops : list (gostr * Time)) (w : writer) (fsys : fs) : bool :=
  match ops with
  | [] => true
  | (line, now) :: ops' =>
      let '(w', fsys') := write gz no_faults line now w fsys in
      bool_decide (four_digit_year now) &&
      (if rotates w line now then (last <? wall_seconds now) && spaced gz (wall_seconds now) ops' w' fsys'
       else spaced gz last ops' w' fsys')
  end.
(** Every archive was made by a rotation no later than [last]. *)
Definition made_by (last : Z) (w : writer) (fsys : fs) : Prop :=
  forall n, n ∈ archives w fsys ->
    exists t, n = archiveName (w_filename w) t /\ four_digit_year t /\ wall_seconds t <= last.

Lemma write_journal gz line now w fsys last :
  tracked w fsys -> w_compress w = false -> w_keep w = KeepForever -> made_by last w fsys -> four_digit_year now ->
  (rotates w line now = true -> last < wall_seconds now) ->
  let '(w', fsys') := write gz no_faults line now w fsys in
  journal w' fsys' = journal w fsys ++ record line /\
  made_by (if rotates w line now then wall_seconds now else last) w' fsys' /\
  w_compress w' = false /\ w_keep w' = KeepForever.
Proof.
  intros Ht Hc Hk Hm Hy Hlast. destruct (decide (sanitizeLine line = [])) as [El|Hl].
  { unfold write, record, rotates. rewrite !decide_True, bool_decide_eq_true_2 by done. by rewrite app_nil_r. }
  destruct (write_tracked gz line now w fsys Ht Hl) as (w0 & fs0 & i & H0 & Hi & -> & Hr).
  rewrite (journal_append w0 fs0 i) by done.
  destruct (rotates w line now).
  - destruct Hr as [-> Hf]. pose proof Ht as [(j & Hj & _) _ _ _ _ _]. rewrite (Hf Hc Hk j Hj).
    assert (forall n, n ∈ archives w fsys -> str_ltb n (archiveName (w_filename w) now) = true) as Hlate.
    { intros n (t & -> & Hty & Htl)%Hm. rewrite archiveName_ltb by done. specialize (Hlast eq_refl). lia. }
    split_and!; [f_equal; by apply journal_rotated| |done..].
    intros n. change (archives _ (append _ _ _ ?y)) with (archives (set_active (Some (next_ino fsys)) 0 now w) y).
    rewrite rotated_archives, elem_of_cons by done. intros [->|(t & -> & Hty & Htl)%Hm].
    + by exists now.
    + exists t. split_and!; [done..|]. specialize (Hlast eq_refl). lia.
  - destruct Hr as [-> ->]. split_and!; try done. 
Qed.

(** C5. For a writer that does not compress and keeps its archives forever,
    while no system call fails and the rotations fall into different seconds
    (and so get different archive names), the log directory is an append-only
    log: after any run of writes the archives in the order of their names
    followed by the active file hold what was there before and then every
    sanitized line, one per record, in the order written.  Two rotations in
    one second lose lines ([same_second_loses_lines]). *)
Theorem write_all_refines_append_only gz ops w fsys last :
  tracked w fsys -> w_compress w = false -> w_keep w = KeepForever -> made_by last w fsys ->
  spaced gz last ops w fsys = true ->
  let '(w', fsys') := write_all gz ops w fsys in
  journal w' fsys' = journal w fsys ++ concat (record <$> (fst <$> ops)).
Proof.
  revert w fsys last. induction ops as [|[line now] ops IH]; intros w fsys last Ht Hc Hk Hm Hs.
  { cbn. by rewrite app_nil_r. }
  cbn [write_all spaced] in *. pose proof (write_keeps_tracked gz line now w fsys Ht) as Ht'.
  pose proof (write_journal gz line now w fsys last Ht Hc Hk Hm) as Hj.
  destruct (write gz no_faults line now w fsys) as [w' fs'] eqn:E. cbn [fst snd] in Ht'.
  apply andb_true_iff in Hs as [Hy%bool_decide_eq_true Hs]. specialize (Hj Hy).
  destruct (rotates w line now).
  - apply andb_true_iff in Hs as [Hlt%Z.ltb_lt Hs]. destruct Hj as (Hj & Hm' & Hc' & Hk'); [done|].
    specialize (IH w' fs' _ Ht' Hc' Hk' Hm' Hs). destruct (write_all gz ops w' fs') as [w'' fs''].
    rewrite IH, Hj, <-app_assoc. done.
  - destruct Hj as (Hj & Hm' & Hc' & Hk'); [done|].
    specialize (IH w' fs' _ Ht' Hc' Hk' Hm' Hs). destruct (write_all gz ops w' fs') as [w'' fs''].
    rewrite IH, Hj, <-app_assoc. done.
Qed.

(** Three lines, the second and the third each after a rotation. *)
Definition demo_ops (t2 t3 : Time) : list (gostr * Time) :=
  [(str "one", mkTime 0 0); (str "two", t2); (str "three", t3)].
Lemma write_all_refines_append_only_witness :
  let w := demo_writer (str "a.log") (mkRotate [] 6) KeepForever in
  let dir := fresh_fs [(str "/logs/a.log", [])] (mkTime 0 0) in
  let '(w', dir') := write_all id (demo_ops (mkTime Second 0) (mkTime (2 * Second) 0)) w dir in
  journal w' dir' = str "one" ++ newline ++ str "two" ++ newline ++ str "three" ++ newline.
Proof.
  cbv zeta. pose proof (write_all_refines_append_only id (demo_ops (mkTime Second 0) (mkTime (2 * Second) 0))
    (demo_writer (str "a.log") (mkRotate [] 6) KeepForever) (fresh_fs [(str "/logs/a.log", [])] (mkTime 0 0)) 0) as H.
  destruct (write_all id _ _ _) as [w' dir']. rewrite H; [vm_compute; reflexivity|apply demo_tracked|reflexivity|reflexivity| |vm_compute; reflexivity].
  intros n Hn. exfalso. revert Hn. by apply (bool_decide_eq_false_1 _).
Defined.

(** ** Retention ages *)

Lemma ToLower_age `{UnicodeTables} ds c : forallb isDigit ds = true -> lower_ascii c = c -> isASCII c = true ->
  ToLower (ds ++ [c]) = ds ++ [c].
Proof.
  intros Hd Hc Ha. unfold ToLower. rewrite forallb_app. cbn [forallb]. rewrite Ha, andb_true_r.
  assert (forallb isASCII ds = true /\ lower_ascii <$> ds = ds) as [-> E].
  { clear Ha Hc. induction ds as [|d ds IH]; [done|]. apply andb_true_iff in Hd as [Hd0 Hd]. destruct (IH Hd) as [Hx IE].
    cbn [forallb fmap list_fmap]. rewrite Hx, IE. revert Hd0. clear. by destruct d as [[] [] [] [] [] [] [] []]. }
  cbn [andb]. rewrite fmap_app, E. cbn. by rewrite Hc.
Qed.

(** A retention of [n] days, weeks or months is that many times 24 hours
    (7 and 30 days for a week and a month), up to the 292 years a duration can
    hold. *)
Theorem parseKeep_age `{UnicodeTables} (n : Z) (c : ascii) (days : Z) :
  (c, days) ∈ [("d"%char, 1); ("w"%char, 7); ("m"%char, 30)] -> 1 <= n -> n * days <= 106751 ->
  parseKeep (Itoa n ++ [c]) = KeepAge (n * days * Day).
Proof.
  intros Hc Hn Hmax.
  assert (visible c = true /\ lower_ascii c = c /\ isASCII c = true /\ isDigit c = false /\
          (c ∉ ["0"%char; "e"%char; "r"%char; "s"%char]) /\ 1 <= days) as (Hv & Hlow & Has & Hnd & Hl & Hdays).
  { rewrite !elem_of_cons in Hc. destruct Hc as [[= -> ->]|[[= -> ->]|[[= -> ->]|Hc]]]; [..|by apply elem_of_nil in Hc];
      split_and!; try done; decided. }
  pose proof (Itoa_digits n ltac:(lia)) as Hd.
  unfold parseKeep. rewrite TrimSpace_visible.
  2: { rewrite forallb_app, digits_visible by done. cbn. by rewrite Hv. }
  rewrite ToLower_age by done.
  assert (forall l : list gostr, c ∉ ((fun s => List.last s "0"%char) <$> l) -> Itoa n ++ [c] ∉ l) as Hnot.
  { intros l Hl' Hin. apply Hl', list_elem_of_fmap. exists (Itoa n ++ [c]). split; [|done]. by rewrite last_last. }
  rewrite !decide_False by (apply Hnot; cbn; rewrite !not_elem_of_cons in *; naive_solver).
  rewrite last_last, Hnd, removelast_last, ParseInt_Itoa by (unfold MaxInt64; nia).
  rewrite (proj2 (Z.leb_gt n 0)) by lia.
  assert (forall x, 0 <= x <= MaxInt64 -> int64 x = x) as Hid.
  { intros x Hx. unfold int64, MaxInt64 in *. rewrite Z.mod_small; lia. }
  assert (0 <= n * days * Day <= MaxInt64) by (unfold Day, Hour, Minute, Second, MaxInt64; lia).
  assert (0 <= n * days <= MaxInt64) by (unfold MaxInt64; lia).
  rewrite !elem_of_cons in Hc. destruct Hc as [[= -> ->]|[[= -> ->]|[[= -> ->]|Hc]]]; [..|by apply elem_of_nil in Hc];
    rewrite ?Z.mul_1_r in *.
  - change (KeepAge (int64 (n * Day)) = KeepAge (n * Day)). by rewrite Hid.
  - change (KeepAge (int64 (int64 (n * 7) * Day)) = KeepAge (n * 7 * Day)). by rewrite (Hid (n * 7)), Hid.
  - change (KeepAge (int64 (int64 (n * 30) * Day)) = KeepAge (n * 30 * Day)). by rewrite (Hid (n * 30)), Hid.
Qed.
Lemma parseKeep_age_witness : parseKeep (H := ascii_tables) (str "30d") = KeepAge (30 * Day).
Proof. apply (parseKeep_age (H := ascii_tables) 30 "d" 1); [decided|lia|lia]. Defined.

(** ** Limits of the code *)

(** Two rotations in one second rename to the same archive: the first one's
    lines are lost though every archive is to be kept. *)
Lemma same_second_loses_lines :
  let w := demo_writer (str "a.log") (mkRotate [] 6) KeepForever in
  let dir := fresh_fs [(str "/logs/a.log", [])] (mkTime 0 0) in
  let '(w', dir') := write_all id (demo_ops (mkTime 0 0) (mkTime 0 0)) w dir in
  journal w' dir' = str "two" ++ newline ++ str "three" ++ newline.
Proof. vm_compute. reflexivity. Qed.

(** Any name with the stem, a hyphen and the extension counts as an archive:
    with the default policy a rotation of [app.log] removes the log file
    [app-debug.log] of another writer. *)
Lemma prune_removes_other_log :
  let w := demo_writer (str "app.log") (mkRotate [] 0) KeepNone in
  let dir := fresh_fs [(str "/logs/app.log", []); (str "/logs/app-debug.log", str "x")] (mkTime 0 0) in
  file_at (pruneLocked no_faults w (mkTime 0 0) dir).1 (str "/logs/app-debug.log") = None.
Proof. vm_compute. reflexivity. Qed.

(** Ages and sizes wrap around: keeping 106752 days puts the cutoff in the
    future, and 2^54 + 1 kilobytes are one kilobyte. *)
Lemma parseKeep_wraps :
  exists age, parseKeep (H := ascii_tables) (str "106752d") = KeepAge age /\ age < 0.
Proof. eexists. split; [vm_compute; reflexivity|done]. Qed.
Lemma parseSize_wraps : parseSize (str "18014398509481985kb") = 1024.
Proof. vm_compute. reflexivity. Qed.
