(* ===== verification/LogManager.v ===== *)
(** * The log manager: [log/manager.go]

    Eight writers, one per category, over one log directory; each [Write*]
    method formats a record and hands it to its category's writer.  The times
    read by the formatting and by the writer, the host name, the process id and
    a new audit identifier are arguments.  The theorems: reconfiguring replaces
    every writer or none, and a security event is exactly one line whatever the
    client-supplied text contains. *)
From stdpp Require Import base list gmap strings sorting.
From Stdlib Require Import ZArith Lia.
From S2P Require Import Prelude GoStrings GoUtf8 GoPath GoTime LogFormat LogFiles.
Local Open Scope Z_scope.
Local Open Scope go_scope.

(** The writer fields of [Manager], in the order of the source. *)
Inductive category := Access | ServerLog | ErrLog | App | Auth | Audit | Security | Debug.
#[export] Instance category_eq_dec : EqDecision category.
Proof. solve_decision. Defined.
Definition categories : list category := [Access; ServerLog; ErrLog; App; Auth; Audit; Security; Debug].

Record Manager := mkManager {
  m_logDir : gostr; m_program : gostr; m_version : gostr; m_writer : category -> writer }.
Definition set_writer (c : category) (w : writer) (m : Manager) : Manager :=
  mkManager (m_logDir m) (m_program m) (m_version m)
    (fun d => if decide (d = c) then w else m_writer m d).

Record LoggerConfig := mkLogger {
  lc_Program : gostr; lc_Version : gostr; lc_File : category -> LogFileConfig; lc_AuditCompress : bool }.

(** The default format each file is opened with, and whether it compresses. *)
Definition default_format (c : category) : gostr :=
  match c with
  | Access => str "apache" | ServerLog | ErrLog | Debug => str "text" | App => str "logfmt"
  | Auth => str "syslog" | Audit => str "json" | Security => str "fail2ban"
  end.
Definition compresses (cfg : LoggerConfig) (c : category) : bool :=
  match c with Audit => lc_AuditCompress cfg | _ => false end.

Definition default_rotate (c : category) : gostr :=
  match c with Access => str "monthly" | Audit => str "daily" | _ => str "weekly,50MB" end.
Definition default_filename (c : category) : gostr :=
  match c with
  | Access => str "access.log" | ServerLog => str "server.log" | ErrLog => str "error.log"
  | App => str "app.log" | Auth => str "auth.log" | Audit => str "audit.log"
  | Security => str "security.log" | Debug => str "debug.log"
  end.
Definition DefaultConfig : LoggerConfig :=
  mkLogger (str "ipgaze") []
    (fun c => {| lf_Enabled := negb (bool_decide (c = Debug)); lf_Filename := default_filename c;
                 lf_Format := default_format c; lf_Custom := []; lf_Rotate := default_rotate c;
                 lf_Keep := str "none" |}) false.

(** A writer not opened yet: the nil field of a manager under construction. *)
Definition nil_writer : writer := mkWriter None [] [] [] 0 zero_time (mkRotate [] 0) KeepNone false.

Section manager.
  Context `{UnicodeTables} `{PrintTable} (gz : gostr -> gostr).

(** The opening of the writers one after the other; an error returns at once. *)
Fixpoint open_all (e : faults) (now : Time) (cfg : LoggerConfig) (cs : list category) (m : Manager) (fsys : fs)
    : result os_error Manager * fs :=
  match cs with
  | [] => (Ok m, fsys)
  | c :: rest =>
      match openWriter e now (m_logDir m) (lc_File cfg c) (default_format c) (compresses cfg c) fsys with
      | (Err err, fsys1) => (Err err, fsys1)
      | (Ok w, fsys1) => open_all e now cfg rest (set_writer c w m) fsys1
      end
  end.
Definition NewManager (e : faults) (now : Time) (logDir : gostr) (cfg : LoggerConfig) (fsys : fs)
    : result os_error Manager * fs :=
  let program := if decide (lc_Program cfg = []) then str "ipgaze" else lc_Program cfg in
  open_all e now cfg categories (mkManager logDir program (lc_Version cfg) (fun _ => nil_writer)) fsys.

Definition Close (m : Manager) : Manager :=
  fold_left (fun m c => set_writer c (close (m_writer m c)) m) categories m.

Definition Reconfigure (e : faults) (now : Time) (cfg : LoggerConfig) (m : Manager) (fsys : fs)
    : Manager * fs * option os_error :=
  match NewManager e now (m_logDir m) cfg fsys with
  | (Err err, fsys1) => (m, fsys1, Some err)
  | (Ok replacement, fsys1) =>
      (fold_left (fun m c => set_writer c (replace (m_writer m c) (m_writer replacement c)).1 m) categories m,
       fsys1, None)
  end.

(** [Rotate]: every writer in turn; the first error is returned, the rest goes on. *)
Definition rotate_one (e : category -> faults) (now : Time) (st : Manager * fs * option os_error) (c : category)
    : Manager * fs * option os_error :=
  let '(m, fsys, firstErr) := st in
  let '(w, fsys1, err) := rotateIfDue gz (e c) (m_writer m c) now fsys in
  (set_writer c w m, fsys1, match firstErr with None => err | _ => firstErr end).
Definition Rotate (e : category -> faults) (now : Time) (m : Manager) (fsys : fs)
    : Manager * fs * option os_error :=
  fold_left (rotate_one e now) categories (m, fsys, None).

(** A line handed to the writer of a category, at the writer's own reading of
    the clock. *)
Definition write_to (e : faults) (c : category) (line : gostr) (now : Time) (m : Manager) (fsys : fs) : Manager * fs :=
  let '(w, fsys1) := write gz e line now (m_writer m c) fsys in (set_writer c w m, fsys1).
Definition format_of (m : Manager) (c : category) : gostr := w_format (m_writer m c).

Definition WriteAccess (e : faults) (line : gostr) (now : Time) := write_to e Access line now.

Definition access_defaults (a : AccessEntry) : AccessEntry :=
  {| ae_IP := ae_IP a; ae_Method := ae_Method a; ae_Path := ae_Path a; ae_Proto := ae_Proto a;
     ae_Status := ae_Status a; ae_Bytes := ae_Bytes a;
     ae_Referer := if decide (ae_Referer a = []) then str "-" else ae_Referer a;
     ae_UserAgent := if decide (ae_UserAgent a = []) then str "-" else ae_UserAgent a;
     ae_RequestID := ae_RequestID a |}.
Definition WriteAccessRequest (e : faults) (a : AccessEntry) (now now' : Time) (m : Manager) : fs -> Manager * fs :=
  let a := access_defaults a in
  let line :=
    if format_of m Access =s str "nginx" then nginxAccessLine now a
    else if format_of m Access =s str "json" then jsonAccessLine now a
    else apacheAccessLine now a in
  write_to e Access line now' m.

Definition leveled (format : gostr) (now : Time) (level message : gostr) : gostr :=
  if format =s str "json"
  then jsonLine [(str "time", JStr (RFC3339 (UTC now))); (str "level", JStr level); (str "msg", JStr message)]
  else textLine now level message.
Definition writeLeveled (e : faults) (c : category) (level message : gostr) (now now' : Time) (m : Manager)
    : fs -> Manager * fs :=
  write_to e c (leveled (format_of m c) now level message) now' m.
Definition WriteServer (e : faults) := writeLeveled e ServerLog.
Definition WriteError (e : faults) := writeLeveled e ErrLog.
Definition WriteDebug (e : faults) (message : gostr) := writeLeveled e Debug (str "DEBUG") message.

Definition WriteApp (e : faults) (level msg : gostr) (kvpairs : list gostr) (now now' : Time) (m : Manager)
    : fs -> Manager * fs :=
  let line :=
    if format_of m App =s str "json"
    then jsonLine (map_set (str "msg") (JStr msg) (map_set (str "level") (JStr level)
                    (map_set (str "time") (JStr (RFC3339 (UTC now))) (kvMap kvpairs))))
    else logfmtLine now level msg kvpairs in
  write_to e App line now' m.

(** [hostname]: the name the system reports, or "localhost". *)
Definition hostname (os_hostname : gostr) : gostr :=
  if decide (os_hostname = []) then str "localhost" else os_hostname.

Definition WriteAuth (e : faults) (host program : gostr) (pid : Z) (kvpairs : list gostr) (now now' : Time) (m : Manager)
    : fs -> Manager * fs :=
  let program := if decide (program = []) then m_program m else program in
  let line :=
    if format_of m Auth =s str "json"
    then jsonLine (map_set (str "pid") (JInt pid) (map_set (str "program") (JStr program)
                    (map_set (str "time") (JStr (RFC3339 (UTC now))) (kvMap kvpairs))))
    else syslog3164Line now (hostname host) program pid (str "auth: " ++ kvJoin kvpairs) in
  write_to e Auth line now' m.
Definition WriteAuthFailure (e : faults) (host : gostr) (pid : Z) (ip endpoint reason : gostr) :=
  WriteAuth e host [] pid
    [str "ip"; ip; str "endpoint"; endpoint; str "result"; str "fail"; str "reason"; reason].

(** Audit events; [omitempty] drops an empty string, a nil target and an empty map. *)
Record AuditActor := { aa_IP : gostr; aa_UserID : gostr; aa_TokenHash : gostr }.
Record AuditTarget := { at_Type : gostr; at_ID : gostr }.
Record AuditEvent := mkEvent {
  ev_ID : gostr; ev_Time : gostr; ev_Event : gostr; ev_Source : gostr; ev_Category : gostr; ev_Severity : gostr;
  ev_Actor : AuditActor; ev_Target : option AuditTarget; ev_Details : list (gostr * json);
  ev_Result : gostr; ev_Reason : gostr }.
Definition omitempty (k v : gostr) : list (gostr * json) := if decide (v = []) then [] else [(k, JStr v)].
Definition event_json (ev : AuditEvent) : json :=
  JStruct ([(str "id", JStr (ev_ID ev)); (str "time", JStr (ev_Time ev)); (str "event", JStr (ev_Event ev))]
    ++ omitempty (str "source") (ev_Source ev)
    ++ [(str "category", JStr (ev_Category ev)); (str "severity", JStr (ev_Severity ev));
        (str "actor", JStruct (omitempty (str "ip") (aa_IP (ev_Actor ev)) ++
           omitempty (str "user_id") (aa_UserID (ev_Actor ev)) ++ omitempty (str "token_hash") (aa_TokenHash (ev_Actor ev))))]
    ++ match ev_Target ev with
       | Some t => [(str "target", JStruct [(str "type", JStr (at_Type t)); (str "id", JStr (at_ID t))])]
       | None => []
       end
    ++ (match ev_Details ev with [] => [] | d => [(str "details", JMap d)] end)
    ++ [(str "result", JStr (ev_Result ev))] ++ omitempty (str "reason") (ev_Reason ev)).
Definition with_id_time (new_id : gostr) (now : Time) (ev : AuditEvent) : AuditEvent :=
  mkEvent (if decide (ev_ID ev = []) then new_id else ev_ID ev)
    (if decide (ev_Time ev = []) then RFC3339Nano (UTC now) else ev_Time ev)
    (ev_Event ev) (ev_Source ev) (ev_Category ev) (ev_Severity ev) (ev_Actor ev) (ev_Target ev)
    (ev_Details ev) (ev_Result ev) (ev_Reason ev).
Definition WriteAudit (e : faults) (new_id : gostr) (ev : AuditEvent) (now now' : Time) (m : Manager) (fsys : fs)
    : Manager * fs :=
  match Marshal (event_json (with_id_time new_id now ev)) with
  | None => (m, fsys)
  | Some b => write_to e Audit b now' m fsys
  end.
Definition WriteAuditEvent (e : faults) (new_id id event category severity result ip : gostr)
    (details : list (gostr * json)) (now now' : Time) : Manager -> fs -> Manager * fs :=
  WriteAudit e new_id
    (mkEvent id (RFC3339Nano (UTC now)) event [] category severity {| aa_IP := ip; aa_UserID := []; aa_TokenHash := [] |}
       None details result []) now now'.

Definition security_line (format : gostr) (now : Time) (host program version : gostr) (pid : Z) (message ip : gostr)
    : gostr :=
  if format =s str "syslog" then
    syslog5424Line now (hostname host) program pid (str "security: " ++ message ++ str " from " ++ ip)
  else if format =s str "cef" then
    cefLine (str "CasjaysDev") program version (str "security") message 5 (str "src=" ++ ip)
  else if format =s str "json" then
    jsonLine [(str "time", JStr (RFC3339 (UTC now))); (str "level", JStr (str "SECURITY"));
              (str "msg", JStr message); (str "ip", JStr ip)]
  else if format =s str "text" then textLine now (str "SECURITY") (message ++ str " from " ++ ip)
  else RFC3339 now ++ str " [security] " ++ message ++ str " from " ++ ip.
Definition WriteSecurity (e : faults) (host : gostr) (pid : Z) (message ip : gostr) (now now' : Time) (m : Manager)
    : fs -> Manager * fs :=
  write_to e Security
    (security_line (format_of m Security) now host (m_program m) (m_version m) pid message ip) now' m.
End manager.

(** ** Reconfiguration is all or nothing *)

Section reconfigure.
  Context `{UnicodeTables} `{PrintTable}.

Lemma set_writer_dir c w m : m_logDir (set_writer c w m) = m_logDir m.
Proof. done. Qed.
Lemma set_writer_lookup c d w m :
  m_writer (set_writer c w m) d = if decide (d = c) then w else m_writer m d.
Proof. done. Qed.

(** A writer as opening its file produced it. *)
Definition opened_as (e : faults) (now : Time) (dir : gostr) (cfg : LoggerConfig) (c : category) (w : writer) : Prop :=
  exists fs0 fs1, openWriter e now dir (lc_File cfg c) (default_format c) (compresses cfg c) fs0 = (Ok w, fs1).

Lemma open_all_opened e now cfg cs m fsys m' fsys' :
  open_all e now cfg cs m fsys = (Ok m', fsys') ->
  forall c, (c ∈ cs -> opened_as e now (m_logDir m) cfg c (m_writer m' c)) /\
            (c ∉ cs -> m_writer m' c = m_writer m c).
Proof.
  revert m fsys. induction cs as [|d cs IH]; intros m fsys Ho c; cbn in Ho.
  { simplify_eq. split; [by intros ?%elem_of_nil|done]. }
  destruct (openWriter _ _ _ _ _ _ _) as [[w|err] fs1] eqn:Ew; [|done].
  destruct (IH _ _ Ho c) as [Hin Hout]. rewrite set_writer_dir in Hin. split.
  - intros [->|Hc]%elem_of_cons; [|by apply Hin]. destruct (decide (d ∈ cs)); [by apply Hin|].
    rewrite Hout, set_writer_lookup, decide_True by done. by eexists _, _.
  - rewrite not_elem_of_cons. intros [Hd Hc]. by rewrite Hout, set_writer_lookup, decide_False.
Qed.
Lemma all_categories c : c ∈ categories.
Proof. destruct c; decided. Qed.
Lemma replace_all_lookup (r m : Manager) cs c : c ∈ cs ->
  m_writer (fold_left (fun m c => set_writer c (replace (m_writer m c) (m_writer r c)).1 m) cs m) c = m_writer r c.
Proof.
  revert m. induction cs as [|d cs IH]; intros m Hin; [by apply elem_of_nil in Hin|]. cbn [fold_left].
  destruct (decide (c ∈ cs)) as [|Hc]; [by apply IH|]. apply elem_of_cons in Hin as [->|?]; [|done].
  assert (forall ds n, d ∉ ds -> m_writer
    (fold_left (fun m c => set_writer c (replace (m_writer m c) (m_writer r c)).1 m) ds n) d = m_writer n d) as Hfr.
  { clear. induction ds as [|k ds IH]; intros n Hk; [done|]. apply not_elem_of_cons in Hk as [Hdk Hk]. cbn [fold_left].
    rewrite IH by done. by rewrite set_writer_lookup, decide_False. }
  rewrite Hfr by done. by rewrite set_writer_lookup, decide_True.
Qed.

(** Applying a new logging configuration replaces all eight writers by
    writers opened under it, or, when any file cannot be opened, returns the
    error and leaves the manager as it was. *)
Theorem Reconfigure_all_or_nothing e now cfg m fsys :
  match Reconfigure e now cfg m fsys with
  | (m', _, Some _) => m' = m
  | (m', _, None) => forall c, opened_as e now (m_logDir m) cfg c (m_writer m' c)
  end.
Proof.
  unfold Reconfigure, NewManager.
  destruct (open_all e now cfg categories _ fsys) as [[r|err] fs1] eqn:Eo; [|done].
  intros c. rewrite replace_all_lookup by apply all_categories.
  destruct (open_all_opened _ _ _ _ _ _ _ _ Eo c) as [Hin _]. apply Hin, all_categories.
Qed.
End reconfigure.

(** ** A security event is one line *)

Lemma sanitizeLine_cons c s : isASCII c = true -> line_byte c = true -> sanitizeLine (c :: s) = c :: sanitizeLine s.
Proof.
  intros Ha Hl. unfold sanitizeLine, runes. cbn [runes_from]. unfold decode_rune. unfold isASCII in Ha. rewrite Ha.
  cbn [Nat.sub]. unfold line_byte, isASCII in *.
  assert (sanitize_keeps (code c) = true) as Hk by (unfold sanitize_keeps; lia).
  rewrite filter_cons_True by done. change (string_of_runes (code c :: ?l)) with (encode_rune (code c) ++ string_of_runes l).
  assert (encode_rune (code c) = [c]) as ->; [|done].
  unfold encode_rune. assert (0 <= code c) by (unfold code; lia). rewrite (proj2 (Z.leb_le 0 _)), Ha by done. cbn [andb].
  unfold code, chr. by rewrite N2Z.id, ascii_N_embedding.
Qed.
Lemma starts_nonempty c s : isASCII c = true -> line_byte c = true -> sanitizeLine (c :: s) <> [].
Proof. intros. by rewrite sanitizeLine_cons. Qed.
Lemma stamp_char_plain c : stamp_char c = true -> isASCII c = true /\ line_byte c = true.
Proof. by destruct c as [[] [] [] [] [] [] [] []]. Qed.
Lemma RFC3339_starts t s : sanitizeLine (RFC3339 t ++ s) <> [].
Proof.
  unfold RFC3339, fmt_ymd, fmt_ym, fmt_y. rewrite <-!app_assoc.
  pose proof (appendInt_stamp 4 (year t)) as Hs.
  assert (appendInt 4 (year t) <> []) as Hne.
  { unfold appendInt, zero_pad. case_match; [done|]. intros [_ E]%app_eq_nil. by apply (utoa_correct (year t)) in E; [|lia]. }
  destruct (appendInt 4 (year t)) as [|c l]; [done|]. cbn [forallb] in Hs.
  apply andb_true_iff in Hs as [[Ha Hl]%stamp_char_plain _]. by apply starts_nonempty.
Qed.
Lemma jsonLine_starts kvs : Marshal (JMap kvs) <> None -> sanitizeLine (jsonLine kvs) <> [].
Proof.
  unfold jsonLine. cbn [Marshal]. intros Hm. destruct (_ <$> (merge_sort _ <$> _)) as [s|] eqn:E; [|done].
  destruct (merge_sort key_le <$> _) as [l|]; [|done]. injection E as <-. by apply starts_nonempty.
Qed.
Lemma security_line_nonempty format now host program version pid message ip :
  sanitizeLine (security_line format now host program version pid message ip) <> [].
Proof.
  unfold security_line. repeat case_match.
  - by apply starts_nonempty.
  - by apply starts_nonempty.
  - by apply jsonLine_starts.
  - unfold textLine. apply RFC3339_starts.
  - apply RFC3339_starts.
Qed.

(** Whatever the format of the security log and whatever text the message
    and the address carry, line breaks included, one security event adds
    exactly one line to the log: a client cannot forge a second record. *)
Theorem WriteSecurity_one_record gz host pid message ip now now' m fsys last :
  tracked (m_writer m Security) fsys -> w_compress (m_writer m Security) = false ->
  w_keep (m_writer m Security) = KeepForever -> made_by last (m_writer m Security) fsys ->
  four_digit_year now' -> last < wall_seconds now' ->
  let '(m', fsys') := WriteSecurity gz no_faults host pid message ip now now' m fsys in
  exists line, ("010"%char ∉ line) /\ line <> [] /\
    journal (m_writer m' Security) fsys' = journal (m_writer m Security) fsys ++ line ++ newline.
Proof.
  intros Ht Hc Hk Hm Hy Hl. unfold WriteSecurity, write_to.
  set (line := security_line _ _ _ _ _ _ _ _).
  pose proof (write_journal gz line now' _ fsys last Ht Hc Hk Hm Hy (fun _ => Hl)) as Hj.
  destruct (write gz no_faults line now' (m_writer m Security) fsys) as [w' fs'].
  exists (sanitizeLine line). rewrite set_writer_lookup, decide_True by done.
  destruct Hj as (Hj & _). pose proof (security_line_nonempty (format_of m Security) now host (m_program m) (m_version m) pid message ip) as Hne.
  fold line in Hne. split_and!; [apply sanitizeLine_newline|done|]. rewrite Hj. unfold record. by rewrite decide_False.
Qed.
Lemma WriteSecurity_one_record_witness :
  let m := mkManager (str "/logs") (str "ipgaze") [] (fun _ => demo_writer (str "a.log") (mkRotate [] 0) KeepForever) in
  let '(m', fsys') := WriteSecurity id no_faults [] 1 (str "x") (str "1.2.3.4") (mkTime 0 0) (mkTime 0 0) m
                        (fresh_fs [(str "/logs/a.log", [])] (mkTime 0 0)) in
  exists line, ("010"%char ∉ line) /\ line <> [] /\
    journal (m_writer m' Security) fsys' =
    journal (m_writer m Security) (fresh_fs [(str "/logs/a.log", [])] (mkTime 0 0)) ++ line ++ newline.
Proof.
  cbv zeta. apply (WriteSecurity_one_record id [] 1 (str "x") (str "1.2.3.4") (mkTime 0 0) (mkTime 0 0)
    (mkManager (str "/logs") (str "ipgaze") [] (fun _ => demo_writer (str "a.log") (mkRotate [] 0) KeepForever)) _ (-1));
    [apply demo_tracked|reflexivity|reflexivity| |decided|reflexivity].
  intros n Hn. exfalso. revert Hn. by apply (bool_decide_eq_false_1 _).
Defined.
