(* ===== verification/Backup.v ===== *)
(** * Backup retention: [backup_retention.go] and [disk_space_unix.go]

    The backup directory is the list of its entries; [sort.Slice] is any sorting
    by the given order, which leaves ties in an order of its own.  What the code
    computes in floating point (the value of a size or a percentage, the mantissa
    of a formatted size) is an argument of the definitions that use it.  The
    theorems: which full backups survive the count rules; that the size cap
    removes the oldest files until the rest fits; that the loop of
    [formatByteSize] ends and indexes its unit table within bounds. *)
From stdpp Require Import base list gmap strings sorting.
From Stdlib Require Import ZArith Lia.
From S2P Require Import Prelude GoStrings GoPath GoTime LogFormat LogFiles.
Local Open Scope Z_scope.
Local Open Scope go_scope.

Record backupFileInfo := mkBackup { b_path : gostr; b_name : gostr; b_mod : Time; b_size : Z }.
#[export] Instance backupFileInfo_eq_dec : EqDecision backupFileInfo.
Proof. solve_decision. Defined.

(** An entry of the directory; [Info] can fail. *)
Record dir_entry := mkDirent { d_name : gostr; d_isDir : bool; d_mod : Time; d_size : Z; d_infoErr : bool }.
(** [os.ReadDir]: the entries, a directory that does not exist, or another error. *)
Inductive dir_read := Entries (es : list dir_entry) | NotExist | ReadError.

(** [mod.After]: newest first. *)
Definition newer_eq (x y : backupFileInfo) : Prop := unix_ns (b_mod y) <= unix_ns (b_mod x).
#[export] Instance newer_eq_dec : RelDecision newer_eq.
Proof. intros x y. unfold newer_eq. apply _. Defined.
#[export] Instance newer_eq_trans : Transitive newer_eq.
Proof. intros x y z. unfold newer_eq. lia. Qed.
#[export] Instance newer_eq_total : Total newer_eq.
Proof. intros x y. unfold newer_eq. lia. Qed.

(** What [sort.Slice] promises: the same elements, in order. *)
Class SliceSort := {
  sort_slice : list backupFileInfo -> list backupFileInfo;
  sort_slice_perm l : sort_slice l ≡ₚ l;
  sort_slice_sorted l : StronglySorted newer_eq (sort_slice l) }.
#[export] Program Instance stable_sort : SliceSort := {| sort_slice := merge_sort newer_eq |}.
Next Obligation. intros. apply merge_sort_Permutation. Qed.
Next Obligation. intros. apply (StronglySorted_merge_sort _). Qed.

(** The regular expression of the incremental archives. *)
Definition incremental_names : list gostr :=
  str <$> ["ipgaze-daily.tar.gz"; "ipgaze-daily.tar.gz.enc"; "ipgaze-hourly.tar.gz"; "ipgaze-hourly.tar.gz.enc"]%string.
Definition is_full (name : gostr) : bool :=
  HasPrefix name (str "ipgaze_backup_") && Contains name (str ".tar.gz").
Definition is_backup (name : gostr) : bool := is_full name || bool_decide (name ∈ incremental_names).

Definition info_of (dir : gostr) (e : dir_entry) : backupFileInfo :=
  mkBackup (path_Join dir (d_name e)) (d_name e) (d_mod e) (d_size e).

Section retention.
  Context `{SliceSort}.

(** The loop both listings share: files whose name is accepted and whose
    information can be read. *)
Definition list_backups (accept : gostr -> bool) (dir : gostr) (r : dir_read) : option (list backupFileInfo) :=
  match r with
  | NotExist => Some []
  | ReadError => None
  | Entries es =>
      Some (sort_slice (info_of dir <$>
        filter (fun e => (negb (d_isDir e) && accept (d_name e) && negb (d_infoErr e)) = true) es))
  end.
Definition listFullBackups : gostr -> dir_read -> option (list backupFileInfo) := list_backups is_full.
Definition listAllBackupFiles : gostr -> dir_read -> option (list backupFileInfo) := list_backups is_backup.

Definition falsey_values : list gostr :=
  str <$> ["0"; "false"; "no"; "none"; "disable"; "disabled"; "off"; ""]%string.
Definition isFalseyRetentionValue `{UnicodeTables} (s : gostr) : bool :=
  bool_decide (ToLower (TrimSpace s) ∈ falsey_values).

(** [parseByteSize]; [scaled digits mult] is [int64(f * float64(mult))] for the
    float [f] that [digits] parses to, or nothing. *)
Definition parseByteSize `{UnicodeTables} (scaled : gostr -> Z -> option Z) (s : gostr) : option Z :=
  let s := ToUpper (TrimSpace s) in
  let '(mult, s) :=
    if HasSuffix s (str "T") then (2 ^ 40, TrimSuffix s (str "T"))
    else if HasSuffix s (str "G") then (2 ^ 30, TrimSuffix s (str "G"))
    else if HasSuffix s (str "M") then (2 ^ 20, TrimSuffix s (str "M"))
    else if HasSuffix s (str "K") then (2 ^ 10, TrimSuffix s (str "K"))
    else if HasSuffix s (str "B") then (1, TrimSuffix s (str "B"))
    else (1, s) in
  scaled (TrimSpace s) mult.

Definition total_size (fs : list backupFileInfo) : Z := foldr (fun f acc => b_size f + acc) 0 fs.
Definition uint64 (n : Z) : Z := n mod 2 ^ 64.
Inductive size_cap := CapDisabled | CapBytes (n : Z) | CapError.
(** [parseBackupSizeCap]; [percent digits] is, for digits that parse to a
    percentage above zero, the function [int64(float64(total) * pct / 100)];
    [free] the free bytes of the volume. *)
Definition parseBackupSizeCap `{UnicodeTables} (scaled : gostr -> Z -> option Z) (percent : gostr -> option (Z -> Z))
    (spec dir : gostr) (free : option Z) (r : dir_read) : size_cap :=
  if isFalseyRetentionValue spec then CapDisabled
  else
    let trimmed := TrimSpace spec in
    if HasSuffix trimmed (str "%") then
      match percent (TrimSuffix trimmed (str "%")), free, listAllBackupFiles dir r with
      | Some of_total, Some fr, Some files =>
          CapBytes (of_total (uint64 (fr + uint64 (total_size files))))
      | _, _, _ => CapError
      end
    else match parseByteSize scaled trimmed with
         | None => CapError
         | Some n => if n <=? 0 then CapDisabled else CapBytes n
         end.

(** [keepPeriodic]: the map [keep] as the set of its true keys. *)
Fixpoint keep_loop (fulls : list backupFileInfo) (keep : gset gostr) (n kept : Z) (matches : Time -> bool) : gset gostr :=
  match fulls with
  | [] => keep
  | f :: rest =>
      if negb (matches (b_mod f)) then keep_loop rest keep n kept matches
      else let keep' := {[ b_path f ]} ∪ keep in
           if n <=? kept + 1 then keep' else keep_loop rest keep' n (kept + 1) matches
  end.
Definition keepPeriodic (fulls : list backupFileInfo) (keep : gset gostr) (n : Z) (matches : Time -> bool) : gset gostr :=
  if n <=? 0 then keep else keep_loop fulls keep n 0 matches.

Record retention_config := {
  MaxBackups : Z; KeepWeekly : Z; KeepMonthly : Z; KeepYearly : Z; MaxTotalSize : gostr }.
(** [time.Weekday]: day 0 of the calendar was a Saturday. *)
Definition is_sunday (t : Time) : bool := day_number t mod 7 =? 1.
Definition is_first (t : Time) : bool := day t =? 1.
Definition is_new_year (t : Time) : bool := yday_of_day (day_number t) =? 0.

(** Removing files one by one; a failure is skipped. *)
Definition rm (fails : gostr -> bool) (st : list dir_entry * list gostr) (f : backupFileInfo) : list dir_entry * list gostr :=
  if fails (b_path f) then st else (filter (fun e => d_name e <> b_name f) st.1, st.2 ++ [b_name f]).

Definition keep_set (cfg : retention_config) (fulls : list backupFileInfo) : gset gostr :=
  let maxBackups := if MaxBackups cfg <? 1 then 1 else MaxBackups cfg in
  let keep := list_to_set (b_path <$> take (Z.to_nat maxBackups) fulls) in
  let keep := keepPeriodic fulls keep (KeepWeekly cfg) is_sunday in
  let keep := keepPeriodic fulls keep (KeepMonthly cfg) is_first in
  keepPeriodic fulls keep (KeepYearly cfg) is_new_year.

(** The loop of the size cap, over the files from the oldest on. *)
Fixpoint cap_loop (fails : gostr -> bool) (cap total : Z) (oldest : list backupFileInfo)
    (st : list dir_entry * list gostr) : list dir_entry * list gostr :=
  match oldest with
  | [] => st
  | f :: rest =>
      if total <=? cap then st
      else if fails (b_path f) then cap_loop fails cap total rest st
      else cap_loop fails cap (total - b_size f) rest (rm fails st f)
  end.
Definition apply_cap (fails : gostr -> bool) (cap : size_cap) (dir : gostr) (st : list dir_entry * list gostr)
    : list dir_entry * list gostr :=
  match cap with
  | CapBytes c =>
      match listAllBackupFiles dir (Entries st.1) with
      | Some remaining => cap_loop fails c (total_size remaining) (reverse remaining) st
      | None => st
      end
  | _ => st
  end.
(** The audit events of a cleanup: one per file, then the summary. *)
Definition retention_events (dir : gostr) (st : list dir_entry * list gostr) : list (gostr * list (gostr * json)) :=
  match st.2 with
  | [] => []
  | deleted =>
      ((fun name => (str "backup.deleted", [(str "filename", JStr name); (str "reason", JStr (str "retention"))])) <$> deleted)
      ++ [(str "backup.retention_cleanup",
           [(str "deleted", JList (JStr <$> deleted));
            (str "remaining", JInt (Z.of_nat (length (default [] (listAllBackupFiles dir (Entries st.1))))))])]
  end.
(** [applyBackupRetention] on a directory that can be read: the entries left,
    the names deleted, in order, and the audit events.  [cap_of] resolves
    [max_total_size] against the directory at that moment. *)
Definition applyBackupRetention (fails : gostr -> bool) (cfg : retention_config)
    (cap_of : gostr -> dir_read -> size_cap) (dir : gostr) (es : list dir_entry)
    : list dir_entry * list gostr * list (gostr * list (gostr * json)) :=
  match listFullBackups dir (Entries es), listAllBackupFiles dir (Entries es) with
  | Some fulls, Some allFiles =>
      if bool_decide (fulls = []) && bool_decide (allFiles = []) then (es, [], [])
      else
        let keep := keep_set cfg fulls in
        let st := fold_left (rm fails) (filter (fun f => b_path f ∉ keep) fulls) (es, []) in
        let st' := apply_cap fails (cap_of (MaxTotalSize cfg) (Entries st.1)) dir st in
        (st', retention_events dir st')
  | _, _ => (es, [], [])
  end.
End retention.

(** ** Disk space *)

(** [diskFreeAndUsedPercent] from the block size, block count and available blocks. *)
Definition diskFreeAndUsedPercent (bsize blocks bavail : Z) : Z * Z :=
  let blockSize := uint64 bsize in
  let total := uint64 (blocks * blockSize) in
  let free := uint64 (bavail * blockSize) in
  if total =? 0 then (free, 0)
  else let used := uint64 (total - free) in (free, uint64 (used * 100) / total).

(** [backupDiskSpaceExceeded]: whether to skip, with the figures reported;
    [disk] is nothing where the check is not available. *)
Definition backupDiskSpaceExceeded `{SliceSort} (disk : option (Z * Z)) (thresholdPercent : Z) (dir : gostr) (r : dir_read)
    : option (Z * Z * Z) :=
  match disk with
  | None => None
  | Some (free, usedPercent) =>
      let threshold := if (thresholdPercent <=? 0) || (100 <? thresholdPercent) then 90 else thresholdPercent in
      let mostRecentSize :=
        match listFullBackups dir r with Some (f :: _) => b_size f | _ => 0 end in
      let insufficientFree := (0 <? mostRecentSize) && (free <? uint64 (int64 (2 * mostRecentSize))) in
      if negb insufficientFree && (usedPercent <=? threshold) then None else Some (free, usedPercent, threshold)
  end.

(** ** Human-readable sizes *)

(** The loop of [formatByteSize]; nothing when [fuel] runs out. *)
Fixpoint size_loop (fuel : nat) (v div exp : Z) : option (Z * Z) :=
  match fuel with
  | O => None
  | S k => if v <? 1024 then Some (div, exp) else size_loop k (v / 1024) (int64 (div * 1024)) (exp + 1)
  end.
(** [mantissa n div] is ["%.1f"] of the quotient; the unit is nothing when the
    index is out of range, where the code would panic. *)
Definition formatByteSize (fuel : nat) (mantissa : Z -> Z -> gostr) (n : Z) : option gostr :=
  if n <? 1024 then Some (Itoa n ++ str " B")
  else match size_loop fuel (n / 1024) 1024 0 with
       | None => None
       | Some (div, exp) =>
           (fun u => mantissa n div ++ str " " ++ [u] ++ str "iB") <$> (str "KMGTPE" !! Z.to_nat exp)
       end.

(** ** The count rules *)

Section retention_facts.
  Context `{SliceSort}.

Definition candidate (accept : gostr -> bool) (e : dir_entry) : bool :=
  negb (d_isDir e) && accept (d_name e) && negb (d_infoErr e).
Lemma elem_of_list_backups accept dir es f :
  f ∈ default [] (list_backups accept dir (Entries es)) <->
  exists e, e ∈ es /\ candidate accept e = true /\ f = info_of dir e.
Proof.
  cbn. rewrite sort_slice_perm, list_elem_of_fmap. split.
  - intros (e & -> & [? ?]%list_elem_of_filter). by exists e.
  - intros (e & ? & ? & ->). exists e. split; [done|]. by apply list_elem_of_filter.
Qed.

(** A directory: plain names, each of them once. *)
Record directory (dir : gostr) (es : list dir_entry) : Prop := {
  dir_named : dir <> [];
  dir_plain : forall e, e ∈ es -> plain (d_name e);
  dir_nodup : NoDup (d_name <$> es) }.
Lemma directory_name dir es e e' : directory dir es -> e ∈ es -> e' ∈ es -> d_name e = d_name e' -> e = e'.
Proof. intros [_ _ Hn] He He' E. by eapply (NoDup_fmap_inj d_name). Qed.
Lemma directory_path dir es e e' : directory dir es -> e ∈ es -> e' ∈ es ->
  b_path (info_of dir e) = b_path (info_of dir e') -> e = e'.
Proof.
  intros Hd He He' E. apply (directory_name dir es); [done..|]. destruct Hd as [Hne Hp _].
  cbn in E. apply (f_equal last_element) in E. by rewrite !last_element_Join in E by auto.
Qed.

Lemma fold_rm fails l st :
  (fold_left (rm fails) l st).1 =
  filter (fun e => d_name e ∉ b_name <$> filter (fun f => fails (b_path f) = false) l) st.1.
Proof.
  revert st. induction l as [|f l IH]; intros st.
  - cbn. symmetry. apply filter_all. intros e _. by apply not_elem_of_nil.
  - cbn [fold_left]. rewrite IH. unfold rm. destruct (fails (b_path f)) eqn:E.
    + rewrite filter_cons_False by (by rewrite E). done.
    + rewrite filter_cons_True by done. cbn [fst fmap list_fmap]. rewrite list_filter_filter.
      apply filter_ext_in. intros e _. rewrite not_elem_of_cons. naive_solver.
Qed.

Lemma keep_loop_spec fulls keep n kept matches : kept < n ->
  keep_loop fulls keep n kept matches =
  list_to_set (b_path <$> take (Z.to_nat (n - kept)) (filter (fun f => matches (b_mod f) = true) fulls)) ∪ keep.
Proof.
  revert keep kept. induction fulls as [|f fulls IH]; intros keep kept Hlt; cbn [keep_loop].
  { cbn. rewrite take_nil. set_solver. }
  destruct (matches (b_mod f)) eqn:Em; cbn [negb].
  - rewrite filter_cons_True by done. replace (Z.to_nat (n - kept)) with (S (Z.to_nat (n - (kept + 1)))) by lia.
    cbn [take fmap list_fmap list_to_set]. destruct (Z.leb_spec n (kept + 1)).
    + replace (Z.to_nat (n - (kept + 1))) with 0%nat by lia. cbn. set_solver.
    + rewrite IH by lia. set_solver.
  - rewrite filter_cons_False by (by rewrite Em). by rewrite IH.
Qed.
Lemma keepPeriodic_spec fulls keep n matches :
  keepPeriodic fulls keep n matches =
  list_to_set (b_path <$> take (Z.to_nat n) (filter (fun f => matches (b_mod f) = true) fulls)) ∪ keep.
Proof.
  unfold keepPeriodic. destruct (Z.leb_spec n 0).
  - replace (Z.to_nat n) with 0%nat by lia. cbn. set_solver.
  - rewrite keep_loop_spec by done. by rewrite Z.sub_0_r.
Qed.

(** The full backups the count rules keep: the newest [max_backups] (at least
    one), and the newest of the Sundays, of the firsts of a month and of the
    first days of a year. *)
Definition kept (cfg : retention_config) (fulls : list backupFileInfo) (f : backupFileInfo) : Prop :=
  f ∈ take (Z.to_nat (Z.max 1 (MaxBackups cfg))) fulls \/
  f ∈ take (Z.to_nat (KeepWeekly cfg)) (filter (fun f => is_sunday (b_mod f) = true) fulls) \/
  f ∈ take (Z.to_nat (KeepMonthly cfg)) (filter (fun f => is_first (b_mod f) = true) fulls) \/
  f ∈ take (Z.to_nat (KeepYearly cfg)) (filter (fun f => is_new_year (b_mod f) = true) fulls).
#[export] Instance kept_dec cfg fulls f : Decision (kept cfg fulls f).
Proof. unfold kept. apply _. Defined.

Lemma keep_set_spec cfg fulls p :
  p ∈ keep_set cfg fulls <-> exists f, kept cfg fulls f /\ b_path f = p.
Proof.
  unfold keep_set, kept. rewrite !keepPeriodic_spec, !elem_of_union, !elem_of_list_to_set, !list_elem_of_fmap.
  replace (if MaxBackups cfg <? 1 then 1 else MaxBackups cfg) with (Z.max 1 (MaxBackups cfg))
    by (destruct (Z.ltb_spec (MaxBackups cfg) 1); lia).
  split; [intros [?|[?|[?|?]]]; naive_solver|]. intros (f & [?|[?|[?|?]]] & <-); eauto 8.
Qed.
Lemma kept_in cfg fulls f : kept cfg fulls f -> f ∈ fulls.
Proof.
  intros Hk. unfold kept in Hk.
  assert (forall n (l : list backupFileInfo), f ∈ take n l -> f ∈ l) as Ht
    by (intros n l Hf; by eapply elem_of_sublist, sublist_take).
  repeat match goal with
  | Hk : _ \/ _ |- _ => destruct Hk as [Hk|Hk]
  end; apply Ht in Hk; rewrite ?list_elem_of_filter in Hk; naive_solver.
Qed.

(** With the size cap off and no failing removal, an entry of the backup
    directory is left exactly when it is not a full backup or is one the count
    rules keep; the incremental archives and foreign files are never touched. *)
Theorem retention_count_rules cfg cap_of dir es :
  directory dir es -> (forall r, cap_of (MaxTotalSize cfg) r = CapDisabled) ->
  let fulls := default [] (listFullBackups dir (Entries es)) in
  forall e, e ∈ (applyBackupRetention (fun _ => false) cfg cap_of dir es).1.1 <->
            e ∈ es /\ (candidate is_full e = true -> kept cfg fulls (info_of dir e)).
Proof.
  intros Hd Hcap fulls e. unfold applyBackupRetention. cbn [listFullBackups list_backups listAllBackupFiles].
  assert (forall f, f ∈ fulls <-> exists e, e ∈ es /\ candidate is_full e = true /\ f = info_of dir e) as Hf
    by (intros; apply elem_of_list_backups).
  change (sort_slice _) with fulls at 1. case_match eqn:Enil.
  { apply andb_true_iff in Enil as [Enil%bool_decide_eq_true _]. cbn. split; [|by intros [? _]].
    intros He. split; [done|]. intros Hc. assert (info_of dir e ∈ fulls) as Hin by (apply Hf; by exists e).
    rewrite Enil in Hin. by apply elem_of_nil in Hin. }
  cbn zeta. rewrite Hcap. cbn [apply_cap fst]. rewrite fold_rm. cbn [fst]. rewrite list_elem_of_filter.
  change (sort_slice _) with fulls. split.
  - intros [Hk He]. split; [done|]. intros Hc. destruct (decide (kept cfg fulls (info_of dir e))) as [|Hn]; [done|exfalso]. apply Hk.
    apply list_elem_of_fmap. exists (info_of dir e). split; [done|]. rewrite !list_elem_of_filter. split_and!; [done| |].
    + rewrite keep_set_spec. intros (g & Hg & Hp). apply Hn. pose proof (kept_in _ _ _ Hg) as Hgin.
      apply Hf in Hgin as (e' & He' & _ & ->). by rewrite <-(directory_path dir es e' e).
    + apply Hf. by exists e.
  - intros [He Hk]. split; [|done]. intros (f & Hn & Hfl)%list_elem_of_fmap. rewrite !list_elem_of_filter in Hfl. destruct Hfl as (_ & Hp & Hin).
    apply Hf in Hin as (e' & He' & Hc & ->). assert (e' = e) as -> by (by apply (directory_name dir es)).
    apply Hp, keep_set_spec. exists (info_of dir e). split; [by apply Hk|done].
Qed.

(** ** The size cap *)

Lemma total_size_cons f fs : total_size (f :: fs) = b_size f + total_size fs.
Proof. done. Qed.
Lemma total_size_app a b : total_size (a ++ b) = total_size a + total_size b.
Proof. induction a as [|f a IH]; [done|]. cbn [app]. rewrite !total_size_cons. lia. Qed.

(** Without failures the loop removes the shortest run of oldest files after
    which the rest, newest first, fits. *)
Lemma cap_loop_spec cap newest st :
  0 <= cap ->
  exists k, (k <= length newest)%nat /\
    cap_loop (fun _ => false) cap (total_size newest) (reverse newest) st =
      fold_left (rm (fun _ => false)) (reverse (drop k newest)) st /\
    total_size (take k newest) <= cap /\
    ((k < length newest)%nat -> cap < total_size (take (S k) newest)).
Proof.
  intros Hcap. revert st. induction newest as [|f newest IH] using rev_ind; intros st.
  { exists 0%nat. split_and!; [done|done|done|simpl; lia]. }
  rewrite reverse_snoc. cbn [cap_loop]. rewrite total_size_app, length_app. cbn [length].
  destruct (Z.leb_spec (total_size newest + total_size [f]) cap) as [Hle|Hgt].
  - exists (length (newest ++ [f])). rewrite length_app. cbn [length]. split_and!; [lia| | |lia].
    + rewrite drop_ge by (rewrite length_app; simpl; lia). done.
    + rewrite take_ge by (rewrite length_app; simpl; lia). by rewrite total_size_app.
  - replace (total_size newest + total_size [f] - b_size f) with (total_size newest) by (cbn; lia).
    destruct (IH (rm (fun _ => false) st f)) as (k & Hk & -> & Hfit & Hmin). exists k. split_and!; [lia| | |].
    + rewrite drop_app_le by lia. by rewrite reverse_snoc.
    + by rewrite take_app_le.
    + intros _. destruct (decide (k < length newest)%nat) as [Hlt|Hge].
      * rewrite take_app_le by lia. by apply Hmin.
      * replace k with (length newest) in * by lia.
        rewrite take_ge by (rewrite length_app; simpl; lia). by rewrite total_size_app.
Qed.

(** When removals succeed, the size cap keeps the longest run of newest
    backups, incremental ones included, whose total size fits: exactly these
    remain, with every other entry of the directory. *)
Theorem size_cap_keeps_newest cap dir es deleted :
  directory dir es -> 0 <= cap ->
  let newest := default [] (listAllBackupFiles dir (Entries es)) in
  exists k, (k <= length newest)%nat /\ total_size (take k newest) <= cap /\
    ((k < length newest)%nat -> cap < total_size (take (S k) newest)) /\
    forall e, e ∈ (apply_cap (fun _ => false) (CapBytes cap) dir (es, deleted)).1 <->
              e ∈ es /\ (candidate is_backup e = true -> info_of dir e ∈ take k newest).
Proof.
  intros Hd Hcap newest.
  assert (forall f, f ∈ newest <-> exists e, e ∈ es /\ candidate is_backup e = true /\ f = info_of dir e) as Hf
    by (intros; apply elem_of_list_backups).
  destruct (cap_loop_spec cap newest (es, deleted) Hcap) as (k & Hk & Hloop & Hfit & Hmin). exists k.
  split_and!; [done..|]. intros e. unfold apply_cap. cbn [listAllBackupFiles list_backups fst].
  change (sort_slice _) with newest. rewrite Hloop, fold_rm. cbn [fst]. rewrite list_elem_of_filter.
  assert (NoDup newest) as Hnd.
  { unfold newest. cbn. rewrite sort_slice_perm. apply NoDup_fmap_2_strong.
    - intros e1 e2 [_ H1]%list_elem_of_filter [_ H2]%list_elem_of_filter E. apply (f_equal b_path) in E.
      by apply (directory_path dir es).
    - apply NoDup_filter. destruct Hd as [_ _ Hn]. by apply NoDup_fmap_1 in Hn. }
  rewrite <-(take_drop k newest) in Hnd. apply NoDup_app in Hnd as (_ & Hdis & _).
  assert (forall g, g ∈ newest <-> g ∈ take k newest \/ g ∈ drop k newest) as Hsplit
    by (intros; by rewrite <-elem_of_app, take_drop).
  split.
  - intros [Hk' He]. split; [done|]. intros Hc. assert (info_of dir e ∈ newest) as Hin by (apply Hf; by exists e).
    apply Hsplit in Hin as [|Hin]; [done|]. exfalso. apply Hk', list_elem_of_fmap. exists (info_of dir e).
    split; [done|]. apply list_elem_of_filter. split; [done|]. by apply elem_of_reverse.
  - intros [He Hk']. split; [|done]. intros (f & Hn & [_ Hfd]%list_elem_of_filter)%list_elem_of_fmap.
    rewrite elem_of_reverse in Hfd. assert (f ∈ newest) as Hin by (apply Hsplit; by right).
    apply Hf in Hin as (e' & He' & Hc & ->). assert (e' = e) as -> by (by apply (directory_name dir es)).
    by apply (Hdis (info_of dir e)); [apply Hk'|].
Qed.
End retention_facts.

(** ** Sizes and percentages *)

Lemma size_loop_ends fuel v div exp :
  0 <= v < 1024 ^ Z.of_nat fuel -> (0 < fuel)%nat -> 1 <= div -> div * 1024 ^ Z.of_nat fuel <= 2 ^ 70 ->
  div * v <= MaxInt64 ->
  exists k, 0 <= k < Z.of_nat fuel /\ size_loop fuel v div exp = Some (div * 1024 ^ k, exp + k) /\
            v / 1024 ^ k < 1024 /\ (k = 0 \/ 1024 ^ k <= v).
Proof.
  revert v div exp. induction fuel as [|fuel IH]; intros v div exp Hv Hf Hd Hb Hmax; [lia|].
  cbn [size_loop]. destruct (Z.ltb_spec v 1024) as [Hlt|Hge].
  { exists 0. rewrite Z.pow_0_r, Z.mul_1_r, Z.add_0_r, Z.div_1_r. split_and!; [lia|lia|done|lia|by left]. }
  rewrite Nat2Z.inj_succ, Z.pow_succ_r in Hv, Hb by lia.
  assert (int64 (div * 1024) = div * 1024) as ->.
  { unfold int64, MaxInt64 in *. rewrite Z.mod_small; nia. }
  destruct fuel as [|fuel]; [simpl in *; lia|].
  assert (0 <= v / 1024 < 1024 ^ Z.of_nat (S fuel)) as Hq by (split; [apply Z.div_pos; lia|apply Z.div_lt_upper_bound; lia]).
  assert (1024 * (v / 1024) <= v) by (apply Z.mul_div_le; lia).
  destruct (IH (v / 1024) (div * 1024) (exp + 1)) as (k & Hk & -> & Hlt & Hlow); [done|lia|lia|lia|nia|].
  exists (k + 1). rewrite Z.pow_add_r by lia. change (1024 ^ 1) with 1024. split_and!; [lia|lia| | |].
  - f_equal. f_equal; lia.
  - rewrite Z.mul_comm, <-Z.div_div by (lia || apply Z.pow_pos_nonneg; lia). done.
  - right. destruct Hlow as [->|Hlow]; [rewrite Z.pow_0_r; lia|lia].
Qed.

(** For every 64-bit size the loop of [formatByteSize] ends within six
    rounds, its divisor never overflows, the unit index stays inside the
    six-letter table, and the divisor is the power of 1024 just below the size. *)
Theorem formatByteSize_terminates n :
  1024 <= n <= MaxInt64 ->
  exists exp, 0 <= exp <= 5 /\ size_loop 6 (n / 1024) 1024 0 = Some (1024 ^ (exp + 1), exp) /\
    1024 ^ (exp + 1) <= n < 1024 ^ (exp + 2) /\
    forall mantissa, exists u, str "KMGTPE" !! Z.to_nat exp = Some u /\
      formatByteSize 6 mantissa n = Some (mantissa n (1024 ^ (exp + 1)) ++ str " " ++ [u] ++ str "iB").
Proof.
  intros Hn. assert (1024 * (n / 1024) <= n) by (apply Z.mul_div_le; lia).
  destruct (size_loop_ends 6 (n / 1024) 1024 0) as (k & Hk & Hl & Hlt & Hlow);
    [|lia|lia|done|lia|].
  { split; [apply Z.div_pos; lia|]. apply Z.div_lt_upper_bound; [lia|]. unfold MaxInt64 in Hn. change (1024 * 1024 ^ Z.of_nat 6) with (2 ^ 70). lia. }
  exists k. assert (1024 * 1024 ^ k = 1024 ^ (k + 1)) as Ep by (rewrite Z.pow_add_r by lia; lia).
  rewrite Ep in Hl. assert (0 < 1024 ^ k) by (apply Z.pow_pos_nonneg; lia). split_and!; [lia|lia|done| | |].
  - rewrite <-Ep. destruct Hlow as [->|?]; [rewrite Z.pow_0_r; lia|lia].
  - replace (k + 2) with (k + 1 + 1) by lia. rewrite Z.pow_add_r, <-Ep by lia. change (1024 ^ 1) with 1024.
    rewrite Z.div_div in Hlt by lia. apply Z.lt_nge. intros Hge.
    assert (1024 <= n / (1024 * 1024 ^ k)) by (apply Z.div_le_lower_bound; lia). lia.
  - intros mantissa. assert (exists u, str "KMGTPE" !! Z.to_nat k = Some u) as [u Hu].
    { apply lookup_lt_is_Some. change (length (str "KMGTPE")) with 6%nat. lia. }
    exists u. split; [done|]. unfold formatByteSize. rewrite (proj2 (Z.ltb_ge n 1024)) by lia. rewrite Hl.
    by apply fmap_Some; exists u.
Qed.
Lemma formatByteSize_terminates_witness :
  exists exp, 0 <= exp <= 5 /\ size_loop 6 (MaxInt64 / 1024) 1024 0 = Some (1024 ^ (exp + 1), exp).
Proof.
  destruct (formatByteSize_terminates MaxInt64) as (exp & Hexp & Hl & _); [unfold MaxInt64; lia|]. by exists exp.
Defined.

(** The used percentage is one, for a volume below 2^57 bytes whose available
    blocks do not exceed its blocks. *)
Lemma diskFreeAndUsedPercent_range bsize blocks bavail :
  0 <= bsize -> 0 <= bavail <= blocks -> blocks * bsize < 2 ^ 57 ->
  0 <= (diskFreeAndUsedPercent bsize blocks bavail).2 <= 100.
Proof.
  intros Hb Ha Ht. unfold diskFreeAndUsedPercent, uint64.
  destruct (decide (bsize = 0)) as [->|]; [by rewrite Z.mod_0_l, !Z.mul_0_r by done|].
  destruct (decide (blocks = 0)) as [->|]; [assert (bavail = 0) as -> by lia; done|].
  assert (bsize < 2 ^ 57) by nia. rewrite (Z.mod_small bsize) by lia.
  assert (bavail * bsize <= blocks * bsize) by nia. rewrite (Z.mod_small (blocks * bsize)), (Z.mod_small (bavail * bsize)) by nia.
  rewrite (proj2 (Z.eqb_neq _ 0)) by nia. cbn [snd]. set (t := blocks * bsize) in *. set (f := bavail * bsize) in *.
  assert (0 <= f <= t /\ 0 < t) by nia. rewrite (Z.mod_small (t - f)), Z.mod_small by lia.
  split; [apply Z.div_pos; lia|]. apply Z.div_le_upper_bound; lia.
Qed.

(** ** Examples *)

(** Three full backups, on a Sunday, the Saturday and the Friday before, and an
    incremental archive. *)
Definition demo_day (n : Z) : Time := mkTime (n * 86400 * Second) 0.
Definition demo_dir : list dir_entry :=
  [mkDirent (str "ipgaze_backup_1.tar.gz") false (demo_day 3) 5 false;
   mkDirent (str "ipgaze_backup_2.tar.gz") false (demo_day 2) 5 false;
   mkDirent (str "ipgaze_backup_3.tar.gz") false (demo_day 1) 5 false;
   mkDirent (str "ipgaze-daily.tar.gz") false (demo_day 0) 5 false].
Definition demo_retention (weekly : Z) : retention_config := Build_retention_config 1 weekly 0 0 (str "0").
Lemma demo_directory : directory (str "/b") demo_dir.
Proof.
  split; [discriminate| |decided]. intros e He.
  repeat (apply elem_of_cons in He as [->|He]; [repeat split; [discriminate..|decided]|]). by apply elem_of_nil in He.
Qed.
Lemma retention_count_rules_witness :
  mkDirent (str "ipgaze_backup_1.tar.gz") false (demo_day 3) 5 false ∈
  (applyBackupRetention (fun _ => false) (demo_retention 0) (fun _ _ => CapDisabled) (str "/b") demo_dir).1.1.
Proof.
  apply (retention_count_rules (demo_retention 0) (fun _ _ => CapDisabled) (str "/b") demo_dir);
    [apply demo_directory|reflexivity|]. split; [apply list_elem_of_here|]. intros _. decided.
Defined.
Lemma size_cap_keeps_newest_witness :
  exists k, (k <= 4)%nat /\
    total_size (take k (default [] (listAllBackupFiles (str "/b") (Entries demo_dir)))) <= 12.
Proof.
  destruct (size_cap_keeps_newest 12 (str "/b") demo_dir [] demo_directory) as (k & Hk & Hfit & _); [lia|].
  by exists k.
Defined.

(** A backup kept as the weekly one also takes the daily slot: with one daily
    and one weekly backup to keep, a newest backup of a Sunday leaves nothing
    else. *)
Lemma sunday_takes_both_slots :
  (applyBackupRetention (fun _ => false) (demo_retention 1) (fun _ _ => CapDisabled) (str "/b") demo_dir).1.2 =
  [str "ipgaze_backup_2.tar.gz"; str "ipgaze_backup_3.tar.gz"].
Proof. vm_compute. reflexivity. Qed.

(** The cap spares nothing: a newest backup larger than it is removed too. *)
Lemma cap_removes_every_backup :
  (applyBackupRetention (fun _ => false) (demo_retention 0) (fun _ _ => CapBytes 4) (str "/b") demo_dir).1.1 = [].
Proof. vm_compute. reflexivity. Qed.
