(* ===== verification/BackupArchive.v ===== *)
(** * Backup archives: [backup_crypto.go], and the manifest check of [verifyBackup]

    Encryption around a cipher and a key derivation the program takes from
    libraries; the walk that collects what is hashed and what is archived; and
    the guarded extraction.  The theorems: decryption returns what was
    encrypted; the checksum covers exactly the contents archived; extraction
    stays below its destination and within its limits. *)
From stdpp Require Import base list gmap strings sorting.
From Stdlib Require Import ZArith Lia.
From S2P Require Import Prelude GoStrings GoPath.
Local Open Scope Z_scope.
Local Open Scope go_scope.

(** ** Encryption *)

Definition backupSaltLen : nat := 16.
Definition backupNonceLen : nat := 12.

(** Argon2id as [deriveBackupKey] calls it, and AES-256-GCM with that key:
    opening a sealed text with the same key and nonce returns it. *)
Class BackupCipher := {
  deriveBackupKey : gostr -> gostr -> gostr;
  seal : gostr -> gostr -> gostr -> gostr;
  open_sealed : gostr -> gostr -> gostr -> option gostr }.
Class BackupCipherLaws `{BackupCipher} := {
  open_seal key nonce p : open_sealed key nonce (seal key nonce p) = Some p }.

Inductive crypt_error := EmptyPassword | TooShort | WrongPasswordOrCorrupted | RandomFailed.
(** [salt] and [nonce] are what the random source delivers, or a failure. *)
Definition encryptBackupArchive `{BackupCipher} (salt nonce : option gostr) (plaintext password : gostr)
    : result crypt_error gostr :=
  if password =s [] then Err EmptyPassword
  else match salt, nonce with
       | Some salt, Some nonce => Ok (salt ++ nonce ++ seal (deriveBackupKey password salt) nonce plaintext)
       | _, _ => Err RandomFailed
       end.
Definition decryptBackupArchive `{BackupCipher} (data password : gostr) : result crypt_error gostr :=
  if (length data <? backupSaltLen + backupNonceLen)%nat then Err TooShort
  else if password =s [] then Err EmptyPassword
  else
    let salt := take backupSaltLen data in
    let nonce := take backupNonceLen (drop backupSaltLen data) in
    let ciphertext := drop (backupSaltLen + backupNonceLen) data in
    match open_sealed (deriveBackupKey password salt) nonce ciphertext with
    | Some p => Ok p
    | None => Err WrongPasswordOrCorrupted
    end.

Inductive password_error := PromptFailed | NoPasswordConfigured | ComplianceBlocked.
(** [resolveBackupEncryptionPassword]; [prompt] is what the terminal delivers. *)
Definition resolveBackupEncryptionPassword (compliance enabled : bool) (configured : gostr) (interactive : bool)
    (prompt : option gostr) : result password_error gostr :=
  let encConfigured := enabled || (configured <>s []) in
  if encConfigured && interactive then
    match prompt with Some pw => Ok pw | None => Err PromptFailed end
  else if encConfigured then
    if configured =s [] then Err NoPasswordConfigured else Ok configured
  else if compliance then Err ComplianceBlocked
  else Ok [].

(** ** Layout *)

Record backupArchiveLayout := mkLayout {
  configDir : gostr; dataDir : gostr; dbDir : gostr; includeSSL : bool; includeData : bool }.
Definition isUnderDir (path dir : gostr) : bool :=
  if (path =s []) || (dir =s []) then false
  else (Clean path =s Clean dir) || HasPrefix (Clean path) (Clean dir ++ [slash]).
Definition isExcludedPath (p : gostr) (excludes : list gostr) : bool := existsb (isUnderDir p) excludes.
Definition sslDir (l : backupArchiveLayout) : gostr := path_Join (configDir l) (str "ssl").
Definition dbNestedInData (l : backupArchiveLayout) : bool := isUnderDir (dbDir l) (dataDir l).
Definition configExcludes (l : backupArchiveLayout) : list gostr := if includeSSL l then [] else [sslDir l].
Definition dataExcludes (l : backupArchiveLayout) : list gostr := if dbNestedInData l then [dbDir l] else [].

(** ** Walking *)

(** A file tree as [filepath.Walk] meets it, children in its order; a file may
    be unreadable, a directory unlistable. *)
Inductive tree :=
| TFile (data : option gostr)
| TLink
| TDir (children : list (gostr * tree))
| TUnlistable.
(** [os.Stat] of a directory to back up. *)
Inductive stat := Missing | StatError | Found (t : tree).

Inductive walk_error := ReadFailed (path : gostr) | ListFailed (path : gostr) | NotADirectory | StatFailed | RelFailed.

(** The callback of [hashBackupDirInto] along the walk: the bytes written to
    the hash. *)
Fixpoint hash_walk (excludes : list gostr) (p : gostr) (t : tree) : result walk_error gostr :=
  let children := fix children (cs : list (gostr * tree)) : result walk_error gostr :=
    match cs with
    | [] => Ok []
    | (n, c) :: rest =>
        let? a := hash_walk excludes (path_Join p n) c in
        let? b := children rest in Ok (a ++ b)
    end in
  if isExcludedPath p excludes then Ok []
  else match t with
       | TFile (Some d) => Ok d
       | TFile None => Err (ReadFailed p)
       | TLink => Ok []
       | TDir cs => children cs
       | TUnlistable => Err (ListFailed p)
       end.
Definition hashBackupDirInto (s : stat) (dir : gostr) (excludes : list gostr) : result walk_error gostr :=
  match s with
  | Missing => Ok []
  | StatError => Err StatFailed
  | Found (TFile _) | Found TLink => Err NotADirectory
  | Found t => hash_walk excludes dir t
  end.

(** Entries of the archive. *)
Inductive tar_kind := TypeDir | TypeReg | TypeOther.
#[export] Instance tar_kind_eq_dec : EqDecision tar_kind.
Proof. solve_decision. Defined.
Record tar_entry := mkEntry { h_name : gostr; h_kind : tar_kind; h_size : Z; h_data : gostr }.
Definition addBackupFileToTar (name data : gostr) : tar_entry :=
  mkEntry name TypeReg (Z.of_nat (length data)) data.
Definition dir_header (name : gostr) : tar_entry := mkEntry (name ++ [slash]) TypeDir 0 [].
(** The name of a walked path in the archive. *)
Definition archive_entry_name (srcDir prefix p : gostr) : result walk_error gostr :=
  match Rel srcDir p with
  | None => Err RelFailed
  | Some rel => Ok (if rel =s dot then prefix else path_Join prefix rel)
  end.
Fixpoint tar_walk (srcDir prefix : gostr) (excludes : list gostr) (p : gostr) (t : tree)
    : result walk_error (list tar_entry) :=
  let children := fix children (cs : list (gostr * tree)) : result walk_error (list tar_entry) :=
    match cs with
    | [] => Ok []
    | (n, c) :: rest =>
        let? a := tar_walk srcDir prefix excludes (path_Join p n) c in
        let? b := children rest in Ok (a ++ b)
    end in
  if isExcludedPath p excludes then Ok []
  else
    let? name := archive_entry_name srcDir prefix p in
    match t with
    | TFile (Some d) => Ok [addBackupFileToTar name d]
    | TFile None => Err (ReadFailed p)
    | TLink => Ok []
    | TDir cs => let? es := children cs in Ok (dir_header name :: es)
    | TUnlistable => Err (ListFailed p)
    end.
Definition addBackupDirToTar (s : stat) (srcDir prefix : gostr) (excludes : list gostr)
    : result walk_error (list tar_entry) :=
  match s with
  | Missing => Ok []
  | StatError => Err StatFailed
  | Found (TFile _) | Found TLink => Err NotADirectory
  | Found t => tar_walk srcDir prefix excludes srcDir t
  end.

(** [filepath.Base] *)
Definition Base (p : gostr) : gostr :=
  if p =s [] then dot else match segments p with [] => [slash] | cs => List.last cs [] end.

Section archive.
  (** The file system: what [os.Stat] and the walk find at a path. *)
  Context (disk : gostr -> stat).

(** The bytes of [computeBackupContentChecksum], before SHA-256. *)
Definition checksum_input (l : backupArchiveLayout) : result walk_error gostr :=
  let? a := hashBackupDirInto (disk (configDir l)) (configDir l) (configExcludes l) in
  let? b := hashBackupDirInto (disk (dbDir l)) (dbDir l) [] in
  let? c := if includeData l then hashBackupDirInto (disk (dataDir l)) (dataDir l) (dataExcludes l) else Ok [] in
  Ok (a ++ b ++ c).
Definition computeBackupContentChecksum (sha256 : gostr -> gostr) (l : backupArchiveLayout) : result walk_error gostr :=
  let? h := checksum_input l in Ok (str "sha256:" ++ sha256 h).

Definition is_dir (p : gostr) : bool :=
  match disk p with Found (TDir _) | Found TUnlistable => true | _ => false end.
Definition is_file (p : gostr) : bool :=
  match disk p with Found (TFile _) => true | _ => false end.
Definition backupArchiveContents (l : backupArchiveLayout) : list gostr :=
  (if is_file (path_Join (configDir l) (str "server.yml")) then [str "server.yml"] else [])
  ++ (if is_dir (dbDir l) then [str "server.db"] else [])
  ++ (if is_dir (path_Join (configDir l) (str "template")) then [str "template/"] else [])
  ++ (if is_dir (path_Join (configDir l) (str "theme")) then [str "theme/"] else [])
  ++ (if is_dir (path_Join (configDir l) (str "security")) then [str "security/"] else [])
  ++ (if includeSSL l && is_dir (sslDir l) then [str "ssl/"] else [])
  ++ (if includeData l && is_dir (dataDir l) then [str "data/"] else []).

(** [buildBackupArchive] up to the compression: the entries, in order.
    [manifest checksum contents] is the marshalled manifest. *)
Definition buildBackupArchive (sha256 : gostr -> gostr) (manifest : gostr -> list gostr -> gostr)
    (l : backupArchiveLayout) : result walk_error (list tar_entry) :=
  let? checksum := computeBackupContentChecksum sha256 l in
  let? a := addBackupDirToTar (disk (configDir l)) (configDir l) (Base (configDir l)) (configExcludes l) in
  let? b := addBackupDirToTar (disk (dbDir l)) (dbDir l) (str "db") [] in
  let? c := if includeData l
            then addBackupDirToTar (disk (dataDir l)) (dataDir l) (Base (dataDir l)) (dataExcludes l)
            else Ok [] in
  Ok (addBackupFileToTar (str "manifest.json") (manifest checksum (backupArchiveContents l)) :: a ++ b ++ c).
End archive.

(** The search of [verifyBackup] for the manifest: the last entry whose name
    ends in [.json]. *)
Definition find_manifest (es : list tar_entry) : option gostr :=
  fold_left (fun m e => if HasSuffix (h_name e) (str ".json") then Some (h_data e) else m) es None.

(** ** Extraction *)

Record BackupRestoreLimits := mkLimits {
  MaxArchiveSize : Z; MaxExpandedSize : Z; MaxFiles : Z; MaxFileSize : Z; MaxRatio : Z }.
Definition defaultBackupRestoreLimits : BackupRestoreLimits :=
  mkLimits (2 ^ 30) (4 * 2 ^ 30) 10000 (512 * 2 ^ 20) 100.

Inductive extract_error :=
| ArchiveSize | GzipOpen | TarRead | EntrySize (name : gostr) | FileCount | ExpandedSize | Ratio
| Escapes (name : gostr) | WriteFailed (target : gostr).

(** The loop's counters and the destination: directories made and files written. *)
Record extract_state := mkState {
  x_count : Z; x_expanded : Z; x_dirs : gset gostr; x_files : gmap gostr gostr }.

(** What the archive reader delivers: its entries, and then an error or the end.
    An entry's data may be shorter than its header says. *)
Record tar_stream := mkStream { t_entries : list tar_entry; t_error : bool }.

Section extraction.
  (** [float64(expanded)/float64(len) > float64(ratio)], and which paths the
      system refuses to create. *)
  Context (ratio_above : Z -> Z -> Z -> bool) (refused : gostr -> bool).

Definition parent_dir (p : gostr) : gostr := Clean (take (length p - length (List.last (split_on slash p) [])) p).

Definition check_counts (limits : BackupRestoreLimits) (len : Z) (e : tar_entry) (st : extract_state)
    : result extract_error extract_state :=
  if (h_size e <? 0) || (MaxFileSize limits <? h_size e) then Err (EntrySize (h_name e))
  else
    let count := if decide (h_kind e = TypeReg) then x_count st + 1 else x_count st in
    if bool_decide (h_kind e = TypeReg) && (MaxFiles limits <? count) then Err FileCount
    else if 0 <? h_size e then
      if MaxExpandedSize limits - h_size e <? x_expanded st then Err ExpandedSize
      else
        let expanded := x_expanded st + h_size e in
        if ratio_above expanded len (MaxRatio limits) then Err Ratio
        else Ok (mkState count expanded (x_dirs st) (x_files st))
    else Ok (mkState count (x_expanded st) (x_dirs st) (x_files st)).

Definition entry_target (cleanDest : gostr) (e : tar_entry) : result extract_error gostr :=
  let cleanName := Clean (h_name e) in
  if (cleanName =s dotdot) || HasPrefix cleanName (dotdot ++ [slash]) || isRooted cleanName
  then Err (Escapes (h_name e))
  else
    let target := path_Join cleanDest cleanName in
    if (target <>s cleanDest) && negb (HasPrefix target (cleanDest ++ [slash]))
    then Err (Escapes (h_name e)) else Ok target.

Definition extract_entry (limits : BackupRestoreLimits) (len : Z) (cleanDest : gostr) (e : tar_entry)
    (st : extract_state) : result extract_error extract_state :=
  let? st := check_counts limits len e st in
  let? target := entry_target cleanDest e in
  match h_kind e with
  | TypeDir =>
      if refused target then Err (WriteFailed target)
      else Ok (mkState (x_count st) (x_expanded st) ({[ target ]} ∪ x_dirs st) (x_files st))
  | TypeReg =>
      if refused target || (Z.of_nat (length (h_data e)) <? h_size e) then Err (WriteFailed target)
      else Ok (mkState (x_count st) (x_expanded st) ({[ parent_dir target ]} ∪ x_dirs st)
                 (<[target := take (Z.to_nat (h_size e)) (h_data e)]> (x_files st)))
  | TypeOther => Ok st
  end.
Fixpoint extract_all (limits : BackupRestoreLimits) (len : Z) (cleanDest : gostr) (es : list tar_entry)
    (st : extract_state) : result extract_error extract_state :=
  match es with
  | [] => Ok st
  | e :: rest => let? st' := extract_entry limits len cleanDest e st in extract_all limits len cleanDest rest st'
  end.
Definition extractBackupArchiveWithLimits (limits : BackupRestoreLimits) (archive : gostr)
    (gunzip : gostr -> option tar_stream) (destDir : gostr) : result extract_error extract_state :=
  let len := Z.of_nat (length archive) in
  if (len =? 0) || (MaxArchiveSize limits <? len) then Err ArchiveSize
  else match gunzip archive with
       | None => Err GzipOpen
       | Some s =>
           let? st := extract_all limits len (Clean destDir) (t_entries s) (mkState 0 0 ∅ ∅) in
           if t_error s then Err TarRead else Ok st
       end.
End extraction.

(** ** Encryption reads back *)

(** C39. Decrypting with the same password returns the archive that was
    encrypted, whatever it contains, for every salt and nonce of the lengths
    the code draws. *)
Theorem decrypt_encrypt `{BackupCipherLaws} salt nonce plaintext password data :
  length salt = backupSaltLen -> length nonce = backupNonceLen ->
  encryptBackupArchive (Some salt) (Some nonce) plaintext password = Ok data ->
  decryptBackupArchive data password = Ok plaintext.
Proof.
  intros Hs Hn. unfold encryptBackupArchive, decryptBackupArchive. case_bool_decide as Hp; [done|]. intros [= <-].
  rewrite (proj2 (Nat.ltb_ge _ _)) by (rewrite !length_app, Hs, Hn; lia).
  rewrite take_app_length', drop_app_length' by done.
  rewrite <-drop_drop, drop_app_length', take_app_length', drop_app_length' by done. by rewrite open_seal.
Qed.
(** A cipher with the law, to show that it can hold. *)
Definition plain_cipher : BackupCipher :=
  {| deriveBackupKey := fun pw salt => pw ++ salt; seal := fun _ _ p => p; open_sealed := fun _ _ c => Some c |}.
Lemma plain_cipher_laws : @BackupCipherLaws plain_cipher.
Proof. constructor. reflexivity. Qed.
Lemma decrypt_encrypt_witness :
  @decryptBackupArchive plain_cipher (replicate 16 "s"%char ++ replicate 12 "n"%char ++ str "data") (str "pw") = Ok (str "data").
Proof.
  apply (@decrypt_encrypt plain_cipher plain_cipher_laws (replicate 16 "s"%char) (replicate 12 "n"%char)); reflexivity.
Defined.

(** ** The checksum covers the archive *)

Section tree_induction.
  Context (P : tree -> Prop).
  Context (Hfile : forall d, P (TFile d)) (Hlink : P TLink) (Hun : P TUnlistable).
  Context (Hdir : forall cs, Forall (fun nc => P nc.2) cs -> P (TDir cs)).
Fixpoint tree_nested_ind (t : tree) : P t :=
  match t with
  | TFile d => Hfile d
  | TLink => Hlink
  | TDir cs => Hdir cs ((fix go (cs : list (gostr * tree)) : Forall (fun nc => P nc.2) cs :=
                           match cs with
                           | [] => Forall_nil_2 _
                           | nc :: cs' => Forall_cons_2 _ _ _ (tree_nested_ind nc.2) (go cs')
                           end) cs)
  | TUnlistable => Hun
  end.
End tree_induction.

(** The contents of the regular files of an archive, one after the other. *)
Definition file_data (es : list tar_entry) : gostr :=
  concat (h_data <$> filter (fun e => h_kind e = TypeReg) es).
Lemma file_data_app a b : file_data (a ++ b) = file_data a ++ file_data b.
Proof. unfold file_data. by rewrite filter_app, fmap_app, concat_app. Qed.
Lemma file_data_one name d : file_data [addBackupFileToTar name d] = d.
Proof. unfold file_data. rewrite filter_cons_True by done. apply app_nil_r. Qed.
Lemma rbind_Ok {E A B} (m : result E A) (k : A -> result E B) b :
  rbind m k = Ok b -> exists a, m = Ok a /\ k a = Ok b.
Proof. destruct m; [by eauto|done]. Qed.

Lemma tar_walk_hash src prefix excludes t p es :
  tar_walk src prefix excludes p t = Ok es -> hash_walk excludes p t = Ok (file_data es).
Proof.
  revert p es. induction t as [d| | |cs IH] using tree_nested_ind; intros p es; cbn [tar_walk hash_walk];
    (destruct (isExcludedPath p excludes); [by intros [= <-]|]); intros (name & _ & Hes)%rbind_Ok.
  - destruct d as [d|]; [|done]. injection Hes as <-. by rewrite file_data_one.
  - by injection Hes as <-.
  - done.
  - apply rbind_Ok in Hes as (es' & Hes' & [= <-]). change (file_data (dir_header name :: es')) with (file_data es').
    revert es' Hes'. induction IH as [|[n c] cs Hc _ IHcs]; intros es' Hes'; [by injection Hes' as <-|].
    apply rbind_Ok in Hes' as (a & Ha & (b & Hb & [= <-])%rbind_Ok).
    cbn [snd] in Hc. rewrite (Hc _ _ Ha). cbn [rbind]. rewrite (IHcs _ Hb), file_data_app. done.
Qed.
Lemma addBackupDirToTar_hash s src prefix excludes es :
  addBackupDirToTar s src prefix excludes = Ok es -> hashBackupDirInto s src excludes = Ok (file_data es).
Proof.
  unfold addBackupDirToTar, hashBackupDirInto.
  destruct s as [| |[]]; try done; try (by intros [= <-]); apply tar_walk_hash.
Qed.

(** The checksum in the manifest of a built archive is the digest of
    exactly the file contents archived after it, in order: nothing is hashed
    that is not in the archive and nothing archived escapes the checksum. *)
Theorem checksum_covers_archive disk sha256 manifest l es :
  buildBackupArchive disk sha256 manifest l = Ok es ->
  exists rest, es = addBackupFileToTar (str "manifest.json")
                      (manifest (str "sha256:" ++ sha256 (file_data rest)) (backupArchiveContents disk l)) :: rest.
Proof.
  unfold buildBackupArchive, computeBackupContentChecksum, checksum_input.
  intros (ck & Hck & (a & Ha & (b & Hb & (c & Hc & [= <-])%rbind_Ok)%rbind_Ok)%rbind_Ok)%rbind_Ok.
  rewrite (addBackupDirToTar_hash _ _ _ _ _ Ha), (addBackupDirToTar_hash _ _ _ _ _ Hb) in Hck. cbn [rbind] in Hck.
  exists (a ++ b ++ c). rewrite !file_data_app. do 3 f_equal.
  assert (ck = str "sha256:" ++ sha256 (file_data a ++ file_data b ++ file_data c)) as ->; [|done].
  destruct (includeData l).
  - rewrite (addBackupDirToTar_hash _ _ _ _ _ Hc) in Hck. by injection Hck as <-.
  - injection Hc as <-. by injection Hck as <-.
Qed.
Definition demo_disk (p : gostr) : stat :=
  if p =s str "/etc/apimgr/ipgaze" then
    Found (TDir [(str "server.yml", TFile (Some (str "cfg"))); (str "theme", TDir [(str "t.json", TFile (Some (str "{}")))])])
  else if p =s str "/var/lib/apimgr/ipgaze" then
    Found (TDir [(str "db", TDir [(str "server.db", TFile (Some (str "db")))]); (str "server.yml", TFile (Some (str "other")))])
  else if p =s str "/var/lib/apimgr/ipgaze/db" then Found (TDir [(str "server.db", TFile (Some (str "db")))])
  else Missing.
Definition demo_layout (data : bool) : backupArchiveLayout :=
  mkLayout (str "/etc/apimgr/ipgaze") (str "/var/lib/apimgr/ipgaze") (str "/var/lib/apimgr/ipgaze/db") false data.
Definition demo_archive (data : bool) : list tar_entry :=
  match buildBackupArchive demo_disk id (fun ck _ => ck) (demo_layout data) with Ok es => es | Err _ => [] end.
Lemma checksum_covers_archive_witness :
  exists rest, demo_archive true = addBackupFileToTar (str "manifest.json") (str "sha256:cfg{}dbother") :: rest.
Proof.
  destruct (checksum_covers_archive demo_disk id (fun ck _ => ck) (demo_layout true) (demo_archive true)) as [rest Hr];
    [vm_compute; reflexivity|].
  exists rest. rewrite Hr. assert (tail (demo_archive true) = rest) as <- by (by rewrite Hr). vm_compute. reflexivity.
Defined.

(** ** Extraction is confined and bounded *)

Lemma relative_plain name :
  Clean name <> dotdot -> HasPrefix (Clean name) (dotdot ++ [slash]) = false -> isRooted (Clean name) = false ->
  Forall plain (comps name).
Proof.
  intros Hdd Hpre Hroot. destruct (comps_clean name) as (n & rest & Hc & Hp & _).
  destruct n as [|n]; [by rewrite Hc|exfalso]. rewrite isRooted_Clean in Hroot.
  unfold Clean, render in Hdd, Hpre. rewrite Hroot, Hc in *. cbn [replicate app] in *.
  destruct (replicate n dotdot ++ rest) as [|q l]; [done|].
  rewrite Join_cons1 in Hpre by done. change (dotdot ++ slash :: Join (q :: l) [slash])
    with (dotdot ++ [slash] ++ Join (q :: l) [slash]) in Hpre. by rewrite app_assoc, HasPrefix_app in Hpre.
Qed.

(** A path strictly or not below a directory, in components. *)
Definition below (dest p : gostr) : Prop :=
  isRooted p = isRooted dest /\ exists rest, comps p = comps dest ++ rest /\ Forall plain rest.

Lemma entry_target_below dest e target :
  dest <> [] -> entry_target (Clean dest) e = Ok target -> below dest target.
Proof.
  intros Hd. unfold entry_target. case_match eqn:Eg; [done|]. apply orb_false_iff in Eg as [[Hdd Hpre]%orb_false_iff Hroot].
  case_match; [done|]. intros [= <-]. bool_facts.
  pose proof (relative_plain (h_name e) ltac:(done) ltac:(done) ltac:(done)) as Hp.
  destruct (comps_join dest (h_name e) Hp Hd) as [Hr Hc]. split; [done|]. by exists (comps (h_name e)).
Qed.

(** The directory of a cleaned path is the path without its last component. *)
Lemma last_split x c : slash ∉ c -> (x = [] \/ exists y, x = y ++ [slash]) -> List.last (split_on slash (x ++ c)) [] = c.
Proof.
  intros Hc [->|(y & ->)]; cbn [app]; [by rewrite split_on_plain|].
  rewrite <-app_assoc. cbn [app]. by rewrite split_on_app_gen, (split_on_plain _ c), List.last_last.
Qed.
Lemma parent_dir_cut x c : slash ∉ c -> (x = [] \/ exists y, x = y ++ [slash]) -> parent_dir (x ++ c) = Clean x.
Proof.
  intros Hc Hx. unfold parent_dir. rewrite last_split by done. by rewrite length_app, Nat.add_sub, take_app_length.
Qed.
Lemma clean_list_init r cs c : clean_list r (cs ++ [c]) -> clean_list r cs.
Proof.
  intros (n & rest & E & Hp & Hn). destruct (decide (rest = [])) as [->|Hne].
  - rewrite app_nil_r in E. destruct n as [|n]; [by destruct cs|]. rewrite replicate_S_end in E.
    apply app_inj_tail in E as [-> _]. exists n, []. rewrite app_nil_r.
    split_and!; [done|constructor|]. intros Hr. specialize (Hn Hr). done.
  - destruct (exists_last Hne) as (rest' & c' & ->). rewrite app_assoc in E. apply app_inj_tail in E as [-> _].
    apply Forall_app in Hp as [Hp _]. by exists n, rest'.
Qed.
Lemma Join_component ps c : ps <> [] -> Join (ps ++ [c]) [slash] = (Join ps [slash] ++ [slash]) ++ c.
Proof.
  induction ps as [|p ps IH]; [done|]. intros _. destruct ps as [|q ps]; [cbn; by rewrite <-app_assoc|].
  rewrite (Join_cons1 p (q :: ps)) by done. change ((p :: q :: ps) ++ [c]) with (p :: ((q :: ps) ++ [c])).
  rewrite Join_cons1, IH by done. by rewrite <-!app_assoc.
Qed.
Lemma parent_dir_render r cs c : clean_list r (cs ++ [c]) -> parent_dir (render r (cs ++ [c])) = render r cs.
Proof.
  intros H. assert (slash ∉ c) as Hc.
  { apply clean_list_slashless, Forall_app in H as [_ H]. by apply Forall_cons in H as [? _]. }
  apply clean_list_init in H as Hi. destruct (decide (cs = [])) as [->|Hne].
  - destruct r; cbn [render app Join].
    + change (slash :: c) with ([slash] ++ c). rewrite parent_dir_cut; [done|done|right; by exists []].
    + change c with ([] ++ c) at 1. rewrite parent_dir_cut; [done|done|by left].
  - assert (render r (cs ++ [c]) = (render r cs ++ [slash]) ++ c) as ->.
    { pose proof (Join_component cs c Hne) as HJ. unfold render. destruct r; [by rewrite HJ|].
      destruct cs as [|x cs]; [done|]. exact HJ. }
    rewrite parent_dir_cut by (done || right; by eexists).
    etrans; [apply (Clean_segments _ (render r cs))|unfold Clean; by rewrite render_rooted, comps_render].
    + unfold render. destruct r; [done|]. destruct cs as [|x cs]; [done|].
      pose proof (clean_list_nonempty _ _ x Hi (list_elem_of_here _ _)). destruct x as [|a x]; [done|].
      by destruct cs.
    + rewrite segments_app. cbn. by rewrite app_nil_r.
Qed.
(** The directory made for an entry: below the destination, or (for an entry
    that names the destination itself) the destination's own directory. *)
Definition own_dir (dest d : gostr) : Prop := below dest d \/ d = parent_dir (Clean dest).
Lemma entry_target_parent dest e target :
  dest <> [] -> entry_target (Clean dest) e = Ok target -> own_dir dest (parent_dir target).
Proof.
  intros Hd. unfold entry_target. case_match eqn:Eg; [done|]. apply orb_false_iff in Eg as [[Hdd Hpre]%orb_false_iff Hroot].
  case_match; [done|]. intros [= <-]. bool_facts.
  pose proof (relative_plain (h_name e) ltac:(done) ltac:(done) ltac:(done)) as Hp.
  destruct (comps_join dest (h_name e) Hp Hd) as [Hr Hc]. set (t := path_Join _ _) in *.
  assert (t = render (isRooted dest) (comps dest ++ comps (h_name e))) as Et.
  { rewrite <-Hr, <-Hc. change (t = Clean t). subst t. unfold path_Join. pose proof (Clean_nonempty dest).
    destruct (Clean dest); [done|]. by rewrite Clean_idem. }
  pose proof (comps_clean t) as Hcl. rewrite Hr, Hc in Hcl. rewrite Et.
  destruct (decide (comps (h_name e) = [])) as [E|Hne]; [right; by rewrite E, app_nil_r|left].
  destruct (exists_last Hne) as (rest & c & E). rewrite E in *. rewrite app_assoc in *.
  rewrite parent_dir_render by done. apply clean_list_init in Hcl.
  split; [by apply render_rooted|]. exists rest. rewrite comps_render by done. split; [done|].
  by apply Forall_app in Hp as [? _].
Qed.

(** The bytes the extracted files hold. *)
Definition stored (m : gmap gostr gostr) : Z := map_fold (fun _ d acc => Z.of_nat (length d) + acc) 0 m.
Lemma stored_insert k d m : stored (<[k := d]> m) <= Z.of_nat (length d) + stored m.
Proof.
  unfold stored. rewrite <-insert_delete_eq, map_fold_insert_L; [|intros; lia|apply lookup_delete_eq].
  destruct (m !! k) as [d'|] eqn:E; [|by rewrite delete_id].
  rewrite (map_fold_delete_L _ _ k d' m) by (done || intros; lia). lia.
Qed.

(** The invariant of the loop. *)
Definition bounded (limits : BackupRestoreLimits) (dest : gostr) (st : extract_state) : Prop :=
  (forall p d, x_files st !! p = Some d -> below dest p) /\
  (forall d, d ∈ x_dirs st -> own_dir dest d) /\
  Z.of_nat (size (x_files st)) <= x_count st /\ x_count st <= Z.max 0 (MaxFiles limits) /\
  stored (x_files st) <= x_expanded st /\ x_expanded st <= Z.max 0 (MaxExpandedSize limits).

Lemma bounded_init limits dest : bounded limits dest (mkState 0 0 ∅ ∅).
Proof.
  unfold bounded, stored. cbn [x_files x_count x_expanded]. rewrite map_fold_empty, map_size_empty.
  split_and!; [intros p d Hp; by rewrite lookup_empty in Hp|set_solver|lia..].
Qed.
Lemma check_counts_bounded ra limits len dest e st st' :
  bounded limits dest st -> check_counts ra limits len e st = Ok st' ->
  bounded limits dest st' /\ x_files st' = x_files st /\ 0 <= h_size e /\
  stored (x_files st) + h_size e <= x_expanded st' /\
  (h_kind e = TypeReg -> Z.of_nat (size (x_files st)) + 1 <= x_count st').
Proof.
  intros (Hb & Hds & Hn & Hc & Hs & Hx). unfold check_counts, bounded.
  destruct (_ || _) eqn:E1; [done|]. apply orb_false_iff in E1 as [E1 E1'].
  destruct (bool_decide (h_kind e = TypeReg) && _) eqn:E2; [done|].
  apply andb_false_iff in E2. rewrite bool_decide_eq_false in E2.
  intros Hok. assert (exists x, st' = mkState (if decide (h_kind e = TypeReg) then x_count st + 1 else x_count st) x
      (x_dirs st) (x_files st) /\ x = x_expanded st + h_size e /\ (0 < h_size e -> x <= MaxExpandedSize limits)) as (x & -> & -> & Hmax).
  { destruct (Z.ltb_spec 0 (h_size e)).
    - destruct (Z.ltb_spec (MaxExpandedSize limits - h_size e) (x_expanded st)); [done|].
      destruct (ra _ _ _); [done|]. injection Hok as <-. eexists. split_and!; [done|done|lia].
    - injection Hok as <-. eexists. split_and!; [done|lia|lia]. }
  cbn [x_count x_expanded x_files]. case_decide; split_and!; try done; try lia; destruct E2; try done; bool_facts; lia.
Qed.

Lemma extract_entry_bounded ra rf limits len dest e st st' :
  dest <> [] -> bounded limits dest st -> extract_entry ra rf limits len (Clean dest) e st = Ok st' -> bounded limits dest st'.
Proof.
  intros Hd Hb (st1 & H1 & (target & Ht & Hk)%rbind_Ok)%rbind_Ok.
  destruct (check_counts_bounded ra limits len dest e st st1 Hb H1) as (Hb1 & Hfs & Hsz & Hst & Hcnt).
  pose proof (entry_target_parent _ _ _ Hd Ht) as Hpar.
  apply entry_target_below in Ht; [|done]. destruct (h_kind e).
  - case_match; [done|]. injection Hk as <-. destruct Hb1 as (Hbel & Hds & Hrest). split_and!; [done| |apply Hrest..].
    cbn [x_dirs]. intros d [->%elem_of_singleton|Hin]%elem_of_union; [by left|by apply Hds].
  - destruct (rf target || _) eqn:E; [done|]. injection Hk as <-. apply orb_false_iff in E as [_ Hlen].
    destruct Hb1 as (Hbel & Hds & Hn & Hc & Hs & Hx). unfold bounded. cbn [x_files x_dirs x_count x_expanded].
    rewrite Hfs in *. pose proof (stored_insert target (take (Z.to_nat (h_size e)) (h_data e)) (x_files st)) as Hins.
    rewrite length_take in Hins. split_and!; [| |specialize (Hcnt eq_refl)|done|lia|done].
    + intros p d. rewrite lookup_insert. case_decide as Hp; [by intros _; subst|]. intros Hl. by eapply Hbel.
    + intros d [->%elem_of_singleton|Hin]%elem_of_union; [done|by apply Hds].
    + destruct (x_files st !! target) as [d|] eqn:El.
      * rewrite map_size_insert_Some by (by eexists). lia.
      * rewrite map_size_insert_None by done. lia.
  - by injection Hk as <-.
Qed.

(** C6. Whatever an archive contains, a successful restore writes files only
    below its destination (component by component, with no ".." left) and asks
    for directories only there, or for the destination's own directory when an
    entry names the destination itself; it writes at most the allowed number
    of files and at most the allowed number of bytes. *)
Theorem extract_confined ra rf limits archive gunzip dest st :
  dest <> [] -> extractBackupArchiveWithLimits ra rf limits archive gunzip dest = Ok st ->
  (forall p d, x_files st !! p = Some d -> below dest p) /\
  (forall d, d ∈ x_dirs st -> own_dir dest d) /\
  Z.of_nat (size (x_files st)) <= Z.max 0 (MaxFiles limits) /\
  stored (x_files st) <= Z.max 0 (MaxExpandedSize limits).
Proof.
  intros Hd. unfold extractBackupArchiveWithLimits. case_match; [done|]. destruct (gunzip archive) as [s|]; [|done].
  intros (st' & Hall & Hst)%rbind_Ok. destruct (t_error s); [done|]. injection Hst as ->.
  assert (forall es st0, bounded limits dest st0 -> forall st1,
    extract_all ra rf limits (Z.of_nat (length archive)) (Clean dest) es st0 = Ok st1 -> bounded limits dest st1) as Hind.
  { induction es as [|e es IH]; intros st0 H0 st1; cbn [extract_all]; [by intros [= <-]|].
    intros (st2 & H2 & H3)%rbind_Ok. eapply IH, H3. by eapply extract_entry_bounded. }
  apply Hind in Hall as (Hb & Hds & Hn & Hc & Hs & Hx); [|apply bounded_init].
  split_and!; [done|done|lia|lia].
Qed.
Lemma extract_confined_witness :
  exists st, extractBackupArchiveWithLimits (fun _ _ _ => false) (fun _ => false) defaultBackupRestoreLimits (str "x")
      (fun _ => Some (mkStream (demo_archive false) false)) (str "/tmp/r") = Ok st /\ Z.of_nat (size (x_files st)) <= 10000.
Proof.
  eexists. split; [vm_compute; reflexivity|].
  refine (proj1 (proj2 (proj2 (extract_confined (fun _ _ _ => false) (fun _ => false) defaultBackupRestoreLimits (str "x")
      (fun _ => Some (mkStream (demo_archive false) false)) (str "/tmp/r") _ _ _)))); [discriminate|vm_compute; reflexivity].
Defined.

(** ** Limits of the code *)

(** On a system installation the configuration and the data directory have the
    same last element, so a backup with data archives the files of both under
    one name, and a restore keeps only the later one. *)
Lemma config_and_data_collide :
  (h_data <$> filter (fun e => h_name e = str "ipgaze/server.yml") (demo_archive true)) = [str "cfg"; str "other"].
Proof. vm_compute. reflexivity. Qed.

(** Any later [.json] file of the archive is taken for the manifest. *)
Lemma manifest_shadowed : find_manifest (demo_archive false) = Some (str "{}").
Proof. vm_compute. reflexivity. Qed.
