(* ===== verification/ListenerHub.v ===== *)
(** * The listener hub: [netutil/listener_hub.go]

    One goroutine accepts connections from the bound socket and hands each to
    the server generation current at that moment; [Switch] starts a new
    generation, [Close] ends the hub.  The goroutines interleave: the state
    records where the accept loop stands, and the step relation has one step per
    atomic action of the loop, of the servers and of the callers.  The channel
    of a generation is unbuffered, so a connection passes in one step from the
    loop to a server waiting in [Accept].  The theorems: no connection is lost,
    delivered twice or both delivered and closed; the loop is never left waiting
    on a generation that nobody serves; and after [Close] the loop ends. *)
From stdpp Require Import base list gmap sets relations.
From Stdlib Require Import ZArith Lia.
From S2P Require Import Prelude.
Local Open Scope nat_scope.

Definition conn := nat.
Definition generation := nat.

(** Where [acceptLoop] stands: in [Accept], about to read the current
    generation, in the [select] on a generation, or returned. *)
Inductive loop_pc :=
| InAccept
| HoldsConn (c : conn)
| InSelect (c : conn) (g : generation)
| Returned.

Record hub := mkHub {
  h_current : option generation;     (* nil after Close *)
  h_next : generation;               (* generations made so far *)
  h_done : gset generation;          (* whose done channel is closed *)
  h_listening : bool;                (* the bound socket is open *)
  h_closed : bool;                   (* the hub's once has run *)
  h_pc : loop_pc;
  h_accepted : list conn;            (* in the order accepted *)
  h_delivered : list (conn * generation);
  h_dropped : list conn }.           (* closed by the loop *)

Definition set_pc (pc : loop_pc) (h : hub) : hub :=
  mkHub (h_current h) (h_next h) (h_done h) (h_listening h) (h_closed h) pc
        (h_accepted h) (h_delivered h) (h_dropped h).

(** [NewListenerHub] *)
Definition NewListenerHub : hub := mkHub (Some 0) 1 ∅ true false InAccept [] [] [].

(** [Switch]: the new generation becomes current and the previous one's channel
    is closed; after [Close] there is no previous one, and the code dereferences
    a nil pointer ([None]). *)
Definition Switch (h : hub) : option hub :=
  match h_current h with
  | None => None
  | Some prev =>
      Some (mkHub (Some (h_next h)) (S (h_next h)) ({[ prev ]} ∪ h_done h) (h_listening h) (h_closed h)
              (h_pc h) (h_accepted h) (h_delivered h) (h_dropped h))
  end.
(** [Close] of the hub; only the first call does anything. *)
Definition Close (h : hub) : hub :=
  if h_closed h then h
  else mkHub None (h_next h) (match h_current h with Some g => {[ g ]} ∪ h_done h | None => h_done h end)
         false true (h_pc h) (h_accepted h) (h_delivered h) (h_dropped h).
(** [Close] of a generation's listener, which a server calls when it shuts down. *)
Definition closeGeneration (g : generation) (h : hub) : hub :=
  mkHub (h_current h) (h_next h) ({[ g ]} ∪ h_done h) (h_listening h) (h_closed h)
    (h_pc h) (h_accepted h) (h_delivered h) (h_dropped h).

(** The steps of [acceptLoop]. *)
Definition loop_accepts (c : conn) (h : hub) : hub :=
  mkHub (h_current h) (h_next h) (h_done h) (h_listening h) (h_closed h) (HoldsConn c)
    (h_accepted h ++ [c]) (h_delivered h) (h_dropped h).
Definition loop_reads (c : conn) (h : hub) : hub :=
  match h_current h with
  | Some g => set_pc (InSelect c g) h
  | None =>
      mkHub (h_current h) (h_next h) (h_done h) (h_listening h) (h_closed h) InAccept
        (h_accepted h) (h_delivered h) (h_dropped h ++ [c])
  end.
Definition loop_delivers (c : conn) (g : generation) (h : hub) : hub :=
  mkHub (h_current h) (h_next h) (h_done h) (h_listening h) (h_closed h) InAccept
    (h_accepted h) (h_delivered h ++ [(c, g)]) (h_dropped h).

(** Steps the loop takes on its own: nobody else has to act for them. *)
Inductive loop_step : hub -> hub -> Prop :=
| step_accept_fails h :           (* the socket is closed, or Accept fails *)
    h_pc h = InAccept -> h_listening h = false -> loop_step h (set_pc Returned h)
| step_read h c :
    h_pc h = HoldsConn c -> loop_step h (loop_reads c h)
| step_retry h c g :              (* case <-generation.done: continue *)
    h_pc h = InSelect c g -> g ∈ h_done h -> loop_step h (set_pc (HoldsConn c) h).
(** All steps: a connection arrives, an accept fails, a server of the selected
    generation receives, or one of the methods is called. *)
Inductive hub_step : hub -> hub -> Prop :=
| step_loop h h' : loop_step h h' -> hub_step h h'
| step_arrives h c :
    h_pc h = InAccept -> h_listening h = true -> c ∉ h_accepted h -> hub_step h (loop_accepts c h)
| step_accept_error h : h_pc h = InAccept -> hub_step h (set_pc Returned h)
| step_deliver h c g :
    h_pc h = InSelect c g -> hub_step h (loop_delivers c g h)
| step_switch h h' : Switch h = Some h' -> hub_step h h'
| step_close h : hub_step h (Close h)
| step_close_generation h g : (g < h_next h)%nat -> hub_step h (closeGeneration g h).
Definition reachable (h : hub) : Prop := rtc hub_step NewListenerHub h.

(** ** Every connection is accounted for *)

Definition in_hand (h : hub) : list conn :=
  match h_pc h with HoldsConn c | InSelect c _ => [c] | _ => [] end.
Definition accounted (h : hub) : list conn := (fst <$> h_delivered h) ++ h_dropped h ++ in_hand h.

Record hub_inv (h : hub) : Prop := {
  inv_perm : h_accepted h ≡ₚ accounted h;
  inv_nodup : NoDup (h_accepted h);
  inv_current : forall g, h_current h = Some g -> g < h_next h;
  inv_select : forall c g, h_pc h = InSelect c g -> g < h_next h;
  inv_stale : forall g, g < h_next h -> h_current h <> Some g -> g ∈ h_done h;
  inv_closed : h_closed h = true -> h_current h = None /\ h_listening h = false }.

Lemma hub_inv_init : hub_inv NewListenerHub.
Proof. split; cbn; try done; [constructor|intros g [= <-]; lia|]. intros g Hg Hne. assert (g = 0) as -> by lia. done. Qed.

Lemma loop_step_inv h h' : hub_inv h -> loop_step h h' -> hub_inv h'.
Proof.
  intros [Hp Hn Hc Hs Hst Hcl] Hstep. destruct Hstep as [h Hpc Hl|h c Hpc|h c g Hpc Hd];
    unfold accounted, in_hand in *; rewrite Hpc in *.
  - split; cbn; try done.
  - unfold loop_reads, set_pc. destruct (h_current h) as [g|] eqn:Ec; split; cbn; try done; unfold accounted, in_hand; cbn.
    + by intros c' g' [= <- <-]; apply Hc.
    + by rewrite Hp, app_nil_r.
  - split; cbn; try done.
Qed.
Lemma hub_step_inv h h' : hub_inv h -> hub_step h h' -> hub_inv h'.
Proof.
  intros Hi Hstep. destruct Hstep as [h h' Hl|h c Hpc Hli Hfresh|h Hpc|h c g Hpc|h h' Hsw|h|h g Hg]; [by eapply loop_step_inv|..];
    destruct Hi as [Hp Hn Hc Hs Hst Hcl].
  - unfold accounted, in_hand in *. rewrite Hpc in *. split; cbn; try done; unfold accounted, in_hand; cbn.
    + rewrite Hp. by rewrite app_nil_r, <-app_assoc.
    + apply NoDup_app. split_and!; [done| |by apply NoDup_singleton].
      intros x Hx ->%list_elem_of_singleton. done.
  - unfold accounted, in_hand in *. rewrite Hpc in *. split; cbn; try done; unfold accounted, in_hand; by cbn.
  - unfold accounted, in_hand in *. rewrite Hpc in *. split; cbn; try done; unfold accounted, in_hand; cbn.
    rewrite Hp, fmap_app, app_nil_r. cbn. rewrite <-app_assoc. apply Permutation_app_head, Permutation_app_comm.
  - unfold Switch in Hsw. destruct (h_current h) as [prev|] eqn:Ec; [|done]. injection Hsw as <-. split; cbn; try done.
    + intros g [= <-]. lia.
    + intros c g Hpc. apply Hs in Hpc. lia.
    + intros g Hg Hne. destruct (decide (g = prev)) as [->|]; [set_solver|].
      apply elem_of_union_r, Hst; [|congruence]. destruct (decide (g = h_next h)) as [->|]; [done|lia].
    + intros Hcl'. apply Hcl in Hcl' as [Hx _]. congruence.
  - unfold Close. destruct (h_closed h) eqn:Ecl; [split; try done; intros _; by apply Hcl|]. split; cbn; try done.
    intros g Hg _. destruct (h_current h) as [g'|] eqn:Ec; [|by apply Hst].
    destruct (decide (g = g')) as [->|]; [set_solver|]. apply elem_of_union_r, Hst; congruence.
  - split; cbn; try done. intros g' Hg' Hne. by apply elem_of_union_r, Hst.
Qed.
Lemma reachable_inv h : reachable h -> hub_inv h.
Proof.
  intros Hr. assert (forall a b, rtc hub_step a b -> hub_inv a -> hub_inv b) as Hind.
  { induction 1; eauto using hub_step_inv. }
  by eapply Hind, hub_inv_init.
Qed.

(** C13. In every interleaving, the connections accepted are, each exactly once,
    those handed to a server, those closed by the loop because the hub was
    closed, and the one the loop holds: none is lost and none is handed over
    twice or both handed over and closed. *)
Theorem hub_accounts_connections h : reachable h ->
  h_accepted h ≡ₚ accounted h /\ NoDup (accounted h).
Proof. intros [Hp Hn _ _ _ _]%reachable_inv. split; [done|]. by rewrite <-Hp. Qed.
Definition demo_hub : hub := loop_delivers 7 0 (loop_reads 7 (loop_accepts 7 NewListenerHub)).
Lemma demo_hub_reachable : reachable demo_hub.
Proof.
  eapply rtc_l; [eapply (step_arrives NewListenerHub 7); [done|done|by apply not_elem_of_nil]|].
  eapply rtc_l; [eapply step_loop, (step_read _ 7); reflexivity|].
  eapply rtc_l; [eapply (step_deliver _ 7 0); reflexivity|]. apply rtc_refl.
Qed.
Lemma hub_accounts_connections_witness : h_accepted demo_hub ≡ₚ accounted demo_hub /\ accounted demo_hub = [7].
Proof. split; [apply (hub_accounts_connections demo_hub demo_hub_reachable)|reflexivity]. Defined.

(** A connection never waits for a generation that was replaced: the loop is in
    the select of the current generation, or can leave it. *)
Lemma select_never_stale h c g : reachable h -> h_pc h = InSelect c g -> h_current h = Some g \/ g ∈ h_done h.
Proof.
  intros [_ _ _ Hs Hst _]%reachable_inv Hpc. destruct (decide (h_current h = Some g)); [by left|right].
  apply Hst; [by eapply Hs|done].
Qed.

(** ** After Close the loop ends *)

Definition distance (pc : loop_pc) : nat :=
  match pc with Returned => 0 | InAccept => 1 | HoldsConn _ => 2 | InSelect _ _ => 3 end.
Lemma closed_loop_step h h' : hub_inv h -> h_closed h = true -> loop_step h h' ->
  h_closed h' = true /\ distance (h_pc h') < distance (h_pc h).
Proof.
  intros [_ _ _ _ _ Hcl] Hc Hstep. destruct (Hcl Hc) as [Hcur Hl].
  destruct Hstep as [h Hpc _|h c Hpc|h c g Hpc Hd]; rewrite Hpc; cbn; try (split; [done|lia]).
  unfold loop_reads. rewrite Hcur. cbn. split; [done|lia].
Qed.
Lemma closed_loop_progress h : hub_inv h -> h_closed h = true -> h_pc h <> Returned -> exists h', loop_step h h'.
Proof.
  intros [_ _ _ Hs Hst Hcl] Hc Hr. destruct (Hcl Hc) as [Hcur Hl]. destruct (h_pc h) as [|c|c g|] eqn:Hpc; [..|done].
  - eexists. by apply step_accept_fails.
  - eexists. by eapply step_read.
  - eexists. eapply step_retry; [done|]. apply Hst; [by eapply Hs|by rewrite Hcur].
Qed.

(** Once the hub is closed, the accept loop needs nobody else to finish: it
    takes at most three more steps of its own and is then returned, with no
    connection in its hands. *)
Theorem closed_hub_loop_ends h : reachable h -> h_closed h = true ->
  (forall n h', nsteps loop_step n h h' -> n <= 3) /\
  forall h', rtc loop_step h h' -> nf loop_step h' ->
    h_pc h' = Returned /\ h_accepted h' ≡ₚ (fst <$> h_delivered h') ++ h_dropped h'.
Proof.
  intros Hr Hc. apply reachable_inv in Hr as Hi. split.
  - intros n h' Hn. assert (n + distance (h_pc h') <= distance (h_pc h)) as Hd.
    { clear Hr. induction Hn as [|n h h1 h' Hs Hn IH]; [lia|].
      destruct (closed_loop_step h h1 Hi Hc Hs) as [Hc' Hd]. specialize (IH Hc' (loop_step_inv _ _ Hi Hs)). lia. }
    assert (distance (h_pc h) <= 3) by (by destruct (h_pc h); cbn; lia). lia.
  - intros h' Hrt Hnf. assert (hub_inv h' /\ h_closed h' = true) as [Hi' Hc'].
    { clear Hr Hnf. induction Hrt as [|a b d Hs Hrt IH]; [done|]. apply IH; [|by eapply loop_step_inv].
      by eapply closed_loop_step. }
    destruct (decide (distance (h_pc h') = 0)) as [Hz|Hz].
    + assert (h_pc h' = Returned) as Hpc by (by destruct (h_pc h')). split; [done|].
      destruct Hi' as [Hp _ _ _ _ _]. unfold accounted, in_hand in Hp. rewrite Hpc in Hp. by rewrite app_nil_r in Hp.
    + exfalso. apply Hnf. apply closed_loop_progress; [done..|]. intros Hpc. by rewrite Hpc in Hz.
Qed.
Lemma closed_hub_loop_ends_witness :
  h_closed (Close demo_hub) = true /\ forall n h', nsteps loop_step n (Close demo_hub) h' -> n <= 3.
Proof.
  split; [reflexivity|].
  apply (closed_hub_loop_ends (Close demo_hub)); [|reflexivity].
  eapply rtc_r; [apply demo_hub_reachable|apply step_close].
Defined.

(** ** Limits of the code *)

(** A server that shuts down closes the listener of its generation while the
    generation is still current: the loop then spins between the select and the
    reading of the current generation, holding the connection, until the hub is
    closed. *)
Lemma shutdown_spins : exists h, reachable h /\ h_closed h = false /\ in_hand h = [7] /\ tc loop_step h h.
Proof.
  set (h1 := closeGeneration 0 (loop_accepts 7 NewListenerHub)).
  assert (reachable h1) as Hr.
  { eapply rtc_l; [eapply (step_arrives NewListenerHub 7); [done|done|by apply not_elem_of_nil]|].
    eapply rtc_l; [apply (step_close_generation _ 0); cbn; lia|]. apply rtc_refl. }
  exists h1. split_and!; [done|done|done|].
  eapply tc_l; [apply (step_read h1 7); reflexivity|]. apply tc_once.
  apply (step_retry (loop_reads 7 h1) 7 0); [reflexivity|]. cbn. set_solver.
Qed.

(** Any error of the underlying [Accept] ends the loop for good: nothing
    restarts it, though the socket stays open. *)
Lemma accept_error_is_final h h' : h_pc h = Returned -> hub_step h h' -> h_pc h' = Returned /\ h_accepted h' = h_accepted h.
Proof.
  intros Hpc Hstep. destruct Hstep as [h h' Hl|h c Hp|h Hp|h c g Hp|h h' Hsw|h|h g]; try congruence.
  - destruct Hl; congruence.
  - unfold Switch in Hsw. destruct (h_current h); [|done]. by injection Hsw as <-.
  - unfold Close. by destruct (h_closed h).
  - done.
Qed.

(** [Switch] on a closed hub dereferences the nil generation. *)
Lemma switch_after_close_panics h : h_closed h = false -> Switch (Close h) = None.
Proof. intros Hc. unfold Close. by rewrite Hc. Qed.
