(* ===== verification/HotReload.v ===== *)
(** * Configuration reload: [config/hot_reload.go]

    The code walks [AppConfig] by reflection; here a configuration is a value of
    a schema, which lists the fields of every struct with their YAML names.  A
    schema has the kinds the configuration uses: scalars, pointers, structs
    (with inline and skipped fields), maps with string keys and slices.  Both
    values have the one type, so the reflective type comparison never fails.
    The theorems: the comparison reports no change exactly when there is none;
    and a reload never changes the active value of a setting that needs a restart. *)
From stdpp Require Import base list strings sorting.
From Stdlib Require Import ZArith Lia.
From S2P Require Import Prelude GoStrings GoTime.
Local Open Scope Z_scope.
Local Open Scope go_scope.

(** A struct field: [yamlFieldName] of its tag, and whether it is exported. *)
Record field := mkField { f_exported : bool; f_tag : gostr; f_goname : gostr }.
Inductive schema :=
| SScalar
| SPtr (t : schema)
| SStruct (fs : list (field * schema))
| SMap (t : schema)
| SSlice (t : schema).
(** Values; a nil pointer, map or slice is [None]. *)
Inductive value :=
| VScalar (x : gostr)
| VPtr (o : option value)
| VStruct (vs : list value)
| VMap (o : option (list (gostr * value)))
| VSlice (o : option (list value)).

Definition yamlFieldName `{UnicodeTables} (f : field) : gostr * bool * bool :=
  let parts := Split (f_tag f) (str ",") in
  let name := nth 0 parts [] in
  let inline := bool_decide (str "inline" ∈ tail parts) in
  if name =s str "-" then ([], false, true)
  else (if name =s [] then ToLower (f_goname f) else name, inline, false).

Definition joinConfigPath (parent child : gostr) : gostr :=
  if parent =s [] then child else parent ++ str "." ++ child.
Definition indexPath (path : gostr) (i : nat) : gostr := path ++ str "[" ++ Itoa (Z.of_nat i) ++ str "]".

(** Whether the walks visit a field, and the path it has below [path]. *)
Definition visited `{UnicodeTables} (f : field) : bool :=
  f_exported f && negb (yamlFieldName f).2.
Definition fieldPath `{UnicodeTables} (path : gostr) (f : field) : gostr :=
  let '(name, inline, _) := yamlFieldName f in
  if inline then path else joinConfigPath path name.

Fixpoint assoc (k : gostr) (kvs : list (gostr * value)) : option value :=
  match kvs with
  | [] => None
  | (k', v) :: rest => if decide (k' = k) then Some v else assoc k rest
  end.

(** The paths reported at a leaf. *)
Definition report (path : gostr) : list gostr := if path =s [] then [] else [path].

Definition union_keys (old new : list (gostr * value)) : list gostr :=
  merge_sort str_le (remove_dups ((fst <$> old) ++ (fst <$> new))).

Section reload.
  Context `{UnicodeTables}.

(** [compareConfigValue]; [None] is an invalid [reflect.Value], a map item or a
    slice element that one side does not have. *)
Fixpoint compareConfigValue (t : schema) (old new : option value) (path : gostr) : list gostr :=
  match old, new with
  | None, None => []
  | None, Some _ | Some _, None => report path
  | Some old, Some new =>
      match t, old, new with
      | SPtr t, VPtr o, VPtr n =>
          match o, n with
          | None, None => []
          | None, Some _ | Some _, None => report path
          | Some _, Some _ => compareConfigValue t o n path
          end
      | SStruct fs, VStruct os, VStruct ns =>
          (fix fields (fs : list (field * schema)) (os ns : list value) : list gostr :=
             match fs, os, ns with
             | (f, t) :: fs', o :: os', n :: ns' =>
                 (if visited f then compareConfigValue t (Some o) (Some n) (fieldPath path f) else [])
                 ++ fields fs' os' ns'
             | _, _, _ => []
             end) fs os ns
      | SMap t, VMap o, VMap n =>
          if negb (Bool.eqb (bool_decide (o = None)) (bool_decide (n = None)))
             && bool_decide (default [] o = []) && bool_decide (default [] n = [])
          then report path
          else union_keys (default [] o) (default [] n) ≫= (fun k =>
                 compareConfigValue t (assoc k (default [] o)) (assoc k (default [] n)) (joinConfigPath path k))
      | SSlice t, VSlice o, VSlice n =>
          if negb (Bool.eqb (bool_decide (o = None)) (bool_decide (n = None)))
             && bool_decide (default [] o = []) && bool_decide (default [] n = [])
          then report path
          else seq 0 (Nat.max (length (default [] o)) (length (default [] n))) ≫= (fun i =>
                 compareConfigValue t (default [] o !! i) (default [] n !! i) (indexPath path i))
      | SScalar, VScalar x, VScalar y => if x =s y then [] else report path
      | _, _, _ => []
      end
  end.
Definition compareConfigs (t : schema) (old new : value) : list gostr :=
  merge_sort str_le (compareConfigValue t (Some old) (Some new) []).

(** ** Which reload a setting needs *)

Definition restartRequiredPrefixes : list gostr :=
  str <$> ["server.port"; "server.address"; "server.daemonize"; "ssl."; "server.ssl."; "database.";
           "server.database."; "tor."; "server.tor."]%string.
Definition requiresRestart (setting : gostr) : bool :=
  existsb (fun prefix =>
    (setting =s TrimSuffix prefix (str ".")) || (HasSuffix prefix (str ".") && HasPrefix setting prefix))
    restartRequiredPrefixes.
Definition isRestartPathAncestor (path : gostr) : bool :=
  if path =s [] then true
  else existsb (fun prefix => HasPrefix (TrimSuffix prefix (str ".")) (path ++ str ".")) restartRequiredPrefixes.
Definition graceful_settings : list gostr :=
  str <$> ["server.limits.read_timeout"; "server.limits.write_timeout"; "server.limits.idle_timeout";
           "server.timeouts.read"; "server.timeouts.write"; "server.timeouts.idle"]%string.
Definition requiresGracefulReload (setting : gostr) : bool :=
  if (setting =s str "server.baseurl")
     || (HasPrefix setting (str "server.logging.") && (setting <>s str "server.logging.level"))
  then true
  else bool_decide (setting ∈ graceful_settings).

(** [categorizeReloadChanges]: hot, graceful and restart, in the order of the changes. *)
Definition categorizeReloadChanges (changes : list gostr) : list gostr * list gostr * list gostr :=
  fold_left (fun '(hot, graceful, restart) setting =>
    if requiresRestart setting then (hot, graceful, restart ++ [setting])
    else if requiresGracefulReload setting then (hot, graceful ++ [setting], restart)
    else (hot ++ [setting], graceful, restart)) changes ([], [], []).
Definition changesMatching (changes : list gostr) (match_ : gostr -> bool) : list gostr :=
  filter (fun c => match_ c = true) changes.
Definition categorizeChanges (changes : list gostr) : list gostr * list gostr :=
  let '(hot, _, restart) := categorizeReloadChanges changes in
  (hot ++ changesMatching changes requiresGracefulReload, restart).

(** ** Keeping active values *)

(** [preserveRestartValues]: the new value after the walk. *)
Fixpoint preserveRestartValues (t : schema) (old new : value) (path : gostr) : value :=
  if (path <>s []) && requiresRestart path then old
  else if (path <>s []) && negb (isRestartPathAncestor path) then new
  else match t, old, new with
       | SPtr t, VPtr o, VPtr n =>
           match o, n with
           | Some o', Some n' => VPtr (Some (preserveRestartValues t o' n' path))
           | _, _ => old
           end
       | SStruct fs, VStruct os, VStruct ns =>
           VStruct ((fix fields (fs : list (field * schema)) (os ns : list value) : list value :=
             match fs, os, ns with
             | (f, t) :: fs', o :: os', n :: ns' =>
                 (if visited f then preserveRestartValues t o n (fieldPath path f) else n) :: fields fs' os' ns'
             | _, _, _ => ns
             end) fs os ns)
       | _, _, _ => new
       end.
Definition preserveRestartRequiredSettings (t : schema) (old new : value) : value :=
  preserveRestartValues t old new [].

(** [copyConfigPath]: the value at a path, field by field; the first field of
    the name is taken, and inline fields are not searched. *)
Fixpoint copyConfigPath (t : schema) (old new : value) (parts : list gostr) : value :=
  match parts with
  | [] => new
  | part :: rest =>
      match t, old, new with
      | SPtr t, VPtr (Some o), VPtr (Some n) => VPtr (Some (copyConfigPath t o n parts))
      | SStruct fs, VStruct os, VStruct ns =>
          VStruct ((fix fields (fs : list (field * schema)) (os ns : list value) : list value :=
            match fs, os, ns with
            | (f, t) :: fs', o :: os', n :: ns' =>
                let '(name, inline, skip) := yamlFieldName f in
                if negb (f_exported f) || skip || inline || (name <>s part) then n :: fields fs' os' ns'
                else (match rest with [] => o | _ => copyConfigPath t o n rest end) :: ns'
            | _, _, _ => ns
            end) fs os ns)
      | _, _, _ => new
      end
  end.
Definition preserveConfigPaths (t : schema) (old new : value) (paths : list gostr) : value :=
  fold_left (fun new path => copyConfigPath t old new (Split path (str "."))) paths new.

(** ** Applying a changed file *)

(** The manager's state with the package-level configuration. *)
Record ConfigManager := mkCM {
  current : option value; pendingRestart : bool; restartSettings : list gostr; lastFileModTime : Time }.
(** The calls of the reload handler: the configuration and the settings. *)
Definition call := (value * list gostr)%type.

(** [applyConfigChanges] with the handler [h], which fails or not; the handler
    calls in order. *)
Definition applyConfigChanges (t : schema) (h : option (value -> list gostr -> bool)) (newCfg : value)
    (m : ConfigManager) : ConfigManager * list call :=
  match current m with
  | None => (m, [])
  | Some oldCfg =>
      let changes := compareConfigs t oldCfg newCfg in
      if decide (changes = []) then (m, [])
      else
        let '(hot, graceful, restart) := categorizeReloadChanges changes in
        let absent := bool_decide (graceful <> []) && bool_decide (h = None) in
        let newCfg := if absent then preserveConfigPaths t oldCfg newCfg graceful else newCfg in
        let restart := if absent then restart ++ graceful else restart in
        let graceful := if absent then [] else graceful in
        let '(cur, restart, calls) :=
          if bool_decide (hot <> []) || bool_decide (graceful <> []) then
            let newCfg := preserveRestartRequiredSettings t oldCfg newCfg in
            let applied := hot ++ graceful in
            match h with
            | Some handler =>
                if decide (graceful = []) then (newCfg, restart, [(newCfg, applied)])
                else if handler newCfg applied then (newCfg, restart, [(newCfg, applied)])
                else
                  let cfg' := preserveConfigPaths t oldCfg newCfg graceful in
                  (cfg', restart ++ graceful,
                   (newCfg, applied) :: (if decide (hot = []) then [] else [(cfg', hot)]))
            | None => (newCfg, restart, [])
            end
          else (oldCfg, restart, []) in
        let pending := bool_decide (restart <> []) in
        (mkCM (Some cur) (pending || pendingRestart m)
              (if pending then restartSettings m ++ restart else restartSettings m) (lastFileModTime m), calls)
  end.

(** [checkFileChanges]: [stat] is the file's modification time, [load] the file
    decoded over the defaults, nothing on an error. *)
Definition checkFileChanges (t : schema) (h : option (value -> list gostr -> bool)) (stat : option Time)
    (load : option value) (m : ConfigManager) : ConfigManager * list call :=
  match stat with
  | None => (m, [])
  | Some mtime =>
      if unix_ns mtime =? unix_ns (lastFileModTime m) then (m, [])
      else
        let m := mkCM (current m) (pendingRestart m) (restartSettings m) mtime in
        match load with None => (m, []) | Some cfg => applyConfigChanges t h cfg m end
  end.
Definition ClearPendingRestart (m : ConfigManager) : ConfigManager :=
  mkCM (current m) false [] (lastFileModTime m).
End reload.

(** ** Typing *)

Section schema_induction.
  Context (P : schema -> Prop).
  Context (Hscalar : P SScalar) (Hptr : forall t, P t -> P (SPtr t)) (Hmap : forall t, P t -> P (SMap t))
          (Hslice : forall t, P t -> P (SSlice t)).
  Context (Hstruct : forall fs, Forall (fun ft => P ft.2) fs -> P (SStruct fs)).
Fixpoint schema_nested_ind (t : schema) : P t :=
  match t with
  | SScalar => Hscalar
  | SPtr t => Hptr t (schema_nested_ind t)
  | SStruct fs => Hstruct fs ((fix go (fs : list (field * schema)) : Forall (fun ft => P ft.2) fs :=
                     match fs with
                     | [] => Forall_nil_2 _
                     | ft :: fs' => Forall_cons_2 _ _ _ (schema_nested_ind ft.2) (go fs')
                     end) fs)
  | SMap t => Hmap t (schema_nested_ind t)
  | SSlice t => Hslice t (schema_nested_ind t)
  end.
End schema_induction.

(** Keys in strictly ascending order: the map as a set of bindings. *)
Fixpoint keys_ascending (kvs : list (gostr * value)) : bool :=
  match kvs with
  | (k, _) :: (((k', _) :: _) as rest) => str_ltb k k' && keys_ascending rest
  | _ => true
  end.
Fixpoint typed (t : schema) (v : value) : bool :=
  match t, v with
  | SScalar, VScalar _ => true
  | SPtr t, VPtr o => match o with None => true | Some v => typed t v end
  | SStruct fs, VStruct vs =>
      (fix fields (fs : list (field * schema)) (vs : list value) : bool :=
         match fs, vs with
         | [], [] => true
         | (_, t) :: fs', v :: vs' => typed t v && fields fs' vs'
         | _, _ => false
         end) fs vs
  | SMap t, VMap o =>
      match o with None => true | Some kvs => keys_ascending kvs && forallb (fun kv => typed t kv.2) kvs end
  | SSlice t, VSlice o => match o with None => true | Some vs => forallb (typed t) vs end
  | _, _ => false
  end.

Section reloads.
  Context `{UnicodeTables}.

(** The ways a reload computes the active configuration from the old one. *)
Definition reloaded (t : schema) (old new cur : value) : Prop :=
  cur = old \/
  exists x ps qs, (x = new \/ x = preserveConfigPaths t old new ps) /\
    (cur = preserveRestartRequiredSettings t old x \/
     cur = preserveConfigPaths t old (preserveRestartRequiredSettings t old x) qs).
Lemma applyConfigChanges_reloaded t h new m old :
  current m = Some old ->
  exists cur, current (applyConfigChanges t h new m).1 = Some cur /\ reloaded t old new cur.
Proof.
  intros Hc. unfold applyConfigChanges, reloaded. rewrite Hc. case_decide; [by exists old; cbn; eauto|].
  destruct (categorizeReloadChanges _) as [[hot graceful] restart].
  destruct (bool_decide (graceful <> []) && bool_decide (h = None)).
  - destruct (bool_decide (hot <> []) || _); [|by exists old; cbn; eauto].
    destruct h as [handler|]; [rewrite decide_True by done|]; eexists; (split; [done|]); right;
      exists (preserveConfigPaths t old new graceful), graceful, []; eauto.
  - destruct (bool_decide (hot <> []) || _); [|by exists old; cbn; eauto].
    destruct h as [handler|]; [|by eexists; split; [done|]; right; exists new, [], []; eauto].
    case_decide; [by eexists; split; [done|]; right; exists new, [], []; eauto|].
    destruct (handler _ _); (eexists; split; [done|]; right); [exists new, [], []|exists new, [], graceful]; eauto.
Qed.
End reloads.

(** ** The comparison is exact *)

Section comparison.
  Context `{UnicodeTables}.

(** A schema every setting of which the comparison can name: all fields are
    visited, by a name of their own or as an inline struct. *)
Definition is_struct (t : schema) : bool := match t with SStruct _ => true | _ => false end.
Definition named (f : field) (t : schema) : bool :=
  let '(name, inline, _) := yamlFieldName f in if inline then is_struct t else name <>s [].
Fixpoint complete (t : schema) : bool :=
  match t with
  | SScalar => true
  | SPtr t | SMap t | SSlice t => complete t
  | SStruct fs =>
      (fix fields (fs : list (field * schema)) : bool :=
         match fs with
         | [] => true
         | (f, t) :: fs' => visited f && named f t && complete t && fields fs'
         end) fs
  end.

Lemma compare_refl t v path : compareConfigValue t v v path = [].
Proof.
  revert v path. induction t as [|t IH|t IH|t IH|fs IH] using schema_nested_ind; intros [v|] path; try done;
    destruct v as [x|o|vs|o|o]; try done; cbn [compareConfigValue].
  - by rewrite bool_decide_eq_true_2.
  - destruct o; [apply IH|done].
  - rewrite eqb_reflx. cbn [negb andb]. induction (union_keys _ _) as [|k ks IHk]; [done|].
    cbn [mbind list_bind]. by rewrite IH.
  - rewrite eqb_reflx. cbn [negb andb]. induction (seq _ _) as [|i l IHi]; [done|].
    cbn [mbind list_bind]. by rewrite IH.
  - revert vs. induction IH as [|[f t] fs Hf _ IHfs]; intros [|v vs]; try done. cbn [snd] in Hf.
    rewrite IHfs, app_nil_r. destruct (visited f); [apply Hf|done].
Qed.

Lemma join_nonempty path k : path <> [] -> joinConfigPath path k <> [].
Proof. intros Hp. unfold joinConfigPath. rewrite bool_decide_eq_false_2 by done. by destruct path. Qed.
Lemma report_nil path : path <> [] -> report path = [] -> False.
Proof. intros Hp. unfold report. by rewrite bool_decide_eq_false_2. Qed.
Lemma fieldPath_nonempty path f t : named f t = true -> path <> [] \/ is_struct t = false -> fieldPath path f <> [].
Proof.
  unfold named, fieldPath. destruct (yamlFieldName f) as [[name inline] skip]. intros Hn Hp. destruct inline.
  - destruct Hp as [?|Hp]; [done|congruence].
  - bool_facts. unfold joinConfigPath. case_bool_decide; [done|]. by destruct path.
Qed.

(** Maps with ascending keys are determined by their bindings. *)
Lemma keys_ascending_cons k v kvs :
  keys_ascending ((k, v) :: kvs) = true ->
  keys_ascending kvs = true /\ forall k' v', (k', v') ∈ kvs -> str_ltb k k' = true.
Proof.
  revert k v. induction kvs as [|[k1 v1] kvs IH]; intros k v Hs.
  { split; [done|]. by intros ? ? ?%elem_of_nil. }
  apply andb_true_iff in Hs as [Hlt Hs]. split; [done|]. destruct (IH k1 v1 Hs) as [_ Hall].
  intros k' v' [[= -> ->]|Hin]%elem_of_cons; [done|]. eapply str_ltb_trans; [done|]. by eapply Hall.
Qed.
Lemma assoc_Some k v kvs : assoc k kvs = Some v -> (k, v) ∈ kvs.
Proof. induction kvs as [|[k' v'] kvs IH]; cbn; [done|]. case_decide; [intros [= ->]; subst; left|right; auto]. Qed.
Lemma assoc_smaller k kvs : (forall k' v', (k', v') ∈ kvs -> str_ltb k k' = true) -> assoc k kvs = None.
Proof.
  intros Hs. destruct (assoc k kvs) as [v|] eqn:E; [|done]. apply assoc_Some, Hs in E. by rewrite str_ltb_irrefl in E.
Qed.
Lemma assoc_ext xs ys :
  keys_ascending xs = true -> keys_ascending ys = true -> (forall k, assoc k xs = assoc k ys) -> xs = ys.
Proof.
  revert ys. induction xs as [|[k v] xs IH]; intros [|[k' v'] ys] Hx Hy He; [done|..].
  - specialize (He k'). cbn in He. by rewrite decide_True in He.
  - specialize (He k). cbn in He. by rewrite decide_True in He.
  - apply keys_ascending_cons in Hx as [Hx Hxs], Hy as [Hy Hys].
    assert (k = k') as ->.
    { destruct (str_ltb_trichotomy k k') as [Hlt|[?|Hlt]]; [exfalso|done|exfalso].
      - specialize (He k). cbn in He. rewrite decide_True in He by done. rewrite decide_False in He.
        + rewrite assoc_smaller in He; [done|]. intros. eapply str_ltb_trans; [done|]. by eapply Hys.
        + intros ->. by rewrite str_ltb_irrefl in Hlt.
      - specialize (He k'). cbn in He. rewrite (decide_True (P := k' = k')) in He by done. rewrite decide_False in He.
        + rewrite assoc_smaller in He; [done|]. intros. eapply str_ltb_trans; [done|]. by eapply Hxs.
        + intros ->. by rewrite str_ltb_irrefl in Hlt. }
    assert (v = v') as -> by (specialize (He k'); cbn in He; rewrite !decide_True in He by done; congruence).
    f_equal. apply IH; [done..|]. intros k. destruct (decide (k' = k)) as [<-|Hne].
    + rewrite !assoc_smaller by done. done.
    + specialize (He k). cbn in He. by rewrite !decide_False in He by done.
Qed.
Lemma elem_of_union_keys k xs ys : k ∈ union_keys xs ys <-> k ∈ fst <$> xs \/ k ∈ fst <$> ys.
Proof. unfold union_keys. by rewrite merge_sort_Permutation, elem_of_remove_dups, elem_of_app. Qed.
Lemma assoc_None k kvs : k ∉ fst <$> kvs -> assoc k kvs = None.
Proof.
  intros Hk. destruct (assoc k kvs) as [v|] eqn:E; [|done]. exfalso. apply Hk, list_elem_of_fmap.
  exists (k, v). split; [done|by apply assoc_Some].
Qed.

Lemma bind_nil {A B} (f : A -> list B) l : l ≫= f = [] -> forall x, x ∈ l -> f x = [].
Proof.
  induction l as [|y l IH]; cbn; [by intros _ x ?%elem_of_nil|]. intros [Hy Hl]%app_eq_nil x [->|Hx]%elem_of_cons; auto.
Qed.

Lemma compare_missing_new t v path : compareConfigValue t (Some v) None path = report path.
Proof. by destruct t. Qed.
Lemma compare_missing_old t v path : compareConfigValue t None (Some v) path = report path.
Proof. by destruct t. Qed.

(** A comparison of present values that reports nothing found them equal. *)
Definition exact (t : schema) : Prop := forall o n path,
  typed t o = true -> typed t n = true -> path <> [] \/ is_struct t = true ->
  compareConfigValue t (Some o) (Some n) path = [] -> o = n.
Lemma exact_option t x y path : exact t -> path <> [] ->
  (forall v, x = Some v -> typed t v = true) -> (forall v, y = Some v -> typed t v = true) ->
  compareConfigValue t x y path = [] -> x = y.
Proof.
  intros He Hp Hx Hy. destruct x as [x|], y as [y|]; [| | |done].
  - intros Hc. f_equal. eapply He; eauto.
  - rewrite compare_missing_new. by intros ?%report_nil.
  - rewrite compare_missing_old. by intros ?%report_nil.
Qed.
Lemma nil_agree {A} (o n : option (list A)) :
  (negb (Bool.eqb (bool_decide (o = None)) (bool_decide (n = None)))
   && bool_decide (default [] o = []) && bool_decide (default [] n = [])) = false ->
  default [] o = default [] n -> o = n.
Proof. destruct o as [[]|], n as [[]|]; cbn; intros; simplify_eq; done. Qed.
Lemma typed_map_assoc t kvs k v : forallb (fun kv => typed t kv.2) kvs = true -> assoc k kvs = Some v -> typed t v = true.
Proof. rewrite forallb_forall. intros Hf Hv%assoc_Some%list_elem_of_In. by apply (Hf (k, v)). Qed.

Lemma compare_exact t : complete t = true -> exact t.
Proof.
  induction t as [|t IH|t IH|t IH|fs IH] using schema_nested_ind; intros Hc o n path Ho Hn Hp Hcmp.
  - destruct o, n; try done. cbn in Hcmp. case_bool_decide; [by subst|]. destruct Hp as [Hp|]; [|done].
    by apply report_nil in Hcmp.
  - destruct o as [|o| | |], n as [|n| | |]; try done. destruct Hp as [Hp|]; [|done].
    destruct o as [o|], n as [n|]; cbn in Hcmp; try done; try by apply report_nil in Hcmp.
    do 2 f_equal. eapply IH; eauto.
  - destruct o as [| | |o|], n as [| | |n|]; try done. destruct Hp as [Hp|]; [|done]. cbn [compareConfigValue] in Hcmp.
    destruct (_ && _) eqn:Enil in Hcmp; [by apply report_nil in Hcmp|].
    assert (keys_ascending (default [] o) = true /\ forallb (fun kv => typed t kv.2) (default [] o) = true) as [Ko Fo]
      by (destruct o; [by apply andb_true_iff in Ho|done]).
    assert (keys_ascending (default [] n) = true /\ forallb (fun kv => typed t kv.2) (default [] n) = true) as [Kn Fn]
      by (destruct n; [by apply andb_true_iff in Hn|done]).
    f_equal. apply (nil_agree _ _ Enil), assoc_ext; [done..|]. intros k.
    destruct (decide (k ∈ union_keys (default [] o) (default [] n))) as [Hk|Hk].
    + apply (exact_option t _ _ (joinConfigPath path k));
        [by apply IH|by apply join_nonempty|intros v; by apply typed_map_assoc..|].
      by apply (bind_nil _ _ Hcmp).
    + rewrite elem_of_union_keys in Hk. by rewrite !assoc_None by tauto.
  - destruct o as [| | | |o], n as [| | | |n]; try done. destruct Hp as [Hp|]; [|done]. cbn [compareConfigValue] in Hcmp.
    destruct (_ && _) eqn:Enil in Hcmp; [by apply report_nil in Hcmp|].
    assert (forall i v, default [] o !! i = Some v -> typed t v = true) as Fo.
    { intros i v Hv%list_elem_of_lookup_2%list_elem_of_In. destruct o; [|done]. cbn in Ho. rewrite forallb_forall in Ho. by apply Ho. }
    assert (forall i v, default [] n !! i = Some v -> typed t v = true) as Fn.
    { intros i v Hv%list_elem_of_lookup_2%list_elem_of_In. destruct n; [|done]. cbn in Hn. rewrite forallb_forall in Hn. by apply Hn. }
    f_equal. apply (nil_agree _ _ Enil), list_eq. intros i.
    destruct (decide (i < Nat.max (length (default [] o)) (length (default [] n)))%nat) as [Hi|Hi].
    + eapply (exact_option t _ _ (indexPath path i)); [by apply IH|by destruct path|by apply Fo|by apply Fn|].
      apply (bind_nil _ _ Hcmp), elem_of_seq. lia.
    + rewrite !lookup_ge_None_2 by lia. done.
  - destruct o as [| |os| |], n as [| |ns| |]; try done. f_equal. cbn [compareConfigValue typed complete] in *.
    revert os ns Ho Hn Hcmp Hc. induction IH as [|[f t] fs Hf _ IHfs]; intros [|o os] [|n ns] Ho Hn Hcmp Hc; try done.
    apply andb_true_iff in Ho as [Ho Hos], Hn as [Hn Hns]. apply andb_true_iff in Hc as [[[Hv Hnm]%andb_true_iff Hct]%andb_true_iff Hcs].
    apply app_eq_nil in Hcmp as [Hcmp Hrest]. cbn [snd] in Hf. rewrite Hv in Hcmp.
    f_equal; [|by apply IHfs]. eapply (Hf Hct); [done..| |done].
    destruct (is_struct t) eqn:Es; [by right|left]. by eapply fieldPath_nonempty; [|right].
Qed.

(** For configurations of a struct type in which every field has a name,
    the list of changed settings is empty exactly when the configurations are
    equal: no edit of the file goes unnoticed, and an unchanged file is no change. *)
Theorem compareConfigs_exact t old new :
  complete t = true -> is_struct t = true -> typed t old = true -> typed t new = true ->
  compareConfigs t old new = [] <-> old = new.
Proof.
  intros Hc Hs Ho Hn. unfold compareConfigs. split.
  - intros Hm. apply (compare_exact t Hc old new []); [done..|by right|].
    pose proof (merge_sort_Permutation str_le (compareConfigValue t (Some old) (Some new) [])) as Hp.
    rewrite Hm in Hp. by apply Permutation_nil in Hp.
  - intros ->. by rewrite compare_refl.
Qed.
End comparison.

(** ** Restart-required settings keep their active values *)

(** A setting at a path or below it. *)
Definition extends (path p : gostr) : Prop :=
  p = path \/ exists c rest, p = path ++ c :: rest /\ (c = "."%char \/ c = "["%char).
Lemma extends_trans a b c : extends a b -> extends b c -> extends a c.
Proof.
  intros [->|(x & r & -> & Hx)] [->|(y & q & -> & Hy)]; [by left|right; eauto|right; eauto|right].
  exists x, (r ++ y :: q). by rewrite <-app_assoc.
Qed.

Section restart.
  Context `{UnicodeTables}.

Lemma extends_join path k : path <> [] -> extends path (joinConfigPath path k).
Proof.
  intros Hp. unfold joinConfigPath. rewrite bool_decide_eq_false_2 by done. right.
  exists "."%char, k. by split; [|left].
Qed.
Lemma extends_fieldPath path f : path <> [] -> extends path (fieldPath path f).
Proof.
  intros Hp. unfold fieldPath. destruct (yamlFieldName f) as [[name inline] skip].
  destruct inline; [by left|by apply extends_join].
Qed.
Lemma extends_index path i : extends path (indexPath path i).
Proof. right. exists "["%char, (Itoa (Z.of_nat i) ++ str "]"). by split; [|right]. Qed.
Lemma extends_nonempty path p : path <> [] -> extends path p -> p <> [].
Proof. intros Hp [->|(c & r & -> & _)]; [done|by destruct path]. Qed.
Lemma report_extends path p : p ∈ report path -> extends path p.
Proof. unfold report. case_bool_decide; [by intros ?%elem_of_nil|]. intros ->%list_elem_of_singleton. by left. Qed.

(** The comparison below a path reports settings at or below it. *)
Lemma compare_extends t o n path p : path <> [] -> p ∈ compareConfigValue t o n path -> extends path p.
Proof.
  revert o n path. induction t as [|t IH|t IH|t IH|fs IH] using schema_nested_ind;
    intros [o|] [n|] path Hp; try (by intros ?%elem_of_nil); try (by apply report_extends);
    destruct o as [x|o|os|o|o], n as [y|n|ns|n|n]; try (by intros ?%elem_of_nil); cbn [compareConfigValue].
  - case_bool_decide; [by intros ?%elem_of_nil|by apply report_extends].
  - destruct o, n; try (by intros ?%elem_of_nil); try (by apply report_extends). by apply IH.
  - destruct (_ && _); [by apply report_extends|]. intros (k & Hk & _)%list_elem_of_bind.
    pose proof (extends_join path k Hp) as He. eapply extends_trans; [done|]. by eapply IH; [eapply extends_nonempty|].
  - destruct (_ && _); [by apply report_extends|]. intros (i & Hi & _)%list_elem_of_bind.
    pose proof (extends_index path i) as He. eapply extends_trans; [done|]. by eapply IH; [eapply extends_nonempty|].
  - revert os ns. induction IH as [|[f t] fs Hf _ IHfs]; intros [|o os] [|n ns]; try (by intros ?%elem_of_nil).
    cbn [snd] in Hf. intros [Hin|Hin]%elem_of_app; [|by eapply IHfs].
    destruct (visited f); [|by apply elem_of_nil in Hin].
    pose proof (extends_fieldPath path f Hp) as He. eapply extends_trans; [done|]. by eapply Hf; [eapply extends_nonempty|].
Qed.

Lemma restart_prefixes prefix : prefix ∈ restartRequiredPrefixes ->
  "["%char ∉ prefix /\
  (prefix = TrimSuffix prefix (str ".") \/ prefix = TrimSuffix prefix (str ".") ++ str ".") /\
  (HasSuffix prefix (str ".") = true -> prefix = TrimSuffix prefix (str ".") ++ str ".").
Proof.
  assert (Forall (fun prefix => bool_decide ("["%char ∉ prefix /\
    (prefix = TrimSuffix prefix (str ".") \/ prefix = TrimSuffix prefix (str ".") ++ str ".") /\
    (HasSuffix prefix (str ".") = true -> prefix = TrimSuffix prefix (str ".") ++ str ".")) = true) restartRequiredPrefixes) as Hall.
  { repeat constructor. }
  rewrite Forall_forall in Hall. intros Hp%Hall. by apply bool_decide_eq_true in Hp.
Qed.

(** Below a path that neither needs a restart nor leads to one that does,
    nothing needs a restart. *)
Lemma restart_down path p :
  path <> [] -> requiresRestart path = false -> isRestartPathAncestor path = false -> extends path p ->
  requiresRestart p = false.
Proof.
  intros Hp Hr Ha [->|(c & rest & -> & Hc)]; [done|]. unfold requiresRestart, isRestartPathAncestor in *.
  rewrite bool_decide_eq_false_2 in Ha by done. rewrite any_false in Hr, Ha |- *. intros prefix Hin.
  specialize (Hr prefix Hin). specialize (Ha prefix Hin). destruct (restart_prefixes prefix Hin) as (Hbr & Heq & Hdot).
  generalize dependent (TrimSuffix prefix (str ".")). intros root Hr Ha Heq Hdot.
  assert ("["%char ∉ root) as Hbroot.
  { intros Hb. apply Hbr. destruct Heq as [-> | ->]; [done|]. apply elem_of_app. by left. }
  apply orb_false_iff in Hr as [Hne Hpre]. apply orb_false_iff. bool_facts.
  assert (forall more, root <> path ++ c :: more) as Hroot.
  { intros more E. destruct Hc as [-> | ->].
    - assert (HasPrefix root (path ++ str ".") = true); [|congruence]. apply HasPrefix_true. exists more. by rewrite E, <-app_assoc.
    - apply Hbroot. rewrite E. apply elem_of_app. right. left. }
  split; [apply bool_decide_eq_false; by apply not_eq_sym|].
  destruct (HasSuffix prefix (str ".")) eqn:Es; [|done]. cbn [andb] in *. specialize (Hdot eq_refl).
  destruct (HasPrefix (path ++ c :: rest) prefix) eqn:E; [exfalso|done].
  apply HasPrefix_true in E as [k E]. rewrite Hdot in E, Hpre.
  apply app_eq_inv in E as [(m & Hm & _)|(m & Hm & Hcm)].
  - assert (HasPrefix path (root ++ str ".") = true); [|congruence]. apply HasPrefix_true. by exists m.
  - destruct m as [|d m].
    { rewrite app_nil_r in Hm. rewrite <-Hm in Hpre. rewrite Hm in Hpre. assert (HasPrefix path path = true); [|congruence].
      apply HasPrefix_true. done. }
    injection Hcm as <- _. induction m as [|x m _] using rev_ind.
    + apply app_inj_tail in Hm as [Hm _]. congruence.
    + change (c :: m ++ [x]) with ((c :: m) ++ [x]) in Hm. rewrite app_assoc in Hm. apply app_inj_tail in Hm as [Hm _].
      by apply (Hroot m).
Qed.

(** A schema whose restart-required settings are reached through structs and
    pointers, as those of [AppConfig] are. *)
Definition decided_path (path : gostr) : bool :=
  (path <>s []) && (requiresRestart path || negb (isRestartPathAncestor path)).
Fixpoint restart_reachable (t : schema) (path : gostr) : bool :=
  decided_path path ||
  match t with
  | SPtr t => restart_reachable t path
  | SStruct fs =>
      (fix fields (fs : list (field * schema)) : bool :=
         match fs with
         | [] => true
         | (f, t) :: fs' => (negb (visited f) || restart_reachable t (fieldPath path f)) && fields fs'
         end) fs
  | _ => false
  end.

Lemma preserve_keeps t o n path p :
  restart_reachable t path = true ->
  p ∈ compareConfigValue t (Some o) (Some (preserveRestartValues t o n path)) path -> requiresRestart p = false.
Proof.
  revert o n path. induction t as [|t IH|t IH|t IH|fs IH] using schema_nested_ind; intros o n path Hok Hp;
    cbn [preserveRestartValues restart_reachable] in *.
  all: destruct ((path <>s []) && requiresRestart path) eqn:E1;
         [rewrite compare_refl in Hp; by apply elem_of_nil in Hp|].
  all: destruct ((path <>s []) && negb (isRestartPathAncestor path)) eqn:E2;
         [apply andb_true_iff in E2 as [Hne%negb_true_iff%bool_decide_eq_false Ha%negb_true_iff];
          rewrite bool_decide_eq_false_2 in E1 by done; cbn [negb andb] in E1;
          eapply (restart_down path); [done|done|done|by eapply compare_extends]|].
  all: assert (decided_path path = false) as Hd by (unfold decided_path; by rewrite andb_orb_distrib_r, E1, E2).
  all: rewrite Hd in Hok; cbn [orb] in Hok; try done.
  - destruct o as [|o| | |], n as [|n| | |]; try (by apply elem_of_nil in Hp).
    destruct o as [o|], n as [n|]; cbn [compareConfigValue] in Hp; try (rewrite compare_refl in Hp); try (by apply elem_of_nil in Hp).
    by eapply IH.
  - destruct o as [| |os| |], n as [| |ns| |]; try (by apply elem_of_nil in Hp). cbn [compareConfigValue] in Hp.
    clear E1 E2 Hd. revert os ns Hok Hp. induction IH as [|[f t] fs Hf _ IHfs]; intros [|o os] [|n ns] Hok Hp;
      try (by apply elem_of_nil in Hp).
    apply andb_true_iff in Hok as [Hv Hok]. cbn [snd] in Hf. apply elem_of_app in Hp as [Hp|Hp]; [|by eapply IHfs].
    destruct (visited f); [|by apply elem_of_nil in Hp]. by eapply Hf, Hp.
Qed.

(** Putting old values back only removes differences. *)
Lemma copy_subset t o n parts path p :
  p ∈ compareConfigValue t (Some o) (Some (copyConfigPath t o n parts)) path -> p ∈ compareConfigValue t (Some o) (Some n) path.
Proof.
  revert o n parts path. induction t as [|t IH|t IH|t IH|fs IH] using schema_nested_ind; intros o n [|part rest] path;
    cbn [copyConfigPath]; try done.
  - destruct o as [|[o|]| | |], n as [|[n|]| | |]; try done. cbn [compareConfigValue]. apply IH.
  - destruct o as [| |os| |], n as [| |ns| |]; try done. cbn [compareConfigValue]. revert os ns.
    induction IH as [|[f t] fs Hf _ IHfs]; intros [|o os] [|n ns]; try done. cbn [snd] in Hf.
    destruct (yamlFieldName f) as [[name inline] skip]. destruct (_ || _).
    + rewrite !elem_of_app. intros [?|?]; [by left|right]. by apply IHfs.
    + rewrite !elem_of_app. intros [Hp|?]; [left|by right]. destruct (visited f); [|done].
      destruct rest; [rewrite compare_refl in Hp; by apply elem_of_nil in Hp|]. by eapply Hf.
Qed.
Lemma preserve_paths_subset t o n paths path p :
  p ∈ compareConfigValue t (Some o) (Some (preserveConfigPaths t o n paths)) path -> p ∈ compareConfigValue t (Some o) (Some n) path.
Proof.
  unfold preserveConfigPaths. revert n. induction paths as [|q paths IH]; intros n; [done|]. cbn [fold_left].
  intros Hp%IH. by eapply copy_subset.
Qed.

(** C7. Whatever a changed file contains and whether or not the reload handler
    exists or fails, no setting that needs a restart differs between the active
    configuration before a reload and after it. *)
Theorem reload_keeps_restart_settings t h new m old :
  restart_reachable t [] = true -> current m = Some old ->
  exists cur, current (applyConfigChanges t h new m).1 = Some cur /\
    forall p, p ∈ compareConfigs t old cur -> requiresRestart p = false.
Proof.
  intros Hok Hc. destruct (applyConfigChanges_reloaded t h new m old Hc) as (cur & Hcur & Hr).
  exists cur. split; [done|]. intros p. unfold compareConfigs. rewrite merge_sort_Permutation.
  destruct Hr as [Heq|Hr]; [subst cur; rewrite compare_refl; by intros ?%elem_of_nil|].
  destruct Hr as (x & ps & qs & _ & [-> | ->]).
  - by apply preserve_keeps.
  - intros Hp%preserve_paths_subset. by eapply preserve_keeps.
Qed.
End restart.

(** ** Examples *)

Definition fld (name : string) : field := mkField true (str name) [].
Definition log_schema : schema := SStruct [(fld "filename", SScalar); (fld "rotate", SScalar)].
(** The shape of the parts of [AppConfig] the examples use: a port, the log
    level, the access log, and the audit log with its inline file settings. *)
Definition demo_schema : schema :=
  SStruct [(fld "server", SStruct
    [(fld "port", SScalar); (fld "title", SScalar); (fld "presets", SMap (SSlice SScalar));
     (fld "logging", SStruct
        [(fld "level", SScalar); (fld "access", log_schema);
         (fld "audit", SStruct [(fld ",inline", log_schema); (fld "compress", SScalar)])])])].
Definition demo_cfg (port title access audit : string) : value :=
  VStruct [VStruct
    [VScalar (str port); VScalar (str title); VMap (Some [(str "a", VSlice (Some [VScalar (str "x")]))]);
     VStruct [VScalar (str "warn"); VStruct [VScalar (str access); VScalar (str "daily")];
              VStruct [VStruct [VScalar (str audit); VScalar (str "daily")]; VScalar (str "false")]]]].
Definition demo_cm (v : value) : ConfigManager := mkCM (Some v) false [] (mkTime 0 0).

Lemma compareConfigs_exact_witness :
  compareConfigs (H := ascii_tables) demo_schema (demo_cfg "80" "a" "b" "c") (demo_cfg "81" "a" "b" "c") <> [].
Proof.
  rewrite (compareConfigs_exact (H := ascii_tables) demo_schema (demo_cfg "80" "a" "b" "c") (demo_cfg "81" "a" "b" "c"));
    [discriminate|vm_compute; reflexivity..].
Defined.
(** A new title takes effect, the new port does not. *)
Lemma reload_keeps_restart_settings_witness :
  exists cur, current (applyConfigChanges (H := ascii_tables) demo_schema None (demo_cfg "81" "t" "b" "c")
                        (demo_cm (demo_cfg "80" "a" "b" "c"))).1 = Some cur /\
    forall p, p ∈ compareConfigs (H := ascii_tables) demo_schema (demo_cfg "80" "a" "b" "c") cur -> requiresRestart p = false.
Proof.
  apply (reload_keeps_restart_settings (H := ascii_tables) demo_schema None (demo_cfg "81" "t" "b" "c")
    (demo_cm (demo_cfg "80" "a" "b" "c"))); vm_compute; reflexivity.
Defined.
Example title_reloads :
  current (applyConfigChanges (H := ascii_tables) demo_schema None (demo_cfg "81" "t" "b" "c")
             (demo_cm (demo_cfg "80" "a" "b" "c"))).1 = Some (demo_cfg "80" "t" "b" "c").
Proof. vm_compute. reflexivity. Qed.

(** When the graceful reload fails, the settings it covers are put back and
    reported as needing a restart, but a setting of an inline struct is not put
    back: the new audit file name stays active. *)
Lemma inline_settings_not_put_back :
  let '(m, _) := applyConfigChanges (H := ascii_tables) demo_schema (Some (fun _ _ => false))
                   (demo_cfg "80" "a" "b2" "c2") (demo_cm (demo_cfg "80" "a" "b" "c")) in
  restartSettings m = [str "server.logging.access.filename"; str "server.logging.audit.filename"] /\
  current m = Some (demo_cfg "80" "a" "b" "c2").
Proof. vm_compute. split; reflexivity. Qed.
