(* ===== verification/SecurityHeaders.v ===== *)
(** * Response writers and security headers: [server/middleware.go] and
    [server/middleware_headers.go]

    A handler's use of its [http.ResponseWriter] is a program of header, status
    and body operations, which may end in a panic; a middleware runs the program
    against its own writer.  The response of the server fixes status and headers
    at the first status or body operation, as [net/http] does.  Statuses are final
    ones: an informational 1xx status, which leaves the headers open, is not among
    them, and the body is not cut at a length the handler declares.  The theorems:
    every request ends in a response even when its handler panics; no handler
    that leaves a security header alone can lose it; the access log records the
    status and size that were sent; rejected operators cannot tell why. *)
From stdpp Require Import base list gmap strings sorting.
From Stdlib Require Import ZArith Lia.
From S2P Require Import Prelude GoStrings GoTime GoNet Http Negotiate LogFormat.
Local Open Scope Z_scope.
Local Open Scope go_scope.

(** ** Response writers *)

Inductive wop :=
| HSet (name value : gostr)      (* w.Header().Set *)
| HAdd (name value : gostr)      (* w.Header().Add *)
| HDel (name : gostr)            (* w.Header().Del *)
| Status (code : Z)              (* w.WriteHeader *)
| Bytes (b : gostr).             (* w.Write *)
(** What a handler does, and whether it then panics with a value. *)
Record program := mkProg { p_ops : list wop; p_panic : option gostr }.

(** The connection's writer: the live headers, the status and headers sent, the body. *)
Record response := mkResp { live : header; sent : option (Z * header); body : gostr }.
Definition fresh : response := mkResp ∅ None [].

Definition h_set (name value : gostr) (h : header) : header := <[CanonicalHeaderKey name := [value]]> h.
Definition h_add (name value : gostr) (h : header) : header :=
  <[CanonicalHeaderKey name := default [] (h !! CanonicalHeaderKey name) ++ [value]]> h.
Definition h_del (name : gostr) (h : header) : header := delete (CanonicalHeaderKey name) h.

Definition perform (op : wop) (w : response) : response :=
  match op with
  | HSet n v => mkResp (h_set n v (live w)) (sent w) (body w)
  | HAdd n v => mkResp (h_add n v (live w)) (sent w) (body w)
  | HDel n => mkResp (h_del n (live w)) (sent w) (body w)
  | Status c => match sent w with None => mkResp (live w) (Some (c, live w)) (body w) | _ => w end
  | Bytes b =>
      mkResp (live w) (match sent w with None => Some (200, live w) | s => s end) (body w ++ b)
  end.
Definition perform_all (ops : list wop) (w : response) : response := fold_left (fun w op => perform op w) ops w.
(** When the handler returns, a response not started yet is sent with status
    200; after a panic nobody recovers, the connection is cut off. *)
Definition finish (p : option gostr) (w : response) : option response :=
  match p with
  | None => Some (match sent w with None => mkResp (live w) (Some (200, live w)) (body w) | _ => w end)
  | Some _ => match sent w with None => None | _ => Some w end
  end.

(** ** Recovering from panics *)

(** [recoverResponseWriter] notes the first status or body operation. *)
Definition writes (op : wop) : bool := match op with Status _ | Bytes _ => true | _ => false end.
Definition wroteHeader (ops : list wop) : bool := existsb writes ops.

Definition json_500 : gostr :=
  str "{" ++ quoted_field (str "ok") ++ str ":false," ++ quoted_field (str "error") ++ str ":"
  ++ quoted_field (str "SERVER_ERROR") ++ str "," ++ quoted_field (str "message") ++ str ":"
  ++ quoted_field (str "Internal Server Error") ++ str "}" ++ ["010"%char].
Definition html_500 : gostr :=
  str "<!DOCTYPE html><html><head><title>500 Internal Server Error</title></head><body><h1>500</h1><p>Internal Server Error</p><a href="
  ++ quoted_field (str "/") ++ str ">Home</a></body></html>".

Section middleware.
  Context `{UnicodeTables}.

(** [recoverAndRespond] after the handler's operations. *)
Definition recoverAndRespond (r : request) (p : program) : list wop :=
  match p_panic p with
  | None => []
  | Some _ =>
      if wroteHeader (p_ops p) then []
      else if negb (detectClientType r =s str "html") then
        [HSet (str "Content-Type") (str "application/json"); Status 500; Bytes json_500]
      else [HSet (str "Content-Type") (str "text/html; charset=utf-8"); Status 500; Bytes html_500]
  end.
(** The panic is recovered: the program it makes of the handler's ends normally. *)
Definition RecoverMiddleware (r : request) (p : program) : program :=
  mkProg (p_ops p ++ recoverAndRespond r p) None.

(** ** Header values *)

Record CSPDirective := mkDirective { csp_Name : gostr; csp_Value : gostr; csp_Extra : gostr; csp_Override : gostr }.
Definition resolved (d : CSPDirective) : gostr :=
  let value := if csp_Override d =s [] then csp_Value d else csp_Override d in
  let value :=
    if csp_Extra d =s [] then value
    else if value =s [] then csp_Extra d else value ++ str " " ++ csp_Extra d in
  if value =s [] then csp_Name d else csp_Name d ++ str " " ++ value.

Record CSPHeaderConfig := mkCSP { csp_Enabled : bool; csp_Mode : gostr; csp_Directives : list CSPDirective }.
Definition cspHeaderValue (c : CSPHeaderConfig) : gostr := Join (resolved <$> csp_Directives c) (str "; ").
Definition cspHeaderName (c : CSPHeaderConfig) (debug : bool) : gostr :=
  let mode := ToLower (TrimSpace (csp_Mode c)) in
  if mode =s str "enforce" then str "Content-Security-Policy"
  else if bool_decide (mode ∈ [str "report-only"; str "report_only"; str "reportonly"])
  then str "Content-Security-Policy-Report-Only"
  else if debug then str "Content-Security-Policy-Report-Only" else str "Content-Security-Policy".

Definition permissionsPolicyValue (features : list (gostr * gostr)) : gostr :=
  Join ((fun f => f.1 ++ str "=" ++ f.2) <$> filter (fun f => f.2 <> []) features) (str ", ").

Record HSTSHeaderConfig := mkHSTS {
  hsts_Enabled : bool; hsts_MaxAgeSeconds : Z; hsts_IncludeSubdomains : bool; hsts_Preload : bool }.
Definition hstsHeaderValue (h : HSTSHeaderConfig) : gostr :=
  str "max-age=" ++ Itoa (hsts_MaxAgeSeconds h)
  ++ (if hsts_IncludeSubdomains h then str "; includeSubDomains" else [])
  ++ (if hsts_Preload h then str "; preload" else []).

(** [nel_fraction] is the sample rate as ["%g"] prints it, when it is at least
    0 and below 1. *)
Record NELHeaderConfig := mkNEL {
  nel_Enabled : bool; nel_MaxAgeSeconds : Z; nel_IncludeSubdomains : bool; nel_fraction : option gostr }.
Definition nelHeaderValue (n : NELHeaderConfig) : gostr :=
  str "{" ++ quoted_field (str "report_to") ++ str ":" ++ quoted_field (str "default") ++ str ","
  ++ quoted_field (str "max_age") ++ str ":" ++ Itoa (nel_MaxAgeSeconds n) ++ str ","
  ++ quoted_field (str "include_subdomains") ++ str ":" ++ str (if nel_IncludeSubdomains n then "true" else "false")
  ++ match nel_fraction n with
     | Some g => str "," ++ quoted_field (str "failure_fraction") ++ str ":" ++ g
     | None => []
     end
  ++ str "}".

Record MiscHeaderConfig := {
  ContentTypeOptions : gostr; FrameOptions : gostr; XSSProtection : gostr; ReferrerPolicy : gostr;
  COOP : gostr; COEP : gostr; CORP : gostr; OriginAgentCluster : bool; CrossDomainPolicies : gostr;
  DNSPrefetchControl : gostr }.
Record SecurityHeaderConfig := mkHeaders {
  sh_HSTS : HSTSHeaderConfig; sh_CSP : CSPHeaderConfig; sh_PermissionsPolicy : list (gostr * gostr);
  sh_Headers : MiscHeaderConfig; sh_NEL : NELHeaderConfig; sh_ReportsPath : gostr; sh_ReportToMaxAge : Z }.

(** ** Overlaying the operator's configuration *)

Record HSTSConfig := { cf_hsts_Enabled : bool; cf_hsts_MaxAge : Z; cf_hsts_Sub : bool; cf_hsts_Preload : bool }.
Definition applyHSTSConfig (t : SecurityHeaderConfig) (c : HSTSConfig) : SecurityHeaderConfig :=
  mkHeaders (mkHSTS (cf_hsts_Enabled c)
               (if 0 <? cf_hsts_MaxAge c then cf_hsts_MaxAge c else hsts_MaxAgeSeconds (sh_HSTS t))
               (cf_hsts_Sub c) (cf_hsts_Preload c))
    (sh_CSP t) (sh_PermissionsPolicy t) (sh_Headers t) (sh_NEL t) (sh_ReportsPath t) (sh_ReportToMaxAge t).

(** [web.csp]: the adjustments are the seven pairs of extra and override. *)
Record CSPConfig := {
  cf_csp_Enabled : bool; cf_csp_Mode : gostr; cf_csp_Reports : bool;
  cf_csp_Extra : gostr -> gostr; cf_csp_Override : gostr -> gostr }.
Definition adjustable : list gostr :=
  str <$> ["script-src"; "style-src"; "img-src"; "font-src"; "connect-src"; "frame-src"; "form-action"]%string.
Definition report_directives : list gostr := [str "report-to"; str "report-uri"].
Definition adjust (c : CSPConfig) (d : CSPDirective) : CSPDirective :=
  if decide (csp_Name d ∈ adjustable)
  then mkDirective (csp_Name d) (csp_Value d) (TrimSpace (cf_csp_Extra c (csp_Name d))) (TrimSpace (cf_csp_Override c (csp_Name d)))
  else d.
Definition applyCSPConfig (t : SecurityHeaderConfig) (c : CSPConfig) : SecurityHeaderConfig :=
  mkHeaders (sh_HSTS t)
    (mkCSP (cf_csp_Enabled c) (cf_csp_Mode c)
       (adjust c <$> filter (fun d => negb (negb (cf_csp_Reports c) && bool_decide (csp_Name d ∈ report_directives)) = true)
                       (csp_Directives (sh_CSP t))))
    (sh_PermissionsPolicy t) (sh_Headers t) (sh_NEL t) (sh_ReportsPath t) (sh_ReportToMaxAge t).

(** The operator's features in the order of their names; a map is a list of its
    bindings. *)
Definition applyPermissionsPolicyConfig (t : SecurityHeaderConfig) (features : list (gostr * gostr)) : SecurityHeaderConfig :=
  if decide (features = []) then t
  else mkHeaders (sh_HSTS t) (sh_CSP t) (merge_sort key_le features) (sh_Headers t) (sh_NEL t)
         (sh_ReportsPath t) (sh_ReportToMaxAge t).
Definition applyMiscHeaderConfig (t : SecurityHeaderConfig) (h : MiscHeaderConfig) : SecurityHeaderConfig :=
  mkHeaders (sh_HSTS t) (sh_CSP t) (sh_PermissionsPolicy t) h (sh_NEL t) (sh_ReportsPath t) (sh_ReportToMaxAge t).
(** [cf_nel_rate]: for a sample rate above 0 and at most 1, how the header
    prints it (nothing for 1); [None] for a rate outside, which is ignored. *)
Record NELConfig := { cf_nel_Enabled : bool; cf_nel_MaxAge : Z; cf_nel_Sub : bool; cf_nel_rate : option (option gostr) }.
Definition applyNELConfig (t : SecurityHeaderConfig) (c : NELConfig) : SecurityHeaderConfig :=
  mkHeaders (sh_HSTS t) (sh_CSP t) (sh_PermissionsPolicy t) (sh_Headers t)
    (mkNEL (cf_nel_Enabled c) (if 0 <? cf_nel_MaxAge c then cf_nel_MaxAge c else nel_MaxAgeSeconds (sh_NEL t))
       (cf_nel_Sub c) (match cf_nel_rate c with Some g => g | None => nel_fraction (sh_NEL t) end))
    (sh_ReportsPath t) (sh_ReportToMaxAge t).
Record WebConfig := {
  cf_HSTS : HSTSConfig; cf_CSP : CSPConfig; cf_Permissions : list (gostr * gostr);
  cf_Headers : MiscHeaderConfig; cf_NEL : NELConfig }.
Definition SecurityHeaderConfigFromApp (defaults : SecurityHeaderConfig) (cfg : option WebConfig) : SecurityHeaderConfig :=
  match cfg with
  | None => defaults
  | Some c =>
      applyNELConfig (applyMiscHeaderConfig (applyPermissionsPolicyConfig
        (applyCSPConfig (applyHSTSConfig defaults (cf_HSTS c)) (cf_CSP c)) (cf_Permissions c)) (cf_Headers c)) (cf_NEL c)
  end.

(** ** The middleware *)

Definition setHeaderIfSet (name value : gostr) : list wop := if value =s [] then [] else [HSet name value].

(** The headers set before the handler runs, in order. *)
Definition security_ops (cfg : SecurityHeaderConfig) (sslEnabled debug : bool) (host : gostr) : list wop :=
  let cspValue := cspHeaderValue (sh_CSP cfg) in
  let reportsEndpoint := quoted_field (str "https://" ++ host ++ sh_ReportsPath cfg ++ str "/default") in
  setHeaderIfSet (str "X-Content-Type-Options") (ContentTypeOptions (sh_Headers cfg))
  ++ setHeaderIfSet (str "X-Frame-Options") (FrameOptions (sh_Headers cfg))
  ++ setHeaderIfSet (str "X-XSS-Protection") (XSSProtection (sh_Headers cfg))
  ++ setHeaderIfSet (str "Referrer-Policy") (ReferrerPolicy (sh_Headers cfg))
  ++ (if csp_Enabled (sh_CSP cfg) && (cspValue <>s []) then [HSet (cspHeaderName (sh_CSP cfg) debug) cspValue] else [])
  ++ setHeaderIfSet (str "Permissions-Policy") (permissionsPolicyValue (sh_PermissionsPolicy cfg))
  ++ setHeaderIfSet (str "X-Permitted-Cross-Domain-Policies") (CrossDomainPolicies (sh_Headers cfg))
  ++ setHeaderIfSet (str "X-DNS-Prefetch-Control") (DNSPrefetchControl (sh_Headers cfg))
  ++ (if OriginAgentCluster (sh_Headers cfg) then [HSet (str "Origin-Agent-Cluster") (str "?1")] else [])
  ++ setHeaderIfSet (str "Cross-Origin-Opener-Policy") (COOP (sh_Headers cfg))
  ++ setHeaderIfSet (str "Cross-Origin-Embedder-Policy") (COEP (sh_Headers cfg))
  ++ setHeaderIfSet (str "Cross-Origin-Resource-Policy") (CORP (sh_Headers cfg))
  ++ [HSet (str "Reporting-Endpoints") (str "default=" ++ reportsEndpoint);
      HSet (str "Report-To") (str "{" ++ quoted_field (str "group") ++ str ":" ++ quoted_field (str "default") ++ str ","
        ++ quoted_field (str "max_age") ++ str ":" ++ Itoa (sh_ReportToMaxAge cfg) ++ str ","
        ++ quoted_field (str "endpoints") ++ str ":[{" ++ quoted_field (str "url") ++ str ":" ++ reportsEndpoint ++ str "}]}")]
  ++ (if nel_Enabled (sh_NEL cfg) then [HSet (str "NEL") (nelHeaderValue (sh_NEL cfg))] else [])
  ++ (if sslEnabled && hsts_Enabled (sh_HSTS cfg) then [HSet (str "Strict-Transport-Security") (hstsHeaderValue (sh_HSTS cfg))] else []).

(** [timingResponseWriter]: headers, the last status and the body, buffered. *)
Record timing := mkTiming { tw_status : Z; tw_headers : header; tw_buf : gostr }.
Definition newTimingResponseWriter : timing := mkTiming 200 ∅ [].
Definition buffer (op : wop) (t : timing) : timing :=
  match op with
  | HSet n v => mkTiming (tw_status t) (h_set n v (tw_headers t)) (tw_buf t)
  | HAdd n v => mkTiming (tw_status t) (h_add n v (tw_headers t)) (tw_buf t)
  | HDel n => mkTiming (tw_status t) (h_del n (tw_headers t)) (tw_buf t)
  | Status c => mkTiming c (tw_headers t) (tw_buf t)
  | Bytes b => mkTiming (tw_status t) (tw_headers t) (tw_buf t ++ b)
  end.
Definition buffer_all (ops : list wop) : timing := fold_left (fun t op => buffer op t) ops newTimingResponseWriter.
(** [flush]: every buffered header is added to the real ones. *)
Definition flush (t : timing) : list wop :=
  (map_to_list (tw_headers t) ≫= (fun kv => HAdd kv.1 <$> kv.2)) ++ [Status (tw_status t); Bytes (tw_buf t)].

(** [dur] is the formatted Server-Timing value. *)
Definition SecurityHeadersMiddleware (cfg : SecurityHeaderConfig) (sslEnabled debug : bool) (dur host : gostr) (p : program)
    : program :=
  let before := security_ops cfg sslEnabled debug host in
  if debug then
    match p_panic p with
    | Some v => mkProg before (Some v)
    | None => mkProg (before ++ flush (buffer_all (p_ops p ++ [HSet (str "Server-Timing") dur]))) None
    end
  else mkProg (before ++ p_ops p) (p_panic p).

Fixpoint ChainMiddleware (ms : list (program -> program)) (h : program) : program :=
  match ms with
  | [] => h
  | m :: rest => m (ChainMiddleware rest h)
  end.

(** ** Access log *)

Definition healthCheckPath (path : gostr) : bool :=
  bool_decide (path ∈ [str "/api/v1/server/healthz"; str "/server/healthz"; str "/healthz"]).
Definition suppressAccessLog (r : request) (status : Z) (debug : bool) : bool :=
  if debug then false
  else if (r_Method r <>s str "GET") && (r_Method r <>s str "HEAD") then false
  else if (status <? 200) || (299 <? status) then false
  else healthCheckPath (r_URL_Path r).
(** [responseWriter]: the status it last passed on and the bytes written. *)
Definition logged_status (ops : list wop) : Z :=
  fold_left (fun s op => match op with Status c => c | _ => s end) ops 200.
Definition logged_bytes (ops : list wop) : Z :=
  fold_left (fun n op => match op with Bytes b => n + Z.of_nat (length b) | _ => n end) ops 0.

(** ** Onion-Location *)

Definition isOnionLocationCandidate (r : request) : bool :=
  if (r_Method r <>s str "GET") && (r_Method r <>s str "HEAD") then false
  else
    let host := ToLower (r_Host r) in
    let host := match IndexByte host ":" with Some i => take i host | None => host end in
    if HasSuffix host (str ".onion") then false
    else if HasPrefix (r_URL_Path r) (str "/api/") then false
    else
      let dest := get r "Sec-Fetch-Dest" in
      if bool_decide (dest ∈ [str "document"; str "iframe"; str "frame"]) then true
      else if dest =s [] then Contains (get r "Accept") (str "text/html") else false.
(** [onionLocationWriter.WriteHeader] against the live headers. *)
Definition is_html (h : header) : bool := HasPrefix (ToLower (Header_Get h (str "Content-Type"))) (str "text/html").
Fixpoint onion_writer (wrote : bool) (ops : list wop) (w : response) : response :=
  match ops with
  | [] => w
  | Status c :: rest =>
      let w' := if negb wrote && ((c <? 200) || (300 <=? c) || negb (is_html (live w)))
                then perform (HDel (str "Onion-Location")) w else w in
      onion_writer true rest (perform (Status c) w')
  | op :: rest => onion_writer wrote rest (perform op w)
  end.
Definition OnionLocationMiddleware (address : gostr) (requestURI : gostr) (r : request) (ops : list wop) (w : response) : response :=
  let address := TrimSpace address in
  if (address =s []) || negb (isOnionLocationCandidate r) then perform_all ops w
  else onion_writer false ops (perform (HSet (str "Onion-Location") (str "http://" ++ address ++ requestURI)) w).

(** ** Operator authentication *)

Definition failedAuthFloor : Z := 100 * 1000000.
(** [padFailedAuth]: the time a failure takes in all, from its start. *)
Definition padFailedAuth (elapsed : Z) : Z := if 0 <? failedAuthFloor - elapsed then elapsed + (failedAuthFloor - elapsed) else elapsed.

Definition writeUnauthorized (message : gostr) (r : request) : list wop :=
  if apiNotFoundWantsText r then
    [HSet (str "Content-Type") (str "text/plain; charset=utf-8"); HSet (str "X-Content-Type-Options") (str "nosniff");
     Status 401; Bytes (message ++ ["010"%char])]
  else
    [HSet (str "Content-Type") jsonMediaType; HSet (str "X-Content-Type-Options") (str "nosniff"); Status 401;
     Bytes (default [] (Marshal (JStruct [(str "ok", JBoolean false); (str "error", JStr (str "UNAUTHORIZED"));
                                          (str "message", JStr message)])) ++ ["010"%char])].

(** [ValidateOperatorToken]: the configured hash, if any, against SHA-256 of the token. *)
Definition ValidateOperatorToken (sha256 : gostr -> gostr) (hash : option gostr) (rawToken : gostr) : bool :=
  match hash with None => false | Some h => sha256 rawToken =s h end.
(** The token and the reason recorded when it fails. *)
Definition bearer (auth : gostr) : gostr * gostr :=
  let rawToken := TrimPrefix auth (str "Bearer ") in
  if rawToken =s auth then ([], str "missing_token") else (rawToken, str "invalid_token").
(** [RequireOperatorToken]: the operations, the reason logged for a rejection,
    and the time it took; [message] is the translated error, [elapsed] the time
    of the check. *)
Definition RequireOperatorToken (sha256 : gostr -> gostr) (hash : option gostr) (message : gostr) (elapsed : Z)
    (next : request -> list wop) (r : request) : list wop * option gostr * Z :=
  let '(token, reason) := bearer (get r "Authorization") in
  if negb (ValidateOperatorToken sha256 hash token)
  then (writeUnauthorized message r, Some reason, padFailedAuth elapsed)
  else (next r, None, elapsed).
End middleware.

(** ** Every request ends in a response *)

Lemma perform_all_app a b w : perform_all (a ++ b) w = perform_all b (perform_all a w).
Proof. unfold perform_all. apply fold_left_app. Qed.
Lemma perform_all_quiet ops w :
  wroteHeader ops = false -> sent (perform_all ops w) = sent w /\ body (perform_all ops w) = body w.
Proof.
  unfold wroteHeader. revert w. induction ops as [|op ops IH]; intros w; [done|]. cbn [existsb].
  intros [Hop Hops]%orb_false_iff. destruct (IH (perform op w) Hops) as [Hs Hb].
  change (perform_all (op :: ops) w) with (perform_all ops (perform op w)). rewrite Hs, Hb. by destruct op.
Qed.
Lemma perform_sent op w : sent w <> None -> sent (perform op w) = sent w.
Proof. destruct w as [l [s|] b]; by destruct op. Qed.
Lemma perform_all_wrote ops w : wroteHeader ops = true \/ sent w <> None -> sent (perform_all ops w) <> None.
Proof.
  unfold wroteHeader. revert w. induction ops as [|op ops IH]; intros w Hw; [by destruct Hw|].
  change (perform_all (op :: ops) w) with (perform_all ops (perform op w)). apply IH. cbn [existsb] in Hw.
  destruct Hw as [[Hop|Hops]%orb_true_iff|Hs]; [right|by left|right].
  - destruct w as [l [s|] b]; by destruct op.
  - by rewrite perform_sent.
Qed.

Section responses.
  Context `{UnicodeTables}.

(** The fallback body for the client at hand. *)
Definition body_500 (r : request) : gostr := if negb (detectClientType r =s str "html") then json_500 else html_500.

(** C36. Under the recovery middleware every request ends in a response: a
    handler that panics before it wrote anything is answered with status 500 and
    the complete fallback document, one that panics later keeps exactly what it
    wrote, and one that does not panic is not touched. *)
Theorem RecoverMiddleware_responds (r : request) (p : program) :
  let q := RecoverMiddleware r p in
  exists w, finish (p_panic q) (perform_all (p_ops q) fresh) = Some w /\ sent w <> None /\
    match p_panic p with
    | None => finish None (perform_all (p_ops p) fresh) = Some w
    | Some _ =>
        if wroteHeader (p_ops p) then w = perform_all (p_ops p) fresh
        else exists h, sent w = Some (500, h) /\ body w = body_500 r
    end.
Proof.
  cbn zeta. unfold RecoverMiddleware, recoverAndRespond, body_500. cbn [p_ops p_panic].
  rewrite perform_all_app. set (w0 := perform_all (p_ops p) fresh). destruct (p_panic p) as [v|].
  - destruct (wroteHeader (p_ops p)) eqn:Ew.
    + pose proof (perform_all_wrote (p_ops p) fresh (or_introl Ew)) as Hs. fold w0 in Hs. cbn.
      destruct (sent w0) as [s|] eqn:Es; [|done]. exists w0. by rewrite Es.
    + destruct (perform_all_quiet (p_ops p) fresh Ew) as [Hs Hb]. fold w0 in Hs, Hb. cbn in Hs, Hb.
      destruct (negb _); cbn; rewrite Hs; eexists; (split; [done|]); cbn; rewrite Hb; (split; [done|]); by eexists.
  - cbn. destruct (sent w0) as [s|] eqn:Es; eexists; (split; [done|]); split; cbn; congruence.
Qed.

(** ** Security headers survive the handler *)

Definition op_key (op : wop) : option gostr :=
  match op with HSet n _ | HAdd n _ | HDel n => Some (CanonicalHeaderKey n) | _ => None end.
Definition touches (k : gostr) (op : wop) : bool := bool_decide (op_key op = Some k).

(** The header [k] has the one value [v], in the live headers and in what was sent. *)
Definition carries (k v : gostr) (w : response) : Prop :=
  live w !! k = Some [v] /\ forall c h, sent w = Some (c, h) -> h !! k = Some [v].
Lemma perform_carries k v op w : touches k op = false -> carries k v w -> carries k v (perform op w).
Proof.
  unfold touches, carries. rewrite bool_decide_eq_false. intros Ht [Hl Hs].
  destruct op; cbn in *; unfold h_set, h_add, h_del; rewrite ?lookup_insert_ne, ?lookup_delete_ne by congruence; try done.
  - destruct (sent w) as [[c h]|] eqn:E; [by split; [|rewrite E]|]. split; [done|]. by intros ? ? [= <- <-].
  - split; [done|]. destruct (sent w) as [[c h]|]; [done|]. by intros ? ? [= <- <-].
Qed.
Lemma perform_all_carries k v ops w :
  Forall (fun op => touches k op = false) ops -> carries k v w -> carries k v (perform_all ops w).
Proof.
  intros Hf. revert w. induction Hf as [|op ops Hop _ IH]; intros w Hc; [done|].
  change (perform_all (op :: ops) w) with (perform_all ops (perform op w)). by apply IH, perform_carries.
Qed.
Lemma finish_carries k v w w' : carries k v w -> finish None w = Some w' -> exists c h, sent w' = Some (c, h) /\ h !! k = Some [v].
Proof.
  intros [Hl Hs]. cbn. destruct (sent w) as [[c h]|] eqn:E; intros [= <-]; cbn.
  - rewrite E. eexists _, _. split; [done|]. by eapply Hs.
  - by eexists _, _.
Qed.
(** Setting several headers of different names leaves each with its value. *)
Lemma perform_sets_carries ops n v w :
  Forall (fun op => exists n v, op = HSet n v) ops -> NoDup (op_key <$> ops) -> HSet n v ∈ ops -> sent w = None ->
  carries (CanonicalHeaderKey n) v (perform_all ops w).
Proof.
  intros Hf Hnd Hin Hw. revert w Hw. induction Hf as [|op ops [n' [v' ->]] Hf IH]; intros w Hw; [by apply elem_of_nil in Hin|].
  change (perform_all (HSet n' v' :: ops) w) with (perform_all ops (perform (HSet n' v') w)).
  cbn [fmap list_fmap] in Hnd. apply NoDup_cons in Hnd as [Hk Hnd]. apply elem_of_cons in Hin as [[= -> ->]|Hin].
  - apply perform_all_carries.
    + apply Forall_forall. intros op Hop. apply bool_decide_eq_false. intros E. apply Hk, list_elem_of_fmap. exists op. done.
    + split; cbn; [apply lookup_insert_eq|]. by rewrite Hw.
  - by apply IH.
Qed.

(** The names of the security headers, in the order they are set. *)
Definition security_names (csp : gostr) : list gostr :=
  (str <$> ["X-Content-Type-Options"; "X-Frame-Options"; "X-XSS-Protection"; "Referrer-Policy"]%string) ++ [csp]
  ++ (str <$> ["Permissions-Policy"; "X-Permitted-Cross-Domain-Policies"; "X-DNS-Prefetch-Control"; "Origin-Agent-Cluster";
               "Cross-Origin-Opener-Policy"; "Cross-Origin-Embedder-Policy"; "Cross-Origin-Resource-Policy";
               "Reporting-Endpoints"; "Report-To"; "NEL"; "Strict-Transport-Security"]%string).
Definition name_of (op : wop) : gostr := match op with HSet n _ | HAdd n _ | HDel n => n | _ => [] end.
Lemma setHeaderIfSet_names n v : name_of <$> setHeaderIfSet n v `sublist_of` [n].
Proof. unfold setHeaderIfSet. case_match; cbn; [apply sublist_nil_l|done]. Qed.
Lemma if_names (b : bool) n v : name_of <$> (if b then [HSet n v] else []) `sublist_of` [n].
Proof. destruct b; cbn; [done|apply sublist_nil_l]. Qed.
Lemma security_ops_names cfg ssl debug host :
  name_of <$> security_ops cfg ssl debug host `sublist_of` security_names (cspHeaderName (sh_CSP cfg) debug).
Proof.
  unfold security_ops, security_names. rewrite !fmap_app. cbn [fmap list_fmap].
  change ([?a; ?b; ?c; ?d] ++ ?l) with ([a] ++ [b] ++ [c] ++ [d] ++ l).
  repeat (apply sublist_app; [apply setHeaderIfSet_names || apply if_names|]).
  change (?a :: ?b :: ?c :: ?d :: ?e :: ?f :: ?g :: ?l) with ([a] ++ [b] ++ [c] ++ [d] ++ [e] ++ [f] ++ [g] ++ l).
  repeat (apply sublist_app; [apply setHeaderIfSet_names || apply if_names|]).
  change (?a :: ?b :: ?l) with ([a; b] ++ l). apply sublist_app; [done|].
  change ([?a; ?b]) with ([a] ++ [b]). apply sublist_app; apply if_names.
Qed.
Lemma security_ops_sets cfg ssl debug host : Forall (fun op => exists n v, op = HSet n v) (security_ops cfg ssl debug host).
Proof.
  unfold security_ops, setHeaderIfSet. rewrite !Forall_app. split_and!; repeat case_match; repeat constructor; by eexists _, _.
Qed.
Lemma cspHeaderName_cases c debug :
  cspHeaderName c debug = str "Content-Security-Policy" \/ cspHeaderName c debug = str "Content-Security-Policy-Report-Only".
Proof. unfold cspHeaderName. repeat case_match; auto. Qed.
Lemma security_keys_nodup cfg ssl debug host : NoDup (op_key <$> security_ops cfg ssl debug host).
Proof.
  assert (op_key <$> security_ops cfg ssl debug host =
          (fun n => Some (CanonicalHeaderKey n)) <$> (name_of <$> security_ops cfg ssl debug host)) as ->.
  { rewrite <-list_fmap_compose. apply list_fmap_ext. intros i op Hop%list_elem_of_lookup_2.
    pose proof (security_ops_sets cfg ssl debug host) as Hs. rewrite Forall_forall in Hs.
    by destruct (Hs op Hop) as (n & v & ->). }
  eapply sublist_NoDup; [|apply fmap_sublist, security_ops_names].
  destruct (cspHeaderName_cases (sh_CSP cfg) debug) as [-> | ->]; decided.
Qed.

(** The buffering writer of debug mode: a header the handler leaves alone is
    not added to. *)
Lemma canon_token up s : forallb token_byte s = true -> forallb token_byte (canon up s) = true.
Proof.
  revert up. induction s as [|c s IH]; intros up; [done|]. cbn [forallb canon]. intros [Hc Hs]%andb_true_iff.
  rewrite IH by done. rewrite andb_true_r. destruct up; revert Hc; clear; by destruct c as [[] [] [] [] [] [] [] []].
Qed.
Lemma canon_idem up s : canon up (canon up s) = canon up s.
Proof.
  revert up. induction s as [|c s IH]; intros up; [done|]. cbn [canon].
  assert ((if up then upper_ascii (if up then upper_ascii c else lower_ascii c) else lower_ascii (if up then upper_ascii c else lower_ascii c))
    = (if up then upper_ascii c else lower_ascii c)) as -> by (destruct up; by destruct c as [[] [] [] [] [] [] [] []]).
  assert (bool_decide ((if up then upper_ascii c else lower_ascii c) = "-"%char) = bool_decide (c = "-"%char)) as ->
    by (destruct up; by destruct c as [[] [] [] [] [] [] [] []]).
  by rewrite IH.
Qed.
Lemma CanonicalHeaderKey_idem s : CanonicalHeaderKey (CanonicalHeaderKey s) = CanonicalHeaderKey s.
Proof.
  unfold CanonicalHeaderKey. destruct (forallb token_byte s) eqn:E; [|by rewrite E].
  by rewrite canon_token, canon_idem.
Qed.
Definition canonical (h : header) : Prop := forall k vs, h !! k = Some vs -> CanonicalHeaderKey k = k.
Lemma buffer_facts k ops t :
  Forall (fun op => touches k op = false) ops -> tw_headers t !! k = None -> canonical (tw_headers t) ->
  let t' := fold_left (fun t op => buffer op t) ops t in tw_headers t' !! k = None /\ canonical (tw_headers t').
Proof.
  intros Hf. revert t. induction Hf as [|op ops Hop _ IH]; intros t Hk Hc; [done|]. cbn [fold_left]. apply IH; clear IH.
  - unfold touches in Hop. rewrite bool_decide_eq_false in Hop.
    destruct op; cbn in *; unfold h_set, h_add, h_del; rewrite ?lookup_insert_ne, ?lookup_delete_ne by congruence; done.
  - unfold canonical in *. destruct op; cbn; try done; intros k' vs'; unfold h_set, h_add, h_del;
      rewrite ?lookup_insert, ?lookup_delete; case_decide; try done; try (by intros ?; eapply Hc);
      intros _; subst; apply CanonicalHeaderKey_idem.
Qed.
Lemma flush_untouched k t : tw_headers t !! k = None -> canonical (tw_headers t) -> Forall (fun op => touches k op = false) (flush t).
Proof.
  intros Hk Hc. unfold flush. apply Forall_app. split; [|by repeat constructor]. apply Forall_forall.
  intros op ([k' vs] & Hop & Hin)%list_elem_of_bind. apply elem_of_map_to_list in Hin.
  apply list_elem_of_fmap in Hop as (v & -> & _). cbn. apply bool_decide_eq_false. cbn. intros [= E].
  rewrite (Hc _ _ Hin) in E. congruence.
Qed.

(** Whatever a handler does, in normal and in debug mode, a security header
    it does not name itself reaches the client with exactly the configured
    value, whatever the status and body. *)
Theorem security_header_sent cfg ssl debug dur host p name value :
  HSet name value ∈ security_ops cfg ssl debug host -> p_panic p = None ->
  Forall (fun op => touches (CanonicalHeaderKey name) op = false) (HSet (str "Server-Timing") dur :: p_ops p) ->
  exists w c h,
    finish None (perform_all (p_ops (SecurityHeadersMiddleware cfg ssl debug dur host p)) fresh) = Some w /\
    sent w = Some (c, h) /\ h !! CanonicalHeaderKey name = Some [value].
Proof.
  intros Hin Hp Hops. apply Forall_cons in Hops as [Htime Hops].
  assert (carries (CanonicalHeaderKey name) value (perform_all (security_ops cfg ssl debug host) fresh)) as Hc
    by (apply perform_sets_carries; [apply security_ops_sets|apply security_keys_nodup|done|done]).
  assert (exists ops, p_ops (SecurityHeadersMiddleware cfg ssl debug dur host p) = security_ops cfg ssl debug host ++ ops /\
    Forall (fun op => touches (CanonicalHeaderKey name) op = false) ops) as (ops & -> & Hu).
  { unfold SecurityHeadersMiddleware. rewrite Hp. destruct debug; cbn [p_ops]; eexists; (split; [done|]); [|done].
    destruct (buffer_facts (CanonicalHeaderKey name) (p_ops p ++ [HSet (str "Server-Timing") dur]) newTimingResponseWriter) as [Hk Hcan];
      [by apply Forall_app; split; [|constructor]|apply lookup_empty|intros ? ? E; cbn in E; by rewrite lookup_empty in E|].
    by apply flush_untouched. }
  rewrite perform_all_app. pose proof (perform_all_carries _ _ _ _ Hu Hc) as Hcar.
  destruct (finish None (perform_all ops (perform_all (security_ops cfg ssl debug host) fresh))) as [w|] eqn:Ef; [|done].
  destruct (finish_carries _ _ _ _ Hcar Ef) as (c & h & Hs & Hh). by exists w, c, h.
Qed.

(** ** Operator authentication *)

(** An operator request goes through only when a token hash is configured
    and the presented token has it; every rejection writes the same response
    for a missing and for a wrong token and takes at least the padding floor. *)
Theorem RequireOperatorToken_uniform sha256 hash message elapsed next r :
  let '(ops, reason, time) := RequireOperatorToken sha256 hash message elapsed next r in
  match reason with
  | None => ops = next r /\ hash = Some (sha256 (bearer (get r "Authorization")).1)
  | Some _ => ops = writeUnauthorized message r /\ time = Z.max failedAuthFloor elapsed
  end.
Proof.
  unfold RequireOperatorToken, ValidateOperatorToken. destruct (bearer _) as [token reason]. cbn [fst].
  assert (padFailedAuth elapsed = Z.max failedAuthFloor elapsed) as Hpad.
  { unfold padFailedAuth. destruct (Z.ltb_spec 0 (failedAuthFloor - elapsed)); lia. }
  destruct hash as [h|]; cbn; [|by rewrite Hpad]. case_bool_decide as Hh; cbn; [by rewrite Hh|by rewrite Hpad].
Qed.

(** ** Onion-Location *)

Definition onion_key : gostr := str "Onion-Location".
(** A response that states its status itself carries the header only when it is
    a 2xx HTML document. *)
Lemma onion_writer_status c rest w :
  sent w = None -> Forall (fun op => touches onion_key op = false) rest ->
  exists h, sent (onion_writer false (Status c :: rest) w) = Some (c, h) /\
    (h !! onion_key <> None -> 200 <= c < 300 /\ is_html h = true).
Proof.
  intros Hw Hrest. cbn [onion_writer].
  assert (forall b ops v, sent v <> None -> sent (onion_writer b ops v) = sent v) as Hkeep.
  { intros b ops. revert b. induction ops as [|op ops IH]; intros b v Hv; [done|].
    assert (forall d, sent (perform d v) = sent v) as Hp by (intros d; by apply perform_sent).
    destruct op; cbn [onion_writer]; try (rewrite IH by (by rewrite Hp); apply Hp).
    destruct (negb b && _); rewrite IH; rewrite ?perform_sent; rewrite ?Hp; done. }
  cbn [negb andb]. destruct ((c <? 200) || (300 <=? c) || negb (is_html (live w))) eqn:E.
  - exists (h_del (str "Onion-Location") (live w)). rewrite Hkeep; cbn; rewrite Hw; cbn; [|done]. split; [done|].
    intros Hn. exfalso. apply Hn. unfold h_del. apply lookup_delete_eq.
  - exists (live w). rewrite Hkeep; cbn; rewrite Hw; cbn; [|done]. split; [done|]. intros _.
    apply orb_false_iff in E as [[E1 E2]%orb_false_iff E3]. split; [lia|]. by apply negb_false_iff.
Qed.
(** A response whose status is implied by its body keeps the header whatever it is. *)
Lemma onion_location_on_json r :
  isOnionLocationCandidate r = true ->
  exists c h, sent (OnionLocationMiddleware (str "abc.onion") (str "/") r
                      [HSet (str "Content-Type") (str "application/json"); Bytes (str "{}")] fresh) = Some (c, h) /\
    h !! onion_key = Some [str "http://abc.onion/"] /\ is_html h = false.
Proof.
  intros Hr. unfold OnionLocationMiddleware.
  assert (TrimSpace (str "abc.onion") = str "abc.onion") as -> by reflexivity. rewrite Hr. cbn [negb orb].
  rewrite bool_decide_eq_false_2 by done. eexists _, _. split; [reflexivity|]. split; reflexivity.
Qed.
End responses.

(** ** Examples *)

Definition demo_headers : SecurityHeaderConfig :=
  mkHeaders (mkHSTS true 63072000 true true)
    (mkCSP true [] [mkDirective (str "default-src") (str "'self'") [] []; mkDirective (str "upgrade-insecure-requests") [] [] []])
    [(str "camera", str "()")]
    (Build_MiscHeaderConfig (str "nosniff") (str "SAMEORIGIN") [] [] [] [] [] true [] [])
    (mkNEL true 2592000 true None) (str "/api/v1/server/reports") 10886400.
Lemma security_header_sent_witness :
  exists w c h,
    finish None (perform_all (p_ops (SecurityHeadersMiddleware (H := ascii_tables) demo_headers true false [] (str "h")
                   (mkProg [Status 404; Bytes (str "x")] None))) fresh) = Some w /\
    sent w = Some (c, h) /\ h !! CanonicalHeaderKey (str "X-Frame-Options") = Some [str "SAMEORIGIN"].
Proof.
  apply (security_header_sent (H := ascii_tables) demo_headers true false [] (str "h") (mkProg [Status 404; Bytes (str "x")] None)
    (str "X-Frame-Options") (str "SAMEORIGIN")); [|reflexivity|by repeat constructor].
  cbn. right. left.
Defined.
Example csp_example : cspHeaderValue (sh_CSP demo_headers) = str "default-src 'self'; upgrade-insecure-requests".
Proof. reflexivity. Qed.

(** In debug mode a header the handler sets again is sent twice. *)
Lemma debug_duplicates_headers :
  let p := SecurityHeadersMiddleware (H := ascii_tables) demo_headers true true (str "total") (str "h")
             (mkProg [HSet (str "X-Content-Type-Options") (str "nosniff"); Status 401] None) in
  match finish None (perform_all (p_ops p) fresh) with
  | Some (mkResp _ (Some (_, h)) _) => h !! str "X-Content-Type-Options" = Some [str "nosniff"; str "nosniff"]
  | _ => False
  end.
Proof. vm_compute. reflexivity. Qed.

(** A second status is not sent, but it is what the access log records. *)
Lemma superfluous_status_logged :
  let ops := [Status 200; Status 500] in
  logged_status ops = 500 /\ (fst <$> sent (perform_all ops fresh)) = Some 200.
Proof. split; reflexivity. Qed.
