(* ===== verification/GoUrl.v ===== *)
(** * Go's [net/url] and [encoding/base64]

    Escaping and unescaping, parsed URLs, query strings and the URL alphabet of
    base64, as the standard library has them.  The syntax checks on the
    authority of an absolute URL differ between versions of the library and are
    a parameter. *)

From stdpp Require Import sorting.
From S2P Require Import Prelude GoStrings GoTime.
Local Open Scope Z_scope.
Local Open Scope go_scope.

(** ** Escaping *)

(** The parts of a URL that have their own rules, as far as they are used. *)
Inductive encoding := encodePath | encodePathSegment | encodeQueryComponent | encodeFragment.

Definition unhex (c : ascii) : option Z :=
  if between "0" "9" c then Some (code c - 48)
  else if between "a" "f" c then Some (code c - 87)
  else if between "A" "F" c then Some (code c - 55) else None.
Definition upperhex (n : Z) : ascii := if n <? 10 then chr (48 + n) else chr (55 + n).

Definition is_query (m : encoding) : bool := match m with encodeQueryComponent => true | _ => false end.
Fixpoint unescape (m : encoding) (s : gostr) : option gostr :=
  match s with
  | [] => Some []
  | c :: s' =>
      if bool_decide (c = "%"%char) then
        match s' with
        | h :: l :: rest =>
            match unhex h, unhex l with
            | Some a, Some b => cons (chr (a * 16 + b)) <$> unescape m rest
            | _, _ => None
            end
        | _ => None
        end
      else cons (if is_query m && bool_decide (c = "+"%char) then " "%char else c) <$> unescape m s'
  end.

Definition alphanumeric (c : ascii) : bool := between "a" "z" c || between "A" "Z" c || between "0" "9" c.
Definition shouldEscape (m : encoding) (c : ascii) : bool :=
  if alphanumeric c || bool_decide (c ∈ str "-_.~") then false
  else if bool_decide (c ∈ str "$&+,/:;=?@") then
    match m with
    | encodePath => bool_decide (c = "?"%char)
    | encodePathSegment => bool_decide (c ∈ str "/;,?")
    | encodeQueryComponent => true
    | encodeFragment => false
    end
  else match m with
       | encodeFragment => negb (bool_decide (c ∈ str "!()*"))
       | _ => true
       end.
Definition escape_byte (m : encoding) (c : ascii) : gostr :=
  if shouldEscape m c then
    if is_query m && bool_decide (c = " "%char) then ["+"%char]
    else ["%"%char; upperhex (code c / 16); upperhex (code c mod 16)]
  else [c].
Definition escape (m : encoding) (s : gostr) : gostr := s ≫= escape_byte m.
Definition QueryEscape : gostr -> gostr := escape encodeQueryComponent.

(** [validEncoded] on a path: bytes that RFC 3986 allows there. *)
Definition valid_byte (c : ascii) : bool :=
  bool_decide (c ∈ str "!$&'()*+,;=:@[]%") || negb (shouldEscape encodePath c).
Definition validEncoded (s : gostr) : bool := forallb valid_byte s.

(** ** Parsed URLs *)

(** [strings.Cut] at one byte. *)
Definition Cut (s : gostr) (c : ascii) : gostr * gostr * bool :=
  match IndexByte s c with
  | Some i => (take i s, drop (S i) s, true)
  | None => (s, [], false)
  end.

Record URL := mkURL {
  u_Scheme : gostr; u_Opaque : gostr; u_User : bool; u_Host : gostr;
  u_Path : gostr; u_RawPath : gostr; u_RawQuery : gostr; u_Fragment : gostr }.

(** The checks of [parseAuthority]: whether there is user information, and the
    host with its port. *)
Class Authority := { parseAuthority : gostr -> gostr -> option (bool * gostr) }.

Definition ctl_byte (c : ascii) : bool := (code c <? 32) || (code c =? 127).
Definition letter (c : ascii) : bool := between "a" "z" c || between "A" "Z" c.
(** [getScheme]: [Some ([], s)] when there is none, nothing on a bare colon. *)
Fixpoint scheme_from (whole s acc : gostr) : option (gostr * gostr) :=
  match s with
  | [] => Some ([], whole)
  | c :: s' =>
      if letter c then scheme_from whole s' (acc ++ [c])
      else if between "0" "9" c || bool_decide (c ∈ str "+-.") then
        if decide (acc = []) then Some ([], whole) else scheme_from whole s' (acc ++ [c])
      else if bool_decide (c = ":"%char) then
        if decide (acc = []) then None else Some (acc, s')
      else Some ([], whole)
  end.
Definition getScheme (s : gostr) : option (gostr * gostr) := scheme_from s s [].

(** [setPath]: the decoded path, and the raw one when it is not the default encoding. *)
Definition setPath (p : gostr) : option (gostr * gostr) :=
  (fun path => (path, if escape encodePath path =s p then [] else p)) <$> unescape encodePath p.

Section parse.
  Context `{UnicodeTables} `{Authority}.

Definition count_byte (c : ascii) (s : gostr) : nat := length (filter (fun d => d = c) s).
(** The query cut off; a lone final question mark is an empty query. *)
Definition cut_query (rest : gostr) : gostr * gostr :=
  if HasSuffix rest (str "?") && Nat.eqb (count_byte "?" rest) 1 then (take (length rest - 1) rest, [])
  else let '(a, b, _) := Cut rest "?" in (a, b).
Definition parse (rawURL : gostr) : option URL :=
  if existsb ctl_byte rawURL then None
  else if rawURL =s str "*" then Some (mkURL [] [] false [] (str "*") [] [] [])
  else match getScheme rawURL with
       | None => None
       | Some (scheme, rest) =>
           let scheme := ToLower scheme in
           let '(rest, query) := cut_query rest in
           if negb (HasPrefix rest (str "/")) && (scheme <>s []) then Some (mkURL scheme rest false [] [] [] query [])
           else if negb (HasPrefix rest (str "/")) && Contains (Cut rest "/").1.1 (str ":") then None
           else
             let with_path (user : bool) (host rest : gostr) :=
               (fun pr => mkURL scheme [] user host pr.1 pr.2 query []) <$> setPath rest in
             if ((scheme <>s []) || negb (HasPrefix rest (str "///"))) && HasPrefix rest (str "//") then
               let authority := drop 2 rest in
               let '(authority, rest) := match IndexByte authority "/" with
                                         | Some i => (take i authority, drop i authority)
                                         | None => (authority, [])
                                         end in
               match parseAuthority scheme authority with
               | None => None
               | Some (user, host) => with_path user host rest
               end
             else with_path false [] rest
       end.
Definition Parse (rawURL : gostr) : option URL :=
  let '(u, frag, _) := Cut rawURL "#" in
  match parse u with
  | None => None
  | Some url =>
      if frag =s [] then Some url
      else (fun f => mkURL (u_Scheme url) (u_Opaque url) (u_User url) (u_Host url) (u_Path url) (u_RawPath url)
                       (u_RawQuery url) f) <$> unescape encodeFragment frag
  end.
End parse.

Definition IsAbs (u : URL) : bool := u_Scheme u <>s [].
Definition EscapedPath (u : URL) : gostr :=
  if (u_RawPath u <>s []) && validEncoded (u_RawPath u) && bool_decide (unescape encodePath (u_RawPath u) = Some (u_Path u))
  then u_RawPath u
  else if u_Path u =s str "*" then str "%2A" else escape encodePath (u_Path u).

Definition validOptionalPort (port : gostr) : bool :=
  match port with
  | [] => true
  | c :: digits => bool_decide (c = ":"%char) && forallb isDigit digits
  end.
(** [splitHostPort] of the URL package. *)
Definition url_splitHostPort (hostPort : gostr) : gostr * gostr :=
  let '(host, port) :=
    match (fun i => (length hostPort - 1 - i)%nat) <$> IndexByte (reverse hostPort) ":" with
    | Some i => if validOptionalPort (drop i hostPort) then (take i hostPort, drop (S i) hostPort) else (hostPort, [])
    | None => (hostPort, [])
    end in
  (if HasPrefix host (str "[") && HasSuffix host (str "]") then take (length host - 2) (drop 1 host) else host, port).
Definition Hostname (u : URL) : gostr := (url_splitHostPort (u_Host u)).1.
Definition Port (u : URL) : gostr := (url_splitHostPort (u_Host u)).2.

(** ** Query strings *)

Abbreviation Values := (gmap gostr (list gostr)).
Definition Values_Get (v : Values) (key : gostr) : gostr := match v !! key with Some (x :: _) => x | _ => [] end.
Definition Values_Set (key value : gostr) (v : Values) : Values := <[key := [value]]> v.
Definition Values_add (key value : gostr) (v : Values) : Values := <[key := default [] (v !! key) ++ [value]]> v.
(** The values of an ordered list of pairs. *)
Definition Values_of (kvs : list (gostr * gostr)) : Values := fold_left (fun v kv => Values_add kv.1 kv.2 v) kvs ∅.
Definition Encode (v : Values) : gostr :=
  let keys := merge_sort str_le (fst <$> map_to_list v) in
  Join (keys ≫= (fun k => (fun x => QueryEscape k ++ str "=" ++ QueryEscape x) <$> default [] (v !! k))) (str "&").
(** [ParseQuery]: the pairs that can be read, and whether all could. *)
Definition query_pair (st : Values * bool) (part : gostr) : Values * bool :=
  let '(v, ok) := st in
  if Contains part (str ";") then (v, false)
  else if part =s [] then (v, ok)
  else let '(key, value, _) := Cut part "=" in
       match unescape encodeQueryComponent key, unescape encodeQueryComponent value with
       | Some k, Some x => (Values_add k x v, ok)
       | _, _ => (v, false)
       end.
Definition ParseQuery (query : gostr) : Values * bool := fold_left query_pair (Split query (str "&")) (∅, true).

(** ** Round trips *)

Lemma unescape_byte m c rest : unescape m (escape_byte m c ++ rest) = cons c <$> unescape m rest.
Proof.
  assert (unhex (upperhex (code c / 16)) = Some (code c / 16) /\ unhex (upperhex (code c mod 16)) = Some (code c mod 16) /\
    chr (code c / 16 * 16 + code c mod 16) = c /\
    (shouldEscape m c = false -> c <> "%"%char /\ (is_query m = true -> c <> "+"%char))) as (H1 & H2 & H3 & H4).
  { destruct c as [[] [] [] [] [] [] [] []]; (split; [reflexivity|]); (split; [reflexivity|]); (split; [reflexivity|]);
      destruct m; vm_compute; intros ?; split; try done; intros; done. }
  unfold escape_byte. destruct (shouldEscape m c).
  - destruct (is_query m) eqn:Eq; cbn [andb]; [case_bool_decide as Hc|].
    + subst c. cbn. by rewrite Eq.
    + cbn -[unhex upperhex]. by rewrite H1, H2, H3.
    + cbn -[unhex upperhex]. by rewrite H1, H2, H3.
  - destruct (H4 eq_refl) as [Hp Hq]. cbn. rewrite bool_decide_eq_false_2 by done.
    destruct (is_query m) eqn:Eq; cbn; [|done]. by rewrite bool_decide_eq_false_2 by auto.
Qed.
(** What is escaped for a part of a URL is read back from it. *)
Lemma unescape_escape m s : unescape m (escape m s) = Some s.
Proof. unfold escape. induction s as [|c s IH]; [done|]. cbn. rewrite unescape_byte. by rewrite IH. Qed.

(** The bytes of an escaped query component. *)
Definition component_byte (c : ascii) : bool := alphanumeric c || bool_decide (c ∈ str "-_.~%+").
Lemma QueryEscape_bytes s : forallb component_byte (QueryEscape s) = true.
Proof.
  unfold QueryEscape, escape. induction s as [|c s IH]; [done|]. cbn. rewrite forallb_app, IH, andb_true_r.
  by destruct c as [[] [] [] [] [] [] [] []].
Qed.
(** A string without percent signs stands for itself, but for blanks in queries. *)
Lemma unescape_plain m s : is_query m = false -> "%"%char ∉ s -> unescape m s = Some s.
Proof.
  intros Hm. induction s as [|c s IH]; intros Hs; [done|]. cbn. rewrite bool_decide_eq_false_2 by set_solver.
  rewrite IH by set_solver. by rewrite Hm.
Qed.
Lemma Cut_absent s c : c ∉ s -> Cut s c = (s, [], false).
Proof.
  intros Hc. unfold Cut, IndexByte. assert (IndexFunc (fun x => bool_decide (x = c)) s = None) as ->; [|done].
  induction s as [|d s IH]; [done|]. cbn. rewrite bool_decide_eq_false_2 by set_solver. by rewrite IH by set_solver.
Qed.
Lemma Cut_found s c t : c ∉ s -> Cut (s ++ c :: t) c = (s, t, true).
Proof.
  intros Hc. unfold Cut, IndexByte.
  assert (IndexFunc (fun x => bool_decide (x = c)) (s ++ c :: t) = Some (length s)) as ->.
  { induction s as [|d s IH]; cbn; [by rewrite bool_decide_eq_true_2|].
    rewrite bool_decide_eq_false_2 by set_solver. by rewrite IH by set_solver. }
  rewrite take_app_length. change (c :: t) with ([c] ++ t). rewrite (assoc_L (++)), drop_app_ge by (rewrite length_app; cbn; lia).
  rewrite length_app. cbn. by replace (S (length s) - (length s + 1))%nat with 0%nat by lia.
Qed.

(** ** Base64 with the URL alphabet *)

Definition b64_digit (n : Z) : ascii :=
  if n <? 26 then chr (65 + n) else if n <? 52 then chr (71 + n) else if n <? 62 then chr (n - 4)
  else if n =? 62 then "-"%char else "_"%char.
Definition b64_value (c : ascii) : option Z :=
  if between "A" "Z" c then Some (code c - 65) else if between "a" "z" c then Some (code c - 71)
  else if between "0" "9" c then Some (code c + 4)
  else if bool_decide (c = "-"%char) then Some 62 else if bool_decide (c = "_"%char) then Some 63 else None.
(** [RawURLEncoding.EncodeToString] *)
Fixpoint b64_encode (s : gostr) : gostr :=
  match s with
  | [] => []
  | [a] => let n := code a * 16 in [b64_digit (n / 64); b64_digit (n mod 64)]
  | [a; b] => let n := (code a * 256 + code b) * 4 in [b64_digit (n / 4096); b64_digit (n / 64 mod 64); b64_digit (n mod 64)]
  | a :: b :: c :: rest =>
      let n := code a * 65536 + code b * 256 + code c in
      b64_digit (n / 262144) :: b64_digit (n / 4096 mod 64) :: b64_digit (n / 64 mod 64) :: b64_digit (n mod 64)
        :: b64_encode rest
  end.
(** The bytes of two, three or four digits. *)
Definition b64_two (a b : Z) : gostr := [chr ((a * 64 + b) / 16)].
Definition b64_three (a b c : Z) : gostr := let n := (a * 4096 + b * 64 + c) / 4 in [chr (n / 256); chr (n mod 256)].
Definition b64_four (a b c d : Z) : gostr :=
  let n := a * 262144 + b * 4096 + c * 64 + d in [chr (n / 65536); chr (n / 256 mod 256); chr (n mod 256)].
(** The decoder skips line ends; the unpadded form ends with a group of two or
    three digits, the padded one fills its last group with equals signs. *)
Definition not_eol (c : ascii) : bool := negb (bool_decide (c = "010"%char) || bool_decide (c = "013"%char)).
Fixpoint b64_groups (padded : bool) (s : gostr) : option gostr :=
  match s with
  | [] => Some []
  | [_] => None
  | [a; b] =>
      match b64_value a, b64_value b with
      | Some x, Some y => if padded then None else Some (b64_two x y)
      | _, _ => None
      end
  | [a; b; c] =>
      match b64_value a, b64_value b, b64_value c with
      | Some x, Some y, Some z => if padded then None else Some (b64_three x y z)
      | _, _, _ => None
      end
  | a :: b :: c :: d :: rest =>
      match b64_value a, b64_value b, b64_value c, b64_value d with
      | Some x, Some y, Some z, Some w => app (b64_four x y z w) <$> b64_groups padded rest
      | Some x, Some y, Some z, None =>
          if padded && bool_decide (d = "="%char) && bool_decide (rest = []) then Some (b64_three x y z) else None
      | Some x, Some y, None, None =>
          if padded && bool_decide (c = "="%char) && bool_decide (d = "="%char) && bool_decide (rest = [])
          then Some (b64_two x y) else None
      | _, _, _, _ => None
      end
  end.
Definition RawURL_Decode (s : gostr) : option gostr := b64_groups false (filter (fun c => not_eol c = true) s).
Definition URL_Decode (s : gostr) : option gostr := b64_groups true (filter (fun c => not_eol c = true) s).
