(* ===== verification/Settings.v ===== *)
(** * Values derived from the configuration: [config/bool.go], [config/config.go]

    The functions that turn what an operator wrote into what the program uses:
    boolean words, durations and sizes, the contact roles with their fallbacks
    and webhook secrets, country lists with presets, the crawler policy,
    announcements, verification tags and the database driver.  The seven webhook
    transports are one enumeration, a set of webhooks a function on it. *)
From stdpp Require Import base list gmap sorting.
From Stdlib Require Import ZArith Lia.
From S2P Require Import Prelude GoStrings GoTime LogFormat.
Local Open Scope Z_scope.
Local Open Scope go_scope.

(** ** Boolean words *)

Definition truthyValues : list gostr :=
  str <$> ["1"; "y"; "t"; "yes"; "true"; "on"; "ok"; "enable"; "enabled"; "yep"; "yup"; "yeah"; "aye"; "si"; "oui";
           "da"; "hai"; "affirmative"; "accept"; "allow"; "grant"; "sure"; "totally"]%string.
Definition falsyValues : list gostr :=
  str <$> ["0"; "n"; "f"; "no"; "false"; "off"; "disable"; "disabled"; "nope"; "nah"; "nay"; "nein"; "non"; "niet";
           "iie"; "lie"; "negative"; "reject"; "block"; "revoke"; "deny"; "never"; "noway"]%string.

Section settings.
  Context `{UnicodeTables}.

(** An error carries the word that was not recognised. *)
Definition ParseBool (s : gostr) (defaultVal : bool) : result gostr bool :=
  let s := TrimSpace (ToLower s) in
  if s =s [] then Ok defaultVal
  else if bool_decide (s ∈ truthyValues) then Ok true
  else if bool_decide (s ∈ falsyValues) then Ok false
  else Err s.
(** [None] is the panic. *)
Definition MustParseBool (s : gostr) (defaultVal : bool) : option bool :=
  match ParseBool s defaultVal with Ok b => Some b | Err _ => None end.
Definition IsTruthy (s : gostr) : bool := bool_decide (TrimSpace (ToLower s) ∈ truthyValues).
Definition IsFalsy (s : gostr) : bool := bool_decide (TrimSpace (ToLower s) ∈ falsyValues).

(** ** Sizes, durations and the database driver *)

(** [scaled text mult] is [int64(n * mult)] for the float the text denotes. *)
Definition ParseByteSize (scaled : gostr -> Z -> option Z) (s : gostr) : option Z :=
  let s := ToUpper (TrimSpace s) in
  if s =s [] then None
  else
    let '(mult, digits) :=
      if HasSuffix s (str "TB") then (2 ^ 40, TrimSuffix s (str "TB"))
      else if HasSuffix s (str "GB") then (2 ^ 30, TrimSuffix s (str "GB"))
      else if HasSuffix s (str "MB") then (2 ^ 20, TrimSuffix s (str "MB"))
      else if HasSuffix s (str "KB") then (2 ^ 10, TrimSuffix s (str "KB"))
      else if HasSuffix s (str "B") then (1, TrimSuffix s (str "B"))
      else (1, s) in
    scaled (TrimSpace digits) mult.
Definition MaxBodyLogSizeBytes (scaled : gostr -> Z -> option Z) (maxBodyLogSize : gostr) : Z :=
  match ParseByteSize scaled maxBodyLogSize with
  | Some n => if n <=? 0 then 10 * 1024 else n
  | None => 10 * 1024
  end.

Definition parsePoolDuration (ParseDuration : gostr -> option Z) (value : gostr) (fallback : Z) : Z :=
  match ParseDuration (TrimSpace value) with
  | Some d => if d <=? 0 then fallback else d
  | None => fallback
  end.
Definition ResolvedSlowQueryThreshold (PD : gostr -> option Z) (v : gostr) : Z := parsePoolDuration PD v Second.
Definition ResolvedMaxLifetime (PD : gostr -> option Z) (v : gostr) : Z := parsePoolDuration PD v (5 * Minute).
Definition ResolvedMaxIdleTime (PD : gostr -> option Z) (v : gostr) : Z := parsePoolDuration PD v Minute.

Definition NormalizedDriver (driver : gostr) : gostr :=
  let d := ToLower driver in
  if bool_decide (d ∈ [str "sqlite"; str "sqlite2"; str "sqlite3"; []]) then str "sqlite"
  else if bool_decide (d ∈ [str "libsql"; str "turso"]) then str "libsql" else driver.
(** Whether the connection is usable: libsql needs a URL. *)
Definition ValidateLibSQL (driver url : gostr) : bool :=
  if NormalizedDriver driver <>s str "libsql" then true else url <>s [].

(** [updatechannel.Normalize] *)
Definition Normalize (value : gostr) : option gostr :=
  let v := ToLower (TrimSpace value) in
  if v =s str "stable" then Some (str "stable")
  else if v =s str "beta" then Some (str "beta")
  else if bool_decide (v ∈ str <$> ["devel"; "daily"; "rolling"; "dev"; "development"]%string) then Some (str "devel")
  else None.

(** ** Contacts *)

Inductive transport := Telegram | Discord | Slack | Mattermost | Pushover | Gotify | Generic.
#[export] Instance transport_eq_dec : EqDecision transport.
Proof. solve_decision. Defined.
Definition transports : list transport := [Telegram; Discord; Slack; Mattermost; Pushover; Gotify; Generic].
Record webhook := mkHook { hook_url : gostr; hook_secret : gostr }.
Definition no_hook : webhook := mkHook [] [].
Definition WebhooksConfig : Type := transport -> webhook.
Record ContactEntry := mkContact { Email : gostr; Webhooks : WebhooksConfig }.
(** [ResolvedContact] has the same fields. *)
Definition no_contact : ContactEntry := mkContact [] (fun _ => no_hook).

Definition resolve_entry (r e : ContactEntry) : ContactEntry :=
  mkContact (if Email r =s [] then Email e else Email r)
    (fun t => if (hook_url (Webhooks r t) =s []) && (hook_url (Webhooks e t) <>s []) then Webhooks e t else Webhooks r t).
Definition resolveContactChain (entries : list ContactEntry) : ContactEntry := fold_left resolve_entry entries no_contact.
Record ContactConfig := mkContacts {
  Admin : ContactEntry; Security : ContactEntry; Abuse : ContactEntry; General : ContactEntry }.
Definition ResolveContactRole (c : ContactConfig) (role : gostr) : ContactEntry :=
  if role =s str "admin" then resolveContactChain [Admin c]
  else if role =s str "security" then resolveContactChain [Security c; Admin c]
  else if role =s str "abuse" then resolveContactChain [Abuse c; General c; Admin c]
  else if role =s str "general" then resolveContactChain [General c; Admin c]
  else no_contact.

(** [generateWebhookSecret]: the hexadecimal digits of the 32 random bytes. *)
Definition generateWebhookSecret (random : list Z) : gostr := random ≫= hex_pad 2.
(** [EnsureSecrets]: [random t] are the bytes drawn for a transport that needs a secret. *)
Definition needs_secret (w : webhook) : bool := (hook_url w <>s []) && (hook_secret w =s []).
Definition EnsureSecrets (random : transport -> list Z) (w : WebhooksConfig) : WebhooksConfig * bool :=
  (fun t => if needs_secret (w t) then mkHook (hook_url (w t)) (generateWebhookSecret (random t)) else w t,
   existsb (fun t => needs_secret (w t)) transports).
Definition ensure_entry (random : transport -> list Z) (e : ContactEntry) : ContactEntry * bool :=
  let '(w, changed) := EnsureSecrets random (Webhooks e) in (mkContact (Email e) w, changed).
Definition EnsureContactWebhookSecrets (random : nat -> transport -> list Z) (c : ContactConfig) : ContactConfig * bool :=
  let '(a, ca) := ensure_entry (random 0%nat) (Admin c) in
  let '(s, cs) := ensure_entry (random 1%nat) (Security c) in
  let '(b, cb) := ensure_entry (random 2%nat) (Abuse c) in
  let '(g, cg) := ensure_entry (random 3%nat) (General c) in
  (mkContacts a s b g, ca || cs || cb || cg).

(** ** Country lists *)

(** The closure [add] of [expandCountryList], on the list and the set of codes seen. *)
Definition add_code (st : list gostr * gset gostr) (code : gostr) : list gostr * gset gostr :=
  let '(resolved, seen) := st in
  let code := ToUpper (TrimSpace code) in
  if code =s [] then st
  else if bool_decide (code ∈ seen) then st
  else (resolved ++ [code], {[ code ]} ∪ seen).
Definition expand_entry (presets : gmap gostr (list gostr)) (st : list gostr * gset gostr) (entry : gostr)
    : list gostr * gset gostr :=
  match presets !! TrimSpace entry with
  | Some codes => fold_left add_code codes st
  | None => add_code st entry
  end.
Definition expandCountryList (presets : gmap gostr (list gostr)) (entries : list gostr) : list gostr :=
  (fold_left (expand_entry presets) entries ([], ∅)).1.

(** ** Crawlers *)

Definition KnownAIBots : list gostr :=
  str <$> ["GPTBot"; "ChatGPT-User"; "ClaudeBot"; "anthropic-ai"; "Claude-Web"; "CCBot"; "Google-Extended"; "Bytespider";
           "PerplexityBot"; "Applebot-Extended"; "Amazonbot"; "Diffbot"; "FacebookBot"; "cohere-ai"]%string.
Definition DefaultAIBots : gmap gostr gostr := list_to_map ((fun b => (b, str "allow")) <$> KnownAIBots).
Record AIBotsConfig := mkBots { bots_Default : gostr; bots_Bots : gmap gostr gostr }.
Definition denies (setting : gostr) : bool := EqualFold (TrimSpace setting) (str "deny").
Definition IsAIBotDenied (c : AIBotsConfig) (bot : gostr) : bool :=
  match bots_Bots c !! bot with Some setting => denies setting | None => denies (bots_Default c) end.
Definition DeniedAIBots (c : AIBotsConfig) : list gostr :=
  filter (fun b => IsAIBotDenied c b = true) KnownAIBots ++
  merge_sort str_le (fst <$> filter (fun kv => kv.1 ∉ KnownAIBots /\ denies kv.2 = true) (map_to_list (bots_Bots c))).

(** ** Announcements *)

Record AnnouncementMessage := { am_ID : gostr; am_Start : gostr; am_End : gostr }.
(** [parse] is [time.Parse] with RFC 3339, as an instant. *)
Definition announcement_active (parse : gostr -> option Z) (now : Z) (dismissed : list gostr) (m : AnnouncementMessage) : bool :=
  if (am_ID m =s []) || bool_decide (am_ID m ∈ dismissed) then false
  else if (am_Start m <>s []) && match parse (am_Start m) with Some t => now <? t | None => false end then false
  else if (am_End m <>s []) && match parse (am_End m) with Some t => t <? now | None => false end then false
  else true.
Definition Active (parse : gostr -> option Z) (now : Z) (enabled : bool) (messages : list AnnouncementMessage)
    (dismissed : list gostr) : list AnnouncementMessage :=
  if enabled then filter (fun m => announcement_active parse now dismissed m = true) messages else [].

(** ** Verification tags *)

Definition lower (c : ascii) : bool := between "a" "z" c.
Definition upper (c : ascii) : bool := between "A" "Z" c.
(** The anchored patterns: a class of bytes, and the most there may be. *)
Definition matches_class (p : ascii -> bool) (most : nat) (s : gostr) : bool :=
  forallb p s && Nat.leb 1 (length s) && Nat.leb (length s) most.
Definition seoVerificationPattern (provider code : gostr) : bool :=
  if provider =s str "google" then matches_class (fun c => lower c || upper c || isDigit c || bool_decide (c ∈ str "_-")) 43 code
  else if provider =s str "bing" then matches_class (fun c => between "A" "F" c || isDigit c) 32 code
  else if provider =s str "yandex" then matches_class (fun c => between "a" "f" c || isDigit c) 32 code
  else if provider =s str "baidu" then matches_class (fun c => lower c || upper c || isDigit c) 32 code
  else if provider =s str "pinterest" then matches_class (fun c => between "a" "f" c || isDigit c) 32 code
  else if provider =s str "facebook" then matches_class (fun c => lower c || isDigit c) 64 code
  else false.
Definition metaNames : list (gostr * gostr) :=
  (fun p => (str p.1, str p.2)) <$>
    [("google", "google-site-verification"); ("bing", "msvalidate.01"); ("yandex", "yandex-verification");
     ("baidu", "baidu-site-verification"); ("pinterest", "p:domain_verify"); ("facebook", "fb:domain_verification")]%string.
(** The codes to render, under the name of their meta tag. *)
Definition ValidVerificationCodes (candidate : gostr -> gostr) : gmap gostr gostr :=
  list_to_map (omap (fun pn =>
    let code := TrimSpace (candidate pn.1) in
    if code =s [] then None else if seoVerificationPattern pn.1 code then Some (pn.2, code) else None) metaNames).

Record SEOCustomVerificationTag := mkTag { tag_Name : gostr; tag_Property : gostr; tag_Content : gostr }.
Definition seoCustomTagName (s : gostr) : bool :=
  matches_class (fun c => lower c || upper c || isDigit c || bool_decide (c ∈ str ":._-")) 64 s.
Definition custom_tag (tag : SEOCustomVerificationTag) : option SEOCustomVerificationTag :=
  let name := TrimSpace (tag_Name tag) in
  let property := TrimSpace (tag_Property tag) in
  let content := TrimSpace (tag_Content tag) in
  let attribute := if name =s [] then property else name in
  if Bool.eqb (name =s []) (property =s []) then None
  else if (content =s []) || Nat.ltb 256 (length content) then None
  else if negb (seoCustomTagName attribute) then None
  else Some (mkTag name property content).
Definition ValidCustomTags (custom : list SEOCustomVerificationTag) : list SEOCustomVerificationTag := omap custom_tag custom.

(** ** Compliance *)

Definition standards : list gostr :=
  str <$> ["gdpr"; "ccpa"; "hipaa"; "soc2"; "pci_dss"; "iso27001"; "fedramp"; "lgpd"; "pipeda"; "appi"; "pdpa"]%string.
(** One flag per standard, in the order of the struct. *)
Definition EnabledStandards (flags : gostr -> bool) : list gostr := filter (fun s => flags s = true) standards.
Definition IsEnabled (general : bool) (flags : gostr -> bool) : bool := general || Nat.ltb 0 (length (EnabledStandards flags)).
End settings.

(** ** No word is both true and false *)

Lemma words_disjoint s : s ∈ truthyValues -> s ∉ falsyValues.
Proof.
  assert (Forall (fun s => s ∉ falsyValues) truthyValues) as H by (apply (bool_decide_unpack _); vm_compute; exact I).
  rewrite Forall_forall in H. apply H.
Qed.
Lemma words_nonempty s : s ∈ truthyValues \/ s ∈ falsyValues -> s <> [].
Proof. intros [Hs | Hs] ->; apply (bool_decide_pack _) in Hs; by vm_compute in Hs. Qed.
(** A value is read as a boolean exactly when it is empty or one of the words. *)
Lemma ParseBool_spec `{UnicodeTables} s d b :
  ParseBool s d = Ok b <->
  (TrimSpace (ToLower s) = [] /\ b = d) \/ (IsTruthy s = true /\ b = true) \/ (IsFalsy s = true /\ b = false).
Proof.
  unfold ParseBool, IsTruthy, IsFalsy. set (w := TrimSpace (ToLower s)).
  rewrite !bool_decide_eq_true. case_bool_decide as He.
  - assert (w ∉ truthyValues /\ w ∉ falsyValues) as [Ht Hf].
    { split; intros Hw; eapply words_nonempty; eauto. }
    naive_solver.
  - case_bool_decide as Ht; [pose proof (words_disjoint _ Ht); naive_solver|].
    case_bool_decide; naive_solver.
Qed.

(** ** Contacts *)

(** The first entry, in the order of the chain, that has the webhook. *)
Definition first_hook (t : transport) (es : list ContactEntry) : webhook :=
  match List.find (fun e => hook_url (Webhooks e t) <>s []) es with Some e => Webhooks e t | None => no_hook end.
Definition first_email (es : list ContactEntry) : gostr :=
  match List.find (fun e => Email e <>s []) es with Some e => Email e | None => [] end.

(** Rewrites the boolean tests that a fact settles. *)
Ltac resolved H := rewrite ?(bool_decide_eq_true_2 _ H), ?(bool_decide_eq_false_2 _ H).
Lemma resolve_from es r :
  Email (fold_left resolve_entry es r) = (if Email r =s [] then first_email es else Email r) /\
  forall t, Webhooks (fold_left resolve_entry es r) t =
            if (hook_url (Webhooks r t) =s []) && existsb (fun e => hook_url (Webhooks e t) <>s []) es
            then first_hook t es else Webhooks r t.
Proof.
  unfold first_email, first_hook. revert r. induction es as [|e es IH]; intros r.
  - cbn. split; [by case_bool_decide|]. intros t. by rewrite andb_false_r.
  - destruct (IH (resolve_entry r e)) as [He Ht]. cbn [fold_left List.find existsb]. split.
    + rewrite He. cbn.
      destruct (decide (Email r = [])) as [Er|Er], (decide (Email e = [])) as [Ee|Ee]; resolved Er; resolved Ee; cbn;
        resolved Er; resolved Ee; done.
    + intros t. rewrite Ht. cbn.
      destruct (decide (hook_url (Webhooks r t) = [])) as [Er|Er], (decide (hook_url (Webhooks e t) = [])) as [Ee|Ee];
        resolved Er; resolved Ee; cbn; resolved Er; resolved Ee; done.
Qed.
(** A contact role resolves field by field to the first entry of its chain
    that has the field: the email to the first address, each transport to the
    first webhook, its URL and its secret from that same entry, and to nothing
    when no entry has it. *)
Theorem resolveContactChain_first es :
  Email (resolveContactChain es) = first_email es /\
  forall t, Webhooks (resolveContactChain es) t = first_hook t es.
Proof.
  destruct (resolve_from es no_contact) as [He Ht]. split; [exact He|].
  intros t. unfold resolveContactChain. rewrite Ht. cbn. unfold first_hook.
  destruct (existsb _ es) eqn:E; [done|]. destruct (List.find _ es) eqn:F; [|done].
  apply find_some in F as [Hin Hp].
  assert (existsb (fun e => hook_url (Webhooks e t) <>s []) es = true) as Hx by (apply existsb_exists; eauto). congruence.
Qed.

Lemma hex_pad_length w n : length (hex_pad w n) = w.
Proof. revert n. induction w as [|w IH]; intros n; [done|]. cbn. rewrite length_app, IH. cbn. lia. Qed.
Lemma generateWebhookSecret_length random : length (generateWebhookSecret random) = (2 * length random)%nat.
Proof.
  unfold generateWebhookSecret. induction random as [|b bs IH]; [done|].
  cbn [mbind list_bind]. rewrite length_app, IH, hex_pad_length. cbn. lia.
Qed.

Lemma no_transport (p : transport -> bool) : existsb p transports = false <-> forall t, p t = false.
Proof.
  split.
  - intros Hp t. apply not_true_is_false. intros Ht.
    assert (existsb p transports = true) as Hx by (apply existsb_exists; exists t; split; [destruct t; cbn; tauto|done]).
    congruence.
  - intros Hp. apply not_true_is_false. intros (t & _ & Ht)%existsb_exists. by rewrite Hp in Ht.
Qed.
Lemma EnsureSecrets_spec random w :
  (forall t, length (random t) = 32%nat) ->
  let '(w', changed) := EnsureSecrets random w in
  (forall t, hook_url (w' t) = hook_url (w t) /\ (hook_secret (w t) <> [] -> w' t = w t) /\
             (hook_url (w t) <> [] -> hook_secret (w' t) <> [])) /\
  (changed = false <-> forall t, w' t = w t) /\ (EnsureSecrets random w').2 = false.
Proof.
  intros Hr. unfold EnsureSecrets. cbn [fst snd]. rewrite !no_transport.
  assert (forall t, generateWebhookSecret (random t) <> []) as Hg.
  { intros t E. pose proof (generateWebhookSecret_length (random t)) as Hl. rewrite E, Hr in Hl. done. }
  assert (forall t, needs_secret (w t) = true <-> hook_url (w t) <> [] /\ hook_secret (w t) = []) as Hn.
  { intros t. unfold needs_secret. by rewrite andb_true_iff, negb_true_iff, bool_decide_eq_false, bool_decide_eq_true. }
  split; [|split].
  - intros t. destruct (needs_secret (w t)) eqn:E; cbn.
    + apply Hn in E as [? ?]. naive_solver.
    + split; [done|]. split; [done|]. intros Hu Hs. assert (needs_secret (w t) = true) by by apply Hn. congruence.
  - split; intros Hall t; specialize (Hall t); [by rewrite Hall|].
    destruct (needs_secret (w t)) eqn:E; [|done]. apply Hn in E as [_ E]. destruct (w t) as [u s]. cbn in *. subst s.
    injection Hall. intros Hx. by destruct (Hg t).
  - intros t. destruct (needs_secret (w t)) eqn:E; [|done]. unfold needs_secret. cbn.
    rewrite (bool_decide_eq_false_2 _ (Hg t)). apply andb_false_r.
Qed.
(** Completing the webhook secrets leaves every address, URL and existing
    secret as it is and gives each configured webhook of every role a secret; it
    reports a change exactly when one was made, and none the second time. *)
Theorem EnsureContactWebhookSecrets_complete random c :
  (forall i t, length (random i t) = 32%nat) ->
  let '(c', changed) := EnsureContactWebhookSecrets random c in
  (forall field, field ∈ [Admin; Security; Abuse; General] ->
     Email (field c') = Email (field c) /\
     forall t, hook_url (Webhooks (field c') t) = hook_url (Webhooks (field c) t) /\
       (hook_secret (Webhooks (field c) t) <> [] -> Webhooks (field c') t = Webhooks (field c) t) /\
       (hook_url (Webhooks (field c) t) <> [] -> hook_secret (Webhooks (field c') t) <> [])) /\
  (changed = false <->
     forall field t, field ∈ [Admin; Security; Abuse; General] -> Webhooks (field c') t = Webhooks (field c) t) /\
  (EnsureContactWebhookSecrets random c').2 = false.
Proof.
  intros Hr. unfold EnsureContactWebhookSecrets, ensure_entry.
  pose proof (EnsureSecrets_spec (random 0%nat) (Webhooks (Admin c)) (Hr 0%nat)) as Ha.
  pose proof (EnsureSecrets_spec (random 1%nat) (Webhooks (Security c)) (Hr 1%nat)) as Hs.
  pose proof (EnsureSecrets_spec (random 2%nat) (Webhooks (Abuse c)) (Hr 2%nat)) as Hb.
  pose proof (EnsureSecrets_spec (random 3%nat) (Webhooks (General c)) (Hr 3%nat)) as Hg.
  destruct (EnsureSecrets (random 0%nat) _) as [wa ca], (EnsureSecrets (random 1%nat) _) as [ws cs],
    (EnsureSecrets (random 2%nat) _) as [wb cb], (EnsureSecrets (random 3%nat) _) as [wg cg].
  destruct Ha as (Ha & Hca & Ha'), Hs as (Hs & Hcs & Hs'), Hb as (Hb & Hcb & Hb'), Hg as (Hg & Hcg & Hg').
  cbn [Admin Security Abuse General Webhooks].
  destruct (EnsureSecrets (random 0%nat) wa), (EnsureSecrets (random 1%nat) ws), (EnsureSecrets (random 2%nat) wb),
    (EnsureSecrets (random 3%nat) wg). cbn in Ha', Hs', Hb', Hg'. subst. cbn. split; [|split; [|done]].
  - intros field Hf. rewrite !elem_of_cons in Hf.
    destruct Hf as [-> | [-> | [-> | [-> | []%not_elem_of_nil]]]]; split; auto.
  - rewrite !orb_false_iff, Hca, Hcs, Hcb, Hcg. split.
    + intros [[[? ?] ?] ?] field t Hf. rewrite !elem_of_cons in Hf.
      destruct Hf as [-> | [-> | [-> | [-> | []%not_elem_of_nil]]]]; cbn; auto.
    + intros Hall. repeat split; intros t;
        [apply (Hall Admin)|apply (Hall Security)|apply (Hall Abuse)|apply (Hall General)]; set_solver.
Qed.
Definition demo_contacts : ContactConfig :=
  mkContacts (mkContact (str "a@x.org") (fun t => if decide (t = Slack) then mkHook (str "https://s") [] else no_hook))
    no_contact no_contact (mkContact [] (fun t => if decide (t = Slack) then mkHook (str "https://g") (str "k") else no_hook)).
Lemma EnsureContactWebhookSecrets_complete_witness :
  let c' := (EnsureContactWebhookSecrets (fun _ _ => replicate 32 7) demo_contacts).1 in
  hook_secret (Webhooks (Admin c') Slack) <> [].
Proof.
  pose proof (EnsureContactWebhookSecrets_complete (fun _ _ => replicate 32 7) demo_contacts (fun _ _ => eq_refl)) as H.
  destruct (EnsureContactWebhookSecrets _ _) as [c' changed]. destruct H as [H _]. cbn.
  apply (H Admin); [by left|done].
Defined.
Example abuse_falls_back :
  Webhooks (ResolveContactRole demo_contacts (str "abuse")) Slack = mkHook (str "https://g") (str "k") /\
  Email (ResolveContactRole demo_contacts (str "abuse")) = str "a@x.org".
Proof. split; reflexivity. Qed.

(** ** Country lists *)

Section countries.
  Context `{UnicodeTables}.

(** The codes an entry stands for: those of the preset it names, else itself. *)
Definition entry_codes (presets : gmap gostr (list gostr)) (entry : gostr) : list gostr :=
  default [entry] (presets !! TrimSpace entry).
Definition normal_code (c : gostr) : gostr := ToUpper (TrimSpace c).

Lemma expand_flat presets entries st :
  fold_left (expand_entry presets) entries st = fold_left add_code (entries ≫= entry_codes presets) st.
Proof.
  revert st. induction entries as [|e entries IH]; intros st; [done|]. cbn [fold_left mbind list_bind].
  rewrite IH, fold_left_app. f_equal. unfold expand_entry, entry_codes. by destruct (presets !! TrimSpace e).
Qed.
Definition seen_exactly (st : list gostr * gset gostr) : Prop := NoDup st.1 /\ (forall c, c ∈ st.2 <-> c ∈ st.1) /\ [] ∉ st.1.
Lemma add_code_spec st c : seen_exactly st ->
  seen_exactly (add_code st c) /\
  forall x, x ∈ (add_code st c).1 <-> x ∈ st.1 \/ (x = normal_code c /\ x <> []).
Proof.
  destruct st as [l s]. intros (Hn & Hs & He). unfold add_code, normal_code. cbn [fst snd] in *.
  set (k := ToUpper (TrimSpace c)). case_bool_decide as Hk; [split; [done|naive_solver]|].
  case_bool_decide as Hin.
  - split; [done|]. rewrite Hs in Hin. naive_solver.
  - rewrite Hs in Hin. split; [split; [|split]|]; cbn.
    + apply NoDup_app. split; [done|]. split; [set_solver|apply NoDup_singleton].
    + intros x. rewrite elem_of_union, elem_of_singleton, elem_of_app, Hs. set_solver.
    + set_solver.
    + set_solver.
Qed.
Lemma add_codes_spec cs st : seen_exactly st ->
  seen_exactly (fold_left add_code cs st) /\
  forall x, x ∈ (fold_left add_code cs st).1 <-> x ∈ st.1 \/ (x <> [] /\ x ∈ normal_code <$> cs).
Proof.
  revert st. induction cs as [|c cs IH]; intros st Hst; [split; [done|set_solver]|].
  destruct (add_code_spec st c Hst) as [H1 H2]. destruct (IH _ H1) as [H3 H4]. split; [done|].
  intros x. cbn [fold_left fmap list_fmap]. rewrite H4, H2, elem_of_cons. naive_solver.
Qed.
(** An expanded country list has no code twice and no empty code, and it has
    exactly the codes, trimmed and in upper case, of its literal entries and of
    the presets its other entries name; the names inside a preset are codes and
    never expand again. *)
Theorem expandCountryList_spec presets entries :
  NoDup (expandCountryList presets entries) /\
  forall c, c ∈ expandCountryList presets entries <->
    c <> [] /\ exists e x, e ∈ entries /\ x ∈ entry_codes presets e /\ c = normal_code x.
Proof.
  unfold expandCountryList. rewrite expand_flat.
  destruct (add_codes_spec (entries ≫= entry_codes presets) ([], ∅)) as [[Hn _] Hx].
  { split; [apply NoDup_nil_2|]. split; [intros c; cbn; by rewrite elem_of_empty, elem_of_nil|apply not_elem_of_nil]. }
  split; [done|]. intros c. rewrite Hx. cbn. rewrite elem_of_nil, list_elem_of_fmap. setoid_rewrite list_elem_of_bind.
  naive_solver.
Qed.

(** The crawlers refused are, each once, the known or configured ones that the
    policy denies. *)
Lemma DeniedAIBots_spec c :
  NoDup (DeniedAIBots c) /\
  forall b, b ∈ DeniedAIBots c <-> IsAIBotDenied c b = true /\ (b ∈ KnownAIBots \/ is_Some (bots_Bots c !! b)).
Proof.
  unfold DeniedAIBots.
  assert (NoDup KnownAIBots) as Hk by (apply (bool_decide_unpack _); vm_compute; exact I).
  set (extra := filter _ (map_to_list (bots_Bots c))).
  assert (forall b, b ∈ extra.*1 <-> b ∉ KnownAIBots /\ exists s, bots_Bots c !! b = Some s /\ denies s = true) as Hx.
  { intros b. unfold extra. rewrite list_elem_of_fmap. setoid_rewrite list_elem_of_filter. split.
    - intros ([b' s] & -> & [Hb Hs] & Hin%elem_of_map_to_list). eauto.
    - intros (Hb & s & Hl & Hs). exists (b, s). rewrite elem_of_map_to_list. done. }
  split.
  - apply NoDup_app. split; [by apply NoDup_filter|]. split.
    + intros b [_ Hb]%list_elem_of_filter Hin. rewrite merge_sort_Permutation in Hin. by apply Hx in Hin as [? _].
    + rewrite merge_sort_Permutation. unfold extra. apply NoDup_fmap_filter, NoDup_fst_map_to_list.
  - intros b. rewrite elem_of_app, list_elem_of_filter, merge_sort_Permutation, Hx. unfold IsAIBotDenied. split.
    + intros [[Hd Hb]|(Hb & s & Hl & Hs)]; [auto|]. rewrite Hl. eauto.
    + intros [Hd Hor]. destruct (decide (b ∈ KnownAIBots)); [auto|]. right. split; [done|].
      destruct Hor as [?|[s Hs]]; [done|]. rewrite Hs in Hd. eauto.
Qed.

(** A custom tag that is rendered has exactly one of name and property, made of
    bytes that cannot leave an attribute, and a content of 1 to 256 bytes. *)
Lemma ValidCustomTags_safe custom tag : tag ∈ ValidCustomTags custom ->
  (tag_Name tag = [] <-> tag_Property tag <> []) /\ (1 <= length (tag_Content tag) <= 256)%nat /\
  (forall c, c ∈ tag_Name tag ++ tag_Property tag -> c ∉ str "<>&'= " /\ code c <> 34).
Proof.
  unfold ValidCustomTags. intros (t0 & _ & Ht)%list_elem_of_omap. unfold custom_tag in Ht.
  destruct (Bool.eqb _ _) eqn:Eq; [done|]. destruct ((_ =s []) || _) eqn:Ec; [done|].
  destruct (negb _) eqn:Ea; [done|]. injection Ht as <-. cbn.
  set (name := TrimSpace (tag_Name t0)) in *. set (prop := TrimSpace (tag_Property t0)) in *.
  set (content := TrimSpace (tag_Content t0)) in *.
  apply orb_false_iff in Ec as [Ec1 Ec2]. apply bool_decide_eq_false in Ec1. apply Nat.ltb_ge in Ec2.
  apply negb_false_iff in Ea. apply eqb_false_iff in Eq.
  assert (name = [] <-> prop <> []) as Hx by (destruct name, prop; naive_solver).
  split; [done|]. split; [destruct content; [done|cbn; cbn in Ec2; lia]|].
  assert (name ++ prop = (if name =s [] then prop else name)) as ->.
  { case_bool_decide as E; [by rewrite E|]. destruct prop; [by rewrite app_nil_r|naive_solver]. }
  unfold seoCustomTagName, matches_class in Ea. rewrite !andb_true_iff, forallb_forall in Ea.
  intros c Hc%list_elem_of_In. destruct Ea as [[Ea _] _]. specialize (Ea c Hc). clear - Ea. revert c Ea.
  assert (forall c, (lower c || upper c || isDigit c || bool_decide (c ∈ str ":._-")) = true ->
            bool_decide (c ∉ str "<>&'= " /\ code c <> 34) = true) as Hc; [|intros c Ea; by apply (bool_decide_eq_true_1 _ (Hc c Ea))].
  intros [[] [] [] [] [] [] [] []]; vm_compute; congruence.
Qed.
End countries.
Example expand_example :
  expandCountryList (H := ascii_tables) {[str "eu" := [str "de"; str " fr "; str "eu"]]} [str "US"; str "eu"; str "DE"; []] =
  [str "US"; str "DE"; str "FR"; str "EU"].
Proof. vm_compute. reflexivity. Qed.
