(* ===== verification/Tracking.v ===== *)
(** * Analytics: [ValidateTracking] of [config/config.go], [server/handler/tracking.go]

    The validation of the analytics provider and the decision, per request,
    whether its script is put on a page: consent, opt-outs, the script URL and
    the content security policy.  URLs are those of [GoUrl]; the UUID syntax of
    the provider library is a parameter. *)
From stdpp Require Import base list gmap.
From Stdlib Require Import ZArith Lia.
From S2P Require Import Prelude GoStrings GoNet GoUrl Http I18n Netutil Settings.
Local Open Scope Z_scope.
Local Open Scope go_scope.

(** [uuid.Parse] of google/uuid succeeds. *)
Class UuidSyntax := { uuid_ok : gostr -> bool }.

Record TrackingConfig := mkTracking { tr_Type : gostr; tr_ID : gostr; tr_URL : gostr }.
Inductive tracking_error :=
| UnknownType | BadID (type : gostr) | URLRequired (type : gostr) | BadURL (type : gostr) | URLNotUsed (type : gostr).

Definition label_byte (c : ascii) : bool := letter c || isDigit c || bool_decide (c = "-"%char).
Definition valid_label (label : gostr) : bool :=
  negb (Nat.eqb (length label) 0 || Nat.ltb 63 (length label) || HasPrefix label (str "-") || HasSuffix label (str "-"))
  && forallb label_byte label.
Definition validTrackingDomain (value : gostr) : bool :=
  if Nat.eqb (length value) 0 || Nat.ltb 253 (length value) || (TrimSpace value <>s value) || bool_decide (ParseIP value <> None)
  then false
  else let labels := Split value (str ".") in
       if Nat.ltb (length labels) 2 then false else forallb valid_label labels.
(** The pattern [^(UA-[0-9]+-[0-9]+|G-[A-Z0-9]+)$]. *)
Definition digits1 (s : gostr) : bool := negb (Nat.eqb (length s) 0) && forallb isDigit s.
Definition google_id (id : gostr) : bool :=
  (HasPrefix id (str "UA-") &&
   match Split (drop 3 id) (str "-") with [a; b] => digits1 a && digits1 b | _ => false end)
  || (HasPrefix id (str "G-") &&
      negb (Nat.eqb (length (drop 2 id)) 0) && forallb (fun c => between "A" "Z" c || isDigit c) (drop 2 id)).

Section tracking.
  Context `{UnicodeTables} `{Authority} `{UuidSyntax}.

Definition absolute_http (u : URL) : bool :=
  IsAbs u && (Hostname u <>s []) && negb (u_User u) && (u_Fragment u =s [])
  && ((u_Scheme u =s str "https") || (u_Scheme u =s str "http")).
(** The closure [validateURL]. *)
Definition validateURL (required : bool) (type url : gostr) : option tracking_error :=
  if url =s [] then if required then Some (URLRequired type) else None
  else match Parse url with
       | Some u => if absolute_http u then None else Some (BadURL type)
       | None => Some (BadURL type)
       end.
(** [ValidateTracking]: the configuration is normalised in place, also when it is refused. *)
Definition ValidateTracking (cfg : TrackingConfig) : TrackingConfig * option tracking_error :=
  let type := ToLower (TrimSpace (tr_Type cfg)) in
  let id := TrimSpace (tr_ID cfg) in
  let url := TrimSpace (tr_URL cfg) in
  (mkTracking type id url,
   if (type =s []) || (type =s str "none") then None
   else if type =s str "google" then if google_id id then None else Some (BadID type)
   else if (type =s str "matomo") || (type =s str "piwik") then
     match ParseInt id with None => Some (BadID type) | Some _ => validateURL true type url end
   else if type =s str "owa" then if id =s [] then Some (BadID type) else validateURL true type url
   else if type =s str "fathom" then if id =s [] then Some (BadID type) else validateURL false type url
   else if type =s str "plausible" then if validTrackingDomain id then validateURL false type url else Some (BadID type)
   else if type =s str "umami" then if uuid_ok id then validateURL true type url else Some (BadID type)
   else if type =s str "simple" then if url <>s [] then Some (URLNotUsed type) else None
   else if type =s str "cloudflare" then
     if id =s [] then Some (BadID type) else if url <>s [] then Some (URLNotUsed type) else None
   else Some UnknownType).

(** ** Consent *)

Definition hasConsentCookie (r : request) : bool :=
  match Cookie r (str "cookie_consent") with Some v => v <>s [] | None => false end.
Definition hasCCPAOptOutCookie (r : request) : bool :=
  match Cookie r (str "ccpa_opt_out") with Some v => v =s str "true" | None => false end.
(** [unmarshal] is [json.Unmarshal] into the struct of the two flags. *)
Definition consentCategories (unmarshal : gostr -> option (bool * bool)) (r : request) : bool * bool :=
  match Cookie r (str "cookie_consent") with
  | None => (false, false)
  | Some v =>
      if v =s [] then (false, false)
      else match unescape encodeQueryComponent v with
           | None => (false, false)
           | Some raw => default (false, false) (unmarshal raw)
           end
  end.
Definition analyticsConsentAllowed (unmarshal : gostr -> option (bool * bool)) (enabled : bool) (r : request) : bool :=
  if negb enabled || hasCCPAOptOutCookie r || (TrimSpace (get r "Sec-GPC") =s str "1") || negb (hasConsentCookie r)
  then false else (consentCategories unmarshal r).2.

(** ** The script *)

Definition analyticsScriptURL (t : TrackingConfig) : gostr :=
  let base := TrimRight (tr_URL t) (str "/") in
  let type := tr_Type t in
  if type =s str "google" then
    if HasPrefix (tr_ID t) (str "G-") then str "https://www.googletagmanager.com/gtag/js"
    else str "https://www.google-analytics.com/analytics.js"
  else if (type =s str "matomo") || (type =s str "piwik") then base ++ str "/matomo.js"
  else if type =s str "owa" then base ++ str "/modules/base/js/owa.tracker-combined-min.js"
  else if type =s str "fathom" then
    if base <>s [] then base ++ str "/tracker.js" else str "https://cdn.usefathom.com/script.js"
  else if type =s str "plausible" then
    if base <>s [] then base ++ str "/js/script.js" else str "https://plausible.io/js/script.js"
  else if type =s str "umami" then base ++ str "/script.js"
  else if type =s str "simple" then str "https://scripts.simpleanalyticscdn.com/latest.js"
  else if type =s str "cloudflare" then str "https://static.cloudflareinsights.com/beacon.min.js"
  else [].

Definition cspHostSourceMatches (sourceRule : gostr) (source : URL) : bool :=
  if (sourceRule =s []) || HasPrefix sourceRule (str "'") || (sourceRule =s str "data:") || (sourceRule =s str "blob:") then false
  else match Parse sourceRule with
       | None => false
       | Some rule =>
           if negb (IsAbs rule) || (Hostname rule =s []) || u_User rule || (u_RawQuery rule <>s []) || (u_Fragment rule <>s [])
              || negb (EqualFold (u_Scheme rule) (u_Scheme source)) then false
           else
             let ruleHost := ToLower (Hostname rule) in
             let sourceHost := ToLower (Hostname source) in
             let host_ok :=
               if HasPrefix ruleHost (str "*.") then
                 let suffix := TrimPrefix ruleHost (str "*") in
                 HasSuffix sourceHost suffix && (sourceHost <>s TrimPrefix suffix (str "."))
               else EqualFold (Hostname rule) (Hostname source) in
             if negb host_ok then false
             else if (Port rule <>s []) && (Port rule <>s Port source) then false
             else
               let rulePath := EscapedPath rule in
               if (rulePath <>s []) && (rulePath <>s str "/") then
                 if HasSuffix rulePath (str "/") then HasPrefix (EscapedPath source) rulePath
                 else EscapedPath source =s rulePath
               else true
       end.
Definition rule_allows (source : URL) (sameOrigin : bool) (sourceRule : gostr) : bool :=
  (sourceRule =s str "*") || ((sourceRule =s str "https:") && (u_Scheme source =s str "https"))
  || ((sourceRule =s str "'self'") && sameOrigin) || cspHostSourceMatches sourceRule source.

(** [web.csp] as far as scripts and images go. *)
Record script_csp := mkScriptCSP { sc_Enabled : bool; sc_Mode : gostr; sc_Override : gostr; sc_Extra : gostr }.

Variable e : host_env.
Definition same_origin (r : request) (trust : option TrustResolver) (source : URL) : option bool :=
  (fun origin => EqualFold (u_Scheme source) (u_Scheme origin) && EqualFold (u_Host source) (u_Host origin))
    <$> Parse (BuildURL e r trust []).
(** The part the two decisions share: [defaults] are the sources without an override. *)
Definition source_allowed (r : request) (trust : option TrustResolver) (csp : script_csp) (defaults : gostr) (source : URL) : bool :=
  match same_origin r trust source with
  | None => false
  | Some sameOrigin =>
      if IsTorRequest r trust then sameOrigin
      else if (u_Scheme source <>s str "https") && negb sameOrigin then false
      else if negb (sc_Enabled csp) || EqualFold (TrimSpace (sc_Mode csp)) (str "report-only") then true
      else
        let sources := TrimSpace (sc_Override csp) in
        let sources := if sources =s [] then defaults ++ sc_Extra csp else sources in
        existsb (rule_allows source sameOrigin) (Fields sources)
  end.
Definition analyticsSourceAllowed (r : request) (trust : option TrustResolver) (csp : script_csp) (source : gostr) : bool :=
  match Parse source with
  | None => false
  | Some parsed =>
      if negb (IsAbs parsed) || (Hostname parsed =s [])
         || ((u_Scheme parsed <>s str "http") && (u_Scheme parsed <>s str "https")) then false
      else source_allowed r trust csp (str "'self' ") parsed
  end.
(** [analyticsTracking]: the URL of the script to put on the page, if any. *)
Definition analyticsTracking (unmarshal : gostr -> option (bool * bool)) (tracking : TrackingConfig) (enabled : bool)
    (csp : script_csp) (trust : option TrustResolver) (r : request) : option gostr :=
  let '(tracking, err) := ValidateTracking tracking in
  if bool_decide (err <> None) || (tr_Type tracking =s []) || (tr_Type tracking =s str "none") then None
  else if negb (analyticsConsentAllowed unmarshal enabled r) then None
  else
    let sourceURL := analyticsScriptURL tracking in
    if (sourceURL =s []) || negb (analyticsSourceAllowed r trust csp sourceURL) then None else Some sourceURL.
(** [analyticsNoScriptAllowed]: the pixel of Simple Analytics. *)
Definition analyticsNoScriptAllowed (unmarshal : gostr -> option (bool * bool)) (type : gostr) (enabled : bool)
    (csp : script_csp) (trust : option TrustResolver) (r : request) : bool :=
  if negb (EqualFold (TrimSpace type) (str "simple")) || negb (analyticsConsentAllowed unmarshal enabled r) then false
  else match Parse (str "https://queue.simpleanalyticscdn.com/noscript.gif") with
       | None => false
       | Some parsed => source_allowed r trust csp (str "'self' data: blob: https: ") parsed
       end.
End tracking.

(** ** No script without consent *)

Lemma consent_given unmarshal enabled r :
  analyticsConsentAllowed unmarshal enabled r = true ->
  enabled = true /\ Cookie r (str "ccpa_opt_out") <> Some (str "true") /\ TrimSpace (get r "Sec-GPC") <> str "1" /\
  exists v raw p, Cookie r (str "cookie_consent") = Some v /\ unescape encodeQueryComponent v = Some raw /\
    unmarshal raw = Some (p, true).
Proof.
  unfold analyticsConsentAllowed. destruct (_ || _) eqn:E; [done|]. rewrite !orb_false_iff, !negb_false_iff in E.
  destruct E as [[[-> Hccpa] Hgpc%bool_decide_eq_false] Hc]. intros Ha. split; [done|]. split; [|split; [done|]].
  - unfold hasCCPAOptOutCookie in Hccpa. intros Hx. rewrite Hx in Hccpa. by vm_compute in Hccpa.
  - unfold consentCategories in Ha. destruct (Cookie r (str "cookie_consent")) as [v|]; [|done].
    destruct (v =s []); [done|]. destruct (unescape _ v) as [raw|] eqn:Er; [|done].
    destruct (unmarshal raw) as [[p a]|] eqn:Eu; [|done]. cbn in Ha. subst a. eauto 10.
Qed.
Section decision.
  Context `{UnicodeTables} `{Authority} `{UuidSyntax}.
  Variables (e : host_env) (unmarshal : gostr -> option (bool * bool)).

(** The sources a page may load the script from. *)
Definition script_sources (csp : script_csp) (defaults : gostr) : list gostr :=
  Fields (if TrimSpace (sc_Override csp) =s [] then defaults ++ sc_Extra csp else TrimSpace (sc_Override csp)).
Definition enforced (csp : script_csp) : bool :=
  sc_Enabled csp && negb (EqualFold (TrimSpace (sc_Mode csp)) (str "report-only")).

Lemma source_allowed_spec r trust csp defaults source :
  source_allowed e r trust csp defaults source = true ->
  exists same, same_origin e r trust source = Some same /\
    (IsTorRequest r trust = true -> same = true) /\ (u_Scheme source = str "https" \/ same = true) /\
    (IsTorRequest r trust = false -> enforced csp = true ->
     exists rule, rule ∈ script_sources csp defaults /\ rule_allows source same rule = true).
Proof.
  unfold source_allowed, enforced, script_sources. destruct (same_origin e r trust source) as [same|]; [|done].
  destruct (IsTorRequest r trust) eqn:Et; [intros ->; exists true; repeat split; try done; by right|].
  destruct ((u_Scheme source <>s _) && _) eqn:Es; [done|]. intros Ha. exists same. split; [done|]. split; [done|]. split.
  - apply andb_false_iff in Es. rewrite !negb_false_iff, bool_decide_eq_true in Es. done.
  - intros _ [Hen Hm]%andb_true_iff. apply negb_true_iff in Hm. rewrite Hen, Hm in Ha. cbn in Ha.
    apply existsb_exists in Ha as (rule & Hin & Hr). exists rule. rewrite list_elem_of_In. done.
Qed.
(** A page carries an analytics script only when the operator enabled the
    category and the visitor's consent cookie grants it, with neither the opt-out
    cookie nor the privacy-control header; the script then comes over HTTPS or
    from the page's own origin, on the hidden service only from that origin, and
    under an enforced policy from a source the policy lists. *)
Theorem analytics_needs_consent tracking enabled csp trust r src :
  analyticsTracking e unmarshal tracking enabled csp trust r = Some src ->
  enabled = true /\ Cookie r (str "ccpa_opt_out") <> Some (str "true") /\ TrimSpace (get r "Sec-GPC") <> str "1" /\
  (exists v raw p, Cookie r (str "cookie_consent") = Some v /\ unescape encodeQueryComponent v = Some raw /\
     unmarshal raw = Some (p, true)) /\
  exists u same, Parse src = Some u /\ same_origin e r trust u = Some same /\
    (IsTorRequest r trust = true -> same = true) /\ (u_Scheme u = str "https" \/ same = true) /\
    (IsTorRequest r trust = false -> enforced csp = true ->
     exists rule, rule ∈ script_sources csp (str "'self' ") /\ rule_allows u same rule = true).
Proof.
  unfold analyticsTracking. destruct (ValidateTracking tracking) as [t err]. destruct (_ || _); [done|].
  destruct (analyticsConsentAllowed unmarshal enabled r) eqn:Ec; [|done]. cbn [negb].
  destruct ((analyticsScriptURL t =s []) || _) eqn:Es; [done|]. intros [= <-].
  apply orb_false_iff in Es as [_ Es%negb_false_iff]. destruct (consent_given _ _ _ Ec) as (? & ? & ? & Hv).
  split; [done|]. split; [done|]. split; [done|]. split; [done|].
  unfold analyticsSourceAllowed in Es. destruct (Parse (analyticsScriptURL t)) as [u|]; [|done].
  destruct (_ || _); [done|]. apply source_allowed_spec in Es as (same & ?). eauto.
Qed.
End decision.

(** ** Example *)

Definition plain_authority : Authority := {| parseAuthority := fun _ a => Some (false, a) |}.
Definition no_uuid : UuidSyntax := {| uuid_ok := fun _ => false |}.
Definition demo_env : host_env :=
  {| env_DOMAIN := []; env_HOSTNAME := []; os_Hostname := None; net_Interfaces := None;
     net_LookupAddr := fun _ => None; EffectiveTLDPlusOne := fun _ => None |}.
Definition consenting : request :=
  let r := bare_request (str "203.0.113.5:4711") in
  {| r_Method := r_Method r; r_Host := r_Host r; r_URL_Host := r_URL_Host r; r_URL_Path := r_URL_Path r;
     r_URL_RawPath := []; r_Header := ∅; r_Cookies := [(str "cookie_consent", str "1")]; r_Query := []; r_Form := None;
     r_RemoteAddr := r_RemoteAddr r; r_TLS := true; r_ContentLength := 0; r_ctx := background |}.
Definition demo_csp : script_csp := mkScriptCSP true [] [] (str "https://plausible.io").
Definition demo_flags (raw : gostr) : option (bool * bool) := if raw =s str "1" then Some (true, true) else None.
Lemma analytics_needs_consent_witness :
  analyticsTracking (H := ascii_tables) (H0 := plain_authority) (H1 := no_uuid) demo_env demo_flags
    (mkTracking (str " Plausible") (str "example.org") []) true demo_csp None consenting
  = Some (str "https://plausible.io/js/script.js") /\ hasCCPAOptOutCookie consenting = false /\
  exists v raw p, Cookie consenting (str "cookie_consent") = Some v /\ unescape encodeQueryComponent v = Some raw /\
     demo_flags raw = Some (p, true).
Proof.
  assert (analyticsTracking (H := ascii_tables) (H0 := plain_authority) (H1 := no_uuid) demo_env demo_flags
    (mkTracking (str " Plausible") (str "example.org") []) true demo_csp None consenting
    = Some (str "https://plausible.io/js/script.js")) as Hx by (vm_compute; reflexivity).
  split; [exact Hx|]. split; [reflexivity|].
  apply (analytics_needs_consent (H := ascii_tables) (H0 := plain_authority) (H1 := no_uuid) demo_env demo_flags
    (mkTracking (str " Plausible") (str "example.org") []) true demo_csp None consenting _ Hx).
Defined.
(** The opt-out and a missing consent each stop the script. *)
Example opted_out :
  analyticsConsentAllowed demo_flags true
    {| r_Method := []; r_Host := []; r_URL_Host := []; r_URL_Path := []; r_URL_RawPath := []; r_Header := ∅;
       r_Cookies := [(str "cookie_consent", str "1"); (str "ccpa_opt_out", str "true")]; r_Query := []; r_Form := None;
       r_RemoteAddr := []; r_TLS := true; r_ContentLength := 0; r_ctx := background |} = false.
Proof. reflexivity. Qed.
