(* ===== verification/Config.v ===== *)
(** * The server configuration: validation, loading and saving, [config/config.go]

    The settings that [validateConfig] looks at, the validation itself with its
    warnings, the allowlist rules, and the operations on the configuration in
    memory and on disk.  The YAML decoder is a parameter; a file is either what
    the program generated from a configuration or text from elsewhere.  Sample
    rates are the 64-bit floats of the language. *)
From stdpp Require Import base list gmap sorting.
From Stdlib Require Import ZArith Lia SpecFloat.
From S2P Require Import Prelude GoStrings GoTime GoNet GoUrl LogFormat AccessControl Settings Tracking.
Local Open Scope Z_scope.
Local Open Scope go_scope.

(** ** The allowlist *)

Record config_entry := mkEntry { ce_entry : AllowlistEntry; ce_Confirmed : bool }.
(** [IPMask.Size]: the ones of a mask. *)
Definition byte_ones (b : Z) : Z :=
  if b =? 255 then 8 else if b =? 254 then 7 else if b =? 252 then 6 else if b =? 248 then 5 else if b =? 240 then 4
  else if b =? 224 then 3 else if b =? 192 then 2 else if b =? 128 then 1 else 0.
Fixpoint mask_ones (mask : list Z) : Z :=
  match mask with
  | [] => 0
  | b :: rest => if b =? 255 then 8 + mask_ones rest else byte_ones b
  end.
Definition isOverlyBroadAllowlistRange (rawCIDR : gostr) : bool :=
  let cidr := TrimSpace rawCIDR in
  if (cidr =s []) || negb (GoStrings.Contains cidr (str "/")) then false
  else match ParseCIDR cidr with
       | None => false
       | Some (ip, ipnet) =>
           let ones := mask_ones (net_Mask ipnet) in
           match To4 ip with Some _ => ones <=? 7 | None => ones <=? 15 end
       end.
Definition validateAllowlist (entries : list config_entry) : list config_entry :=
  filter (fun e => (isOverlyBroadAllowlistRange (CIDR (ce_entry e)) && negb (ce_Confirmed e)) = false) entries.

(** ** The settings *)

Record ServerSettings := mkServer {
  Update_Branch : gostr; UpdateBranch : gostr; server_Tracking : TrackingConfig;
  Branding_Title : gostr; Branding_Tagline : gostr; server_Port : gostr; server_Address : gostr;
  Sitemap_MaxURLs : Z; Cache_Type : gostr; Cache_PoolSize : Z; DiskThreshold : Z; LogRetentionDays : Z;
  Database_Driver : gostr; Database_URL : gostr; Pool_MaxOpen : Z; Pool_MaxIdle : Z;
  Logging_Level : gostr; Mode : gostr; Allowlist : list config_entry }.
Record WebSettings := mkWeb {
  Keyservers : list gostr; CSP_Mode : gostr; HSTS_MaxAge : Z; NEL_MaxAge : Z;
  NEL_SampleRate : spec_float; CSP_ReportsSampleRate : spec_float;
  RateLimitPerMinute : Z; RateLimitPerIPBurst : Z; PermissionsPolicy : gmap gostr gostr }.
Record AppConfig := mkConfig { Server : ServerSettings; Web : WebSettings; CVE_Source : gostr }.

Definition float_zero : spec_float := S754_zero false.
Definition float_one : spec_float := S754_finite false 4503599627370496 (-52).

Definition DefaultPermissionsPolicy : gmap gostr gostr :=
  list_to_map ((fun p => (str p.1, str p.2)) <$>
    [("accelerometer", "()"); ("ambient-light-sensor", "()"); ("attribution-reporting", "()"); ("autoplay",
     "(self)"); ("battery", "()"); ("browsing-topics", "()"); ("camera", "()"); ("cross-origin-isolated", "()");
     ("display-capture", "()"); ("document-domain", "()"); ("encrypted-media", "(self)");
     ("execution-while-not-rendered", "()"); ("execution-while-out-of-viewport", "()"); ("fullscreen",
     "(self)"); ("hid", "()"); ("geolocation", "()"); ("gyroscope", "()"); ("interest-cohort", "()");
     ("idle-detection", "()"); ("keyboard-map", "()"); ("magnetometer", "()"); ("microphone", "()"); ("midi",
     "()"); ("navigation-override", "()"); ("payment", "(self)"); ("picture-in-picture", "(self)");
     ("publickey-credentials-get", "(self)"); ("screen-wake-lock", "()"); ("serial", "()"); ("storage-access",
     "(self)"); ("sync-xhr", "()"); ("usb", "()"); ("web-share", "(self)"); ("xr-spatial-tracking", "()")]%string).

Definition DefaultConfig : AppConfig :=
  mkConfig
    (mkServer (str "stable") (str "stable") (mkTracking [] [] []) (str "ipgaze") [] [] (str "[::]") 50000 (str "memory") 10
       90 7 (str "sqlite") [] 5 2 (str "warn") (str "production") [])
    (mkWeb [str "keys.openpgp.org"; str "keyserver.ubuntu.com"] [] 63072000 2592000 float_one float_one 60 10
       DefaultPermissionsPolicy)
    (str "https://services.nvd.nist.gov/rest/json/cves/2.0").

(** ** Validation *)

(** A value that passes its test is kept; another is replaced by the default,
    and [warnConfigReplaced] names its key. *)
Definition checked {A} (key : string) (ok : bool) (v d : A) : A * list gostr := if ok then (v, []) else (d, [str key]).
Definition cache_types : list gostr := str <$> ["none"; "memory"; "valkey"; "redis"]%string.
Definition drivers : list gostr := str <$> ["sqlite"; "sqlite2"; "sqlite3"; "libsql"; "turso"]%string.
Definition levels : list gostr := str <$> ["error"; "warn"; "info"; "debug"]%string.
Definition csp_modes : list gostr := [] :: (str <$> ["enforce"; "report-only"; "report_only"; "reportonly"]%string).

Section validation.
  Context `{UnicodeTables} `{Authority} `{UuidSyntax}.

Definition blank (s : gostr) : bool := TrimSpace s =s [].
(** The update channel: the nested setting, else the legacy one, else stable. *)
Definition canonical_branch (s : ServerSettings) : gostr :=
  let branch := if blank (Update_Branch s) then UpdateBranch s else Update_Branch s in
  let branch := if blank branch then str "stable" else branch in
  default (str "stable") (Normalize branch).
Definition validate_server (s : ServerSettings) : ServerSettings * list gostr :=
  let def := Server DefaultConfig in
  let branch := canonical_branch s in
  let '(tracking, err) := ValidateTracking (server_Tracking s) in
  let tracking := match err with None => tracking | Some _ => server_Tracking def end in
  let title := if blank (Branding_Title s) then str "ipgaze" else Branding_Title s in
  let '(maxURLs, w1) := checked "server.seo.sitemap.max_urls"
    (negb ((Sitemap_MaxURLs s <=? 0) || (50000 <? Sitemap_MaxURLs s))) (Sitemap_MaxURLs s) (Sitemap_MaxURLs def) in
  let '(cache, w2) := checked "server.cache.type" (bool_decide (Cache_Type s ∈ cache_types)) (Cache_Type s) (Cache_Type def) in
  let '(pool, w3) := checked "server.cache.pool_size" (negb (Cache_PoolSize s <? 1)) (Cache_PoolSize s) (Cache_PoolSize def) in
  let '(disk, w4) := checked "server.maintenance.cleanup.disk_threshold"
    (negb ((DiskThreshold s <? 1) || (100 <? DiskThreshold s))) (DiskThreshold s) (DiskThreshold def) in
  let '(days, w5) := checked "server.maintenance.cleanup.log_retention_days" (negb (LogRetentionDays s <? 1))
    (LogRetentionDays s) (LogRetentionDays def) in
  let '(driver, w6) := checked "server.database.driver" (bool_decide (Database_Driver s ∈ drivers))
    (Database_Driver s) (Database_Driver def) in
  let '(maxOpen, w7) := checked "server.database.pool.max_open" (negb (Pool_MaxOpen s <? 1)) (Pool_MaxOpen s) (Pool_MaxOpen def) in
  let '(maxIdle, w8) := checked "server.database.pool.max_idle" (negb ((Pool_MaxIdle s <? 1) || (maxOpen <? Pool_MaxIdle s)))
    (Pool_MaxIdle s) (Pool_MaxIdle def) in
  let '(level, w9) := checked "server.logging.level" (bool_decide (Logging_Level s ∈ levels)) (Logging_Level s) (Logging_Level def) in
  let '(mode, w10) := checked "server.mode" (Mode s <>s []) (Mode s) (Mode def) in
  (mkServer branch branch tracking title (Branding_Tagline s) (server_Port s) (server_Address s) maxURLs cache pool disk days
     driver (Database_URL s) maxOpen maxIdle level mode (validateAllowlist (Allowlist s)),
   w1 ++ w2 ++ w3 ++ w4 ++ w5 ++ w6 ++ w7 ++ w8 ++ w9 ++ w10).

Definition fraction (f : spec_float) : bool := negb (SFltb f float_zero || SFltb float_one f).
Definition validate_web (w : WebSettings) : WebSettings * list gostr :=
  let def := Web DefaultConfig in
  let '(keys, w1) := checked "web.security.keyservers" (negb (bool_decide (Keyservers w = []))) (Keyservers w) (Keyservers def) in
  let '(mode, w2) := checked "web.csp.mode" (bool_decide (ToLower (TrimSpace (CSP_Mode w)) ∈ csp_modes)) (CSP_Mode w) (CSP_Mode def) in
  let '(hsts, w3) := checked "web.hsts.max_age_seconds" (negb (HSTS_MaxAge w <? 1)) (HSTS_MaxAge w) (HSTS_MaxAge def) in
  let '(nel, w4) := checked "web.headers.nel.max_age_seconds" (negb (NEL_MaxAge w <? 1)) (NEL_MaxAge w) (NEL_MaxAge def) in
  let '(rate, w5) := checked "web.headers.nel.sample_rate" (fraction (NEL_SampleRate w)) (NEL_SampleRate w) (NEL_SampleRate def) in
  let '(csp_rate, w6) := checked "web.csp.reports_sample_rate" (fraction (CSP_ReportsSampleRate w))
    (CSP_ReportsSampleRate w) (CSP_ReportsSampleRate def) in
  let '(minute, w7) := checked "web.reports.rate_limit_per_minute" (negb (RateLimitPerMinute w <? 1))
    (RateLimitPerMinute w) (RateLimitPerMinute def) in
  let '(burst, w8) := checked "web.reports.rate_limit_per_ip_burst" (negb (RateLimitPerIPBurst w <? 1))
    (RateLimitPerIPBurst w) (RateLimitPerIPBurst def) in
  let policy := if decide (PermissionsPolicy w = ∅) then PermissionsPolicy def else PermissionsPolicy w in
  (mkWeb keys mode hsts nel rate csp_rate minute burst policy, w1 ++ w2 ++ w3 ++ w4 ++ w5 ++ w6 ++ w7 ++ w8).
Definition validate_source (source : gostr) : gostr * list gostr :=
  checked "data.cve.source" (source <>s []) source (CVE_Source DefaultConfig).
(** [validateConfig]: the warnings are those of the server, web and data settings. *)
Definition validateConfig (cfg : AppConfig) : AppConfig * list gostr :=
  let '(s, ws) := validate_server (Server cfg) in
  let '(w, ww) := validate_web (Web cfg) in
  let '(source, wd) := validate_source (CVE_Source cfg) in
  (mkConfig s w source, ws ++ ww ++ wd).

(** ** Loading and saving *)

Record config_env := mkEnv {
  APPLICATION_NAME : gostr; APPLICATION_TAGLINE : gostr; PORT : gostr; LISTEN : gostr;
  DATABASE_DRIVER : gostr; DATABASE_URL : gostr }.
Definition override (v old : gostr) : gostr := if v =s [] then old else v.
Definition applyRuntimeDatabaseEnv (env : config_env) (cfg : AppConfig) : AppConfig :=
  let s := Server cfg in
  mkConfig (mkServer (Update_Branch s) (UpdateBranch s) (server_Tracking s) (Branding_Title s) (Branding_Tagline s)
              (server_Port s) (server_Address s) (Sitemap_MaxURLs s) (Cache_Type s) (Cache_PoolSize s) (DiskThreshold s)
              (LogRetentionDays s) (override (DATABASE_DRIVER env) (Database_Driver s))
              (override (DATABASE_URL env) (Database_URL s)) (Pool_MaxOpen s) (Pool_MaxIdle s) (Logging_Level s) (Mode s)
              (Allowlist s)) (Web cfg) (CVE_Source cfg).
(** The settings a first run takes from the environment. *)
Definition seed_env (env : config_env) (cfg : AppConfig) : AppConfig :=
  let s := Server cfg in
  mkConfig (mkServer (Update_Branch s) (UpdateBranch s) (server_Tracking s)
              (override (APPLICATION_NAME env) (Branding_Title s)) (override (APPLICATION_TAGLINE env) (Branding_Tagline s))
              (override (PORT env) (server_Port s)) (override (LISTEN env) (server_Address s)) (Sitemap_MaxURLs s)
              (Cache_Type s) (Cache_PoolSize s) (DiskThreshold s) (LogRetentionDays s) (Database_Driver s) (Database_URL s)
              (Pool_MaxOpen s) (Pool_MaxIdle s) (Logging_Level s) (Mode s) (Allowlist s)) (Web cfg) (CVE_Source cfg).

Inductive config_file := Generated (cfg : AppConfig) | Text (content : gostr).
Inductive config_error := CreateFailed | ReadFailed | ParseFailed | NotLoaded | WriteFailed.
Record store := mkStore { current : option AppConfig; configPath : gostr; files : gmap gostr config_file }.
(** How [os.WriteFile] goes: it writes the text; the file (or its directory) cannot be
    opened; or the file is emptied and some text is left of a write that fails. *)
Inductive write_outcome := WriteOk | NotOpened | CutOff (rest : gostr).
Record access := mkAccess { writing : write_outcome; can_read : bool; can_rename : bool }.
(** [yaml.Unmarshal] of a file over the defaults. *)
Variable decode : config_file -> option AppConfig.

Definition migrateYamlToYml (a : access) (path : gostr) (fs : gmap gostr config_file) : gmap gostr config_file :=
  if negb (HasSuffix path (str ".yml")) then fs
  else
    let yamlPath := TrimSuffix path (str ".yml") ++ str ".yaml" in
    match fs !! yamlPath, fs !! path with
    | Some f, None => if can_rename a then <[path := f]> (delete yamlPath fs) else fs
    | _, _ => fs
    end.
Definition saveConfig (a : access) (cfg : AppConfig) (path : gostr) (fs : gmap gostr config_file)
    : gmap gostr config_file * option config_error :=
  match writing a with
  | WriteOk => (<[path := Generated cfg]> fs, None)
  | NotOpened => (fs, Some WriteFailed)
  | CutOff rest => (<[path := Text rest]> fs, Some WriteFailed)
  end.
(** Reading, decoding and validating a file that exists. *)
Definition read_config (a : access) (path : gostr) (fs : gmap gostr config_file) : result config_error AppConfig :=
  match fs !! path with
  | None => Err ReadFailed
  | Some f =>
      if negb (can_read a) then Err ReadFailed
      else match decode f with None => Err ParseFailed | Some cfg => Ok (validateConfig cfg).1 end
  end.
Definition LoadConfigFromFile (a : access) (env : config_env) (path : gostr) (st : store)
    : store * result config_error AppConfig :=
  let fs := migrateYamlToYml a path (files st) in
  match fs !! path with
  | None =>
      let cfg := seed_env env DefaultConfig in
      match saveConfig a cfg path fs with
      | (fs', Some _) => (mkStore (current st) path fs', Err CreateFailed)
      | (fs', None) => let cfg' := applyRuntimeDatabaseEnv env cfg in (mkStore (Some cfg') path fs', Ok cfg')
      end
  | Some _ =>
      match read_config a path fs with
      | Err e => (mkStore (current st) path fs, Err e)
      | Ok cfg => let cfg' := applyRuntimeDatabaseEnv env cfg in (mkStore (Some cfg') path fs, Ok cfg')
      end
  end.
Definition getCurrentConfig (st : store) : AppConfig := default DefaultConfig (current st).
Definition SaveConfigToFile (a : access) (st : store) : store * option config_error :=
  match current st with
  | None => (st, Some NotLoaded)
  | Some cfg =>
      if configPath st =s [] then (st, Some NotLoaded)
      else match saveConfig a cfg (configPath st) (files st) with
           | (fs, err) => (mkStore (current st) (configPath st) fs, err)
           end
  end.
Definition reloadConfigFromFile (a : access) (st : store) : store * option config_error :=
  if configPath st =s [] then (st, Some NotLoaded)
  else match read_config a (configPath st) (files st) with
       | Ok cfg => (mkStore (Some cfg) (configPath st) (files st), None)
       | Err e => (st, Some e)
       end.
(** [loadConfigFromFile] of the reload watcher: decoded, not validated. *)
Definition loadConfigFromFile (a : access) (path : gostr) (fs : gmap gostr config_file) : option AppConfig :=
  match fs !! path with Some f => if can_read a then decode f else None | None => None end.
End validation.

(** ** What validation guarantees *)

Section validity.
  Context `{UnicodeTables} `{Authority} `{UuidSyntax}.

(** Every setting in its documented range; [idle_bound] is what the idle pool
    may be for a given pool. *)
Record valid_server (idle_bound : Z -> Z) (s : ServerSettings) : Prop := {
  ok_branch : Update_Branch s ∈ [str "stable"; str "beta"; str "devel"] /\ UpdateBranch s = Update_Branch s;
  ok_tracking : exists t, ValidateTracking t = (server_Tracking s, None);
  ok_title : TrimSpace (Branding_Title s) <> [];
  ok_sitemap : 1 <= Sitemap_MaxURLs s <= 50000;
  ok_cache : Cache_Type s ∈ cache_types /\ 1 <= Cache_PoolSize s;
  ok_cleanup : 1 <= DiskThreshold s <= 100 /\ 1 <= LogRetentionDays s;
  ok_driver : Database_Driver s ∈ drivers;
  ok_pool : 1 <= Pool_MaxOpen s /\ 1 <= Pool_MaxIdle s <= idle_bound (Pool_MaxOpen s);
  ok_level : Logging_Level s ∈ levels;
  ok_mode : Mode s <> [];
  ok_allowlist : Forall (fun e => isOverlyBroadAllowlistRange (CIDR (ce_entry e)) = true -> ce_Confirmed e = true) (Allowlist s) }.
Record valid_web (w : WebSettings) : Prop := {
  ok_keyservers : Keyservers w <> [];
  ok_csp : ToLower (TrimSpace (CSP_Mode w)) ∈ csp_modes;
  ok_ages : 1 <= HSTS_MaxAge w /\ 1 <= NEL_MaxAge w;
  ok_rates : fraction (NEL_SampleRate w) = true /\ fraction (CSP_ReportsSampleRate w) = true;
  ok_reports : 1 <= RateLimitPerMinute w /\ 1 <= RateLimitPerIPBurst w;
  ok_policy : PermissionsPolicy w <> ∅ }.
Definition valid_config (idle_bound : Z -> Z) (cfg : AppConfig) : Prop :=
  valid_server idle_bound (Server cfg) /\ valid_web (Web cfg) /\ CVE_Source cfg <> [].

Lemma checked_inv {A} key ok (v d x : A) w : checked key ok v d = (x, w) -> (ok = true /\ x = v) \/ x = d.
Proof. unfold checked. destruct ok; intros [= <- _]; auto. Qed.
Lemma canonical_branch_ok s : canonical_branch s ∈ [str "stable"; str "beta"; str "devel"].
Proof.
  unfold canonical_branch, Normalize. set (b := ToLower _).
  repeat (case_bool_decide; cbn; [set_solver|]). set_solver.
Qed.
Lemma trimmed_constant : TrimSpace (str "ipgaze") <> [] /\ ValidateTracking (mkTracking [] [] []) = (mkTracking [] [] [], None).
Proof. split; [by vm_compute|]. unfold ValidateTracking. cbn. done. Qed.
Lemma allowlist_ok es :
  Forall (fun e => isOverlyBroadAllowlistRange (CIDR (ce_entry e)) = true -> ce_Confirmed e = true) (validateAllowlist es).
Proof.
  apply Forall_forall. intros e [He _]%list_elem_of_filter Hb. rewrite Hb in He. cbn in He. by apply negb_false_iff in He.
Qed.

(** Names the results of the checks of a validation and what each says. *)
Ltac name_checks :=
  repeat match goal with
    |- context[let '(_, _) := checked ?k ?ok ?v ?d in _] =>
      let x := fresh "x" in let w := fresh "w" in let E := fresh "E" in
      destruct (checked k ok v d) as [x w] eqn:E; apply checked_inv in E
    end.
(** A fact about one checked setting, from the test or from its default. *)
Ltac from_check :=
  repeat match goal with H : (_ = true /\ ?x = _) \/ ?x = _ |- context[?x] => destruct H as [[H ->] | ->] end;
  rewrite ?negb_true_iff, ?orb_false_iff, ?bool_decide_eq_true, ?bool_decide_eq_false in *;
  try (cbn; lia); try done; try (apply (bool_decide_unpack _); vm_compute; exact I).

Lemma validate_server_ok s : valid_server (Z.max 2) (validate_server s).1.
Proof.
  unfold validate_server. destruct (ValidateTracking (server_Tracking s)) as [t err] eqn:Et. name_checks.
  constructor; cbn [Update_Branch UpdateBranch server_Tracking Branding_Title Sitemap_MaxURLs Cache_Type Cache_PoolSize
    DiskThreshold LogRetentionDays Database_Driver Pool_MaxOpen Pool_MaxIdle Logging_Level Mode Allowlist fst].
  - split; [apply canonical_branch_ok|done].
  - destruct err; [exists (mkTracking [] [] []); exact (proj2 trimmed_constant)|eauto].
  - unfold blank. destruct (TrimSpace (Branding_Title s) =s []) eqn:B; [exact (proj1 trimmed_constant)|by apply bool_decide_eq_false in B].
  - from_check.
  - split; from_check.
  - split; from_check.
  - from_check.
  - split; [|split]; from_check; cbn in *; lia.
  - from_check.
  - from_check.
  - apply allowlist_ok.
Qed.
Lemma default_policy : DefaultPermissionsPolicy <> ∅.
Proof. apply (bool_decide_eq_false_1 (DefaultPermissionsPolicy = ∅)). vm_compute. reflexivity. Qed.
Lemma validate_web_ok w : valid_web (validate_web w).1.
Proof.
  unfold validate_web. name_checks.
  constructor; cbn [Keyservers CSP_Mode HSTS_MaxAge NEL_MaxAge NEL_SampleRate CSP_ReportsSampleRate RateLimitPerMinute
    RateLimitPerIPBurst PermissionsPolicy fst].
  - from_check.
  - from_check.
  - split; from_check.
  - split; from_check.
  - split; from_check.
  - destruct (decide (PermissionsPolicy w = ∅)); [exact default_policy|done].
Qed.

Lemma checked_pass {A} key ok (v d : A) : ok = true -> checked key ok v d = (v, []).
Proof. by intros ->. Qed.
Lemma validateAllowlist_id es :
  Forall (fun e => isOverlyBroadAllowlistRange (CIDR (ce_entry e)) = true -> ce_Confirmed e = true) es -> validateAllowlist es = es.
Proof.
  intros Hf. unfold validateAllowlist. apply filter_all. intros e He. rewrite Forall_forall in Hf. specialize (Hf e He).
  destruct (isOverlyBroadAllowlistRange _); [by rewrite Hf|done].
Qed.
Lemma canonical_branch_id s :
  Update_Branch s ∈ [str "stable"; str "beta"; str "devel"] -> canonical_branch s = Update_Branch s.
Proof.
  intros Hb. unfold canonical_branch. rewrite !elem_of_cons in Hb.
  destruct Hb as [-> | [-> | [-> | []%not_elem_of_nil]]]; reflexivity.
Qed.
(** Passes the next check of a validation, whose test holds. *)
Ltac pass_check :=
  rewrite checked_pass by
    (rewrite ?negb_true_iff, ?orb_false_iff, ?bool_decide_eq_true, ?bool_decide_eq_false; first [done | lia]).

Lemma validate_server_id s :
  valid_server id s -> ValidateTracking (server_Tracking s) = (server_Tracking s, None) ->
  validate_server s = (s, []).
Proof.
  intros [[Hb Hb'] _ Ht Hm [Hc Hp] [Hd Hl] Hdr [Ho Hi] Hlv Hmo Ha] Htr. unfold validate_server. rewrite Htr.
  rewrite canonical_branch_id by done. unfold blank. rewrite (bool_decide_eq_false_2 _ Ht). unfold id in Hi.
  repeat pass_check. rewrite validateAllowlist_id by done. destruct s; cbn in *; subst. done.
Qed.
Lemma validate_web_id w : valid_web w -> validate_web w = (w, []).
Proof.
  intros [Hk Hc [Hh Hn] [Hr Hr'] [Hm Hb] Hp]. unfold validate_web. repeat pass_check.
  rewrite decide_False by done. by destruct w.
Qed.
Lemma validateConfig_valid cfg : valid_config (Z.max 2) (validateConfig cfg).1.
Proof.
  unfold validateConfig, validate_source. pose proof (validate_server_ok (Server cfg)) as Hs.
  pose proof (validate_web_ok (Web cfg)) as Hw.
  destruct (validate_server _) as [s ws], (validate_web _) as [w ww]. name_checks. split; [done|]. split; [done|]. cbn.
  from_check.
Qed.
(** Whatever the file says, the validated configuration has every setting in
    its documented range (the idle pool within the larger of the pool and its
    default of 2), and a configuration that is already in range, with a
    normalised analytics provider, is left as it is without a warning. *)
Theorem validateConfig_normalises cfg :
  valid_config (Z.max 2) (validateConfig cfg).1 /\
  (valid_config id cfg -> ValidateTracking (server_Tracking (Server cfg)) = (server_Tracking (Server cfg), None) ->
   validateConfig cfg = (cfg, [])).
Proof.
  split; [apply validateConfig_valid|].
  unfold validateConfig, validate_source. intros (Hs & Hw & Hc) Ht. rewrite validate_server_id, validate_web_id by done. pass_check. by destruct cfg.
Qed.
End validity.

Lemma validateConfig_normalises_witness :
  validateConfig (H := ascii_tables) (H0 := plain_authority) (H1 := no_uuid) DefaultConfig = (DefaultConfig, []).
Proof.
  apply (validateConfig_normalises (H := ascii_tables) (H0 := plain_authority) (H1 := no_uuid) DefaultConfig);
    [|vm_compute; reflexivity].
  split; [|split]; [constructor|constructor|].
  all: try (apply (bool_decide_unpack _); vm_compute; exact I).
  all: try (split; try (apply (bool_decide_unpack _); vm_compute; exact I)).
  all: cbn; try lia; try done.
  by exists (mkTracking [] [] []).
Defined.

(** ** What an allowlist entry may cover *)

Lemma broad_head mask : mask_ones mask <=? 7 = false -> exists rest, mask = 255 :: rest.
Proof.
  destruct mask as [|b rest]; cbn; [done|]. destruct (b =? 255) eqn:E; [apply Z.eqb_eq in E as ->; eauto|].
  unfold byte_ones. rewrite E. by repeat destruct (b =? _).
Qed.
Lemma head_contained n a b c d :
  length (net_IP n) = 4%nat -> length (net_Mask n) = 4%nat -> hd 0 (net_Mask n) = 255 -> is_byte a ->
  IPNet_Contains n (IPv4 a b c d) = true -> a = Z.land (hd 0 (net_IP n)) 255.
Proof.
  destruct n as [nn m]. cbn [net_IP net_Mask]. intros Hn Hm Hh Ha Hc. rewrite Contains_IPv4 in Hc by done. apply bool_decide_eq_true in Hc.
  destruct nn as [|x nn], m as [|y m]; try done. cbn in *. subst y. injection Hc. intros _ E.
  by rewrite (land_255 a Ha) in E.
Qed.
Lemma addr_kind_elem s k : addr_kind s = Some k -> k ∈ s.
Proof.
  induction s as [|c s IH]; [done|]. cbn. case_bool_decide; [intros [= ->]; by left|]. intros Hk. right. auto.
Qed.
Lemma IP_Mask_v4 b m : length b = 4%nat -> length m = 4%nat -> IP_Mask (v4InV6Prefix ++ b) m = Some (and_bytes b m).
Proof.
  intros Hb Hm. destruct b as [|b0 [|b1 [|b2 [|b3 [|]]]]], m as [|m0 [|m1 [|m2 [|m3 [|]]]]]; try done.
Qed.
(** An entry without a colon denotes an IPv4 network. *)
Lemma ParseCIDR_v4 s ip n : ":"%char ∉ s -> ParseCIDR s = Some (ip, n) ->
  is_Some (To4 ip) /\ length (net_IP n) = 4%nat /\ exists ones, net_Mask n = cidr_mask ones 4.
Proof.
  intros Hs Hp. unfold ParseCIDR in Hp. destruct (IndexByte s "/") as [i|] eqn:Ei; [|done].
  destruct (ParseAddr (take i s)) as [[b|b z]|] eqn:Ea; [|exfalso|done].
  - destruct (dtoi_all _) as [k|]; [|done]. destruct (32 <? k); [done|].
    apply fmap_Some in Hp as (nip & Hm & [= -> ->]). pose proof (ParseAddr_wf _ _ Ea) as [Hl _].
    split; [destruct b as [|b0 [|b1 [|b2 [|b3 [|]]]]]; try done; eexists; apply To4_IPv4|]. cbn [net_IP net_Mask].
    split; [|eauto]. rewrite IP_Mask_v4 in Hm by done. injection Hm as <-.
    unfold and_bytes. by rewrite length_zip_with, Hl.
  - unfold ParseAddr in Ea. destruct (addr_kind (take i s)) as [k|] eqn:Ek; [|done].
    pose proof (addr_kind_elem _ _ Ek) as Hk. apply Hs.
    assert (k = ":"%char) as ->; [|rewrite <-(take_drop i s); apply elem_of_app; by left].
    destruct k as [[] [] [] [] [] [] [] []]; try discriminate Ea; try done. by destruct (parseIPv4Fields _).
Qed.

Lemma Contains_one s c : GoStrings.Contains s [c] = false -> c ∉ s.
Proof. intros Hf Hin. apply list_elem_of_split in Hin as (x & y & ->). rewrite Contains_false in Hf. by apply (Hf x y). Qed.
(** A single IPv4 address is a network of itself. *)
Lemma ParseCIDR_single s ip n : "/"%char ∉ s -> ":"%char ∉ s -> ParseCIDR (s ++ str "/32") = Some (ip, n) -> hd 0 (net_Mask n) = 255.
Proof.
  intros Hs Hc Hp. unfold ParseCIDR in Hp. change (str "/32") with ("/"%char :: str "32") in Hp.
  rewrite IndexByte_first in Hp by done. rewrite take_app_length in Hp.
  replace (drop (S (length s)) (s ++ "/"%char :: str "32")) with (str "32") in Hp
    by (rewrite (drop_app_ge s) by lia; by replace (S (length s) - length s)%nat with 1%nat by lia).
  change (dtoi_all (str "32")) with (Some 32) in Hp. cbn [Z.ltb Z.compare] in Hp.
  destruct (ParseAddr s) as [[b|b z]|] eqn:Ea; [| |done].
  - apply fmap_Some in Hp as (nip & _ & [= _ ->]). done.
  - exfalso. unfold ParseAddr in Ea. destruct (addr_kind s) as [k|] eqn:Ek; [|done].
    pose proof (addr_kind_elem _ _ Ek) as Hk.
    destruct k as [[] [] [] [] [] [] [] []]; try discriminate Ea; try done. by destruct (parseIPv4Fields _).
Qed.
(** An entry of the allowlist that the operator did not confirm and that is
    written as an IPv4 address or range admits addresses of one first octet
    only, after validation: it cannot switch off the access rules for the
    internet at large. *)
Theorem allowlist_narrow es e a b c d a' b' c' d' :
  e ∈ validateAllowlist es -> ce_Confirmed e = false -> ":"%char ∉ TrimSpace (CIDR (ce_entry e)) -> is_byte a -> is_byte a' ->
  Allowlist_Contains (NewAllowlistLookup [ce_entry e]) (IPv4 a b c d) = true ->
  Allowlist_Contains (NewAllowlistLookup [ce_entry e]) (IPv4 a' b' c' d') = true -> a = a'.
Proof.
  intros He Hc Hcol Ha Ha'. pose proof (allowlist_ok es) as Hok. rewrite Forall_forall in Hok. specialize (Hok e He).
  unfold isOverlyBroadAllowlistRange in Hok. unfold Allowlist_Contains, NewAllowlistLookup, list_contains.
  cbn [omap list_omap nets singles]. set (cidr := TrimSpace (CIDR (ce_entry e))) in *. destruct (cidr =s []); [done|].
  set (full := if negb (GoStrings.Contains cidr (str "/")) then _ else cidr).
  assert (":"%char ∉ full /\ (forall ip n, ParseCIDR full = Some (ip, n) -> hd 0 (net_Mask n) = 255)) as [Hfull Hh].
  { unfold full. destruct (GoStrings.Contains cidr (str "/")) eqn:Es; cbn [negb].
    - split; [done|]. intros ip n Ep. cbn [orb negb] in Hok. rewrite Ep in Hok.
      destruct (ParseCIDR_v4 _ _ _ Hcol Ep) as ([v4 H4] & _). rewrite H4 in Hok.
      destruct (mask_ones (net_Mask n) <=? 7) eqn:Eb; [by rewrite Hok in Hc|]. by destruct (broad_head _ Eb) as [rest ->].
    - destruct (GoStrings.Contains cidr (str ":")) eqn:Ec.
      { apply Contains_true in Ec as (x & y & Ec). exfalso. apply Hcol. rewrite Ec. cbn. set_solver. }
      split; [|intros ip n; apply ParseCIDR_single; [by apply Contains_one|done]].
      intros [Hx|Hx]%elem_of_app; [done|]. apply (bool_decide_pack _) in Hx. by vm_compute in Hx. }
  destruct (ParseCIDR full) as [[ip n]|] eqn:Ep; [|done].
  destruct (ParseCIDR_v4 _ _ _ Hfull Ep) as (_ & Hip & ones & Hm). specialize (Hh _ _ eq_refl).
  cbn [fmap option_fmap option_map snd existsb]. rewrite !orb_false_r.
  destruct (IPNet_Contains n (IPv4 a b c d)) eqn:H1, (IPNet_Contains n (IPv4 a' b' c' d')) eqn:H2; try done. intros _ _.
  assert (length (net_Mask n) = 4%nat) as Hl by by rewrite Hm.
  by rewrite (head_contained _ _ _ _ _ Hip Hl Hh Ha H1), (head_contained _ _ _ _ _ Hip Hl Hh Ha' H2).
Qed.
Definition entry (cidr : string) (confirmed : bool) : config_entry :=
  mkEntry {| CIDR := str cidr; Description := [] |} confirmed.
Lemma allowlist_narrow_witness :
  validateAllowlist [entry "0.0.0.0/0" false; entry "10.0.0.0/8" false] = [entry "10.0.0.0/8" false] /\
  forall b c d, Allowlist_Contains (NewAllowlistLookup [ce_entry (entry "10.0.0.0/8" false)]) (IPv4 11 b c d) = true -> 10 = 11.
Proof.
  split; [vm_compute; reflexivity|]. intros b c d Hx.
  apply (allowlist_narrow [entry "10.0.0.0/8" false] (entry "10.0.0.0/8" false) 10 0 0 1 11 b c d);
    [vm_compute; left|reflexivity|apply (bool_decide_unpack _); vm_compute; exact I|unfold is_byte; lia|unfold is_byte; lia|vm_compute; reflexivity|exact Hx].
Defined.

(** ** The configuration in force *)

Section loading.
  Context `{UnicodeTables} `{Authority} `{UuidSyntax}.
  Variable decode : config_file -> option AppConfig.

Lemma read_config_valid a path fs cfg : read_config decode a path fs = Ok cfg -> valid_config (Z.max 2) cfg.
Proof.
  unfold read_config. destruct (fs !! path) as [f|]; [|done]. destruct (can_read a); [|done]. cbn.
  destruct (decode f) as [c|]; [|done]. intros [= <-]. apply validateConfig_valid.
Qed.
(** The files after an error: as before, but for the one that was being written. *)
Definition only_cut_off (a : access) (path : gostr) (fs fs' : gmap gostr config_file) : Prop :=
  fs' = fs \/ exists rest, writing a = CutOff rest /\ fs' = <[path := Text rest]> fs.
(** A configuration read from a file is in force only when it could be read
    and decoded, and then validated, up to the database settings the environment
    overrides; a load, a reload or a save that fails leaves the configuration in
    force as it was, and the files too, apart from the renaming of an old
    configuration file and from a file that is cut off while it is written. *)
Theorem configuration_in_force a env path st :
  (let '(st', r) := LoadConfigFromFile decode a env path st in
   match r with
   | Ok cfg => current st' = Some cfg /\
               (is_Some (migrateYamlToYml a path (files st) !! path) ->
                exists base, valid_config (Z.max 2) base /\ cfg = applyRuntimeDatabaseEnv env base)
   | Err _ => current st' = current st /\
              only_cut_off a path (migrateYamlToYml a path (files st)) (files st')
   end) /\
  (let '(st', err) := reloadConfigFromFile decode a st in
   match err with
   | None => exists cfg, current st' = Some cfg /\ valid_config (Z.max 2) cfg /\ files st' = files st
   | Some _ => st' = st
   end) /\
  (let '(st', err) := SaveConfigToFile a st in
   match err with
   | None => current st' = current st /\
             exists cfg, current st = Some cfg /\ files st' = <[configPath st := Generated cfg]> (files st)
   | Some _ => current st' = current st /\ only_cut_off a (configPath st) (files st) (files st')
   end).
Proof.
  split; [|split].
  - unfold LoadConfigFromFile, saveConfig. destruct (migrateYamlToYml a path (files st) !! path) as [f|] eqn:Ef.
    + destruct (read_config _ _ _ _) as [cfg|er] eqn:Er; [|split; [done|by left]]. split; [done|]. intros _. apply read_config_valid in Er. eauto.
    + unfold only_cut_off. destruct (writing a); cbn; [|by eauto..]. split; [done|]. by intros [? [=]].
  - unfold reloadConfigFromFile. destruct (configPath st =s []); [done|].
    destruct (read_config _ _ _ _) as [cfg|er] eqn:Er; [|done]. apply read_config_valid in Er. eauto.
  - unfold SaveConfigToFile, saveConfig. unfold only_cut_off. destruct st as [[cfg|] p fs]; [|cbn; by eauto]. cbn. destruct (p =s []); [cbn; by eauto|].
    destruct (writing a); cbn; by eauto 6.
Qed.
End loading.

(** ** Texts of the generated file *)

Section formatting.
  Context `{UnicodeTables} `{PrintTable}.
Definition nl : gostr := ["010"%char].
Definition bool_text (b : bool) : gostr := str (if b then "true" else "false").
Definition formatAllowlist (entries : list config_entry) : gostr :=
  if decide (entries = []) then str "    allowlist: []" ++ nl
  else str "    allowlist:" ++ nl ++
       (entries ≫= fun e => str "      - cidr: " ++ Quote (CIDR (ce_entry e)) ++ nl
                            ++ str "        description: " ++ Quote (Description (ce_entry e)) ++ nl).
Definition formatTaskOverride (name schedule : gostr) (enabled : option bool) : gostr :=
  str "      " ++ name ++ str ":" ++ nl ++ str "        schedule: " ++ Quote schedule ++ nl
  ++ match enabled with Some b => str "        enabled: " ++ bool_text b ++ nl | None => [] end.
Definition task_names : list gostr :=
  str <$> ["ssl_renewal"; "geoip_update"; "blocklist_update"; "threat_update"; "cve_update"; "update_check"; "token_cleanup";
           "log_rotation"; "backup_daily"; "backup_hourly"; "healthcheck_self"; "tor_health"]%string.
Definition formatScheduleTasks (t : gostr -> gostr * option bool) : gostr :=
  TrimRight (task_names ≫= fun n => formatTaskOverride n (t n).1 (t n).2) nl.
Definition formatAIBotsDefault (value : gostr) : gostr := str (if denies value then "deny" else "allow").
(** The lines of [formatAIBotsMap] before they are printed. *)
Definition ai_bot_lines (bots : gmap gostr gostr) : list (gostr * gostr) :=
  let bots := if decide (bots = ∅) then DefaultAIBots else bots in
  ((fun n => (n, formatAIBotsDefault (default (str "allow") (bots !! n)))) <$> KnownAIBots) ++
  ((fun n => (n, formatAIBotsDefault (default [] (bots !! n)))) <$>
     merge_sort str_le (filter (fun n => n ∉ KnownAIBots) (fst <$> map_to_list bots))).
Definition formatAIBotsMap (bots : gmap gostr gostr) : gostr :=
  Join ((fun kv => str "        " ++ kv.1 ++ str ": " ++ kv.2) <$> ai_bot_lines bots) nl.
Definition formatPermissionsPolicy (features : gmap gostr gostr) : gostr :=
  let features := if decide (features = ∅) then DefaultPermissionsPolicy else features in
  let names := merge_sort str_le (fst <$> map_to_list features) in
  Join ((fun n => str "    " ++ n ++ str ": " ++ quoted_field (default [] (features !! n))) <$> names) nl.
Definition formatStringSlice (s : list gostr) : gostr :=
  if decide (s = []) then str "[]" else str "[" ++ Join (quoted_field <$> s) (str ", ") ++ str "]".
Definition formatCountryPresets (presets : gmap gostr (list gostr)) : gostr :=
  if decide (presets = ∅) then str "{}"
  else str "{" ++ Join ((fun n => quoted_field n ++ str ": " ++ formatStringSlice (default [] (presets !! n)))
                          <$> merge_sort str_le (fst <$> map_to_list presets)) (str ", ") ++ str "}".

(** [Sanitized], a configuration being its settings by path: the values that
    are replaced by a mask. *)
Definition redacted : list gostr :=
  str <$> ["server.token"; "server.metrics.auth.tokens.prometheus"; "server.metrics.auth.tokens.grafana";
           "server.metrics.auth.tokens.loki"; "server.database.token"; "server.security.encryption_key";
           "server.security.previous_encryption_key";
           "server.ssl.letsencrypt.dns_credentials.credentials_encrypted"]%string.
Definition Sanitized (cfg : gostr -> gostr) (path : gostr) : gostr :=
  if bool_decide (path ∈ redacted) && (cfg path <>s []) then str "xxxxx" else cfg path.

(** ** Limits of the code *)

(** A saved allowlist does not say which entries were confirmed: after a save a
    confirmed broad range is refused by the next load. *)
Lemma saved_allowlist_unconfirmed c b : formatAllowlist [entry c b] = formatAllowlist [entry c false].
Proof. reflexivity. Qed.
(** A saved crawler policy allows the known crawlers it does not name, whatever
    the default said. *)
Lemma saved_bots_allowed :
  let c := mkBots (str "deny") {[str "OtherBot" := str "allow"]} in
  IsAIBotDenied c (str "GPTBot") = true /\ (str "GPTBot", str "allow") ∈ ai_bot_lines (bots_Bots c).
Proof. split; [vm_compute; reflexivity|]. apply (bool_decide_unpack _). vm_compute. exact I. Qed.
End formatting.

(** Passwords and webhook secrets are shown by the debug endpoint. *)
Lemma secrets_not_redacted cfg p :
  p ∈ str <$> ["server.cache.password"; "server.notifications.email.smtp.password"; "server.backup.encryption.encryption_password";
               "server.contact.admin.webhooks.slack_secret"]%string -> Sanitized cfg p = cfg p.
Proof.
  intros Hp. unfold Sanitized. rewrite bool_decide_eq_false_2; [done|]. revert p Hp. apply Forall_forall.
  apply (bool_decide_unpack _). vm_compute. exact I.
Qed.
(** An IPv4 range in its IPv6 form is measured as IPv6: the range of all IPv4
    addresses passes without confirmation, and admits every one. *)
Lemma mapped_range_passes a b c d :
  validateAllowlist [entry "::ffff:0.0.0.0/96" false] = [entry "::ffff:0.0.0.0/96" false] /\
  Allowlist_Contains (NewAllowlistLookup [ce_entry (entry "::ffff:0.0.0.0/96" false)]) (IPv4 a b c d) = true.
Proof.
  split; [vm_compute; reflexivity|].
  assert (NewAllowlistLookup [ce_entry (entry "::ffff:0.0.0.0/96" false)] =
          {| nets := [ {| net_IP := IPv4 0 0 0 0; net_Mask := cidr_mask 96 16 |} ]; singles := [] |}) as ->
    by (vm_compute; reflexivity).
  unfold Allowlist_Contains, list_contains, IPNet_Contains, networkNumberAndMask.
  rewrite bool_decide_eq_false_2 by done. cbn [nets singles existsb net_IP net_Mask]. rewrite !To4_IPv4. cbn.
  rewrite !Z.land_0_r. done.
Qed.
Section limits.
  Context `{UnicodeTables} `{Authority} `{UuidSyntax}.
Definition with_pool (maxOpen maxIdle : Z) (cache : gostr) : ServerSettings :=
  mkServer (str "stable") (str "stable") (mkTracking [] [] []) (str "x") [] [] [] 1 cache 1 1 1 (str "sqlite") []
    maxOpen maxIdle (str "warn") (str "production") [].
(** An idle pool above the pool is replaced by 2, also when the pool is 1. *)
Lemma idle_above_pool : Pool_MaxOpen (validate_server (with_pool 1 5 (str "none"))).1 = 1 /\
  Pool_MaxIdle (validate_server (with_pool 1 5 (str "none"))).1 = 2.
Proof. split; reflexivity. Qed.
(** The documented memcache backend is replaced by the memory cache. *)
Lemma memcache_replaced : Cache_Type (validate_server (with_pool 5 2 (str "memcache"))).1 = str "memory".
Proof. reflexivity. Qed.
(** The database settings of the environment reach the disk with the next save,
    and are gone from memory after a reload. *)
Lemma environment_saved decode a env path st cfg :
  LoadConfigFromFile decode a env path st = (mkStore (Some cfg) path (files st), Ok cfg) -> path <> [] ->
  DATABASE_URL env <> [] -> writing a = WriteOk ->
  exists saved, files (SaveConfigToFile a (mkStore (Some cfg) path (files st))).1 !! path = Some (Generated saved) /\
    Database_URL (Server saved) = DATABASE_URL env.
Proof.
  intros Hl Hp Hu Hw. unfold SaveConfigToFile, saveConfig. cbn. rewrite bool_decide_eq_false_2 by done. rewrite Hw. cbn.
  exists cfg. rewrite lookup_insert_eq. split; [done|]. unfold LoadConfigFromFile, saveConfig in Hl. rewrite Hw in Hl.
  assert (forall b, Database_URL (Server (applyRuntimeDatabaseEnv env b)) = DATABASE_URL env) as Hb
    by (intros b; cbn; unfold override; by rewrite bool_decide_eq_false_2).
  destruct (migrateYamlToYml a path (files st) !! path); [destruct (read_config _ _ _ _); [|done]|]; injection Hl; intros;
    match goal with E : applyRuntimeDatabaseEnv _ _ = cfg |- _ => rewrite <-E; apply Hb end.
Qed.
(** A write that fails after the file was opened loses the configuration that was saved. *)
Lemma failed_save_truncates cfg path fs saved : path <> [] -> fs !! path = Some (Generated saved) ->
  files (SaveConfigToFile (mkAccess (CutOff []) true true) (mkStore (Some cfg) path fs)).1 !! path = Some (Text []).
Proof. intros Hp _. unfold SaveConfigToFile. cbn. rewrite bool_decide_eq_false_2 by done. cbn. by rewrite lookup_insert_eq. Qed.
(** The watcher of the file applies settings that a start would refuse. *)
Lemma watcher_skips_validation decode a path fs f cfg :
  fs !! path = Some f -> can_read a = true -> decode f = Some cfg ->
  loadConfigFromFile decode a path fs = Some cfg /\ read_config decode a path fs = Ok (validateConfig cfg).1.
Proof. intros Hf Hr Hd. unfold loadConfigFromFile, read_config. by rewrite Hf, Hr, Hd. Qed.
End limits.
