(* ===== verification/Geo.v ===== *)
(** * What is known about an address: [iputil/], [iputil/geo/], [useragent/], [server/service/ip.go]

    The records of the geolocation databases ([geo.go], [names.go]), the decimal form of
    an address ([iputil.go]), the parts of a user agent ([useragent.go]), the text of a
    coordinate ([request.go]) and the response a lookup assembles from them
    ([service.IPLookupService.Lookup]), which the cache of [LruCache] keeps.  A database
    is the function from addresses to its records, or an error, that its reader is; a
    coordinate is a 64-bit float, printed by exact arithmetic. *)
From stdpp Require Import base list gmap strings.
From Stdlib Require Import ZArith Lia SpecFloat.
From S2P Require Import Prelude GoStrings GoTime GoNet GoUrl Http AccessControl LruCache.
Local Open Scope Z_scope.
Local Open Scope go_scope.

(** ** The databases *)

Record Country := mkCountry { co_Name : gostr; co_ISO : gostr; co_IsEU : option bool }.
Record City := mkCity { ci_Name : gostr; ci_Latitude : spec_float; ci_Longitude : spec_float; ci_PostalCode : gostr; ci_Timezone : gostr;
  ci_MetroCode : Z; ci_RegionName : gostr; ci_RegionCode : gostr }.
Record ASN := mkASN { AutonomousSystemNumber : Z; AutonomousSystemOrganization : gostr }.
Record asnRecord := { ar_ASN : Z; ar_Org : gostr }.
Record countryRecord := { cr_CountryCode : gostr }.
Record cityRecord := { yr_City : gostr; yr_CountryCode : gostr; yr_Latitude : spec_float; yr_Longitude : spec_float; yr_Postcode : gostr;
  yr_State1 : gostr; yr_State2 : gostr; yr_Timezone : gostr }.
(** The readers that are open: an address to its record, or an error. *)
Record geoip := { g_country : option (IP -> option countryRecord); g_cityV4 : option (IP -> option cityRecord); g_cityV6 : option (IP -> option cityRecord);
  g_asn : option (IP -> option asnRecord) }.
(** [Open]: the databases whose path is given, or the error of the first that cannot be opened. *)
Definition open_db {R} (opener : gostr -> option R) (path : gostr) : option (option R) := if path <>s [] then Some <$> opener path else Some None.
Definition Open (openCountry : gostr -> option (IP -> option countryRecord)) (openCity : gostr -> option (IP -> option cityRecord))
    (openASN : gostr -> option (IP -> option asnRecord)) (countryDB cityV4DB cityV6DB asnDB : gostr) : option geoip :=
  c ← open_db openCountry countryDB; v4 ← open_db openCity cityV4DB; v6 ← open_db openCity cityV6DB; a ← open_db openASN asnDB;
  Some {| g_country := c; g_cityV4 := v4; g_cityV6 := v6; g_asn := a |}.

Definition iso3166Names : list (gostr * gostr) :=
  (fun p => (str p.1, str p.2)) <$> [
    ("AD", "Andorra"); ("AE", "United Arab Emirates"); ("AF", "Afghanistan"); ("AG", "Antigua and Barbuda"); ("AI", "Anguilla"); ("AL", "Albania");
    ("AM", "Armenia"); ("AO", "Angola"); ("AQ", "Antarctica"); ("AR", "Argentina"); ("AS", "American Samoa"); ("AT", "Austria"); ("AU", "Australia");
    ("AW", "Aruba"); ("AX", "Aland Islands"); ("AZ", "Azerbaijan"); ("BA", "Bosnia and Herzegovina"); ("BB", "Barbados"); ("BD", "Bangladesh");
    ("BE", "Belgium"); ("BF", "Burkina Faso"); ("BG", "Bulgaria"); ("BH", "Bahrain"); ("BI", "Burundi"); ("BJ", "Benin"); ("BL", "Saint Barthelemy");
    ("BM", "Bermuda"); ("BN", "Brunei Darussalam"); ("BO", "Bolivia"); ("BQ", "Bonaire, Sint Eustatius and Saba"); ("BR", "Brazil");
    ("BS", "Bahamas"); ("BT", "Bhutan"); ("BV", "Bouvet Island"); ("BW", "Botswana"); ("BY", "Belarus"); ("BZ", "Belize"); ("CA", "Canada");
    ("CC", "Cocos (Keeling) Islands"); ("CD", "Congo (Democratic Republic)"); ("CF", "Central African Republic"); ("CG", "Congo");
    ("CH", "Switzerland"); ("CI", "Cote d'Ivoire"); ("CK", "Cook Islands"); ("CL", "Chile"); ("CM", "Cameroon"); ("CN", "China"); ("CO", "Colombia");
    ("CR", "Costa Rica"); ("CU", "Cuba"); ("CV", "Cabo Verde"); ("CW", "Curacao"); ("CX", "Christmas Island"); ("CY", "Cyprus"); ("CZ", "Czechia");
    ("DE", "Germany"); ("DJ", "Djibouti"); ("DK", "Denmark"); ("DM", "Dominica"); ("DO", "Dominican Republic"); ("DZ", "Algeria"); ("EC", "Ecuador");
    ("EE", "Estonia"); ("EG", "Egypt"); ("EH", "Western Sahara"); ("ER", "Eritrea"); ("ES", "Spain"); ("ET", "Ethiopia"); ("FI", "Finland");
    ("FJ", "Fiji"); ("FK", "Falkland Islands"); ("FM", "Micronesia"); ("FO", "Faroe Islands"); ("FR", "France"); ("GA", "Gabon");
    ("GB", "United Kingdom"); ("GD", "Grenada"); ("GE", "Georgia"); ("GF", "French Guiana"); ("GG", "Guernsey"); ("GH", "Ghana");
    ("GI", "Gibraltar"); ("GL", "Greenland"); ("GM", "Gambia"); ("GN", "Guinea"); ("GP", "Guadeloupe"); ("GQ", "Equatorial Guinea");
    ("GR", "Greece"); ("GS", "South Georgia and the South Sandwich Islands"); ("GT", "Guatemala"); ("GU", "Guam"); ("GW", "Guinea-Bissau");
    ("GY", "Guyana"); ("HK", "Hong Kong"); ("HM", "Heard Island and McDonald Islands"); ("HN", "Honduras"); ("HR", "Croatia"); ("HT", "Haiti");
    ("HU", "Hungary"); ("ID", "Indonesia"); ("IE", "Ireland"); ("IL", "Israel"); ("IM", "Isle of Man"); ("IN", "India");
    ("IO", "British Indian Ocean Territory"); ("IQ", "Iraq"); ("IR", "Iran"); ("IS", "Iceland"); ("IT", "Italy"); ("JE", "Jersey");
    ("JM", "Jamaica"); ("JO", "Jordan"); ("JP", "Japan"); ("KE", "Kenya"); ("KG", "Kyrgyzstan"); ("KH", "Cambodia"); ("KI", "Kiribati");
    ("KM", "Comoros"); ("KN", "Saint Kitts and Nevis"); ("KP", "Korea (North)"); ("KR", "Korea (South)"); ("KW", "Kuwait"); ("KY", "Cayman Islands");
    ("KZ", "Kazakhstan"); ("LA", "Lao People's Democratic Republic"); ("LB", "Lebanon"); ("LC", "Saint Lucia"); ("LI", "Liechtenstein");
    ("LK", "Sri Lanka"); ("LR", "Liberia"); ("LS", "Lesotho"); ("LT", "Lithuania"); ("LU", "Luxembourg"); ("LV", "Latvia"); ("LY", "Libya");
    ("MA", "Morocco"); ("MC", "Monaco"); ("MD", "Moldova"); ("ME", "Montenegro"); ("MF", "Saint Martin"); ("MG", "Madagascar");
    ("MH", "Marshall Islands"); ("MK", "North Macedonia"); ("ML", "Mali"); ("MM", "Myanmar"); ("MN", "Mongolia"); ("MO", "Macao");
    ("MP", "Northern Mariana Islands"); ("MQ", "Martinique"); ("MR", "Mauritania"); ("MS", "Montserrat"); ("MT", "Malta"); ("MU", "Mauritius");
    ("MV", "Maldives"); ("MW", "Malawi"); ("MX", "Mexico"); ("MY", "Malaysia"); ("MZ", "Mozambique"); ("NA", "Namibia"); ("NC", "New Caledonia");
    ("NE", "Niger"); ("NF", "Norfolk Island"); ("NG", "Nigeria"); ("NI", "Nicaragua"); ("NL", "Netherlands"); ("NO", "Norway"); ("NP", "Nepal");
    ("NR", "Nauru"); ("NU", "Niue"); ("NZ", "New Zealand"); ("OM", "Oman"); ("PA", "Panama"); ("PE", "Peru"); ("PF", "French Polynesia");
    ("PG", "Papua New Guinea"); ("PH", "Philippines"); ("PK", "Pakistan"); ("PL", "Poland"); ("PM", "Saint Pierre and Miquelon"); ("PN", "Pitcairn");
    ("PR", "Puerto Rico"); ("PS", "Palestine"); ("PT", "Portugal"); ("PW", "Palau"); ("PY", "Paraguay"); ("QA", "Qatar"); ("RE", "Reunion");
    ("RO", "Romania"); ("RS", "Serbia"); ("RU", "Russian Federation"); ("RW", "Rwanda"); ("SA", "Saudi Arabia"); ("SB", "Solomon Islands");
    ("SC", "Seychelles"); ("SD", "Sudan"); ("SE", "Sweden"); ("SG", "Singapore"); ("SH", "Saint Helena, Ascension and Tristan da Cunha");
    ("SI", "Slovenia"); ("SJ", "Svalbard and Jan Mayen"); ("SK", "Slovakia"); ("SL", "Sierra Leone"); ("SM", "San Marino"); ("SN", "Senegal");
    ("SO", "Somalia"); ("SR", "Suriname"); ("SS", "South Sudan"); ("ST", "Sao Tome and Principe"); ("SV", "El Salvador"); ("SX", "Sint Maarten");
    ("SY", "Syrian Arab Republic"); ("SZ", "Eswatini"); ("TC", "Turks and Caicos Islands"); ("TD", "Chad"); ("TF", "French Southern Territories");
    ("TG", "Togo"); ("TH", "Thailand"); ("TJ", "Tajikistan"); ("TK", "Tokelau"); ("TL", "Timor-Leste"); ("TM", "Turkmenistan"); ("TN", "Tunisia");
    ("TO", "Tonga"); ("TR", "Turkiye"); ("TT", "Trinidad and Tobago"); ("TV", "Tuvalu"); ("TW", "Taiwan"); ("TZ", "Tanzania"); ("UA", "Ukraine");
    ("UG", "Uganda"); ("UM", "United States Minor Outlying Islands"); ("US", "United States"); ("UY", "Uruguay"); ("UZ", "Uzbekistan");
    ("VA", "Holy See"); ("VC", "Saint Vincent and the Grenadines"); ("VE", "Venezuela"); ("VG", "Virgin Islands (British)");
    ("VI", "Virgin Islands (U.S.)"); ("VN", "Viet Nam"); ("VU", "Vanuatu"); ("WF", "Wallis and Futuna"); ("WS", "Samoa"); ("YE", "Yemen");
    ("YT", "Mayotte"); ("ZA", "South Africa"); ("ZM", "Zambia"); ("ZW", "Zimbabwe")].
Definition euMembers : list gostr :=
  str <$> [
    "AT"; "BE"; "BG"; "CY"; "CZ"; "DE"; "DK"; "EE"; "ES"; "FI"; "FR"; "GR"; "HR"; "HU"; "IE"; "IT"; "LT"; "LU"; "LV"; "MT"; "NL"; "PL"; "PT"; "RO";
    "SE"; "SI"; "SK"].
Definition IsEUMember (iso : gostr) : bool := bool_decide (iso ∈ euMembers).
Definition float_zero : spec_float := S754_zero false.
Definition is_nan (f : spec_float) : bool := match f with S754_nan => true | _ => false end.
(** The record and whether the lookup failed. *)
Definition no_country : Country := mkCountry [] [] None.
Definition geo_Country (g : geoip) (ip : IP) : Country * bool :=
  match g_country g with
  | None => (no_country, false)
  | Some db => match db ip with
               | None => (no_country, true)
               | Some record =>
                   let iso := cr_CountryCode record in
                   (if iso <>s [] then mkCountry (default [] (assoc iso iso3166Names)) iso (Some (IsEUMember iso)) else mkCountry [] iso None, false)
               end
  end.
Definition no_city : City := mkCity [] float_zero float_zero [] [] 0 [] [].
Definition geo_City (g : geoip) (ip : IP) : City * bool :=
  let reader := match To4 ip with Some _ => g_cityV4 g | None => g_cityV6 g end in
  match reader with
  | None => (no_city, false)
  | Some db => match db ip with
               | None => (no_city, true)
               | Some record =>
                   (mkCity (yr_City record) (if is_nan (yr_Latitude record) then float_zero else yr_Latitude record)
                      (if is_nan (yr_Longitude record) then float_zero else yr_Longitude record) (yr_Postcode record) (yr_Timezone record) 0
                      (yr_State1 record) [], false)
               end
  end.
Definition geo_ASN (g : geoip) (ip : IP) : ASN * bool :=
  match g_asn g with
  | None => (mkASN 0 [], false)
  | Some db => match db ip with
               | None => (mkASN 0 [], true)
               | Some record => (mkASN (if 0 <? ar_ASN record then ar_ASN record else 0) (ar_Org record), false)
               end
  end.
Definition geo_IsEmpty (g : geoip) : bool :=
  match g_country g, g_cityV4 g, g_cityV6 g with None, None, None => true | _, _, _ => false end.

(** ** The decimal form of an address *)

Definition SetBytes (b : list Z) : Z := fold_left (fun acc x => acc * 256 + x) b 0.
Definition ToDecimal (ip : IP) : Z := match To4 ip with Some to4 => SetBytes to4 | None => SetBytes ip end.
(** [LookupAddr] over the name service's answer: the first name, without its final dots. *)
Definition LookupAddr (names : option (list gostr)) : gostr * bool :=
  match names with
  | None => ([], true)
  | Some [] => ([], false)
  | Some (name :: _) => (TrimRight name (str "."), false)
  end.

(** ** Coordinates *)

(** [num / den] to the nearest integer, halves to the even one. *)
Definition round_even (num den : Z) : Z :=
  let q := num / den in let r := num mod den in
  if 2 * r <? den then q else if den <? 2 * r then q + 1 else if Z.even q then q else q + 1.
(** The millionths of [m * 2^e]. *)
Definition millionths (m : positive) (e : Z) : Z :=
  if 0 <=? e then Z.pos m * 2 ^ e * 1000000 else round_even (Z.pos m * 1000000) (2 ^ (- e)).
Definition fixed6 (n : Z) : gostr := utoa (n / 1000000) ++ "."%char :: zero_pad 6 (utoa (n mod 1000000)).
Definition sign (s : bool) : gostr := if s then str "-" else [].
(** [strconv.FormatFloat(c, 'f', 6, 64)] *)
Definition formatCoordinate (c : spec_float) : gostr :=
  match c with
  | S754_nan => str "NaN"
  | S754_infinity s => (if s then str "-" else str "+") ++ str "Inf"
  | S754_zero s => sign s ++ str "0.000000"
  | S754_finite s m e => sign s ++ fixed6 (millionths m e)
  end.
Definition is_zero (f : spec_float) : bool := match f with S754_zero _ => true | _ => false end.
Definition formatCoordinatePair (lat lon : spec_float) : gostr :=
  if is_zero lat && is_zero lon then [] else formatCoordinate lat ++ str "," ++ formatCoordinate lon.

(** ** User agents *)

Record UserAgent := { Product : gostr; Version : gostr; Comment : gostr; RawValue : gostr }.
(** [strings.SplitN(s, sep, 2)]: the part before the separator and the rest, if there is one. *)
Definition SplitN2 (s : gostr) (sep : ascii) : gostr * option gostr :=
  let '(a, b, found) := Cut s sep in (a, if found : bool then Some b else None).
Definition Parse (s : gostr) : UserAgent :=
  let '(product, version, comment) :=
    match SplitN2 s "/" with
    | (product, Some rest) =>
        if match rest with c :: _ => isDigit c | [] => false end then
          let '(version, comment) := SplitN2 rest " " in (product, version, default [] comment)
        else (product, [], rest)
    | (_, None) => let '(product, comment) := SplitN2 s " " in (product, [], default [] comment)
    end in
  {| Product := product; Version := version; Comment := comment; RawValue := s |}.
Definition userAgentFromRequest (r : request) : option UserAgent :=
  let userAgentRaw := get r "User-Agent" in if userAgentRaw <>s [] then Some (Parse userAgentRaw) else None.

(** ** The response of a lookup *)

(** [model.IPLookupResponse] but for the address, which [LruCache.IPLookupResponse] holds
    beside them. *)
Record lookup_fields := mkFields {
  IPDecimal : option Z; Country_ : gostr; CountryISO : gostr; CountryEU : option bool; RegionName : gostr; RegionCode : gostr; MetroCode : Z;
  PostalCode : gostr; City_ : gostr; Latitude : spec_float; Longitude : spec_float; Timezone : gostr; ASN_ : gostr; ASNOrg : gostr; Hostname : gostr;
  UserAgent_ : option UserAgent; IsVPN : option bool; IsProxy : option bool; IsTor : option bool; IsTorHiddenService : option bool }.
Record IPLookupService := { reader : geoip; lookupAddr : option (IP -> gostr * bool); threat : option Threat.Lookup }.
Definition asn_text (n : Z) : gostr := if 0 <? n then str "AS" ++ Itoa n else [].
(** The response [Lookup] computes when the cache has none. *)
Definition assemble (s : IPLookupService) (ip : IP) : lookup_fields :=
  let country := (geo_Country (reader s) ip).1 in
  let city := (geo_City (reader s) ip).1 in
  let asn := (geo_ASN (reader s) ip).1 in
  let hostname := match lookupAddr s with Some f => (f ip).1 | None => [] end in
  let flag (p : Threat.Lookup -> IP -> bool) := (fun t => p t ip) <$> threat s in
  mkFields (Some (ToDecimal ip)) (co_Name country) (co_ISO country) (co_IsEU country) (ci_RegionName city) (ci_RegionCode city) (ci_MetroCode city)
    (ci_PostalCode city) (ci_Name city) (ci_Latitude city) (ci_Longitude city) (ci_Timezone city) (asn_text (AutonomousSystemNumber asn))
    (AutonomousSystemOrganization asn) hostname None (flag Threat.IsVPN) (flag Threat.IsProxy) (flag Threat.IsTor) None.
Definition LookupIP (s : IPLookupService) (ip : IP) (c : Cache lookup_fields) : IPLookupResponse lookup_fields * Cache lookup_fields :=
  Lookup (assemble s) ip c.

(** ** Decimal forms identify addresses *)

Lemma SetBytes_snoc b x : SetBytes (b ++ [x]) = SetBytes b * 256 + x.
Proof. unfold SetBytes. by rewrite fold_left_app. Qed.
Lemma SetBytes_range b : Forall is_byte b -> 0 <= SetBytes b < 256 ^ Z.of_nat (length b).
Proof.
  induction b as [|x b IH] using rev_ind; intros Hb; [done|]. apply Forall_app in Hb as [Hb Hx]. apply Forall_cons in Hx as [Hx _].
  rewrite SetBytes_snoc, length_app. cbn [length]. rewrite Nat2Z.inj_add, Z.pow_add_r by lia. change (256 ^ Z.of_nat 1) with 256. specialize (IH Hb). unfold is_byte in Hx. lia.
Qed.
Lemma SetBytes_inj a b : length a = length b -> Forall is_byte a -> Forall is_byte b -> SetBytes a = SetBytes b -> a = b.
Proof.
  revert b. induction a as [|x a IH] using rev_ind; intros b Hl Ha Hb E; [by destruct b|].
  destruct b as [|y b _] using rev_ind; [rewrite length_app in Hl; cbn in Hl; lia|]. rewrite !length_app in Hl. cbn in Hl.
  apply Forall_app in Ha as [Ha Hx]. apply Forall_app in Hb as [Hb Hy]. apply Forall_cons in Hx as [Hx _]. apply Forall_cons in Hy as [Hy _].
  rewrite !SetBytes_snoc in E. unfold is_byte in *. assert (SetBytes a = SetBytes b /\ x = y) as [Es ->] by lia. f_equal. apply IH; [lia|done..].
Qed.
(** The decimal form of an IPv4 address is below 2^32 and that of any address below
    2^128, and two addresses of the same family with the same decimal form are the same
    address: [ip_decimal] identifies the address a reply is about. *)
Theorem ToDecimal_identifies ip1 ip2 :
  length ip1 = 16%nat -> Forall is_byte ip1 -> length ip2 = 16%nat -> Forall is_byte ip2 -> is_Some (To4 ip1) <-> is_Some (To4 ip2) ->
  0 <= ToDecimal ip1 < 2 ^ 128 /\ (is_Some (To4 ip1) -> ToDecimal ip1 < 2 ^ 32) /\ (ToDecimal ip1 = ToDecimal ip2 -> ip1 = ip2).
Proof.
  intros L1 B1 L2 B2 Hf. unfold ToDecimal. destruct (To4 ip1) as [x|] eqn:E1, (To4 ip2) as [y|] eqn:E2; [| |by destruct Hf as [_ [? ?]]|].
  - apply To4_len16 in E1, E2; [|done..]. subst. unfold v4InV6Prefix in *. rewrite length_app in L1, L2. cbn in L1, L2. apply Forall_app in B1 as [_ B1], B2 as [_ B2].
    pose proof (SetBytes_range x B1) as Hx. replace (length x) with 4%nat in Hx by lia. change (256 ^ Z.of_nat 4) with (2 ^ 32) in Hx. split_and!; [lia|lia|by intros _; lia|].
    intros E. apply SetBytes_inj in E as ->; [done|lia|done..].
  - destruct Hf as [Hf _]. by destruct Hf as [? ?].
  - pose proof (SetBytes_range ip1 B1) as Hx. rewrite L1 in Hx. change (256 ^ Z.of_nat 16) with (2 ^ 128) in Hx. split_and!; [lia|lia|by intros [? ?]|].
    intros E. apply SetBytes_inj; [congruence|done..].
Qed.
Lemma ToDecimal_identifies_witness : ToDecimal (IPv4 10 0 0 1) = 167772161 /\ ToDecimal (IPv4 10 0 0 1) < 2 ^ 32.
Proof.
  split; [reflexivity|]. assert (Forall is_byte (IPv4 10 0 0 1)) as Hb by (unfold is_byte; repeat (apply Forall_cons_2; [lia|]); constructor).
  apply (ToDecimal_identifies (IPv4 10 0 0 1) (IPv4 10 0 0 1) eq_refl Hb eq_refl Hb (conj (fun h => h) (fun h => h))). by eexists.
Defined.

(** ** Coordinates as text *)

Lemma round_even_near num den : 0 < den -> 0 <= num -> 0 <= round_even num den /\ 2 * Z.abs (round_even num den * den - num) <= den.
Proof.
  intros Hd Hn. unfold round_even. pose proof (Z.div_mod num den ltac:(lia)). pose proof (Z.mod_pos_bound num den Hd). pose proof (Z.div_pos num den Hn Hd).
  destruct (Z.ltb_spec (2 * (num mod den)) den); [split; [lia|nia]|]. destruct (Z.ltb_spec den (2 * (num mod den))); [split; [lia|nia]|]. destruct (Z.even _); split; lia || nia.
Qed.
(** A coordinate is printed with its sign and exactly six decimals, and the number
    printed is the nearest millionth: the text is off by at most half of 0.000001. *)
Theorem formatCoordinate_accurate s m e :
  exists whole frac, formatCoordinate (S754_finite s m e) = sign s ++ whole ++ "."%char :: frac /\
    whole <> [] /\ forallb isDigit whole = true /\ length frac = 6%nat /\ forallb isDigit frac = true /\
    let n := digits_value whole * 1000000 + digits_value frac in
    if 0 <=? e then n = Z.pos m * 2 ^ e * 1000000 else 2 * Z.abs (n * 2 ^ (- e) - Z.pos m * 1000000) <= 2 ^ (- e).
Proof.
  cbn [formatCoordinate]. set (n := millionths m e).
  assert (0 <= n /\ if 0 <=? e then n = Z.pos m * 2 ^ e * 1000000 else 2 * Z.abs (n * 2 ^ (- e) - Z.pos m * 1000000) <= 2 ^ (- e)) as [Hn Hnear].
  { unfold n, millionths. destruct (Z.leb_spec 0 e); [split; [|done]; pose proof (Z.pow_pos_nonneg 2 e); nia|]. apply round_even_near; [apply Z.pow_pos_nonneg; lia|lia]. }
  destruct (utoa_correct (n / 1000000)) as (Hv & Hd & Hne); [apply Z.div_pos; lia|].
  assert (block 6 (n mod 1000000) (zero_pad 6 (utoa (n mod 1000000)))) as (Hl & Hdf & Hvf).
  { pose proof (Z.mod_pos_bound n 1000000). pose proof (appendInt_fixed 6 (n mod 1000000) ltac:(lia)) as Hb. unfold appendInt in Hb. rewrite (proj2 (Z.ltb_ge _ 0)) in Hb by lia. apply Hb. change (10 ^ Z.of_nat 6) with 1000000. lia. }
  exists (utoa (n / 1000000)), (zero_pad 6 (utoa (n mod 1000000))). split_and!; [done..|]. cbn zeta. rewrite Hv, Hvf.
  replace (n / 1000000 * 1000000 + n mod 1000000) with n by (pose proof (Z.div_mod n 1000000); lia). done.
Qed.

(** ** The parts of a user agent *)

Lemma Cut_spec s c : (Cut s c = (s, [], false) /\ c ∉ s) \/ exists a b, s = a ++ c :: b /\ c ∉ a /\ Cut s c = (a, b, true).
Proof.
  destruct (decide (c ∈ s)) as [Hin|Hn]; [right|left; split; [by apply Cut_absent|done]].
  induction s as [|d s IH]; [by apply not_elem_of_nil in Hin|]. destruct (decide (c = d)) as [->|Hne].
  - exists [], s. split_and!; [done|apply not_elem_of_nil|by apply (Cut_found [] d s), not_elem_of_nil].
  - apply elem_of_cons in Hin as [?|Hin]; [done|]. destruct (IH Hin) as (a & b & -> & Ha & _). exists (d :: a), b.
    assert (c ∉ d :: a) as Hd by (by rewrite not_elem_of_cons). split_and!; [done..|]. by apply (Cut_found (d :: a)).
Qed.
(** Nothing of a user agent is lost or invented: the raw text is kept, and it is the
    product, a separator, the version, a separator and the comment, in this order, where a
    separator is one slash or blank or nothing. *)
Theorem Parse_parts s :
  RawValue (Parse s) = s /\ "/"%char ∉ Product (Parse s) /\
  exists a b, s = Product (Parse s) ++ a ++ Version (Parse s) ++ b ++ Comment (Parse s) /\ a ∈ [[]; str "/"; str " "] /\ b ∈ [[]; str " "].
Proof.
  unfold Parse, SplitN2. destruct (Cut_spec s "/"%char) as [[-> Hs]|(p & rest & -> & Hp & ->)].
  - destruct (Cut_spec s " "%char) as [[-> _]|(a & b & -> & _ & ->)]; cbn; (split; [done|]).
    + split; [done|]. exists [], []. split_and!; [by rewrite app_nil_r|decided|decided].
    + split; [intros Hin; apply Hs, elem_of_app; by left|]. exists (str " "), []. split_and!; [done|decided|decided].
  - destruct (match rest with c :: _ => isDigit c | [] => false end).
    + destruct (Cut_spec rest " "%char) as [[-> _]|(a & b & -> & _ & ->)]; cbn; (split; [done|]); (split; [done|]).
      * exists (str "/"), []. split_and!; [by rewrite app_nil_r|decided|decided].
      * exists (str "/"), (str " "). split_and!; [done|decided|decided].
    + cbn. split; [done|]. split; [done|]. exists (str "/"), []. split_and!; [done|decided|decided].
Qed.

(** ** Countries and cities *)

Lemma member_names iso : IsEUMember iso = true -> default [] (assoc iso iso3166Names) <> [].
Proof.
  assert (forallb (fun iso => default [] (assoc iso iso3166Names) <>s []) euMembers = true) as Hall by (vm_compute; reflexivity).
  rewrite forallb_forall in Hall. intros Heu%bool_decide_eq_true%list_elem_of_In%Hall. by apply negb_true_iff, bool_decide_eq_false in Heu.
Qed.
(** Membership of the Union is reported exactly for the addresses whose country is
    known, every member state has a name, and an address is only ever searched in the city
    database of its own family. *)
Theorem geo_records_consistent g ip :
  let c := (geo_Country g ip).1 in
  (is_Some (co_IsEU c) <-> co_ISO c <> []) /\ (co_IsEU c = Some true -> co_Name c <> []) /\
  (forall g', (if To4 ip then g_cityV4 g' = g_cityV4 g else g_cityV6 g' = g_cityV6 g) -> geo_City g' ip = geo_City g ip).
Proof.
  cbn zeta. split; [|split].
  - unfold geo_Country. destruct (g_country g) as [db|]; [|by cbn; split; [intros [? ?]|]]. destruct (db ip) as [rec|]; [|by cbn; split; [intros [? ?]|]].
    destruct (decide (cr_CountryCode rec = [])) as [E|E]; [rewrite bool_decide_eq_true_2 by done|rewrite bool_decide_eq_false_2 by done]; cbn; split; try done; by intros [? ?].
  - unfold geo_Country. destruct (g_country g) as [db|]; [|done]. destruct (db ip) as [rec|]; [|done]. destruct (cr_CountryCode rec <>s []); [|done].
    cbn. intros [= Heu]. by apply member_names.
  - intros g' Hg. unfold geo_City. by destruct (To4 ip); rewrite Hg.
Qed.
