(* ===== verification/Preferences.v ===== *)
(** * Visitor preferences and redirects: [server/handler/pages.go], [guest_preferences.go], [server/theme.go]

    The cookies a visitor controls (theme, language, widget, consent, opt-out,
    dismissed announcements), the export and import of preferences between
    devices, the targets the handlers redirect to, and the throttle of the
    contact form.  A handler gives its effects in order. *)
From stdpp Require Import base list gmap sorting.
From Stdlib Require Import ZArith Lia.
From S2P Require Import Prelude GoStrings GoTime GoNet GoUrl Http I18n Netutil LogFormat Settings Tracking.
Local Open Scope Z_scope.
Local Open Scope go_scope.

(** ** Themes, widgets, languages *)

Definition isValidTheme (theme : gostr) : bool := (theme =s str "light") || (theme =s str "dark") || (theme =s str "auto").
Definition normalizeThemeValue (theme : gostr) : gostr := if isValidTheme theme then theme else str "dark".
Definition NextTheme (current : gostr) : gostr :=
  if current =s str "dark" then str "light" else if current =s str "light" then str "auto" else str "dark".
Definition ValidateTheme (theme : gostr) : gostr := if isValidTheme theme then theme else str "dark".
Definition DetectTheme (r : request) : gostr :=
  match Cookie r (str "theme") with None => str "dark" | Some v => ValidateTheme v end.

Definition lookupWidgetPreferenceCookie : gostr := str "ipgaze_pref_widget".
Definition lookupWidgetPreferences : list gostr :=
  str <$> ["ip"; "country"; "country-iso"; "city"; "asn"; "json"; "port"]%string.
Definition validLookupWidget (value : gostr) : bool := bool_decide (value ∈ lookupWidgetPreferences).
Definition lookupWidgetPreference (r : request) : gostr :=
  match Cookie r lookupWidgetPreferenceCookie with
  | Some v => if validLookupWidget v then v else str "ip"
  | None => str "ip"
  end.
(** The map of preferences has the one key [widget]. *)
Definition currentLookupPreferences (r : request) : option gostr :=
  match Cookie r lookupWidgetPreferenceCookie with
  | Some v => if validLookupWidget v then Some v else None
  | None => None
  end.

Definition year : Z := 365 * 24 * 60 * 60.
Definition preference_cookie (name value : gostr) (secure httpOnly : bool) : effect :=
  SetCookie {| c_Name := name; c_Value := value; c_Path := str "/"; c_Secure := secure; c_HttpOnly := httpOnly;
               c_SameSite := SameSiteLax; c_MaxAge := year |}.
Definition FormValue (r : request) (key : gostr) : gostr :=
  match r_Form r with Some form => default [] (assoc key form) | None => [] end.

Section preferences.
  Context `{UnicodeTables} `{Authority}.
  Variables (e : host_env) (translator : I18NManager) (trust : option TrustResolver).

Definition isSecurePreferenceRequest (r : request) : bool := HasPrefix (BuildURL e r trust (str "/")) (str "https://").
Definition setThemeCookie (r : request) (theme : gostr) : effect :=
  preference_cookie (str "theme") theme (isSecurePreferenceRequest r) false.
Definition setLangPreferenceCookie (r : request) (lang : gostr) : effect :=
  preference_cookie (str "lang") lang (isSecurePreferenceRequest r) false.
Definition setLookupWidgetPreference (r : request) (value : gostr) : list effect :=
  if negb (validLookupWidget value) then []
  else [preference_cookie lookupWidgetPreferenceCookie value (isSecurePreferenceRequest r) false].

(** [canonicalPreferenceLanguage]: the supported code a tag or its base names. *)
Definition supported_code (candidate : gostr) : option gostr :=
  List.find (fun code => EqualFold candidate code) (fst <$> AvailableLanguages translator).
Definition canonicalPreferenceLanguage (candidate : gostr) : gostr :=
  match supported_code candidate with
  | Some code => code
  | None => let '(base, _, found) := Cut candidate "-" in
            if found then default [] (supported_code base) else []
  end.

(** ** Redirect targets *)

(** Neither absolute nor protocol-relative. *)
Definition starts_local (target : gostr) : bool :=
  HasPrefix target (str "/") && negb (HasPrefix target (str "//")) && negb (HasPrefix target (str "/\")).
Definition line_breaks : gostr := ["013"; "010"]%char.
Definition with_query (path query : gostr) : gostr := if query <>s [] then path ++ str "?" ++ query else path.
Definition safeRedirectTarget (r : request) (target : gostr) : gostr :=
  if (target =s []) || ContainsAny target line_breaks then str "/"
  else if negb (starts_local target) then str "/"
  else match Parse target with
       | None => str "/"
       | Some u => if (u_Host u <>s []) && (u_Host u <>s r_Host r) then str "/" else with_query (u_Path u) (u_RawQuery u)
       end.
Definition preference_paths : list gostr :=
  [str "/server/preferences"; str "/server/preferences/import"; str "/server/preferences/export"].
Definition validPreferencesRedirect (target : gostr) : option gostr :=
  if (target =s []) || negb (starts_local target) || ContainsAny target line_breaks then None
  else match Parse target with
       | None => None
       | Some u =>
           if IsAbs u || (u_Host u <>s []) then None
           else if bool_decide (u_Path u ∈ preference_paths) then None
           else Some (with_query (EscapedPath u) (u_RawQuery u))
       end.
(** The path and query of a referring page of this origin. *)
Definition referer_target (r : request) (referer : gostr) : option gostr :=
  match Parse referer, Parse (BuildURL e r trust (str "/")) with
  | Some ref, Some origin =>
      if EqualFold (u_Scheme ref) (u_Scheme origin) && EqualFold (u_Host ref) (u_Host origin)
      then validPreferencesRedirect (with_query (EscapedPath ref) (u_RawQuery ref)) else None
  | _, _ => None
  end.
Definition preferencesRedirectTarget (r : request) : gostr :=
  match validPreferencesRedirect (Values_Get (Values_of (r_Query r)) (str "redirect")) with
  | Some target => target
  | None =>
      let referer := get r "Referer" in
      if referer =s [] then str "/"
      else match (if HasPrefix referer (str "/") then validPreferencesRedirect referer else None) with
           | Some target => target
           | None => default (str "/") (referer_target r referer)
           end
  end.

(** ** Consent and announcements *)

Definition isCheckboxChecked (value : gostr) : bool :=
  if value =s [] then false else match ParseBool value false with Ok b => b | Err _ => false end.
(** The choice of a submitted form: preferences and analytics. *)
Definition consent_choice (r : request) : bool * bool :=
  if FormValue r (str "granular") <>s []
  then (isCheckboxChecked (FormValue r (str "preferences")), isCheckboxChecked (FormValue r (str "analytics")))
  else let accepted := FormValue r (str "choice") =s str "accept" in (accepted, accepted).
Definition consent_json (choice : bool * bool) (millis : Z) : option gostr :=
  Marshal (JStruct [(str "essential", JBoolean true); (str "preferences", JBoolean choice.1);
                    (str "analytics", JBoolean choice.2); (str "timestamp", JInt millis)]).
Definition method_not_allowed (r : request) : list effect :=
  [WriteHeader 405; WriteBody (T translator (r_ctx r) (str "errors.method_not_allowed"))].
(** [renderErrorPage]: the page is represented by its status and message. *)
Definition error_page (r : request) (status : Z) (key : string) : list effect :=
  [WriteHeader status; WriteBody (T translator (r_ctx r) (str key))].
(** Back to the page for a plain form, no content for a script. *)
Definition form_answer (r : request) : list effect :=
  if GoStrings.Contains (get r "Accept") (str "text/html") then [Redirect (safeRedirectTarget r (get r "Referer")) 303]
  else [WriteHeader 204].
Definition ConsentHandler (millis : Z) (r : request) : list effect :=
  if r_Method r <>s str "POST" then method_not_allowed r
  else match consent_json (consent_choice r) millis with
       | None => error_page r 500 "errors.server_error"
       | Some value =>
           preference_cookie (str "cookie_consent") (QueryEscape value) (isSecurePreferenceRequest r) false :: form_answer r
       end.
Definition CCPAHandler (r : request) : list effect :=
  if r_Method r <>s str "POST" then method_not_allowed r
  else preference_cookie (str "ccpa_opt_out") (str (if FormValue r (str "choice") =s str "opt-out" then "true" else "false"))
         (r_TLS r) true :: form_answer r.

Definition dismissedAnnouncements (r : request) : list gostr :=
  match Cookie r (str "dismissed_announcements") with
  | None => []
  | Some v => if v =s [] then [] else filter (fun id => id <> []) (TrimSpace <$> Split v (str ","))
  end.
Definition DismissAnnouncementHandler (r : request) : list effect :=
  if r_Method r <>s str "POST" then method_not_allowed r
  else
    let id := TrimSpace (FormValue r (str "id")) in
    if id =s [] then error_page r 400 "errors.bad_request"
    else
      let existing := dismissedAnnouncements r in
      let existing := if bool_decide (id ∈ existing) then existing else existing ++ [id] in
      preference_cookie (str "dismissed_announcements") (Join existing (str ",")) (r_TLS r) true :: form_answer r.

(** ** Changing, exporting and importing preferences *)

Definition see_other (r : request) : list effect :=
  [SetHeader (str "Cache-Control") (str "no-store"); SetHeader (str "Location") (preferencesRedirectTarget r); WriteHeader 303].
Definition ServerPreferencesUpdateHandler (r : request) : list effect :=
  if r_Method r <>s str "POST" then method_not_allowed r
  else
    let theme := FormValue r (str "theme") in
    let lang := FormValue r (str "lang") in
    let widget := FormValue r lookupWidgetPreferenceCookie in
    (if isValidTheme theme then [setThemeCookie r (normalizeThemeValue theme)] else [])
    ++ (if (lang <>s []) && (canonicalPreferenceLanguage lang <>s [])
        then [setLangPreferenceCookie r (canonicalPreferenceLanguage lang)] else [])
    ++ (if widget <>s [] then setLookupWidgetPreference r widget else [])
    ++ see_other r.


Definition decodePreferencesCode (code : gostr) : Values :=
  match (match RawURL_Decode code with Some raw => Some raw | None => URL_Decode code end) with
  | None => ∅
  | Some raw => let '(values, ok) := ParseQuery raw in if ok then values else ∅
  end.
Definition isPlainQuery (code : gostr) : bool :=
  let firstKey := (Cut code "=").1.1 in
  GoStrings.Contains code (str "&") || (firstKey =s str "theme") || (firstKey =s str "lang")
  || HasPrefix firstKey (str "ipgaze_pref_") || (GoStrings.Contains code (str "=") && negb (HasSuffix code (str "="))).
(** What a pasted code or URL stands for. *)
Definition decode_code (code : gostr) : Values :=
  let code := match IndexByte code "?" with Some i => drop (S i) code | None => code end in
  if isPlainQuery code then (ParseQuery code).1 else if code <>s [] then decodePreferencesCode code else ∅.

(** The choices of an import, with the parameters applied and ignored. *)
Record import_state := mkImport {
  im_theme : gostr; im_lang : gostr; im_widget : option gostr; im_applied : list gostr; im_ignored : list gostr }.
Definition import_key (q : Values) (st : import_state) (key : gostr) : import_state :=
  let ignore := mkImport (im_theme st) (im_lang st) (im_widget st) (im_applied st) (im_ignored st ++ [key]) in
  match q !! key with
  | None | Some [] => ignore
  | Some (value :: _) =>
      if Nat.ltb 64 (length value) then ignore
      else if key =s str "theme" then
        if isValidTheme value then mkImport value (im_lang st) (im_widget st) (im_applied st ++ [key]) (im_ignored st) else ignore
      else if key =s str "lang" then
        let canonical := canonicalPreferenceLanguage value in
        if canonical <>s [] then mkImport (im_theme st) canonical (im_widget st) (im_applied st ++ [key]) (im_ignored st) else ignore
      else if key =s lookupWidgetPreferenceCookie then
        if validLookupWidget value then mkImport (im_theme st) (im_lang st) (Some value) (im_applied st ++ [key]) (im_ignored st)
        else ignore
      else ignore
  end.
(** The query parameters, completed from the code, and what of it was refused. *)
Definition import_query (q : Values) : Values * list gostr :=
  let code := TrimSpace (Values_Get q (str "code")) in
  if code =s [] then (q, [])
  else if Nat.ltb 2048 (length code) then (q, [str "code"])
  else
    let decoded := decode_code code in
    (q ∪ (take 1 <$> filter (fun kv => kv.2 <> []) decoded), if decide (decoded = ∅) then [str "code"] else []).
Definition resolvePreferencesImport (r : request) : import_state :=
  let '(q, ignored) := import_query (Values_of (r_Query r)) in
  let keys := merge_sort str_le (filter (fun k => k <> str "code" /\ k <> str "redirect") (fst <$> map_to_list q)) in
  fold_left (import_key q) (take 32 keys)
    (mkImport (DetectTheme r) (DetectLocale r) (currentLookupPreferences r) [] (ignored ++ drop 32 keys)).
(** The cookies both import handlers set. *)
Definition import_cookies (r : request) (st : import_state) : list effect :=
  (if bool_decide (str "theme" ∈ im_applied st) then [setThemeCookie r (im_theme st)] else [])
  ++ (if bool_decide (str "lang" ∈ im_applied st) then [setLangPreferenceCookie r (im_lang st)] else [])
  ++ (if bool_decide (lookupWidgetPreferenceCookie ∈ im_applied st)
      then match im_widget st with Some v => if v <>s [] then setLookupWidgetPreference r v else [] | None => [] end else []).
Definition ServerPreferencesImportHandler (r : request) : list effect :=
  import_cookies r (resolvePreferencesImport r) ++ see_other r.
Definition APIV1ServerPreferencesImportHandler (r : request) : list effect * import_state :=
  let st := resolvePreferencesImport r in
  (SetHeader (str "Cache-Control") (str "no-store") :: import_cookies r st, st).
End preferences.

(** ** Robots and the contact form *)

Definition publicIndexableRoutes : list gostr :=
  str <$> ["/"; "/server/about"; "/server/help"; "/server/privacy"; "/server/terms"; "/server/contact"]%string.
Definition ResolveRobotsDirective (path : gostr) : gostr :=
  let normalized :=
    if Nat.ltb 1 (length path) then
      let p := TrimRight path (str "/") in if p =s [] then str "/" else p
    else path in
  str (if bool_decide (normalized ∈ publicIndexableRoutes) then "index,follow" else "noindex,nofollow").

Definition contactThrottleWindow : Z := 60 * Second.
Definition contactThrottleMaxEntries : nat := 4096.
(** [allowContactSubmission] at the instant [now]: the map of the last times. *)
Definition allowContactSubmission (now : Z) (ip : gostr) (last : gmap gostr Z) : gmap gostr Z * bool :=
  if match last !! ip with Some t => now - t <? contactThrottleWindow | None => false end then (last, false)
  else
    let last := if Nat.leb contactThrottleMaxEntries (size last)
                then filter (fun kv => now - kv.2 < contactThrottleWindow) last else last in
    (<[ip := now]> last, true).

(** ** Imports set preference cookies only *)

Lemma isValidTheme_DetectTheme r : isValidTheme (DetectTheme r) = true.
Proof.
  unfold DetectTheme, ValidateTheme. destruct (Cookie r (str "theme")) as [v|]; [|reflexivity].
  destruct (isValidTheme v) eqn:E; [done|reflexivity].
Qed.
Lemma currentLookupPreferences_valid r v : currentLookupPreferences r = Some v -> validLookupWidget v = true.
Proof.
  unfold currentLookupPreferences. destruct (Cookie r _) as [x|]; [|done].
  destruct (validLookupWidget x) eqn:E; [|done]. by intros [= <-].
Qed.

Section imports.
  Context `{UnicodeTables} `{Authority}.
  Variables (e : host_env) (translator : I18NManager) (trust : option TrustResolver).

Lemma AvailableLanguages_codes : fst <$> AvailableLanguages translator = SupportedLocales.
Proof. unfold AvailableLanguages. rewrite <-list_fmap_compose. apply list_fmap_id. Qed.
Lemma supported_code_supported c code : supported_code translator c = Some code -> IsSupported code = true.
Proof.
  unfold supported_code. rewrite AvailableLanguages_codes. intros [Hin _]%find_some. unfold IsSupported.
  apply any_true. exists code. rewrite list_elem_of_In. by rewrite bool_decide_eq_true_2.
Qed.
Lemma canonical_supported c :
  canonicalPreferenceLanguage translator c <> [] -> IsSupported (canonicalPreferenceLanguage translator c) = true.
Proof.
  unfold canonicalPreferenceLanguage. destruct (supported_code translator c) eqn:Ec.
  { intros _. by eapply supported_code_supported. }
  destruct (Cut c "-") as [[base rest] found]. destruct found; [|done].
  destruct (supported_code translator base) eqn:Eb; [|done]. intros _. by eapply supported_code_supported.
Qed.

(** The choices of an import are valid at every point. *)
Definition valid_choices (st : import_state) : Prop :=
  isValidTheme (im_theme st) = true /\ IsSupported (im_lang st) = true /\
  forall v, im_widget st = Some v -> validLookupWidget v = true.
Lemma import_key_valid q st key : valid_choices st -> valid_choices (import_key translator q st key).
Proof.
  intros (Ht & Hl & Hw). unfold import_key.
  destruct (q !! key) as [[|value rest]|]; [done| |done].
  destruct (Nat.ltb _ _); [done|]. destruct (key =s str "theme").
  { destruct (isValidTheme value) eqn:E; done. }
  destruct (key =s str "lang").
  { destruct (canonicalPreferenceLanguage translator value <>s []) eqn:E; [|done]. apply negb_true_iff, bool_decide_eq_false in E.
    split; [done|]. split; [by apply canonical_supported|done]. }
  destruct (key =s _); [|done]. destruct (validLookupWidget value) eqn:E; [|done]. split; [done|]. split; [done|].
  cbn. by intros v [= <-].
Qed.
Lemma import_keys_valid q keys st : valid_choices st -> valid_choices (fold_left (import_key translator q) keys st).
Proof. revert st. induction keys as [|k keys IH]; intros st Hst; [done|]. cbn. by apply IH, import_key_valid. Qed.
Lemma resolvePreferencesImport_valid r : valid_choices (resolvePreferencesImport translator r).
Proof.
  unfold resolvePreferencesImport. destruct (import_query _) as [q ignored]. apply import_keys_valid.
  split; [apply isValidTheme_DetectTheme|]. split; [apply DetectLocale_supported|]. apply currentLookupPreferences_valid.
Qed.
(** Whatever parameters or code a link carries, importing preferences sets
    no cookie but the theme, the language and the widget, each with one of its
    allowed values: consent, opt-outs and tokens cannot be forged by a link. *)
Theorem import_cookies_confined r c :
  SetCookie c ∈ ServerPreferencesImportHandler e translator trust r \/
  SetCookie c ∈ (APIV1ServerPreferencesImportHandler e translator trust r).1 ->
  (c_Name c = str "theme" /\ isValidTheme (c_Value c) = true) \/
  (c_Name c = str "lang" /\ IsSupported (c_Value c) = true) \/
  (c_Name c = lookupWidgetPreferenceCookie /\ validLookupWidget (c_Value c) = true).
Proof.
  destruct (resolvePreferencesImport_valid r) as (Ht & Hl & Hw). intros Hin.
  assert (SetCookie c ∈ import_cookies e trust r (resolvePreferencesImport translator r)) as Hc.
  { destruct Hin as [Hin|Hin]; cbn in Hin.
    - unfold ServerPreferencesImportHandler, see_other in Hin. set_solver.
    - set_solver. }
  unfold import_cookies in Hc. rewrite !elem_of_app in Hc. destruct Hc as [Hc|[Hc|Hc]].
  - left. case_bool_decide; [|set_solver]. apply list_elem_of_singleton in Hc. by injection Hc as ->.
  - right. left. case_bool_decide; [|set_solver]. apply list_elem_of_singleton in Hc. by injection Hc as ->.
  - right. right. case_bool_decide; [|set_solver]. destruct (im_widget _) as [v|] eqn:Ev; [|set_solver].
    specialize (Hw v eq_refl). destruct (v <>s []); [|set_solver]. unfold setLookupWidgetPreference in Hc. rewrite Hw in Hc.
    apply list_elem_of_singleton in Hc. by injection Hc as ->.
Qed.
End imports.

(** ** An export reads back *)


Section roundtrip.
  Context `{UnicodeTables} `{Authority}.
  Variables (e : host_env) (translator : I18NManager) (trust : option TrustResolver).


End roundtrip.

(** ** Redirects stay on the site *)

Lemma HasPrefix_cons c s : HasPrefix s [c] = true <-> exists s', s = c :: s'.
Proof.
  rewrite HasPrefix_true. split; [intros [k ->]; eauto|intros [s' ->]; by exists s'].
Qed.
(** What [Parse] makes of a target that starts with a slash. *)
Definition target_path (target : gostr) : gostr := (cut_query (Cut target "#").1.1).1.

Section redirects.
  Context `{UnicodeTables} `{Authority}.
  Variables (e : host_env) (trust : option TrustResolver).

Lemma Cut_slash c t d : d <> c -> exists rest q f, Cut (c :: t) d = (c :: rest, q, f).
Proof.
  intros Hd. unfold Cut, IndexByte. cbn [IndexFunc]. rewrite bool_decide_eq_false_2 by congruence.
  destruct (IndexFunc _ t) as [i|]; cbn; eauto.
Qed.
Lemma cut_query_slash t : exists rest q, cut_query ("/"%char :: t) = ("/"%char :: rest, q) /\ ("/"%char :: rest) `prefix_of` ("/"%char :: t).
Proof.
  unfold cut_query. destruct (HasSuffix _ _ && _) eqn:E.
  - destruct t as [|x t].
    + apply andb_true_iff in E as [E _]. by vm_compute in E.
    + exists (take (length t) (x :: t)), []. split.
      * cbn. by rewrite ?Nat.sub_0_r.
      * apply prefix_cons, prefix_take.
  - unfold Cut, IndexByte. cbn [IndexFunc]. rewrite bool_decide_eq_false_2 by done.
    destruct (IndexFunc _ t) as [i|]; cbn.
    + exists (take i t), (drop (S i) t). split; [done|]. apply prefix_cons, prefix_take.
    + exists t, []. split; [done|]. reflexivity.
Qed.
(** The prefixes of a local target that have its slash are local. *)
Lemma starts_local_prefix s t :
  ("/"%char :: s) `prefix_of` t -> starts_local t = true -> starts_local ("/"%char :: s) = true.
Proof.
  intros Hp. unfold starts_local. rewrite !andb_true_iff, !negb_true_iff. intros [[_ H2] H3].
  split; [split|]; [by apply HasPrefix_true; exists s| |];
    apply not_true_is_false; rewrite HasPrefix_true; intros Hx;
    [rewrite <-not_true_iff_false, HasPrefix_true in H2; apply H2|rewrite <-not_true_iff_false, HasPrefix_true in H3; apply H3];
    by etrans.
Qed.
Lemma starts_local_extend s x y : starts_local (x :: s) = true -> y <> "/"%char -> y <> "\"%char ->
  forall t, starts_local (x :: s ++ y :: t) = true.
Proof.
  intros Hl Hy Hy' t. revert Hl. unfold starts_local. rewrite !andb_true_iff, !negb_true_iff, <-!not_true_iff_false, !HasPrefix_true.
  intros [[[k Hk] H2] H3]. injection Hk as -> ->. split; [split|].
  - by exists (k ++ y :: t).
  - intros [k' Hk']. destruct k as [|z k]; [by injection Hk'|]. injection Hk' as -> _. apply H2. by exists k.
  - intros [k' Hk']. destruct k as [|z k]; [by injection Hk'|]. injection Hk' as -> _. apply H3. by exists k.
Qed.

Lemma parse_local target u : starts_local target = true -> Parse target = Some u ->
  u_Scheme u = [] /\ u_Host u = [] /\ setPath (target_path target) = Some (u_Path u, u_RawPath u) /\
  exists rest, target_path target = "/"%char :: rest /\ starts_local ("/"%char :: rest) = true.
Proof.
  intros Hl Hp. pose proof Hl as Hl'. unfold starts_local in Hl'. rewrite !andb_true_iff in Hl'. destruct Hl' as [[Hs _] _].
  apply HasPrefix_cons in Hs as [s ->]. unfold Parse in Hp. unfold target_path.
  assert (exists s' frag f, Cut ("/"%char :: s) "#" = ("/"%char :: s', frag, f) /\ ("/"%char :: s') `prefix_of` ("/"%char :: s))
    as (s' & frag & f & Ec & Hpre).
  { unfold Cut, IndexByte. cbn [IndexFunc]. rewrite bool_decide_eq_false_2 by done.
    destruct (IndexFunc _ s) as [i|]; cbn; [|by exists s, [], false].
    exists (take i s), (drop (S i) s), true. split; [done|]. apply prefix_cons, prefix_take. }
  rewrite Ec in *. cbn [fst]. destruct (cut_query_slash s') as (rest & q & Eq & Hpre2). rewrite Eq. cbn [fst].
  assert (starts_local ("/"%char :: rest) = true) as Hloc by (eapply starts_local_prefix; [by etrans|done]).
  destruct (parse ("/"%char :: s')) as [url|] eqn:Eu; [|done].
  assert (u_Scheme url = [] /\ u_Host url = [] /\ setPath ("/"%char :: rest) = Some (u_Path url, u_RawPath url)) as (H1 & H2 & H3).
  { unfold parse in Eu. destruct (existsb ctl_byte _); [done|]. rewrite bool_decide_eq_false_2 in Eu by done.
    change (getScheme ("/"%char :: s')) with (Some (@nil ascii, "/"%char :: s')) in Eu. cbn iota in Eu.
    change (ToLower []) with (@nil ascii) in Eu. rewrite Eq in Eu.
    pose proof Hloc as Hx. unfold starts_local in Hx. rewrite !andb_true_iff, !negb_true_iff in Hx. destruct Hx as [[Hy Hz] _].
    rewrite Hy, Hz in Eu. cbn [negb andb] in Eu. rewrite andb_false_r in Eu.
    destruct (setPath ("/"%char :: rest)) as [[p rp]|]; [|done]. by injection Eu as <-. }
  destruct (frag =s []); [injection Hp as <-; eauto 10|].
  destruct (unescape encodeFragment frag); [|done]. injection Hp as <-. cbn. eauto 10.
Qed.
(** A target whose path has only the bytes a path may have is kept as it is written. *)
Lemma EscapedPath_raw target u :
  starts_local target = true -> Parse target = Some u -> validEncoded (target_path target) = true ->
  EscapedPath u = target_path target.
Proof.
  intros Hl Hp Hv. destruct (parse_local _ _ Hl Hp) as (_ & _ & Hset & rest & Hr & _). unfold setPath in Hset.
  apply fmap_Some in Hset as (path & Hun & [= Hpath Hraw]). unfold EscapedPath. rewrite Hpath, Hraw.
  case_bool_decide as Eesc.
  - cbn. rewrite bool_decide_eq_false_2; [done|]. intros ->. rewrite Hr in Hun. cbn in Hun.
    by destruct (unescape encodePath rest).
  - rewrite Hv, Hun, bool_decide_eq_false_2 by (by rewrite Hr). cbn. by rewrite bool_decide_eq_true_2.
Qed.
(** The target of a preference redirect is local, neither absolute nor
    protocol-relative, for every target whose path is written with the bytes
    RFC 3986 allows in a path. *)
Theorem preferences_redirect_local target t :
  validPreferencesRedirect target = Some t -> validEncoded (target_path target) = true -> starts_local t = true.
Proof.
  unfold validPreferencesRedirect. destruct (_ || _ || _) eqn:E; [done|]. rewrite !orb_false_iff in E.
  destruct E as [[_ Hl%negb_false_iff] _]. destruct (Parse target) as [u|] eqn:Ep; [|done].
  destruct (_ || _); [done|]. destruct (bool_decide _); [done|]. intros [= <-] Hv.
  destruct (parse_local _ _ Hl Ep) as (_ & _ & _ & rest & Hr & Hloc).
  rewrite (EscapedPath_raw target) by done. rewrite Hr. unfold with_query. destruct (u_RawQuery u <>s []); [|done].
  by apply starts_local_extend.
Qed.
End redirects.
Lemma preferences_redirect_local_witness :
  validPreferencesRedirect (H := ascii_tables) (H0 := plain_authority) (str "/8.8.8.8?a=b#c") = Some (str "/8.8.8.8?a=b") /\
  starts_local (str "/8.8.8.8?a=b") = true.
Proof.
  assert (validPreferencesRedirect (H := ascii_tables) (H0 := plain_authority) (str "/8.8.8.8?a=b#c") = Some (str "/8.8.8.8?a=b")) as Hx
    by (vm_compute; reflexivity).
  split; [exact Hx|].
  apply (preferences_redirect_local (H := ascii_tables) (H0 := plain_authority) (str "/8.8.8.8?a=b#c")); [exact Hx|reflexivity].
Defined.

(** ** The contact throttle *)

(** Submissions in order, and those of them that were accepted. *)
Fixpoint submit_all (evs : list (Z * gostr)) (last : gmap gostr Z) : gmap gostr Z * list (Z * gostr) :=
  match evs with
  | [] => (last, [])
  | (now, ip) :: rest =>
      let '(last', ok) := allowContactSubmission now ip last in
      let '(final, accepted) := submit_all rest last' in
      (final, if ok then (now, ip) :: accepted else accepted)
  end.
(** What the map still knows of a submission accepted earlier. *)
Definition remembers (now : Z) (last : gmap gostr Z) (ev : Z * gostr) : Prop :=
  match last !! ev.2 with Some t => ev.1 <= t <= now | None => contactThrottleWindow <= now - ev.1 end.
Lemma remembers_later now now' last ev : now <= now' -> remembers now last ev -> remembers now' last ev.
Proof. unfold remembers. destruct (last !! ev.2); lia. Qed.
Lemma allow_remembers now ip last ev : remembers now last ev ->
  let '(last', ok) := allowContactSubmission now ip last in
  remembers now last' ev /\ (ok = true -> ev.2 = ip -> contactThrottleWindow <= now - ev.1).
Proof.
  unfold remembers, allowContactSubmission. intros Hr.
  destruct (match last !! ip with Some t => _ | None => _ end) eqn:Et; [done|].
  assert (ev.2 = ip -> contactThrottleWindow <= now - ev.1) as Hold.
  { intros <-. destruct (last !! ev.2) as [t|]; [apply Z.ltb_ge in Et; lia|done]. }
  split; [|done]. destruct (decide (ev.2 = ip)) as [Hip|Hne].
  - rewrite Hip, lookup_insert_eq. unfold contactThrottleWindow, Second in *. specialize (Hold Hip). lia.
  - rewrite lookup_insert_ne by done. destruct (Nat.leb _ _); [|done].
    destruct (last !! ev.2) as [t|] eqn:El.
    + destruct (decide (now - t < contactThrottleWindow)) as [Hx|Hx].
      * by rewrite (map_lookup_filter_Some_2 _ _ _ t El Hx).
      * rewrite (map_lookup_filter_None_2 _ last ev.2); [lia|]. right. intros t' Ht'. rewrite El in Ht'. injection Ht' as <-. done.
    + rewrite (map_lookup_filter_None_2 _ last ev.2); [done|]. by left.
Qed.
Lemma accepted_far now evs last ev :
  remembers now last ev -> Sorted Z.le (now :: (fst <$> evs)) ->
  Forall (fun b => b.2 = ev.2 -> contactThrottleWindow <= b.1 - ev.1) (submit_all evs last).2.
Proof.
  revert now last. induction evs as [|[n ip] evs IH]; intros now last Hr Hs; [done|]. cbn [submit_all].
  apply Sorted_inv in Hs as [Hs Hh]. apply HdRel_inv in Hh. cbn in Hh.
  pose proof (allow_remembers n ip last ev (remembers_later _ _ _ _ Hh Hr)) as Ha.
  destruct (allowContactSubmission n ip last) as [last' ok]. destruct Ha as [Hr' Hok].
  specialize (IH n last' Hr' Hs). destruct (submit_all evs last') as [final accepted]. cbn [snd] in *.
  destruct ok; [|done]. constructor; [|done]. cbn. intros ->. by apply Hok.
Qed.
(** However submissions of all clients interleave and whenever the table is
    swept, two accepted submissions of the contact form from one address are at
    least the throttle window apart. *)
Theorem contact_throttle_spacing evs :
  Sorted Z.le (fst <$> evs) ->
  ForallOrdPairs (fun a b => b.2 = a.2 -> contactThrottleWindow <= b.1 - a.1) (submit_all evs ∅).2.
Proof.
  generalize (∅ : gmap gostr Z). induction evs as [|[n ip] evs IH]; intros last Hs; [constructor|]. cbn [submit_all].
  destruct (allowContactSubmission n ip last) as [last' ok] eqn:Ea. pose proof (Sorted_inv Hs) as [Hs' _].
  specialize (IH last' Hs'). pose proof (accepted_far n evs last' (n, ip)) as Hfar.
  destruct (submit_all evs last') as [final accepted]. cbn [snd] in *. destruct ok; [|done]. constructor; [|done].
  apply Hfar; [|done]. unfold allowContactSubmission in Ea.
  destruct (match last !! ip with Some t => _ | None => _ end); [done|]. injection Ea as <-.
  unfold remembers. cbn. rewrite lookup_insert_eq. lia.
Qed.
Lemma contact_throttle_spacing_witness :
  let evs := [(0, str "a"); (Second, str "b"); (30 * Second, str "a"); (70 * Second, str "a")] in
  (submit_all evs ∅).2 = [(0, str "a"); (Second, str "b"); (70 * Second, str "a")] /\
  ForallOrdPairs (fun a b => b.2 = a.2 -> contactThrottleWindow <= b.1 - a.1) (submit_all evs ∅).2.
Proof.
  intros evs. split; [vm_compute; reflexivity|]. apply (contact_throttle_spacing evs). unfold evs. cbn.
  repeat constructor; vm_compute; discriminate.
Defined.

(** ** Examples and limits of the code *)

Definition visit (query : list (gostr * gostr)) : request :=
  let r := bare_request (str "203.0.113.5:4711") in
  {| r_Method := r_Method r; r_Host := r_Host r; r_URL_Host := r_URL_Host r; r_URL_Path := r_URL_Path r;
     r_URL_RawPath := []; r_Header := ∅; r_Cookies := []; r_Query := query; r_Form := None;
     r_RemoteAddr := r_RemoteAddr r; r_TLS := true; r_ContentLength := 0; r_ctx := background |}.
Definition no_texts : I18NManager := {| translations := ∅; fallback := str "en" |}.
Lemma import_cookies_confined_witness :
  let r' := visit [(str "theme", str "auto"); (str "cookie_consent", str "1")] in
  let c := {| c_Name := str "theme"; c_Value := str "auto"; c_Path := str "/"; c_Secure := true; c_HttpOnly := false;
              c_SameSite := SameSiteLax; c_MaxAge := year |} in
  SetCookie c ∈ ServerPreferencesImportHandler (H := ascii_tables) (H0 := plain_authority) demo_env no_texts None r' /\
  ((c_Name c = str "theme" /\ isValidTheme (c_Value c) = true) \/
   (c_Name c = str "lang" /\ IsSupported (c_Value c) = true) \/
   (c_Name c = lookupWidgetPreferenceCookie /\ validLookupWidget (c_Value c) = true)).
Proof.
  intros r' c.
  assert (SetCookie c ∈ ServerPreferencesImportHandler (H := ascii_tables) (H0 := plain_authority) demo_env no_texts None r') as Hin
    by (vm_compute; left).
  split; [exact Hin|].
  apply (import_cookies_confined (H := ascii_tables) (H0 := plain_authority) demo_env no_texts None r' c). left. exact Hin.
Defined.

(** An escaped second slash together with a byte that a path may not have makes
    the target be written anew from its decoded form: the visitor of a crafted
    import link is sent to another site. *)
Lemma preferences_open_redirect :
  SetHeader (str "Location") (str "//evil.example/%20") ∈
  ServerPreferencesImportHandler (H := ascii_tables) (H0 := plain_authority) demo_env no_texts None
    (visit [(str "redirect", str "/%2Fevil.example/ ")]).
Proof. vm_compute. right. left. Qed.
(** The other redirects use the decoded path in any case. *)
Lemma form_open_redirect r :
  safeRedirectTarget (H := ascii_tables) (H0 := plain_authority) r (str "/%2Fevil.example") = str "//evil.example".
Proof. reflexivity. Qed.
(** An absolute referrer, which is what browsers send, always leads to the home page. *)
Lemma referrer_ignored `{UnicodeTables} `{Authority} r s :
  safeRedirectTarget r (str "https://" ++ s) = str "/".
Proof.
  unfold safeRedirectTarget. destruct ((_ =s []) || _); [done|].
  assert (starts_local (str "https://" ++ s) = false) as ->; [|done].
  unfold starts_local. apply andb_false_iff. left. apply andb_false_iff. left. apply not_true_is_false.
  rewrite HasPrefix_true. by intros [k [=]].
Qed.
(** The table of the throttle has no ceiling: any number of addresses within one
    window stay in it. *)
Lemma throttle_unbounded n :
  size (submit_all ((fun i => (0, Itoa (Z.of_nat i))) <$> seq 0 n) ∅).1 = n.
Proof.
  assert (forall ks last, Forall (fun kv : gostr * Z => kv.2 = 0) (map_to_list last) -> NoDup ks ->
            Forall (fun k => last !! k = None) ks ->
            size (submit_all ((fun k => (0, k)) <$> ks) last).1 = (size last + length ks)%nat) as Hgen.
  { induction ks as [|k ks IH]; intros last Hz Hn Hf; [cbn; lia|]. cbn [fmap list_fmap submit_all].
    apply NoDup_cons in Hn as [Hk Hn]. apply Forall_cons in Hf as [Hl Hf].
    assert (allowContactSubmission 0 k last = (<[k := 0]> last, true)) as ->.
    { unfold allowContactSubmission. rewrite Hl. destruct (Nat.leb _ _); [|done]. f_equal. f_equal. apply map_filter_id.
      intros i x Hx%elem_of_map_to_list. rewrite Forall_forall in Hz. specialize (Hz _ Hx). cbn in *. subst. done. }
    specialize (IH (<[k := 0]> last)). destruct (submit_all _ _) as [final acc]. cbn [fst] in *.
    rewrite IH; [rewrite map_size_insert_None by done; cbn; lia| |done|].
    - rewrite map_to_list_insert by done. by constructor.
    - apply Forall_forall. intros j Hj. rewrite Forall_forall in Hf. rewrite lookup_insert_ne; [by apply Hf|]. intros ->. done. }
  replace ((fun i => (0, Itoa (Z.of_nat i))) <$> seq 0 n) with ((fun k => (0, k)) <$> ((fun i => Itoa (Z.of_nat i)) <$> seq 0 n))
    by (by rewrite <-list_fmap_compose).
  rewrite Hgen; [rewrite length_fmap, length_seq; done|by rewrite map_to_list_empty| |].
  - apply NoDup_fmap_2_strong; [|apply NoDup_seq]. intros x y _ _ Hxy. apply Itoa_inj in Hxy; lia.
  - apply Forall_forall. intros k _. apply lookup_empty.
Qed.
(** An announcement whose identifier has a comma is never dismissed. *)
Lemma comma_not_dismissed :
  let cookie v := {| r_Method := str "POST"; r_Host := []; r_URL_Host := []; r_URL_Path := []; r_URL_RawPath := []; r_Header := ∅;
                     r_Cookies := v; r_Query := []; r_Form := Some [(str "id", str "a,b")]; r_RemoteAddr := []; r_TLS := true;
                     r_ContentLength := 0; r_ctx := background |} in
  match DismissAnnouncementHandler (H := ascii_tables) (H0 := plain_authority) no_texts (cookie []) with
  | SetCookie c :: _ => dismissedAnnouncements (cookie [(c_Name c, c_Value c)]) = [str "a"; str "b"]
  | _ => False
  end.
Proof. vm_compute. reflexivity. Qed.
