(* ===== verification/Updater.v ===== *)
(** * Updates: [updater/update.go], [updater/replace_unix.go] and the client's [client/updater/update.go]

    Release selection and the installation of a downloaded binary.  The network
    is a function from addresses to answers; the file system a map from paths to
    files in which a rename fails between devices; every call can fail, as the
    record [machine] says.  The theorems: a release is offered exactly when it is
    the first of its channel that is not stale and differs from the running
    version; whatever fails, the running binary is replaced only by a download
    with the published checksum, and nothing else is touched; version comparison
    is a strict total order. *)
From stdpp Require Import base list gmap strings.
From Stdlib Require Import ZArith Lia.
From S2P Require Import Prelude GoStrings GoUtf8 GoPath GoTime Settings.
Local Open Scope Z_scope.
Local Open Scope go_scope.

(** ** Releases *)

Record Asset := mkAsset { asset_Name : gostr; BrowserDownloadURL : gostr }.
Record Release := mkRelease {
  TagName : gostr; Prerelease : bool; PublishedAt : gostr; HTMLURL : gostr; Assets : list Asset }.
Definition githubReleasesLatest : gostr := str "https://api.github.com/repos/apimgr/ipgaze/releases/latest".
Definition githubReleasesAll : gostr := str "https://api.github.com/repos/apimgr/ipgaze/releases".

(** What a GET is answered with: no response, or a status and the body as far
    as it could be read. *)
Inductive answer := Unreachable | Answer (status : Z) (body : gostr) (complete : bool).
(** [io.LimitReader]. *)
Definition limited (n : Z) (s : gostr) : gostr := if Z.of_nat (length s) <=? n then s else take (Z.to_nat n) s.

(** [updatechannel.Normalize] with the fallback both functions use. *)
Definition channel `{UnicodeTables} (branch : gostr) : gostr := default (str "stable") (Normalize branch).

Definition matchesBranch `{UnicodeTables} (r : Release) (branch : gostr) : bool :=
  let branch := channel branch in
  let isBeta := HasSuffix (TagName r) (str "-beta") in
  let isDevel := TagName r =s str "devel" in
  let isStable := negb (Prerelease r) && negb isDevel in
  if branch =s str "stable" then isStable
  else if branch =s str "beta" then isStable || isBeta
  else if branch =s str "devel" then isStable || isBeta || isDevel
  else false.

(** [Time.Unix]: whole seconds, towards the past. *)
Definition publishedAfter (r : Release) (buildEpoch : Z) : bool :=
  if (buildEpoch <=? 0) || (PublishedAt r =s []) then false
  else match Parse_RFC3339 (PublishedAt r) with
       | None => false
       | Some published => buildEpoch <? unix_ns published / Second
       end.

(** [time.Since] saturates; the product of the deferral wraps. *)
Definition since (now published : Z) : Z := Z.max MinInt64 (Z.min MaxInt64 (now - published)).
Definition IsEligible (now : Z) (r : Release) (deferDays : Z) : bool :=
  if deferDays <=? 0 then true
  else if PublishedAt r =s [] then true
  else match Parse_RFC3339 (PublishedAt r) with
       | None => true
       | Some published => int64 (int64 (deferDays * 24) * Hour) <=? since now (unix_ns published)
       end.

Definition is_current (currentVersion : gostr) (r : Release) : bool :=
  (TagName r =s currentVersion) || (TrimPrefix (TagName r) (str "v") =s currentVersion).
(** The loop over the releases of a channel. *)
Fixpoint pick `{UnicodeTables} (currentVersion branch : gostr) (buildEpoch : Z) (releases : list Release) : option Release :=
  match releases with
  | [] => None
  | r :: rest =>
      if negb (matchesBranch r branch) then pick currentVersion branch buildEpoch rest
      else if TagName r =s str "devel" then
        if publishedAfter r buildEpoch then Some r else pick currentVersion branch buildEpoch rest
      else if is_current currentVersion r then None
      else Some r
  end.

Inductive update_error :=
| NoResponse | HttpStatus (code : Z) | BadJson | NoBinary | NoChecksums | NoEntry | ChecksumRead
| TempDirFailed | TempFileFailed | WriteFailed | CloseFailed | Mismatch (expected got : gostr)
| ChmodFailed | NoExecutable | NoSymlink | StatFailed | RenameFailed | RestoreFailed
| RemoveFileFailed | RemoveDirFailed | BodyCloseFailed | NotWritable.

Section check.
  Context `{UnicodeTables} (web : gostr -> answer).
  (** The JSON decoder, which reads as much of the stream as a value needs. *)
  Context (decode_release : gostr -> bool -> option Release) (decode_releases : gostr -> bool -> option (list Release)).

Definition CheckForUpdate (currentVersion branch : gostr) (buildEpoch : Z) : result update_error (option Release) :=
  let branch := channel branch in
  match web (if branch =s str "stable" then githubReleasesLatest else githubReleasesAll) with
  | Unreachable => Err NoResponse
  | Answer status body complete =>
      if status =? 404 then Ok None
      else if negb (status =? 200) then Err (HttpStatus status)
      else
        let read := limited (4 * 2 ^ 20) body in
        let whole := complete || (4 * 2 ^ 20 <=? Z.of_nat (length body)) in
        if branch =s str "stable" then
          match decode_release read whole with
          | None => Err BadJson
          | Some release => Ok (if is_current currentVersion release then None else Some release)
          end
        else
          match decode_releases read whole with
          | None => Err BadJson
          | Some releases => Ok (pick currentVersion branch buildEpoch releases)
          end
  end.
End check.

(** ** Installing *)

Record file := mkFile { content : gostr; mode : Z }.
Abbreviation fsys := (gmap gostr file).

(** The platform, where things are, and which of its calls fail. *)
Record machine := mkMachine {
  GOOS : gostr; GOARCH : gostr; Executable : option gostr; EvalSymlinks : gostr -> option gostr;
  device : gostr -> Z; tempDir : option gostr; tempName : option gostr; copy_fails : option nat;
  f_close : bool; f_chmod_temp : bool; f_stat : bool; f_rename : bool; f_chmod : bool; f_writable : bool;
  f_body : bool; f_remove : bool; f_removeall : bool }.

Definition getBinaryName (m : machine) : gostr :=
  let name := str "ipgaze-" ++ GOOS m ++ str "-" ++ GOARCH m in
  if GOOS m =s str "windows" then name ++ str ".exe" else name.

Definition asset_url (assets : list Asset) (name : gostr) : gostr :=
  match find (fun a => asset_Name a =s name) assets with Some a => BrowserDownloadURL a | None => [] end.

(** The line of [sha256.txt] for an asset. *)
Definition checksum_entry `{UnicodeTables} (body assetName : gostr) : option gostr :=
  head (omap (fun line => match Fields line with
                          | [sum; name] => if name =s assetName then Some (ToLower sum) else None
                          | _ => None
                          end) (Split body ["010"%char])).
Definition fetchExpectedChecksum `{UnicodeTables} (web : gostr -> answer) (release : Release) (assetName : gostr)
  : result update_error gostr :=
  let checksumsURL := asset_url (Assets release) (str "sha256.txt") in
  if checksumsURL =s [] then Err NoChecksums
  else match web checksumsURL with
       | Unreachable => Err NoResponse
       | Answer status body complete =>
           if negb (status =? 200) then Err (HttpStatus status)
           else if negb complete && (Z.of_nat (length body) <? 2 ^ 20) then Err ChecksumRead
           else match checksum_entry (limited (2 ^ 20) body) assetName with Some sum => Ok sum | None => Err NoEntry end
       end.

(** [replaceBinary]: a rename, which works within one device only, and the mode
    of the binary it replaces. *)
Definition replaceBinary (m : machine) (currentPath newBinaryPath : gostr) (fs : fsys) : fsys * option update_error :=
  match fs !! currentPath with
  | None => (fs, Some StatFailed)
  | Some info =>
      if f_stat m then (fs, Some StatFailed)
      else match fs !! newBinaryPath with
           | None => (fs, Some RenameFailed)
           | Some new =>
               if f_rename m || negb (device m newBinaryPath =? device m currentPath) then (fs, Some RenameFailed)
               else
                 let fs := <[currentPath := new]> (delete newBinaryPath fs) in
                 if f_chmod m then (fs, Some RestoreFailed)
                 else (<[currentPath := mkFile (content new) (mode info)]> fs, None)
           end
  end.

(** [os.RemoveAll]: the path and everything below it. *)
Definition below (dir p : gostr) : bool := (p =s dir) || HasPrefix p (dir ++ str "/").
Definition RemoveAll (dir : gostr) (fs : fsys) : fsys := filter (fun kv => below dir kv.1 = false) fs.

(** [os.Executable], then [filepath.EvalSymlinks]. *)
Definition resolve_executable (m : machine) : result update_error gostr :=
  match Executable m with
  | None => Err NoExecutable
  | Some p => match EvalSymlinks m p with None => Err NoSymlink | Some q => Ok q end
  end.
Definition errs (e : option update_error) : list update_error := match e with Some x => [x] | None => [] end.

Section install.
  Context `{UnicodeTables} (web : gostr -> answer) (sha256_hex : gostr -> gostr) (m : machine).

(** What follows the download: the checksum, the mode, the swap. *)
Definition verify_and_replace (expectedSum tmpPath body : gostr) (fs : fsys) : fsys * list update_error :=
  let actualSum := sha256_hex body in
  if actualSum <>s expectedSum then (fs, [Mismatch expectedSum actualSum])
  else
    let windows := GOOS m =s str "windows" in
    if negb windows && f_chmod_temp m then (fs, [ChmodFailed])
    else
      let fs := if windows then fs else <[tmpPath := mkFile body 493]> fs in
      match resolve_executable m with
      | Err e => (fs, [e])
      | Ok currentPath => let '(fs, e) := replaceBinary m currentPath tmpPath fs in (fs, errs e)
      end.
(** The download into the temporary file, hashed as it is written. *)
Definition download (expectedSum tmpPath downloadURL : gostr) (fs : fsys) : fsys * list update_error :=
  match web downloadURL with
  | Unreachable => (fs, NoResponse :: (if f_close m then [CloseFailed] else []))
  | Answer status body complete =>
      let '(fs, es) :=
        if negb (status =? 200) then (fs, HttpStatus status :: (if f_close m then [CloseFailed] else []))
        else match copy_fails m with
             | Some n => (<[tmpPath := mkFile (take n body) 384]> fs, WriteFailed :: (if f_close m then [CloseFailed] else []))
             | None =>
                 let fs := <[tmpPath := mkFile body 384]> fs in
                 if negb complete then (fs, WriteFailed :: (if f_close m then [CloseFailed] else []))
                 else if f_close m then (fs, [CloseFailed])
                 else verify_and_replace expectedSum tmpPath body fs
             end in
      (fs, es ++ (if f_body m then [BodyCloseFailed] else []))
  end.
(** The deferred removals, the file before its directory. *)
Definition cleanup_temp (tmpDir tmpPath : gostr) (fs : fsys) (es : list update_error) : fsys * list update_error :=
  let '(fs, es) :=
    match fs !! tmpPath with
    | None => (fs, es)
    | Some _ => if f_remove m then (fs, es ++ [RemoveFileFailed]) else (delete tmpPath fs, es)
    end in
  if f_removeall m then (fs, es ++ [RemoveDirFailed]) else (RemoveAll tmpDir fs, es).

(** [DoUpdate]: the file system afterwards and the joined errors, none on success. *)
Definition DoUpdate (release : Release) (fs : fsys) : fsys * list update_error :=
  let assetName := getBinaryName m in
  let downloadURL := asset_url (Assets release) assetName in
  if downloadURL =s [] then (fs, [NoBinary])
  else match fetchExpectedChecksum web release assetName with
       | Err e => (fs, [e])
       | Ok expectedSum =>
           match tempDir m with
           | None => (fs, [TempDirFailed])
           | Some tmpDir =>
               match tempName m with
               | None => let '(fs, es) := (fs, [TempFileFailed]) in
                         if f_removeall m then (fs, es ++ [RemoveDirFailed]) else (RemoveAll tmpDir fs, es)
               | Some name =>
                   let tmpPath := tmpDir ++ str "/" ++ name in
                   let '(fs, es) := download expectedSum tmpPath downloadURL (<[tmpPath := mkFile [] 384]> fs) in
                   cleanup_temp tmpDir tmpPath fs es
               end
           end
       end.
End install.

(** ** Which release is offered *)

Section offers.
  Context `{UnicodeTables}.

(** A release that is not a candidate: of another channel, or a rolling build
    that is not newer than the running one. *)
Definition candidate (branch : gostr) (buildEpoch : Z) (r : Release) : bool :=
  matchesBranch r branch && ((TagName r <>s str "devel") || publishedAfter r buildEpoch).
Definition offer (currentVersion : gostr) (r : Release) : option Release :=
  if (TagName r <>s str "devel") && is_current currentVersion r then None else Some r.
Lemma pick_first currentVersion branch buildEpoch releases :
  pick currentVersion branch buildEpoch releases =
  head (filter (fun r => candidate branch buildEpoch r = true) releases) ≫= offer currentVersion.
Proof.
  induction releases as [|a rest IH]; [done|]. cbn [pick]. rewrite filter_cons, IH.
  destruct (decide (candidate branch buildEpoch a = true)) as [Hc|Hc]; unfold candidate in Hc.
  - apply andb_true_iff in Hc as [-> Hc]. cbn. unfold offer.
    destruct (TagName a =s str "devel"); cbn in *; [by rewrite Hc|done].
  - destruct (matchesBranch a branch); cbn [negb andb] in *; [|done].
    destruct (TagName a =s str "devel"); cbn in *; [|done]. by destruct (publishedAfter a buildEpoch).
Qed.

(** The channels are cumulative. *)
Lemma matchesBranch_cumulative r :
  (matchesBranch r (str "stable") = true -> matchesBranch r (str "beta") = true) /\
  (matchesBranch r (str "beta") = true -> matchesBranch r (str "devel") = true).
Proof.
  unfold matchesBranch. change (channel (str "stable")) with (str "stable"). change (channel (str "beta")) with (str "beta").
  change (channel (str "devel")) with (str "devel"). set (d := TagName r =s str "devel").
  generalize (HasSuffix (TagName r) (str "-beta")), d. intros [] []; cbn; destruct (Prerelease r); done.
Qed.

Lemma head_filter {A} (f : A -> bool) (l : list A) x :
  head (filter (fun y => f y = true) l) = Some x <->
  exists before after, l = before ++ x :: after /\ Forall (fun y => f y = false) before /\ f x = true.
Proof.
  split.
  - induction l as [|a l IH]; [done|]. rewrite filter_cons. destruct (decide (f a = true)) as [Ha|Ha%not_true_is_false].
    + intros [= <-]. by exists [], l.
    + intros (before & after & -> & ? & ?)%IH. exists (a :: before), after. auto.
  - intros (before & after & -> & Hb & Hx). induction Hb as [|y before Hy _ IH]; cbn [app]; rewrite filter_cons.
    + by rewrite decide_True.
    + rewrite decide_False; [done|]. by rewrite Hy.
Qed.

(** A release is offered exactly when the answer of the channel's address
    could be read and the release is the first in it of the channel that is not
    a stale rolling build (on the stable channel, the latest release), and it is
    not the running version under its tag, with or without a leading v; a rolling
    build, whose tag never changes, is offered when it is newer than this one. *)
Theorem CheckForUpdate_offers web decode_release decode_releases currentVersion branch buildEpoch r :
  CheckForUpdate web decode_release decode_releases currentVersion branch buildEpoch = Ok (Some r) <->
  exists body whole,
    (exists complete, web (if channel branch =s str "stable" then githubReleasesLatest else githubReleasesAll) =
       Answer 200 body complete /\ whole = (complete || (4 * 2 ^ 20 <=? Z.of_nat (length body)))) /\
    if channel branch =s str "stable" then
      decode_release (limited (4 * 2 ^ 20) body) whole = Some r /\ is_current currentVersion r = false
    else
      exists earlier later, decode_releases (limited (4 * 2 ^ 20) body) whole = Some (earlier ++ r :: later) /\
        Forall (fun x => candidate (channel branch) buildEpoch x = false) earlier /\
        candidate (channel branch) buildEpoch r = true /\ (TagName r = str "devel" \/ is_current currentVersion r = false).
Proof.
  unfold CheckForUpdate. set (u := if channel branch =s str "stable" then githubReleasesLatest else githubReleasesAll).
  destruct (web u) as [|status body complete] eqn:Ew.
  { split; [done|]. by intros (? & ? & (? & ? & _) & _). }
  destruct (Z.eqb_spec status 404) as [->|?]; [split; [done|]; by intros (? & ? & (? & ? & _) & _)|].
  destruct (Z.eqb_spec status 200) as [->|?]; cbn [negb]; [|split; [done|]; intros (? & ? & (? & [= ?] & _) & _); done].
  set (whole := complete || _). split.
  - intros Hr. exists body, whole. split; [by exists complete|]. case_bool_decide as Hb.
    + destruct (decode_release _ _) as [x|]; [|done]. destruct (is_current _ _) eqn:?; [done|]. by injection Hr as ->.
    + destruct (decode_releases _ _) as [rs|]; [|done]. injection Hr as Hr. rewrite pick_first in Hr.
      apply bind_Some in Hr as (x & (earlier & later & -> & ? & ?)%head_filter & Hx). unfold offer in Hx.
      destruct ((_ <>s _) && _) eqn:Ex; [done|]. injection Hx as ->. exists earlier, later. repeat split; [done..|].
      apply andb_false_iff in Ex as [Ex|]; [|auto]. left. by apply negb_false_iff, bool_decide_eq_true in Ex.
  - intros (? & ? & (? & [= <- <-] & ->) & Hr). fold whole in Hr. case_bool_decide as Hb.
    + destruct Hr as [-> Hc]. by rewrite Hc.
    + destruct Hr as (earlier & later & -> & ? & ? & Hd). do 2 f_equal. rewrite pick_first. apply bind_Some.
      exists r. split; [apply head_filter; eauto|]. unfold offer.
      destruct Hd as [-> | ->]; [by rewrite bool_decide_eq_true_2|]. by rewrite andb_false_r.
Qed.
End offers.

(** ** What an update does to the machine *)

Lemma below_temp dir name : below dir (dir ++ str "/" ++ name) = true.
Proof. unfold below. rewrite orb_true_iff. right. rewrite (assoc_L (++)). apply HasPrefix_app. Qed.
Lemma RemoveAll_lookup dir fs p : RemoveAll dir fs !! p = if below dir p then None else fs !! p.
Proof.
  unfold RemoveAll. destruct (below dir p) eqn:E.
  - apply map_lookup_filter_None. right. intros x _ Hp. cbn in Hp. congruence.
  - destruct (fs !! p) as [x|] eqn:Ex.
    + by apply map_lookup_filter_Some.
    + apply map_lookup_filter_None. by left.
Qed.

Section installation.
  Context (web : gostr -> answer) (sha256_hex : gostr -> gostr) (m : machine).

(** The binary at [p] is as it was and the failure is reported, or it is the
    complete answer of [url], whose checksum is [sum]; without an error it keeps
    the mode of the binary it replaces. *)
Definition installs (sum url p : gostr) (fs fs' : fsys) (es : list update_error) : Prop :=
  (fs' !! p = fs !! p /\ es <> []) \/
  (exists old body md, fs !! p = Some old /\ web url = Answer 200 body true /\ sha256_hex body = sum /\
     fs' !! p = Some (mkFile body md) /\ (es = [] -> md = mode old)).

Lemma replaceBinary_spec cur new fs fs' e f :
  cur <> new -> fs !! new = Some f -> replaceBinary m cur new fs = (fs', e) ->
  (forall q, q <> cur -> q <> new -> fs' !! q = fs !! q) /\
  ((fs' = fs /\ e <> None) \/
   exists old md, fs !! cur = Some old /\ fs' !! cur = Some (mkFile (content f) md) /\ (e = None -> md = mode old)).
Proof.
  intros Hne Hf. unfold replaceBinary. rewrite Hf. destruct (fs !! cur) as [old|]; [|intros [= <- <-]; split; [done|by left]].
  destruct (f_stat m); [intros [= <- <-]; split; [done|by left]|].
  destruct (_ || _); [intros [= <- <-]; split; [done|by left]|].
  destruct (f_chmod m); intros [= <- <-]; (split; [intros q ? ?; by rewrite !lookup_insert_ne, ?lookup_delete_ne by congruence|]).
  - right. exists old, (mode f). rewrite lookup_insert_eq. by destruct f.
  - right. exists old, (mode old). by rewrite lookup_insert_eq.
Qed.

(** [fs'] differs from [fs] at the executable and in the temporary directory only. *)
Definition touches_only (dir : gostr) (fs fs' : fsys) : Prop :=
  forall q, resolve_executable m <> Ok q -> below dir q = false -> fs' !! q = fs !! q.
Lemma touches_only_insert dir fs fs' q f : below dir q = true -> touches_only dir fs fs' -> touches_only dir fs (<[q := f]> fs').
Proof. intros Hb Ht p Hr Hp. rewrite lookup_insert_ne by congruence. by apply Ht. Qed.

Lemma not_installed sum url p fs fs' e es : fs' !! p = fs !! p -> installs sum url p fs fs' (e :: es).
Proof. by left. Qed.
Lemma installs_errors sum url p fs fs' es es' : installs sum url p fs fs' es -> installs sum url p fs fs' (es ++ es').
Proof.
  intros [[H He]|(old & body & md & Ho & Hw & Hs & Hn & Hm)]; [left; split; [done|by destruct es]|].
  right. exists old, body, md. repeat split; [done..|]. intros [-> _]%app_eq_nil. auto.
Qed.
(** What [download] guarantees, with the temporary file inside [dir]. *)
Definition outcome (dir sum url : gostr) (fs fs' : fsys) (es : list update_error) : Prop :=
  touches_only dir fs fs' /\
  (forall p, resolve_executable m = Ok p -> installs sum url p fs fs' es) /\
  (es = [] -> exists p, resolve_executable m = Ok p).
Lemma outcome_failed dir sum url fs fs' e es :
  (forall p, resolve_executable m = Ok p -> below dir p = false) ->
  (forall q, below dir q = false -> fs' !! q = fs !! q) -> outcome dir sum url fs fs' (e :: es).
Proof.
  intros Hexe Hq. split; [intros q _; apply Hq|]. split; [|done]. intros p Hp. apply not_installed. by apply Hq, Hexe.
Qed.
Lemma outcome_errors dir sum url fs fs' es es' : outcome dir sum url fs fs' es -> outcome dir sum url fs fs' (es ++ es').
Proof.
  intros (Ht & Hi & He). split; [done|]. split; [intros p Hp; by apply installs_errors, Hi|]. intros [-> _]%app_eq_nil. auto.
Qed.
Lemma outcome_cleanup dir sum url fs fs1 fs2 es :
  (forall p, resolve_executable m = Ok p -> below dir p = false) ->
  (forall q, below dir q = false -> fs2 !! q = fs1 !! q) -> outcome dir sum url fs fs1 es -> outcome dir sum url fs fs2 es.
Proof.
  intros Hexe Hq (Ht & Hi & He). split; [intros q Hr Hb; rewrite Hq by done; by apply Ht|]. split; [|done].
  intros p Hp. unfold installs. rewrite (Hq p) by by apply Hexe. by apply Hi.
Qed.

Lemma outcome_base dir sum url fs fs0 fs' es :
  (forall p, resolve_executable m = Ok p -> below dir p = false) ->
  (forall q, below dir q = false -> fs0 !! q = fs !! q) -> outcome dir sum url fs0 fs' es -> outcome dir sum url fs fs' es.
Proof.
  intros Hexe Hq (Ht & Hi & He). split; [intros q Hr Hb; rewrite Ht by done; by apply Hq|]. split; [|done].
  intros p Hp. unfold installs. rewrite <- (Hq p) by by apply Hexe. by apply Hi.
Qed.
Lemma verify_and_replace_spec dir url sum tmp body fs fs' es :
  below dir tmp = true -> (forall p, resolve_executable m = Ok p -> below dir p = false) ->
  web url = Answer 200 body true -> fs !! tmp = Some (mkFile body 384) ->
  verify_and_replace sha256_hex m sum tmp body fs = (fs', es) -> outcome dir sum url fs fs' es.
Proof.
  intros Htmp Hexe Hweb Hf. unfold verify_and_replace.
  case_bool_decide as Hs; cbn [negb]; [|intros [= <- <-]; by apply outcome_failed].
  destruct (_ && f_chmod_temp m); [intros [= <- <-]; by apply outcome_failed|].
  set (fs1 := if _ =s _ then fs else _).
  assert (exists md, fs1 !! tmp = Some (mkFile body md)) as [md1 Hf1].
  { unfold fs1. case_bool_decide; [eauto|]. rewrite lookup_insert_eq. eauto. }
  assert (forall q, below dir q = false -> fs1 !! q = fs !! q) as Hq.
  { intros q Hq. unfold fs1. case_bool_decide; [done|]. by rewrite lookup_insert_ne by congruence. }
  destruct (resolve_executable m) as [cur|e] eqn:Er; [|intros [= <- <-]; apply outcome_failed; [by rewrite Er|done]].
  destruct (replaceBinary m cur tmp fs1) as [fs2 e] eqn:Eb. intros [= <- <-].
  pose proof (Hexe cur eq_refl) as Hcur. assert (cur <> tmp) as Hne by congruence.
  destruct (replaceBinary_spec _ _ _ _ _ _ Hne Hf1 Eb) as [Hother Hdone].
  split; [intros q Hr Hb; rewrite Hother by congruence; by apply Hq|]. split; [|eauto]. rewrite Er. intros p [= <-].
  destruct Hdone as [[-> He]|(old & md & Hold & Hnew & He)].
  - left. split; [by apply Hq|]. by destruct e.
  - right. exists old, body, md. rewrite <- Hq by done. repeat split; [done..|]. destruct e; cbn; [done|auto].
Qed.

Lemma download_spec dir sum tmp url fs fs' es :
  below dir tmp = true -> (forall p, resolve_executable m = Ok p -> below dir p = false) ->
  download web sha256_hex m sum tmp url (<[tmp := mkFile [] 384]> fs) = (fs', es) -> outcome dir sum url fs fs' es.
Proof.
  intros Htmp Hexe. unfold download.
  assert (Hin : forall f (g : fsys), (forall q, below dir q = false -> g !! q = fs !! q) ->
    forall q, below dir q = false -> <[tmp := f]> g !! q = fs !! q)
    by (intros f g Hg q Hq; rewrite lookup_insert_ne by congruence; auto).
  destruct (web url) as [|status body complete] eqn:Hw; [intros [= <- <-]; apply outcome_failed; auto|].
  destruct (if negb (status =? 200) then _ else _) as [fs1 es1] eqn:E. intros [= <- <-]. apply outcome_errors.
  destruct (Z.eqb_spec status 200) as [->|?]; cbn [negb] in E; [|injection E as <- <-; apply outcome_failed; auto].
  destruct (copy_fails m); [injection E as <- <-; apply outcome_failed; auto|].
  destruct complete; cbn [negb] in E; [|injection E as <- <-; apply outcome_failed; auto].
  destruct (f_close m); [injection E as <- <-; apply outcome_failed; auto|].
  apply (outcome_base _ _ _ _ (<[tmp := mkFile body 384]> (<[tmp := mkFile [] 384]> fs))); [done|by apply Hin, Hin|].
  eapply verify_and_replace_spec; [done..|apply lookup_insert_eq|done].
Qed.

Lemma cleanup_temp_spec dir name fs fs' es es' :
  cleanup_temp m dir (dir ++ str "/" ++ name) fs es = (fs', es') ->
  (forall q, below dir q = false -> fs' !! q = fs !! q) /\ (exists more, es' = es ++ more) /\
  (f_removeall m = false -> forall q, below dir q = true -> fs' !! q = None).
Proof.
  unfold cleanup_temp. pose proof (below_temp dir name) as Hb. set (tmp := dir ++ _) in *.
  destruct (match fs !! tmp with None => _ | Some _ => _ end) as [fs1 es1] eqn:E.
  assert ((forall q, below dir q = false -> fs1 !! q = fs !! q) /\ exists more, es1 = es ++ more) as [Hq [more ->]].
  { destruct (fs !! tmp); [destruct (f_remove m)|]; injection E as <- <-.
    - eauto.
    - split; [|exists []; by rewrite app_nil_r]. intros q Hq. apply lookup_delete_ne. congruence.
    - split; [done|]. exists []. by rewrite app_nil_r. }
  destruct (f_removeall m); intros [= <- <-].
  - split; [done|]. split; [|done]. exists (more ++ [RemoveDirFailed]). by rewrite (assoc_L (++)).
  - split; [|split; [eauto|]]; intros q Hd; [|intros Hr]; rewrite RemoveAll_lookup; [rewrite Hd; auto|by rewrite Hr].
Qed.
End installation.

Section update.
  Context `{UnicodeTables} (web : gostr -> answer) (sha256_hex : gostr -> gostr) (m : machine).

(** The release publishes [sum] for an asset: a line of its [sha256.txt] has it. *)
Definition publishes (release : Release) (name sum : gostr) : Prop :=
  exists body complete line field,
    web (asset_url (Assets release) (str "sha256.txt")) = Answer 200 body complete /\
    line ∈ Split (limited (2 ^ 20) body) ["010"%char] /\ Fields line = [field; name] /\ sum = ToLower field.
Lemma fetchExpectedChecksum_published release name sum :
  fetchExpectedChecksum web release name = Ok sum -> publishes release name sum.
Proof.
  unfold fetchExpectedChecksum. destruct (_ =s _); [done|].
  destruct (web _) as [|status body complete] eqn:Ew; [done|].
  destruct (Z.eqb_spec status 200) as [->|?]; cbn [negb]; [|done]. destruct (negb complete && _); [done|].
  destruct (checksum_entry _ _) as [s|] eqn:Ec; [|done]. intros [= <-]. unfold checksum_entry in Ec.
  apply head_Some_elem_of, list_elem_of_omap in Ec as (line & Hin & Hl). exists body, complete, line.
  destruct (Fields line) as [|f [|n [|]]]; try done. case_bool_decide as Hn; [|done]. injection Hl as <-. subst n. eauto.
Qed.

Definition outside (q : gostr) : Prop := forall dir, tempDir m = Some dir -> below dir q = false.
Definition safe_update (release : Release) (fs fs' : fsys) (es : list update_error) : Prop :=
  (forall q, resolve_executable m <> Ok q -> outside q -> fs' !! q = fs !! q) /\
  (forall p, resolve_executable m = Ok p ->
     (fs' !! p = fs !! p /\ es <> []) \/
     (exists old body md, fs !! p = Some old /\ fs' !! p = Some (mkFile body md) /\ (es = [] -> md = mode old) /\
        web (asset_url (Assets release) (getBinaryName m)) = Answer 200 body true /\
        publishes release (getBinaryName m) (sha256_hex body))) /\
  (es = [] -> exists p, resolve_executable m = Ok p) /\
  (f_removeall m = false -> forall q, ~ outside q -> fs !! q = None -> fs' !! q = None).
Lemma safe_update_failed release fs e es : safe_update release fs fs (e :: es).
Proof. split; [done|]. split; [by left|]. done. Qed.

(** C17. Whatever fails on the way, an update changes nothing outside its
    temporary directory but the running binary, and that only into the complete
    download of the asset for this platform, with a checksum the release
    publishes for it; an update that reports no error has replaced the binary and
    kept its mode, one that left it alone reports an error, and nothing is left
    in the temporary directory unless it could not be removed. *)
Theorem DoUpdate_installs_verified release fs :
  (forall p, resolve_executable m = Ok p -> outside p) ->
  let '(fs', es) := DoUpdate web sha256_hex m release fs in safe_update release fs fs' es.
Proof.
  intros Hexe. unfold DoUpdate. destruct (_ =s []); [apply safe_update_failed|].
  destruct (fetchExpectedChecksum _ _ _) as [sum|e] eqn:Ef; [|apply safe_update_failed].
  destruct (tempDir m) as [dir|] eqn:Ed; [|apply safe_update_failed].
  assert (forall p, resolve_executable m = Ok p -> below dir p = false) as Hx by (intros p Hp; by apply (Hexe p)).
  assert (forall q, ~ outside q -> below dir q = true) as Hin.
  { intros q Hq. apply not_false_is_true. intros Hb. apply Hq. intros d' [= <-]%(eq_trans (eq_sym Ed)). done. }
  destruct (tempName m) as [name|].
  - destruct (download _ _ _ _ _ _ _) as [fs1 es1] eqn:Edl. destruct (cleanup_temp _ _ _ _ _) as [fs2 es2] eqn:Ecl.
    apply (download_spec _ _ _ dir) in Edl; [|apply below_temp|done].
    apply cleanup_temp_spec in Ecl as (Hq & [more ->] & Hgone).
    apply (outcome_errors _ _ _ _ _ _ _ _ _ more) in Edl. pose proof (outcome_cleanup _ _ _ _ _ _ _ _ _ _ Hx Hq Edl) as (Ht & Hi & He).
    split; [intros q Hr Ho; apply Ht; [done|by apply Ho]|]. split; [|split; [done|]].
    + intros p Hp. destruct (Hi p Hp) as [|(old & body & md & ? & ? & <- & ? & ?)]; [by left|]. right. exists old, body, md.
      repeat split; [done..|]. by apply fetchExpectedChecksum_published.
    + intros Hr q Hq' _. apply Hgone; [done|by apply Hin].
  - assert (forall q, below dir q = false -> RemoveAll dir fs !! q = fs !! q) as Hq
      by (intros q Hq; by rewrite RemoveAll_lookup, Hq).
    destruct (f_removeall m) eqn:Er; [by apply safe_update_failed|].
    split; [intros q Hr Ho; apply Hq, Ho, Ed|]. split; [intros p Hp; left; split; [by apply Hq, Hx|done]|]. split; [done|].
    intros _ q Ho%Hin _. by rewrite RemoveAll_lookup, Ho.
Qed.
End update.

(** ** Example *)

Definition demo_release : Release :=
  mkRelease (str "v1.0.0") false (str "2024-01-01T00:00:00Z") []
    [mkAsset (str "ipgaze-linux-amd64") (str "u/bin"); mkAsset (str "sha256.txt") (str "u/sums")].
Definition demo_web (u : gostr) : answer :=
  if u =s str "u/bin" then Answer 200 (str "new") true
  else if u =s str "u/sums" then Answer 200 (str "0A  ipgaze-linux-arm64" ++ ["010"%char] ++ str "0B  ipgaze-linux-amd64") true
  else Unreachable.
Definition demo_sum (body : gostr) : gostr := if body =s str "new" then str "0b" else str "ff".
Definition demo_machine : machine :=
  mkMachine (str "linux") (str "amd64") (Some (str "/usr/bin/ipgaze")) Some (fun _ => 0) (Some (str "/tmp/apimgr/ipgaze-1"))
    (Some (str "ipgaze-update-1")) None false false false false false false false false false.
Lemma DoUpdate_installs_verified_witness :
  let fs := {[ str "/usr/bin/ipgaze" := mkFile (str "old") 493 ]} in
  let '(fs', es) := DoUpdate (H := ascii_tables) demo_web demo_sum demo_machine demo_release fs in
  fs' = {[ str "/usr/bin/ipgaze" := mkFile (str "new") 493 ]} /\ es = [] /\
  safe_update (H := ascii_tables) demo_web demo_sum demo_machine demo_release fs fs' es.
Proof.
  cbv zeta. set (fs := {[ _ := _ ]}).
  assert (forall p, resolve_executable demo_machine = Ok p -> outside demo_machine p) as Hexe.
  { intros p [= <-] dir [= <-]. reflexivity. }
  pose proof (DoUpdate_installs_verified (H := ascii_tables) demo_web demo_sum demo_machine demo_release fs Hexe) as Hs.
  destruct (DoUpdate _ _ _ _ _) as [fs' es] eqn:E. split; [|split; [|exact Hs]].
  - change fs' with (fs', es).1. rewrite <- E. vm_compute. reflexivity.
  - change es with (fs', es).2. rewrite <- E. vm_compute. reflexivity.
Defined.

(** The download is in the temporary directory of the system; when that is on
    another device than the binary, the rename fails and no update succeeds. *)
Lemma other_device_never_updates m cur new fs :
  device m new <> device m cur -> is_Some (fs !! cur) -> is_Some (fs !! new) ->
  replaceBinary m cur new fs = (fs, Some (if f_stat m then StatFailed else RenameFailed)).
Proof.
  intros Hd [old Ho] [f Hf]. unfold replaceBinary. rewrite Ho, Hf. destruct (f_stat m); [done|].
  apply Z.eqb_neq in Hd. rewrite Hd, orb_true_r. done.
Qed.

(** Versions are compared for equality only: an older release is offered as an
    update. *)
Lemma older_release_offered :
  CheckForUpdate (H := ascii_tables) (fun _ => Answer 200 [] true) (fun _ _ => Some demo_release) (fun _ _ => None)
    (str "2.0.0") (str "stable") 0 = Ok (Some demo_release).
Proof. vm_compute. reflexivity. Qed.

(** The deferral wraps around: a release of this moment is eligible under a
    deferral of 106752 days. *)
Lemma long_deferral_wraps r t : Parse_RFC3339 (PublishedAt r) = Some t -> IsEligible (unix_ns t) r 106752 = true.
Proof.
  intros Hp. unfold IsEligible. rewrite Hp. unfold since. rewrite Z.sub_diag.
  case_bool_decide; reflexivity.
Qed.

(** ** The client's updater *)

Module Cli.

Record CheckResult := mkCheck { cr_Current : gostr; cr_Available : gostr; cr_SHA256 : gostr; cr_BelowMin : bool; cr_MinVersion : gostr }.
(** [api.AutodiscoverResponse], as far as the updater reads it. *)
Record discovery := mkDiscovery { CLIMinVersion : gostr; CLIVersions : gmap gostr (gostr * gostr) }.
Inductive audit := UpdateStarted | UpdateForced | ChecksumInvalid | UpdateCompleted.

Definition PlatformKey (m : machine) : gostr := GOOS m ++ str "-" ++ GOARCH m.
Definition BinaryFilename (m : machine) (projectName : gostr) : gostr :=
  let name := projectName ++ str "-cli-" ++ GOOS m ++ str "-" ++ GOARCH m in
  if GOOS m =s str "windows" then name ++ str ".exe" else name.
Definition NeedsUpdate (r : CheckResult) : bool := (cr_Available r <>s []) && (cr_Current r <>s cr_Available r).

(** The leading decimal of a component, in the 64 bits of an [int]. *)
Fixpoint leading_number (num : Z) (f : gostr) : Z :=
  match f with
  | [] => num
  | c :: rest => if isDigit c then leading_number (int64 (num * 10 + (code c - 48))) rest else num
  end.
Definition parseVersionParts (v : gostr) : list Z :=
  leading_number 0 <$> Split (TrimPrefix (TrimSpace v) (str "v")) (str ".").
(** The loop over [n] components, missing ones being 0. *)
Fixpoint compare_parts (n : nat) (pa pb : list Z) : comparison :=
  match n with
  | O => Eq
  | S n => match hd 0 pa ?= hd 0 pb with Eq => compare_parts n (tail pa) (tail pb) | c => c end
  end.
Definition isOlderVersion (a b : gostr) : bool :=
  let pa := parseVersionParts a in
  let pb := parseVersionParts b in
  match compare_parts (Nat.max (length pa) (length pb)) pa pb with
  | Lt => true
  | Gt => false
  | Eq => (a <>s b) && str_ltb a b
  end.

Definition CheckForUpdates (m : machine) (autodiscover : result update_error discovery) (currentVersion : gostr)
  : result update_error CheckResult * list audit :=
  match autodiscover with
  | Err e => (Err e, [])
  | Ok disc =>
      let '(version, sum) := default ([], []) (CLIVersions disc !! PlatformKey m) in
      let belowMin := (CLIMinVersion disc <>s []) && isOlderVersion currentVersion (CLIMinVersion disc) in
      (Ok (mkCheck currentVersion version sum belowMin (CLIMinVersion disc)), if belowMin then [UpdateForced] else [])
  end.

(** [DownloadBinary] into [dst]; a name that cannot be created is a failure. *)
Definition DownloadBinary (web : gostr -> answer) (m : machine) (url dst : gostr) (fs : fsys) : fsys * list update_error :=
  match web url with
  | Unreachable => (fs, [NoResponse])
  | Answer status body complete =>
      let '(fs, es) :=
        if negb (status =? 200) then (fs, [HttpStatus status])
        else match tempName m with
             | None => (fs, [TempFileFailed])
             | Some _ =>
                 match copy_fails m with
                 | Some n => (<[dst := mkFile (take n body) 420]> fs, WriteFailed :: (if f_close m then [CloseFailed] else []))
                 | None =>
                     let fs := <[dst := mkFile body 420]> fs in
                     if negb complete then (fs, WriteFailed :: (if f_close m then [CloseFailed] else []))
                     else (fs, if f_close m then [CloseFailed] else [])
                 end
             end in
      (fs, es ++ (if f_body m then [BodyCloseFailed] else []))
  end.
(** [removeTemp] and the error it adds. *)
Definition removeTemp (m : machine) (path : gostr) (fs : fsys) : fsys * list update_error :=
  match fs !! path with
  | None => (fs, [])
  | Some _ => if f_remove m then (fs, [RemoveFileFailed]) else (delete path fs, [])
  end.
Definition abort (m : machine) (tmpPath : gostr) (e : update_error) (es : list update_error) (fs : fsys) : fsys * list update_error :=
  let '(fs, more) := removeTemp m tmpPath fs in (fs, e :: es ++ more).

(** The swap of a verified file. *)
Definition install_verified (m : machine) (tmpPath : gostr) (f : file) (fs : fsys) : fsys * list update_error :=
  let windows := GOOS m =s str "windows" in
  if negb windows && f_chmod_temp m then abort m tmpPath ChmodFailed [] fs
  else
    let fs := if windows then fs else <[tmpPath := mkFile (content f) 493]> fs in
    match resolve_executable m with
    | Err e => abort m tmpPath e [] fs
    | Ok currentPath =>
        if f_writable m then abort m tmpPath NotWritable [] fs
        else let '(fs, e) := replaceBinary m currentPath tmpPath fs in
             match e with Some e => abort m tmpPath e [] fs | None => (fs, []) end
    end.

(** What follows the download, with its errors. *)
Definition after_download (sha256_hex : gostr -> gostr) (m : machine) (expected tmpPath : gostr) (es : list update_error)
  (log : list audit) (fs : fsys) : fsys * list update_error * list audit :=
  match es, fs !! tmpPath with
  | e :: es, _ => (abort m tmpPath e es fs, log)
  | [], None => (abort m tmpPath TempFileFailed [] fs, log)
  | [], Some f =>
      if expected =s [] then (abort m tmpPath NoChecksums [] fs, log ++ [ChecksumInvalid])
      else
        let got := sha256_hex (content f) in
        if got <>s expected then (abort m tmpPath (Mismatch expected got) [] fs, log ++ [ChecksumInvalid])
        else let '(fs, es) := install_verified m tmpPath f fs in
             (fs, es, match es with [] => log ++ [UpdateCompleted] | _ => log end)
  end.
(** [Do], up to the re-execution of the new binary: the deferred removal of the
    directory only reports on the console. *)
Definition Do (web : gostr -> answer) (sha256_hex : gostr -> gostr) (m : machine) (autodiscover : result update_error discovery)
  (url : gostr) (currentVersion : gostr) (fs : fsys) : fsys * list update_error * list audit :=
  let '(checked, log) := CheckForUpdates m autodiscover currentVersion in
  let log := UpdateStarted :: log in
  match checked with
  | Err e => (fs, [e], log)
  | Ok r =>
      if negb (NeedsUpdate r) then (fs, [], log)
      else match tempDir m with
           | None => (fs, [TempDirFailed], log)
           | Some tmpDir =>
               let tmpPath := tmpDir ++ str "/" ++ str "cli.update.tmp" in
               let '(fs, es) := DownloadBinary web m url tmpPath fs in
               let '(fs, es, log) := after_download sha256_hex m (cr_SHA256 r) tmpPath es log fs in
               (if f_removeall m then fs else RemoveAll tmpDir fs, es, log)
           end
  end.

(** *** Version comparison *)

Lemma compare_parts_refl n l : compare_parts n l l = Eq.
Proof. revert l. induction n as [|n IH]; intros l; [done|]. cbn. by rewrite Z.compare_refl. Qed.
Lemma compare_parts_opp n a b : compare_parts n b a = CompOpp (compare_parts n a b).
Proof.
  revert a b. induction n as [|n IH]; intros a b; [done|]. cbn. rewrite (Z.compare_antisym (hd 0 a)).
  by destruct (hd 0 a ?= hd 0 b); cbn.
Qed.
Lemma compare_parts_Eq n a b c : compare_parts n a b = Eq -> compare_parts n a c = compare_parts n b c.
Proof.
  revert a b c. induction n as [|n IH]; intros a b c; [done|]. cbn. destruct (Z.compare_spec (hd 0 a) (hd 0 b)) as [->| |]; try done.
  intros Hab. by rewrite (IH _ _ (tail c) Hab).
Qed.
Lemma compare_parts_Lt n a b c : compare_parts n a b = Lt -> compare_parts n b c = Lt -> compare_parts n a c = Lt.
Proof.
  revert a b c. induction n as [|n IH]; intros a b c; [done|]. cbn.
  destruct (Z.compare_spec (hd 0 a) (hd 0 b)), (Z.compare_spec (hd 0 b) (hd 0 c)), (Z.compare_spec (hd 0 a) (hd 0 c));
    try done; try lia. apply IH.
Qed.
Lemma compare_parts_extend n k a b : (length a <= n)%nat -> (length b <= n)%nat ->
  compare_parts (n + k) a b = compare_parts n a b.
Proof.
  revert a b. induction n as [|n IH]; intros a b Ha Hb.
  - destruct a, b; cbn in *; try lia. apply compare_parts_refl.
  - cbn. rewrite IH; [done|destruct a; cbn in *; lia|destruct b; cbn in *; lia].
Qed.
Lemma compare_parts_decided n k a b : compare_parts n a b = Lt -> compare_parts (n + k) a b = Lt.
Proof. revert a b. induction n as [|n IH]; intros a b; [done|]. cbn. destruct (hd 0 a ?= hd 0 b); [apply IH|done..]. Qed.
(** Versions compared over enough components. *)
Lemma isOlderVersion_at n a b : (length (parseVersionParts a) <= n)%nat -> (length (parseVersionParts b) <= n)%nat ->
  isOlderVersion a b = match compare_parts n (parseVersionParts a) (parseVersionParts b) with
                       | Lt => true | Gt => false | Eq => str_ltb a b end.
Proof.
  intros Ha Hb. unfold isOlderVersion. set (k := Nat.max _ _). replace n with (k + (n - k))%nat by lia.
  rewrite compare_parts_extend by lia. destruct (compare_parts _ _ _); [|done..].
  case_bool_decide as E; cbn; [|done]. subst. symmetry. apply str_ltb_irrefl.
Qed.
(** The comparison that decides whether a client is below the server's
    minimum version is a strict total order on version strings, and it orders
    versions by their first differing numeric component before anything else. *)
Theorem isOlderVersion_order a b c :
  isOlderVersion a a = false /\
  (isOlderVersion a b = true -> isOlderVersion b c = true -> isOlderVersion a c = true) /\
  (a <> b -> isOlderVersion a b = negb (isOlderVersion b a)) /\
  (forall n, compare_parts n (parseVersionParts a) (parseVersionParts b) = Lt -> isOlderVersion a b = true).
Proof.
  set (n := (length (parseVersionParts a) + length (parseVersionParts b) + length (parseVersionParts c))%nat).
  rewrite !(isOlderVersion_at n) by lia. set (pa := parseVersionParts a). set (pb := parseVersionParts b).
  set (pc := parseVersionParts c). split; [by rewrite compare_parts_refl, str_ltb_irrefl|]. split; [|split].
  - destruct (compare_parts n pa pb) eqn:E1; [|destruct (compare_parts n pb pc) eqn:E2|done]; intros H1.
    + rewrite (compare_parts_Eq _ _ _ _ E1). destruct (compare_parts n pb pc); [by apply str_ltb_trans|done..].
    + intros _. rewrite compare_parts_opp, (compare_parts_Eq n pc pb pa) by by rewrite compare_parts_opp, E2.
      rewrite <- compare_parts_opp. by rewrite E1.
    + by rewrite (compare_parts_Lt _ _ _ _ E1 E2).
    + done.
  - intros Hne. rewrite (compare_parts_opp n pa pb). destruct (compare_parts n pa pb); cbn; [|done..].
    destruct (str_ltb_trichotomy a b) as [Hx|[?|Hx]]; [|done|]; rewrite (str_ltb_asym _ _ Hx), Hx; done.
  - intros k Hk. destruct (decide (k <= n)%nat) as [Hle|Hle].
    + replace n with (k + (n - k))%nat by lia. by rewrite compare_parts_decided.
    + replace k with (n + (k - n))%nat in Hk by lia. rewrite compare_parts_extend in Hk by (unfold pa, pb, n; lia). by rewrite Hk.
Qed.
Lemma isOlderVersion_order_witness :
  isOlderVersion (str "1.9.0") (str "1.10.0") = true /\ isOlderVersion (str "1.10.0") (str "v2") = true /\
  isOlderVersion (str "1.9.0") (str "v2") = true.
Proof.
  split; [reflexivity|]. split; [reflexivity|].
  apply (proj1 (proj2 (isOlderVersion_order (str "1.9.0") (str "1.10.0") (str "v2")))); reflexivity.
Defined.

(** *** What the client installs *)

Lemma abort_lookup m tmp e es fs p : tmp <> p -> (abort m tmp e es fs).1 !! p = fs !! p.
Proof.
  intros Hne. unfold abort, removeTemp. destruct (fs !! tmp); [destruct (f_remove m)|]; cbn; rewrite ?lookup_delete_ne by done; done.
Qed.
Lemma install_verified_spec m tmp f fs p : tmp <> p -> resolve_executable m = Ok p -> fs !! tmp = Some f ->
  let '(fs', es) := install_verified m tmp f fs in
  (fs' !! p = fs !! p /\ es <> []) \/
  exists old md, fs !! p = Some old /\ fs' !! p = Some (mkFile (content f) md) /\ (es = [] -> md = mode old).
Proof.
  intros Hne Hr Hf. unfold install_verified.
  assert (Habort : forall e es (g : fsys), g !! p = fs !! p -> let '(fs', es') := abort m tmp e es g in
    (fs' !! p = fs !! p /\ es' <> []) \/
    exists old md, fs !! p = Some old /\ fs' !! p = Some (mkFile (content f) md) /\ (es' = [] -> md = mode old)).
  { intros e es g Hg. pose proof (abort_lookup m tmp e es g p Hne) as Ha. destruct (abort m tmp e es g) as [fs' es'] eqn:E.
    left. split; [by rewrite <- Hg|]. unfold abort in E. destruct (removeTemp m tmp g). by injection E as _ <-. }
  destruct (_ && f_chmod_temp m); [by apply Habort|]. rewrite Hr.
  set (fs1 := if _ =s _ then fs else _).
  assert (exists md, fs1 !! tmp = Some (mkFile (content f) md)) as [md1 Hf1].
  { unfold fs1. case_bool_decide; [destruct f; eauto|]. rewrite lookup_insert_eq. eauto. }
  assert (fs1 !! p = fs !! p) as Hp by (unfold fs1; case_bool_decide; by rewrite ?lookup_insert_ne).
  destruct (f_writable m); [by apply Habort|].
  destruct (replaceBinary m p tmp fs1) as [fs2 e] eqn:Eb.
  apply (replaceBinary_spec _ _ _ _ _ _ _ (not_eq_sym Hne) Hf1) in Eb as [_ [[-> He]|(old & md & Ho & Hn & He)]].
  - destruct e; [by apply Habort|done].
  - rewrite Hp in Ho. destruct e as [e|]; [|right; exists old, md; auto].
    pose proof (abort_lookup m tmp e [] fs2 p Hne) as Ha. destruct (abort m tmp e [] fs2) as [fs3 es3] eqn:E. cbn in Ha.
    right. exists old, md. rewrite Ha. repeat split; [done..|]. unfold abort in E. destruct (removeTemp m tmp fs2).
    by injection E as _ <-.
Qed.
Lemma DownloadBinary_spec web m url tmp fs fs' es p : tmp <> p -> DownloadBinary web m url tmp fs = (fs', es) ->
  fs' !! p = fs !! p /\ (es = [] -> exists body, web url = Answer 200 body true /\ fs' !! tmp = Some (mkFile body 420)).
Proof.
  intros Hne. unfold DownloadBinary. destruct (web url) as [|status body complete]; [by intros [= <- <-]|].
  destruct (if negb (status =? 200) then _ else _) as [fs1 es1] eqn:E. intros [= <- <-].
  destruct (Z.eqb_spec status 200) as [->|?]; cbn [negb] in E; [|by injection E as <- <-].
  destruct (tempName m); [|by injection E as <- <-].
  destruct (copy_fails m); [by injection E as <- <-; rewrite lookup_insert_ne|].
  destruct complete; cbn [negb] in E; injection E as <- <-; rewrite lookup_insert_ne by done; [|done].
  split; [done|]. intros _. exists body. by rewrite lookup_insert_eq.
Qed.

Lemma after_download_spec sha256_hex m expected tmp es log fs p :
  tmp <> p -> resolve_executable m = Ok p -> UpdateCompleted ∉ log ->
  let '(fs', _, log') := after_download sha256_hex m expected tmp es log fs in
  (fs' !! p = fs !! p /\ UpdateCompleted ∉ log') \/
  (exists f old md, es = [] /\ fs !! tmp = Some f /\ sha256_hex (content f) = expected /\ fs !! p = Some old /\
     fs' !! p = Some (mkFile (content f) md)).
Proof.
  intros Hne Hr Hl. unfold after_download.
  assert (Hab : forall e es (l : list audit), UpdateCompleted ∉ l -> let '(fs', _, log') := (abort m tmp e es fs, l) in
    fs' !! p = fs !! p /\ UpdateCompleted ∉ log').
  { intros e es' l Hl'. pose proof (abort_lookup m tmp e es' fs p Hne). by destruct (abort m tmp e es' fs). }
  assert (Hadd : UpdateCompleted ∉ log ++ [ChecksumInvalid]) by set_solver.
  destruct es as [|e es]; [|specialize (Hab e es log Hl); destruct (abort _ _ _ _ _); by left].
  destruct (fs !! tmp) as [f|] eqn:Ef; [|specialize (Hab TempFileFailed [] log Hl); destruct (abort _ _ _ _ _); by left].
  destruct (expected =s []); [specialize (Hab NoChecksums [] _ Hadd); destruct (abort _ _ _ _ _); by left|].
  case_bool_decide as Hs; cbn [negb];
    [|specialize (Hab (Mismatch expected (sha256_hex (content f))) [] _ Hadd); destruct (abort _ _ _ _ _); by left].
  pose proof (install_verified_spec m tmp f fs p Hne Hr Ef) as Hi. destruct (install_verified m tmp f fs) as [fs' es'].
  destruct Hi as [[Hp He]|(old & md & Ho & Hn & _)]; [left; by destruct es'|]. right. by exists f, old, md.
Qed.

(** The client's binary is replaced only by the complete download of its
    platform's binary, with the checksum the server announces for it; otherwise
    it is left as it was and the update is not recorded as completed. *)
Theorem Do_installs_verified web sha256_hex m autodiscover url currentVersion fs p :
  resolve_executable m = Ok p -> outside m p ->
  let '(fs', _, log) := Do web sha256_hex m autodiscover url currentVersion fs in
  (fs' !! p = fs !! p /\ UpdateCompleted ∉ log) \/
  (exists disc version body old md, autodiscover = Ok disc /\ version <> currentVersion /\
     CLIVersions disc !! PlatformKey m = Some (version, sha256_hex body) /\ web url = Answer 200 body true /\
     fs !! p = Some old /\ fs' !! p = Some (mkFile body md)).
Proof.
  intros Hr Ho. unfold Do, CheckForUpdates. destruct autodiscover as [disc|e]; [|left; split; [done|set_solver]].
  destruct (default ([], []) (CLIVersions disc !! PlatformKey m)) as [version sum] eqn:Ev.
  set (log := if _ && _ then [UpdateForced] else []).
  assert (UpdateCompleted ∉ UpdateStarted :: log) as Hlog by (unfold log; destruct (_ && _); set_solver).
  unfold NeedsUpdate. cbn [cr_Available cr_Current cr_SHA256].
  destruct ((version <>s []) && _) eqn:En; cbn [negb]; [|by left].
  assert (CLIVersions disc !! PlatformKey m = Some (version, sum) /\ version <> currentVersion) as [Hv Hnew].
  { bool_facts. destruct (CLIVersions disc !! PlatformKey m); cbn in Ev; [subst; auto|by injection Ev as <- <-]. }
  destruct (tempDir m) as [dir|] eqn:Ed; [|by left]. pose proof (Ho dir Ed) as Hb.
  set (tmp := dir ++ _). assert (tmp <> p) as Hne by (intros <-; unfold tmp in Hb; by rewrite below_temp in Hb).
  destruct (DownloadBinary web m url tmp fs) as [fs1 es1] eqn:Edl.
  apply (DownloadBinary_spec _ _ _ _ _ _ _ p Hne) in Edl as [Hp1 Hdl].
  pose proof (after_download_spec sha256_hex m sum tmp es1 _ fs1 p Hne Hr Hlog) as Ha.
  destruct (after_download _ _ _ _ _ _ _) as [[fs2 es2] log2].
  assert ((if f_removeall m then fs2 else RemoveAll dir fs2) !! p = fs2 !! p) as ->
    by (destruct (f_removeall m); [done|by rewrite RemoveAll_lookup, Hb]).
  destruct Ha as [[Hp2 ?]|(f & old & md & -> & Hf & <- & Hold & Hn)]; [left; by rewrite Hp2, Hp1|].
  destruct (Hdl eq_refl) as (body & Hw & Hb'). rewrite Hf in Hb'. injection Hb' as ->. rewrite Hp1 in Hold.
  right. by exists disc, version, body, old, md.
Qed.
Lemma Do_installs_verified_witness :
  let fs := {[ str "/usr/bin/ipgaze" := mkFile (str "old") 493 ]} in
  let disc := mkDiscovery [] {[ str "linux-amd64" := (str "2.0.0", str "0b") ]} in
  let '(fs', _, log) := Do demo_web demo_sum demo_machine (Ok disc) (str "u/bin") (str "1.0.0") fs in
  (fs' !! str "/usr/bin/ipgaze" = Some (mkFile (str "new") 493) /\ UpdateCompleted ∈ log) /\
  ((fs' !! str "/usr/bin/ipgaze" = fs !! str "/usr/bin/ipgaze" /\ UpdateCompleted ∉ log) \/
   (exists disc' version body old md, @Ok update_error _ disc = Ok disc' /\ version <> str "1.0.0" /\
     CLIVersions disc' !! PlatformKey demo_machine = Some (version, demo_sum body) /\ demo_web (str "u/bin") = Answer 200 body true /\
     fs !! str "/usr/bin/ipgaze" = Some old /\ fs' !! str "/usr/bin/ipgaze" = Some (mkFile body md))).
Proof.
  cbv zeta. set (fs := {[ str "/usr/bin/ipgaze" := mkFile (str "old") 493 ]}). set (disc := mkDiscovery _ _).
  assert (outside demo_machine (str "/usr/bin/ipgaze")) as Hout by (intros dir [= <-]; reflexivity).
  pose proof (Do_installs_verified demo_web demo_sum demo_machine (Ok disc) (str "u/bin") (str "1.0.0") fs
    (str "/usr/bin/ipgaze") eq_refl Hout) as Hs.
  destruct (Do _ _ _ _ _ _ _) as [[fs' es] log] eqn:E. split; [split|exact Hs].
  - change fs' with (fs', es, log).1.1. rewrite <- E. vm_compute. reflexivity.
  - change log with (fs', es, log).2. rewrite <- E. apply list_elem_of_In. vm_compute. auto.
Defined.
End Cli.
