(* ===== verification/Fetch.v ===== *)
(** * Fetching remote images: [common/urlutil/fetch.go] and [common/urlutil/encode.go]

    The name service, the addresses a dial ends at and the servers' replies are
    functions of the step, so that a name may resolve differently from one
    moment to the next.  A fetch is the trace of the connections it opens and of
    the requests it sends over them.  The theorem: whatever names resolve to and
    wherever servers redirect, a request is only ever sent to an address that is
    not private or local, for a URL that passed the validation, at most five
    times; and what is returned is within the size limit and of an allowed type. *)
From stdpp Require Import base list gmap strings.
From Stdlib Require Import ZArith Lia.
From S2P Require Import Prelude GoStrings GoNet GoUrl Updater.
Local Open Scope Z_scope.
Local Open Scope go_scope.

(** ** Encoding *)

Definition TrimLeft (s cutset : gostr) : gostr := TrimLeftFunc (inSet cutset) s.
Definition BuildAPIURL (baseURL version path : gostr) : gostr :=
  TrimRight baseURL (str "/") ++ str "/api/" ++ version ++ str "/" ++ TrimLeft path (str "/").
Definition EncodePathSegment (s : gostr) : gostr := escape encodePathSegment s.
Definition EncodeQueryValue (s : gostr) : gostr := QueryEscape s.
Definition BuildQueryString (params : gmap gostr gostr) : gostr :=
  if decide (params = ∅) then [] else str "?" ++ Encode ((fun v => [v]) <$> params).

(** ** Validation *)

Record FetchRemoteImageConfig := mkFetch {
  MaxSize : Z; Timeout : Z; AllowedTypes : list gostr; AllowedSchemes : list gostr }.
Definition DefaultFetchRemoteImageConfig : FetchRemoteImageConfig :=
  mkFetch (10 * 1024 * 1024) (30 * Second)
    (str <$> ["image/png"; "image/jpeg"; "image/gif"; "image/webp"; "image/x-icon"]%string) [str "https"].

(** [net.IP.IsPrivate] and [IsInterfaceLocalMulticast]. *)
Definition IsPrivate (ip : IP) : bool :=
  match To4 ip with
  | Some ip4 =>
      (byte_at ip4 0 =? 10) || ((byte_at ip4 0 =? 172) && (Z.land (byte_at ip4 1) 240 =? 16))
      || ((byte_at ip4 0 =? 192) && (byte_at ip4 1 =? 168))
  | None => (Nat.eqb (length ip) 16) && (Z.land (byte_at ip 0) 254 =? 252)
  end.
Definition IsInterfaceLocalMulticast (ip : IP) : bool :=
  Nat.eqb (length ip) 16 && (byte_at ip 0 =? 255) && (Z.land (byte_at ip 1) 15 =? 1).
Definition isBlockedFetchIP (ip : IP) : bool :=
  IsPrivate ip || IsLoopback ip || IsLinkLocalUnicast ip || IsLinkLocalMulticast ip || IsUnspecified ip || IsMulticast ip
  || IsInterfaceLocalMulticast ip.

Inductive fetch_error :=
| InvalidURL | SchemeNotAllowed | LocalhostURL | InternalHost | LookupFailed | PrivateIP
| DialFailed | DialBlocked | TooManyRedirects | UnexpectedStatus (status : Z) | TypeNotAllowed | ReadFailed | TooLarge.

Definition validateNotPrivateIPWithLookup (hostname : gostr) (lookupIP : gostr -> option (list IP)) : option fetch_error :=
  match lookupIP hostname with
  | None => Some LookupFailed
  | Some ips => if existsb isBlockedFetchIP ips then Some PrivateIP else None
  end.
Definition local_names : list gostr := str <$> ["localhost"; "127.0.0.1"; "::1"; "0.0.0.0"; "::"]%string.

(** A reply: a redirect with the location it resolves to, or a final response
    with its type and as much of its body as could be read. *)
Inductive reply := Redirect (location : gostr) | Final (status : Z) (contentType body : gostr) (complete : bool).
Inductive event := Connect (remote : gostr) | Request (url remote : gostr).

Section fetch.
  Context `{UnicodeTables} `{Authority}.
  Context (lookup : nat -> gostr -> option (list IP)) (connect : nat -> gostr -> option gostr) (serve : nat -> gostr -> reply).
  Context (cfg : FetchRemoteImageConfig).

Definition ValidateRemoteURL (now : nat) (rawURL : gostr) : option fetch_error :=
  match Parse rawURL with
  | None => Some InvalidURL
  | Some u =>
      if negb (existsb (EqualFold (u_Scheme u)) (AllowedSchemes cfg)) then Some SchemeNotAllowed
      else
        let hostname := ToLower (Hostname u) in
        if bool_decide (hostname ∈ local_names) then Some LocalhostURL
        else if HasSuffix hostname (str ".local") || HasSuffix hostname (str ".internal") then Some InternalHost
        else validateNotPrivateIPWithLookup hostname (lookup now)
  end.

(** The address the transport dials: host and port of the URL, the port of the
    scheme when it has none. *)
Definition dial_addr (u : URL) : gostr :=
  let host := if GoStrings.Contains (Hostname u) (str ":") then str "[" ++ Hostname u ++ str "]" else Hostname u in
  let port := if Port u <>s [] then Port u else if u_Scheme u =s str "https" then str "443" else str "80" in
  host ++ str ":" ++ port.
Definition blocked_text (host : gostr) : bool :=
  match ParseIP host with Some ip => isBlockedFetchIP ip | None => false end.
(** The dialer: the connection, or the failure, and the connections opened. *)
Definition DialContext (now : nat) (addr : gostr) : result fetch_error gostr * list event :=
  match SplitHostPort addr with
  | None => (Err DialFailed, [])
  | Some (host, _) =>
      if blocked_text host then (Err DialBlocked, [])
      else match connect now addr with
           | None => (Err DialFailed, [])
           | Some remote =>
               match SplitHostPort remote with
               | Some (remoteIP, _) =>
                   if blocked_text remoteIP then (Err DialBlocked, [Connect remote]) else (Ok remote, [Connect remote])
               | None => (Ok remote, [Connect remote])
               end
           end
  end.

(** [io.LimitReader] and the checks on the response. *)
Definition read_image (status : Z) (contentType body : gostr) (complete : bool) : result fetch_error (gostr * gostr) :=
  if negb (status =? 200) then Err (UnexpectedStatus status)
  else if negb (existsb (HasPrefix contentType) (AllowedTypes cfg)) then Err TypeNotAllowed
  else if negb complete && (Z.of_nat (length body) <? MaxSize cfg + 1) then Err ReadFailed
  else
    let data := limited (MaxSize cfg + 1) body in
    if MaxSize cfg <? Z.of_nat (length data) then Err TooLarge else Ok (data, contentType).

(** [http.Client.Do] from the request number [via] on: [CheckRedirect] sees the
    location and the number of requests made. *)
Fixpoint follow (fuel via : nat) (url : gostr) : result fetch_error (gostr * gostr) * list event :=
  match fuel with
  | O => (Err TooManyRedirects, [])
  | S fuel =>
      match Parse url with
      | None => (Err InvalidURL, [])
      | Some u =>
          match DialContext via (dial_addr u) with
          | (Err e, trace) => (Err e, trace)
          | (Ok remote, trace) =>
              let trace := trace ++ [Request url remote] in
              match serve via url with
              | Final status contentType body complete => (read_image status contentType body complete, trace)
              | Redirect location =>
                  match ValidateRemoteURL (S via) location with
                  | Some e => (Err e, trace)
                  | None =>
                      if Nat.leb 5 (S via) then (Err TooManyRedirects, trace)
                      else let '(r, more) := follow fuel (S via) location in (r, trace ++ more)
                  end
              end
          end
      end
  end.
Definition FetchRemoteImage (rawURL : gostr) : result fetch_error (gostr * gostr) * list event :=
  match ValidateRemoteURL 0 rawURL with
  | Some e => (Err e, [])
  | None => follow 5 0 rawURL
  end.
End fetch.

(** ** Encoded segments *)

(** An encoded path segment is one segment: it has no slash, and decoding it
    gives back the name it was made of. *)
Theorem EncodePathSegment_roundtrip s :
  unescape encodePathSegment (EncodePathSegment s) = Some s /\ "/"%char ∉ EncodePathSegment s.
Proof.
  split; [apply unescape_escape|]. unfold EncodePathSegment, escape. intros (c & Hc & _)%list_elem_of_bind.
  revert Hc. destruct c as [[] [] [] [] [] [] [] []]; intros Hc%(bool_decide_eq_true_2 _); vm_compute in Hc; done.
Qed.

(** ** Requests only reach public addresses *)

Section safety.
  Context `{UnicodeTables} `{Authority}.
  Context (lookup : nat -> gostr -> option (list IP)) (connect : nat -> gostr -> option gostr) (serve : nat -> gostr -> reply).
  Context (cfg : FetchRemoteImageConfig).

(** The address at the other end is not private or local.  As in the code, a text that
    [net.ParseIP] does not read, such as an address with a zone, is not judged. *)
Definition public (remote : gostr) : Prop :=
  forall host port ip, SplitHostPort remote = Some (host, port) -> ParseIP host = Some ip -> isBlockedFetchIP ip = false.
(** The URL has an allowed scheme and a host that is not local by its name nor,
    at the moment it was looked up, by an address. *)
Definition acceptable (url : gostr) : Prop :=
  exists u now ips, Parse url = Some u /\ existsb (EqualFold (u_Scheme u)) (AllowedSchemes cfg) = true /\
    ToLower (Hostname u) ∉ local_names /\
    HasSuffix (ToLower (Hostname u)) (str ".local") = false /\ HasSuffix (ToLower (Hostname u)) (str ".internal") = false /\ lookup now (ToLower (Hostname u)) = Some ips /\
    Forall (fun ip => isBlockedFetchIP ip = false) ips.
Lemma ValidateRemoteURL_None now url : ValidateRemoteURL lookup cfg now url = None -> acceptable url.
Proof.
  unfold ValidateRemoteURL, validateNotPrivateIPWithLookup. destruct (Parse url) as [u|] eqn:Eu; [|done].
  destruct (existsb (EqualFold _) _) eqn:Es; cbn [negb]; [|done]. case_bool_decide; [done|]. destruct (_ || _) eqn:En; [done|]. apply orb_false_iff in En as [En1 En2].
  destruct (lookup now _) as [ips|] eqn:El; [|done]. destruct (existsb isBlockedFetchIP ips) eqn:Ei; [done|]. intros _.
  exists u, now, ips. do 6 (split; [done|]). apply Forall_forall. intros ip Hip.
  apply not_true_is_false. intros Hb. apply not_true_iff_false in Ei. apply Ei, existsb_exists. exists ip. by rewrite <- list_elem_of_In.
Qed.

Definition event_ok (e : event) : Prop := match e with Connect _ => True | Request url remote => public remote /\ acceptable url end.
Definition is_request (e : event) : bool := match e with Request _ _ => true | Connect _ => false end.
Definition requests (trace : list event) : nat := length (filter (fun e => is_request e = true) trace).

Lemma DialContext_public now addr r trace : DialContext connect now addr = (r, trace) ->
  Forall event_ok trace /\ requests trace = 0%nat /\ match r with Ok remote => public remote | Err _ => True end.
Proof.
  unfold DialContext. destruct (SplitHostPort addr) as [[host port]|]; [|by intros [= <- <-]].
  destruct (blocked_text host); [by intros [= <- <-]|]. destruct (connect now addr) as [remote|]; [|by intros [= <- <-]].
  assert (Forall event_ok [Connect remote]) by by repeat constructor.
  destruct (SplitHostPort remote) as [[h p]|] eqn:Er; [destruct (blocked_text h) eqn:Eb|]; intros [= <- <-];
    (split; [done|]); (split; [done|]); [done|..]; intros h' p' ip Hs Hip; rewrite Er in Hs; [|done].
  injection Hs as -> ->. unfold blocked_text in Eb. by rewrite Hip in Eb.
Qed.
Lemma read_image_bounded status contentType body complete data ct :
  read_image cfg status contentType body complete = Ok (data, ct) ->
  Z.of_nat (length data) <= MaxSize cfg /\ existsb (HasPrefix ct) (AllowedTypes cfg) = true.
Proof.
  unfold read_image. destruct (negb (status =? 200)); [done|]. destruct (existsb (HasPrefix contentType) _) eqn:Et; cbn [negb]; [|done].
  destruct (_ && _); [done|]. destruct (Z.ltb_spec (MaxSize cfg) (Z.of_nat (length (limited (MaxSize cfg + 1) body)))); [done|].
  intros [= <- <-]. done.
Qed.
(** The outcome of a fetch from a request number on. *)
Definition good_fetch (via : nat) (out : result fetch_error (gostr * gostr) * list event) : Prop :=
  Forall event_ok out.2 /\ (requests out.2 + via <= 5)%nat /\
  match out.1 with
  | Ok (data, ct) => Z.of_nat (length data) <= MaxSize cfg /\ existsb (HasPrefix ct) (AllowedTypes cfg) = true
  | Err _ => True
  end.
Lemma requests_app a b : requests (a ++ b) = (requests a + requests b)%nat.
Proof. unfold requests. by rewrite filter_app, length_app. Qed.
Lemma follow_good fuel via url : (via < 5)%nat -> acceptable url -> good_fetch via (follow lookup connect serve cfg fuel via url).
Proof.
  revert via url. induction fuel as [|fuel IH]; intros via url Hv Hu; cbn [follow].
  { split; [constructor|]. cbn. split; [lia|done]. }
  assert (Herr : forall e trace, Forall event_ok trace -> (requests trace + via <= 5)%nat -> good_fetch via (Err e, trace)) by done.
  destruct (Parse url); [|apply Herr; [constructor|cbn; lia]].
  destruct (DialContext connect via _) as [[remote|e] trace] eqn:Ed; apply DialContext_public in Ed as (Ht & Hr & Hp);
    [|apply Herr; [done|lia]].
  assert (Forall event_ok (trace ++ [Request url remote])) as Ht' by (apply Forall_app; split; [done|by repeat constructor]).
  assert (requests (trace ++ [Request url remote]) = 1%nat) as Hr' by (by rewrite requests_app, Hr).
  destruct (serve via url) as [location|status contentType body complete].
  - destruct (ValidateRemoteURL lookup cfg (S via) location) eqn:El; [apply Herr; [done|lia]|].
    destruct (Nat.leb_spec 5 (S via)); [apply Herr; [done|lia]|].
    apply ValidateRemoteURL_None in El. specialize (IH (S via) location ltac:(lia) El).
    destruct (follow _ _ _ _ _ _ _) as [r more]. destruct IH as (Hm & Hc & Hd). cbn [fst snd] in *.
    split; [by apply Forall_app|]. split; [cbn [snd]; rewrite requests_app; lia|done].
  - split; [done|]. split; [cbn [snd]; lia|]. destruct (read_image _ _ _ _ _) as [[data ct]|] eqn:Ei; [|done].
    by apply read_image_bounded in Ei.
Qed.
(** More fuel changes nothing: the limit on redirects ends the loop first. *)
Lemma follow_fuel fuel via url : (5 <= fuel + via)%nat ->
  follow lookup connect serve cfg (S fuel) via url = follow lookup connect serve cfg fuel via url \/ (5 <= via)%nat.
Proof.
  revert via url. induction fuel as [|fuel IH]; intros via url Hv; [by right|].
  destruct (decide (5 <= via)%nat); [by right|]. left. cbn [follow]. destruct (Parse url); [|done].
  destruct (DialContext _ _ _) as [[remote|e] trace]; [|done]. destruct (serve via url); [|done].
  destruct (ValidateRemoteURL _ _ _ _); [done|]. destruct (Nat.leb_spec 5 (S via)); [done|].
  destruct (IH (S via) location ltac:(lia)) as [E|]; [|lia]. cbn [follow] in E. by rewrite E.
Qed.

(** C18. Whatever names resolve to from one moment to the next and wherever
    servers redirect, a fetch sends requests only to addresses that are not
    private or local and only for URLs that passed the validation, at most five
    of them; what it returns is within the size limit and of an allowed type; and
    the limit on redirects, not the bound of the recursion, ends it. *)
Theorem FetchRemoteImage_public rawURL :
  good_fetch 0 (FetchRemoteImage lookup connect serve cfg rawURL) /\
  (forall k, ValidateRemoteURL lookup cfg 0 rawURL = None ->
     FetchRemoteImage lookup connect serve cfg rawURL = follow lookup connect serve cfg (5 + k) 0 rawURL).
Proof.
  unfold FetchRemoteImage. split.
  - destruct (ValidateRemoteURL lookup cfg 0 rawURL) eqn:E; [split; [constructor|]; cbn; split; [lia|done]|].
    apply follow_good; [lia|]. by apply ValidateRemoteURL_None in E.
  - intros k ->. induction k as [|k IH]; [done|]. rewrite IH. rewrite <- plus_n_Sm.
    destruct (follow_fuel (5 + k) 0 rawURL) as [E|]; [lia| |lia]. by rewrite E.
Qed.
End safety.

(** A name that resolves to a private address only once it is dialled: no request
    is sent, but the connection is opened before it is refused. *)
Lemma rebinding_connects :
  let out := FetchRemoteImage (H := ascii_tables) (H0 := {| parseAuthority := fun _ a => Some (false, a) |})
    (fun _ _ => Some [IPv4 93 184 216 34]) (fun _ _ => Some (str "10.0.0.1:443")) (fun _ _ => Final 200 [] [] true)
    DefaultFetchRemoteImageConfig (str "https://example.org/logo.png") in
  out = (Err DialBlocked, [Connect (str "10.0.0.1:443")]).
Proof. vm_compute. reflexivity. Qed.
