(* ===== verification/Notify.v ===== *)
(** * Notifications: [notify/notify.go] and [notify/dispatch.go]

    A notifier turns a message into an HTTP request; the receivers' answers, the
    time each attempt takes and the clock are arguments, the keyed hash is a
    parameter.  The theorems: every request of a dispatch goes to a configured
    target and carries the signature of its exact body under that target's
    secret; a delivery is attempted at most seven times, spaced by the schedule,
    with one identifier and one body, and its failure is reported exactly when
    all attempts failed; a configured Telegram URL is taken apart as it was put
    together. *)
From stdpp Require Import base list gmap strings.
From Stdlib Require Import ZArith Lia.
From S2P Require Import Prelude GoStrings GoNet GoTime LogFormat GoUrl Settings.
Local Open Scope Z_scope.
Local Open Scope go_scope.

(** ** Messages and requests *)

Inductive Level := LevelInfo | LevelWarning | LevelError | LevelSuccess.
#[export] Instance Level_eq_dec : EqDecision Level.
Proof. solve_decision. Defined.
Definition level_text (l : Level) : gostr :=
  match l with LevelInfo => str "info" | LevelWarning => str "warning" | LevelError => str "error" | LevelSuccess => str "success" end.
(** [Timestamp] is nothing for the zero time. *)
Record Message := mkMessage {
  Title : gostr; Body : gostr; msg_Level : Level; msg_URL : gostr; Role : gostr; msg_Event : gostr; Timestamp : option Time;
  ProjectName : gostr; ProjectVersion : gostr; AppURL : gostr; TrackingID : gostr }.
Record Signing := mkSigning { Secret : gostr; WebhookID : gostr; sign_Event : gostr; UserAgent : gostr }.
#[export] Instance Signing_eq_dec : EqDecision Signing.
Proof. solve_decision. Defined.
(** A POST: its target, its headers and its body. *)
Record post := mkPost { p_url : gostr; p_headers : gmap gostr gostr; p_body : gostr }.

Inductive Notifier :=
| TelegramNotifier (Token ChatID : gostr) (s : Signing)
| DiscordNotifier (WebhookURL : gostr) (s : Signing)
| SlackNotifier (WebhookURL : gostr) (s : Signing)
| MattermostNotifier (WebhookURL Channel : gostr) (s : Signing)
| PushoverNotifier (Token UserKey : gostr) (s : Signing)
| GotifyNotifier (ServerURL Token : gostr) (s : Signing)
| GenericWebhookNotifier (URL : gostr) (Headers : gmap gostr gostr) (s : Signing).
Definition Name (n : Notifier) : gostr :=
  match n with
  | TelegramNotifier _ _ _ => str "telegram" | DiscordNotifier _ _ => str "discord" | SlackNotifier _ _ => str "slack"
  | MattermostNotifier _ _ _ => str "mattermost" | PushoverNotifier _ _ _ => str "pushover" | GotifyNotifier _ _ _ => str "gotify"
  | GenericWebhookNotifier _ _ _ => str "generic"
  end.
Definition signing (n : Notifier) : Signing :=
  match n with
  | TelegramNotifier _ _ s | DiscordNotifier _ s | SlackNotifier _ s | MattermostNotifier _ _ s | PushoverNotifier _ _ s
  | GotifyNotifier _ _ s | GenericWebhookNotifier _ _ s => s
  end.

Section sending.
  (** HMAC-SHA256 of a key and a message, as bytes; the printer of [net/url]. *)
  Context (hmac : gostr -> gostr -> list Z) (url_String : GoUrl.URL -> gostr).

Definition signature (secret body : gostr) : gostr := str "sha256=" ++ (hmac secret body ≫= hex_pad 2).
Definition set_if (k v : gostr) (h : gmap gostr gostr) : gmap gostr gostr := if v <>s [] then <[k := v]> h else h.
Definition applySigningHeaders (now : Z) (s : Signing) (body : gostr) (h : gmap gostr gostr) : gmap gostr gostr :=
  set_if (str "User-Agent") (UserAgent s)
    (set_if (str "X-Webhook-Event") (sign_Event s)
      (set_if (str "X-Webhook-ID") (WebhookID s)
        (<[str "X-Webhook-Timestamp" := Itoa (now / Second)]> (<[str "X-Webhook-Signature" := signature (Secret s) body]> h)))).
(** [Signing.params]: the zero value leaves the request unsigned. *)
Definition params (s : Signing) : option Signing := if decide (s = mkSigning [] [] [] []) then None else Some s.
Definition signed (now : Z) (s : Signing) (body : gostr) (h : gmap gostr gostr) : gmap gostr gostr :=
  match params s with Some sp => applySigningHeaders now sp body h | None => h end.
Definition postBytes (now : Z) (url b contentType : gostr) (s : Signing) : post :=
  mkPost url (signed now s b (set_if (str "Content-Type") contentType ∅)) b.
Definition postJSON (now : Z) (url : gostr) (payload : json) (s : Signing) : option post :=
  (fun b => postBytes now url b (str "application/json") s) <$> Marshal payload.

Definition nl : gostr := ["010"%char].
Definition with_url (text url : gostr) : gostr := if url <>s [] then text ++ nl ++ url else text.
Definition starred (stars : string) (m : Message) : gostr :=
  with_url (str stars ++ Title m ++ str stars ++ nl ++ Body m) (msg_URL m).
Definition discord_color (l : Level) : Z :=
  match l with LevelError => 15158332 | LevelWarning => 15965202 | LevelSuccess => 3066993 | LevelInfo => 3447003 end.
Definition generic_payload (now : Time) (m : Message) : json :=
  JMap ([(str "role", JStr (Role m)); (str "event", JStr (msg_Event m)); (str "subject", JStr (Title m)); (str "body", JStr (Body m));
         (str "severity", JStr (level_text (msg_Level m))); (str "timestamp", JStr (RFC3339 (UTC (default now (Timestamp m)))));
         (str "project_name", JStr (ProjectName m)); (str "project_version", JStr (ProjectVersion m)); (str "app_url", JStr (AppURL m))]
        ++ (if TrackingID m <>s [] then [(str "tracking_id", JStr (TrackingID m))] else [])).
(** The request of [Send], for every notifier. *)
Definition request (now : Time) (n : Notifier) (m : Message) : option post :=
  let t := unix_ns now in
  match n with
  | TelegramNotifier token chatID s =>
      postJSON t (str "https://api.telegram.org/bot" ++ token ++ str "/sendMessage")
        (JMap [(str "chat_id", JStr chatID); (str "text", JStr (starred "*" m)); (str "parse_mode", JStr (str "Markdown"))]) s
  | DiscordNotifier url s =>
      postJSON t url
        (JMap [(str "embeds", JList [JMap [(str "title", JStr (Title m)); (str "description", JStr (Body m));
                                           (str "color", JInt (discord_color (msg_Level m))); (str "url", JStr (msg_URL m))]])]) s
  | SlackNotifier url s => postJSON t url (JMap [(str "text", JStr (starred "*" m))]) s
  | MattermostNotifier url channel s =>
      postJSON t url (JMap [(str "text", JStr (starred "**" m)); (str "channel", JStr channel)]) s
  | PushoverNotifier token user s =>
      postJSON t (str "https://api.pushover.net/1/messages.json")
        (JMap [(str "token", JStr token); (str "user", JStr user); (str "title", JStr (Title m)); (str "message", JStr (Body m));
               (str "url", JStr (msg_URL m))]) s
  | GotifyNotifier server token s =>
      postJSON t (TrimRight server (str "/") ++ str "/message?token=" ++ token)
        (JMap [(str "title", JStr (Title m)); (str "message", JStr (Body m));
               (str "priority", JInt (if decide (msg_Level m = LevelError) then 9 else 5))]) s
  | GenericWebhookNotifier url headers s =>
      (fun b => mkPost url (signed t s b (headers ∪ {[str "Content-Type" := str "application/json"]})) b)
      <$> Marshal (generic_payload now m)
  end.
(** The receiver's answer: nothing when it cannot be reached, else a status. *)
Definition delivered (answer : post -> option Z) (p : option post) : bool :=
  match p with Some p => match answer p with Some status => status <? 400 | None => false end | None => false end.

(** [NotifyManager.Send]: every notifier is tried; the names of those that failed. *)
Definition manager_Send (now : Time) (answer : post -> option Z) (notifiers : list Notifier) (m : Message) : list gostr :=
  omap (fun n => if delivered answer (request now n m) then None else Some (Name n)) notifiers.

(** ** Targets *)

Section urls.
  Context `{UnicodeTables} `{Authority}.
Definition Query (u : GoUrl.URL) : Values := (ParseQuery (u_RawQuery u)).1.
Definition parseTelegramURL (rawURL : gostr) : gostr * gostr :=
  match Parse rawURL with
  | None => ([], [])
  | Some u =>
      let chatID := Values_Get (Query u) (str "chat_id") in
      let parts := Split (Trim (u_Path u) (str "/")) (str "/") in
      let first := hd [] parts in
      (if HasPrefix first (str "bot") then TrimPrefix first (str "bot") else [], chatID)
  end.
Definition parsePushoverURL (rawURL : gostr) : gostr * gostr :=
  match Parse rawURL with
  | None => ([], [])
  | Some u => (Values_Get (Query u) (str "token"), Values_Get (Query u) (str "user"))
  end.
Definition without_query (u : GoUrl.URL) : GoUrl.URL :=
  mkURL (u_Scheme u) (u_Opaque u) (u_User u) (u_Host u) (u_Path u) (u_RawPath u) [] (u_Fragment u).
Definition parseGotifyURL (rawURL : gostr) : gostr * gostr :=
  match Parse rawURL with
  | None => (rawURL, [])
  | Some u => (TrimRight (url_String (without_query u)) (str "/"), Values_Get (Query u) (str "token"))
  end.
Definition buildNotifier (t : transport) (rawURL : gostr) (s : Signing) : Notifier :=
  match t with
  | Telegram => let '(token, chatID) := parseTelegramURL rawURL in TelegramNotifier token chatID s
  | Discord => DiscordNotifier rawURL s
  | Slack => SlackNotifier rawURL s
  | Mattermost => MattermostNotifier rawURL [] s
  | Pushover => let '(token, user) := parsePushoverURL rawURL in PushoverNotifier token user s
  | Gotify => let '(server, token) := parseGotifyURL rawURL in GotifyNotifier server token s
  | Generic => GenericWebhookNotifier rawURL ∅ s
  end.

(** ** Dispatch *)

Record Event := mkEvent {
  ev_Name : gostr; Subject : gostr; ev_Body : gostr; ev_Level : Level; ev_URL : gostr; ev_UserAgent : gostr; ev_Role : gostr;
  ev_ProjectName : gostr; ev_ProjectVersion : gostr; ev_AppURL : gostr; ev_TrackingID : gostr }.
Record job := mkJob { job_transport : transport; job_notifier : Notifier; job_message : Message }.
(** [send] of [Dispatch]: the background delivery it starts, if any; [newID] is
    the identifier generated for the target. *)
Definition send_target (newID : transport -> gostr) (now : Time) (targets : WebhooksConfig) (ev : Event) (t : transport) : option job :=
  if hook_url (targets t) =s [] then None
  else
    let sign := mkSigning (hook_secret (targets t)) (newID t) (ev_Name ev) (ev_UserAgent ev) in
    Some (mkJob t (buildNotifier t (hook_url (targets t)) sign)
            (mkMessage (Subject ev) (ev_Body ev) (ev_Level ev) (ev_URL ev) (ev_Role ev) (ev_Name ev) (Some now)
               (ev_ProjectName ev) (ev_ProjectVersion ev) (ev_AppURL ev) (ev_TrackingID ev))).
Definition Dispatch (newID : transport -> gostr) (now : Time) (targets : WebhooksConfig) (ev : Event) : list job :=
  omap (send_target newID now targets ev) transports.
End urls.

Definition backoffSchedule : list Z := [Minute; 5 * Minute; 15 * Minute; Hour; 6 * Hour; 24 * Hour].

(** Attempt number [i] at [now]: its request, whether it was delivered, and when
    it ended. *)
Definition attempt (answer : nat -> post -> option Z) (took : nat -> Z) (n : Notifier) (m : Message) (i : nat) (now : Z)
  : option post * bool * Z :=
  let p := request (mkTime now 0) n m in (p, delivered (answer i) p, now + took i).
Fixpoint retry (answer : nat -> post -> option Z) (took : nat -> Z) (n : Notifier) (m : Message) (delays : list Z) (i : nat) (now : Z)
  : list (Z * option post) * bool * Z :=
  match delays with
  | [] => ([], false, now)
  | d :: rest =>
      let t := now + d in
      let '(p, ok, t') := attempt answer took n m i t in
      if ok then ([(t, p)], true, t')
      else let '(more, ok, t') := retry answer took n m rest (S i) t' in ((t, p) :: more, ok, t')
  end.
(** The attempts of [dispatchWithRetry] with their times; whether one was
    delivered; and when it ended, which is when a failure is reported. *)
Definition dispatchWithRetry (answer : nat -> post -> option Z) (took : nat -> Z) (n : Notifier) (m : Message) (now : Z)
  : list (Z * option post) * bool * Z :=
  let '(p, ok, t) := attempt answer took n m 0 now in
  if ok then ([(now, p)], true, t)
  else let '(more, ok, t) := retry answer took n m backoffSchedule 1 t in ((now, p) :: more, ok, t).
End sending.

(** [logWebhookFailure]: whether a line is written for a transport. *)
Definition logWebhookFailure (now : Z) (name : gostr) (last : gmap gostr Z) : gmap gostr Z * bool :=
  match last !! name with
  | Some t => if now - t <? 5 * Minute then (last, false) else (<[name := now]> last, true)
  | None => (<[name := now]> last, true)
  end.

(** ** What is sent *)

Section guarantees.
  Context (hmac : gostr -> gostr -> list Z) (url_String : GoUrl.URL -> gostr) `{UnicodeTables} `{Authority}.

Lemma set_if_other k k' v h : k <> k' -> set_if k' v h !! k = h !! k.
Proof. intros Hk. unfold set_if. destruct (v <>s []); [|done]. by rewrite lookup_insert_ne. Qed.
(** A request whose headers are signed under an identifier. *)
Lemma signed_headers now s body h :
  WebhookID s <> [] ->
  signed hmac now s body h !! str "X-Webhook-Signature" = Some (signature hmac (Secret s) body) /\
  signed hmac now s body h !! str "X-Webhook-ID" = Some (WebhookID s).
Proof.
  intros Hid. unfold signed, params. rewrite decide_False by (intros ->; done). unfold applySigningHeaders.
  rewrite !(set_if_other (str "X-Webhook-Signature")) by done. rewrite !(set_if_other (str "X-Webhook-ID") (str "User-Agent")) by done.
  rewrite !(set_if_other (str "X-Webhook-ID") (str "X-Webhook-Event")) by done. split.
  - by rewrite lookup_insert_ne, lookup_insert_eq by done.
  - unfold set_if. rewrite bool_decide_eq_false_2 by done. cbn [negb]. by rewrite lookup_insert_eq.
Qed.

(** The request of a notifier, for a message with a time: its body and target
    do not depend on when it is sent. *)
Lemma request_fixed n m : is_Some (Timestamp m) -> exists url body, forall now, exists h,
  request hmac now n m = Some (mkPost url (signed hmac (unix_ns now) (signing n) body h) body).
Proof.
  intros [ts Hts].
  destruct n; cbn [request signing]; unfold postJSON, postBytes, generic_payload; rewrite ?Hts; cbn [default];
    try (destruct (TrackingID m <>s []) in |- *; cbn [app]);
    (match goal with |- context [Marshal ?v] =>
       assert (exists b, Marshal v = Some b) as [b Hb]; [cbn; eauto|] end); rewrite ?Hb; cbn [fmap option_fmap option_map];
    eexists _, b; intros now; eexists; rewrite ?Hb; reflexivity.
Qed.
Lemma buildNotifier_signing t url s : signing (buildNotifier url_String t url s) = s.
Proof.
  destruct t; cbn; [destruct (parseTelegramURL url)|..|destruct (parsePushoverURL url)|destruct (parseGotifyURL _ url)|]; done.
Qed.

(** C20. A dispatch starts exactly one delivery for each transport with a URL.
    All attempts of a delivery send the same body to the same address, whenever
    they are made, and each carries the signature of exactly that body under the
    secret of its own target and the identifier generated for it. *)
Theorem Dispatch_signed newID now targets ev :
  (forall t, newID t <> []) ->
  job_transport <$> Dispatch url_String newID now targets ev = filter (fun t => hook_url (targets t) <> []) transports /\
  Forall (fun j => exists url body, forall now', exists p,
    request hmac now' (job_notifier j) (job_message j) = Some p /\ p_url p = url /\ p_body p = body /\
    p_headers p !! str "X-Webhook-Signature" = Some (signature hmac (hook_secret (targets (job_transport j))) body) /\
    p_headers p !! str "X-Webhook-ID" = Some (newID (job_transport j))) (Dispatch url_String newID now targets ev).
Proof.
  intros Hid. unfold Dispatch. split.
  - induction transports as [|t ts IH]; [done|]. rewrite filter_cons. cbn [omap list_omap]. unfold send_target at 1.
    case_bool_decide as Hu; [rewrite decide_False by by intros ?; done|rewrite decide_True by done; cbn [fmap list_fmap]; f_equal];
      exact IH.
  - apply Forall_forall. intros j (t & _ & Ht)%list_elem_of_omap. unfold send_target in Ht. case_bool_decide; [done|].
    injection Ht as <-. cbn [job_notifier job_message job_transport].
    set (n := buildNotifier _ _ _ _). set (m := mkMessage _ _ _ _ _ _ _ _ _ _ _).
    destruct (request_fixed n m) as (url & body & Hreq); [by eexists|]. exists url, body. intros now'.
    destruct (Hreq now') as [h ->]. eexists. split; [done|]. split; [done|]. split; [done|]. cbn [p_headers].
    unfold n. rewrite buildNotifier_signing. apply (signed_headers _ (mkSigning _ _ _ _)), Hid.
Qed.

(** ** Retries *)

Section retries.
  Context (answer : nat -> post -> option Z) (took : nat -> Z) (n : Notifier) (m : Message) (Htook : forall i, 0 <= took i).

(** The attempts from number [i] on, with the pauses between them. *)
Definition attempts_ok (i : nat) (delays : list Z) (attempts : list (Z * option post)) (ok : bool) : Prop :=
  (forall k t p, attempts !! k = Some (t, p) ->
     p = request hmac (mkTime t 0) n m /\
     (delivered (answer (i + k)) p = true <-> ok = true /\ S k = length attempts)) /\
  (forall k t p t' p' d, attempts !! k = Some (t, p) -> attempts !! S k = Some (t', p') -> delays !! k = Some d -> t + d <= t') /\
  (length attempts <= S (length delays))%nat /\ (ok = false -> length attempts = S (length delays)).

Lemma attempts_one i delays t p : p = request hmac (mkTime t 0) n m -> delivered (answer i) p = true ->
  attempts_ok i delays [(t, p)] true.
Proof.
  intros Hp Hd. split; [|split; [|split; [cbn; lia|done]]].
  - intros [|k] t' p'; [|done]. intros [= <- <-]. rewrite Nat.add_0_r. split; [done|]. split; [done|]. auto.
  - by intros [|k].
Qed.
Lemma attempts_cons i t p d delays attempts ok :
  p = request hmac (mkTime t 0) n m -> delivered (answer i) p = false -> attempts_ok (S i) delays attempts ok ->
  (forall t' p', attempts !! 0%nat = Some (t', p') -> t + d <= t') -> attempts <> [] ->
  attempts_ok i (d :: delays) ((t, p) :: attempts) ok.
Proof.
  intros Hp Hd (Ha & Hs & Hl & Hf) Ht Hne. split; [|split; [|split]].
  - intros [|k] t' p'; cbn.
    + intros [= <- <-]. rewrite Nat.add_0_r. split; [done|]. rewrite Hd. split; [done|]. intros [_ ?].
      by destruct attempts.
    + intros Hk. destruct (Ha _ _ _ Hk) as [-> Hx]. split; [done|]. rewrite <- Nat.add_succ_comm, Hx. split; intros [? ?]; split; congruence.
  - intros [|k] t1 p1 t2 p2 d' H1 H2 H3; cbn in *; [|by eapply Hs]. injection H1 as <- <-. injection H3 as <-. by eapply Ht.
  - cbn. lia.
  - intros Hok. cbn. by rewrite Hf.
Qed.
Lemma retry_spec delays i d now attempts ok t :
  retry hmac answer took n m (d :: delays) i now = (attempts, ok, t) ->
  attempts_ok i delays attempts ok /\ exists p, attempts !! 0%nat = Some (now + d, p).
Proof.
  revert i d now attempts ok t. induction delays as [|d' delays IH]; intros i d now attempts ok t; cbn [retry]; unfold attempt;
    destruct (delivered (answer i) _) eqn:Ed.
  1, 3: intros [= <- <- <-]; split; [by apply attempts_one|eauto].
  - intros [= <- <- <-]. split; [|eauto]. split; [|split; [by intros [|k]|by split]].
    intros [|k] t' p'; [|done]. intros [= <- <-]. rewrite Nat.add_0_r, Ed. split; [done|]. by split; [|intros [? _]].
  - specialize (IH (S i) d' (now + d + took i)). cbn [retry] in IH. unfold attempt in IH.
    destruct (if delivered (answer (S i)) _ then _ else _) as [[more ok'] t'']. intros [= <- <- <-].
    destruct (IH _ _ _ eq_refl) as [Hok [p Hp]]. split; [|eauto].
    apply attempts_cons; [done..| |by destruct more]. intros t' p'. rewrite Hp. intros [= <- <-]. specialize (Htook i). lia.
Qed.

(** A delivery makes at most seven attempts, each at least the delay of the
    schedule after the one before; it stops at the first that is accepted, and
    fails exactly when all seven are refused. *)
Theorem dispatchWithRetry_spec now :
  let '(attempts, ok, _) := dispatchWithRetry hmac answer took n m now in attempts_ok 0 backoffSchedule attempts ok.
Proof.
  unfold dispatchWithRetry, attempt. destruct (delivered (answer 0) _) eqn:Ed; [by apply attempts_one|].
  destruct (retry _ _ _ _ _ _ _ _) as [[more ok] t] eqn:Er. apply retry_spec in Er as [Hok [p Hp]].
  apply attempts_cons; [done..| |by destruct more]. intros t' p'. rewrite Hp. intros [= <- <-]. specialize (Htook 0). lia.
Qed.
End retries.
End guarantees.

(** ** Configured addresses *)

Lemma HasSuffix_absent (c : ascii) s t : t <> [] -> c ∉ t -> HasSuffix (s ++ t) [c] = false.
Proof.
  intros Ht Hc. unfold HasSuffix. apply bool_decide_eq_false_2. intros [k Hk].
  destruct (exists_last Ht) as (t' & x & ->). rewrite (assoc_L (++)) in Hk. apply app_inj_tail in Hk as [_ ->]. set_solver.
Qed.
Lemma byte_absent (p : ascii -> bool) c s : forallb p s = true -> p c = false -> c ∉ s.
Proof. intros Hs Hp Hc. rewrite forallb_forall in Hs. rewrite list_elem_of_In in Hc. rewrite Hs in Hp by done. done. Qed.
Lemma TrimRight_keep cutset s c : inSet cutset c = false -> TrimRightFunc (inSet cutset) (s ++ [c]) = s ++ [c].
Proof.
  intros Hc. unfold TrimRightFunc. rewrite reverse_snoc. cbn [TrimLeftFunc].
  by rewrite Hc, reverse_cons, reverse_involutive.
Qed.

Lemma forallb_mono (p q : ascii -> bool) : (forall c, p c = true -> q c = true) -> forall s, forallb p s = true -> forallb q s = true.
Proof. intros Hpq s. rewrite !forallb_forall. auto. Qed.

Section telegram.
  Context `{UnicodeTables} `{Authority}.

(** The bytes of a bot token. *)
Definition token_byte (c : ascii) : bool := alphanumeric c || bool_decide (c ∈ str ":_-").
Definition telegram_path (token : gostr) : gostr := str "/bot" ++ token ++ str "/sendMessage".
Definition telegram_query (chatID : gostr) : gostr := str "chat_id=" ++ QueryEscape chatID.
Definition telegram_url (token chatID : gostr) : gostr :=
  str "https://api.telegram.org" ++ telegram_path token ++ str "?" ++ telegram_query chatID.

(** A URL with a plain authority, path and query is read part by part. *)
Definition url_byte (c : ascii) : bool := negb (ctl_byte c) && negb (bool_decide (c = "#"%char)).
Lemma Parse_plain host path query :
  forallb url_byte (host ++ ("/"%char :: path) ++ query) = true ->
  "?"%char ∉ host ++ path ++ query -> "/"%char ∉ host -> "%"%char ∉ path -> query <> [] ->
  parseAuthority (str "https") host = Some (false, host) ->
  exists u, Parse (str "https://" ++ host ++ ("/"%char :: path) ++ str "?" ++ query) = Some u /\
    u_Path u = "/"%char :: path /\ u_RawQuery u = query.
Proof.
  intros Hall Hq Hhost Hpct Hne Hauth.
  set (rest := str "//" ++ host ++ ("/"%char :: path)).
  assert (str "https://" ++ host ++ ("/"%char :: path) ++ str "?" ++ query = str "https:" ++ rest ++ str "?" ++ query) as ->
    by (unfold rest; by rewrite <- !(assoc_L (++))).
  set (raw := str "https:" ++ _).
  assert (forallb url_byte raw = true) as Hraw.
  { unfold raw, rest. rewrite !forallb_app in *. cbn in *. rewrite !andb_true_iff in *. intuition. }
  assert (existsb ctl_byte raw = false) as Hctl.
  { apply not_true_is_false. intros (c & Hc & Hx)%existsb_exists. rewrite forallb_forall in Hraw. specialize (Hraw c Hc).
    unfold url_byte in Hraw. by rewrite Hx in Hraw. }
  assert (setPath ("/"%char :: path) = Some ("/"%char :: path, if escape encodePath ("/"%char :: path) =s "/"%char :: path then [] else "/"%char :: path)) as Hset
    by (unfold setPath; by rewrite unescape_plain by (done || set_solver)).
  unfold Parse. rewrite Cut_absent by by apply (byte_absent url_byte).
  unfold parse. rewrite Hctl, bool_decide_eq_false_2 by (unfold raw; discriminate).
  change (getScheme raw) with (Some (str "https", rest ++ str "?" ++ query)).
  assert (HasSuffix (rest ++ str "?" ++ query) (str "?") = false) as Hsuf
    by (rewrite (assoc_L (++)); apply (HasSuffix_absent "?"); set_solver).
  unfold cut_query. rewrite Hsuf. cbn [andb]. change (str "?" ++ query) with ("?"%char :: query).
  rewrite (Cut_found rest "?" query) by (unfold rest; rewrite !not_elem_of_app, not_elem_of_cons in *; intuition set_solver).
  change (HasPrefix rest (str "/")) with true. cbn [negb andb].
  change (HasPrefix rest (str "//")) with true. cbn [andb]. change (drop 2 rest) with (host ++ "/"%char :: path).
  rewrite IndexByte_first by done. rewrite take_app_length, drop_app_length.
  change (ToLower (str "https")) with (str "https"). change (str "https" <>s []) with true. cbn [orb andb].
  rewrite Hauth, Hset. cbn [fmap option_fmap option_map].
  rewrite bool_decide_eq_true_2 by done. eexists. split; [reflexivity|]. done.
Qed.
Lemma token_url_byte c : token_byte c = true -> url_byte c = true.
Proof. by destruct c as [[] [] [] [] [] [] [] []]. Qed.
Lemma component_url_byte c : component_byte c = true -> url_byte c = true.
Proof. by destruct c as [[] [] [] [] [] [] [] []]. Qed.
Lemma ParseQuery_single key value : forallb component_byte key = true ->
  unescape encodeQueryComponent key = Some key -> key <> [] ->
  Values_Get (ParseQuery (key ++ str "=" ++ QueryEscape value)).1 key = value.
Proof.
  intros Hk Hun Hne. pose proof (QueryEscape_bytes value) as Hv.
  assert (Hno : forall c, component_byte c = false -> c <> "="%char -> c ∉ key ++ str "=" ++ QueryEscape value).
  { intros c Hc Hd. rewrite !not_elem_of_app. repeat split; [by apply (byte_absent component_byte)|set_solver|by apply (byte_absent component_byte)]. }
  unfold ParseQuery. change (str "&") with ["&"%char]. rewrite Split_one, split_on_plain by by apply Hno. cbn [fold_left]. unfold query_pair.
  replace (GoStrings.Contains _ (str ";")) with false.
  2: { symmetry. apply Contains_false. intros a b Hab. apply (Hno ";"%char); [done..|]. rewrite Hab. set_solver. }
  rewrite bool_decide_eq_false_2 by (by destruct key). change (str "=" ++ QueryEscape value) with ("="%char :: QueryEscape value).
  rewrite Cut_found by by apply (byte_absent component_byte). rewrite Hun. unfold QueryEscape. rewrite unescape_escape. cbn [fst].
  unfold Values_Get, Values_add. by rewrite lookup_insert_eq.
Qed.

(** A Telegram address of the documented form, with any token of the
    characters bot tokens have and any chat identifier, is taken apart into that
    token and that chat, so that messages are posted to the bot and the chat that
    were configured. *)
Theorem parseTelegramURL_roundtrip token chatID :
  forallb token_byte token = true ->
  parseAuthority (str "https") (str "api.telegram.org") = Some (false, str "api.telegram.org") ->
  parseTelegramURL (telegram_url token chatID) = (token, chatID).
Proof.
  intros Ht Ha. pose proof (QueryEscape_bytes chatID) as Hv.
  assert (forall c, token_byte c = false -> c ∉ token) as Hno by (intros c; by apply byte_absent).
  destruct (Parse_plain (str "api.telegram.org") (str "bot" ++ token ++ str "/sendMessage") (telegram_query chatID))
    as (u & Hp & Hpath & Hquery); [| |set_solver|rewrite !not_elem_of_app; split; [set_solver|]; split; [by apply Hno|set_solver]|done|done|].
  - unfold telegram_query. rewrite !forallb_app. cbn [forallb]. rewrite !forallb_app. rewrite !andb_true_iff.
    repeat split; try reflexivity; [by apply (forallb_mono token_byte url_byte token_url_byte)|
      by apply (forallb_mono component_byte url_byte component_url_byte)].
  - unfold telegram_query. rewrite !not_elem_of_app. repeat split; first [by apply Hno|by apply (byte_absent component_byte)|set_solver].
  - unfold parseTelegramURL.
    replace (telegram_url token chatID) with
      (str "https://" ++ str "api.telegram.org" ++ ("/"%char :: str "bot" ++ token ++ str "/sendMessage") ++ str "?" ++ telegram_query chatID)
      by reflexivity.
    rewrite Hp, Hpath. unfold Query. rewrite Hquery. f_equal; [|by apply (ParseQuery_single (str "chat_id"))].
    unfold Trim. change (TrimLeftFunc (inSet (str "/")) ("/"%char :: str "bot" ++ token ++ str "/sendMessage"))
      with (str "bot" ++ token ++ str "/sendMessage").
    replace (str "bot" ++ token ++ str "/sendMessage") with ((str "bot" ++ token ++ str "/sendMessag") ++ ["e"%char])
      by by rewrite <- !(assoc_L (++)).
    rewrite TrimRight_keep by done.
    replace ((str "bot" ++ token ++ str "/sendMessag") ++ ["e"%char]) with ((str "bot" ++ token) ++ "/"%char :: str "sendMessage")
      by by rewrite <- !(assoc_L (++)).
    change (str "/") with ["/"%char]. rewrite Split_one, split_on_app by (rewrite not_elem_of_app; split; [set_solver|by apply Hno]).
    cbn [hd]. rewrite HasPrefix_app. unfold TrimPrefix. rewrite HasPrefix_app. apply drop_app_length.
Qed.
End telegram.

(** ** The failure log *)

(** A line about a transport silences that transport, and only that one, for five
    minutes. *)
Lemma logWebhookFailure_spaced now name last last' now' :
  logWebhookFailure now name last = (last', true) ->
  (now' - now < 5 * Minute -> logWebhookFailure now' name last' = (last', false)) /\
  (forall other, other <> name -> (logWebhookFailure now' other last').2 = (logWebhookFailure now' other last).2).
Proof.
  intros Hl. assert (last' = <[name := now]> last) as ->.
  { unfold logWebhookFailure in Hl. destruct (last !! name); [destruct (_ <? _)|]; by injection Hl as <-. }
  split.
  - intros Hn. unfold logWebhookFailure. rewrite lookup_insert_eq. apply Z.ltb_lt in Hn. by rewrite Hn.
  - intros other Ho. unfold logWebhookFailure. rewrite lookup_insert_ne by done. destruct (last !! other); [|done].
    by destruct (_ <? _).
Qed.

(** ** Examples *)

Definition plain_host : Authority := {| parseAuthority := fun _ a => Some (false, a) |}.
Lemma parseTelegramURL_roundtrip_witness :
  telegram_url (str "123:Ab-c_d") (str "@a channel") =
    str "https://api.telegram.org/bot123:Ab-c_d/sendMessage?chat_id=%40a+channel" /\
  parseTelegramURL (H := ascii_tables) (H0 := plain_host)
    (str "https://api.telegram.org/bot123:Ab-c_d/sendMessage?chat_id=%40a+channel") = (str "123:Ab-c_d", str "@a channel").
Proof.
  split; [reflexivity|].
  exact (parseTelegramURL_roundtrip (H := ascii_tables) (H0 := plain_host) (str "123:Ab-c_d") (str "@a channel") eq_refl eq_refl).
Defined.

Definition demo_targets : WebhooksConfig :=
  fun t => match t with Slack => mkHook (str "https://s") (str "k1") | Generic => mkHook (str "https://g") (str "k2") | _ => no_hook end.
Definition demo_event : Event :=
  mkEvent (str "contact.general_submitted") (str "Hello") (str "text") LevelInfo [] [] (str "general") [] [] [] [].
Lemma Dispatch_signed_witness :
  let jobs := Dispatch (H := ascii_tables) (H0 := plain_host) (fun _ => []) (fun _ => str "id") (mkTime 0 0) demo_targets demo_event in
  job_transport <$> jobs = [Slack; Generic] /\
  Forall (fun j => exists url body, forall now', exists p,
    request (fun k b => [1]) now' (job_notifier j) (job_message j) = Some p /\ p_url p = url /\ p_body p = body /\
    p_headers p !! str "X-Webhook-Signature" = Some (signature (fun k b => [1]) (hook_secret (demo_targets (job_transport j))) body) /\
    p_headers p !! str "X-Webhook-ID" = Some (str "id")) jobs.
Proof.
  cbv zeta. split; [reflexivity|].
  exact (proj2 (Dispatch_signed (fun k b => [1]) (fun _ => []) (H := ascii_tables) (H0 := plain_host) (fun _ => str "id") (mkTime 0 0)
    demo_targets demo_event ltac:(done))).
Defined.

Lemma dispatchWithRetry_spec_witness :
  let n := SlackNotifier (str "https://s") (mkSigning (str "k") (str "id") [] []) in
  let m := mkMessage (str "t") (str "b") LevelInfo [] [] [] (Some (mkTime 0 0)) [] [] [] [] in
  let answer := fun i (_ : post) => if Nat.ltb i 3 then Some 500 else Some 200 in
  let '(attempts, ok, _) := dispatchWithRetry (fun k b => [1]) answer (fun _ => Second) n m 0 in
  (attempts.*1 = [0; 61 * Second; 362 * Second; 1263 * Second] /\ ok = true) /\
  attempts_ok (fun k b => [1]) answer n m 0 backoffSchedule attempts ok.
Proof.
  cbv zeta.
  pose proof (dispatchWithRetry_spec (fun k b => [1]) (fun i (_ : post) => if Nat.ltb i 3 then Some 500 else Some 200) (fun _ => Second)
    (SlackNotifier (str "https://s") (mkSigning (str "k") (str "id") [] []))
    (mkMessage (str "t") (str "b") LevelInfo [] [] [] (Some (mkTime 0 0)) [] [] [] []) ltac:(done) 0) as Hs.
  destruct (dispatchWithRetry _ _ _ _ _ _) as [[attempts ok] t] eqn:E. split; [split|exact Hs].
  - change attempts with (attempts, ok, t).1.1. rewrite <- E. vm_compute. reflexivity.
  - change ok with (attempts, ok, t).1.2. rewrite <- E. vm_compute. reflexivity.
Defined.

(** The token of a Gotify address is decoded and then put into the request URL as
    it is: the server reads another token. *)
Lemma gotify_token_unescaped :
  exists server token p, parseGotifyURL (H := ascii_tables) (H0 := plain_host) (fun _ => str "https://g.example")
    (str "https://g.example?token=a%26b") = (server, token) /\
  token = str "a&b" /\
  request (fun k b => [1]) (mkTime 0 0) (GotifyNotifier server token (mkSigning [] [] [] []))
    (mkMessage [] [] LevelInfo [] [] [] None [] [] [] []) = Some p /\
  (fun u => Values_Get (Query u) (str "token")) <$> Parse (H := ascii_tables) (H0 := plain_host) (p_url p) = Some (str "a").
Proof. do 3 eexists. split; [reflexivity|]. split; [reflexivity|]. split; [reflexivity|]. vm_compute. reflexivity. Qed.
