(* ===== verification/Email.v ===== *)
(** * Mail: [email/email.go] and [email/smtp.go]

    Templates and their rendering, the choice of transport security, the queue
    and its workers as a step relation, and the detection of a server.  The
    network library is represented by the commands sent to the server and the
    failures of each.  The theorems: rendering is simultaneous substitution, in
    whatever order the map of variables is walked; mail is sent in clear text
    only where the mode allows it, and credentials then only to this host; every
    queued message is sent, in flight or waiting exactly once; the HTML part of a
    mail cannot carry markup of its text. *)
From stdpp Require Import base list gmap strings.
From Stdlib Require Import ZArith Lia.
From S2P Require Import Prelude GoStrings GoPath I18n.
Local Open Scope Z_scope.
Local Open Scope go_scope.

(** ** Templates *)

Definition newline : gostr := ["010"%char].
Record Template := mkTemplate { t_Name : gostr; t_Subject : gostr; t_Body : gostr }.
Inductive template_error := TooShort | NoSubject | NoSeparator | NotFound.

(** The lines after the first line that is the separator. *)
Fixpoint after_separator (lines : list gostr) : option (list gostr) :=
  match lines with
  | [] => None
  | l :: rest => if TrimSpace l =s str "---" then Some rest else after_separator rest
  end.
Definition parseTemplate (name data : gostr) : result template_error Template :=
  match Split data newline with
  | first :: (_ :: _ :: _) as rest =>
      let subjectLine := TrimSpace first in
      if negb (HasPrefix subjectLine (str "Subject: ")) then Err NoSubject
      else match after_separator rest with
           | None => Err NoSeparator
           | Some body => Ok (mkTemplate name (TrimPrefix subjectLine (str "Subject: ")) (TrimSpace (Join body newline)))
           end
  | _ => Err TooShort
  end.

(** [LoadTemplate]: a file of the configuration directory, else the built-in one. *)
Definition LoadTemplate (disk embedded : gostr -> option gostr) (configDir name : gostr) : result template_error Template :=
  let filename := name ++ str ".txt" in
  let builtin := match embedded (path_Join (str "templates") filename) with
                 | Some data => parseTemplate name data
                 | None => Err NotFound
                 end in
  if configDir <>s [] then
    match disk (path_Join (path_Join (path_Join configDir (str "template")) (str "email")) filename) with
    | Some data => parseTemplate name data
    | None => builtin
    end
  else builtin.

Definition placeholder (k : gostr) : gostr := str "{" ++ k ++ str "}".
(** The map of variables, in the order in which it is walked. *)
Definition substitute (vars : list (gostr * gostr)) (s : gostr) : gostr :=
  fold_left (fun s kv => ReplaceAll s (placeholder kv.1) kv.2) vars s.
Definition Render (t : Template) (vars : list (gostr * gostr)) : gostr * gostr :=
  (substitute vars (t_Subject t), substitute vars (t_Body t)).

Definition expandLocalizedVars (s : gostr) (vars : list (gostr * gostr)) : gostr :=
  if negb (GoStrings.Contains s (str "{")) then s else substitute vars s.
Definition localizedLabelKeys : list gostr :=
  str <$> ["label_time"; "label_filename"; "label_size"; "label_error"; "label_task"; "label_event"; "label_ip"; "label_domain";
           "label_expires"; "label_days_remaining"; "label_new_expiry"; "label_days_until_expiry"; "label_next_retry";
           "label_next_run"; "label_channel"; "label_current_version"; "label_new_version"; "label_previous_version"]%string.
Definition emailLocaleStem : gmap gostr gostr :=
  list_to_map ((fun p => (str p.1, str p.2)) <$>
    [("security_alert", "security_alert"); ("backup_complete", "backup_completed"); ("backup_failed", "backup_failed");
     ("ssl_expiring", "ssl_expiring"); ("ssl_renewed", "ssl_renewed"); ("ssl_renewal_failed", "ssl_renewal_failed");
     ("scheduler_error", "task_failed"); ("update_available", "update_available"); ("update_installed", "update_installed");
     ("test", "test")]%string).
(** The locale keys of a template. *)
Definition locale_keys (templateName : gostr) : list (gostr * gostr) :=
  let stem := match emailLocaleStem !! templateName with Some s => s | None => templateName end in
  let subjectStem := if stem =s str "test" then str "test_email" else stem in
  [(str "subject", str "email.subjects." ++ subjectStem); (str "heading", str "email.body." ++ stem ++ str "_heading");
   (str "intro", str "email.body." ++ stem ++ str "_intro"); (str "action", str "email.body." ++ stem ++ str "_action");
   (str "from_line", str "email.body.from")] ++ ((fun k => (k, str "email.body." ++ k)) <$> localizedLabelKeys).
(** The variables a localized template is rendered with: the translations that
    exist, overridden by the caller's. *)
Definition localized_vars (translate : gostr -> gostr) (templateName : gostr) (vars : gmap gostr gostr) : gmap gostr gostr :=
  vars ∪ list_to_map (omap (fun nk => let v := translate nk.2 in
                                      if (v =s []) || (v =s nk.2) then None
                                      else Some (nk.1, expandLocalizedVars v (map_to_list vars))) (locale_keys templateName)).

(** ** The message *)

(** [html.EscapeString]. *)
Definition escape_html (c : ascii) : gostr :=
  if bool_decide (c = "&"%char) then str "&amp;" else if bool_decide (c = "'"%char) then str "&#39;"
  else if bool_decide (c = "<"%char) then str "&lt;" else if bool_decide (c = ">"%char) then str "&gt;"
  else if bool_decide (c = "034"%char) then str "&#34;" else [c].
Definition EscapeString (s : gostr) : gostr := s ≫= escape_html.
Definition html_head : gostr :=
  str "<!DOCTYPE html><html><head><meta charset=" ++ ["034"%char] ++ str "UTF-8" ++ ["034"%char] ++ str ">" ++
  str "<style>body{font-family:sans-serif;max-width:600px;margin:0 auto;padding:20px;color:#222;}" ++
  str "pre{white-space:pre-wrap;}</style></head><body><pre>".
Definition html_tail : gostr := str "</pre></body></html>".
Definition plainToHTML (plain : gostr) : gostr :=
  html_head ++ (Split (EscapeString plain) newline ≫= (fun line => line ++ newline)) ++ html_tail.

Definition crlf : gostr := ["013"; "010"]%char.
(** The header lines of a message, up to the blank line. *)
Definition message_headers (subject from : gostr) (to : list gostr) (boundary : gostr) : gostr :=
  str "From: " ++ from ++ crlf ++ str "To: " ++ Join to (str ", ") ++ crlf ++ str "Subject: " ++ subject ++ crlf ++
  str "MIME-Version: 1.0" ++ crlf ++ str "Content-Type: multipart/alternative; boundary=" ++ ["034"%char] ++ boundary ++ ["034"%char] ++
  crlf ++ crlf.

(** ** Delivery *)

Record SMTPConfig := mkSMTP {
  smtp_Enabled : bool; smtp_Host : gostr; smtp_Port : Z; smtp_Username : gostr; smtp_Password : gostr; smtp_From : gostr;
  smtp_FromName : gostr; smtp_TLS : gostr }.
Definition IsEnabled (cfg : SMTPConfig) : bool := smtp_Enabled cfg && (smtp_Host cfg <>s []).
Definition header_from (cfg : SMTPConfig) : gostr :=
  if smtp_FromName cfg <>s [] then smtp_FromName cfg ++ str " <" ++ smtp_From cfg ++ str ">" else smtp_From cfg.

(** What the client does, with the encryption of the connection at that point. *)
Inductive command := Dial | Greet | StartTLS | Auth | Mail | Rcpt (to : gostr) | Data | Quit.
#[export] Instance command_eq_dec : EqDecision command.
Proof. solve_decision. Defined.
Inductive mail_error := NotEnabled | Failed (c : command) | NoStartTLS | RefusedCleartext | UnencryptedAuth.

Section delivery.
  Context `{UnicodeTables}.
  (** Whether the server offers STARTTLS, and which commands fail. *)
  Context (offers : bool) (fails : command -> bool) (cfg : SMTPConfig).

Definition tls_mode : gostr :=
  let mode := ToLower (TrimSpace (smtp_TLS cfg)) in if mode =s [] then str "auto" else mode.
Definition implicit_tls : bool := (tls_mode =s str "tls") || ((tls_mode =s str "auto") && (smtp_Port cfg =? 465)).
Definition wants_starttls : bool := (tls_mode =s str "starttls") || ((tls_mode =s str "auto") && negb (smtp_Port cfg =? 465)).
(** [smtp.PlainAuth] refuses an unencrypted connection to another host. *)
Definition localhost (host : gostr) : bool :=
  (host =s str "localhost") || (host =s str "127.0.0.1") || (host =s str "::1").

(** Commands in order, until one fails. *)
Fixpoint run (tls : bool) (cs : list command) : list (command * bool) * option mail_error :=
  match cs with
  | [] => ([], None)
  | c :: rest => if fails c then ([(c, tls)], Some (Failed c))
                 else let '(trace, e) := run tls rest in ((c, tls) :: trace, e)
  end.
Definition transfer (tls : bool) (to : list gostr) : list (command * bool) * option mail_error :=
  run tls ([Mail] ++ (Rcpt <$> to) ++ [Data; Quit]).
Definition authenticate (tls : bool) (to : list gostr) : list (command * bool) * option mail_error :=
  if smtp_Username cfg <>s [] then
    if negb tls && negb (localhost (smtp_Host cfg)) then ([], Some UnencryptedAuth)
    else if fails Auth then ([(Auth, tls)], Some (Failed Auth))
    else let '(trace, e) := transfer tls to in ((Auth, tls) :: trace, e)
  else transfer tls to.
(** After the greeting: the upgrade, where the mode asks for it. *)
Definition upgrade (to : list gostr) : list (command * bool) * option mail_error :=
  if wants_starttls then
    if offers then
      if fails StartTLS then ([(StartTLS, false)], Some (Failed StartTLS))
      else let '(trace, e) := authenticate true to in ((StartTLS, false) :: trace, e)
    else if tls_mode =s str "starttls" then ([], Some NoStartTLS)
    else if (smtp_Username cfg <>s []) && (smtp_Password cfg <>s []) then ([], Some RefusedCleartext)
    else authenticate false to
  else authenticate implicit_tls to.
Definition sendWithTLSMode (to : list gostr) : list (command * bool) * option mail_error :=
  if fails Dial then ([(Dial, implicit_tls)], Some (Failed Dial))
  else if fails Greet then ([(Dial, implicit_tls); (Greet, implicit_tls)], Some (Failed Greet))
  else let '(trace, e) := upgrade to in ((Dial, implicit_tls) :: (Greet, implicit_tls) :: trace, e).
Definition SendDirect (to : list gostr) : list (command * bool) * option mail_error :=
  if negb (IsEnabled cfg) then ([], Some NotEnabled) else sendWithTLSMode to.
End delivery.

(** ** Replacing all occurrences, from left to right *)

Lemma split_from_skip sep s skip acc : (skip <= length s)%nat -> split_from sep s skip acc = split_from sep (drop skip s) 0 acc.
Proof.
  revert skip. induction s as [|c s IH]; intros [|k] Hk; cbn in Hk; try done; try lia. cbn [split_from drop]. apply IH. lia.
Qed.
Lemma split_from_acc sep s acc : exists p ps, split_from sep s 0 [] = p :: ps /\ split_from sep s 0 acc = (reverse acc ++ p) :: ps.
Proof.
  revert acc. induction s as [|c s IH]; intros acc.
  - exists [], []. cbn. by rewrite app_nil_r.
  - cbn [split_from]. destruct (HasPrefix (c :: s) sep).
    + eexists _, _. split; [reflexivity|]. by rewrite app_nil_r.
    + destruct (IH (c :: acc)) as (p & ps & E1 & ->), (IH [c]) as (p' & ps' & E2 & ->). rewrite E1 in E2.
      injection E2 as <- <-. eexists _, _. split; [reflexivity|]. rewrite reverse_cons, <- (assoc_L (++)). done.
Qed.
Lemma ReplaceAll_found old new s : old <> [] -> ReplaceAll (old ++ s) old new = new ++ ReplaceAll s old new.
Proof.
  intros Hne. destruct old as [|d old]; [done|]. unfold ReplaceAll, Split. cbn [app split_from].
  rewrite (HasPrefix_app s (d :: old) : HasPrefix (d :: old ++ s) (d :: old) = true).
  rewrite split_from_skip by (rewrite length_app; cbn; lia). cbn [length].
  replace (S (length old) - 1)%nat with (length old) by lia. rewrite drop_app_length.
  rewrite Join_cons by apply split_from_nonempty. done.
Qed.
Lemma ReplaceAll_next old new c s : HasPrefix (c :: s) old = false -> ReplaceAll (c :: s) old new = c :: ReplaceAll s old new.
Proof.
  intros Hp. unfold ReplaceAll, Split. cbn [split_from]. rewrite Hp.
  destruct (split_from_acc old s [c]) as (p & ps & -> & ->). change (reverse [c] ++ p) with (c :: p). by destruct ps.
Qed.

(** ** Rendering *)

(** A text as a template author sees it: plain text without braces, and
    placeholders. *)
Inductive token := Lit (s : gostr) | Hole (k : gostr).
Definition token_text (t : token) : gostr := match t with Lit s => s | Hole k => placeholder k end.
Definition text (ts : list token) : gostr := ts ≫= token_text.
Definition plain_name (k : gostr) : Prop := "{"%char ∉ k /\ "}"%char ∉ k.
Definition plain_token (t : token) : Prop := match t with Lit s => "{"%char ∉ s | Hole k => plain_name k end.
#[export] Instance plain_name_dec k : Decision (plain_name k).
Proof. unfold plain_name. apply _. Defined.
#[export] Instance plain_token_dec t : Decision (plain_token t).
Proof. destruct t; cbn; apply _. Defined.
(** Filling the holes of one name, and all holes at once. *)
Definition fill (k v : gostr) (t : token) : token :=
  match t with Hole k' => if bool_decide (k' = k) then Lit v else t | Lit _ => t end.
Definition filled (vars : gmap gostr gostr) (t : token) : gostr :=
  match t with Lit s => s | Hole k => default (placeholder k) (vars !! k) end.

Lemma ReplaceAll_literal k new s rest : "{"%char ∉ s ->
  ReplaceAll (s ++ rest) (placeholder k) new = s ++ ReplaceAll rest (placeholder k) new.
Proof.
  induction s as [|c s IH]; intros Hs; [done|]. cbn [app]. rewrite ReplaceAll_next.
  - by rewrite IH by set_solver.
  - apply not_true_is_false. intros [x Hx]%HasPrefix_true. injection Hx as Hx _. set_solver.
Qed.
Lemma placeholder_prefix k k' rest : plain_name k -> plain_name k' -> HasPrefix (placeholder k' ++ rest) (placeholder k) = true -> k' = k.
Proof.
  intros [_ Hk] [_ Hk'] [x Hx]%HasPrefix_true. unfold placeholder in Hx. rewrite <- !(assoc_L (++)) in Hx. cbn in Hx.
  injection Hx as Hx. revert k' Hk' Hx. induction k as [|c k IH]; intros [|c' k'] Hk' Hx; cbn in Hx; [done|injection Hx as Hc Hx..].
  - rewrite Hc in Hk'. by apply not_elem_of_cons in Hk' as [? _].
  - rewrite <- Hc in Hk. by apply not_elem_of_cons in Hk as [? _].
  - apply not_elem_of_cons in Hk as [_ Hk], Hk' as [_ Hk']. f_equal; [done|]. by apply IH.
Qed.
Lemma ReplaceAll_tokens k v ts : plain_name k -> Forall plain_token ts ->
  ReplaceAll (text ts) (placeholder k) v = text (fill k v <$> ts).
Proof.
  intros Hk. induction 1 as [|t ts Ht Hts IH]; [done|]. unfold text in *. cbn [mbind list_bind fmap list_fmap].
  destruct t as [s|k']; cbn [token_text fill].
  - by rewrite ReplaceAll_literal, IH by done.
  - case_bool_decide as E; [subst k'|].
    + by rewrite ReplaceAll_found, IH by done.
    + assert (HasPrefix (placeholder k' ++ (ts ≫= token_text)) (placeholder k) = false) as Hp
        by (apply not_true_is_false; intros Hp; by apply placeholder_prefix in Hp).
      change (placeholder k' ++ (ts ≫= token_text)) with ("{"%char :: (k' ++ str "}") ++ (ts ≫= token_text)) in *.
      rewrite ReplaceAll_next by done. rewrite ReplaceAll_literal by (rewrite not_elem_of_app; split; [apply Ht|set_solver]).
      by rewrite IH.
Qed.

(** Filling names one after another is filling all at once, when the values have
    no braces of their own. *)
Lemma substitute_tokens vars ts :
  Forall (fun kv => plain_name kv.1 /\ "{"%char ∉ kv.2) vars -> NoDup vars.*1 -> Forall plain_token ts ->
  substitute vars (text ts) = ts ≫= filled (list_to_map vars).
Proof.
  intros Hv Hnd. revert ts. induction vars as [|[k v] vars IH]; intros ts Hts; cbn [substitute fold_left].
  - unfold text. apply list_bind_ext; [|done]. by intros [].
  - apply Forall_cons in Hv as [[Hk Hval] Hv]. apply NoDup_cons in Hnd as [Hnew Hnd]. cbn [fst snd] in *.
    rewrite ReplaceAll_tokens by done. unfold substitute in IH. rewrite IH; [|done..|].
    + rewrite list_fmap_bind. apply list_bind_ext; [|done]. intros [s|k']; [done|]. unfold compose. cbn [fill].
      rewrite list_to_map_cons. case_bool_decide as E; cbn [filled]; [subst; by rewrite lookup_insert_eq|].
      by rewrite lookup_insert_ne by congruence.
    + apply Forall_fmap. eapply Forall_impl; [exact Hts|]. intros [s|k'] Ht; [done|]. cbn. by case_bool_decide.
Qed.
(** In whatever order Go walks the map of variables, a template renders to
    its text with every placeholder of a variable replaced by its value and
    nothing else changed, provided braces occur only as placeholders in the
    template and not in the names and values. *)
Theorem Render_simultaneous (t : Template) (subject body : list token) (vars : gmap gostr gostr) (order : list (gostr * gostr)) :
  t_Subject t = text subject -> t_Body t = text body -> Forall plain_token subject -> Forall plain_token body ->
  map_Forall (fun k v => plain_name k /\ "{"%char ∉ v) vars -> order ≡ₚ map_to_list vars ->
  Render t order = (subject ≫= filled vars, body ≫= filled vars).
Proof.
  intros Hs Hb Hps Hpb Hv Ho. unfold Render. rewrite Hs, Hb.
  assert (NoDup order.*1) as Hnd by (rewrite Ho; apply NoDup_fst_map_to_list).
  assert (list_to_map order = vars) as <- by (rewrite <- (list_to_map_to_list vars); by apply list_to_map_proper).
  rewrite !substitute_tokens; try done; rewrite Ho; apply Forall_forall; intros [k v] Hkv%elem_of_map_to_list; exact (Hv _ _ Hkv).
Qed.
Lemma Render_simultaneous_witness :
  let t := mkTemplate (str "n") (str "{subject}") (str "{label} {size}!") in
  let vars : gmap gostr gostr := {[ str "subject" := str "Backup"; str "size" := str "3 MB" ]} in
  Render t [(str "size", str "3 MB"); (str "subject", str "Backup")] = (str "Backup", str "{label} 3 MB!").
Proof.
  intros t vars.
  rewrite (Render_simultaneous t [Hole (str "subject")] [Hole (str "label"); Lit (str " "); Hole (str "size"); Lit (str "!")] vars).
  - reflexivity.
  - reflexivity.
  - reflexivity.
  - apply (bool_decide_unpack (Forall _ _)). vm_compute. exact I.
  - apply (bool_decide_unpack (Forall _ _)). vm_compute. exact I.
  - apply (bool_decide_unpack _). vm_compute. exact I.
  - apply (bool_decide_unpack _). vm_compute. exact I.
Defined.

(** ** Transport security *)

Section transport.
  Context `{UnicodeTables} (offers : bool) (fails : command -> bool) (cfg : SMTPConfig).

Lemma run_spec tls cs :
  let '(trace, e) := run fails tls cs in
  (forall c b, (c, b) ∈ trace -> b = tls /\ c ∈ cs) /\ (e = None -> trace = (fun c => (c, tls)) <$> cs).
Proof.
  induction cs as [|c cs IH]; cbn [run]; [split; [by intros ? ? ?%not_elem_of_nil|done]|]. destruct (fails c).
  - split; [|done]. intros c' b [[= -> ->]|[]%not_elem_of_nil]%elem_of_cons. set_solver.
  - destruct (run fails tls cs) as [trace e]. destruct IH as [Hin He]. split.
    + intros c' b [[= -> ->]|Hc]%elem_of_cons; [set_solver|]. destruct (Hin _ _ Hc). set_solver.
    + intros Hn. by rewrite He.
Qed.
(** What a transfer over one connection shows. *)
Definition over (tls : bool) (to : list gostr) (out : list (command * bool) * option mail_error) : Prop :=
  (forall c b, (c, b) ∈ out.1 -> b = tls) /\
  ((Auth, tls) ∈ out.1 -> tls = true \/ localhost (smtp_Host cfg) = true) /\
  ((Auth, tls) ∈ out.1 -> smtp_Username cfg <> []) /\
  (out.2 = None -> (Data, tls) ∈ out.1 /\ forall r, r ∈ to -> (Rcpt r, tls) ∈ out.1).
Lemma transfer_over tls to : (forall b, (Auth, b) ∉ (transfer fails tls to).1) /\ over tls to (transfer fails tls to).
Proof.
  unfold transfer. pose proof (run_spec tls ([Mail] ++ (Rcpt <$> to) ++ [Data; Quit])) as Hr. destruct (run _ _ _) as [trace e].
  destruct Hr as [Hin He].
  assert (forall b, (Auth, b) ∉ trace) as Hno.
  { intros b [_ Hc]%Hin. rewrite !elem_of_app, list_elem_of_fmap in Hc. destruct Hc as [Hc|[(? & ? & _)|Hc]]; [set_solver|done|set_solver]. }
  split; [done|]. split; [by intros c b [-> _]%Hin|]. split; [by intros ?%Hno|]. split; [by intros ?%Hno|].
  cbn. intros Hn. rewrite (He Hn). split; [apply list_elem_of_fmap; exists Data; set_solver|]. intros r Hr.
  apply list_elem_of_fmap. exists (Rcpt r). split; [done|]. rewrite !elem_of_app, list_elem_of_fmap. eauto.
Qed.
Lemma authenticate_over tls to : over tls to (authenticate fails cfg tls to).
Proof.
  unfold authenticate. destruct (transfer_over tls to) as [Hno Hover]. destruct (smtp_Username cfg <>s []) eqn:Eu; [|done].
  apply negb_true_iff, bool_decide_eq_false in Eu.
  assert (Hnone : forall e, over tls to ([], Some e)) by (intros e; split; [by intros ? ? ?%not_elem_of_nil|]; do 2 (split; [by intros ?%not_elem_of_nil|]); done).
  destruct (negb tls && negb (localhost (smtp_Host cfg))) eqn:Ex; [apply Hnone|].
  assert (tls = true \/ localhost (smtp_Host cfg) = true) as Hx by (destruct tls, (localhost _); auto; done).
  destruct (fails Auth).
  - split; [|split; [|split]]; cbn; [intros c b [[= -> ->]|[]%not_elem_of_nil]%elem_of_cons; done|done..].
  - destruct (transfer fails tls to) as [trace e]. destruct Hover as (H1 & _ & _ & H4). cbn in *.
    split; [|split; [|split]]; cbn; [intros c b [[= -> ->]|Hc]%elem_of_cons; [done|by eapply H1]|done..|].
    intros [Hd Hr]%H4. set_solver.
Qed.

(** What happens on the wire: a command sent in the clear. *)
Definition clear_allowed : Prop :=
  tls_mode cfg <> str "tls" /\ tls_mode cfg <> str "starttls" /\
  (tls_mode cfg = str "auto" -> offers = false /\ smtp_Port cfg <> 465 /\ (smtp_Username cfg = [] \/ smtp_Password cfg = [])).
Definition claims (to : list gostr) (out : list (command * bool) * option mail_error) : Prop :=
  ((Data, false) ∈ out.1 \/ (Auth, false) ∈ out.1 -> clear_allowed) /\
  ((Auth, false) ∈ out.1 -> localhost (smtp_Host cfg) = true) /\
  (out.2 = None -> exists tls, (Data, tls) ∈ out.1 /\ forall r, r ∈ to -> (Rcpt r, tls) ∈ out.1).
Lemma claims_over tls to out : over tls to out -> (tls = false -> clear_allowed) -> claims to out.
Proof.
  intros (Htls & Hauth & _ & Hdone) Hc. split; [|split].
  - intros [Hx%Htls|Hx%Htls]; by apply Hc.
  - intros Hx. pose proof (Htls _ _ Hx) as <-. by destruct (Hauth Hx).
  - intros He. exists tls. auto.
Qed.
Lemma claims_cons c b to out : c <> Data -> c <> Auth -> claims to out -> claims to ((c, b) :: out.1, out.2).
Proof.
  intros Hd Ha (H1 & H2 & H3). split; [|split]; cbn.
  - rewrite !elem_of_cons. intros [[[= ? _]|?]|[[= ? _]|?]]; [done|auto|done|auto].
  - rewrite elem_of_cons. intros [[= ? _]|?]; [done|auto].
  - intros (tls & Hx & Hr)%H3. exists tls. split; [by right|]. intros r Hin. right. auto.
Qed.
Lemma claims_failed to e : claims to ([], Some e).
Proof. split; [by intros [?%not_elem_of_nil|?%not_elem_of_nil]|]. split; [by intros ?%not_elem_of_nil|done]. Qed.
Lemma upgrade_claims to : claims to (upgrade offers fails cfg to).
Proof.
  unfold upgrade. destruct (wants_starttls cfg) eqn:Ew.
  - destruct offers eqn:Eo.
    + destruct (fails StartTLS); [apply (claims_cons StartTLS false to ([], _)), claims_failed; done|].
      pose proof (claims_over true to _ (authenticate_over true to)) as Hc.
      destruct (authenticate fails cfg true to) as [trace e]. apply (claims_cons StartTLS false to (trace, e)); [done..|by apply Hc].
    + destruct (tls_mode cfg =s str "starttls") eqn:Em; [apply claims_failed|]. destruct (_ && _) eqn:Ecred; [apply claims_failed|].
      apply (claims_over false); [apply authenticate_over|]. intros _. unfold wants_starttls in Ew. rewrite Em in Ew. cbn in Ew.
      apply andb_true_iff in Ew as [Ea%bool_decide_eq_true Ep%negb_true_iff%Z.eqb_neq]. split; [by rewrite Ea|].
      split; [by rewrite Ea|]. intros _. split; [done|]. split; [done|].
      apply andb_false_iff in Ecred as [Hn%negb_false_iff%bool_decide_eq_true|Hn%negb_false_iff%bool_decide_eq_true]; auto.
  - apply (claims_over (implicit_tls cfg)); [apply authenticate_over|]. intros Hi. unfold implicit_tls, wants_starttls in *.
    apply orb_false_iff in Hi as [H1%bool_decide_eq_false H2], Ew as [H3%bool_decide_eq_false H4].
    split; [done|]. split; [done|]. intros Ha. rewrite (bool_decide_eq_true_2 _ Ha) in H2, H4. cbn in H2, H4. by rewrite H2 in H4.
Qed.

(** C19. Mail is transferred in the clear only when the mode is neither tls nor
    starttls and, in the automatic mode, only to a server that does not offer the
    upgrade and without a password; credentials go over an unencrypted connection
    to this host only; and a send without an error has named every recipient and
    transferred the message. *)
Theorem mail_protected to :
  let '(trace, e) := SendDirect offers fails cfg to in
  ((Data, false) ∈ trace \/ (Auth, false) ∈ trace -> clear_allowed) /\
  ((Auth, false) ∈ trace -> localhost (smtp_Host cfg) = true) /\
  (e = None -> exists tls, (Data, tls) ∈ trace /\ forall r, r ∈ to -> (Rcpt r, tls) ∈ trace).
Proof.
  assert (claims to (SendDirect offers fails cfg to)) as Hc; [|by destruct (SendDirect _ _ _ _)].
  unfold SendDirect, sendWithTLSMode. destruct (IsEnabled cfg); cbn [negb]; [|apply claims_failed].
  destruct (fails Dial); [apply (claims_cons Dial _ to ([], _)), claims_failed; done|].
  destruct (fails Greet).
  - apply (claims_cons Dial _ to ([(Greet, _)], _)), (claims_cons Greet _ to ([], _)), claims_failed; done.
  - pose proof (upgrade_claims to) as Hu. destruct (upgrade _ _ _ _) as [trace e].
    by apply (claims_cons Dial _ to ((Greet, _) :: trace, e)), (claims_cons Greet _ to (trace, e)).
Qed.
End transport.

(** ** The HTML part *)

Lemma EscapeString_inert s c : c ∈ EscapeString s -> c <> "<"%char /\ c <> ">"%char /\ c <> "034"%char /\ c <> "'"%char.
Proof.
  unfold EscapeString. intros (x & Hx & _)%list_elem_of_bind. revert Hx. unfold escape_html.
  repeat case_bool_decide; intros Hx%list_elem_of_In; cbv in Hx; repeat destruct Hx as [<-|Hx]; auto; done.
Qed.
Lemma lines_again s : Split s newline ≫= (fun line => line ++ newline) = s ++ newline.
Proof.
  unfold newline. rewrite Split_one. rewrite <- (Join_split_on "010" s) at 2.
  pose proof (split_on_nonempty "010" s) as Hne. induction (split_on "010" s) as [|p ps IH]; [done|].
  destruct ps as [|q ps]; [cbn; by rewrite app_nil_r|]. rewrite Join_cons, bind_cons by done.
  rewrite (IH ltac:(done)). by rewrite <- !(assoc_L (++)).
Qed.
(** Whatever the text of a mail, its HTML part is the fixed frame around the
    escaped text, in which no tag and no attribute can begin. *)
Lemma plainToHTML_inert plain :
  plainToHTML plain = html_head ++ EscapeString plain ++ newline ++ html_tail /\
  (forall c, c ∈ EscapeString plain -> c <> "<"%char /\ c <> ">"%char).
Proof.
  split; [unfold plainToHTML; by rewrite lines_again, <- !(assoc_L (++))|]. intros c Hc. by apply EscapeString_inert in Hc as (? & ? & _).
Qed.

(** ** The queue *)

Section queue.
  Context {msg : Type}.

(** The manager with its worker goroutines: each has the stop channel it was
    started with and is waiting or sending a message. *)
Record EmailManager := mkManager {
  started : bool; stopCh : nat; closed : list nat; workers : list (nat * option msg); queue : list msg;
  accepted : list msg; sent : list msg }.
Definition queueCapacity : nat := 100.
Definition NewEmailManager : EmailManager := mkManager false 0 [] [] [] [] [].
(** [Send] on a configured manager: the queue takes the message or is full. *)
Definition Send (m : msg) (s : EmailManager) : EmailManager * bool :=
  if Nat.ltb (length (queue s)) queueCapacity
  then (mkManager (started s) (stopCh s) (closed s) (workers s) (queue s ++ [m]) (accepted s ++ [m]) (sent s), true)
  else (s, false).
Definition Start (s : EmailManager) : EmailManager :=
  if started s then s
  else mkManager true (S (stopCh s)) (closed s) (workers s ++ [(S (stopCh s), None)]) (queue s) (accepted s) (sent s).
Definition Stop (s : EmailManager) : EmailManager :=
  if negb (started s) then s
  else mkManager false (stopCh s) (closed s ++ [stopCh s]) (workers s) (queue s) (accepted s) (sent s).

(** The turns of [processQueue]: of the ready cases of its select one is chosen
    at random, so that a worker whose channel is closed may still take a message. *)
Inductive queue_step : EmailManager -> EmailManager -> Prop :=
| step_send m s : queue_step s (Send m s).1
| step_start s : queue_step s (Start s)
| step_stop s : queue_step s (Stop s)
| step_take s ws ws' ch m q : workers s = ws ++ (ch, None) :: ws' -> queue s = m :: q ->
    queue_step s (mkManager (started s) (stopCh s) (closed s) (ws ++ (ch, Some m) :: ws') q (accepted s) (sent s))
| step_done s ws ws' ch m : workers s = ws ++ (ch, Some m) :: ws' ->
    queue_step s (mkManager (started s) (stopCh s) (closed s) (ws ++ (ch, None) :: ws') (queue s) (accepted s) (sent s ++ [m]))
| step_exit s ws ws' ch : workers s = ws ++ (ch, None) :: ws' -> ch ∈ closed s ->
    queue_step s (mkManager (started s) (stopCh s) (closed s) (ws ++ ws') (queue s) (accepted s) (sent s)).

Definition in_flight (s : EmailManager) : list msg := omap snd (workers s).
Definition queue_inv (s : EmailManager) : Prop :=
  accepted s ≡ₚ sent s ++ in_flight s ++ queue s /\ (length (queue s) <= queueCapacity)%nat.
Lemma queue_step_inv s s' : queue_step s s' -> queue_inv s -> queue_inv s'.
Proof.
  unfold queue_inv, in_flight. intros Hs [Hp Hl]. destruct Hs as [m s|s|s|s ws ws' ch m q Hw Hq|s ws ws' ch m Hw|s ws ws' ch Hw Hc].
  - unfold Send. destruct (Nat.ltb_spec (length (queue s)) queueCapacity); cbn; [|done]. rewrite length_app. cbn.
    split; [rewrite Hp; solve_Permutation|lia].
  - unfold Start. destruct (started s); [done|]. cbn. rewrite omap_app. cbn. by rewrite app_nil_r.
  - unfold Stop. by destruct (started s).
  - cbn. rewrite Hw, Hq in *. rewrite omap_app in *. cbn in *. split; [rewrite Hp; solve_Permutation|lia].
  - cbn. rewrite Hw in *. rewrite omap_app in *. cbn in *. split; [rewrite Hp; solve_Permutation|done].
  - cbn. rewrite Hw in *. rewrite omap_app in *. cbn in *. done.
Qed.
(** In every interleaving of senders, starts, stops and workers, each message
    the queue accepted is exactly once among those handed to the mail server,
    those a worker is sending and those waiting, and at most a hundred wait. *)
Theorem queue_accounts_messages s : rtc queue_step NewEmailManager s -> queue_inv s.
Proof.
  intros Hr. assert (queue_inv NewEmailManager) as H0 by (split; cbn; [done|lia]). revert H0.
  induction Hr as [|s1 s2 s3 H12 _ IH]; [done|]. intros H1. by apply IH, (queue_step_inv s1).
Qed.

(** A worker that is sending when the manager is stopped is still running when it
    is started again: then there are two workers on one queue. *)
Lemma two_workers (m : msg) : exists s, rtc queue_step NewEmailManager s /\ length (workers s) = 2%nat /\ started s = true.
Proof.
  exists (Start (Stop (mkManager true 1 [] [(1%nat, Some m)] [] [m] []))). split; [|done].
  apply (rtc_l _ _ (Start NewEmailManager)); [constructor|].
  apply (rtc_l _ _ (Send m (Start NewEmailManager)).1); [constructor|].
  eapply rtc_l; [by apply (step_take _ [] [] 1%nat m [])|]. eapply rtc_l; [apply step_stop|]. eapply rtc_l; [apply step_start|]. apply rtc_refl.
Qed.
End queue.
Arguments EmailManager : clear implicits.
Lemma queue_accounts_messages_witness :
  (Send 7 (Start NewEmailManager)).2 = true /\ queue_inv (Send 7 (Start NewEmailManager)).1.
Proof.
  split; [reflexivity|]. apply queue_accounts_messages. eapply rtc_l; [apply step_start|]. eapply rtc_l; [apply step_send|]. apply rtc_refl.
Defined.

(** ** Finding a server: [email/smtp.go] *)

Definition smtpCandidates (gatewayIP fqdn globalIPv4 : gostr) : list gostr :=
  let named := (fqdn <>s []) && (fqdn <>s str "localhost") in
  [str "127.0.0.1"; str "172.17.0.1"] ++ (if gatewayIP <>s [] then [gatewayIP] else []) ++ (if named then [fqdn] else [])
  ++ (if globalIPv4 <>s [] then [globalIPv4] else []) ++ (if named then [str "mail." ++ fqdn; str "smtp." ++ fqdn] else []).
Definition smtp_ports : list Z := [25; 465; 587].
(** The first host and port that answers, hosts before ports. *)
Definition AutoDetectSMTP (answers : gostr -> Z -> bool) (gatewayIP fqdn globalIPv4 : gostr) : option (gostr * Z) :=
  head (smtpCandidates gatewayIP fqdn globalIPv4 ≫=
        (fun host => (fun port => (host, port)) <$> filter (fun port => answers host port = true) smtp_ports)).

Definition override (v old : gostr) : gostr := if v <>s [] then v else old.
Definition ApplyEnvOverrides (env : string -> gostr) (cfg : SMTPConfig) : SMTPConfig :=
  let port := if env "SMTP_PORT"%string <>s [] then
                match ParseInt (env "SMTP_PORT"%string) with Some p => if 0 <? p then p else smtp_Port cfg | None => smtp_Port cfg end
              else smtp_Port cfg in
  let from := if env "SMTP_FROM_EMAIL"%string <>s [] then env "SMTP_FROM_EMAIL"%string else override (env "SMTP_FROM"%string) (smtp_From cfg) in
  mkSMTP (smtp_Enabled cfg) (override (env "SMTP_HOST"%string) (smtp_Host cfg)) port
    (override (env "SMTP_USERNAME"%string) (smtp_Username cfg)) (override (env "SMTP_PASSWORD"%string) (smtp_Password cfg)) from
    (override (env "SMTP_FROM_NAME"%string) (smtp_FromName cfg)) (override (env "SMTP_TLS"%string) (smtp_TLS cfg)).

(** The server found answers, and no candidate before it does; none is found
    exactly when no candidate answers. *)
Lemma AutoDetectSMTP_first answers gw fqdn ip :
  match AutoDetectSMTP answers gw fqdn ip with
  | Some (host, port) =>
      answers host port = true /\ exists before after, smtpCandidates gw fqdn ip = before ++ host :: after /\
        forall h p, h ∈ before -> p ∈ smtp_ports -> answers h p = false
  | None => forall h p, h ∈ smtpCandidates gw fqdn ip -> p ∈ smtp_ports -> answers h p = false
  end.
Proof.
  unfold AutoDetectSMTP. induction (smtpCandidates gw fqdn ip) as [|host hosts IH].
  { cbn. by intros h p ?%not_elem_of_nil. }
  rewrite bind_cons. destruct (filter (fun port => answers host port = true) smtp_ports) as [|port ports] eqn:Ef.
  - assert (forall p, p ∈ smtp_ports -> answers host p = false) as Hno.
    { intros p Hp. apply not_true_is_false. intros Ha. assert (p ∈ @nil Z) as Hx; [|by apply not_elem_of_nil in Hx].
      rewrite <- Ef. by apply list_elem_of_filter. }
    cbn [fmap list_fmap app]. destruct (head _) as [[h p]|].
    + destruct IH as (Ha & before & after & -> & Hb). split; [done|]. exists (host :: before), after. split; [done|].
      intros h' p' [->|Hh]%elem_of_cons Hp; [by apply Hno|by apply Hb].
    + intros h p [->|Hh]%elem_of_cons Hp; [by apply Hno|by apply IH].
  - cbn [fmap list_fmap app head]. assert (port ∈ filter (fun port => answers host port = true) smtp_ports) as Hp by (rewrite Ef; set_solver).
    apply list_elem_of_filter in Hp as [Ha _]. split; [done|]. exists [], hosts. split; [done|]. by intros h p ?%not_elem_of_nil.
Qed.

(** ** Behaviour that differs from what the code says *)

(** A value that has a placeholder is substituted again or not, as the map
    happens to be walked. *)
Lemma render_order_matters :
  let t := mkTemplate [] [] (str "{error}") in
  let a := (str "error", str "at {time}") in
  let b := (str "time", str "noon") in
  (Render t [a; b]).2 = str "at noon" /\ (Render t [b; a]).2 = str "at {time}".
Proof. vm_compute. split; reflexivity. Qed.

(** A subject with a line break adds header lines to the message. *)
Lemma subject_adds_header from to boundary subject extra :
  message_headers (subject ++ crlf ++ extra) from to boundary =
  str "From: " ++ from ++ crlf ++ str "To: " ++ Join to (str ", ") ++ crlf ++ str "Subject: " ++ subject ++ crlf ++ extra ++ crlf ++
  str "MIME-Version: 1.0" ++ crlf ++ str "Content-Type: multipart/alternative; boundary=" ++ ["034"%char] ++ boundary ++ ["034"%char] ++
  crlf ++ crlf.
Proof. unfold message_headers. by rewrite <- !(assoc_L (++)). Qed.

Definition demo_smtp (mode : gostr) : SMTPConfig := mkSMTP true (str "mail.example.org") 587 [] [] (str "a@example.org") [] mode.
(** A failing QUIT after the message was delivered makes the send fail. *)
Lemma quit_failure_reported :
  SendDirect (H := ascii_tables) true (fun c => bool_decide (c = Quit)) (demo_smtp (str "starttls")) [str "b@example.org"] =
  ([(Dial, false); (Greet, false); (StartTLS, false); (Mail, true); (Rcpt (str "b@example.org"), true); (Data, true); (Quit, true)],
   Some (Failed Quit)).
Proof. vm_compute. reflexivity. Qed.
(** A mode that is none of the four is plain text, even with a server that offers
    the upgrade. *)
Lemma unknown_mode_is_plaintext :
  SendDirect (H := ascii_tables) true (fun _ => false) (demo_smtp (str "ssl")) [] =
  ([(Dial, false); (Greet, false); (Mail, false); (Data, false); (Quit, false)], None).
Proof. vm_compute. reflexivity. Qed.
