(* ===== verification/PidFile.v ===== *)
(** * The PID file: [paths/pid.go] and [paths/pid_unix.go]

    The file is a text or absent; which processes run, and which of them are this
    program, are arguments, as is the failure of each call.  A start checks the
    file and writes it in two steps, which the steps of other processes can come
    between.  The theorems: a PID file that was written is recognised as long as
    its process runs, a process removes only its own file, and instances whose
    starts do not overlap and which are recognised as this program exclude each
    other; when starts overlap they do not. *)
From stdpp Require Import base list gmap strings.
From Stdlib Require Import ZArith Lia.
From S2P Require Import Prelude GoStrings GoPath.
Local Open Scope Z_scope.
Local Open Scope go_scope.

(** ** Operations *)

Inductive pid_error := ReadFailed | RemoveFailed | AlreadyRunning (pid : Z) | DirFailed | WriteFailed.
(** Calls that fail; a write may leave a part of its text. *)
Record faults := mkFaults { f_read : bool; f_remove : bool; f_mkdir : bool; f_write : option nat }.
(** The result of signal 0: delivered, refused for lack of permission, or no such
    process. *)
Inductive signal := Delivered | NotPermitted | NoProcess.
Definition isProcessRunning (kill0 : Z -> signal) (pid : Z) : bool :=
  if pid <=? 0 then false else match kill0 pid with Delivered | NotPermitted => true | NoProcess => false end.
(** [filepath.Base] *)
Definition Base (p : gostr) : gostr :=
  if p =s [] then str "." else
  let trimmed := TrimRight p (str "/") in
  if trimmed =s [] then str "/" else List.last (split_on slash trimmed) [].
(** The executable link of a process, or what ps prints where there is none. *)
Definition isOurProcess (exe ps : Z -> option gostr) (pid : Z) : bool :=
  match exe pid with
  | Some exePath => Base exePath =s str "ipgaze"
  | None => match ps pid with Some output => Base (TrimSpace output) =s str "ipgaze" | None => false end
  end.

Section operations.
  Context (e : faults) (running ours : Z -> bool).

Definition removeStalePIDFile (file : option gostr) : option gostr * option pid_error :=
  match file with
  | None => (None, None)
  | Some _ => if f_remove e then (file, Some RemoveFailed) else (None, None)
  end.
Definition drop_stale (file : option gostr) : option gostr * result pid_error (bool * Z) :=
  let '(file, err) := removeStalePIDFile file in
  (file, match err with Some x => Err x | None => Ok (false, 0) end).
Definition CheckPIDFile (file : option gostr) : option gostr * result pid_error (bool * Z) :=
  match file with
  | None => (file, Ok (false, 0))
  | Some data =>
      if f_read e then (file, Err ReadFailed)
      else match ParseInt (TrimSpace data) with
           | None => drop_stale file
           | Some pid => if negb (running pid) then drop_stale file
                         else if negb (ours pid) then drop_stale file
                         else (file, Ok (true, pid))
           end
  end.
Definition pid_text (pid : Z) : gostr := Itoa pid ++ ["010"%char].
(** What follows the check: the directory and the text. *)
Definition store_pid (getpid : Z) (file : option gostr) : option gostr * option pid_error :=
  if f_mkdir e then (file, Some DirFailed)
  else match f_write e with
       | Some n => (Some (take n (pid_text getpid)), Some WriteFailed)
       | None => (Some (pid_text getpid), None)
       end.
Definition WritePIDFile (getpid : Z) (file : option gostr) : option gostr * option pid_error :=
  match CheckPIDFile file with
  | (file, Err x) => (file, Some x)
  | (file, Ok (true, existingPID)) => (file, Some (AlreadyRunning existingPID))
  | (file, Ok (false, _)) => store_pid getpid file
  end.
Definition RemovePIDFile (getpid : Z) (file : option gostr) : option gostr * option pid_error :=
  match file with
  | None => (None, None)
  | Some data =>
      if f_read e then (file, Some ReadFailed)
      else match ParseInt (TrimSpace data) with
           | Some pid => if negb (pid =? getpid) then (file, None)
                         else if f_remove e then (file, Some RemoveFailed) else (None, None)
           | None => (file, None)
           end
  end.
End operations.

(** The loop of [dirOf], on the reversed path. *)
Fixpoint dir_back (rev : gostr) : option gostr :=
  match rev with
  | [] => None
  | c :: rest => if bool_decide (c = "/"%char) || bool_decide (c = "\"%char) then Some (reverse rest) else dir_back rest
  end.
Definition dirOf (path : gostr) : gostr := default (str ".") (dir_back (reverse path)).

(** ** Reading back *)

Definition valid_pid (p : Z) : Prop := 0 < p <= MaxInt64.
Lemma pid_text_read p : valid_pid p -> ParseInt (TrimSpace (pid_text p)) = Some p.
Proof.
  intros [H1 H2]. unfold pid_text. rewrite TrimSpace_line; [by apply ParseInt_Itoa; lia| |].
  - intros E. assert (ParseInt (Itoa p) = Some p) as Hp by (apply ParseInt_Itoa; lia). by rewrite E in Hp.
  - apply digits_visible, Itoa_digits. lia.
Qed.

(** ** Instances *)

(** The file, the instances that hold it, and those that have checked it and not
    written it yet. *)
Record host := mkHost { pidfile : option gostr; holders : gset Z; pending : gset Z }.
(** What happens on a host.  A check meets the processes that run and those of them
    that are recognised as this program; every call may fail. *)
Inductive event :=
| Check (e : faults) (running ours : Z -> bool) (self : Z)
| Store (e : faults) (self : Z)
| Leave (e : faults) (self : Z)
| Crash (self : Z).
Definition happen (ev : event) (h : host) : host :=
  match ev with
  | Check e running ours self =>
      let '(file, res) := CheckPIDFile e running ours (pidfile h) in
      mkHost file (holders h) (match res with Ok (false, _) => pending h ∪ {[self]} | _ => pending h end)
  | Store e self =>
      let '(file, err) := store_pid e self (pidfile h) in
      mkHost file (match err with None => holders h ∪ {[self]} | Some _ => holders h end) (pending h ∖ {[self]})
  | Leave e self => mkHost (RemovePIDFile e self (pidfile h)).1 (holders h ∖ {[self]}) (pending h)
  | Crash self => mkHost (pidfile h) (holders h ∖ {[self]}) (pending h ∖ {[self]})
  end.
(** When it can happen: an instance checks, then writes, then leaves; instances run. *)
Definition possible (ev : event) (h : host) : Prop :=
  match ev with
  | Check _ running _ self => valid_pid self /\ self ∉ holders h /\ self ∉ pending h /\ forall p, p ∈ holders h -> running p = true
  | Store _ self => self ∈ pending h
  | Leave _ self => self ∈ holders h
  | Crash self => self ∈ holders h ∪ pending h
  end.
Definition host_step (h h' : host) : Prop := exists ev, possible ev h /\ h' = happen ev h.
(** The conditions under which the file excludes: no instance checks while another is
    between its check and its write, and instances are recognised as this program. *)
Definition orderly (ev : event) (h : host) : Prop :=
  match ev with Check _ _ ours _ => pending h = ∅ /\ forall p, p ∈ holders h -> ours p = true | _ => True end.
Definition orderly_step (h h' : host) : Prop := exists ev, possible ev h /\ orderly ev h /\ h' = happen ev h.

(** [WritePIDFile] is the check and, when it succeeds, the write. *)
Lemma WritePIDFile_events e running ours self h : self ∉ pending h ->
  let checked := happen (Check e running ours self) h in
  (WritePIDFile e running ours self (pidfile h)).1 =
  pidfile (if decide (self ∈ pending checked) then happen (Store e self) checked else checked).
Proof.
  intros Hn. cbn [happen]. unfold WritePIDFile. destruct (CheckPIDFile e running ours (pidfile h)) as [file [[[] q]|x]]; cbn [pending].
  - by rewrite decide_False.
  - rewrite decide_True by set_solver. cbn [happen pidfile]. by destruct (store_pid e self file).
  - by rewrite decide_False.
Qed.

(** Nobody holds the file or the one whose number it has does, and an instance that
    is about to write is the only one. *)
Definition exclusive (h : host) : Prop :=
  holders h = ∅ \/ exists p, valid_pid p /\ holders h = {[p]} /\ pidfile h = Some (pid_text p).
Definition host_inv (h : host) : Prop :=
  exclusive h /\ (pending h = ∅ \/ holders h = ∅ /\ exists p, valid_pid p /\ pending h = {[p]}).
Lemma exclusive_without h self : self ∈ holders h -> exclusive h -> holders h ∖ {[self]} = ∅.
Proof. intros Hin [Hx|(p & _ & Hx & _)]; rewrite Hx in *; [done|]. apply leibniz_equiv. set_solver. Qed.
(** A holder whose number the file has is found, or the file cannot be read. *)
Lemma check_finds e running ours p : valid_pid p -> running p = true -> ours p = true ->
  exists res, CheckPIDFile e running ours (Some (pid_text p)) = (Some (pid_text p), res) /\ (res = Err ReadFailed \/ res = Ok (true, p)).
Proof.
  intros Hp Hr Ho. unfold CheckPIDFile. destruct (f_read e); [eauto|]. rewrite pid_text_read, Hr, Ho by done. eauto.
Qed.
Lemma check_inv e running ours self h : possible (Check e running ours self) h -> orderly (Check e running ours self) h ->
  host_inv h -> host_inv (happen (Check e running ours self) h).
Proof.
  intros (Hv & _ & _ & Hrun) [Hpend Hours] [Hx _]. cbn [happen]. destruct Hx as [Hempty|(p & Hp & Hhold & Hfile)].
  - destruct (CheckPIDFile _ _ _ _) as [file res]. split; cbn [holders pending]; [by left|].
    destruct res as [[[] q]|]; try (by left). right. split; [done|]. exists self. rewrite Hpend. split; [done|apply (left_id_L ∅ (∪))].
  - assert (p ∈ holders h) as Hin by (rewrite Hhold; set_solver).
    destruct (check_finds e running ours p Hp (Hrun p Hin) (Hours p Hin)) as (res & Hc & Hres). rewrite Hfile, Hc.
    split; [right; by exists p|left]. by destruct Hres as [-> | ->].
Qed.
Lemma store_inv e self h : self ∈ pending h -> host_inv h -> host_inv (happen (Store e self) h).
Proof.
  intros Hin [Hx [Hnone|(Hempty & p & Hp & Hpend)]]; [rewrite Hnone in Hin; set_solver|].
  assert (self = p) as -> by (rewrite Hpend in Hin; set_solver). cbn [happen].
  assert (pending h ∖ {[p]} = ∅) as Hnone by (rewrite Hpend; apply leibniz_equiv; set_solver).
  unfold store_pid. destruct (f_mkdir e); [split; cbn; [by left|by left]|]. destruct (f_write e); (split; cbn; [|by left]); [by left|].
  right. exists p. rewrite Hempty. split_and!; [done|apply (left_id_L ∅ (∪))|done].
Qed.
Lemma step_inv h h' : orderly_step h h' -> host_inv h -> host_inv h'.
Proof.
  intros (ev & Hp & Ho & ->) Hi. destruct ev as [e running ours self|e self|e self|self].
  - by apply check_inv.
  - by apply store_inv.
  - destruct Hi as [Hx Hpend]. cbn in Hp. split; [left; by apply exclusive_without|]. cbn.
    destruct Hpend as [Hn|(He & _)]; [by left|]. rewrite He in Hp. set_solver.
  - destruct Hi as [Hx Hpend]. cbn in Hp. destruct (decide (self ∈ holders h)) as [Hin|Hout].
    + destruct Hpend as [Hn|(He & _)]; [|rewrite He in Hin; set_solver]. split; [left; by apply exclusive_without|left]. cbn. rewrite Hn. apply leibniz_equiv. set_solver.
    + destruct Hpend as [Hn|(He & p & Hv & Hpd)]; [rewrite Hn in Hp; set_solver|]. assert (self = p) as -> by (rewrite Hpd in Hp; set_solver).
      split; [left|left]; cbn; [rewrite He|rewrite Hpd]; apply leibniz_equiv; set_solver.
Qed.
(** C21. When no start overlaps the check and the write of another, and running
    instances are recognised as this program, then through any sequence of starts,
    exits and crashes, with any failures of the file system and any other processes, at
    most one instance holds the PID file, and while one does the file has its number.
    Without the first condition two instances can start ([both_instances_start]). *)
Theorem single_instance h : rtc orderly_step (mkHost None ∅ ∅) h -> exclusive h.
Proof.
  intros Hr. assert (host_inv (mkHost None ∅ ∅)) as H0 by (split; by left). revert H0.
  induction Hr as [|h1 h2 h3 H12 _ IH]; [by intros [? _]|]. intros H1. by apply IH, (step_inv h1).
Qed.

Definition no_faults : faults := mkFaults false false false None.
Definition everyone : Z -> bool := fun _ => true.
(** Seven checks and writes, then eight checks. *)
Definition two_starts : host :=
  happen (Check no_faults everyone everyone 8) (happen (Store no_faults 7) (happen (Check no_faults everyone everyone 7) (mkHost None ∅ ∅))).
Lemma single_instance_witness : holders two_starts = {[7]} /\ exclusive two_starts.
Proof.
  split; [vm_compute; reflexivity|]. apply single_instance.
  eapply rtc_l; [exists (Check no_faults everyone everyone 7); repeat split; [done|set_solver|set_solver]|].
  eapply rtc_l; [exists (Store no_faults 7); repeat split; vm_compute; set_solver|].
  eapply rtc_l; [|apply rtc_refl]. exists (Check no_faults everyone everyone 8).
  repeat split; try done; first [by apply (bool_decide_eq_true_1 _) | vm_compute; reflexivity].
Defined.

(** Checking and writing are two calls: when two processes check before either
    writes, both start. *)
Lemma both_instances_start : exists h, rtc host_step (mkHost None ∅ ∅) h /\ holders h = {[7; 8]}.
Proof.
  eexists. split.
  - eapply rtc_l; [exists (Check no_faults everyone everyone 7); repeat split; [done|set_solver|set_solver]|].
    eapply rtc_l; [exists (Check no_faults everyone everyone 8); repeat split; [done|by apply (bool_decide_eq_true_1 _)..]|].
    eapply rtc_l; [exists (Store no_faults 7); split; [cbn [possible]; by apply (bool_decide_eq_true_1 _)|reflexivity]|].
    eapply rtc_l; [exists (Store no_faults 8); split; [cbn [possible]; by apply (bool_decide_eq_true_1 _)|reflexivity]|]. apply rtc_refl.
  - vm_compute. reflexivity.
Qed.
(** A program that was replaced while it runs is not recognised: the kernel appends a
    mark to the link of its executable. *)
Lemma replaced_program_not_recognised ps p :
  isOurProcess (fun _ => Some (str "/usr/bin/ipgaze (deleted)")) ps p = false /\ isOurProcess (fun _ => Some (str "/usr/bin/ipgaze")) ps p = true.
Proof. by vm_compute. Qed.

(** A process that leaves removes the file only when it has its own number. *)
Lemma RemovePIDFile_own e self q : valid_pid q -> q <> self -> (RemovePIDFile e self (Some (pid_text q))).1 = Some (pid_text q).
Proof.
  intros Hq Hne. unfold RemovePIDFile. destruct (f_read e); [done|]. rewrite pid_text_read by done.
  by rewrite (proj2 (Z.eqb_neq q self)).
Qed.

(** A file left behind by a crash that has the number of the starting process
    itself, as in a container, makes it refuse to start. *)
Lemma own_number_refused running ours p : valid_pid p -> running p = true -> ours p = true ->
  WritePIDFile no_faults running ours p (Some (pid_text p)) = (Some (pid_text p), Some (AlreadyRunning p)).
Proof. intros Hp Hr Ho. unfold WritePIDFile, CheckPIDFile. cbn [f_read no_faults]. by rewrite pid_text_read, Hr, Ho by done. Qed.
