(* ===== verification/Endpoints.v ===== *)
(** * The lookup endpoints: [server/http.go] and [graphql/resolvers.go]

    The handlers that answer about an address: [/], [/{ip}], [/{ip}/json],
    [/{ip}/{field}], the plain-text and the [/api/v1] routes, the port check, and the
    GraphQL resolvers that share [LookupIP], [RequestIP] and [CheckPort] with them.  A
    handler threads the server's lookup state (the response cache and the service that is
    created on first use) and returns what it wrote and its error; JSON documents are
    kept as the fields that are marshalled.  What the network tells (whether a port can
    be reached) and the page template are functions of the server. *)
From stdpp Require Import base list gmap strings sorting.
From Stdlib Require Import ZArith Lia SpecFloat.
From S2P Require Import Prelude GoStrings GoTime GoNet IpText GoUrl Http Netutil I18n AccessControl LruCache Negotiate PidFile Geo.
Local Open Scope Z_scope.
Local Open Scope go_scope.

(** ** Query strings as pairs *)

(** The pairs of a query string, as [URL.Query] reads them. *)
Definition query_part (part : gostr) : option (gostr * gostr) :=
  if GoStrings.Contains part (str ";") then None else if part =s [] then None
  else let '(key, value, _) := Cut part "=" in
       match unescape encodeQueryComponent key, unescape encodeQueryComponent value with Some k, Some x => Some (k, x) | _, _ => None end.
Definition query_pairs (raw : gostr) : list (gostr * gostr) := omap query_part (Split raw (str "&")).
(** [r.URL.RawQuery = raw] *)
Definition set_RawQuery (r : request) (raw : gostr) : request :=
  {| r_Method := r_Method r; r_Host := r_Host r; r_URL_Host := r_URL_Host r; r_URL_Path := r_URL_Path r; r_URL_RawPath := r_URL_RawPath r;
     r_Header := r_Header r; r_Cookies := r_Cookies r; r_Query := query_pairs raw; r_Form := r_Form r; r_RemoteAddr := r_RemoteAddr r; r_TLS := r_TLS r;
     r_ContentLength := r_ContentLength r; r_ctx := r_ctx r |}.

(** ** Documents *)

Inductive jdoc := DNull | DBool (b : bool) | DString (s : gostr) | DNumber (n : Z) | DFloat (f : spec_float) | DObject (fields : list (gostr * gostr)).
Definition document : Type := list (gostr * jdoc).
Definition omit_string (name : string) (s : gostr) : document := if s =s [] then [] else [(str name, DString s)].
Definition omit_bool (name : string) (b : option bool) : document := match b with Some v => [(str name, DBool v)] | None => [] end.
Definition omit_float (name : string) (f : spec_float) : document := if is_zero f then [] else [(str name, DFloat f)].
Definition ua_field (name : string) (s : gostr) : list (gostr * gostr) := if s =s [] then [] else [(str name, s)].
Definition ua_doc (ua : UserAgent) : jdoc :=
  DObject (ua_field "product" (Product ua) ++ ua_field "version" (Version ua) ++ ua_field "comment" (Comment ua) ++ ua_field "raw_value" (RawValue ua)).
(** [IP.MarshalText] *)
Definition marshal_ip (ip : IP) : option gostr :=
  if bool_decide (ip = []) then Some [] else if Nat.eqb (length ip) 4 || Nat.eqb (length ip) 16 then Some (IP_String ip) else None.
Definition finite (f : spec_float) : bool := match f with S754_nan | S754_infinity _ => false | _ => true end.
Abbreviation response_t := (IPLookupResponse lookup_fields).
(** [json.MarshalIndent] of a lookup response: nothing for an address of the wrong length or
    a coordinate that is not a number. *)
Definition marshal (resp : response_t) : option document :=
  let f := resp_fields resp in
  match marshal_ip (resp_IP resp) with
  | None => None
  | Some ip =>
      if finite (Latitude f) && finite (Longitude f) then
        Some ([(str "ip", DString ip); (str "ip_decimal", match IPDecimal f with Some n => DNumber n | None => DNull end)] ++
          omit_string "country" (Country_ f) ++ omit_string "country_iso" (CountryISO f) ++ omit_bool "country_eu" (CountryEU f) ++
          omit_string "region_name" (RegionName f) ++ omit_string "region_code" (RegionCode f) ++
          (if MetroCode f =? 0 then [] else [(str "metro_code", DNumber (MetroCode f))]) ++ omit_string "zip_code" (PostalCode f) ++
          omit_string "city" (City_ f) ++ omit_float "latitude" (Latitude f) ++ omit_float "longitude" (Longitude f) ++
          omit_string "time_zone" (Timezone f) ++ omit_string "asn" (ASN_ f) ++ omit_string "asn_org" (ASNOrg f) ++ omit_string "hostname" (Hostname f) ++
          match UserAgent_ f with Some ua => [(str "user_agent", ua_doc ua)] | None => [] end ++
          omit_bool "is_vpn" (IsVPN f) ++ omit_bool "is_proxy" (IsProxy f) ++ omit_bool "is_tor" (IsTor f) ++
          omit_bool "is_tor_hidden_service" (IsTorHiddenService f))
      else None
  end.

(** ** The server *)

Inductive output := Eff (e : effect) | WriteDoc (d : document).
(** What the landing page is rendered from, beside the page data every page has. *)
Record landing (page_data : Type) := mkLanding { l_page : page_data; l_response : response_t; BoxLatTop : spec_float; BoxLatBottom : spec_float;
  BoxLonLeft : spec_float; BoxLonRight : spec_float; l_JSON : document; l_Port : bool; l_HostIPv4 : gostr; l_HostIPv6 : gostr; Sponsor : bool; LogoURL : gostr }.
Arguments mkLanding {_}.
Inductive template (page_data : Type) := CloneFails | ParseFails | Template (render : landing page_data -> option gostr).
Arguments CloneFails {_}. Arguments ParseFails {_}. Arguments Template {_}.
Record Server (page_data : Type) := {
  IPHeaders : list gostr; trust : option TrustResolver; (* the trusted proxies and the onion address of the settings *) config : option (list gostr * gostr);
  LookupHost : resolver; gr : geoip; LookupAddr_ : option (IP -> gostr * bool); threatLookup : option Threat.Lookup;
  LookupPort : option (IP -> Z -> bool); HostIPv4 : gostr; HostIPv6 : gostr; Version_ : gostr; CommitID : gostr;
  index : template page_data; PagesHandler : option (request -> page_data);
  (* the themed error page and the error log of appHandler.ServeHTTP *) errorPage : appError -> gostr -> option gostr; errorLog : bool;
  translations : I18NManager; (* the reason SplitHostPort gives *) addr_reason : gostr -> gostr }.
Arguments IPHeaders {_}. Arguments trust {_}. Arguments config {_}. Arguments LookupHost {_}. Arguments gr {_}. Arguments LookupAddr_ {_}. Arguments threatLookup {_}.
Arguments LookupPort {_}. Arguments HostIPv4 {_}. Arguments HostIPv6 {_}. Arguments Version_ {_}. Arguments CommitID {_}. Arguments index {_}. Arguments PagesHandler {_}.
Arguments errorPage {_}. Arguments errorLog {_}. Arguments translations {_}. Arguments addr_reason {_}.
(** [ipService] is whether the service was created.  It holds references to the reader,
    the resolver and the threat lists, so a lookup reads what these contain at that time:
    a value of [Server] is the server at one moment. *)
Record lookup_state := mkState { cache : Cache lookup_fields; ipService : bool }.

Section Handlers.
Context `{UnicodeTables} {page_data : Type} (s : Server page_data).
Definition appHandler : Type := request -> lookup_state -> list output * option appError * lookup_state.
Definition httpHandler : Type := request -> lookup_state -> list output * lookup_state.

Definition AssetStamp : gostr := Version_ s ++ str "-" ++ CommitID s.
Definition getTrust : TrustResolver :=
  match trust s with
  | Some t => t
  | None =>
      match config s with
      | None => NewTrustResolver (LookupHost s) [] []
      | Some (proxies, onion) =>
          let tr := NewTrustResolver (LookupHost s) proxies [] in
          {| listenCIDR := listenCIDR tr; additional := additional tr; dnsCache := dnsCache tr; OnionAddress := onion; I2PAddress := I2PAddress tr |}
      end
  end.
Definition badRequest (error : gostr) : appError := {| Error := error; Message := []; Code := 400; ErrorCode := []; ContentType := [] |}.
Definition internalServerError (error : gostr) : appError := {| Error := error; Message := []; Code := 500; ErrorCode := []; ContentType := [] |}.
Definition WithMessage (message : gostr) (e : appError) : appError :=
  {| Error := Error e; Message := message; Code := Code e; ErrorCode := ErrorCode e; ContentType := ContentType e |}.
Definition tr_message (r : request) (key : string) : gostr := T (translations s) (r_ctx r) (str key).
Definition bad_json (r : request) (error : gostr) : appError := AsJSON (WithMessage (tr_message r "errors.bad_request") (badRequest error)).
Definition ip_error_text (e : ip_error) : gostr :=
  match e with CouldNotParse text => str "could not parse IP: " ++ text | AddrError addr => str "address " ++ addr ++ str ": " ++ addr_reason s addr end.

Definition NewIPLookupService : IPLookupService := {| reader := gr s; lookupAddr := LookupAddr_ s; threat := threatLookup s |}.
Definition ensureIPService (st : lookup_state) : lookup_state * IPLookupService :=
  if ipService st then (st, NewIPLookupService) else (mkState (cache st) true, NewIPLookupService).
Definition Server_LookupIP (ip : IP) (st : lookup_state) : response_t * lookup_state :=
  let '(st, svc) := ensureIPService st in
  let '(resp, c) := LookupIP svc ip (cache st) in (resp, mkState c (ipService st)).
Definition RequestIP (r : request) (allowOverride : bool) : result ip_error IP :=
  ipFromRequest (IPHeaders s) r allowOverride (IsTrustedPeer (Some getTrust) r).
(** The connections that are opened, and the answer. *)
Definition CheckPort (ip : IP) (port : Z) : list (IP * Z) * result gostr bool :=
  match LookupPort s with
  | None => ([], Err (str "port lookups are not enabled"))
  | Some dial => ([(ip, port)], Ok (dial ip port))
  end.
Definition with_visit (f : lookup_fields) (ua : option UserAgent) (tor : bool) : lookup_fields :=
  mkFields (IPDecimal f) (Country_ f) (CountryISO f) (CountryEU f) (RegionName f) (RegionCode f) (MetroCode f) (PostalCode f) (City_ f) (Latitude f)
    (Longitude f) (Timezone f) (ASN_ f) (ASNOrg f) (Hostname f) ua (IsVPN f) (IsProxy f) (IsTor f) (if tor then Some true else IsTorHiddenService f).
Definition newResponse (r : request) (st : lookup_state) : result gostr response_t * lookup_state :=
  match RequestIP r true with
  | Err e => (Err (ip_error_text e), st)
  | Ok ip =>
      let '(response, st) := Server_LookupIP ip st in
      (Ok {| resp_IP := resp_IP response; resp_fields := with_visit (resp_fields response) (userAgentFromRequest r) (IsTorRequest r (Some getTrust)) |}, st)
  end.
Record PortResponse := { pr_IP : IP; pr_Port : Z; pr_Reachable : bool }.
(** [strconv.ParseUint(s, 10, 16)] *)
Definition ParseUint16 (text : gostr) : option Z :=
  match parse_digits text with Some n => if n <? 65536 then Some n else None | None => None end.
Definition newPortResponse (r : request) : list (IP * Z) * result gostr PortResponse :=
  let lastElement := Base (r_URL_Path r) in
  match ParseUint16 lastElement with
  | None => ([], Err (str "invalid port: " ++ lastElement))
  | Some port =>
      if (port <? 1) || (65535 <? port) then ([], Err (str "invalid port: " ++ lastElement))
      else match RequestIP r false with
           | Err e => ([], Err (ip_error_text e))
           | Ok ip =>
               let '(dials, res) := CheckPort ip port in
               (dials, match res with Err e => Err e | Ok reachable => Ok {| pr_IP := ip; pr_Port := port; pr_Reachable := reachable |} end)
           end
  end.

(** ** Plain text *)

Definition newline : ascii := "010"%char.
Definition println (text : gostr) : output := Eff (WriteBody (text ++ [newline])).
Definition CLIHandler : appHandler := fun r st =>
  match RequestIP r true with
  | Err e => ([], Some (bad_json r (ip_error_text e)), st)
  | Ok ip => ([println (IP_String ip)], None, st)
  end.
(** The handlers that print one value of the response. *)
Definition print_field (field : lookup_fields -> gostr) : appHandler := fun r st =>
  match newResponse r st with
  | (Err e, st) => ([], Some (bad_json r e), st)
  | (Ok response, st) => ([println (field (resp_fields response))], None, st)
  end.
Definition coordinates (f : lookup_fields) : gostr := formatCoordinatePair (Latitude f) (Longitude f).
Definition CLICountryHandler : appHandler := print_field Country_.
Definition CLICountryISOHandler : appHandler := print_field CountryISO.
Definition CLICityHandler : appHandler := print_field City_.
Definition CLICoordinatesHandler : appHandler := print_field coordinates.
Definition CLIASNHandler : appHandler := print_field ASN_.
Definition CLIASNOrgHandler : appHandler := print_field ASNOrg.

(** ** JSON *)

Definition unsupported : gostr := str "json: unsupported value".
Definition write_doc (d : option document) : list output * option appError :=
  match d with
  | None => ([], Some (AsJSON (internalServerError unsupported)))
  | Some d => ([Eff (SetHeader (str "Content-Type") jsonMediaType); WriteDoc d; Eff (WriteBody [newline])], None)
  end.
Definition JSONHandler : appHandler := fun r st =>
  match newResponse r st with
  | (Err e, st) => ([], Some (bad_json r e), st)
  | (Ok response, st) => (write_doc (marshal response), st)
  end.
Definition marshal_port (p : PortResponse) : option document :=
  (fun ip => [(str "ip", DString ip); (str "port", DNumber (pr_Port p)); (str "reachable", DBool (pr_Reachable p))]) <$> marshal_ip (pr_IP p).
Definition PortHandler : appHandler := fun r st =>
  match (newPortResponse r).2 with
  | Err e => ([], Some (bad_json r e), st)
  | Ok response => (write_doc (marshal_port response), st)
  end.

(** ** The page *)

Definition box : spec_float := S754_finite false 7205759403792794 (-57).
Definition f64_add : spec_float -> spec_float -> spec_float := SFadd 53 1024.
Definition f64_sub : spec_float -> spec_float -> spec_float := SFsub 53 1024.
Definition landing_of (pd : page_data) (response : response_t) (doc : document) : landing page_data :=
  let f := resp_fields response in
  mkLanding pd response (f64_add (Latitude f) box) (f64_sub (Latitude f) box) (f64_sub (Longitude f) box) (f64_add (Longitude f) box) doc
    (bool_decide (is_Some (LookupPort s))) (HostIPv4 s) (HostIPv6 s) true (str "/branding/logo").
Definition page_headers (r : request) : list output :=
  Eff <$> [SetHeader (str "Content-Type") (str "text/html; charset=utf-8"); SetHeader (str "Cache-Control") (str "no-store");
           SetHeader (str "ETag") (dquote ++ AssetStamp ++ dquote)] ++ applyVersionPurge r AssetStamp.
Definition DefaultHandler : appHandler := fun r st =>
  match newResponse r st with
  | (Err e, st) => ([], Some (WithMessage (tr_message r "errors.bad_request") (badRequest e)), st)
  | (Ok response, st) =>
      match index s, marshal response, PagesHandler s with
      | Template render, Some doc, Some NewPageData =>
          match render (landing_of (NewPageData r) response doc) with
          | Some body => (page_headers r ++ [Eff (WriteBody body)], None, st)
          | None => (page_headers r, Some (internalServerError (str "template")), st)
          end
      | CloneFails, _, _ => ([], Some (internalServerError (str "clone")), st)
      | ParseFails, _, _ => ([], Some (internalServerError (str "parse")), st)
      | Template _, None, _ => ([], Some (internalServerError unsupported), st)
      | Template _, Some _, None => ([], Some (internalServerError (str "pages handler not initialized")), st)
      end
  end.
Definition by_client (r : request) : appHandler :=
  let t := detectClientType r in if t =s str "json" then JSONHandler else if t =s str "text" then CLIHandler else DefaultHandler.
Definition ipLookupNegotiated (ip : IP) : appHandler := fun r st =>
  let r := set_RawQuery r (Encode (Values_Set (str "ip") (IP_String ip) (Values_of (r_Query r)))) in by_client r r st.

(** ** Addresses in the path *)

Definition path_head (path : gostr) : gostr * gostr := (Cut (TrimPrefix path (str "/")) "/").1.
Definition IPLookupHandler : appHandler := fun r st =>
  match ParseIP (Trim (path_head (r_URL_Path r)).1 (str "[]")) with
  | None => ([], Some (bad_json r (str "invalid IP address")), st)
  | Some ip => let '(response, st) := Server_LookupIP ip st in (write_doc (marshal response), st)
  end.
Definition APIV1IPLookupHandler : appHandler := fun r st =>
  match ParseIP (Trim (TrimPrefix (r_URL_Path r) (str "/api/v1/ip/")) (str "[]")) with
  | None => ([], Some (bad_json r (str "invalid IP address")), st)
  | Some ip => JSONHandler (set_RawQuery r (str "ip=" ++ IP_String ip)) st
  end.
(** The value of a field of [/{ip}/{field}]; nothing for an unknown field. *)
Definition field_value (response : response_t) (field : gostr) : option gostr :=
  let f := resp_fields response in
  if field =s str "ip" then Some (IP_String (resp_IP response)) else
  if field =s str "ip_decimal" then Some (match IPDecimal f with Some n => Itoa n | None => [] end) else
  if field =s str "country" then Some (Country_ f) else if field =s str "country_iso" then Some (CountryISO f) else
  if field =s str "region_name" then Some (RegionName f) else if field =s str "region_code" then Some (RegionCode f) else
  if field =s str "city" then Some (City_ f) else if field =s str "zip_code" then Some (PostalCode f) else
  if field =s str "time_zone" then Some (Timezone f) else if field =s str "asn" then Some (ASN_ f) else
  if field =s str "asn_org" then Some (ASNOrg f) else if field =s str "hostname" then Some (Hostname f) else
  if field =s str "latitude" then Some (formatCoordinate (Latitude f)) else if field =s str "longitude" then Some (formatCoordinate (Longitude f)) else None.
Definition not_found_json (r : request) (error : gostr) : appError := AsJSON (WithMessage (tr_message r "errors.not_found") (badRequest error)).
Definition ipLookupFieldHandler (ip : IP) (field : gostr) : appHandler := fun r st =>
  let '(response, st) := Server_LookupIP ip st in
  match field_value response field with
  | None => ([], Some (not_found_json r (str "unknown field: " ++ field)), st)
  | Some val =>
      if val =s [] then ([], Some (not_found_json r (str "field " ++ field ++ str " not available for IP " ++ IP_String ip)), st)
      else ([println val], None, st)
  end.

(** ** The API *)

Definition writeAPIScalar (r : request) (field : string) (value : gostr) : list output * option appError :=
  if apiResponseFormat r =s str "text" then ([Eff (SetHeader (str "Content-Type") (str "text/plain; charset=utf-8")); println value], None)
  else write_doc (Some [(str field, DString value)]).
Definition api_field (name : string) (field : lookup_fields -> gostr) : appHandler := fun r st =>
  match newResponse r st with
  | (Err e, st) => ([], Some (bad_json r e), st)
  | (Ok response, st) => (writeAPIScalar r name (field (resp_fields response)), st)
  end.
Definition APIV1InfoHandler : appHandler := JSONHandler.
Definition APIV1IPHandler : appHandler := CLIHandler.
Definition APIV1CountryHandler : appHandler := api_field "country" Country_.
Definition APIV1CityHandler : appHandler := api_field "city" City_.
Definition APIV1ASNHandler : appHandler := api_field "asn" ASN_.
Definition APIV1CountryISOHandler : appHandler := api_field "country_iso" CountryISO.
Definition APIV1CoordinatesHandler : appHandler := api_field "coordinates" coordinates.
Definition APIV1ASNOrgHandler : appHandler := api_field "asn_org" ASNOrg.

(** ** Routing *)

Definition appHandlerToHTTP (h : appHandler) : httpHandler := fun r st =>
  let '(out, err, st) := h r st in
  (out ++ match err with Some e => Eff <$> ServeHTTP (translations s) (errorPage s) AssetStamp (errorLog s) r e | None => [] end, st).
Definition rootHandler : httpHandler := fun r => appHandlerToHTTP (by_client r) r.
Definition not_found : httpHandler := appHandlerToHTTP (fun r st => ([], Some (NotFoundHandler r), st)).
Definition ipLookupOrNotFound : httpHandler := fun r st =>
  if r_Method r <>s str "GET" then not_found r st
  else if TrimPrefix (r_URL_Path r) (str "/") =s [] then not_found r st
  else
    let '(ipPart, suffix) := path_head (r_URL_Path r) in
    if negb (GoStrings.Contains ipPart (str ".")) && negb (GoStrings.Contains ipPart (str ":")) then not_found r st
    else match ParseIP (Trim ipPart (str "[]")) with
         | None => not_found r st
         | Some ip =>
             if suffix =s str "json" then appHandlerToHTTP IPLookupHandler r st
             else if suffix =s [] then appHandlerToHTTP (ipLookupNegotiated ip) r st
             else appHandlerToHTTP (ipLookupFieldHandler ip suffix) r st
         end.

(** ** GraphQL *)

Inductive gvalue := GNull | GBool (b : bool) | GString (t : gostr) | GInt (n : Z) | GFloat (f : spec_float) | GMap (m : list (gostr * gostr)).
Definition boolPtrToInterface (b : option bool) : gvalue := match b with None => GNull | Some v => GBool v end.
Definition userAgentToMap (ua : UserAgent) : gvalue :=
  GMap [(str "product", Product ua); (str "version", Version ua); (str "rawValue", RawValue ua)].
Definition ipResponseToMap (resp : response_t) (ua : option UserAgent) : list (gostr * gvalue) :=
  let f := resp_fields resp in
  [(str "ip", GString (IP_String (resp_IP resp))); (str "ipDecimal", GString (match IPDecimal f with Some n => Itoa n | None => str "0" end));
   (str "country", GString (Country_ f)); (str "countryIso", GString (CountryISO f)); (str "countryEu", GBool (default false (CountryEU f)));
   (str "regionName", GString (RegionName f)); (str "regionCode", GString (RegionCode f)); (str "metroCode", GInt (MetroCode f));
   (str "zipCode", GString (PostalCode f)); (str "city", GString (City_ f)); (str "latitude", GFloat (Latitude f)); (str "longitude", GFloat (Longitude f));
   (str "timezone", GString (Timezone f)); (str "asn", GString (ASN_ f)); (str "asnOrg", GString (ASNOrg f)); (str "hostname", GString (Hostname f));
   (str "isVpn", boolPtrToInterface (IsVPN f)); (str "isProxy", boolPtrToInterface (IsProxy f)); (str "isTor", boolPtrToInterface (IsTor f))] ++
  match ua with
  | Some ua => [(str "userAgent", userAgentToMap ua)]
  | None => match UserAgent_ f with Some ua => [(str "userAgent", userAgentToMap ua)] | None => [] end
  end.
(** The resolvers with the dependencies [main] wires; the request is the one that carried
    the query. *)
Definition resolveMyIP (r : request) (st : lookup_state) : result gostr (list (gostr * gvalue)) * lookup_state :=
  match RequestIP r true with
  | Err e => (Err (ip_error_text e), st)
  | Ok ip => let '(resp, st) := Server_LookupIP ip st in (Ok (ipResponseToMap resp (userAgentFromRequest r)), st)
  end.
Definition resolveLookupIP (ipArg : gostr) (quoted : gostr -> gostr) (st : lookup_state) : result gostr (list (gostr * gvalue)) * lookup_state :=
  match ParseIP ipArg with
  | None => (Err (str "invalid IP address: " ++ quoted ipArg), st)
  | Some ip => let '(resp, st) := Server_LookupIP ip st in (Ok (ipResponseToMap resp None), st)
  end.
Definition resolveCheckPort (r : request) (port : Z) : list (IP * Z) * result gostr (list (gostr * gvalue)) :=
  if (port <? 1) || (65535 <? port) then ([], Err (str "invalid port: " ++ Itoa port))
  else match RequestIP r false with
       | Err e => ([], Err (ip_error_text e))
       | Ok ip =>
           let '(dials, res) := CheckPort ip port in
           (dials, match res with
                   | Err e => Err e
                   | Ok reachable => Ok [(str "ip", GString (IP_String ip)); (str "port", GInt port); (str "reachable", GBool reachable)]
                   end)
       end.
End Handlers.

(** ** Query strings read back *)

Lemma query_pairs_fold parts v ok : (fold_left query_pair parts (v, ok)).1 = fold_left (fun v kv => Values_add kv.1 kv.2 v) (omap query_part parts) v.
Proof.
  revert v ok. induction parts as [|p parts IH]; intros v ok; [done|]. cbn [fold_left omap list_omap]. unfold query_part at 1, query_pair at 2.
  destruct (GoStrings.Contains p (str ";")); [apply IH|]. destruct (p =s []); [apply IH|]. destruct (Cut p "=") as [[k x] ?].
  destruct (unescape _ k); [|apply IH]. destruct (unescape _ x); apply IH.
Qed.
(** The pairs are those [ParseQuery] collects. *)
Lemma query_pairs_ParseQuery raw : Values_of (query_pairs raw) = (ParseQuery raw).1.
Proof. unfold ParseQuery. by rewrite query_pairs_fold. Qed.

Definition encoded_pairs (v : Values) : list (gostr * gostr) :=
  merge_sort str_le (fst <$> map_to_list v) ≫= fun k => (fun x => (k, x)) <$> default [] (v !! k).
Definition escaped_pair (kv : gostr * gostr) : gostr := QueryEscape kv.1 ++ str "=" ++ QueryEscape kv.2.
Lemma escaped_absent c kv : component_byte c = false -> c <> "="%char -> c ∉ escaped_pair kv.
Proof.
  intros Hc Hd. unfold escaped_pair. assert (forall t, c ∉ QueryEscape t) as Ht.
  { intros t Hin. pose proof (QueryEscape_bytes t) as Hb. rewrite forallb_forall in Hb. apply list_elem_of_In, Hb in Hin. congruence. }
  rewrite !not_elem_of_app. split_and!; [apply Ht| |apply Ht]. change (str "=") with ["="%char]. by rewrite list_elem_of_singleton.
Qed.
Lemma query_part_escaped kv : query_part (escaped_pair kv) = Some kv.
Proof.
  unfold query_part. replace (GoStrings.Contains (escaped_pair kv) (str ";")) with false.
  2: { symmetry. apply Contains_false. intros a b E. apply (escaped_absent ";"%char kv); [done..|]. rewrite E. set_solver. }
  rewrite bool_decide_eq_false_2 by (unfold escaped_pair; by destruct (QueryEscape kv.1)).
  unfold escaped_pair. change (str "=" ++ QueryEscape kv.2) with ("="%char :: QueryEscape kv.2). rewrite Cut_found.
  - unfold QueryEscape. rewrite !unescape_escape. by destruct kv.
  - intros Hin. pose proof (QueryEscape_bytes kv.1) as Hb. rewrite forallb_forall in Hb. by apply list_elem_of_In, Hb in Hin.
Qed.
Lemma omap_escaped (kvs : list (gostr * gostr)) : omap query_part (escaped_pair <$> kvs) = kvs.
Proof. induction kvs as [|kv kvs IH]; [done|]. cbn [fmap list_fmap omap list_omap]. rewrite query_part_escaped. f_equal. exact IH. Qed.
(** What [Encode] writes is read back, in its order. *)
Lemma query_pairs_Encode v : query_pairs (Encode v) = encoded_pairs v.
Proof.
  unfold query_pairs, Encode. change (str "&") with ["&"%char]. set (keys := merge_sort _ _).
  assert ((keys ≫= (fun k => (fun x => QueryEscape k ++ str "=" ++ QueryEscape x) <$> default [] (v !! k))) = escaped_pair <$> encoded_pairs v) as ->.
  { unfold encoded_pairs. fold keys. induction keys as [|k ks IH]; [done|]. cbn [mbind list_bind]. rewrite fmap_app, IH, <- list_fmap_compose. done. }
  rewrite Split_one. destruct (encoded_pairs v) as [|kv kvs] eqn:E; [done|]. rewrite <- E. rewrite split_on_Join; [apply omap_escaped|by rewrite E|].
  apply Forall_fmap, Forall_forall. intros kv' _. by apply escaped_absent.
Qed.
Lemma assoc_encoded (k : gostr) (keys : list gostr) (v : Values) (x : gostr) (xs : list gostr) : v !! k = Some (x :: xs) -> k ∈ keys -> assoc k (keys ≫= fun k => (fun x => (k, x)) <$> default [] (v !! k)) = Some x.
Proof.
  intros Hv. induction keys as [|k' ks IH]; intros Hin; [by apply not_elem_of_nil in Hin|]. cbn [mbind list_bind]. destruct (decide (k = k')) as [<-|Hne].
  - rewrite Hv. cbn. by rewrite bool_decide_eq_true_2.
  - apply elem_of_cons in Hin as [?|Hin]; [done|]. rewrite <- (IH Hin). generalize (ks ≫= fun k => (fun x => (k, x)) <$> default [] (v !! k)). intros rest.
    induction (default [] (v !! k')) as [|y ys IHy]; [done|]. cbn. by rewrite bool_decide_eq_false_2.
Qed.
(** Whatever the query was, after [Set] and [Encode] it has the value that was set. *)
Lemma pinned_query k x v : assoc k (query_pairs (Encode (Values_Set k x v))) = Some x.
Proof.
  rewrite query_pairs_Encode. unfold encoded_pairs, Values_Set. apply (assoc_encoded k _ _ x []); [by rewrite lookup_insert_eq|].
  rewrite merge_sort_Permutation. apply list_elem_of_fmap. exists (k, [x]). split; [done|]. apply elem_of_map_to_list, lookup_insert_eq.
Qed.
Lemma unescape_verbatim t : "%"%char ∉ t -> "+"%char ∉ t -> unescape encodeQueryComponent t = Some t.
Proof.
  induction t as [|c t IH]; intros Hp Hq; [done|]. apply not_elem_of_cons in Hp as [Hp Hp'], Hq as [Hq Hq']. cbn. rewrite bool_decide_eq_false_2 by done.
  rewrite IH by done. cbn. by rewrite bool_decide_eq_false_2.
Qed.
Lemma verbatim_query ip : length ip = 16%nat -> Forall is_byte ip -> assoc (str "ip") (query_pairs (str "ip=" ++ IP_String ip)) = Some (IP_String ip).
Proof.
  intros Hl Hb. assert (forall c, hexval c = None -> c <> ":"%char -> c <> "."%char -> c ∉ IP_String ip) as Hno by (intros; by apply IP_String_chars).
  unfold query_pairs. change (str "&") with ["&"%char]. rewrite Split_one, split_on_plain.
  2: { apply not_elem_of_app. split; [decided|by apply Hno]. }
  cbn [omap list_omap]. unfold query_part. replace (GoStrings.Contains _ (str ";")) with false.
  2: { symmetry. apply Contains_false. intros a b E. assert (";"%char ∈ str "ip=" ++ IP_String ip) as Hin by (rewrite E; set_solver).
       apply elem_of_app in Hin as [Hin|Hin]; [revert Hin; change (";"%char ∉ str "ip="); decided|by apply Hno in Hin]. }
  rewrite bool_decide_eq_false_2 by done. change (str "ip=" ++ IP_String ip) with (str "ip" ++ "="%char :: IP_String ip). rewrite Cut_found by decided.
  rewrite unescape_verbatim by decided. rewrite unescape_verbatim by (by apply Hno). done.
Qed.

(** ** Replies do not depend on earlier visitors *)

Section Independence.
Context `{UnicodeTables} {page_data : Type} (s : Server page_data).

(** The addresses a request can make the server look up. *)
Definition targets (r : request) : list IP :=
  match RequestIP s r true with Ok ip => [ip] | Err _ => [] end ++
  option_list (ParseIP (Trim (path_head (r_URL_Path r)).1 (str "[]"))) ++ option_list (ParseIP (Trim (TrimPrefix (r_URL_Path r) (str "/api/v1/ip/")) (str "[]"))).
(** Two states answer alike about addresses. *)
Definition alike (ips : list IP) (st1 st2 : lookup_state) : Prop := forall ip, ip ∈ ips -> (Server_LookupIP s ip st1).1 = (Server_LookupIP s ip st2).1.
(** The answer of a handler depends on the state through one of the addresses at most. *)
Definition one_lookup {A} (targets : list IP) (answer : lookup_state -> A) : Prop :=
  exists o : option IP, option_list o ⊆ targets /\ forall st1 st2, alike (option_list o) st1 st2 -> answer st1 = answer st2.
Definition stateless (h : appHandler) : Prop := forall r, one_lookup (targets r) (fun st => (h r st).1).
Lemma no_lookup {A} ips (answer : lookup_state -> A) : (forall st1 st2, answer st1 = answer st2) -> one_lookup ips answer.
Proof. intros Hn. exists None. split; [apply list_subseteq_nil|]. intros st1 st2 _. apply Hn. Qed.
Lemma lookup_of {A} ips ip (answer : lookup_state -> A) : ip ∈ ips ->
  (forall st1 st2, (Server_LookupIP s ip st1).1 = (Server_LookupIP s ip st2).1 -> answer st1 = answer st2) -> one_lookup ips answer.
Proof.
  intros Hin Ha. exists (Some ip). split; [intros x ->%list_elem_of_singleton; done|]. intros st1 st2 Hal. by apply Ha, Hal, list_elem_of_singleton.
Qed.

Lemma RequestIP_query r r' b : r_Header r = r_Header r' -> r_RemoteAddr r = r_RemoteAddr r' -> (b = true -> assoc (str "ip") (r_Query r) = assoc (str "ip") (r_Query r')) ->
  RequestIP s r b = RequestIP s r' b.
Proof.
  intros Hh Hr Hq. unfold RequestIP, ipFromRequest, IsTrustedPeer. rewrite Hr.
  assert (forall hs, first_header r hs = first_header r' hs) as Hf. { induction hs as [|n hs IH]; [done|]. cbn. unfold header_candidate. by rewrite Hh, IH. }
  rewrite Hf. destruct b; [by rewrite Hq|done].
Qed.
(** An address given in the query is the one that is looked up. *)
Lemma RequestIP_pinned r ip : length ip = 16%nat -> Forall is_byte ip -> assoc (str "ip") (r_Query r) = Some (IP_String ip) -> RequestIP s r true = Ok ip.
Proof.
  intros Hl Hb Hq. unfold RequestIP, ipFromRequest. rewrite Hq. pose proof (ParseIP_String ip Hl Hb) as Hp.
  assert (IP_String ip <> []) as Hne by (intros E; by rewrite E in Hp). rewrite (bool_decide_eq_false_2 _ Hne). cbn [andb]. rewrite (bool_decide_eq_false_2 _ Hne). cbn. by rewrite Hp.
Qed.
Lemma newResponse_alike r st1 st2 : (forall ip, RequestIP s r true = Ok ip -> (Server_LookupIP s ip st1).1 = (Server_LookupIP s ip st2).1) ->
  (newResponse s r st1).1 = (newResponse s r st2).1.
Proof.
  intros Ha. unfold newResponse. destruct (RequestIP s r true) as [ip|e]; [|done]. specialize (Ha ip eq_refl).
  destruct (Server_LookupIP s ip st1) as [x1 c1], (Server_LookupIP s ip st2) as [x2 c2]. cbn in *. by rewrite Ha.
Qed.
Lemma targets_request r ip : RequestIP s r true = Ok ip -> ip ∈ targets r.
Proof. intros E. unfold targets. rewrite E. set_solver. Qed.
(** The handlers that only use the response of the request. *)
Definition uses_response (h : appHandler) (out : request -> result gostr response_t -> list output * option appError) : Prop :=
  forall r st, (h r st).1 = out r (newResponse s r st).1.
Definition response_only (h : appHandler) : Prop :=
  forall r st1 st2, (forall ip, RequestIP s r true = Ok ip -> (Server_LookupIP s ip st1).1 = (Server_LookupIP s ip st2).1) -> (h r st1).1 = (h r st2).1.
Lemma uses_response_only h out : uses_response h out -> response_only h.
Proof. intros Hu r st1 st2 Ha. rewrite !Hu. f_equal. by apply newResponse_alike. Qed.
Lemma response_only_stateless h : response_only h -> stateless h.
Proof.
  intros Hr r. destruct (RequestIP s r true) as [ip|e] eqn:E.
  - apply (lookup_of _ ip); [by apply targets_request|]. intros st1 st2 Ha. apply Hr. intros ip' E'. rewrite E in E'. by injection E' as <-.
  - apply no_lookup. intros st1 st2. apply Hr. intros ip' E'. congruence.
Qed.
Lemma uses_print field : uses_response (print_field s field) (fun r res => match res with Err e => ([], Some (bad_json s r e)) | Ok x => ([println (field (resp_fields x))], None) end).
Proof. intros r st. unfold print_field. by destruct (newResponse s r st) as [[x|e] st']. Qed.
Lemma uses_api name field : uses_response (api_field s name field) (fun r res => match res with Err e => ([], Some (bad_json s r e)) | Ok x => writeAPIScalar r name (field (resp_fields x)) end).
Proof. intros r st. unfold api_field. by destruct (newResponse s r st) as [[x|e] st']. Qed.
Lemma uses_json : uses_response (JSONHandler s) (fun r res => match res with Err e => ([], Some (bad_json s r e)) | Ok x => write_doc (marshal x) end).
Proof. intros r st. unfold JSONHandler. by destruct (newResponse s r st) as [[x|e] st']. Qed.
Definition page_reply (r : request) (res : result gostr response_t) : list output * option appError :=
  match res with
  | Err e => ([], Some (WithMessage (tr_message s r "errors.bad_request") (badRequest e)))
  | Ok x =>
      match index s, marshal x, PagesHandler s with
      | Template render, Some doc, Some NewPageData =>
          match render (landing_of s (NewPageData r) x doc) with
          | Some body => (page_headers s r ++ [Eff (WriteBody body)], None)
          | None => (page_headers s r, Some (internalServerError (str "template")))
          end
      | CloneFails, _, _ => ([], Some (internalServerError (str "clone")))
      | ParseFails, _, _ => ([], Some (internalServerError (str "parse")))
      | Template _, None, _ => ([], Some (internalServerError unsupported))
      | Template _, Some _, None => ([], Some (internalServerError (str "pages handler not initialized")))
      end
  end.
Lemma uses_page : uses_response (DefaultHandler s) page_reply.
Proof. intros r st. unfold DefaultHandler, page_reply. destruct (newResponse s r st) as [[x|e] st']; [|done]. cbn [fst]. by repeat case_match. Qed.
Lemma CLI_response_only : response_only (CLIHandler s).
Proof. intros r st1 st2 _. unfold CLIHandler. by destruct (RequestIP s r true). Qed.
Lemma by_client_response_only r0 : response_only (by_client s r0).
Proof.
  unfold by_client. destruct (_ =s str "json"); [eapply uses_response_only, uses_json|]. destruct (_ =s str "text"); [apply CLI_response_only|eapply uses_response_only, uses_page].
Qed.
(** A request whose query names one address looks up that one only. *)
Lemma pinned_only h r raw ip st1 st2 : response_only h -> length ip = 16%nat -> Forall is_byte ip -> assoc (str "ip") (query_pairs raw) = Some (IP_String ip) ->
  (Server_LookupIP s ip st1).1 = (Server_LookupIP s ip st2).1 -> (h (set_RawQuery r raw) st1).1 = (h (set_RawQuery r raw) st2).1.
Proof. intros Hr Hl Hb Hq Ha. apply Hr. intros ip'. rewrite (RequestIP_pinned _ ip) by done. by intros [= <-]. Qed.
Lemma path_target r ip : ParseIP (Trim (path_head (r_URL_Path r)).1 (str "[]")) = Some ip -> ip ∈ targets r.
Proof. intros E. unfold targets. rewrite E. set_solver. Qed.
Lemma negotiated_one r ip : ParseIP (Trim (path_head (r_URL_Path r)).1 (str "[]")) = Some ip -> one_lookup (targets r) (fun st => (ipLookupNegotiated s ip r st).1).
Proof.
  intros E. destruct (ParseIP_wf _ _ E) as [Hl Hb]. apply (lookup_of _ ip); [by apply path_target|]. intros st1 st2 Ha. unfold ipLookupNegotiated. cbn zeta.
  apply (pinned_only _ r _ ip); [apply by_client_response_only|done|done|apply pinned_query|done].
Qed.
Lemma lookup_path_stateless : stateless (IPLookupHandler s).
Proof.
  intros r. unfold IPLookupHandler. destruct (ParseIP _) as [ip|] eqn:E; [|by apply no_lookup]. apply (lookup_of _ ip); [by apply path_target|]. intros st1 st2 Ha.
  destruct (Server_LookupIP s ip st1), (Server_LookupIP s ip st2). cbn in *. by rewrite Ha.
Qed.
Lemma api_path_stateless : stateless (APIV1IPLookupHandler s).
Proof.
  intros r. unfold APIV1IPLookupHandler. destruct (ParseIP _) as [ip|] eqn:E; [|by apply no_lookup]. destruct (ParseIP_wf _ _ E) as [Hl Hb].
  apply (lookup_of _ ip); [unfold targets; rewrite E; set_solver|]. intros st1 st2 Ha.
  apply (pinned_only _ r _ ip); [eapply uses_response_only, uses_json|done|done|by apply verbatim_query|done].
Qed.
Lemma field_one r ip field : ip ∈ targets r -> one_lookup (targets r) (fun st => (ipLookupFieldHandler s ip field r st).1).
Proof.
  intros Hin. apply (lookup_of _ ip); [done|]. intros st1 st2 Ha. unfold ipLookupFieldHandler. destruct (Server_LookupIP s ip st1) as [x1 c1], (Server_LookupIP s ip st2) as [x2 c2].
  cbn in Ha. subst x2. destruct (field_value x1 field) as [val|]; [|done]. by destruct (val =s []).
Qed.
Definition same_replies (h : httpHandler) : Prop := forall r, one_lookup (targets r) (fun st => (h r st).1).
Lemma toHTTP_one h r : one_lookup (targets r) (fun st => (h r st).1) -> one_lookup (targets r) (fun st => (appHandlerToHTTP s h r st).1).
Proof.
  intros (o & Ho & Ha). exists o. split; [done|]. intros st1 st2 Hal. specialize (Ha st1 st2 Hal). unfold appHandlerToHTTP.
  destruct (h r st1) as [[o1 e1] c1], (h r st2) as [[o2 e2] c2]. cbn in *. by injection Ha as <- <-.
Qed.
Lemma stateless_same h : stateless h -> same_replies (appHandlerToHTTP s h).
Proof. intros Hs r. by apply toHTTP_one, Hs. Qed.
Lemma path_same : same_replies (ipLookupOrNotFound s).
Proof.
  intros r. unfold ipLookupOrNotFound. assert (one_lookup (targets r) (fun st => (not_found s r st).1)) as Hn by by apply no_lookup.
  destruct (_ <>s str "GET"); [done|]. destruct (_ =s []); [done|]. destruct (path_head (r_URL_Path r)) as [ipPart suffix] eqn:Ep. destruct (_ && _); [done|].
  destruct (ParseIP _) as [ip|] eqn:E; [|done]. assert (ParseIP (Trim (path_head (r_URL_Path r)).1 (str "[]")) = Some ip) as E' by by rewrite Ep.
  destruct (_ =s str "json"); [by apply toHTTP_one, lookup_path_stateless|]. destruct (_ =s []); [by apply toHTTP_one, negotiated_one|].
  apply toHTTP_one, field_one. by apply path_target.
Qed.
(** Every route that answers about an address. *)
Definition lookup_routes : list httpHandler :=
  [rootHandler s; ipLookupOrNotFound s] ++
  (appHandlerToHTTP s <$> [CLIHandler s; CLICountryHandler s; CLICountryISOHandler s; CLICityHandler s; CLICoordinatesHandler s; CLIASNHandler s; CLIASNOrgHandler s;
     JSONHandler s; PortHandler s; APIV1InfoHandler s; APIV1IPHandler s; APIV1IPLookupHandler s; APIV1CountryHandler s; APIV1CityHandler s; APIV1ASNHandler s;
     APIV1CountryISOHandler s; APIV1CoordinatesHandler s; APIV1ASNOrgHandler s]).
Lemma routes_same : Forall same_replies lookup_routes.
Proof.
  unfold lookup_routes. cbn [app fmap list_fmap]. repeat (apply Forall_cons_2; [|]); try constructor; try (apply stateless_same);
    first [ apply path_same | apply api_path_stateless | apply response_only_stateless;
              first [ apply CLI_response_only | eapply uses_response_only, uses_print | eapply uses_response_only, uses_api | eapply uses_response_only, uses_json ] | idtac ].
  - intros r. apply (response_only_stateless (by_client s r)), by_client_response_only.
  - intros r. apply no_lookup. intros st1 st2. unfold PortHandler. by destruct (newPortResponse s r).2.
Qed.

(** *** The state a route leaves *)

Definition moves (h : httpHandler) : Prop := forall r st, (h r st).2 = st \/ exists ip, ip ∈ targets r /\ (h r st).2 = (Server_LookupIP s ip st).2.
Definition moves_app (h : appHandler) : Prop := forall r st, (h r st).2 = st \/ exists ip, ip ∈ targets r /\ (h r st).2 = (Server_LookupIP s ip st).2.
Lemma newResponse_moves r st : (newResponse s r st).2 = st \/ exists ip, RequestIP s r true = Ok ip /\ (newResponse s r st).2 = (Server_LookupIP s ip st).2.
Proof. unfold newResponse. destruct (RequestIP s r true) as [ip|e]; [right|by left]. exists ip. split; [done|]. by destruct (Server_LookupIP s ip st). Qed.
Lemma response_state r st : (JSONHandler s r st).2 = (newResponse s r st).2 /\ (DefaultHandler s r st).2 = (newResponse s r st).2 /\
  (forall field, (print_field s field r st).2 = (newResponse s r st).2) /\ (forall name field, (api_field s name field r st).2 = (newResponse s r st).2).
Proof. unfold JSONHandler, DefaultHandler, print_field, api_field. destruct (newResponse s r st) as [[x|e] st']; split_and!; try done; by repeat case_match. Qed.
Lemma from_response h : (forall r st, (h r st).2 = (newResponse s r st).2) -> moves_app h.
Proof. intros E r st. rewrite E. destruct (newResponse_moves r st) as [->|(ip & Hr & ->)]; [by left|right]. exists ip. split; [by apply targets_request|done]. Qed.
Lemma CLI_moves : moves_app (CLIHandler s).
Proof. intros r st. left. unfold CLIHandler. by destruct (RequestIP s r true). Qed.
Lemma pinned_moves h r raw ip st : (h = CLIHandler s \/ h = JSONHandler s \/ h = DefaultHandler s) -> length ip = 16%nat -> Forall is_byte ip ->
  assoc (str "ip") (query_pairs raw) = Some (IP_String ip) -> (h (set_RawQuery r raw) st).2 = st \/ (h (set_RawQuery r raw) st).2 = (Server_LookupIP s ip st).2.
Proof.
  intros Hh Hl Hb Hq. pose proof (RequestIP_pinned (set_RawQuery r raw) ip Hl Hb Hq) as Hr. destruct (response_state (set_RawQuery r raw) st) as (EJ & ED & _).
  destruct Hh as [-> | [-> | ->]]; [left; unfold CLIHandler; by rewrite Hr|rewrite EJ|rewrite ED];
    (destruct (newResponse_moves (set_RawQuery r raw) st) as [->|(ip' & Hr' & ->)]; [by left|right; congruence]).
Qed.
Lemma toHTTP_state h r st : (appHandlerToHTTP s h r st).2 = (h r st).2.
Proof. unfold appHandlerToHTTP. by destruct (h r st) as [[o e] c]. Qed.
Lemma path_moves : moves (ipLookupOrNotFound s).
Proof.
  intros r st. unfold ipLookupOrNotFound. assert ((not_found s r st).2 = st) as Hn by done.
  destruct (_ <>s str "GET"); [by left|]. destruct (_ =s []); [by left|]. destruct (path_head (r_URL_Path r)) as [ipPart suffix] eqn:Ep. destruct (_ && _); [by left|].
  destruct (ParseIP (Trim ipPart _)) as [ip|] eqn:E; [|by left]. assert (ip ∈ targets r) as Hin by (unfold targets; rewrite Ep; cbn [fst]; rewrite E; set_solver).
  destruct (ParseIP_wf _ _ E) as [Hl Hb].
  destruct (_ =s str "json"); [|destruct (_ =s [])]; rewrite toHTTP_state.
  - right. exists ip. split; [done|]. unfold IPLookupHandler. rewrite Ep. cbn [fst]. rewrite E. by destruct (Server_LookupIP s ip st).
  - unfold ipLookupNegotiated. cbn zeta. match goal with |- context [by_client s ?q ?q st] => destruct (pinned_moves (by_client s q) r (Encode (Values_Set (str "ip") (IP_String ip) (Values_of (r_Query r)))) ip st) as [E'|E'] end;
      [unfold by_client; repeat case_match; auto|done|done|apply pinned_query|left; exact E'|right; exists ip; split; [done|exact E']].
  - right. exists ip. split; [done|]. unfold ipLookupFieldHandler. destruct (Server_LookupIP s ip st) as [x c]. cbn. by repeat case_match.
Qed.
Lemma api_path_moves : moves_app (APIV1IPLookupHandler s).
Proof.
  intros r st. unfold APIV1IPLookupHandler. destruct (ParseIP _) as [ip|] eqn:E; [|by left]. destruct (ParseIP_wf _ _ E) as [Hl Hb].
  destruct (pinned_moves (JSONHandler s) r (str "ip=" ++ IP_String ip) ip st) as [->| ->]; [by auto|done|done|by apply verbatim_query|by left|].
  right. exists ip. split; [|done]. unfold targets. rewrite E. set_solver.
Qed.
Lemma moves_toHTTP h : moves_app h -> moves (appHandlerToHTTP s h).
Proof. intros Hm r st. rewrite toHTTP_state. apply Hm. Qed.
Lemma routes_move : Forall moves lookup_routes.
Proof.
  unfold lookup_routes. cbn [app fmap list_fmap]. repeat (apply Forall_cons_2; [|]); [..|constructor]; try (apply moves_toHTTP);
    first [ apply path_moves | apply CLI_moves | apply api_path_moves | by apply from_response; intros; apply response_state | idtac ].
  - intros r st. unfold by_client. destruct (_ =s str "json"); [apply from_response; intros; apply response_state|]. destruct (_ =s str "text"); [apply CLI_moves|].
    apply from_response; intros; apply response_state.
  - intros r st. left. unfold PortHandler. by destruct (newPortResponse s r).2.
Qed.

(** *** One lookup *)

Definition svc : IPLookupService := NewIPLookupService s.
Lemma Server_LookupIP_eq ip st : Server_LookupIP s ip st = ((Lookup (assemble svc) ip (cache st)).1, mkState (Lookup (assemble svc) ip (cache st)).2 true).
Proof. unfold Server_LookupIP, ensureIPService, LookupIP. destruct st as [c []]; cbn [ipService cache]; fold svc; by destruct (Lookup (assemble svc) ip c). Qed.
Definition fresh (cap : Z) : lookup_state := mkState (NewCache cap) false.
Lemma fresh_lookup ip cap : (Server_LookupIP s ip (fresh cap)).1 = response (assemble svc) ip.
Proof. by rewrite Server_LookupIP_eq. Qed.
End Independence.

(** *** Histories *)

Section Histories.
Context `{UnicodeTables} {page_data : Type}.
(** A request served earlier: the server as it was then (its databases, the names the
    resolver gave and its threat lists), the route and the request. *)
Record visit := { v_server : Server page_data; v_handler : httpHandler; v_request : request }.
Definition on_route (v : visit) : Prop := v_handler v ∈ lookup_routes (v_server v).
Definition asked_about (v : visit) (ip : IP) : Prop := ip ∈ targets (v_server v) (v_request v).
(** The state after a sequence of requests. *)
Definition serve_all (hist : list visit) (st : lookup_state) : lookup_state := fold_left (fun st v => (v_handler v (v_request v) st).2) hist st.
(** No other address asked about before has the hash of this one. *)
Definition no_collision (hist : list visit) (ip : IP) : Prop := forall v ip', v ∈ hist -> asked_about v ip' -> key ip' = key ip -> ip' = ip.

(** What a cache of capacity [cap] holds after a history. *)
Definition computed_in (hist : list visit) (cap : Z) (resp : response_t) : Prop :=
  0 < cap /\ exists v, v ∈ hist /\ asked_about v (resp_IP resp) /\ resp = response (assemble (svc (v_server v))) (resp_IP resp).
Definition state_inv (hist : list visit) (cap : Z) (st : lookup_state) : Prop := holds (computed_in hist cap) (cache st) /\ capacity (cache st) = cap.
Lemma serve_inv hist cap v st : on_route v -> v ∈ hist -> state_inv hist cap st -> state_inv hist cap (v_handler v (v_request v) st).2.
Proof.
  intros Hr Hv [Hi Hcap]. pose proof (routes_move (v_server v)) as Hm. rewrite Forall_forall in Hm.
  destruct (Hm _ Hr (v_request v) st) as [->|(ip & Hin & ->)]; [done|]. rewrite Server_LookupIP_eq. unfold state_inv. cbn [snd cache].
  destruct (Lookup_holds (assemble (svc (v_server v))) (computed_in hist cap) ip (cache st) Hi) as [Hh Hc]; [|by rewrite Hc].
  intros Hpos. split; [lia|]. by exists v.
Qed.
Lemma serve_all_inv hist cap hist' st : Forall on_route hist' -> (forall v, v ∈ hist' -> v ∈ hist) -> state_inv hist cap st -> state_inv hist cap (serve_all hist' st).
Proof.
  intros Hr. revert st. induction Hr as [|v hist' Hv _ IH]; intros st Hin Hi; [done|]. apply IH; [set_solver|]. apply serve_inv; [done|set_solver|done].
Qed.
Lemma history_inv hist cap : Forall on_route hist -> state_inv hist (Z.max 0 cap) (serve_all hist (fresh cap)).
Proof.
  intros Hr. apply serve_all_inv; [done|done|]. split; [apply NewCache_holds|]. cbn. case_match; bool_facts; lia.
Qed.
(** A lookup after a history: computed now, or cached when the address was asked about. *)
Lemma lookup_after (s : Server page_data) hist cap ip : Forall on_route hist -> no_collision hist ip ->
  (Server_LookupIP s ip (serve_all hist (fresh cap))).1 = response (assemble (svc s)) ip \/
  exists v, v ∈ hist /\ asked_about v ip /\ 0 < cap /\ (Server_LookupIP s ip (serve_all hist (fresh cap))).1 = response (assemble (svc (v_server v))) ip.
Proof.
  intros Hr Hn. destruct (history_inv hist cap Hr) as [Hi _]. rewrite Server_LookupIP_eq. cbn [fst].
  destruct (Lookup_from (assemble (svc s)) _ ip _ Hi) as [->|(resp & (Hpos & v & Hv & Ha & Hresp) & Hk & E)]; [by left|right].
  exists v. pose proof (Hn v (resp_IP resp) Hv Ha Hk) as Heq. rewrite Heq in *. split_and!; [done|done|lia|congruence].
Qed.
(** A server that was asked about one address only, at an earlier moment, still has that answer. *)
Lemma lookup_again (s m : Server page_data) ip cap : 0 < cap ->
  (Server_LookupIP s ip (Server_LookupIP m ip (fresh cap)).2).1 = response (assemble (svc m)) ip.
Proof.
  intros Hpos. rewrite (Server_LookupIP_eq m), Server_LookupIP_eq. cbn [fst snd cache fresh].
  set (c := (Lookup (assemble (svc m)) ip (NewCache cap)).2). assert (Get ip c = Some (response (assemble (svc m)) ip)) as Hg; [|unfold Lookup; by rewrite Hg].
  apply set_get; [apply NewCache_consistent|done|cbn; case_match; bool_facts; lia].
Qed.
End Histories.
Arguments visit : clear implicits.

(** C32. What a visitor is told depends on who asked before through one cached lookup at
    most: after any sequence of requests to the lookup routes, while the databases, the
    names the resolver gives and the threat lists change in between, a request gets the
    reply of a server that has just started, or that of a server which since its start was
    asked once, about an address of this request, at a moment when some earlier request
    asked about it too.  The condition is that no other address asked about before has the
    same 64-bit hash.  Nothing else of an earlier visit is told, the user agent in particular. *)
Theorem replies_without_visitors `{UnicodeTables} {page_data} (s : Server page_data) (hist : list (visit page_data)) h r cap :
  Forall on_route hist -> h ∈ lookup_routes s -> (forall ip, ip ∈ targets s r -> no_collision hist ip) ->
  let reply := (h r (serve_all hist (fresh cap))).1 in
  reply = (h r (fresh cap)).1 \/
  exists v ip, v ∈ hist /\ asked_about v ip /\ ip ∈ targets s r /\ reply = (h r (Server_LookupIP (v_server v) ip (fresh cap)).2).1.
Proof.
  intros Hr Hh Hn. cbn zeta. pose proof (routes_same s) as Hs. rewrite Forall_forall in Hs. destruct (Hs h Hh r) as ([ip|] & Hin & Ha).
  2: { left. apply Ha. intros ip Hip. by apply not_elem_of_nil in Hip. }
  assert (ip ∈ targets s r) as Ht by (apply Hin, list_elem_of_singleton; done).
  destruct (lookup_after s hist cap ip Hr (Hn ip Ht)) as [E|(v & Hv & Hq & Hpos & E)]; [left|right; exists v, ip; split_and!; [done..|]];
    apply Ha; intros ip' ->%list_elem_of_singleton; rewrite E; symmetry; [apply fresh_lookup|by apply lookup_again].
Qed.

(** ** An address in the path *)

(** The response about an address as it is computed at a moment, with what the visit adds to it. *)
Definition visit_response `{UnicodeTables} {page_data} (s m : Server page_data) (r : request) (ip : IP) : response_t :=
  {| resp_IP := ip; resp_fields := with_visit (assemble (svc m) ip) (userAgentFromRequest r) (IsTorRequest r (Some (getTrust s))) |}.
Lemma newResponse_about `{UnicodeTables} {page_data} (s m : Server page_data) r ip st :
  RequestIP s r true = Ok ip -> (Server_LookupIP s ip st).1 = response (assemble (svc m)) ip -> (newResponse s r st).1 = Ok (visit_response s m r ip).
Proof. intros E Hl. unfold newResponse. rewrite E. destruct (Server_LookupIP s ip st) as [x c]. cbn in *. by rewrite Hl. Qed.
(** What the routes for an address in the path answer from a state. *)
Lemma path_lookup_answer `{UnicodeTables} {page_data} (s m : Server page_data) r st ipPart ip :
  r_Method r = str "GET" -> r_URL_Path r = "/"%char :: ipPart -> "/"%char ∉ ipPart ->
  GoStrings.Contains ipPart (str ".") || GoStrings.Contains ipPart (str ":") = true -> ParseIP (Trim ipPart (str "[]")) = Some ip ->
  (Server_LookupIP s ip st).1 = response (assemble (svc m)) ip ->
  let out := (ipLookupOrNotFound s r st).1 in let R := visit_response s m r ip in
  (detectClientType r = str "text" -> out = [println (IP_String ip)]) /\
  (forall doc, detectClientType r = str "json" -> marshal R = Some doc -> out = [Eff (SetHeader (str "Content-Type") jsonMediaType); WriteDoc doc; Eff (WriteBody [newline])]) /\
  (forall doc render NewPageData body, detectClientType r = str "html" -> marshal R = Some doc -> index s = Template render -> PagesHandler s = Some NewPageData ->
     render (landing_of s (NewPageData (set_RawQuery r (Encode (Values_Set (str "ip") (IP_String ip) (Values_of (r_Query r)))))) R doc) = Some body ->
     out = page_headers s r ++ [Eff (WriteBody body)]).
Proof.
  intros Hm Hp Hns Hc Hip Hl. destruct (ParseIP_wf _ _ Hip) as [Hlen Hb]. set (q := set_RawQuery r (Encode (Values_Set (str "ip") (IP_String ip) (Values_of (r_Query r))))).
  assert (RequestIP s q true = Ok ip) as Hq by (apply RequestIP_pinned; [done..|apply pinned_query]).
  pose proof (newResponse_about s m q ip st Hq Hl) as Hr. change (visit_response s m q ip) with (visit_response s m r ip) in Hr.
  assert ((ipLookupOrNotFound s r st).1 = (appHandlerToHTTP s (fun r _ => by_client s q q st) r st).1) as ->.
  { unfold ipLookupOrNotFound, path_head. rewrite Hm, Hp. change (TrimPrefix ("/"%char :: ipPart) (str "/")) with ipPart. cbn [negb]. rewrite (Cut_absent ipPart "/"%char Hns). cbn [fst snd].
    rewrite bool_decide_eq_true_2 by done. cbn [negb]. destruct (decide (ipPart = [])) as [->|Hne]; [done|]. rewrite (bool_decide_eq_false_2 _ Hne).
    rewrite <- negb_orb, Hc. cbn [negb]. rewrite Hip. done. }
  cbn zeta. unfold by_client. change (detectClientType q) with (detectClientType r). split_and!.
  - intros ->. change (str "text" =s str "json") with false. change (str "text" =s str "text") with true. assert (CLIHandler s q st = ([println (IP_String ip)], None, st)) as Hcli by (unfold CLIHandler; by rewrite Hq).
    unfold appHandlerToHTTP. by rewrite Hcli.
  - intros doc -> Hd. change (str "json" =s str "json") with true. unfold appHandlerToHTTP. pose proof (uses_json s q st) as Hu. rewrite Hr in Hu. cbv beta iota in Hu. rewrite Hd in Hu. destruct (JSONHandler s q st) as [[o e] c]. cbn in *. by injection Hu as -> ->.
  - intros doc render npd body -> Hd Hi Hpg Hbody. unfold appHandlerToHTTP. pose proof (uses_page s q st) as Hu. rewrite Hr in Hu. unfold page_reply in Hu. rewrite Hd, Hi, Hpg, Hbody in Hu.
    change (str "html" =s str "json") with false. change (str "html" =s str "text") with false. cbv iota. destruct (DefaultHandler s q st) as [[o e] c]. cbn [fst snd] in *. injection Hu as Ho He. rewrite Ho, He. apply app_nil_r.
Qed.

(** C15. [GET /{ip}] answers about the address in the path, to every kind of client, whatever
    the peer address, the proxy headers and the query of the request say and whatever was
    asked before: text clients get the address, JSON clients the document and browsers the
    page of one response about it, assembled from the databases, the resolver and the threat
    lists as they are now or as they were when an earlier request asked about the same
    address.  The condition is that no other address asked about before has the same 64-bit
    hash. *)
Theorem path_lookup_pinned `{UnicodeTables} {page_data} (s : Server page_data) (hist : list (visit page_data)) cap r ipPart ip :
  r_Method r = str "GET" -> r_URL_Path r = "/"%char :: ipPart -> "/"%char ∉ ipPart ->
  GoStrings.Contains ipPart (str ".") || GoStrings.Contains ipPart (str ":") = true -> ParseIP (Trim ipPart (str "[]")) = Some ip ->
  Forall on_route hist -> no_collision hist ip ->
  let out := (ipLookupOrNotFound s r (serve_all hist (fresh cap))).1 in
  exists m, (m = s \/ exists v, v ∈ hist /\ asked_about v ip /\ m = v_server v) /\
  let R := visit_response s m r ip in
  (detectClientType r = str "text" -> out = [println (IP_String ip)]) /\
  (forall doc, detectClientType r = str "json" -> marshal R = Some doc -> out = [Eff (SetHeader (str "Content-Type") jsonMediaType); WriteDoc doc; Eff (WriteBody [newline])]) /\
  (forall doc render NewPageData body, detectClientType r = str "html" -> marshal R = Some doc -> index s = Template render -> PagesHandler s = Some NewPageData ->
     render (landing_of s (NewPageData (set_RawQuery r (Encode (Values_Set (str "ip") (IP_String ip) (Values_of (r_Query r)))))) R doc) = Some body ->
     out = page_headers s r ++ [Eff (WriteBody body)]).
Proof.
  intros Hm Hp Hns Hc Hip Hr Hn. cbn zeta.
  destruct (lookup_after s hist cap ip Hr Hn) as [E|(v & Hv & Hq & _ & E)];
    [exists s; split; [by left|]|exists (v_server v); split; [right; by exists v|]]; by apply (path_lookup_answer s _ r _ ipPart ip).
Qed.

(** ** Fields *)

Definition string_fields : list gostr :=
  str <$> ["country"; "country_iso"; "region_name"; "region_code"; "city"; "zip_code"; "time_zone"; "asn"; "asn_org"; "hostname"].
(** The value of a name in a document. *)
Fixpoint doc_value (name : gostr) (d : document) : option jdoc :=
  match d with [] => None | (k, v) :: d' => if bool_decide (name = k) then Some v else doc_value name d' end.
Lemma doc_value_app name d e : doc_value name (d ++ e) = match doc_value name d with Some v => Some v | None => doc_value name e end.
Proof. induction d as [|[k v] d IH]; [done|]. cbn. by case_bool_decide. Qed.
Lemma doc_value_omit name n t : doc_value name (omit_string n t) = if bool_decide (name = str n) then (if t =s [] then None else Some (DString t)) else None.
Proof. unfold omit_string. destruct (t =s []); cbn; by case_bool_decide. Qed.
Lemma doc_value_bool name n b : name <> str n -> doc_value name (omit_bool n b) = None.
Proof. intros Hn. destruct b; cbn; [by rewrite bool_decide_eq_false_2|done]. Qed.
Lemma doc_value_float name n f : name <> str n -> doc_value name (omit_float n f) = None.
Proof. intros Hn. unfold omit_float. destruct (is_zero f); cbn; [done|by rewrite bool_decide_eq_false_2]. Qed.
Lemma doc_value_if name (c : bool) n v : name <> n -> doc_value name (if c then [] else [(n, v)]) = None.
Proof. intros Hn. destruct c; cbn; [done|by rewrite bool_decide_eq_false_2]. Qed.
Lemma doc_value_ua name (u : option UserAgent) : name <> str "user_agent" -> doc_value name match u with Some ua => [(str "user_agent", ua_doc ua)] | None => [] end = None.
Proof. intros Hn. destruct u; cbn; [by rewrite bool_decide_eq_false_2|done]. Qed.
Lemma field_in_doc resp doc field : field ∈ string_fields -> marshal resp = Some doc ->
  exists val, field_value resp field = Some val /\ doc_value field doc = if val =s [] then None else Some (DString val).
Proof.
  intros Hf Hd. unfold marshal in Hd. destruct (marshal_ip (resp_IP resp)) as [ip|]; [|done]. destruct (finite _ && finite _); [|done]. injection Hd as <-.
  repeat (apply elem_of_cons in Hf as [-> | Hf]; [|]); [..|by apply not_elem_of_nil in Hf];
    (eexists; split; [reflexivity|]); cbn [app]; cbn [doc_value]; do 2 (rewrite bool_decide_eq_false_2 by done); rewrite !doc_value_app, !doc_value_omit;
    repeat rewrite doc_value_bool by done; repeat rewrite doc_value_float by done; rewrite doc_value_if by done; rewrite doc_value_ua by done;
    repeat (rewrite bool_decide_eq_false_2 by done); rewrite bool_decide_eq_true_2 by done; by destruct (_ =s []).
Qed.
(** [/{ip}/{field}] and [/{ip}/json] never disagree: for the fields of text, the plain
    text is the value the JSON document has under the same name, and a field the document
    omits is refused with a JSON error of status 400. *)
Theorem field_matches_json `{UnicodeTables} {page_data} (s : Server page_data) r st ip field doc :
  field ∈ string_fields -> marshal (Server_LookupIP s ip st).1 = Some doc ->
  match doc_value field doc with
  | Some v => exists val, v = DString val /\ (ipLookupFieldHandler s ip field r st).1 = ([println val], None)
  | None => exists e, (ipLookupFieldHandler s ip field r st).1 = ([], Some e) /\ Code e = 400 /\ IsJSON e = true
  end.
Proof.
  intros Hf Hd. unfold ipLookupFieldHandler. destruct (Server_LookupIP s ip st) as [x c]. cbn in Hd. destruct (field_in_doc x doc field Hf Hd) as (val & -> & ->).
  destruct (decide (val = [])) as [->|Hne]; [rewrite bool_decide_eq_true_2 by done; by eexists|]. rewrite (bool_decide_eq_false_2 _ Hne). by exists val.
Qed.

(** ** Mirrors *)

(** The plain-text routes and their mirrors under [/api/v1]. *)
Definition mirrors `{UnicodeTables} {page_data} (s : Server page_data) : list (string * appHandler * appHandler) :=
  [("country", CLICountryHandler s, APIV1CountryHandler s); ("country_iso", CLICountryISOHandler s, APIV1CountryISOHandler s); ("city", CLICityHandler s, APIV1CityHandler s);
   ("coordinates", CLICoordinatesHandler s, APIV1CoordinatesHandler s); ("asn", CLIASNHandler s, APIV1ASNHandler s); ("asn_org", CLIASNOrgHandler s, APIV1ASNOrgHandler s)]%string.
(** Every API route answers with the value of the plain-text route it mirrors, as a line
    of text or as the one field of a JSON document, and fails exactly when that route does,
    with the same error; the state is left alike. *)
Theorem api_mirrors_web `{UnicodeTables} {page_data} (s : Server page_data) name web api r st :
  (name, web, api) ∈ mirrors s ->
  (api r st).2 = (web r st).2 /\
  ((exists e, (web r st).1 = ([], Some e) /\ (api r st).1 = ([], Some e)) \/
   exists val, (web r st).1 = ([println val], None) /\
     (api r st).1 = if apiResponseFormat r =s str "text" then ([Eff (SetHeader (str "Content-Type") (str "text/plain; charset=utf-8")); println val], None)
                    else ([Eff (SetHeader (str "Content-Type") jsonMediaType); WriteDoc [(str name, DString val)]; Eff (WriteBody [newline])], None)).
Proof.
  intros Hin. assert (exists field, web = print_field s field /\ api = api_field s name field) as (field & -> & ->).
  { repeat (apply elem_of_cons in Hin as [[= -> -> ->] | Hin]; [by eexists|]). by apply not_elem_of_nil in Hin. }
  unfold print_field, api_field. destruct (newResponse s r st) as [[x|e] st']; cbn [fst snd]; (split; [done|]); [right|left; by eexists].
  exists (field (resp_fields x)). split; [done|]. unfold writeAPIScalar. by destruct (_ =s str "text").
Qed.

(** ** The port check *)

(** The connections of a check: none, or one to the address of the request. *)
Lemma probe_dials `{UnicodeTables} {page_data} (s : Server page_data) r dials ip p :
  dials = (newPortResponse s r).1 \/ (exists port, dials = (resolveCheckPort s r port).1) -> (ip, p) ∈ dials ->
  1 <= p <= 65535 /\ RequestIP s r false = Ok ip.
Proof.
  unfold newPortResponse, resolveCheckPort, CheckPort. intros Hd Hin. assert (forall n : Z, (n <? 1) || (65535 <? n) = false -> 1 <= n <= 65535) as Hrange.
  { intros n [?%Z.ltb_ge ?%Z.ltb_ge]%orb_false_iff. lia. }
  destruct Hd as [->|[port ->]].
  - destruct (ParseUint16 _) as [n|]; [|by apply not_elem_of_nil in Hin]. destruct ((n <? 1) || (65535 <? n)) eqn:En; [by apply not_elem_of_nil in Hin|].
    destruct (RequestIP s r false); [|by apply not_elem_of_nil in Hin]. destruct (LookupPort s); [|by apply not_elem_of_nil in Hin].
    apply list_elem_of_singleton in Hin as [= -> ->]. by auto.
  - destruct ((port <? 1) || (65535 <? port)) eqn:En; [by apply not_elem_of_nil in Hin|]. destruct (RequestIP s r false); [|by apply not_elem_of_nil in Hin].
    destruct (LookupPort s); [|by apply not_elem_of_nil in Hin]. apply list_elem_of_singleton in Hin as [= -> ->]. by auto.
Qed.
Lemma probe_count `{UnicodeTables} {page_data} (s : Server page_data) r port :
  (length (newPortResponse s r).1 <= 1)%nat /\ (length (resolveCheckPort s r port).1 <= 1)%nat.
Proof. unfold newPortResponse, resolveCheckPort, CheckPort. split; repeat case_match; simplify_eq/=; lia. Qed.
(** C33. A visitor can only have the server connect to the visitor's own address: a port
    check, over HTTP or GraphQL, opens at most one connection, to a port between 1 and
    65535, at the address [RequestIP] finds without the [ip] parameter, so the query has no
    influence, and unless the peer is a trusted proxy it is the address of the peer. *)
Theorem port_probe_own_address `{UnicodeTables} {page_data} (s : Server page_data) r q port :
  (length (newPortResponse s r).1 <= 1)%nat /\ (length (resolveCheckPort s r port).1 <= 1)%nat /\
  newPortResponse s (set_RawQuery r q) = newPortResponse s r /\ resolveCheckPort s (set_RawQuery r q) port = resolveCheckPort s r port /\
  forall ip p, (ip, p) ∈ (newPortResponse s r).1 ++ (resolveCheckPort s r port).1 ->
    1 <= p <= 65535 /\ RequestIP s r false = Ok ip /\
    (IsTrustedPeer (Some (getTrust s)) r = false -> exists host rest, SplitHostPort (r_RemoteAddr r) = Some (host, rest) /\ ParseIP host = Some ip).
Proof.
  assert (RequestIP s (set_RawQuery r q) false = RequestIP s r false) as Hq by by apply RequestIP_query.
  destruct (probe_count s r port) as [H1 H2]. split_and!; [done|done|unfold newPortResponse; by rewrite Hq|unfold resolveCheckPort; by rewrite Hq|].
  intros ip p Hin. assert (1 <= p <= 65535 /\ RequestIP s r false = Ok ip) as [Hp Hr].
  { apply elem_of_app in Hin as [Hin|Hin]; eapply probe_dials; try done; [by left|right; by eexists]. }
  split_and!; [lia|lia|done|]. intros Ht. unfold RequestIP, ipFromRequest in Hr. rewrite Ht in Hr. cbn in Hr.
  destruct (SplitHostPort (r_RemoteAddr r)) as [[host rest]|]; [|done]. exists host, rest. split; [done|]. cbn in Hr. destruct (ParseIP host); [|done]. by injection Hr as ->.
Qed.

(** ** GraphQL *)

(** The values of a response that both interfaces name. *)
Definition gql_string (name : gostr) (m : list (gostr * gvalue)) : option gostr :=
  match list_find (fun kv => kv.1 = name) m with Some (_, (_, GString t)) => Some t | _ => None end.
Definition gql_names : list (gostr * gostr) :=
  (fun p => (str p.1, str p.2)) <$> [("country", "country"); ("country_iso", "countryIso"); ("region_name", "regionName"); ("region_code", "regionCode"); ("city", "city");
    ("zip_code", "zipCode"); ("time_zone", "timezone"); ("asn", "asn"); ("asn_org", "asnOrg"); ("hostname", "hostname")]%string.
(** [myIP] of GraphQL and [/json] give the same answer to the same request: they fail
    together with the same error, leave the same state, and for every field of text the
    GraphQL value is the one of the JSON document, empty where the document omits it. *)
Theorem graphql_agrees `{UnicodeTables} {page_data} (s : Server page_data) r st :
  (resolveMyIP s r st).2 = (JSONHandler s r st).2 /\
  match (resolveMyIP s r st).1 with
  | Err e => (JSONHandler s r st).1 = ([], Some (bad_json s r e))
  | Ok m => exists resp, (newResponse s r st).1 = Ok resp /\ (JSONHandler s r st).1 = write_doc (marshal resp) /\
      forall doc rest gql, marshal resp = Some doc -> (rest, gql) ∈ gql_names ->
        gql_string gql m = Some (match doc_value rest doc with Some (DString t) => t | _ => [] end)
  end.
Proof.
  destruct (response_state s r st) as (-> & _). pose proof (uses_json s r st) as Hu. rewrite Hu. unfold resolveMyIP, newResponse in *.
  destruct (RequestIP s r true) as [ip|e]; [|done]. destruct (Server_LookupIP s ip st) as [x c]. cbn [fst snd]. split; [done|]. eexists. split; [done|]. split; [done|].
  intros doc rest gql Hd Hin. assert (rest ∈ string_fields) as Hf. { revert Hin. intros Hin%(list_elem_of_fmap_2 fst). exact Hin. }
  destruct (field_in_doc _ doc rest Hf Hd) as (val & Hv & ->). assert (match (if val =s [] then None else Some (DString val)) with Some (DString t) => t | _ => [] end = val) as ->.
  { case_bool_decide; [by subst|done]. }
  repeat (apply elem_of_cons in Hin as [[= -> ->] | Hin]; [injection Hv as <-; reflexivity|]). by apply not_elem_of_nil in Hin.
Qed.

(** ** At concrete inputs *)

#[local] Existing Instance ascii_tables.
Definition sample_country (ip : IP) : option countryRecord := Some {| cr_CountryCode := if IP_Equal ip (IPv4 203 0 113 9) then str "AT" else str "US" |}.
Definition sample_server : Server unit :=
  {| IPHeaders := []; trust := None; config := None; LookupHost := fun _ => None;
     gr := {| g_country := Some sample_country; g_cityV4 := None; g_cityV6 := None; g_asn := None |}; LookupAddr_ := None; threatLookup := None;
     LookupPort := Some (fun _ _ => true); HostIPv4 := []; HostIPv6 := []; Version_ := str "1"; CommitID := str "c";
     index := Template (fun _ => None); PagesHandler := None; errorPage := fun _ _ => None; errorLog := false; translations := no_translations; addr_reason := fun _ => [] |}.
Definition ask (path remote : string) : request :=
  {| r_Method := str "GET"; r_Host := str "example.org"; r_URL_Host := []; r_URL_Path := str path; r_URL_RawPath := []; r_Header := {[str "User-Agent" := [str "curl/8.0"]]};
     r_Cookies := []; r_Query := []; r_Form := Some []; r_RemoteAddr := str remote; r_TLS := false; r_ContentLength := 0; r_ctx := background |}.
Definition visitor : request := ask "/country" "198.51.100.7:4000".
(** The same server later, when the database gives another country. *)
Definition later_server : Server unit :=
  {| IPHeaders := []; trust := None; config := None; LookupHost := fun _ => None;
     gr := {| g_country := Some (fun _ => Some {| cr_CountryCode := str "FR" |}); g_cityV4 := None; g_cityV6 := None; g_asn := None |}; LookupAddr_ := None; threatLookup := None;
     LookupPort := Some (fun _ _ => true); HostIPv4 := []; HostIPv6 := []; Version_ := str "1"; CommitID := str "c";
     index := Template (fun _ => None); PagesHandler := None; errorPage := fun _ _ => None; errorLog := false; translations := no_translations; addr_reason := fun _ => [] |}.
Definition earlier : list (visit unit) := [{| v_server := sample_server; v_handler := rootHandler sample_server; v_request := ask "/" "203.0.113.9:1" |}].
Lemma earlier_route : Forall on_route earlier.
Proof. apply Forall_singleton. by left. Qed.
Lemma path_lookup_pinned_witness :
  (ipLookupOrNotFound later_server (ask "/203.0.113.9" "198.51.100.7:4000") (serve_all earlier (fresh 4))).1 = [println (str "203.0.113.9")].
Proof.
  destruct (path_lookup_pinned later_server earlier 4 (ask "/203.0.113.9" "198.51.100.7:4000") (str "203.0.113.9") (IPv4 203 0 113 9)) as (m & _ & Htext & _);
    [reflexivity|reflexivity|decided|reflexivity|reflexivity|apply earlier_route| |exact (Htext eq_refl)].
  intros v ip' ->%list_elem_of_singleton Hip' _. unfold asked_about in Hip'. replace (targets _ _) with [IPv4 203 0 113 9] in Hip' by (vm_compute; reflexivity).
  by apply list_elem_of_singleton in Hip'.
Defined.
Lemma replies_without_visitors_witness :
  let reply := (rootHandler later_server visitor (serve_all earlier (fresh 4))).1 in
  reply = (rootHandler later_server visitor (fresh 4)).1 \/
  exists v ip, v ∈ earlier /\ asked_about v ip /\ ip ∈ targets later_server visitor /\ reply = (rootHandler later_server visitor (Server_LookupIP (v_server v) ip (fresh 4)).2).1.
Proof.
  apply (replies_without_visitors later_server earlier (rootHandler later_server) visitor 4); [apply earlier_route|by left|].
  intros ip Hip v ip' ->%list_elem_of_singleton Hip'. unfold asked_about in Hip'. replace (targets _ (v_request _)) with [IPv4 203 0 113 9] in Hip' by (vm_compute; reflexivity).
  replace (targets later_server visitor) with [IPv4 198 51 100 7] in Hip by (vm_compute; reflexivity). apply list_elem_of_singleton in Hip as ->, Hip' as ->.
  intros Hk. exfalso. revert Hk. vm_compute. discriminate.
Defined.
(** A cached answer outlives a change of the database. *)
Lemma cached_answer_kept :
  let q := ask "/203.0.113.9/country" "198.51.100.7:4000" in
  let before := serve_all [{| v_server := sample_server; v_handler := ipLookupOrNotFound sample_server; v_request := q |}] (fresh 4) in
  (ipLookupOrNotFound later_server q before).1 = [println (str "Austria")] /\ (ipLookupOrNotFound later_server q (fresh 4)).1 = [println (str "France")].
Proof. split; vm_compute; reflexivity. Qed.
Lemma field_matches_json_witness : exists val, DString (str "Austria") = DString val /\
  (ipLookupFieldHandler sample_server (IPv4 203 0 113 9) (str "country") visitor (fresh 4)).1 = ([println val], None).
Proof.
  assert (str "country" ∈ string_fields) as Hf by decided.
  exact (field_matches_json sample_server visitor (fresh 4) (IPv4 203 0 113 9) (str "country") _ Hf eq_refl).
Defined.
Lemma api_mirrors_web_witness : (APIV1CityHandler sample_server visitor (fresh 4)).2 = (CLICityHandler sample_server visitor (fresh 4)).2.
Proof.
  assert (("city"%string, CLICityHandler sample_server, APIV1CityHandler sample_server) ∈ mirrors sample_server) as Hin by (do 2 right; by left).
  exact (proj1 (api_mirrors_web sample_server "city" (CLICityHandler sample_server) (APIV1CityHandler sample_server) visitor (fresh 4) Hin)).
Defined.
