(* ===== verification/Health.v ===== *)
(** * Health reports: [server/handler/health.go] and the health query of [graphql/resolvers.go]

    The probes of the subsystems, the status derived from them, the document and its
    three formats.  What a probe finds is part of the handler; a provider that is asked
    more than once answers by the number of the call, so that a report may see it change.
    Documents are trees of named values; the text format, the JSON document and the map
    of the GraphQL query are compared leaf by leaf. *)
From stdpp Require Import base list strings.
From Stdlib Require Import ZArith Lia SpecFloat.
From S2P Require Import Prelude GoStrings GoTime Http I18n Negotiate.
Local Open Scope Z_scope.
Local Open Scope go_scope.

Definition statusHealthy : gostr := str "healthy".
Definition statusDegraded : gostr := str "degraded".
Definition statusRestartRequired : gostr := str "restart_required".
Definition statusUnhealthy : gostr := str "unhealthy".
Definition statusMaintenance : gostr := str "maintenance".
Definition statusShuttingDown : gostr := str "shutting_down".
Definition i2pProviderNone : gostr := str "none".
Definition healthStatusCode (status : gostr) : Z :=
  if (status =s statusUnhealthy) || (status =s statusMaintenance) || (status =s statusShuttingDown) then 503 else 200.

(** ** The handler and what it can ask *)

(** [TorStatusProvider] and [I2PStatusProvider]; the numbered answers are those of the
    calls of one report. [ProviderName] is there when the provider can name its backend. *)
Record StatusProvider := { IsAvailable : nat -> bool; IsRunning : nat -> bool; Status : gostr; GetHostname : gostr; ProviderName : option gostr }.
Record HealthHandler := mkHealth {
  hh_Version : gostr; hh_CommitID : gostr; hh_BuildDate : gostr; hh_Mode : gostr; StartTime : Z;
  ProjectName : gostr; ProjectTagline : gostr; ProjectDescription : gostr; GeoIPEnabled : bool;
  TorStatus : option StatusProvider; I2PStatus : option StatusProvider;
  PendingRestart : option (bool * list gostr);
  (* whether the ping succeeds *) DB : option bool; CachePing : option bool; Scheduler_ : option unit;
  DiskPath : gostr; (* the used percentage each call reports *) DiskUsage : option (nat -> gostr -> option Z);
  Stats : option (Z * Z * Z); MaintenanceActive : option bool; shuttingDown : bool }.
Definition NewHealthHandler (version commitID buildDate mode : gostr) (startTime : Z) : HealthHandler :=
  mkHealth (if version =s [] then str "dev" else version) commitID buildDate (if mode =s [] then str "production" else mode) startTime
    [] [] [] false None None None None None None [] None None None false.
Definition MarkShuttingDown (h : HealthHandler) : HealthHandler :=
  mkHealth (hh_Version h) (hh_CommitID h) (hh_BuildDate h) (hh_Mode h) (StartTime h) (ProjectName h) (ProjectTagline h) (ProjectDescription h) (GeoIPEnabled h)
    (TorStatus h) (I2PStatus h) (PendingRestart h) (DB h) (CachePing h) (Scheduler_ h) (DiskPath h) (DiskUsage h) (Stats h) (MaintenanceActive h) true.

(** ** Uptime *)

(** [int(f)] for a float in range, and [float64(n)]. *)
Definition truncate (f : spec_float) : Z :=
  match f with
  | S754_finite s m e => let a := if 0 <=? e then Z.pos m * 2 ^ e else Z.pos m / 2 ^ (- e) in if s then - a else a
  | _ => 0
  end.
Definition of_int (n : Z) : spec_float := binary_normalize 53 1024 n 0 false.
(** [Duration.Hours] and [Duration.Minutes]: the whole units and the fraction, in floats. *)
Definition in_units (unit d : Z) : spec_float := SFadd 53 1024 (of_int (Z.quot d unit)) (SFdiv 53 1024 (of_int (Z.rem d unit)) (of_int unit)).
Definition formatUptime (d : Z) : gostr :=
  let h := truncate (in_units 3600000000000 d) in
  let days := Z.quot h 24 in let hours := Z.rem h 24 in
  let minutes := Z.rem (truncate (in_units 60000000000 d)) 60 in
  if 0 <? days then Itoa days ++ str "d " ++ Itoa hours ++ str "h " ++ Itoa minutes ++ str "m"
  else if 0 <? hours then Itoa hours ++ str "h " ++ Itoa minutes ++ str "m"
  else Itoa minutes ++ str "m".

(** ** The probes *)

Definition ok : gostr := str "ok".
Definition error : gostr := str "error".
Definition ping_text (p : option bool) : gostr := match p with Some false => error | _ => ok end.
Definition checkDatabase (h : HealthHandler) : gostr := ping_text (DB h).
Definition checkCache (h : HealthHandler) : gostr := ping_text (CachePing h).
Definition checkScheduler (h : HealthHandler) : gostr := ok.
Definition diskFreeErrorPercent : Z := 10.
Definition diskFreeDegradedPercent : Z := 20.
(** The free percentage a call finds, where it can be probed. *)
Definition disk_free (h : HealthHandler) (call : nat) : option Z :=
  match DiskUsage h with
  | Some usage => if DiskPath h =s [] then None else (fun usedPercent => 100 - usedPercent) <$> usage call (DiskPath h)
  | None => None
  end.
Definition checkDisk (h : HealthHandler) : gostr :=
  match disk_free h 0 with Some freePercent => if freePercent <? diskFreeErrorPercent then error else ok | None => ok end.
Definition diskDegraded (h : HealthHandler) : bool :=
  match disk_free h 1 with Some freePercent => freePercent <? diskFreeDegradedPercent | None => false end.
Definition check_provider (p : option StatusProvider) : gostr :=
  match p with
  | Some t => if negb (IsAvailable t 0) then [] else if IsRunning t 0 then ok else error
  | None => []
  end.
Definition checkTor (h : HealthHandler) : gostr := check_provider (TorStatus h).
Definition checkI2P (h : HealthHandler) : gostr := check_provider (I2PStatus h).

Record ChecksInfo := { Database : gostr; Cache_ : gostr; Disk : gostr; Scheduler : gostr; Tor : gostr; I2P : gostr }.
Definition getOverallStatus (checks : ChecksInfo) (degraded : bool) : gostr :=
  if (Database checks =s error) || (Cache_ checks =s error) || (Disk checks =s error) || (Scheduler checks =s error) then statusUnhealthy
  else if degraded || (Tor checks =s error) || (I2P checks =s error) then statusDegraded else statusHealthy.
Definition i2pProvider (p : StatusProvider) : gostr :=
  match ProviderName p with Some name => if name =s [] then i2pProviderNone else name | None => i2pProviderNone end.

(** ** The report *)

Record TorInfo := { t_Enabled : bool; t_Running : bool; t_Status : gostr; t_Hostname : gostr }.
Record I2PInfo := { i_Enabled : bool; i_Running : bool; i_Status : gostr; i_Hostname : gostr; i_Provider : gostr }.
Record HealthResponse := {
  Project_Name : gostr; Project_Tagline : gostr; Project_Description : gostr; h_Status : gostr; h_PendingRestart : bool; RestartReason : list gostr;
  h_Version : gostr; GoVersion : gostr; Build_Commit : gostr; Build_Date : gostr; Uptime : gostr; h_Mode : gostr; Timestamp : Time;
  Features_Tor : TorInfo; Features_I2P : I2PInfo; Features_GeoIP : bool; Checks : ChecksInfo; RequestsTotal : Z; Requests24h : Z; ActiveConns : Z }.
Definition the_checks (h : HealthHandler) : ChecksInfo :=
  {| Database := checkDatabase h; Cache_ := checkCache h; Disk := checkDisk h; Scheduler := checkScheduler h; Tor := checkTor h; I2P := checkI2P h |}.
Definition tor_info (p : option StatusProvider) : TorInfo :=
  match p with
  | Some t => if IsAvailable t 1 then {| t_Enabled := true; t_Running := IsRunning t 1; t_Status := Status t; t_Hostname := GetHostname t |}
              else {| t_Enabled := false; t_Running := false; t_Status := str "disabled"; t_Hostname := [] |}
  | None => {| t_Enabled := false; t_Running := false; t_Status := str "disabled"; t_Hostname := [] |}
  end.
Definition i2p_info (p : option StatusProvider) : I2PInfo :=
  let disabled := {| i_Enabled := false; i_Running := false; i_Status := str "disabled"; i_Hostname := []; i_Provider := i2pProviderNone |} in
  match p with
  | Some t => if IsAvailable t 1
              then {| i_Enabled := true; i_Running := IsRunning t 1; i_Status := Status t; i_Hostname := GetHostname t; i_Provider := i2pProvider t |} else disabled
  | None => disabled
  end.
(** The status after the pending restart, maintenance and shutdown. *)
Definition final_status (h : HealthHandler) : gostr :=
  let st := getOverallStatus (the_checks h) (diskDegraded h) in
  let st := match PendingRestart h with Some (true, _) => if st =s statusHealthy then statusRestartRequired else st | _ => st end in
  let st := match MaintenanceActive h with Some true => statusMaintenance | _ => st end in
  if shuttingDown h then statusShuttingDown else st.
Definition buildHealthResponse (goVersion : gostr) (now : Z) (h : HealthHandler) : HealthResponse :=
  let '(total, last24h, active) := default (0, 0, 0) (Stats h) in
  {| Project_Name := ProjectName h; Project_Tagline := ProjectTagline h; Project_Description := ProjectDescription h; h_Status := final_status h;
     h_PendingRestart := match PendingRestart h with Some (pending, _) => pending | None => false end;
     RestartReason := match PendingRestart h with Some (true, settings) => settings | _ => [] end;
     h_Version := hh_Version h; GoVersion := goVersion; Build_Commit := hh_CommitID h; Build_Date := hh_BuildDate h;
     Uptime := formatUptime (now - StartTime h); h_Mode := hh_Mode h; Timestamp := mkTime now 0;
     Features_Tor := tor_info (TorStatus h); Features_I2P := i2p_info (I2PStatus h); Features_GeoIP := GeoIPEnabled h; Checks := the_checks h;
     RequestsTotal := total; Requests24h := last24h; ActiveConns := active |}.
(** [HealthSnapshot]: nothing stands for a nil handler. *)
Definition empty_checks : ChecksInfo := {| Database := []; Cache_ := []; Disk := []; Scheduler := []; Tor := []; I2P := [] |}.
Definition zero_time : Time := mkTime (-62135596800 * Second) 0.
Definition HealthSnapshot (goVersion : gostr) (now : Z) (h : option HealthHandler) : HealthResponse :=
  match h with
  | Some h => buildHealthResponse goVersion now h
  | None => {| Project_Name := []; Project_Tagline := []; Project_Description := []; h_Status := statusUnhealthy; h_PendingRestart := false; RestartReason := [];
               h_Version := []; GoVersion := []; Build_Commit := []; Build_Date := []; Uptime := []; h_Mode := []; Timestamp := zero_time;
               Features_Tor := {| t_Enabled := false; t_Running := false; t_Status := []; t_Hostname := [] |};
               Features_I2P := {| i_Enabled := false; i_Running := false; i_Status := []; i_Hostname := []; i_Provider := [] |}; Features_GeoIP := false;
               Checks := empty_checks; RequestsTotal := 0; Requests24h := 0; ActiveConns := 0 |}
  end.

(** ** Formats *)

#[local] Set Warnings "-register-all".
Inductive hdoc := HString (s : gostr) | HBool (b : bool) | HInt (n : Z) | HTime (t : Time) | HList (l : list gostr) | HObj (fields : list (gostr * hdoc)).
Definition field (name : string) (v : hdoc) : gostr * hdoc := (str name, v).
Definition omitted (name : string) (s : gostr) : list (gostr * hdoc) := if s =s [] then [] else [field name (HString s)].
(** The JSON document, with the fields that are omitted when empty. *)
Definition health_doc (h : HealthResponse) : hdoc :=
  HObj ([field "project" (HObj [field "name" (HString (Project_Name h)); field "tagline" (HString (Project_Tagline h)); field "description" (HString (Project_Description h))]);
         field "status" (HString (h_Status h))] ++
        (if h_PendingRestart h then [field "pending_restart" (HBool true)] else []) ++
        (if bool_decide (RestartReason h = []) then [] else [field "restart_reason" (HList (RestartReason h))]) ++
        [field "version" (HString (h_Version h)); field "go_version" (HString (GoVersion h));
         field "build" (HObj [field "commit" (HString (Build_Commit h)); field "date" (HString (Build_Date h))]);
         field "uptime" (HString (Uptime h)); field "mode" (HString (h_Mode h)); field "timestamp" (HTime (Timestamp h));
         field "features" (HObj [
           field "tor" (HObj [field "enabled" (HBool (t_Enabled (Features_Tor h))); field "running" (HBool (t_Running (Features_Tor h)));
                              field "status" (HString (t_Status (Features_Tor h))); field "hostname" (HString (t_Hostname (Features_Tor h)))]);
           field "i2p" (HObj [field "enabled" (HBool (i_Enabled (Features_I2P h))); field "running" (HBool (i_Running (Features_I2P h)));
                              field "status" (HString (i_Status (Features_I2P h))); field "hostname" (HString (i_Hostname (Features_I2P h)));
                              field "provider" (HString (i_Provider (Features_I2P h)))]);
           field "geoip" (HBool (Features_GeoIP h))]);
         field "checks" (HObj ([field "database" (HString (Database (Checks h))); field "cache" (HString (Cache_ (Checks h))); field "disk" (HString (Disk (Checks h)));
                                field "scheduler" (HString (Scheduler (Checks h)))] ++ omitted "tor" (Tor (Checks h)) ++ omitted "i2p" (I2P (Checks h))));
         field "stats" (HObj [field "requests_total" (HInt (RequestsTotal h)); field "requests_24h" (HInt (Requests24h h)); field "active_connections" (HInt (ActiveConns h))])]).
Definition printed_bool (b : bool) : gostr := if b then str "true" else str "false".
Definition line (name : string) (v : gostr) : gostr * gostr := (str name, v).
(** The lines of the text format. *)
Definition health_lines (h : HealthResponse) : list (gostr * gostr) :=
  [line "project.name" (Project_Name h); line "project.tagline" (Project_Tagline h); line "project.description" (Project_Description h);
   line "status" (h_Status h); line "version" (h_Version h); line "go_version" (GoVersion h); line "build.commit" (Build_Commit h); line "build.date" (Build_Date h);
   line "uptime" (Uptime h); line "mode" (h_Mode h); line "timestamp" (RFC3339 (Timestamp h));
   line "features.tor.enabled" (printed_bool (t_Enabled (Features_Tor h))); line "features.tor.running" (printed_bool (t_Running (Features_Tor h)));
   line "features.tor.status" (t_Status (Features_Tor h)); line "features.tor.hostname" (t_Hostname (Features_Tor h));
   line "features.i2p.enabled" (printed_bool (i_Enabled (Features_I2P h))); line "features.i2p.running" (printed_bool (i_Running (Features_I2P h)));
   line "features.i2p.status" (i_Status (Features_I2P h)); line "features.i2p.hostname" (i_Hostname (Features_I2P h)); line "features.i2p.provider" (i_Provider (Features_I2P h));
   line "features.geoip" (printed_bool (Features_GeoIP h)); line "checks.database" (Database (Checks h)); line "checks.cache" (Cache_ (Checks h));
   line "checks.disk" (Disk (Checks h)); line "checks.scheduler" (Scheduler (Checks h))] ++
  (if Tor (Checks h) =s [] then [] else [line "checks.tor" (Tor (Checks h))]) ++ (if I2P (Checks h) =s [] then [] else [line "checks.i2p" (I2P (Checks h))]) ++
  [line "stats.requests_total" (Itoa (RequestsTotal h)); line "stats.requests_24h" (Itoa (Requests24h h)); line "stats.active_connections" (Itoa (ActiveConns h))].
Definition newline : ascii := "010"%char.
Definition health_text (h : HealthResponse) : gostr := health_lines h ≫= fun l => l.1 ++ str ": " ++ l.2 ++ [newline].
(** The map of the GraphQL query. *)
Definition healthResponseToMap (h : HealthResponse) : hdoc :=
  HObj [field "project" (HObj [field "name" (HString (Project_Name h)); field "tagline" (HString (Project_Tagline h)); field "description" (HString (Project_Description h))]);
        field "status" (HString (h_Status h)); field "pendingRestart" (HBool (h_PendingRestart h)); field "restartReason" (HList (RestartReason h));
        field "version" (HString (h_Version h)); field "goVersion" (HString (GoVersion h));
        field "build" (HObj [field "commit" (HString (Build_Commit h)); field "date" (HString (Build_Date h))]);
        field "uptime" (HString (Uptime h)); field "mode" (HString (h_Mode h)); field "timestamp" (HString (RFC3339 (Timestamp h)));
        field "features" (HObj [
          field "tor" (HObj [field "enabled" (HBool (t_Enabled (Features_Tor h))); field "running" (HBool (t_Running (Features_Tor h)));
                             field "status" (HString (t_Status (Features_Tor h))); field "hostname" (HString (t_Hostname (Features_Tor h)))]);
          field "i2p" (HObj [field "enabled" (HBool (i_Enabled (Features_I2P h))); field "running" (HBool (i_Running (Features_I2P h)));
                             field "status" (HString (i_Status (Features_I2P h))); field "hostname" (HString (i_Hostname (Features_I2P h)));
                             field "provider" (HString (i_Provider (Features_I2P h)))]);
          field "geoip" (HBool (Features_GeoIP h))]);
        field "checks" (HObj [field "database" (HString (Database (Checks h))); field "cache" (HString (Cache_ (Checks h))); field "disk" (HString (Disk (Checks h)));
                              field "scheduler" (HString (Scheduler (Checks h))); field "tor" (HString (Tor (Checks h))); field "i2p" (HString (I2P (Checks h)))]);
        field "stats" (HObj [field "requestsTotal" (HInt (RequestsTotal h)); field "requests24h" (HInt (Requests24h h)); field "activeConnections" (HInt (ActiveConns h))])].

(** ** The handlers *)

(** The page without templates. *)
Definition fallback_page (lang dir : gostr) (h : HealthResponse) : gostr :=
  let torRow := if Tor (Checks h) =s [] then [] else str "<li><strong>checks.tor:</strong> " ++ Tor (Checks h) ++ str "</li>" in
  let i2pRow := if I2P (Checks h) =s [] then [] else str "<li><strong>checks.i2p:</strong> " ++ I2P (Checks h) ++ str "</li>" in
  [
    str "<!DOCTYPE html>";
    str "<html lang=" ++ dquote ++ lang ++ dquote ++ str " dir=" ++ dquote ++ dir ++ dquote ++ str ">";
    str "  <head>";
    str "    <meta charset=" ++ dquote ++ str "UTF-8" ++ dquote ++ str ">";
    str "    <meta name=" ++ dquote ++ str "viewport" ++ dquote ++ str " content=" ++ dquote ++ str "width=device-width, initial-scale=1.0" ++ dquote ++ str ">";
    str "    <meta http-equiv=" ++ dquote ++ str "refresh" ++ dquote ++ str " content=" ++ dquote ++ str "30" ++ dquote ++ str ">";
    str "    <title>" ++ Project_Name h ++ str " - Health Status</title>";
    str "  </head>";
    str "  <body>";
    str "    <header>";
    str "      <h1>" ++ Project_Name h ++ str "</h1>";
    str "      <p class=" ++ dquote ++ str "tagline" ++ dquote ++ str ">" ++ Project_Tagline h ++ str "</p>";
    str "      <p>" ++ Project_Description h ++ str "</p>";
    str "    </header>";
    str "    <main>";
    str "      <p class=" ++ dquote ++ str "status-banner" ++ dquote ++ str "><strong>status:</strong> " ++ h_Status h ++ str "</p>";
    str "      <ul>";
    str "        <li><strong>version:</strong> " ++ h_Version h ++ str "</li>";
    str "        <li><strong>go_version:</strong> " ++ GoVersion h ++ str "</li>";
    str "        <li><strong>build.commit:</strong> " ++ Build_Commit h ++ str "</li>";
    str "        <li><strong>build.date:</strong> " ++ Build_Date h ++ str "</li>";
    str "        <li><strong>uptime:</strong> " ++ Uptime h ++ str "</li>";
    str "        <li><strong>mode:</strong> " ++ h_Mode h ++ str "</li>";
    str "        <li><strong>timestamp:</strong> <time datetime=" ++ dquote ++ RFC3339 (Timestamp h) ++ dquote ++ str ">" ++ RFC3339 (Timestamp h) ++ str "</time></li>";
    str "        <li><strong>features.tor.enabled:</strong> " ++ printed_bool (t_Enabled (Features_Tor h)) ++ str "</li>";
    str "        <li><strong>features.tor.running:</strong> " ++ printed_bool (t_Running (Features_Tor h)) ++ str "</li>";
    str "        <li><strong>features.tor.status:</strong> " ++ t_Status (Features_Tor h) ++ str "</li>";
    str "        <li><strong>features.tor.hostname:</strong> " ++ t_Hostname (Features_Tor h) ++ str "</li>";
    str "        <li><strong>features.i2p.enabled:</strong> " ++ printed_bool (i_Enabled (Features_I2P h)) ++ str "</li>";
    str "        <li><strong>features.i2p.running:</strong> " ++ printed_bool (i_Running (Features_I2P h)) ++ str "</li>";
    str "        <li><strong>features.i2p.status:</strong> " ++ i_Status (Features_I2P h) ++ str "</li>";
    str "        <li><strong>features.i2p.hostname:</strong> " ++ i_Hostname (Features_I2P h) ++ str "</li>";
    str "        <li><strong>features.i2p.provider:</strong> " ++ i_Provider (Features_I2P h) ++ str "</li>";
    str "        <li><strong>features.geoip:</strong> " ++ printed_bool (Features_GeoIP h) ++ str "</li>";
    str "        <li><strong>checks.database:</strong> " ++ Database (Checks h) ++ str "</li>";
    str "        <li><strong>checks.cache:</strong> " ++ Cache_ (Checks h) ++ str "</li>";
    str "        <li><strong>checks.disk:</strong> " ++ Disk (Checks h) ++ str "</li>";
    str "        <li><strong>checks.scheduler:</strong> " ++ Scheduler (Checks h) ++ str "</li>";
    str "        " ++ torRow;
    str "        " ++ i2pRow;
    str "        <li><strong>stats.requests_total:</strong> " ++ Itoa (RequestsTotal h) ++ str "</li>";
    str "        <li><strong>stats.requests_24h:</strong> " ++ Itoa (Requests24h h) ++ str "</li>";
    str "        <li><strong>stats.active_connections:</strong> " ++ Itoa (ActiveConns h) ++ str "</li>";
    str "      </ul>";
    str "      <p>Refreshing every 30s</p>";
    str "    </main>";
    str "  </body>";
    str "</html>"
  ] ≫= fun l : gostr => l ++ [newline].
Inductive houtput := HEff (e : effect) | HDoc (d : hdoc).
(** The parts of the server the page needs: the renderer of the page for the data of every
    page and the report, with the headers it sets. *)
Record pages (P : Type) := { Render : option (request -> P -> HealthResponse -> option (list (gostr * gostr) * gostr)); PageDataFunc : option (request -> P); no_data : P }.
Arguments Render {_}. Arguments PageDataFunc {_}. Arguments no_data {_}.

Section Handlers.
Context `{UnicodeTables} (translator : I18NManager) {P : Type} (pg : pages P).
Definition textMediaType : gostr := str "text/plain".
Definition http_Error (msg : gostr) (code : Z) : list houtput :=
  HEff <$> [SetHeader (str "Content-Type") (str "text/plain; charset=utf-8"); SetHeader (str "X-Content-Type-Options") (str "nosniff"); WriteHeader code; WriteBody (msg ++ [newline])].
Definition StatusText (code : Z) : gostr := if code =? 401 then str "Unauthorized" else if code =? 500 then str "Internal Server Error" else [].
Definition WriteAPIError (code : Z) (errorCode msg : gostr) : list houtput :=
  let msg := if msg =s [] then StatusText code else msg in
  let errorCode := if errorCode =s [] then ErrorCodeForStatus code else errorCode in
  HEff <$> [SetHeader (str "Content-Type") jsonMediaType; WriteHeader code;
            WriteJSON [(str "ok", JBool false); (str "error", JString errorCode); (str "message", JString msg)]; WriteBody [newline]].
(** [json.MarshalIndent] fails for a time whose year has not four digits. *)
Definition writeHealthJSON (r : request) (health : HealthResponse) (code : Z) : list houtput :=
  if bool_decide (four_digit_year (Timestamp health))
  then [HEff (SetHeader (str "Content-Type") jsonMediaType); HEff (WriteHeader code); HDoc (health_doc health); HEff (WriteBody [newline])]
  else WriteAPIError 500 [] (T translator (r_ctx r) (str "errors.server_error")).
Definition writeHealthText (health : HealthResponse) (code : Z) : list houtput :=
  HEff <$> [SetHeader (str "Content-Type") textMediaType; WriteHeader code; WriteBody (health_text health)].
Definition healthWantsText (r : request) : bool :=
  let accept := get r "Accept" in
  if GoStrings.Contains accept (str "text/html") then false else if GoStrings.Contains accept textMediaType then true
  else if HasSuffix (r_URL_Path r) (str ".txt") then true
  else let ua := get r "User-Agent" in if IsTextBrowser ua then false else IsHttpTool ua.
Definition direction_text (d : Direction) : gostr := match d with DirectionLTR => str "ltr" | DirectionRTL => str "rtl" end.
(** [bufferedResponse.flushTo] *)
Definition flushTo (headers : list (gostr * gostr)) (body : gostr) (code : Z) : list houtput :=
  HEff <$> ((fun kv => SetHeader kv.1 kv.2) <$> headers) ++ [WriteHeader code; WriteBody body].
Definition HealthzHandler (goVersion : gostr) (now : Z) (h : HealthHandler) (r : request) : list houtput :=
  let accept := get r "Accept" in
  let health := buildHealthResponse goVersion now h in
  let code := healthStatusCode (h_Status health) in
  if GoStrings.Contains accept jsonMediaType then writeHealthJSON r health code
  else if IsOurCliClient (get r "User-Agent") then writeHealthJSON r health code
  else if healthWantsText r then writeHealthText health code
  else match Render pg with
       | Some render =>
           let pd := match PageDataFunc pg with Some f => f r | None => no_data pg end in
           match render r pd health with
           | None => http_Error (T translator (r_ctx r) (str "errors.server_error")) 500
           | Some (headers, body) => flushTo headers body code
           end
       | None =>
           let fallbackLang := DetectLocale r in
           HEff <$> [SetHeader (str "Content-Type") (str "text/html; charset=utf-8"); WriteHeader code;
                     WriteBody (fallback_page fallbackLang (direction_text (LocaleDirection fallbackLang)) health)]
       end.
Definition APIV1HealthzHandler (goVersion : gostr) (now : Z) (h : HealthHandler) (r : request) : list houtput :=
  let health := buildHealthResponse goVersion now h in
  let code := healthStatusCode (h_Status health) in
  if apiHealthWantsText r then writeHealthText health code else writeHealthJSON r health code.
End Handlers.

(** ** The status and its code *)

(** A subsystem the server cannot do without has failed. *)
Definition core_failure (h : HealthHandler) : Prop :=
  DB h = Some false \/ CachePing h = Some false \/ exists free, disk_free h 0 = Some free /\ free < diskFreeErrorPercent.
Definition degraded_by (h : HealthHandler) : Prop := diskDegraded h = true \/ checkTor h = error \/ checkI2P h = error.
Lemma ping_text_error p : ping_text p =s error = bool_decide (p = Some false).
Proof. by destruct p as [[]|]. Qed.
Lemma checkDisk_error h : (checkDisk h =s error) = true <-> exists free, disk_free h 0 = Some free /\ free < diskFreeErrorPercent.
Proof.
  unfold checkDisk. destruct (disk_free h 0) as [free|]; [|split; [by rewrite bool_decide_eq_true|by intros (? & ? & _)]].
  destruct (Z.ltb_spec free diskFreeErrorPercent) as [Hlt|Hge]; split; try done; [by exists free|]. intros (? & [= <-] & ?). lia.
Qed.
Lemma overall_unhealthy h : getOverallStatus (the_checks h) (diskDegraded h) = statusUnhealthy <-> core_failure h.
Proof.
  unfold getOverallStatus, core_failure. rewrite <- checkDisk_error. cbn [the_checks Database Cache_ Disk Scheduler Tor I2P]. unfold checkDatabase, checkCache. rewrite !ping_text_error.
  change (checkScheduler h =s error) with false. rewrite orb_false_r. destruct (_ || _ || _) eqn:E.
  - split; [|done]. intros _. apply orb_true_iff in E as [[E%bool_decide_eq_true|E%bool_decide_eq_true]%orb_true_iff|E]; auto.
  - apply orb_false_iff in E as [[E1%bool_decide_eq_false E2%bool_decide_eq_false]%orb_false_iff E3]. rewrite E3. split; [by destruct (_ || _ || _)|]. intros [?|[?|?]]; done.
Qed.
Lemma overall_degraded h : ~ core_failure h -> getOverallStatus (the_checks h) (diskDegraded h) = if bool_decide (diskDegraded h = true) || (checkTor h =s error) || (checkI2P h =s error) then statusDegraded else statusHealthy.
Proof.
  intros Hn. rewrite <- overall_unhealthy in Hn. unfold getOverallStatus in *. cbn [the_checks Tor I2P]. destruct (_ || _ || _ || _); [done|]. by destruct (diskDegraded h).
Qed.
(** The status of a report is decided in one order: a server that drains says so before
    anything else, then one in maintenance; then a failure of the database, the cache or
    the disk is unhealthy; then low disk space or a failed overlay network is degraded;
    and only a server that would be healthy asks for a restart. *)
Theorem health_precedence goVersion now h :
  let st := h_Status (buildHealthResponse goVersion now h) in
  (shuttingDown h = true -> st = statusShuttingDown) /\
  (shuttingDown h = false -> MaintenanceActive h = Some true -> st = statusMaintenance) /\
  (shuttingDown h = false -> MaintenanceActive h <> Some true ->
     (core_failure h -> st = statusUnhealthy) /\
     (~ core_failure h -> degraded_by h -> st = statusDegraded) /\
     (~ core_failure h -> ~ degraded_by h -> st = match PendingRestart h with Some (true, _) => statusRestartRequired | _ => statusHealthy end)).
Proof.
  cbn zeta. assert (h_Status (buildHealthResponse goVersion now h) = final_status h) as ->. { unfold buildHealthResponse. by destruct (default _ (Stats h)) as [[? ?] ?]. }
  unfold final_status, degraded_by. split; [by intros ->|]. split; [by intros -> ->|]. intros -> Hm. assert (forall x, match MaintenanceActive h with Some true => statusMaintenance | _ => x end = x) as Hx by (intros x; by destruct (MaintenanceActive h) as [[]|]).
  split_and!.
  - intros Hc%overall_unhealthy. rewrite Hc, Hx. by destruct (PendingRestart h) as [[[] ?]|].
  - intros Hc Hd. rewrite (overall_degraded h Hc), Hx. replace (_ || _ || _) with true; [by destruct (PendingRestart h) as [[[] ?]|]|].
    symmetry. rewrite !orb_true_iff, !bool_decide_eq_true. tauto.
  - intros Hc Hd. rewrite (overall_degraded h Hc), Hx. replace (_ || _ || _) with false; [by destruct (PendingRestart h) as [[[] ?]|]|].
    symmetry. rewrite !orb_false_iff, !bool_decide_eq_false. tauto.
Qed.
(** A failure as the comments on the fields document it: a missing database or scheduler
    is one, a missing cache or disk probe is not.  The code agrees where both are wired. *)
Definition documented_failure (h : HealthHandler) : Prop :=
  DB h <> Some true \/ Scheduler_ h = None \/ CachePing h = Some false \/ exists free, disk_free h 0 = Some free /\ free < diskFreeErrorPercent.
Definition wired (h : HealthHandler) : Prop := is_Some (DB h) /\ is_Some (Scheduler_ h).
Lemma wired_failure h : wired h -> documented_failure h <-> core_failure h.
Proof.
  intros [[[] Hd] [[] Hs]]; unfold documented_failure, core_failure; rewrite Hd, Hs; split.
  - intros [?|[?|?]]; [done|done|by right].
  - intros [?|?]; [done|by right; right].
  - by left.
  - by left.
Qed.
(** C38. For a handler with its database and its scheduler wired, a report is sent with
    status 503 exactly when the server drains, is in maintenance, its database or its
    cache does not answer, or less than a tenth of the disk is free; otherwise with 200.
    So an overlay network that is down, a pending restart or a disk between a
    tenth and a fifth free does not make a supervisor restart the server. *)
Theorem health_code_spec goVersion now h :
  wired h ->
  let code := healthStatusCode (h_Status (buildHealthResponse goVersion now h)) in
  (code = 503 <-> shuttingDown h = true \/ MaintenanceActive h = Some true \/ documented_failure h) /\ (code <> 503 -> code = 200).
Proof.
  intros Hw. cbn zeta. rewrite (wired_failure h Hw). split; [|unfold healthStatusCode; by repeat case_match].
  destruct (health_precedence goVersion now h) as (H1 & H2 & H3). cbn zeta in *. set (st := h_Status (buildHealthResponse goVersion now h)) in *.
  destruct (shuttingDown h); [rewrite H1 by done; split; auto|]. destruct (decide (MaintenanceActive h = Some true)) as [Em|Em]; [rewrite H2 by done; split; auto|].
  destruct (H3 eq_refl Em) as (Hu & Hd & Hh). assert (Decision (core_failure h)) as Hdec.
  { destruct (decide (getOverallStatus (the_checks h) (diskDegraded h) = statusUnhealthy)) as [E|E]; [left; by apply overall_unhealthy|right; by rewrite <- overall_unhealthy]. }
  destruct (decide (core_failure h)) as [Hc|Hc]; [rewrite Hu by done; split; auto|]. split; [|intros [?|[?|?]]; done]. intros E. exfalso.
  assert (Decision (degraded_by h)) as Hdd by (unfold degraded_by; solve_decision). destruct (decide (degraded_by h)) as [Hg|Hg]; [by rewrite Hd in E|].
  rewrite Hh in E by done. by destruct (PendingRestart h) as [[[] ?]|].
Qed.
(** A server whose hidden service is down and whose disk is nearly full, before and after
    its database stops answering. *)
Definition down_overlay : StatusProvider := {| IsAvailable := fun _ => true; IsRunning := fun _ => false; Status := str "error"; GetHostname := []; ProviderName := None |}.
Definition tried_handler (db : option bool) : HealthHandler :=
  mkHealth (str "1.0") [] [] (str "production") 0 [] [] [] true (Some down_overlay) None (Some (true, [str "server.port"])) db None (Some tt)
    (str "/data") (Some (fun _ _ => Some 85)) None None false.
Lemma health_code_spec_witness :
  healthStatusCode (h_Status (buildHealthResponse (str "go1.25") 0 (tried_handler (Some true)))) = 200 /\
  healthStatusCode (h_Status (buildHealthResponse (str "go1.25") 0 (tried_handler (Some false)))) = 503.
Proof.
  assert (forall b, wired (tried_handler (Some b))) as Hw by (intros b; split; by eexists).
  split.
  - destruct (health_code_spec (str "go1.25") 0 (tried_handler (Some true)) (Hw true)) as [Hiff Hok]. apply Hok. rewrite Hiff.
    intros [E|[E|[E|[E|[E|(free & [= <-] & E)]]]]]; [discriminate E|discriminate E|by apply E|discriminate E|discriminate E|vm_compute in E; discriminate E].
  - destruct (health_code_spec (str "go1.25") 0 (tried_handler (Some false)) (Hw false)) as [Hiff _]. apply Hiff. right. right. left. discriminate.
Defined.
(** Without a database the same server reports itself fit to serve. *)
Lemma missing_database_reported_ok :
  checkDatabase (tried_handler None) = ok /\ healthStatusCode (h_Status (buildHealthResponse (str "go1.25") 0 (tried_handler None))) = 200.
Proof. split; vm_compute; reflexivity. Qed.

(** ** Formats *)

Definition sent (outs : list houtput) : list Z := omap (fun o => match o with HEff (WriteHeader c) => Some c | _ => None end) outs.
Definition page_fails {P} (pg : pages P) (r : request) (health : HealthResponse) : Prop :=
  exists render, Render pg = Some render /\ render r (match PageDataFunc pg with Some f => f r | None => no_data pg end) health = None.
Lemma sent_json `{UnicodeTables} translator r health code : four_digit_year (Timestamp health) -> sent (writeHealthJSON translator r health code) = [code].
Proof. intros Hy. unfold writeHealthJSON. by rewrite bool_decide_eq_true_2. Qed.
Lemma sent_headers (headers : list (gostr * gostr)) body code : sent (flushTo headers body code) = [code].
Proof. unfold flushTo, sent. induction headers as [|kv hs IH]; [done|]. exact IH. Qed.
(** Both health routes answer every request with one status line, and in every format it
    is the one of the report; only a page that cannot be rendered is a server error. *)
Theorem health_code_sent `{UnicodeTables} translator {P} (pg : pages P) goVersion now h r :
  four_digit_year (mkTime now 0) ->
  let health := buildHealthResponse goVersion now h in let code := healthStatusCode (h_Status health) in
  sent (APIV1HealthzHandler translator goVersion now h r) = [code] /\
  (sent (HealthzHandler translator pg goVersion now h r) = [code] \/ page_fails pg r health /\ sent (HealthzHandler translator pg goVersion now h r) = [500]).
Proof.
  intros Hy. cbn zeta. set (health := buildHealthResponse goVersion now h). assert (four_digit_year (Timestamp health)) as Ht.
  { unfold health, buildHealthResponse. by destruct (default _ (Stats h)) as [[? ?] ?]. }
  unfold APIV1HealthzHandler, HealthzHandler. cbn zeta. fold health. split; [destruct (apiHealthWantsText r); [done|by apply sent_json]|].
  destruct (GoStrings.Contains _ jsonMediaType); [left; by apply sent_json|]. destruct (IsOurCliClient _); [left; by apply sent_json|]. destruct (healthWantsText r); [by left|].
  destruct (Render pg) as [render|] eqn:Er; [|by left]. destruct (render r _ health) as [[headers body]|] eqn:Ep; [left; apply sent_headers|right].
  split; [|done]. exists render. by split.
Qed.

(** The leaves of a document, named by their path, as the text format prints them. *)
Definition path_join (path k : gostr) : gostr := if path =s [] then k else path ++ str "." ++ k.
Fixpoint leaves (path : gostr) (d : hdoc) : list (gostr * gostr) :=
  match d with
  | HString s => [(path, s)]
  | HBool b => [(path, printed_bool b)]
  | HInt n => [(path, Itoa n)]
  | HTime t => [(path, RFC3339 t)]
  | HList l => [(path, Join l (str ","))]
  | HObj fields => (fix go fs := match fs with [] => [] | (k, v) :: fs' => leaves (path_join path k) v ++ go fs' end) fields
  end.
Definition restart_fields : list gostr := [str "pending_restart"; str "restart_reason"].
(** The text and the JSON of a report say the same: the lines of the text are the leaves
    of the document, in its order, under the path that leads to them and with the same
    value, but for the fields of a pending restart, which the text leaves out. *)
Theorem text_matches_json h : filter (fun l => l.1 ∉ restart_fields) (leaves [] (health_doc h)) = health_lines h.
Proof.
  unfold health_doc, health_lines, omitted. destruct (h_PendingRestart h), (bool_decide (RestartReason h = [])), (Tor (Checks h) =s []), (I2P (Checks h) =s []); reflexivity.
Qed.
(** Field names of JSON as GraphQL writes them. *)
Fixpoint camel (s : gostr) : gostr :=
  match s with
  | [] => []
  | "_"%char :: c :: s' => upper_ascii c :: camel s'
  | c :: s' => c :: camel s'
  end.
(** The GraphQL query and the JSON document say the same: every leaf of the document is a
    leaf of the map, under the same path in camel case and with the same value. *)
Theorem graphql_health_agrees h : Forall (fun l => (camel l.1, l.2) ∈ leaves [] (healthResponseToMap h)) (leaves [] (health_doc h)).
Proof.
  assert (forall l l' : list (gostr * gostr), ((fun l => (camel l.1, l.2)) <$> l) = l' -> sublist l' (leaves [] (healthResponseToMap h)) -> Forall (fun l => (camel l.1, l.2) ∈ leaves [] (healthResponseToMap h)) l) as Hsub.
  { intros l l' <- Hin. apply Forall_forall. intros x Hx. eapply elem_of_sublist; [|exact Hin]. apply list_elem_of_fmap. by exists x. }
  unfold health_doc, omitted. destruct (h_PendingRestart h) eqn:Ep, (bool_decide (RestartReason h = [])), (Tor (Checks h) =s []), (I2P (Checks h) =s []);
    (eapply Hsub; [reflexivity|]); unfold healthResponseToMap; rewrite Ep; repeat (first [apply sublist_nil | apply sublist_skip | apply sublist_cons]).
Qed.

(** ** At concrete inputs *)

Example uptime_shown : formatUptime (90061 * Second) = str "1d 1h 1m" /\ formatUptime (3599 * Second) = str "59m".
Proof. split; vm_compute; reflexivity. Qed.
(** A server whose overlay network is down, at the start of 2024. *)
Definition sample_time : Z := 1704067200 * Second.
Definition sample_handler : HealthHandler :=
  mkHealth (str "1.0") [] [] (str "production") 0 (str "ipgaze") [] [] true (Some {| IsAvailable := fun _ => true; IsRunning := fun _ => false; Status := []; GetHostname := []; ProviderName := None |})
    None None (Some true) None None [] None None None false.
Lemma health_code_sent_witness :
  sent (APIV1HealthzHandler (H := ascii_tables) {| translations := ∅; fallback := str "en" |} (str "go1.24") sample_time sample_handler (bare_request (str "192.0.2.1:80"))) = [200].
Proof.
  assert (four_digit_year (mkTime sample_time 0)) as Hy by decided.
  exact (proj1 (health_code_sent (H := ascii_tables) {| translations := ∅; fallback := str "en" |} {| Render := None; PageDataFunc := None; no_data := tt |} (str "go1.24") sample_time sample_handler
    (bare_request (str "192.0.2.1:80")) Hy)).
Defined.
