(* ===== verification/OpsEndpoints.v ===== *)
(** * Endpoints for machines: metrics, browser reports, client binaries

    [handler/metrics.go] (the guard of the metrics services, their routes, the Loki and
    Grafana documents), the streams of [metrics/logbuffer.go], and of [server/http.go] the
    browser-report endpoint, the list of client binaries the discovery document offers and
    the download of one.  Files, directory listings, the digest and the clock are
    parameters; the Prometheus exposition is a handler of its library. *)
From stdpp Require Import base list gmap strings sorting.
From Stdlib Require Import ZArith Lia.
From S2P Require Import Prelude GoStrings GoUtf8 GoPath GoTime GoNet Http Netutil I18n AccessControl RateLimit Telemetry Negotiate LogFormat LogFiles PidFile Geo Endpoints Health.
Local Open Scope Z_scope.
Local Open Scope go_scope.

(** ** Metrics *)

Inductive metrics_service := Prometheus | Grafana | Loki.
Record MetricsConfig := { AllowUnauthenticated : bool; Token : metrics_service -> gostr; RootEnabled : bool; MaxEntries : Z; MaxAge : gostr }.
Definition metricsAuthFloor : Z := 100 * 1000000.
(** [padMetricsAuth]: how long it sleeps, [elapsed] after the start. *)
Definition padMetricsAuth (elapsed : Z) : Z := let remaining := metricsAuthFloor - elapsed in if 0 <? remaining then remaining else 0.
(** The guarded handler runs, or the request is refused after a sleep. *)
Inductive guarded := Served | Refused (slept : Z) (reply : list houtput).
Section Metrics.
Context `{UnicodeTables} (translator : I18NManager).
Definition MetricsAuth (cfg : MetricsConfig) (token : gostr) (elapsed : Z) (r : request) : guarded :=
  if AllowUnauthenticated cfg then Served
  else if token =s [] then Refused (padMetricsAuth elapsed) [HEff (WriteHeader 403)]
  else
    let auth := get r "Authorization" in
    let want := str "Bearer " ++ token in
    if negb (Nat.eqb (length auth) (length want)) || (auth <>s want) then
      Refused (padMetricsAuth elapsed) (WriteAPIError 401 [] (T translator (set_i18n_lang (r_ctx r) (DetectLocale r)) (str "errors.unauthorized")))
    else Served.
(** [RegisterMetricsRoutes]: the patterns and the service each is mounted for. *)
Definition mount (prefix : gostr) : list (gostr * metrics_service) :=
  [(prefix, Prometheus); (prefix ++ str "/prometheus", Prometheus); (prefix ++ str "/grafana", Grafana); (prefix ++ str "/loki", Loki)].
Definition metricsAPIVersion : gostr := str "v1".
Definition RegisterMetricsRoutes (cfg : MetricsConfig) : list (gostr * metrics_service) :=
  mount (str "/server/metrics") ++ mount (str "/api/" ++ metricsAPIVersion ++ str "/server/metrics") ++ mount (str "/api/metrics") ++
  (if RootEnabled cfg then mount (str "/metrics") else []).
Definition metrics_route (cfg : MetricsConfig) (path : gostr) (elapsed : Z) (r : request) : option (metrics_service * guarded) :=
  (fun kv => (kv.2.2, MetricsAuth cfg (Token cfg kv.2.2) elapsed r)) <$> list_find (fun kv => kv.1 = path) (RegisterMetricsRoutes cfg).
(** The records [logDisabledMetricsServices] leaves, in order. *)
Definition logDisabledMetricsServices (cfg : MetricsConfig) (now : Z) (b : LogBuffer.buffer) : LogBuffer.buffer :=
  if AllowUnauthenticated cfg then b
  else
    let names := omap (fun p => if Token cfg p.2 =s [] then Some (str p.1) else None) [("prometheus"%string, Prometheus); ("grafana"%string, Grafana); ("loki"%string, Loki)] in
    fold_left (fun b name => LogBuffer.Record_entry now (str "warn") (str "metrics service disabled: no bearer token configured") [(str "service", name)] b) (merge_sort str_le names) b.
End Metrics.

(** [LogBuffer.Streams]: a stream per level, with the time and the line of its entries. *)
Definition Streams (entries : list LogBuffer.LogEntry) : list (gostr * list (gostr * gostr)) :=
  let levels := merge_sort str_le (remove_dups (LogBuffer.Level <$> entries)) in
  (fun level => (level, (fun e => (Itoa (LogBuffer.Time e), LogBuffer.Line e)) <$> filter (fun e => LogBuffer.Level e = level) entries)) <$> levels.
(** [LokiStreamsHandler], over [time.ParseDuration]. *)
Definition LokiStreamsHandler (ParseDuration : gostr -> option Z) (cfg : MetricsConfig) (now : Z) (b : LogBuffer.buffer) : list (gostr * list (gostr * gostr)) :=
  let maxAge := match ParseDuration (MaxAge cfg) with Some d => if d <=? 0 then 3600 * Second else d | None => 3600 * Second end in
  let maxEntries := if MaxEntries cfg <=? 0 then 1000 else MaxEntries cfg in
  Streams (LogBuffer.Recent now maxEntries maxAge b).

Record grafanaPanelSpec := { title : gostr; expr : gostr; legend : gostr; unit_ : gostr }.
Definition panel (t e l u : gostr) : grafanaPanelSpec := {| title := t; expr := e; legend := l; unit_ := u |}.
Definition grafanaPanelSpecs (prefix : gostr) : list grafanaPanelSpec :=
  let rate5 (metric by_ : string) := str "sum(rate(" ++ prefix ++ str metric ++ str "[5m]))" ++ str by_ in
  [panel (str "HTTP Request Rate") (rate5 "_http_requests_total" " by (status)") (str "{{status}}") (str "reqps");
   panel (str "HTTP Request Duration (p95)") (str "histogram_quantile(0.95, " ++ rate5 "_http_request_duration_seconds_bucket" " by (le, path))") (str "{{path}}") (str "s");
   panel (str "HTTP Request Size") (rate5 "_http_request_size_bytes_sum" "") (str "request bytes/s") (str "Bps");
   panel (str "Database Queries") (rate5 "_db_queries_total" " by (operation)") (str "{{operation}}") (str "ops");
   panel (str "Database Connections Open") (prefix ++ str "_db_connections_open") (str "open connections") (str "short");
   panel (str "Cache Hit Ratio") (rate5 "_cache_hits_total" "" ++ str " / clamp_min(" ++ rate5 "_cache_hits_total" "" ++ str " + " ++ rate5 "_cache_misses_total" "" ++ str ", 1)") (str "hit ratio") (str "percentunit");
   panel (str "Scheduler Task Runs") (rate5 "_scheduler_tasks_total" " by (task)") (str "{{task}}") (str "ops");
   panel (str "Scheduler Task Failures") (str "sum(rate(" ++ prefix ++ str "_scheduler_tasks_total{status=" ++ Negotiate.dquote ++ str "error" ++ Negotiate.dquote ++ str "}[5m])) by (task)") (str "{{task}}") (str "ops");
   panel (str "System CPU Usage") (prefix ++ str "_system_cpu_usage_percent") (str "cpu") (str "percent");
   panel (str "System Memory Used") (prefix ++ str "_system_memory_used_bytes") (str "memory used") (str "bytes");
   panel (str "System Disk Usage") (prefix ++ str "_system_disk_usage_percent") (str "{{path}}") (str "percent");
   panel (str "Goroutines") (prefix ++ str "_go_goroutines") (str "goroutines") (str "short");
   panel (str "Application Uptime") (prefix ++ str "_app_uptime_seconds") (str "uptime") (str "s");
   panel (str "API Calls") (str "sum(rate(" ++ prefix ++ str "_http_requests_total{path=~" ++ Negotiate.dquote ++ str "/api/.*" ++ Negotiate.dquote ++ str "}[5m]))") (str "api calls/s") (str "reqps")].
(** A panel of the dashboard: its number and its place on the grid of 24 columns. *)
Record grafanaPanel := { p_ID : Z; p_H : Z; p_W : Z; p_X : Z; p_Y : Z; p_spec : grafanaPanelSpec }.
Definition dashboard_panels (appName : gostr) : list grafanaPanel :=
  imap (fun i spec => let i := Z.of_nat i in {| p_ID := i + 1; p_H := 8; p_W := 12; p_X := (i mod 2) * 12; p_Y := (i / 2) * 8; p_spec := spec |}) (grafanaPanelSpecs appName).

(** ** Browser reports *)

Definition maxReportBodyBytes : nat := Z.to_nat (Z.shiftl 16 10).
Definition securityEventForReport (reportType : gostr) : gostr :=
  if reportType =s str "csp" then str "security.csp_violation" else str "security." ++ reportType ++ str "_report".
Section Reports.
Context `{UnicodeTables} `{TokenBucket} {page_data : Type} (s : Server page_data).
Definition authClientIP (r : request) : gostr := GetClientIdentifier r (Some (getTrust s)).
(** [body] is what the client sends; nothing for a request without a body. *)
Definition reportsHandler (reportType : gostr) (now : Z) (body : option gostr) (r : request) (rrl : option ReportRateLimiter) : option ReportRateLimiter * list effect :=
  let event := securityEventForReport reportType in
  let clientIP := authClientIP r in
  let '(rrl, allowed) := Report_Allow rrl clientIP now in
  if negb allowed then (rrl, [SetHeader (str "Retry-After") (str "60"); WriteHeader 429])
  else
    let body := match body with Some b => take maxReportBodyBytes b | None => [] end in
    (rrl, [WriteSecurity (event ++ str " " ++ sanitizeLogValue body) clientIP; WriteHeader 204]).
End Reports.

(** ** Client binaries *)

(** What opening a file leads to: [StatFails] when it can be read but not inspected. *)
Inductive open_result := NotExist | OpenFails | StatFails (content : gostr) | File (content : gostr).
Record disk := { listing : gostr -> option (list (gostr * bool)); file_at : gostr -> open_result }.
(** [filepath.Join(dataDir, "binaries", name)], component by component. *)
Definition binaries (dataDir : gostr) : gostr := path_Join dataDir (str "binaries").
Definition cli_prefix : gostr := str "ipgaze-cli-".
Definition sha256File (sha256 : gostr -> gostr) (d : disk) (path : gostr) : option gostr :=
  match file_at d path with File content | StatFails content => Some (sha256 content) | NotExist | OpenFails => None end.
(** The key of a directory entry and its digest. *)
Definition scan_entry (sha256 : gostr -> gostr) (d : disk) (binDir : gostr) (e : gostr * bool) : option (gostr * gostr) :=
  let '(name, isDir) := e in
  if (isDir : bool) then None else if negb (HasPrefix name cli_prefix) then None
  else let key := TrimSuffix (TrimPrefix name cli_prefix) (str ".exe") in
       if key =s [] then None else (fun sum => (key, sum)) <$> sha256File sha256 d (path_Join binDir name).
Definition scanCLIBinaries (sha256 : gostr -> gostr) (d : disk) (dataDir : gostr) : gmap gostr gostr :=
  if dataDir =s [] then ∅
  else match listing d (binaries dataDir) with
       | None => ∅
       | Some entries => fold_left (fun m e => match scan_entry sha256 d (binaries dataDir) e with Some (key, sum) => <[key := sum]> m | None => m end) entries ∅
       end.
(** The discovery document: the version and digest of each binary, the features, and the address
    the server is reached at. *)
Record autodiscoverResponse := { ServerName : gostr; ad_Version : gostr; APIVersion : gostr; BaseURL : gostr; Primary : gostr; Cluster : list gostr;
  MultiUser : bool; Orgs : bool; CustomDomains : bool; GeoIP : bool; GeoIPDetailed : bool; PortLookup : bool; CLIVersions : gmap gostr (gostr * gostr); CLIMinVersion : gostr }.
Definition autodiscoverHandler `{UnicodeTables} {page_data} (sha256 : gostr -> gostr) (d : disk) (e : host_env) (s : Server page_data) (dataDir minVersion : gostr) (r : request) : autodiscoverResponse :=
  let baseURL := BuildURL e r (Some (getTrust s)) [] in
  {| ServerName := str "ipgaze"; ad_Version := Version_ s; APIVersion := str "v1"; BaseURL := baseURL; Primary := baseURL; Cluster := [];
     MultiUser := false; Orgs := false; CustomDomains := false; GeoIP := true; GeoIPDetailed := negb (geo_IsEmpty (gr s)); PortLookup := bool_decide (is_Some (LookupPort s));
     CLIVersions := (fun sum => (Version_ s, sum)) <$> scanCLIBinaries sha256 d dataDir;
     CLIMinVersion := if minVersion =s [] then str "1.0.0" else minVersion |}.

Section Download.
Context `{UnicodeTables} `{PrintTable} (translator : I18NManager) (d : disk) (dataDir : gostr).
Inductive download_reply := Negotiated (status : Z) (message : gostr) | Sent (headers : list (gostr * gostr)) (content : gostr).
(** The path that is opened, if any, and the reply. *)
Definition cliBinaryDownloadHandler (r : request) : option gostr * download_reply :=
  let filename := Base (r_URL_Path r) in
  let message key := T translator (r_ctx r) (str key) in
  if (filename =s []) || (filename =s str ".") || (filename =s str "/") then (None, Negotiated 404 (message "errors.not_found"))
  else if GoStrings.Contains filename (str "..") || ContainsAny filename (str "/\") then (None, Negotiated 400 (message "errors.invalid_format"))
  else
    let binPath := path_Join (binaries dataDir) filename in
    (Some binPath,
     match file_at d binPath with
     | NotExist => Negotiated 404 (message "errors.not_found")
     | OpenFails | StatFails _ => Negotiated 500 (message "errors.server_error")
     | File content =>
         Sent ([(str "Content-Type", if HasSuffix filename (str ".exe") then str "application/vnd.microsoft.portable-executable" else str "application/octet-stream");
                (str "Content-Disposition", str "attachment; filename=" ++ Quote filename); (str "Content-Length", Itoa (Z.of_nat (length content)))]) content
     end).
End Download.

(** ** Metrics are guarded *)

(** Every metrics route, under every alias, runs its service only for a request whose
    Authorization header is exactly the bearer token of that service, unless the guard is
    switched off; a service without a token is refused to everyone.  A refusal takes at
    least a tenth of a second in all, whatever its reason, and is a bare 403 or a 401. *)
Theorem metrics_guarded `{UnicodeTables} translator cfg path elapsed r svc g :
  metrics_route translator cfg path elapsed r = Some (svc, g) -> 0 <= elapsed ->
  (path, svc) ∈ RegisterMetricsRoutes cfg /\
  (g = Served <-> AllowUnauthenticated cfg = true \/ Token cfg svc <> [] /\ get r "Authorization" = str "Bearer " ++ Token cfg svc) /\
  (forall slept reply, g = Refused slept reply -> metricsAuthFloor <= elapsed + slept /\ sent reply = [if Token cfg svc =s [] then 403 else 401]).
Proof.
  intros Hr He. unfold metrics_route in Hr. destruct (list_find _ _) as [[i [p sv]]|] eqn:Ef; [|done]. cbn in Hr. injection Hr as <- <-.
  apply list_find_Some in Ef as (Hl & Hp & _). cbn in Hp. subst p. split; [by apply list_elem_of_lookup_2 in Hl|]. clear Hl.
  assert (metricsAuthFloor <= elapsed + padMetricsAuth elapsed) as Hpad by (unfold padMetricsAuth; destruct (Z.ltb_spec 0 (metricsAuthFloor - elapsed)); lia).
  unfold MetricsAuth. destruct (AllowUnauthenticated cfg); [split; [split; auto|done]|]. destruct (decide (Token cfg sv = [])) as [E|E].
  { rewrite (bool_decide_eq_true_2 _ E). split; [split; [done|intros [?|[? _]]; done]|]. intros slept reply [= <- <-]. done. }
  rewrite (bool_decide_eq_false_2 _ E). destruct (decide (get r "Authorization" = str "Bearer " ++ Token cfg sv)) as [Ea|Ea].
  - rewrite Ea, Nat.eqb_refl, bool_decide_eq_true_2 by done. cbn [negb orb]. split; [split; auto|done].
  - rewrite (bool_decide_eq_false_2 _ Ea). cbn [negb]. rewrite orb_true_r. split; [split; [done|intros [?|[_ ?]]; done]|]. intros slept reply [= <- <-]. done.
Qed.
Definition sample_metrics : MetricsConfig := {| AllowUnauthenticated := false; Token := fun svc => match svc with Prometheus => str "t0" | _ => [] end; RootEnabled := false; MaxEntries := 0; MaxAge := [] |}.
Lemma metrics_guarded_witness : exists slept reply, metrics_route (H := ascii_tables) {| I18n.translations := ∅; fallback := str "en" |} sample_metrics (str "/api/metrics/loki") 5 (bare_request (str "192.0.2.1:80")) = Some (Loki, Refused slept reply) /\
  metricsAuthFloor <= 5 + slept.
Proof.
  eexists _, _. split; [reflexivity|].
  refine (proj1 (proj2 (proj2 (metrics_guarded (H := ascii_tables) {| I18n.translations := ∅; fallback := str "en" |} sample_metrics (str "/api/metrics/loki") 5 (bare_request (str "192.0.2.1:80")) Loki _ eq_refl ltac:(lia))) _ _ eq_refl)).
Defined.

(** ** The log streams *)

Lemma bind_ext_in {A B} (f g : A -> list B) l : (forall x, x ∈ l -> f x = g x) -> l ≫= f = l ≫= g.
Proof. induction l as [|x l IH]; intros Hfg; [done|]. cbn [mbind list_bind]. rewrite Hfg by by left. f_equal. apply IH. intros y Hy. apply Hfg. by right. Qed.
Lemma fmap_of_bind {A B C} (h : B -> C) (g : A -> list B) l : h <$> (l ≫= g) = l ≫= fun x => h <$> g x.
Proof. induction l as [|x l IH]; [done|]. cbn [mbind list_bind]. by rewrite fmap_app, IH. Qed.
Lemma by_level_permutation (entries : list LogBuffer.LogEntry) (levels : list gostr) :
  NoDup levels -> (forall e, e ∈ entries -> LogBuffer.Level e ∈ levels) -> (levels ≫= fun level => filter (fun e => LogBuffer.Level e = level) entries) ≡ₚ entries.
Proof.
  intros Hnd. revert entries. induction Hnd as [|l ls Hl _ IH]; intros entries Hin.
  { destruct entries as [|e es]; [done|]. by destruct (not_elem_of_nil (A := gostr) (LogBuffer.Level e)); apply Hin; left. }
  cbn [mbind list_bind]. etrans; [|apply (filter_app_complement (fun e => LogBuffer.Level e = l))]. apply Permutation_app_head. rewrite <- (IH (filter (fun e => ~ LogBuffer.Level e = l) entries)).
  - apply reflexive_eq, bind_ext_in. intros l' Hl'. symmetry. apply list_filter_filter_l. intros e <- E. by rewrite E in Hl'.
  - intros e [Hne He]%list_elem_of_filter. apply Hin in He. apply elem_of_cons in He as [?|?]; done.
Qed.
(** The log endpoint serves a bounded part of the recent log and loses nothing of it:
    there is one stream per level, in order, and together the streams hold exactly the
    entries that are recent enough, at most the configured number of them, each stream in
    the order of the log. *)
Theorem loki_streams_complete ParseDuration cfg now b :
  let streams := LokiStreamsHandler ParseDuration cfg now b in
  exists recent, streams = Streams recent /\ sublist recent (LogBuffer.entries b) /\ NoDup streams.*1 /\ Sorted str_le streams.*1 /\
    (streams ≫= snd) ≡ₚ ((fun e => (Itoa (LogBuffer.Time e), LogBuffer.Line e)) <$> recent) /\
    Z.of_nat (length recent) <= (if MaxEntries cfg <=? 0 then 1000 else MaxEntries cfg).
Proof.
  cbn zeta. unfold LokiStreamsHandler. set (maxAge := match ParseDuration _ with Some d => _ | None => _ end). set (n := if MaxEntries cfg <=? 0 then 1000 else MaxEntries cfg).
  assert (0 < n) as Hn by (unfold n; destruct (Z.leb_spec (MaxEntries cfg) 0); lia). set (recent := LogBuffer.Recent now n maxAge b). exists recent.
  set (levels := merge_sort str_le (remove_dups (LogBuffer.Level <$> recent))). assert ((Streams recent).*1 = levels) as Hlv by (unfold Streams; rewrite <- list_fmap_compose; apply list_fmap_id).
  assert (NoDup levels) as Hnd by (unfold levels; rewrite merge_sort_Permutation; apply NoDup_remove_dups). split_and!; [done| |by rewrite Hlv| | |].
  - unfold recent, LogBuffer.Recent. set (out := if 0 <? maxAge then _ else _). assert (sublist out (LogBuffer.entries b)) as Ho by (unfold out; destruct (0 <? maxAge); [apply sublist_filter|done]).
    destruct (_ && _); [etrans; [apply sublist_drop|done]|done].
  - rewrite Hlv. apply Sorted_merge_sort, _.
  - unfold Streams. fold levels. rewrite list_fmap_bind. etrans; [|apply (fmap_Permutation _), (by_level_permutation recent levels Hnd)].
    + by rewrite fmap_of_bind.
    + intros e He. unfold levels. rewrite merge_sort_Permutation. apply elem_of_remove_dups, list_elem_of_fmap. by exists e.
  - unfold recent, LogBuffer.Recent. set (out := if 0 <? maxAge then _ else _). destruct (Z.ltb_spec 0 n); [|lia]. destruct (Z.ltb_spec n (Z.of_nat (length out))); cbn [andb]; [rewrite length_drop; lia|lia].
Qed.

(** ** Browser reports cannot flood or forge the log *)

(** A browser report is answered with 204 or, beyond the rate of its source, with 429
    and then leaves no trace; a report that is logged leaves one record under the
    event of its type, at most 2048 bytes long apart from the event, without line breaks or other control
    characters whatever the body was, attributed to the source that was limited. *)
Theorem reports_bounded `{UnicodeTables} `{TokenBucket} {page_data} (s : Server page_data) reportType now body r rrl :
  let '(rrl', effects) := reportsHandler s reportType now body r rrl in
  let ip := authClientIP s r in
  rrl' = (Report_Allow rrl ip now).1 /\
  (if (Report_Allow rrl ip now).2
   then exists text, effects = [WriteSecurity (securityEventForReport reportType ++ str " " ++ text) ip; WriteHeader 204] /\ Z.of_nat (length text) <= 2048 /\
          forall c, c ∈ text -> (32 <= code c \/ code c = 9) /\ code c <> 127
   else effects = [SetHeader (str "Retry-After") (str "60"); WriteHeader 429]).
Proof.
  unfold reportsHandler. destruct (Report_Allow rrl (authClientIP s r) now) as [rrl' []]; cbn [negb fst snd]; (split; [done|]); [|done].
  eexists. split; [done|]. split; apply sanitizeLogValue_safe.
Qed.

(** ** Downloads are confined to the directory of binaries *)

Lemma ContainsAny_false t chars : ContainsAny t chars = false -> forall c, c ∈ chars -> c ∉ t.
Proof.
  unfold ContainsAny, IndexAny. intros Hn c Hc Hin. induction t as [|d t IH]; [by apply not_elem_of_nil in Hin|]. cbn in Hn. destruct (inSet chars d) eqn:Ed; [done|].
  apply elem_of_cons in Hin as [<-|Hin]; [unfold inSet in Ed; by apply bool_decide_eq_false in Ed|]. apply IH; [|done]. by destruct (IndexFunc (inSet chars) t).
Qed.
Lemma download_name `{UnicodeTables} `{PrintTable} translator d dataDir r path :
  (cliBinaryDownloadHandler translator d dataDir r).1 = Some path -> plain (Base (r_URL_Path r)) /\ path = path_Join (binaries dataDir) (Base (r_URL_Path r)).
Proof.
  unfold cliBinaryDownloadHandler. cbn zeta. destruct (_ || _ || _) eqn:E1; [done|]. destruct (GoStrings.Contains (Base (r_URL_Path r)) _ || ContainsAny _ _) eqn:E2; [done|]. cbn [fst]. intros Hp. apply (inj Some) in Hp as <-. split; [|done].
  apply orb_false_iff in E1 as [[E1%bool_decide_eq_false E3%bool_decide_eq_false]%orb_false_iff _]. apply orb_false_iff in E2 as [E2 E4].
  split_and!; [done|done| |]; [intros E; by rewrite E in E2|]. apply (ContainsAny_false _ _ E4). by left.
Qed.
Lemma binaries_nonempty dataDir : binaries dataDir <> [].
Proof. unfold binaries, path_Join. destruct dataDir; apply Clean_nonempty. Qed.
(** Whatever path is requested, the download opens at most one file, and it is directly in
    the directory of binaries: the path is the directory and one name without separators
    that is not the parent directory. *)
Theorem download_confined `{UnicodeTables} `{PrintTable} translator d dataDir :
  exists dir, forall r path, (cliBinaryDownloadHandler translator d dataDir r).1 = Some path ->
    exists name, plain name /\ path = dir ++ name /\ path = path_Join (binaries dataDir) name /\ last_element path = name.
Proof.
  destruct (path_Join_prefix (binaries dataDir) (binaries_nonempty dataDir)) as [dir Hdir]. exists dir. intros r path [Hn ->]%download_name.
  eexists. split; [done|]. rewrite <- Hdir by done. split_and!; [done|done|]. apply last_element_Join; [apply binaries_nonempty|done].
Qed.

(** ** What is advertised can be downloaded *)

Lemma scan_fold (sha256 : gostr -> gostr) (d : disk) (dir : gostr) (entries : list (gostr * bool)) (m : gmap gostr gostr) (key sum : gostr) :
  fold_left (fun m e => match scan_entry sha256 d dir e with Some (key, sum) => <[key := sum]> m | None => m end) entries m !! key = Some sum ->
  m !! key = Some sum \/ exists e, e ∈ entries /\ scan_entry sha256 d dir e = Some (key, sum).
Proof.
  revert m. induction entries as [|e es IH]; intros m; [by left|]. cbn [fold_left]. intros [Hm|(e' & Hin & He')]%IH; [|right; exists e'; split; [by right|done]].
  destruct (scan_entry sha256 d dir e) as [[k v]|] eqn:Ee; [|by left]. destruct (decide (k = key)) as [->|Hne].
  - rewrite lookup_insert_eq in Hm. injection Hm as ->. right. exists e. split; [by left|done].
  - rewrite lookup_insert_ne in Hm by done. by left.
Qed.
Lemma TrimSuffix_exe t : t = TrimSuffix t (str ".exe") \/ t = TrimSuffix t (str ".exe") ++ str ".exe".
Proof.
  unfold TrimSuffix. destruct (HasSuffix t (str ".exe")) eqn:E; [right|by left]. unfold HasSuffix in E. apply bool_decide_eq_true in E as [k ->].
  rewrite length_app. replace (length k + length (str ".exe") - length (str ".exe"))%nat with (length k) by lia. by rewrite take_app_length.
Qed.
Lemma Base_file dir name : slash ∉ name -> name <> [] -> Base (dir ++ slash :: name) = name.
Proof.
  intros Hs Hn. unfold Base. rewrite bool_decide_eq_false_2 by (by destruct dir). assert (TrimRight (dir ++ slash :: name) (str "/") = dir ++ slash :: name) as ->.
  { destruct name as [|c n _] using rev_ind; [done|]. change (slash :: n ++ [c]) with ((slash :: n) ++ [c]). rewrite app_assoc. unfold TrimRight, TrimRightFunc. rewrite reverse_snoc. cbn [TrimLeftFunc].
    assert (inSet (str "/") c = false) as ->. { unfold inSet. apply bool_decide_eq_false. change (str "/") with [slash]. rewrite list_elem_of_singleton. intros ->. set_solver. }
    by rewrite <- reverse_snoc, reverse_involutive. }
  rewrite bool_decide_eq_false_2 by (by destruct dir). rewrite split_on_app_gen, (split_on_plain slash name) by done. apply List.last_last.
Qed.
(** The discovery document promises nothing that cannot be fetched: for every binary it
    lists there is a file of the directory, named after the listed platform, whose digest
    is the one that is listed, and downloading it under that name sends exactly that file
    (unless the name has two dots in a row or a backslash, which the download refuses). *)
Theorem advertised_downloadable `{UnicodeTables} `{PrintTable} translator sha256 d dataDir key sum :
  (forall dir entries name isDir, listing d dir = Some entries -> (name, isDir) ∈ entries -> slash ∉ name) -> (forall path content, file_at d path <> StatFails content) ->
  scanCLIBinaries sha256 d dataDir !! key = Some sum ->
  exists name content, (name = cli_prefix ++ key \/ name = cli_prefix ++ key ++ str ".exe") /\ sum = sha256 content /\ file_at d (path_Join (binaries dataDir) name) = File content /\
    forall r, r_URL_Path r = str "/cli/binaries/" ++ name -> GoStrings.Contains name (str "..") = false -> "\"%char ∉ name ->
      exists headers, cliBinaryDownloadHandler translator d dataDir r = (Some (path_Join (binaries dataDir) name), Sent headers content).
Proof.
  intros Hls Hst. unfold scanCLIBinaries. destruct (dataDir =s []); [done|]. destruct (listing d (binaries dataDir)) as [entries|] eqn:El; [|done].
  intros [?|([name isDir] & Hin & He)]%scan_fold; [done|]. unfold scan_entry in He. destruct isDir; [done|]. destruct (HasPrefix name cli_prefix) eqn:Ep; [|done]. cbn [negb] in He.
  apply HasPrefix_true in Ep as [rest ->]. assert (TrimPrefix (cli_prefix ++ rest) cli_prefix = rest) as Ht by (unfold TrimPrefix; rewrite HasPrefix_app; apply drop_app_length). rewrite Ht in He.
  destruct (_ =s []) eqn:Ek; [done|]. unfold sha256File in He. destruct (file_at d _) as [| |c|content] eqn:Ef; [done|done|by apply Hst in Ef|]. cbn in He. injection He as <- <-.
  exists (cli_prefix ++ rest), content. pose proof (Hls _ _ _ _ El Hin) as Hsl. split_and!; [|done|done|].
  - destruct (TrimSuffix_exe rest) as [E|E]; [left; by rewrite <- E|right; by rewrite <- E].
  - intros r Hr Hdd Hbs. unfold cliBinaryDownloadHandler. rewrite Hr. change (str "/cli/binaries/" ++ cli_prefix ++ rest) with (str "/cli/binaries" ++ slash :: cli_prefix ++ rest).
    rewrite Base_file by done. cbn zeta. rewrite !bool_decide_eq_false_2 by done. cbn [orb]. rewrite Hdd.
    replace (ContainsAny (cli_prefix ++ rest) (str "/\")) with false; [cbn [orb]; rewrite Ef; by eexists|]. symmetry. unfold ContainsAny. destruct (IndexAny _ _) as [i|] eqn:Ei; [|done]. exfalso.
    revert Hsl Hbs Ei. generalize (cli_prefix ++ rest). clear. intros t Hsl Hbs. unfold IndexAny. revert i. induction t as [|c t IH]; intros i; [done|]. cbn. destruct (inSet (str "/\") c) eqn:Ec.
    + unfold inSet in Ec. apply bool_decide_eq_true in Ec. change (str "/\") with [slash; "\"%char] in Ec. set_solver.
    + destruct (IndexFunc (inSet (str "/\")) t) as [j|] eqn:Ej; [|done]. intros _. apply (IH ltac:(set_solver) ltac:(set_solver) j). first [exact Ej|reflexivity].
Qed.
Definition one_binary : disk :=
  {| listing := fun dir => if bool_decide (dir = str "/data/binaries") then Some [(str "ipgaze-cli-linux-amd64", false)] else None;
     file_at := fun path => if bool_decide (path = str "/data/binaries/ipgaze-cli-linux-amd64") then File (str "ELF") else NotExist |}.
Lemma advertised_downloadable_witness : exists name content, (name = cli_prefix ++ str "linux-amd64" \/ name = cli_prefix ++ str "linux-amd64" ++ str ".exe") /\ str "ELF" = content.
Proof.
  destruct (advertised_downloadable (H := ascii_tables) (H0 := {| IsPrint_wide := fun _ => false |}) {| I18n.translations := ∅; fallback := str "en" |} (fun c => c) one_binary (str "/data") (str "linux-amd64") (str "ELF"))
    as (name & content & Hn & Hc & _).
  - intros dir entries name isDir Hl Hin. cbn in Hl. case_bool_decide; [|done]. injection Hl as <-. apply list_elem_of_singleton in Hin as [= -> ->]. decided.
  - intros path content. cbn. by case_bool_decide.
  - vm_compute. reflexivity.
  - by exists name, content.
Defined.
