(* ===== verification/DataSources.v ===== *)
(** * Downloaded data: [geoip/geoip.go], and the managers of [threat/threat.go] and [blocklist/blocklist.go]

    The geolocation databases and the address lists are fetched by scheduled tasks and
    replaced on disk while requests are served.  A download is the list of file systems
    it goes through, with the calls that fail; the geolocation manager also keeps open
    readers, and the readers that lookups use, so every open file has an identity.  The
    web, the clock, the failing calls and which bytes are a valid database are parameters; a
    reader nobody holds any more stays open until its finalizer runs, which is not modelled. *)
From stdpp Require Import base list gmap strings.
From Stdlib Require Import ZArith Lia.
From S2P Require Import Prelude GoStrings GoPath GoTime GoNet AccessControl LogFiles.
Local Open Scope Z_scope.
Local Open Scope go_scope.

Record gfile := mkG { g_content : gostr; g_mtime : Z }.
Abbreviation gfs := (gmap gostr gfile).
(** The answer of a server: [complete] when the whole body arrived. *)
Inductive web_reply := NoReply | Reply (status : Z) (body : gostr) (complete : bool).
(** The calls of one download that fail; a failing write stores a prefix. *)
Record dl_faults := mkFaults { f_create : bool; f_write : option nat; f_close : bool; f_chmod : bool; f_rename : bool; f_remove : bool; f_random : gostr }.

(** ** Downloads *)

Definition remove_temp (e : dl_faults) (tmp : gostr) (fs : gfs) : gfs := if f_remove e then fs else delete tmp fs.
(** [GeoIPManager.downloadFile]: the file systems after each call, and whether it failed. *)
Definition downloadFile (reply : web_reply) (e : dl_faults) (now : Z) (localPath : gostr) (fs : gfs) : list gfs * bool :=
  match reply with
  | NoReply => ([], true)
  | Reply status body complete =>
      if negb (status =? 200) then ([], true) else
      let tmp := localPath ++ str ".tmp" in
      if f_create e then ([], true) else
      let opened := <[tmp := mkG [] now]> fs in
      match (if complete then f_write e else Some (length body)) with
      | Some n => let partial := <[tmp := mkG (take n body) now]> fs in ([opened; partial; remove_temp e tmp partial], true)
      | None =>
          let written := <[tmp := mkG body now]> fs in
          if f_close e || f_rename e then ([opened; written; remove_temp e tmp written], true)
          else ([opened; written; <[localPath := mkG body now]> (delete tmp written)], false)
      end
  end.
(** The bytes the list managers read at most. *)
Definition list_cap : Z := 50 * 1024 * 1024.
(** What [io.ReadAll] gives of the limited body: an error only when the connection breaks
    before the limit is reached. *)
Definition read_list (body : gostr) (complete : bool) : option gostr :=
  if complete || (list_cap <=? Z.of_nat (length body)) then Some (take (Z.to_nat list_cap) body) else None.
(** [threat.download]: [os.WriteFile] to a fixed name, then the rename; nothing is removed. *)
Definition threat_download (reply : web_reply) (e : dl_faults) (now : Z) (dest : gostr) (fs : gfs) : list gfs * bool :=
  match reply with
  | NoReply => ([], true)
  | Reply status body complete =>
      if negb (status =? 200) then ([], true) else
      match read_list body complete with None => ([], true) | Some data =>
      let tmp := dest ++ str ".tmp" in
      if f_create e then ([], true) else
      let opened := <[tmp := mkG [] now]> fs in
      match f_write e with
      | Some n => ([opened; <[tmp := mkG (take n data) now]> fs], true)
      | None =>
          let written := <[tmp := mkG data now]> fs in
          if f_close e || f_rename e then ([opened; written], true)
          else ([opened; written; <[dest := mkG data now]> (delete tmp written)], false)
      end end
  end.
(** [BlocklistManager.download] and its [writeFileAtomic]: a fresh temporary name. *)
Definition blocklist_download (reply : web_reply) (e : dl_faults) (now : Z) (dest : gostr) (fs : gfs) : list gfs * bool :=
  match reply with
  | NoReply => ([], true)
  | Reply status body complete =>
      if negb (status =? 200) then ([], true) else
      match read_list body complete with None => ([], true) | Some data =>
      let tmp := dest ++ str ".tmp-" ++ f_random e in
      if f_create e || bool_decide (is_Some (fs !! tmp)) then ([], true) else
      let opened := <[tmp := mkG [] now]> fs in
      match f_write e with
      | Some n => let partial := <[tmp := mkG (take n data) now]> fs in ([opened; partial; remove_temp e tmp partial], true)
      | None =>
          let written := <[tmp := mkG data now]> fs in
          if f_close e || f_chmod e || f_rename e then ([opened; written; remove_temp e tmp written], true)
          else ([opened; written; <[dest := mkG data now]> (delete tmp written)], false)
      end end
  end.
(** A sequence of downloads, each with its reply and faults: all the file systems, the last
    one, and which failed. *)
Fixpoint download_all (download : web_reply -> dl_faults -> Z -> gostr -> gfs -> list gfs * bool) (now : Z) (jobs : list (gostr * web_reply * dl_faults)) (fs : gfs)
  : list gfs * gfs * list bool :=
  match jobs with
  | [] => ([], fs, [])
  | (path, reply, e) :: rest =>
      let '(states, failed) := download reply e now path fs in
      let fs' := List.last states fs in
      let '(more, final, fails) := download_all download now rest fs' in
      (states ++ more, final, failed :: fails)
  end.

(** ** The lists *)

Definition list_path (dir : gostr) (file : gostr) : gostr := path_Join dir file.
Definition stamp (dir : gostr) (written : bool) (now : Z) (fs : gfs) : gfs :=
  if written then <[path_Join dir (str ".last_updated") := mkG (RFC3339 (mkTime now 0) ++ ["010"%char]) now]> fs else fs.
Definition threat_files (dir : gostr) (fs : gfs) (file : gostr) : option gostr := g_content <$> fs !! list_path dir file.
(** [threat.Manager.Update]: the file systems, the tables that are in force afterwards and whether
    a download failed; [None] when the directory cannot be made. *)
Definition threat_Update (mkdir_ok : bool) (dir : gostr) (web : gostr -> web_reply) (faults : gostr -> dl_faults) (stamped : bool) (now : Z) (sources : list Threat.Source) (fs : gfs)
  : option (list gfs * gfs * Threat.Lookup * bool) :=
  if negb mkdir_ok then None
  else
    let '(states, final, fails) := download_all threat_download now ((fun src => (list_path dir (Threat.File src), web (Threat.URL src), faults (Threat.File src))) <$> sources) fs in
    let final := stamp dir stamped now final in
    Some (states ++ [final], final, Threat.LoadDir (threat_files dir final) sources, existsb id fails).
(** [threat.Manager.Initialize]: only a file that is not there is fetched. *)
Definition download_missing (reply : web_reply) (e : dl_faults) (now : Z) (dest : gostr) (fs : gfs) : list gfs * bool :=
  if bool_decide (is_Some (fs !! dest)) then ([], false) else threat_download reply e now dest fs.
Definition threat_Initialize (mkdir_ok : bool) (dir : gostr) (web : gostr -> web_reply) (faults : gostr -> dl_faults) (now : Z) (sources : list Threat.Source) (fs : gfs)
  : option (list gfs * gfs * Threat.Lookup) :=
  if negb mkdir_ok then None
  else
    let '(states, final, _) := download_all download_missing now ((fun src => (list_path dir (Threat.File src), web (Threat.URL src), faults (Threat.File src))) <$> sources) fs in
    Some (states, final, Threat.LoadDir (threat_files dir final) sources).
Record list_source := { s_Name : gostr; s_URL : gostr; s_File : gostr }.
(** [BlocklistManager.Update] *)
Definition blocklist_Update (mkdir_ok : bool) (dir : gostr) (web : gostr -> web_reply) (faults : gostr -> dl_faults) (stamped : bool) (now : Z) (sources : list list_source) (fs : gfs)
  : option (list gfs * gfs * bool) :=
  if negb mkdir_ok then None
  else
    let '(states, final, fails) := download_all blocklist_download now ((fun src => (list_path dir (s_File src), web (s_URL src), faults (s_File src))) <$> sources) fs in
    let final := stamp dir stamped now final in Some (states ++ [final], final, existsb id fails).

(** ** The geolocation databases *)

Definition updateInterval : Z := 72 * 3600 * Second.
Definition jsdelivrBaseURL : gostr := str "https://cdn.jsdelivr.net/npm/@ip-location-db/".
Definition geoReleaseBaseURL : gostr := str "https://github.com/sapics/ip-location-db/releases/download/latest/".
(** The databases in the order of the code: ASN, country, city for IPv4, city for IPv6. *)
Definition db_names : list gostr := str <$> ["asn.mmdb"; "country.mmdb"; "dbip-city-ipv4.mmdb"; "dbip-city-ipv6.mmdb"]%string.
Definition db_urls : list gostr :=
  [jsdelivrBaseURL ++ str "asn-mmdb/asn.mmdb"; jsdelivrBaseURL ++ str "geo-whois-asn-country-mmdb/geo-whois-asn-country.mmdb";
   geoReleaseBaseURL ++ str "dbip-city-ipv4.mmdb"; geoReleaseBaseURL ++ str "dbip-city-ipv6.mmdb"].
Definition geoipDir (dataDir : gostr) : gostr := path_Join (path_Join dataDir (str "security")) (str "geoip").
Definition db_files (dataDir : gostr) : list gostr := path_Join (geoipDir dataDir) <$> db_names.
(** An open database: the file descriptor and what was in the file. *)
Record reader := mkReader { handle : nat; contents : gostr }.
Record world := mkWorld { files : gfs; next : nat; open_handles : gset nat }.
(** The four readers of the manager, the four that lookups use (or none before the first load),
    and the time of the last update; nothing is the zero time. *)
Record GeoIPManager := mkManager { m_dataDir : gostr; dbs : list (option reader); live : list reader; lastUpdate : option Z }.
Definition NewGeoIPManager (dataDir : gostr) : GeoIPManager := mkManager dataDir [None; None; None; None] [] None.

Section Manager.
(** Whether the bytes are a database [maxminddb.Open] accepts. *)
Context (valid : gostr -> bool).
Definition open_mm (path : gostr) (w : world) : option reader * world :=
  match files w !! path with
  | Some f => if valid (g_content f) then (Some (mkReader (next w) (g_content f)), mkWorld (files w) (S (next w)) ({[next w]} ∪ open_handles w)) else (None, w)
  | None => (None, w)
  end.
Definition close_reader (r : reader) (w : world) : world := mkWorld (files w) (next w) (open_handles w ∖ {[handle r]}).
Fixpoint open_each (paths : list gostr) (w : world) : list (option reader) * world :=
  match paths with
  | [] => ([], w)
  | p :: ps => let '(r, w) := open_mm p w in let '(rs, w) := open_each ps w in (r :: rs, w)
  end.
(** The readers of [geo.Open], which stops at the first that cannot be opened. *)
Fixpoint open_until (paths : list gostr) (w : world) : option (list reader) * world :=
  match paths with
  | [] => (Some [], w)
  | p :: ps =>
      match open_mm p w with
      | (None, w) => (None, w)
      | (Some r, w) => let '(rs, w) := open_until ps w in ((fun rs => r :: rs) <$> rs, w)
      end
  end.
(** The files in the order [geo.Open] is given them: country, cities, ASN. *)
Definition live_files (dataDir : gostr) : list gostr := match db_files dataDir with [a; c; v4; v6] => [c; v4; v6; a] | l => l end.
Definition refreshLiveReader (m : GeoIPManager) (w : world) : GeoIPManager * world :=
  match open_until (live_files (m_dataDir m)) w with
  | (Some rs, w) => (mkManager (m_dataDir m) (dbs m) rs (lastUpdate m), w)
  | (None, w) => (m, w)
  end.
(** The new reader where there is one; the old one is closed only then. *)
Definition swapped (new old : option reader) : option reader := match new with Some _ => new | None => old end.
Fixpoint close_replaced (new old : list (option reader)) (w : world) : world :=
  match new, old with
  | n :: ns, o :: os => close_replaced ns os (match n, o with Some _, Some r => close_reader r w | _, _ => w end)
  | _, _ => w
  end.
Definition loadDatabases (m : GeoIPManager) (w : world) : GeoIPManager * world * bool :=
  let '(new, w) := open_each (db_files (m_dataDir m)) w in
  if forallb (fun r => negb (bool_decide (is_Some r))) new then (m, w, true)
  else
    let w := close_replaced new (dbs m) w in
    let '(m, w) := refreshLiveReader (mkManager (m_dataDir m) (zip_with swapped new (dbs m)) (live m) (lastUpdate m)) w in (m, w, false).

Definition with_files (w : world) (fs : gfs) : world := mkWorld fs (next w) (open_handles w).
Definition with_update (m : GeoIPManager) (t : option Z) : GeoIPManager := mkManager (m_dataDir m) (dbs m) (live m) t.
(** The answers of the web and the failing calls of one update, by address and by file. *)
Record download_attempt := { a_web : gostr -> web_reply; a_faults : gostr -> dl_faults }.
Definition jobs_of (m : GeoIPManager) (a : download_attempt) : list (gostr * web_reply * dl_faults) :=
  zip_with (fun file url => (file, a_web a url, a_faults a file)) (db_files (m_dataDir m)) db_urls.
Definition DownloadDatabases (a : download_attempt) (now : Z) (m : GeoIPManager) (w : world) : list gfs * world * bool :=
  let '(states, final, fails) := download_all downloadFile now (jobs_of m a) (files w) in (states, with_files w final, forallb id fails).
Definition databasesExist (m : GeoIPManager) (fs : gfs) : bool := forallb (fun p => bool_decide (is_Some (fs !! p))) (db_files (m_dataDir m)).
Definition oldestDatabaseMtime (m : GeoIPManager) (fs : gfs) : option Z :=
  fold_left (fun oldest p => match fs !! p with Some f => Some (match oldest with Some t => Z.min t (g_mtime f) | None => g_mtime f end) | None => oldest end) (db_files (m_dataDir m)) None.
Definition ShouldUpdate (now : Z) (m : GeoIPManager) : bool := match lastUpdate m with Some t => updateInterval <? now - t | None => true end.
(** Every operation gives the manager, the world and whether it failed. *)
Definition download_and_load (a : download_attempt) (now : Z) (m : GeoIPManager) (w : world) : GeoIPManager * world * bool :=
  let '(_, w, failed) := DownloadDatabases a now m w in
  if failed then (m, w, true)
  else let '(m, w, failed) := loadDatabases m w in if failed then (m, w, true) else (with_update m (Some now), w, false).
Definition ForceUpdate : download_attempt -> Z -> GeoIPManager -> world -> GeoIPManager * world * bool := download_and_load.
Definition geoip_Update (a : download_attempt) (now : Z) (m : GeoIPManager) (w : world) : GeoIPManager * world * bool :=
  if negb (ShouldUpdate now m) then (m, w, false) else download_and_load a now m w.
Definition Initialize (mkdir_ok : bool) (a : download_attempt) (now : Z) (m : GeoIPManager) (w : world) : GeoIPManager * world * bool :=
  if negb mkdir_ok then (m, w, true)
  else
    let '(_, w, failed) := if databasesExist m (files w) then ([], w, false) else DownloadDatabases a now m w in
    if failed then (m, w, true)
    else let '(m, w, failed) := loadDatabases m w in
         if failed then (m, w, true) else (with_update m (oldestDatabaseMtime m (files w)), w, false).
Record GeoIPStatus := { Enabled : bool; ASNEnabled : bool; CountryEnabled : bool; CityEnabled : bool; LastUpdate : option Z; DatabasesExist : bool }.
Definition loaded (m : GeoIPManager) (i : nat) : bool := match dbs m !! i with Some (Some _) => true | _ => false end.
Definition GetStatus (m : GeoIPManager) (fs : gfs) : GeoIPStatus :=
  {| Enabled := true; ASNEnabled := loaded m 0; CountryEnabled := loaded m 1; CityEnabled := loaded m 2 || loaded m 3; LastUpdate := lastUpdate m; DatabasesExist := databasesExist m fs |}.
End Manager.

(** ** Files are replaced as a whole *)

(** What a reply puts in the place of a database, and of a list. *)
Definition whole_body (reply : web_reply) : option gostr := match reply with Reply 200 body true => Some body | _ => None end.
Definition list_body (reply : web_reply) : option gostr := match reply with Reply 200 body complete => read_list body complete | _ => None end.
(** Every state of a download leaves all files but the temporary one as they were, or has all
    that a successful reply delivers in the place of the one that is replaced. *)
Definition replaces_whole (reply : web_reply) (body : web_reply -> option gostr) (now : Z) (path tmp : gostr) (fs s : gfs) : Prop :=
  forall q, q <> tmp -> s !! q = fs !! q \/ q = path /\ exists data, body reply = Some data /\ s !! q = Some (mkG data now).
Section Whole.
Context (reply : web_reply) (body : web_reply -> option gostr) (now : Z) (path tmp : gostr) (fs : gfs) (f : gfile).
Lemma insert_temp : replaces_whole reply body now path tmp fs (<[tmp := f]> fs).
Proof. intros q Hq. left. by rewrite lookup_insert_ne. Qed.
Lemma remove_temp_whole (e : dl_faults) : replaces_whole reply body now path tmp fs (remove_temp e tmp (<[tmp := f]> fs)).
Proof. intros q Hq. left. unfold remove_temp. destruct (f_remove e); [by rewrite lookup_insert_ne|]. by rewrite lookup_delete_ne, lookup_insert_ne. Qed.
Lemma install_whole (data : gostr) : body reply = Some data -> replaces_whole reply body now path tmp fs (<[path := mkG data now]> (delete tmp (<[tmp := f]> fs))).
Proof.
  intros Hd q Hq. destruct (decide (q = path)) as [->|Hp]; [right|left; by rewrite lookup_insert_ne, lookup_delete_ne, lookup_insert_ne].
  split; [done|]. exists data. by rewrite lookup_insert_eq.
Qed.
End Whole.
Ltac whole_states := repeat (first [apply Forall_cons_2 | apply Forall_nil_2]); first [apply insert_temp | apply remove_temp_whole | by apply install_whole].
Lemma downloadFile_whole (reply : web_reply) (e : dl_faults) (now : Z) (path : gostr) (fs : gfs) : Forall (replaces_whole reply whole_body now path (path ++ str ".tmp") fs) (downloadFile reply e now path fs).1.
Proof.
  unfold downloadFile. destruct reply as [|status body complete]; [constructor|]. destruct (Z.eqb_spec status 200) as [->|]; [|constructor]. cbn [negb]. destruct (f_create e); [constructor|].
  destruct complete; [|whole_states]. destruct (f_write e); [whole_states|]. destruct (f_close e || f_rename e); whole_states.
Qed.
Lemma threat_download_whole (reply : web_reply) (e : dl_faults) (now : Z) (path : gostr) (fs : gfs) : Forall (replaces_whole reply list_body now path (path ++ str ".tmp") fs) (threat_download reply e now path fs).1.
Proof.
  unfold threat_download. destruct reply as [|status body complete]; [constructor|]. destruct (Z.eqb_spec status 200) as [->|]; [|constructor]. cbn [negb].
  destruct (read_list body complete) as [data|] eqn:Hd; [|constructor]. destruct (f_create e); [constructor|]. destruct (f_write e); [whole_states|]. destruct (f_close e || f_rename e); whole_states.
Qed.
Lemma blocklist_download_whole (reply : web_reply) (e : dl_faults) (now : Z) (path : gostr) (fs : gfs) : Forall (replaces_whole reply list_body now path (path ++ str ".tmp-" ++ f_random e) fs) (blocklist_download reply e now path fs).1.
Proof.
  unfold blocklist_download. destruct reply as [|status body complete]; [constructor|]. destruct (Z.eqb_spec status 200) as [->|]; [|constructor]. cbn [negb].
  destruct (read_list body complete) as [data|] eqn:Hd; [|constructor]. destruct (f_create e || _); [constructor|]. destruct (f_write e); [whole_states|]. destruct (f_close e || f_chmod e || f_rename e); whole_states.
Qed.
(** The same of a sequence of downloads. *)
Definition from_jobs (body : web_reply -> option gostr) (now : Z) (jobs : list (gostr * web_reply * dl_faults)) (fs s : gfs) (q : gostr) : Prop :=
  s !! q = fs !! q \/ exists reply data e, (q, reply, e) ∈ jobs /\ body reply = Some data /\ s !! q = Some (mkG data now).
Lemma last_in {A} (l : list A) d : l <> [] -> List.last l d ∈ l.
Proof. intros Hl. destruct l as [|x l _] using rev_ind; [done|]. rewrite List.last_last. set_solver. Qed.
Lemma download_all_whole (download : web_reply -> dl_faults -> Z -> gostr -> gfs -> list gfs * bool) (body : web_reply -> option gostr) (now : Z) (temp : gostr -> dl_faults -> gostr) (jobs : list (gostr * web_reply * dl_faults)) (fs : gfs) (q : gostr) :
  (forall reply e path fs, Forall (replaces_whole reply body now path (temp path e) fs) (download reply e now path fs).1) ->
  (forall path reply e, (path, reply, e) ∈ jobs -> q <> temp path e) ->
  Forall (fun s => from_jobs body now jobs fs s q) ((download_all download now jobs fs).1.1 ++ [(download_all download now jobs fs).1.2]).
Proof.
  intros Hd. revert fs. induction jobs as [|[[path reply] e] jobs IH]; intros fs Hq; [apply Forall_singleton; by left|]. cbn [download_all].
  pose proof (Hd reply e path fs) as Hw. destruct (download reply e now path fs) as [states failed]. cbn [fst] in Hw.
  assert (forall s, s ∈ states -> from_jobs body now ((path, reply, e) :: jobs) fs s q) as Hst.
  { intros s Hs. rewrite Forall_forall in Hw. destruct (Hw s Hs q) as [E|(-> & data & Hb & E)]; [by apply (Hq path reply e); left|by left|]. right. exists reply, data, e. split; [by left|done]. }
  assert (from_jobs body now ((path, reply, e) :: jobs) fs (List.last states fs) q) as Hlast.
  { destruct states as [|s0 states]; [by left|]. by apply Hst, last_in. }
  specialize (IH (List.last states fs) ltac:(intros p rp e' Hin; apply (Hq p rp); by right)). destruct (download_all download now jobs (List.last states fs)) as [[more final] fails]. cbn [fst snd] in *.
  rewrite <- app_assoc. apply Forall_app. split; [by apply Forall_forall|]. eapply Forall_impl; [exact IH|]. intros s [E|(rp & data & e' & Hin & Hb & E)].
  - destruct Hlast as [El|(rp & data & e' & Hin & Hb & El)]; [left; congruence|right; exists rp, data, e'; split_and!; [done|done|congruence]].
  - right. exists rp, data, e'. split; [by right|done].
Qed.
Lemma geoipDir_nonempty (dataDir : gostr) : geoipDir dataDir <> [].
Proof. unfold geoipDir, path_Join at 1. destruct (path_Join dataDir (str "security")); apply Clean_nonempty. Qed.
Lemma db_file_last (dataDir p : gostr) : p ∈ db_files dataDir -> last p = Some "b"%char.
Proof.
  unfold db_files. intros (n & -> & Hn)%list_elem_of_fmap. destruct (path_Join_prefix (geoipDir dataDir) (geoipDir_nonempty dataDir)) as [pre Hpre].
  assert (plain n /\ last n = Some "b"%char) as [Hp Hl].
  { revert n Hn. apply Forall_forall. repeat (apply Forall_cons_2; [split; [|reflexivity]; split_and!; [done|done|done|decided]|]). apply Forall_nil_2. }
  rewrite Hpre by done. destruct n as [|c n _] using rev_ind; [done|]. by rewrite last_snoc in Hl; rewrite app_assoc, last_snoc.
Qed.
Lemma db_file_not_temp (dataDir p q : gostr) : p ∈ db_files dataDir -> p <> q ++ str ".tmp".
Proof. intros Hp ->. apply db_file_last in Hp. change (str ".tmp") with (str ".tm" ++ ["p"%char]) in Hp. by rewrite app_assoc, last_snoc in Hp. Qed.
Lemma db_files_NoDup (dataDir : gostr) : NoDup (db_files dataDir).
Proof.
  unfold db_files. apply (NoDup_fmap_2_strong _ _); [|decided]. intros x y Hx Hy Exy. destruct (path_Join_prefix (geoipDir dataDir) (geoipDir_nonempty _)) as [pre Hpre].
  assert (forall n, n ∈ db_names -> plain n) as Hpl by (apply Forall_forall; repeat (apply Forall_cons_2; [split_and!; [done|done|done|decided]|]); apply Forall_nil_2).
  rewrite !Hpre in Exy by auto. by apply (inj (pre ++.)) in Exy.
Qed.
(** C37. A database that lookups may open is never half written: in every state of the
    disk one update goes through, whatever fails in it and wherever it is interrupted, each
    of the four files is the one that was there before or the complete body of a 200 reply
    of its own source; what is half written is only ever under a temporary name. *)
Theorem databases_replaced_whole a now m w file url :
  (file, url) ∈ zip (db_files (m_dataDir m)) db_urls ->
  Forall (fun s => s !! file = files w !! file \/ exists body, whole_body (a_web a url) = Some body /\ s !! file = Some (mkG body now))
    ((DownloadDatabases a now m w).1.1 ++ [files (DownloadDatabases a now m w).1.2]).
Proof.
  intros Hfu. unfold DownloadDatabases. pose proof (download_all_whole downloadFile whole_body now (fun path _ => path ++ str ".tmp") (jobs_of m a) (files w) file) as Hall.
  assert (file ∈ db_files (m_dataDir m)) as Hin by (apply elem_of_zip_l in Hfu; done).
  specialize (Hall (fun reply e path fs => downloadFile_whole reply e now path fs) (fun path reply e _ => db_file_not_temp _ _ _ Hin)).
  destruct (download_all downloadFile now (jobs_of m a) (files w)) as [[states final] fails]. cbn [fst snd with_files files] in *.
  eapply Forall_impl; [exact Hall|]. intros s [E|(reply & body & e & Hjob & Hb & E)]; [by left|right]. exists body. split; [|done].
  pose proof (db_files_NoDup (m_dataDir m)) as Hnd.
  unfold jobs_of in Hjob. apply elem_of_lookup_zip_with in Hjob as (i & f & u & Ej & Hf & Hu). apply list_elem_of_lookup in Hfu as [j Hj].
  apply lookup_zip_with_Some in Hj as (f' & u' & [= <- <-] & Hf' & Hu'). injection Ej as E1 E2 _. subst f. assert (i = j) as -> by (eapply NoDup_lookup; [exact Hnd|done..]). congruence.
Qed.
Definition all_ok : dl_faults := mkFaults false None false false false false [].
Definition sample_attempt : download_attempt := {| a_web := fun _ => Reply 200 (str "MMDB") true; a_faults := fun _ => all_ok |}.
Lemma databases_replaced_whole_witness :
  Forall (fun s : gfs => s !! str "/d/security/geoip/asn.mmdb" = files (mkWorld ∅ 0 ∅) !! str "/d/security/geoip/asn.mmdb" \/
      exists body, whole_body (a_web sample_attempt (jsdelivrBaseURL ++ str "asn-mmdb/asn.mmdb")) = Some body /\ s !! str "/d/security/geoip/asn.mmdb" = Some (mkG body 7))
    ((DownloadDatabases sample_attempt 7 (NewGeoIPManager (str "/d")) (mkWorld ∅ 0 ∅)).1.1 ++ [files (DownloadDatabases sample_attempt 7 (NewGeoIPManager (str "/d")) (mkWorld ∅ 0 ∅)).1.2]).
Proof.
  apply (databases_replaced_whole sample_attempt 7 (NewGeoIPManager (str "/d")) (mkWorld ∅ 0 ∅) (str "/d/security/geoip/asn.mmdb") (jsdelivrBaseURL ++ str "asn-mmdb/asn.mmdb")).
  decided.
Defined.
(** Address lists are replaced as a whole too: during an update of the threat lists every
    file but the temporary ones is the one that was there or the body of a successful
    reply up to the size limit, so a source that fails keeps its old list, and the tables
    in force afterwards are those of the files on disk. *)
Theorem threat_lists_replaced_whole dir web faults stamped now sources fs states final lookup failed q :
  threat_Update true dir web faults stamped now sources fs = Some (states, final, lookup, failed) ->
  q <> path_Join dir (str ".last_updated") -> (forall src, src ∈ sources -> q <> list_path dir (Threat.File src) ++ str ".tmp") ->
  Forall (fun s => s !! q = fs !! q \/ exists src body, src ∈ sources /\ q = list_path dir (Threat.File src) /\ list_body (web (Threat.URL src)) = Some body /\ s !! q = Some (mkG body now)) states /\
  lookup = Threat.LoadDir (threat_files dir final) sources.
Proof.
  unfold threat_Update. cbn [negb]. set (jobs := _ <$> sources). intros Hu Hst Htmp.
  pose proof (download_all_whole threat_download list_body now (fun path _ => path ++ str ".tmp") jobs fs q (fun reply e path fs => threat_download_whole reply e now path fs)) as Hall.
  destruct (download_all threat_download now jobs fs) as [[sts fin] fails]. injection Hu as <- <- <- <-. split; [|done]. cbn [fst snd] in Hall.
  assert (forall s, from_jobs list_body now jobs fs s q -> s !! q = fs !! q \/ exists src body, src ∈ sources /\ q = list_path dir (Threat.File src) /\ list_body (web (Threat.URL src)) = Some body /\ s !! q = Some (mkG body now)) as Hto.
  { intros s [E|(reply & body & e & Hjob & Hb & E)]; [by left|right]. apply list_elem_of_fmap in Hjob as (src & [= -> -> _] & Hin). by exists src, body. }
  specialize (Hall ltac:(intros path reply e Hjob; apply list_elem_of_fmap in Hjob as (src & [= -> _ _] & Hin); by apply Htmp)). apply Forall_app in Hall as [H1 H2]. apply Forall_cons in H2 as [H2 _].
  apply Forall_app. split; [by eapply Forall_impl|]. apply Forall_singleton. apply Hto in H2. unfold stamp. destruct stamped; [|done]. by rewrite lookup_insert_ne by congruence.
Qed.
Definition tor_source : Threat.Source := {| Threat.Name := str "tor_exit"; Threat.URL := str "u"; Threat.File := str "tor_exit.txt"; Threat.Kind := str "tor" |}.
Lemma threat_lists_replaced_whole_witness : exists states final lookup failed, threat_Update true (str "/t") (fun _ => NoReply) (fun _ => all_ok) true 7 [tor_source] {[str "/t/tor_exit.txt" := mkG (str "192.0.2.7") 1]} = Some (states, final, lookup, failed) /\
  lookup = Threat.LoadDir (threat_files (str "/t") final) [tor_source].
Proof.
  eexists _, _, _, _. split; [reflexivity|].
  refine (proj2 (threat_lists_replaced_whole (str "/t") (fun _ => NoReply) (fun _ => all_ok) true 7 [tor_source] {[str "/t/tor_exit.txt" := mkG (str "192.0.2.7") 1]} _ _ _ _ (str "/t/tor_exit.txt") eq_refl _ _)).
  - decided.
  - intros src Hin. apply list_elem_of_singleton in Hin as ->. decided.
Defined.

(** ** Working sources are refreshed *)

Lemma download_all_installs (download : web_reply -> dl_faults -> Z -> gostr -> gfs -> list gfs * bool) (body : web_reply -> option gostr) (now : Z) (temp : gostr -> dl_faults -> gostr) (jobs : list (gostr * web_reply * dl_faults)) (fs : gfs) (q : gostr) (reply : web_reply) (e : dl_faults) (data : gostr) :
  (forall reply e path fs, Forall (replaces_whole reply body now path (temp path e) fs) (download reply e now path fs).1) ->
  (forall path reply e, (path, reply, e) ∈ jobs -> q <> temp path e) ->
  (forall fs, List.last (download reply e now q fs).1 fs !! q = Some (mkG data now)) ->
  NoDup (jobs.*1.*1) -> (q, reply, e) ∈ jobs -> (download_all download now jobs fs).1.2 !! q = Some (mkG data now).
Proof.
  intros Hd Hq Hin Hnd Hj. revert fs. induction jobs as [|[[path rp] e'] jobs IH]; intros fs; [by apply not_elem_of_nil in Hj|]. cbn [download_all fmap list_fmap fst] in *.
  apply NoDup_cons in Hnd as [Hne Hnd]. apply elem_of_cons in Hj as [[= <- <- <-]|Hj].
  - specialize (Hin fs). destruct (download reply e now q fs) as [states failed]. cbn [fst] in Hin.
    pose proof (download_all_whole download body now temp jobs (List.last states fs) q Hd ltac:(intros p r e1 H1; apply (Hq p r); by right)) as Hw.
    destruct (download_all download now jobs _) as [[more final] fails]. cbn [fst snd] in *. apply Forall_app in Hw as [_ Hw]. apply Forall_cons in Hw as [Hw _].
    destruct Hw as [E | (r & d & e1 & H1 & Hb1 & E1)]; [by rewrite E|]. destruct Hne. apply list_elem_of_fmap. exists (q, r). split; [done|]. apply list_elem_of_fmap. by exists (q, r, e1).
  - destruct (download rp e' now path fs) as [states failed]. specialize (IH ltac:(intros p r e1 H1; apply (Hq p r); by right) Hnd Hj (List.last states fs)).
    by destruct (download_all download now jobs _) as [[more final] fails].
Qed.
Definition no_fault (e : dl_faults) : Prop := f_create e = false /\ f_write e = None /\ f_close e = false /\ f_chmod e = false /\ f_rename e = false.
Lemma downloadFile_installs (reply : web_reply) (e : dl_faults) (now : Z) (path : gostr) (fs : gfs) (data : gostr) :
  whole_body reply = Some data -> no_fault e -> List.last (downloadFile reply e now path fs).1 fs !! path = Some (mkG data now).
Proof.
  intros Hb (E1 & E2 & E3 & _ & E5). unfold downloadFile. destruct reply as [|status body complete]; [done|].
  assert (status = 200 /\ complete = true /\ body = data) as (-> & -> & ->).
  { cbn in Hb. repeat case_match; simplify_eq; done. }
  rewrite E1, E2, E3, E5. cbn. by rewrite lookup_insert_eq.
Qed.
Lemma jobs_of_files (m : GeoIPManager) (a : download_attempt) : (jobs_of m a).*1.*1 = db_files (m_dataDir m).
Proof. reflexivity. Qed.
(** The databases are refreshed independently: one whose source answers in full and whose
    file can be written has the new contents after the update, whatever happens to the
    other three. *)
Theorem working_sources_refreshed a now m w file url data :
  (file, url) ∈ zip (db_files (m_dataDir m)) db_urls -> whole_body (a_web a url) = Some data -> no_fault (a_faults a file) ->
  files (DownloadDatabases a now m w).1.2 !! file = Some (mkG data now).
Proof.
  intros Hfu Hb Hf. unfold DownloadDatabases.
  assert (file ∈ db_files (m_dataDir m)) as Hin by (apply elem_of_zip_l in Hfu; done).
  pose proof (download_all_installs downloadFile whole_body now (fun path _ => path ++ str ".tmp") (jobs_of m a) (files w) file (a_web a url) (a_faults a file) data) as Hall.
  specialize (Hall (fun reply e path fs => downloadFile_whole reply e now path fs) (fun path reply e _ => db_file_not_temp _ _ _ Hin) (fun fs => downloadFile_installs _ _ now file fs data Hb Hf)).
  rewrite jobs_of_files in Hall. specialize (Hall (db_files_NoDup _)). destruct (download_all downloadFile now (jobs_of m a) (files w)) as [[states final] fails]. cbn [fst snd with_files files] in *. apply Hall.
  apply list_elem_of_lookup in Hfu as [j Hj]. apply lookup_zip_with_Some in Hj as (f' & u' & [= <- <-] & Hf' & Hu'). unfold jobs_of. apply list_elem_of_lookup. exists j. apply lookup_zip_with_Some. by eauto.
Qed.
Definition asn_only : download_attempt := {| a_web := fun url => if bool_decide (url = jsdelivrBaseURL ++ str "asn-mmdb/asn.mmdb") then Reply 200 (str "MMDB") true else NoReply; a_faults := fun _ => all_ok |}.
Lemma working_sources_refreshed_witness :
  files (DownloadDatabases asn_only 7 (NewGeoIPManager (str "/d")) (mkWorld ∅ 0 ∅)).1.2 !! str "/d/security/geoip/asn.mmdb" = Some (mkG (str "MMDB") 7).
Proof.
  apply (working_sources_refreshed asn_only 7 (NewGeoIPManager (str "/d")) (mkWorld ∅ 0 ∅) (str "/d/security/geoip/asn.mmdb") (jsdelivrBaseURL ++ str "asn-mmdb/asn.mmdb") (str "MMDB")).
  - decided.
  - vm_compute. reflexivity.
  - by split_and!.
Defined.
(** A restart does not postpone a refresh: after a successful start an update is due as
    soon as one of the databases that are loaded is older than the interval. *)
Theorem stale_databases_update valid mkdir_ok a now m w m' w' p f later :
  Initialize valid mkdir_ok a now m w = (m', w', false) -> p ∈ db_files (m_dataDir m') -> files w' !! p = Some f ->
  updateInterval < later - g_mtime f -> ShouldUpdate later m' = true.
Proof.
  intros Hi Hp Hf Hold. assert (exists m1, m' = with_update m1 (oldestDatabaseMtime m1 (files w'))) as [m1 ->].
  { unfold Initialize in Hi. destruct mkdir_ok; [|done]. cbn [negb] in Hi. destruct (if databasesExist m (files w) then _ else _) as [[? w1] [|]]; [done|].
    destruct (loadDatabases valid m w1) as [[m1 w2] [|]]; [done|]. injection Hi as <- <-. by exists m1. }
  cbn [m_dataDir with_update] in Hp. unfold ShouldUpdate. cbn [lastUpdate with_update].
  assert (forall ps (o : option Z), (p ∈ ps \/ exists t, o = Some t /\ t <= g_mtime f) ->
    exists t, fold_left (fun oldest p => match files w' !! p with Some f => Some (match oldest with Some t => Z.min t (g_mtime f) | None => g_mtime f end) | None => oldest end) ps o = Some t /\ t <= g_mtime f) as Hfold.
  { induction ps as [|p0 ps IH]; intros o [Hin|(t & -> & Ht)]; [by apply not_elem_of_nil in Hin|by exists t|..]; cbn [fold_left]; apply IH.
    - apply elem_of_cons in Hin as [<-|Hin]; [right; rewrite Hf|by left]. destruct o as [t|]; eexists; (split; [done|lia]).
    - right. destruct (files w' !! p0); eexists; (split; [done|lia]). }
  destruct (Hfold (db_files (m_dataDir m1)) None (or_introl Hp)) as (t & Et & Ht). unfold oldestDatabaseMtime. rewrite Et. apply Z.ltb_lt. lia.
Qed.
Definition day0_files : gfs := list_to_map ((fun p => (p, mkG (str "MMDB") 0)) <$> db_files (str "/d")).
Lemma stale_databases_update_witness : let r := Initialize (fun _ => true) true sample_attempt 5 (NewGeoIPManager (str "/d")) (mkWorld day0_files 0 ∅) in
  r.2 = false /\ ShouldUpdate (updateInterval + 1) r.1.1 = true.
Proof.
  cbv zeta. split; [vm_compute; reflexivity|].
  destruct (Initialize (fun _ => true) true sample_attempt 5 (NewGeoIPManager (str "/d")) (mkWorld day0_files 0 ∅)) as [[m' w'] b] eqn:E.
  eapply (stale_databases_update (fun _ => true) true sample_attempt 5 (NewGeoIPManager (str "/d")) (mkWorld day0_files 0 ∅) m' w' (str "/d/security/geoip/asn.mmdb") (mkG (str "MMDB") 0) (updateInterval + 1)).
  - rewrite E. assert (b = false) as -> by (change b with ((m', w', b).2); rewrite <- E; vm_compute; reflexivity). reflexivity.
  - change m' with ((m', w', b).1.1). rewrite <- E. decided.
  - change w' with ((m', w', b).1.2). rewrite <- E. vm_compute. reflexivity.
  - reflexivity.
Defined.

(** ** Readers stay open *)

Definition world_ok (w : world) : Prop := forall h, h ∈ open_handles w -> (h < next w)%nat.
(** [w'] is [w] with more files open. *)
Definition opened_more (w w' : world) : Prop := open_handles w ⊆ open_handles w' /\ (next w <= next w')%nat /\ world_ok w'.
(** The readers in [rs] were opened on the way to [w'], each once. *)
Definition fresh_readers (w w' : world) (rs : list (option reader)) : Prop :=
  (forall i r, rs !! i = Some (Some r) -> handle r ∈ open_handles w' /\ (next w <= handle r)%nat) /\
  (forall i j r r', rs !! i = Some (Some r) -> rs !! j = Some (Some r') -> handle r = handle r' -> i = j).
(** Every reader the manager holds and every one that lookups use is open, and no reader is
    held twice. *)
Record readers_ok (m : GeoIPManager) (w : world) : Prop := {
  ok_world : world_ok w;
  ok_dbs : forall i r, dbs m !! i = Some (Some r) -> handle r ∈ open_handles w;
  ok_once : forall i j r r', dbs m !! i = Some (Some r) -> dbs m !! j = Some (Some r') -> handle r = handle r' -> i = j;
  ok_live : forall r, r ∈ live m -> handle r ∈ open_handles w;
  ok_apart : forall i r r', dbs m !! i = Some (Some r) -> r' ∈ live m -> handle r <> handle r' }.
Section Readers.
Context (valid : gostr -> bool).
Lemma open_mm_spec (p : gostr) (w w' : world) (r : option reader) : world_ok w -> open_mm valid p w = (r, w') ->
  opened_more w w' /\ (forall r0, r = Some r0 -> handle r0 = next w /\ handle r0 ∈ open_handles w' /\ (next w < next w')%nat).
Proof.
  intros Hw. unfold open_mm. destruct (files w !! p) as [f|]; [destruct (valid (g_content f))|]; intros [= <- <-]; cbn.
  2,3: split; [split_and!; [done|lia|done]|done].
  split; [|intros r0 [= <-]; cbn; split_and!; [done|set_solver|lia]]. split_and!; cbn; [set_solver|lia|].
  intros h Hh. cbn in *. apply elem_of_union in Hh as [->%elem_of_singleton|Hh]; [lia|]. specialize (Hw h Hh). lia.
Qed.
Lemma opened_more_refl (w : world) : world_ok w -> opened_more w w.
Proof. intros Hw. unfold opened_more. split_and!; [done|lia|done]. Qed.
Lemma opened_more_trans (w1 w2 w3 : world) : opened_more w1 w2 -> opened_more w2 w3 -> opened_more w1 w3.
Proof. intros (H1 & H2 & _) (H3 & H4 & H5). unfold opened_more; split_and!; [set_solver|lia|done]. Qed.
(** One more reader in front of fresh ones. *)
Lemma fresh_cons (w w1 w2 : world) (r : option reader) (rs : list (option reader)) :
  (forall r0, r = Some r0 -> handle r0 = next w /\ handle r0 ∈ open_handles w1 /\ (next w < next w1)%nat) ->
  opened_more w w1 -> opened_more w1 w2 -> fresh_readers w1 w2 rs -> fresh_readers w w2 (r :: rs).
Proof.
  intros Hr (_ & Hn & _) (Hsub & _) [Hf Hi]. split.
  - intros [|i] r0; cbn; [intros [= ->]; destruct (Hr r0 eq_refl) as (? & ? & ?); split; [set_solver|lia]|]. intros Hl. apply Hf in Hl as [? ?]. split; [done|lia].
  - intros [|i] [|j] r0 r1; cbn; [done|intros [= ->] Hl E|intros Hl [= ->] E|].
    1,2: destruct (Hr _ eq_refl) as (? & ? & ?), (Hf _ _ Hl); lia.
    intros H1 H2 E. f_equal. by eapply Hi.
Qed.
Lemma open_each_spec (ps : list gostr) (w w' : world) (rs : list (option reader)) : world_ok w -> open_each valid ps w = (rs, w') ->
  opened_more w w' /\ fresh_readers w w' rs /\ length rs = length ps.
Proof.
  revert w rs. induction ps as [|p ps IH]; intros w rs Hw; cbn [open_each]; [intros [= <- <-]; split; [by apply opened_more_refl|by split]|].
  destruct (open_mm valid p w) as [r w1] eqn:E1. apply open_mm_spec in E1 as [Hm Hr]; [|done]. destruct (open_each valid ps w1) as [rs' w2] eqn:E2. intros [= <- <-].
  apply IH in E2 as (Hm2 & Hf & Hl); [|by destruct Hm as (_ & _ & ?)]. split_and!; [by eapply opened_more_trans|by eapply fresh_cons|by cbn; rewrite Hl].
Qed.
Lemma open_until_spec (ps : list gostr) (w w' : world) (rs : option (list reader)) : world_ok w -> open_until valid ps w = (rs, w') ->
  opened_more w w' /\ (forall l, rs = Some l -> fresh_readers w w' (Some <$> l)).
Proof.
  revert w rs. induction ps as [|p ps IH]; intros w rs Hw; cbn [open_until]; [intros [= <- <-]; split; [by apply opened_more_refl|by intros l [= <-]]|].
  destruct (open_mm valid p w) as [[r|] w1] eqn:E1; apply open_mm_spec in E1 as [Hm Hr]; try done; [|by intros [= <- <-]].
  destruct (open_until valid ps w1) as [rs' w2] eqn:E2. intros [= <- <-]. apply IH in E2 as [Hm2 Hf]; [|by destruct Hm as (_ & _ & ?)].
  split; [by eapply opened_more_trans|]. intros l. destruct rs' as [l'|]; [|done]. cbn. intros [= <-]. eapply fresh_cons; [exact Hr|exact Hm|exact Hm2|by apply Hf].
Qed.
(** Only the readers that are replaced are closed. *)
Lemma close_replaced_spec (new old : list (option reader)) (w : world) :
  files (close_replaced new old w) = files w /\ next (close_replaced new old w) = next w /\ open_handles (close_replaced new old w) ⊆ open_handles w /\
  (forall h, h ∈ open_handles w -> (forall i n r, new !! i = Some (Some n) -> old !! i = Some (Some r) -> handle r <> h) -> h ∈ open_handles (close_replaced new old w)).
Proof.
  revert old w. induction new as [|n new IH]; intros [|o old] w; try by split_and!. cbn [close_replaced].
  destruct (IH old (match n, o with Some _, Some r => close_reader r w | _, _ => w end)) as (E1 & E2 & E3 & E4). rewrite E1, E2.
  split_and!; [by destruct n, o|by destruct n, o|destruct n, o; cbn in *; set_solver|]. intros h Hh Hne. apply E4; [|intros i n' r H1 H2; by apply (Hne (S i) n' r)].
  destruct n as [n|], o as [o|]; try done. cbn. specialize (Hne 0%nat n o eq_refl eq_refl). set_solver.
Qed.
Lemma swapped_lookup (new old : list (option reader)) (i : nat) (r : reader) : zip_with swapped new old !! i = Some (Some r) ->
  new !! i = Some (Some r) \/ new !! i = Some None /\ old !! i = Some (Some r).
Proof. intros (n & o & E & Hn & Ho)%lookup_zip_with_Some. destruct n as [n|]; cbn in E; [left|right]; by simplify_eq. Qed.
Lemma swap_ok (m : GeoIPManager) (w w1 : world) (new : list (option reader)) : readers_ok m w -> opened_more w w1 -> fresh_readers w w1 new ->
  readers_ok (mkManager (m_dataDir m) (zip_with swapped new (dbs m)) (live m) (lastUpdate m)) (close_replaced new (dbs m) w1).
Proof.
  intros [H1 H2 H3 H4 H5] (Hsub & Hnx & Hw1) [Hf Hi]. destruct (close_replaced_spec new (dbs m) w1) as (_ & En & Hle & Hkeep).
  assert (forall i r, dbs m !! i = Some (Some r) -> (handle r < next w)%nat) as Hlt by (intros; apply H1; eauto).
  split; cbn [dbs live].
  - intros h Hh. rewrite En. apply Hw1. set_solver.
  - intros i r [Hn|[Hn Ho]]%swapped_lookup; apply Hkeep.
    + by eapply Hf.
    + intros j n r' _ Hr E. destruct (Hf _ _ Hn). specialize (Hlt _ _ Hr). lia.
    + apply Hsub. by eapply H2.
    + intros j n r' Hn' Hr E. pose proof (H3 _ _ _ _ Hr Ho E). congruence.
  - intros i j r r' [Hn|[Hn Ho]]%swapped_lookup [Hn'|[Hn' Ho']]%swapped_lookup E; [by eapply Hi| | |by eapply H3].
    + destruct (Hf _ _ Hn). specialize (Hlt _ _ Ho'). lia.
    + destruct (Hf _ _ Hn'). specialize (Hlt _ _ Ho). lia.
  - intros r Hr. apply Hkeep; [apply Hsub; auto|]. intros i n r' _ Ho. by eapply H5.
  - intros i r r' [Hn|[Hn Ho]]%swapped_lookup Hr; [|by eapply H5]. destruct (Hf _ _ Hn). specialize (H1 _ (H4 _ Hr)). lia.
Qed.
Lemma more_ok (m : GeoIPManager) (w w1 : world) : readers_ok m w -> opened_more w w1 -> readers_ok m w1.
Proof. intros [H1 H2 H3 H4 H5] (Hsub & _ & Hw). split; try done; eauto. Qed.
Lemma refreshLiveReader_ok (m : GeoIPManager) (w : world) : readers_ok m w -> readers_ok (refreshLiveReader valid m w).1 (refreshLiveReader valid m w).2.
Proof.
  intros Hok. unfold refreshLiveReader. destruct (open_until valid _ w) as [rs w1] eqn:E. apply open_until_spec in E as [Hm Hf]; [|apply Hok].
  pose proof (more_ok m w w1 Hok Hm) as Hok1. destruct rs as [rs|]; [|done]. cbn [fst snd]. destruct (Hf rs eq_refl) as [Hfr _], Hok1 as [H1 H2 H3 _ _].
  assert (forall r, r ∈ rs -> handle r ∈ open_handles w1 /\ (next w <= handle r)%nat) as Hrs.
  { intros r [i Hi]%list_elem_of_lookup. apply (Hfr i). by rewrite list_lookup_fmap, Hi. }
  split; cbn [dbs live]; [done..|by intros r Hr; apply Hrs|]. intros i r r' Hr Hr'. destruct (Hrs r' Hr'). pose proof (ok_world _ _ Hok _ (ok_dbs _ _ Hok _ _ Hr)). lia.
Qed.
Lemma loadDatabases_ok (m : GeoIPManager) (w : world) : readers_ok m w -> readers_ok (loadDatabases valid m w).1.1 (loadDatabases valid m w).1.2.
Proof.
  intros Hok. unfold loadDatabases. destruct (open_each valid (db_files (m_dataDir m)) w) as [new w1] eqn:E. apply open_each_spec in E as (Hm & Hf & _); [|apply Hok].
  destruct (forallb _ new); [by eapply more_ok|]. pose proof (refreshLiveReader_ok _ _ (swap_ok _ _ _ _ Hok Hm Hf)) as H. by destruct (refreshLiveReader valid _ _).
Qed.
Lemma with_update_ok (m : GeoIPManager) (w : world) (t : option Z) : readers_ok m w -> readers_ok (with_update m t) w.
Proof. by intros [? ? ? ? ?]. Qed.
Lemma DownloadDatabases_ok (a : download_attempt) (now : Z) (m : GeoIPManager) (w : world) : readers_ok m w -> readers_ok m (DownloadDatabases a now m w).1.2.
Proof. intros [H1 H2 H3 H4 H5]. unfold DownloadDatabases. destruct (download_all _ _ _ _) as [[? ?] ?]. by split. Qed.
Lemma download_and_load_ok (a : download_attempt) (now : Z) (m : GeoIPManager) (w : world) : readers_ok m w -> readers_ok (download_and_load valid a now m w).1.1 (download_and_load valid a now m w).1.2.
Proof.
  intros Hok. unfold download_and_load. apply (DownloadDatabases_ok a now) in Hok. destruct (DownloadDatabases a now m w) as [[? w1] [|]]; [done|]. cbn [fst snd] in Hok.
  apply loadDatabases_ok in Hok. destruct (loadDatabases valid m w1) as [[m1 w2] [|]]; [done|]. by apply with_update_ok.
Qed.
Lemma Initialize_ok (mkdir_ok : bool) (a : download_attempt) (now : Z) (m : GeoIPManager) (w : world) : readers_ok m w -> readers_ok (Initialize valid mkdir_ok a now m w).1.1 (Initialize valid mkdir_ok a now m w).1.2.
Proof.
  intros Hok. unfold Initialize. destruct mkdir_ok; [|done]. cbn [negb]. pose proof (DownloadDatabases_ok a now _ _ Hok) as Hd.
  destruct (databasesExist m (files w)); [clear Hd|destruct (DownloadDatabases a now m w) as [[? w1] [|]]; [done|]; cbn [fst snd] in Hd; clear Hok; rename Hd into Hok, w into w0, w1 into w].
  all: apply loadDatabases_ok in Hok; destruct (loadDatabases valid m w) as [[m1 w2] [|]]; [done|]; by apply with_update_ok.
Qed.
(** What the start, the scheduler and the administrator do to the manager. *)
Inductive operation := OpInitialize (mkdir_ok : bool) (a : download_attempt) (now : Z) | OpUpdate (a : download_attempt) (now : Z) | OpForceUpdate (a : download_attempt) (now : Z).
Definition run_op (o : operation) (mw : GeoIPManager * world) : GeoIPManager * world :=
  (match o with OpInitialize ok a now => Initialize valid ok a now mw.1 mw.2 | OpUpdate a now => geoip_Update valid a now mw.1 mw.2 | OpForceUpdate a now => ForceUpdate valid a now mw.1 mw.2 end).1.
(** Lookups never use a closed database: after any sequence of starts, scheduled and forced
    updates, whichever downloads and files fail in them, every reader that the manager
    holds and every reader that lookups use is open. *)
Theorem readers_stay_open ops dataDir fs :
  let mw := fold_left (fun mw o => run_op o mw) ops (NewGeoIPManager dataDir, mkWorld fs 0 ∅) in
  (forall r, r ∈ live mw.1 -> handle r ∈ open_handles mw.2) /\ (forall i r, dbs mw.1 !! i = Some (Some r) -> handle r ∈ open_handles mw.2).
Proof.
  cbv zeta. assert (forall mw, readers_ok mw.1 mw.2 -> readers_ok (fold_left (fun mw o => run_op o mw) ops mw).1 (fold_left (fun mw o => run_op o mw) ops mw).2) as Hrun.
  { induction ops as [|o ops IH]; intros [m w] Hok; [done|]. cbn [fold_left]. apply IH. unfold run_op. destruct o as [ok a now|a now|a now]; cbn [fst snd] in *.
    - by apply Initialize_ok.
    - unfold geoip_Update. destruct (negb (ShouldUpdate now m)); [done|by apply download_and_load_ok].
    - by apply download_and_load_ok. }
  destruct (Hrun (NewGeoIPManager dataDir, mkWorld fs 0 ∅)) as [_ H2 _ H4 _]; [|by split].
  assert (forall i r, dbs (NewGeoIPManager dataDir) !! i = Some (Some r) -> False) as Hno by (intros [|[|[|[|i]]]] r; done).
  split; cbn [fst snd]; [intros h Hh; set_solver|by intros i r ?%Hno|by intros i j r r' ?%Hno|by intros r ?%not_elem_of_nil|by intros i r r' ?%Hno].
Qed.
(** One database that is missing or damaged keeps the lookups on the readers they had, none
    at all after a start, although the other three have been loaded. *)
Lemma open_until_stops (ps : list gostr) (w : world) (p : gostr) : p ∈ ps -> (forall f, files w !! p = Some f -> valid (g_content f) = false) -> (open_until valid ps w).1 = None.
Proof.
  revert w. induction ps as [|p0 ps IH]; intros w Hin Hbad; [by apply not_elem_of_nil in Hin|]. cbn [open_until].
  destruct (open_mm valid p0 w) as [[r|] w1] eqn:E; [|done]. unfold open_mm in E.
  destruct (files w !! p0) as [f|] eqn:Ef; [|done]. destruct (valid (g_content f)) eqn:Ev; [|done]. injection E as <- <-.
  apply elem_of_cons in Hin as [-> | Hin]; [rewrite (Hbad f Ef) in Ev; done|].
  specialize (IH (mkWorld (files w) (S (next w)) ({[next w]} ∪ open_handles w)) Hin Hbad). destruct (open_until valid ps _) as [rs w2]. cbn [fst] in *. by subst rs.
Qed.
Lemma open_each_files (ps : list gostr) (w : world) : files (open_each valid ps w).2 = files w.
Proof.
  revert w. induction ps as [|p ps IH]; intros w; [done|]. cbn [open_each]. unfold open_mm. destruct (files w !! p) as [f|]; [destruct (valid (g_content f))|].
  all: match goal with |- context [open_each valid ?l ?w1] => specialize (IH w1); destruct (open_each valid l w1) end; done.
Qed.
(** One missing or damaged database leaves lookups without the other three: the readers
    they use stay what they were. *)
Theorem one_bad_database_blocks_lookups m w p :
  p ∈ db_files (m_dataDir m) -> (forall f, files w !! p = Some f -> valid (g_content f) = false) -> live (loadDatabases valid m w).1.1 = live m.
Proof.
  intros Hp Hbad. unfold loadDatabases. pose proof (open_each_files (db_files (m_dataDir m)) w) as Ef. destruct (open_each valid _ w) as [new w1]. cbn [snd] in Ef.
  destruct (forallb _ new); [done|]. unfold refreshLiveReader. cbn [m_dataDir]. set (w2 := close_replaced new (dbs m) w1). assert (files w2 = files w) as E2.
  { rewrite <- Ef. apply close_replaced_spec. }
  assert (p ∈ live_files (m_dataDir m)) as Hl.
  { unfold live_files, db_files, db_names in *. cbn [fmap list_fmap] in *. set_solver. }
  pose proof (open_until_stops (live_files (m_dataDir m)) w2 p Hl ltac:(by rewrite E2)) as Hn. destruct (open_until valid (live_files (m_dataDir m)) w2) as [rs w3]. cbn [fst] in Hn. by subst rs.
Qed.
End Readers.
Lemma one_bad_database_blocks_lookups_witness :
  let w := mkWorld (delete (str "/d/security/geoip/dbip-city-ipv6.mmdb") day0_files) 0 ∅ in
  (loadDatabases (fun _ => true) (NewGeoIPManager (str "/d")) w).2 = false /\ loaded (loadDatabases (fun _ => true) (NewGeoIPManager (str "/d")) w).1.1 1 = true /\
  live (loadDatabases (fun _ => true) (NewGeoIPManager (str "/d")) w).1.1 = live (NewGeoIPManager (str "/d")).
Proof.
  cbv zeta. split_and!; [vm_compute; reflexivity|vm_compute; reflexivity|]. eapply (one_bad_database_blocks_lookups (fun _ => true) (NewGeoIPManager (str "/d"))).
  - instantiate (1 := str "/d/security/geoip/dbip-city-ipv6.mmdb"). decided.
  - cbn [files]. rewrite lookup_delete_eq. done.
Defined.
