(* ===== verification/Cve.v ===== *)
(** * The vulnerability database: [cve/cve.go]

    The walk over the pages of the vulnerability API, the normalisation of its
    records, and the replacement of the database file by a temporary file and a
    rename.  The server, the JSON codec and the failures of the file system are
    arguments; an update is the sequence of the file systems it goes through, so
    that a reader or a crash at any point is covered.  A URL is kept in its parsed
    form: its text and the reading of that text by [http.NewRequest] cancel. *)
From stdpp Require Import base list gmap sorting.
From Stdlib Require Import ZArith Lia SpecFloat.
From S2P Require Import Prelude GoStrings GoTime GoPath GoUrl LogFiles Settings Updater.
Local Open Scope Z_scope.
Local Open Scope go_scope.

(** ** Data *)

Record nvdDescription := mkDescription { d_Lang : gostr; d_Value : gostr }.
Record nvdCVSSData := mkCVSSData { cd_Version : gostr; cd_VectorString : gostr; cd_BaseScore : spec_float; cd_BaseSeverity : gostr }.
Record nvdCVSSMetric := mkMetric { cm_Source : gostr; cm_Type : gostr; CVSSData : nvdCVSSData; cm_BaseSeverity : gostr }.
Record nvdMetrics := mkMetrics {
  CVSSMetricV40 : list nvdCVSSMetric; CVSSMetricV31 : list nvdCVSSMetric;
  CVSSMetricV30 : list nvdCVSSMetric; CVSSMetricV2 : list nvdCVSSMetric }.
Record nvdReference := mkReference { ref_URL : gostr; ref_Source : gostr }.
Record nvdCVE := mkCVE {
  c_ID : gostr; c_Published : gostr; c_LastModified : gostr; c_VulnStatus : gostr;
  c_Descriptions : list nvdDescription; c_Metrics : nvdMetrics; c_References : list nvdReference }.
(** The envelope of a page; of its fields the program reads these two. *)
Record nvdResponse := mkResponse { TotalResults : Z; Vulnerabilities : list nvdCVE }.
Record CVERecord := mkCVERecord {
  rec_ID : gostr; rec_Published : gostr; rec_LastModified : gostr; rec_VulnStatus : gostr; rec_Description : gostr;
  rec_Severity : gostr; rec_BaseScore : spec_float; rec_VectorString : gostr; rec_References : list gostr }.
Record CVEDatabase := mkDatabase {
  db_Source : gostr; db_UpdatedAt : gostr; db_RangeStart : gostr; db_RangeEnd : gostr; db_Count : Z; db_CVEs : list CVERecord }.

Definition NVDAPIURL : gostr := str "https://services.nvd.nist.gov/rest/json/cves/2.0".
Definition maxResultsPerPage : Z := 2000.
Definition requestDelay : duration := 6 * Second.
Definition lookbackWindow : duration := 7 * 24 * Hour.
Definition maxResponseBytes : Z := 32 * 1024 * 1024.
Definition maxPages : nat := 200.
(** The layout [2006-01-02T15:04:05.000]. *)
Definition nvdTimeLayout (t : Time) : gostr :=
  fmt_ymd t ++ str "T" ++ fmt_hms t ++ str "." ++ zero_pad 3 (utoa (unix_ns t mod Second / 1000000)).

Record CVEManager := mkManager { dataDir : gostr; apiURL : gostr; m_requestDelay : duration }.
Definition NewCVEManager (dir url : gostr) : CVEManager :=
  mkManager dir (if url =s [] then NVDAPIURL else url) requestDelay.

(** ** Normalising a record *)

Definition englishDescription (descriptions : list nvdDescription) : gostr :=
  match List.find (fun d => d_Lang d =s str "en") descriptions with
  | Some d => d_Value d
  | None => match descriptions with d :: _ => d_Value d | [] => [] end
  end.
Definition primaryMetric (m : nvdMetrics) : option nvdCVSSMetric :=
  head (mjoin [CVSSMetricV40 m; CVSSMetricV31 m; CVSSMetricV30 m; CVSSMetricV2 m]).
Definition metricSeverity (metric : nvdCVSSMetric) : gostr :=
  if cd_BaseSeverity (CVSSData metric) <>s [] then cd_BaseSeverity (CVSSData metric) else cm_BaseSeverity metric.
Definition reference_urls (refs : list nvdReference) : list gostr := filter (fun u => u <> []) (ref_URL <$> refs).
Definition newCVERecord (c : nvdCVE) : CVERecord :=
  let '(severity, score, vector) :=
    match primaryMetric (c_Metrics c) with
    | Some metric => (metricSeverity metric, cd_BaseScore (CVSSData metric), cd_VectorString (CVSSData metric))
    | None => ([], S754_zero false, [])
    end in
  mkCVERecord (c_ID c) (c_Published c) (c_LastModified c) (c_VulnStatus c) (englishDescription (c_Descriptions c))
    severity score vector (reference_urls (c_References c)).

(** ** The pages *)

Inductive cve_error :=
| DirFailed | BadSource | DownloadFailed | BadStatus (status : Z) | BodyFailed | DecodeFailed | CloseFailed | EncodeFailed | FileFailed.
(** What a request is answered with: nothing, or a status, the body as far as it
    was received, and whether closing it succeeds. *)
Inductive page_reply := NoReply | Reply (status : Z) (body : gostr) (complete closes : bool).

Section update.
  Context `{UnicodeTables} `{Authority}.
  Context (m : CVEManager) (web : nat -> URL -> page_reply).
  Context (unmarshal : gostr -> option nvdResponse) (marshal : CVEDatabase -> option gostr).

Definition pageURL (start end' : Time) (startIndex : Z) : option URL :=
  (fun u =>
     let q := (ParseQuery (u_RawQuery u)).1 in
     let q := Values_Set (str "resultsPerPage") (Itoa maxResultsPerPage) q in
     let q := Values_Set (str "startIndex") (Itoa startIndex) q in
     let q := Values_Set (str "lastModStartDate") (nvdTimeLayout (UTC start) ++ str "Z") q in
     let q := Values_Set (str "lastModEndDate") (nvdTimeLayout (UTC end') ++ str "Z") q in
     mkURL (u_Scheme u) (u_Opaque u) (u_User u) (u_Host u) (u_Path u) (u_RawPath u) (Encode q) (u_Fragment u))
  <$> Parse (apiURL m).

(** The [page]-th request of an update. *)
Definition fetchPage (page : nat) (start end' : Time) (startIndex : Z) : result cve_error nvdResponse :=
  match pageURL start end' startIndex with
  | None => Err BadSource
  | Some u =>
      match web page u with
      | NoReply => Err DownloadFailed
      | Reply status body complete closes =>
          if negb (status =? 200) then Err (BadStatus status)
          else if negb complete then Err BodyFailed
          else match unmarshal (limited maxResponseBytes body) with
               | None => Err DecodeFailed
               | Some parsed => if closes then Ok parsed else Err CloseFailed
               end
      end
  end.

Definition page_records (resp : nvdResponse) : list CVERecord :=
  newCVERecord <$> filter (fun c => c_ID c <> []) (Vulnerabilities resp).
(** The loop: the result and the times of its requests.  [lag page] is what passes
    between the pause before a page and its request. *)
Fixpoint fetchPages (lag : nat -> Z) (n page : nat) (start end' : Time) (now : Z) (startIndex : Z) (records : list CVERecord)
  : result cve_error (list CVERecord) * list Z :=
  match n with
  | O => (Ok records, [])
  | S n' =>
      let now := now + (if (0 <? Z.of_nat page) && (0 <? m_requestDelay m) then m_requestDelay m else 0) + lag page in
      match fetchPage page start end' startIndex with
      | Err e => (Err e, [now])
      | Ok resp =>
          let records := records ++ page_records resp in
          let startIndex := startIndex + Z.of_nat (length (Vulnerabilities resp)) in
          if (Z.of_nat (length (Vulnerabilities resp)) =? 0) || (TotalResults resp <=? startIndex) then (Ok records, [now])
          else let '(r, ts) := fetchPages lag n' (S page) start end' now startIndex records in (r, now :: ts)
      end
  end.

(** ** The file *)

(** The calls of one [writeFileAtomic] that fail, and the random part of the name. *)
Record write_faults := mkWrite {
  w_random : gostr; w_create : bool; w_write : option nat; w_close : bool; w_chmod : bool; w_rename : bool; w_remove : bool }.
Definition temp_name (path random : gostr) : gostr := path ++ str ".tmp-" ++ random.
(** The deferred removal of the temporary file. *)
Definition drop_temp (e : write_faults) (tmp : gostr) (fs : fsys) : fsys := if w_remove e then fs else delete tmp fs.
(** The file systems after each call, and whether it failed; modes are 0600 and
    0644.  The temporary file
    is created only under a name that is not in use. *)
Definition writeFileAtomic (e : write_faults) (path data : gostr) (perm : Z) (fs : fsys) : list fsys * bool :=
  let tmp := temp_name path (w_random e) in
  if w_create e || bool_decide (is_Some (fs !! tmp)) then ([], true)
  else
    let opened := <[tmp := mkFile [] 384]> fs in
    match w_write e with
    | Some n => let partial := <[tmp := mkFile (take n data) 384]> fs in ([opened; partial; drop_temp e tmp partial], true)
    | None =>
        let written := <[tmp := mkFile data 384]> fs in
        if w_close e || w_chmod e then ([opened; written; drop_temp e tmp written], true)
        else let moded := <[tmp := mkFile data perm]> fs in
             if w_rename e then ([opened; written; moded; drop_temp e tmp moded], true)
             else ([opened; written; moded; <[path := mkFile data perm]> (delete tmp moded)], false)
    end.

Definition database_path : gostr := path_Join (dataDir m) (str "nvd.json").
Definition stamp_path : gostr := path_Join (dataDir m) (str ".last_updated").
Definition new_database (end' : Time) (records : list CVERecord) : CVEDatabase :=
  mkDatabase (apiURL m) (RFC3339 end') (RFC3339 (Add end' (- lookbackWindow))) (RFC3339 end') (Z.of_nat (length records)) records.
(** The file systems an update goes through, its error, and the times of its requests. *)
Definition Update (mkdir_fails : bool) (lag : nat -> Z) (e1 e2 : write_faults) (now : Z) (fs : fsys)
  : list fsys * option cve_error * list Z :=
  if mkdir_fails then ([fs], Some DirFailed, [])
  else
    let end' := mkTime now 0 in
    match fetchPages lag maxPages 0 (Add end' (- lookbackWindow)) end' now 0 [] with
    | (Err e, times) => ([fs], Some e, times)
    | (Ok records, times) =>
        match marshal (new_database end' records) with
        | None => ([fs], Some EncodeFailed, times)
        | Some data =>
            let '(written, failed) := writeFileAtomic e1 database_path data 420 fs in
            let states := fs :: written in
            if failed then (states, Some FileFailed, times)
            else (states ++ (writeFileAtomic e2 stamp_path (RFC3339 end' ++ ["010"%char]) 420 (default fs (last written))).1, None, times)
        end
    end.
End update.

(** ** Replacing a file *)

(** At every moment of a replacement every other file but the temporary one is
    what it was, and the file itself is the old one, or the complete new one when
    the replacement succeeds. *)
Definition replaces (path data : gostr) (perm : Z) (failed : bool) (fs : fsys) (q : gostr) (s : fsys) : Prop :=
  s !! q = fs !! q \/ (q = path /\ failed = false /\ s !! q = Some (mkFile data perm)).
Lemma writeFileAtomic_states e path data perm fs states failed q :
  writeFileAtomic e path data perm fs = (states, failed) -> q <> temp_name path (w_random e) ->
  Forall (replaces path data perm failed fs q) states.
Proof.
  unfold writeFileAtomic, drop_temp, replaces. intros E Hq.
  destruct (w_create e || _); [by simplify_eq|].
  destruct (w_write e); [|destruct (w_close e || w_chmod e); [|destruct (w_rename e)]]; simplify_eq;
    repeat (apply Forall_cons_2; [try (left; destruct (w_remove e); by rewrite ?lookup_delete_ne, ?lookup_insert_ne)|]);
    try apply Forall_nil_2.
  destruct (decide (q = path)) as [->|Hp]; [right; by rewrite lookup_insert_eq|].
  left. by rewrite lookup_insert_ne, lookup_delete_ne, lookup_insert_ne.
Qed.
Lemma writeFileAtomic_last e path data perm fs states :
  writeFileAtomic e path data perm fs = (states, false) -> exists s, last states = Some s /\ s !! path = Some (mkFile data perm).
Proof.
  unfold writeFileAtomic. intros E. destruct (w_create e || _); [done|].
  destruct (w_write e); [done|]. destruct (w_close e || w_chmod e); [done|]. destruct (w_rename e); [done|]. simplify_eq.
  eexists. split; [done|]. by rewrite lookup_insert_eq.
Qed.

(** The names differ in their last byte. *)
Lemma data_file dir n : n <> [] -> Clean n = n -> plain n -> exists pre, path_Join dir n = pre ++ n.
Proof.
  intros Hne Hc Hn. destruct dir as [|c dir]; [exists []; by destruct n|].
  destruct (path_Join_prefix (c :: dir) ltac:(done)) as [pre Hp]. eauto.
Qed.
Lemma database_file m : exists pre, database_path m = pre ++ str "nvd.json".
Proof. apply data_file; [done|by vm_compute|]. split_and!; try done. by apply (bool_decide_eq_true _); vm_compute. Qed.
Lemma stamp_file m : exists pre, stamp_path m = pre ++ str ".last_updated".
Proof. apply data_file; [done|by vm_compute|]. split_and!; try done. by apply (bool_decide_eq_true _); vm_compute. Qed.
Lemma last_suffix {A} (l k : list A) : k <> [] -> last (l ++ k) = last k.
Proof. intros Hk. destruct k as [|x k] using rev_ind; [done|]. by rewrite app_assoc, !last_snoc. Qed.
(** The last byte of a temporary name is the hyphen or a digit. *)
Lemma temp_last path random c : forallb isDigit random = true -> last (temp_name path random) = Some c -> c = "-"%char \/ isDigit c = true.
Proof.
  intros Hd. unfold temp_name. destruct random as [|x r _] using rev_ind.
  - rewrite app_nil_r, last_suffix by done. intros [= <-]. by left.
  - rewrite !app_assoc, last_snoc. intros [= <-]. right. rewrite forallb_app in Hd. apply andb_true_iff in Hd as [_ Hd]. cbn in Hd.
    by apply andb_true_iff in Hd as [? _].
Qed.
Lemma database_names m path random :
  forallb isDigit random = true -> database_path m <> stamp_path m /\ database_path m <> temp_name path random.
Proof.
  intros Hd. destruct (database_file m) as [p Ep], (stamp_file m) as [q Eq].
  assert (last (database_path m) = Some "n"%char) as Hl by (by rewrite Ep, last_suffix).
  split; intros E; rewrite E in Hl.
  - by rewrite Eq, last_suffix in Hl.
  - by apply temp_last in Hl as [?|?].
Qed.

(** ** An update *)

Section updates.
  Context `{UnicodeTables} `{Authority}.
  Context (m : CVEManager) (web : nat -> URL -> page_reply).
  Context (unmarshal : gostr -> option nvdResponse) (marshal : CVEDatabase -> option gostr).
  Context (lag : nat -> Z) (e1 e2 : write_faults) (now : Z).
Abbreviation walk := (fetchPages m web unmarshal lag maxPages 0 (Add (mkTime now 0) (- lookbackWindow)) (mkTime now 0) now 0 []).

(** The database written by an update that gets that far. *)
Definition fetched (data : gostr) : Prop :=
  exists records, walk.1 = Ok records /\ marshal (new_database m (mkTime now 0) records) = Some data.
Lemma Update_cases mkdir_fails fs states err times :
  Update m web unmarshal marshal mkdir_fails lag e1 e2 now fs = (states, err, times) ->
  (states = [fs] /\ err <> None) \/
  exists data w1 f1, fetched data /\ writeFileAtomic e1 (database_path m) data 420 fs = (w1, f1) /\
    ((f1 = true /\ states = fs :: w1 /\ err <> None) \/
     (f1 = false /\ err = None /\ exists fs1 stamp w2 f2, last w1 = Some fs1 /\ fs1 !! database_path m = Some (mkFile data 420) /\
        writeFileAtomic e2 (stamp_path m) stamp 420 fs1 = (w2, f2) /\ states = fs :: w1 ++ w2)).
Proof.
  unfold Update, fetched. cbv zeta. intros E. destruct mkdir_fails; [left; simplify_eq; split_and?; done|].
  destruct walk as [[records|x] ts]; [|left; simplify_eq; split_and?; done].
  destruct (marshal _) as [data|] eqn:Em; [|left; simplify_eq; split_and?; done]. right.
  destruct (writeFileAtomic e1 _ _ _ fs) as [w1 f1] eqn:E1. exists data, w1, f1. split; [by exists records|]. split; [done|].
  destruct f1; [left; simplify_eq; split_and?; done|]. right.
  destruct (writeFileAtomic_last _ _ _ _ _ _ E1) as (fs1 & Hl & Hfs1). rewrite Hl in E. cbn [default from_option id] in E.
  destruct (writeFileAtomic e2 _ _ _ fs1) as [w2 f2] eqn:E2. cbn in E. simplify_eq. split; [done|]. split; [done|].
  by exists fs1, (RFC3339 (mkTime now 0) ++ ["010"%char]), w2, f2.
Qed.
(** C30. Whatever fails and whenever the file system is looked at during an update,
    the vulnerability database is the old file or a complete new one that encodes
    the records of the pages; an update that reports an error leaves the old file
    throughout, one that reports none ends with the new one; and no file but the
    database, the time stamp and their temporary files is touched. *)
Theorem Update_atomic mkdir_fails fs states err times :
  Update m web unmarshal marshal mkdir_fails lag e1 e2 now fs = (states, err, times) ->
  forallb isDigit (w_random e1) = true -> forallb isDigit (w_random e2) = true ->
  Forall (fun s => s !! database_path m = fs !! database_path m \/
                   err = None /\ exists data, fetched data /\ s !! database_path m = Some (mkFile data 420)) states /\
  (err = None -> exists s data, last states = Some s /\ fetched data /\ s !! database_path m = Some (mkFile data 420)) /\
  (forall q, q ∉ [database_path m; stamp_path m; temp_name (database_path m) (w_random e1); temp_name (stamp_path m) (w_random e2)] ->
     Forall (fun s => s !! q = fs !! q) states).
Proof.
  intros E Hd1 Hd2.
  destruct (database_names m (database_path m) (w_random e1) Hd1) as [Hstamp Htmp1].
  destruct (database_names m (stamp_path m) (w_random e2) Hd2) as [_ Htmp2].
  destruct (Update_cases _ _ _ _ _ E) as [[-> Hn]|(data & w1 & f1 & Hf & E1 & Hcase)].
  { split_and!; [repeat constructor; auto|done|repeat constructor]. }
  pose proof (fun q => writeFileAtomic_states _ _ _ _ _ _ _ q E1) as H1.
  destruct Hcase as [(-> & -> & Hn)|(-> & -> & fs1 & stamp & w2 & f2 & Hl & Hfs1 & E2 & ->)].
  - split_and!; [|done|].
    + constructor; [by left|]. eapply Forall_impl; [by apply (H1 (database_path m))|]. intros s [?|(? & ? & ?)]; [by left|done].
    + intros q Hq. constructor; [done|]. eapply Forall_impl; [apply (H1 q); set_solver|]. intros s [?|(? & ? & _)]; [done|by subst].
  - pose proof (fun q => writeFileAtomic_states _ _ _ _ _ _ _ q E2) as H2.
    assert (Forall (fun s => s !! database_path m = Some (mkFile data 420)) w2) as Hw2.
    { eapply Forall_impl; [by apply (H2 (database_path m))|]. intros s [->|(? & _)]; congruence. }
    split_and!.
    + constructor; [by left|]. apply Forall_app. split.
      * eapply Forall_impl; [by apply (H1 (database_path m))|]. intros s [?|(_ & _ & ?)]; [by left|right; eauto].
      * eapply Forall_impl; [exact Hw2|]. intros s Hs. right. eauto.
    + intros _. destruct w2 as [|s w2 _] using rev_ind.
      * exists fs1, data. rewrite app_nil_r. split; [|done]. by destruct w1.
      * exists s, data. rewrite app_comm_cons, app_assoc, last_snoc. apply Forall_app in Hw2 as [_ Hs]. by inversion Hs.
    + intros q Hq. constructor; [done|]. assert (forall s, replaces (database_path m) data 420 false fs q s -> s !! q = fs !! q) as Hs.
      { intros s [?|(Hqs & _)]; [done|rewrite Hqs in Hq; set_solver]. }
      assert (Forall (fun s => s !! q = fs !! q) w1) as Hq1 by (eapply Forall_impl; [apply (H1 q); set_solver|exact Hs]).
      apply Forall_app. split; [done|]. eapply Forall_impl; [apply (H2 q); set_solver|].
      assert (fs1 !! q = fs !! q) as <- by (rewrite Forall_forall in Hq1; apply Hq1, last_Some_elem_of, Hl).
      intros s [?|(Hqs & _)]; [done|rewrite Hqs in Hq; set_solver].
Qed.
End updates.

(** ** The walk over the pages *)

Section walks.
  Context `{UnicodeTables} `{Authority}.
  Context (m : CVEManager) (web : nat -> URL -> page_reply) (unmarshal : gostr -> option nvdResponse) (lag : nat -> Z).
  Context (start end' : Time).
Abbreviation stored vs := (newCVERecord <$> filter (fun c => c_ID c <> []) vs).

(** A server that holds the records [all] and gives out [k] of them at a time. *)
Definition serves (all : list nvdCVE) (k : nat) : Prop :=
  forall page i, (i <= length all)%nat ->
    fetchPage m web unmarshal page start end' (Z.of_nat i) = Ok (mkResponse (Z.of_nat (length all)) (take k (drop i all))).
Lemma fetchPages_serves all k n page now i records :
  serves all k -> (1 <= k)%nat -> (i <= length all)%nat ->
  (fetchPages m web unmarshal lag n page start end' now (Z.of_nat i) records).1
    = Ok (records ++ stored (take (n * k) (drop i all))).
Proof.
  intros Hs Hk. revert page now i records. induction n as [|n IH]; intros page now i records Hi; [cbn; by rewrite app_nil_r|].
  cbn [fetchPages]. rewrite Hs by done. cbn zeta. unfold page_records. cbn [Vulnerabilities TotalResults].
  rewrite length_take, length_drop, <- Nat2Z.inj_add.
  assert (take (S n * k) (drop i all) = take k (drop i all) ++ take (n * k) (drop (i + k) all)) as ->.
  { rewrite <- drop_drop. replace (S n * k)%nat with (k + n * k)%nat by lia.
    rewrite <- (take_drop k (drop i all)) at 1. destruct (decide (k <= length (drop i all))%nat) as [Hl|Hl].
    - rewrite take_app_add' by (by rewrite length_take; lia). done.
    - rewrite (drop_ge (drop i all) k) by lia. rewrite !take_nil, !app_nil_r. rewrite take_ge; [done|rewrite length_take; lia]. }
  rewrite filter_app, fmap_app, app_assoc.
  destruct (_ || _) eqn:Estop; cbn [fst].
  - apply orb_true_iff in Estop. rewrite Z.eqb_eq, Z.leb_le in Estop.
    rewrite (drop_ge all (i + k)) by lia. by rewrite take_nil, app_nil_r.
  - apply orb_false_iff in Estop. rewrite Z.eqb_neq, Z.leb_gt in Estop.
    replace (i + k `min` (length all - i))%nat with (i + k)%nat in * by lia.
    specialize (IH (S page) (now + (if (0 <? Z.of_nat page) && (0 <? m_requestDelay m) then m_requestDelay m else 0) + lag page)
                  (i + k)%nat (records ++ stored (take k (drop i all))) ltac:(lia)).
    destruct (fetchPages _ _ _ _ n _ _ _ _ _ _). exact IH.
Qed.

(** Times, each at least [d] after the one before. *)
Fixpoint apart (d prev : Z) (ts : list Z) : Prop := match ts with [] => True | t :: ts' => prev + d <= t /\ apart d t ts' end.
Lemma fetchPages_apart n page now i records :
  (forall k, 0 <= lag k) -> (1 <= page)%nat -> 0 < m_requestDelay m ->
  apart (m_requestDelay m) now (fetchPages m web unmarshal lag n page start end' now i records).2.
Proof.
  intros Hlag. revert page now i records. induction n as [|n IH]; intros page now i records Hp Hd; [done|].
  cbn [fetchPages]. rewrite !(proj2 (Z.ltb_lt _ _)) by lia. cbn [andb]. specialize (Hlag page).
  destruct (fetchPage _ _ _ _ _ _ _) as [resp|x]; [|cbn; split; [lia|done]]. cbn zeta.
  destruct (_ || _); [cbn; split; [lia|done]|].
  specialize (IH (S page) (now + m_requestDelay m + lag page) (i + Z.of_nat (length (Vulnerabilities resp)))
    (records ++ page_records resp) ltac:(lia) Hd).
  destruct (fetchPages _ _ _ _ n _ _ _ _ _ _). cbn in *. split; [lia|done].
Qed.
End walks.

Definition within (lo hi t : Z) : Prop := lo <= t < hi.
#[export] Instance within_dec lo hi t : Decision (within lo hi t).
Proof. unfold within. apply _. Defined.
Lemma apart_count d lo hi prev ts :
  0 < d -> apart d prev ts -> let k := Z.of_nat (length (filter (within lo hi) ts)) in k = 0 \/ k * d < hi - prev.
Proof.
  intros Hd. revert prev. induction ts as [|t ts IH]; intros prev; [by left|]. intros [Ht Hts].
  specialize (IH t Hts). cbn zeta in *. rewrite filter_cons. destruct (decide (within lo hi t)) as [[? ?]|]; [|lia].
  cbn [length]. right. lia.
Qed.
Lemma apart_window d n lo prev ts :
  0 < d -> apart d prev ts -> Z.of_nat (length (filter (within lo (lo + n * d)) ts)) <= Z.max 0 n.
Proof.
  intros Hd. revert prev. induction ts as [|t ts IH]; intros prev; [cbn; lia|]. intros [Ht Hts].
  rewrite filter_cons. destruct (decide (within lo (lo + n * d) t)) as [[? ?]|]; [|by eapply IH].
  pose proof (apart_count d lo (lo + n * d) t ts Hd Hts) as Hc. cbn zeta in Hc. cbn [length]. nia.
Qed.

Section service.
  Context `{UnicodeTables} `{Authority}.
  Context (m : CVEManager) (web : nat -> URL -> page_reply).
  Context (unmarshal : gostr -> option nvdResponse) (marshal : CVEDatabase -> option gostr).
  Context (lag : nat -> Z) (e1 e2 : write_faults) (now : Z).
Abbreviation begin := (Add (mkTime now 0) (- lookbackWindow)).
Abbreviation finish := (mkTime now 0).

Definition no_faults (e : write_faults) : Prop :=
  w_create e = false /\ w_write e = None /\ w_close e = false /\ w_chmod e = false /\ w_rename e = false.
(** Against a server that hands out its records a page at a time, an update in
    which no call fails ends with a database of every record of the server that
    has an identifier, once and in the server's order, as long as the two hundred
    pages it asks for are enough; beyond that it stores the records of these
    pages, without an error. *)
Theorem Update_collects all k fs data :
  serves m web unmarshal begin finish all k -> (1 <= k)%nat ->
  no_faults e1 -> fs !! temp_name (database_path m) (w_random e1) = None ->
  forallb isDigit (w_random e1) = true -> forallb isDigit (w_random e2) = true ->
  let records := newCVERecord <$> filter (fun c => c_ID c <> []) (take (maxPages * k) all) in
  marshal (new_database m finish records) = Some data ->
  exists s, last (Update m web unmarshal marshal false lag e1 e2 now fs).1.1 = Some s /\
    (Update m web unmarshal marshal false lag e1 e2 now fs).1.2 = None /\
    s !! database_path m = Some (mkFile data 420) /\
    ((length all <= maxPages * k)%nat -> records = newCVERecord <$> filter (fun c => c_ID c <> []) all).
Proof.
  intros Hs Hk Hnf Hfree Hd1 Hd2 records Hm.
  destruct (Update m web unmarshal marshal false lag e1 e2 now fs) as [[states err] times] eqn:E.
  pose proof (fetchPages_serves m web unmarshal lag begin finish all k maxPages 0 now 0 [] Hs Hk ltac:(lia)) as Hw.
  rewrite drop_0, app_nil_l in Hw. change (Z.of_nat 0) with 0 in Hw. fold records in Hw.
  destruct (Update_cases _ _ _ _ _ _ _ _ _ _ _ _ _ E) as [[-> Hn]|(d & w1 & f1 & (rs & Hrs & Hrm) & E1 & Hcase)].
  { exfalso. unfold Update in E. cbv zeta in E. destruct (fetchPages _ _ _ _ _ _ _ _ _ _ _) as [r ts]. cbn [fst] in Hw. subst r.
    cbv beta iota in E. rewrite Hm in E. destruct (writeFileAtomic _ _ _ _ _) as [? []] eqn:E1; [|simplify_eq].
    destruct Hnf as (H1 & H2 & H3 & H4 & H5). unfold writeFileAtomic in E1. by rewrite H1, H2, H3, H4, H5, Hfree in E1. }
  assert (d = data) as -> by congruence.
  destruct Hcase as [(-> & _ & _)|(-> & -> & fs1 & stamp & w2 & f2 & Hl & Hfs1 & E2 & ->)].
  { destruct Hnf as (H1 & H2 & H3 & H4 & H5). unfold writeFileAtomic in E1. by rewrite H1, H2, H3, H4, H5, Hfree in E1. }
  destruct (database_names m (stamp_path m) (w_random e2) Hd2) as [Hst Htmp].
  pose proof (writeFileAtomic_states _ _ _ _ _ _ _ _ E2 Htmp) as Hw2. cbn [fst snd].
  assert (Forall (fun s => s !! database_path m = Some (mkFile data 420)) w2) as Hall.
  { eapply Forall_impl; [exact Hw2|]. intros s [->|(? & _)]; [done|congruence]. }
  assert ((length all <= maxPages * k)%nat -> records = newCVERecord <$> filter (fun c => c_ID c <> []) all) as Hr.
  { intros Hle. unfold records. by rewrite take_ge. }
  destruct w2 as [|s w2 _] using rev_ind.
  - exists fs1. rewrite app_nil_r. split_and!; try done. by destruct w1.
  - exists s. rewrite app_comm_cons, app_assoc, last_snoc. apply Forall_app in Hall as [_ Hall]. by inversion Hall.
Qed.
End service.

(** The requests of an update respect the public limit of the service: in
    whatever way the pages are answered, any thirty seconds hold at most five. *)
Theorem request_rate `{UnicodeTables} `{Authority} dir url web unmarshal marshal lag mkdir_fails e1 e2 now fs lo :
  (forall page, 0 <= lag page) ->
  Z.of_nat (length (filter (within lo (lo + 30 * Second))
    (Update (NewCVEManager dir url) web unmarshal marshal mkdir_fails lag e1 e2 now fs).2)) <= 5.
Proof.
  intros Hlag. unfold Update. cbv zeta. destruct mkdir_fails; [cbn; lia|]. set (mgr := NewCVEManager dir url).
  assert (forall n ts, (fetchPages mgr web unmarshal lag n 0 (Add (mkTime now 0) (- lookbackWindow)) (mkTime now 0) now 0 []).2 = ts ->
    exists prev, apart requestDelay prev ts) as Ha.
  { intros [|n] ts <-; [by exists 0|]. cbn [fetchPages]. exists (now + 0 + lag 0%nat - requestDelay).
    change (0 <? Z.of_nat 0) with false. cbn [andb].
    destruct (fetchPage _ _ _ _ _ _ _) as [resp|x]; [|cbn; split; [lia|done]]. cbn zeta.
    destruct (_ || _); [cbn; split; [lia|done]|].
    pose proof (fetchPages_apart mgr web unmarshal lag (Add (mkTime now 0) (- lookbackWindow)) (mkTime now 0) n 1
      (now + 0 + lag 0%nat) (0 + Z.of_nat (length (Vulnerabilities resp))) ([] ++ page_records resp) Hlag ltac:(lia) ltac:(done)) as Hr.
    destruct (fetchPages _ _ _ _ n _ _ _ _ _ _). cbn [snd apart] in *. split; [lia|done]. }
  destruct (fetchPages _ _ _ _ _ _ _ _ _ _ _) as [r ts] eqn:E. destruct (Ha maxPages ts ltac:(by rewrite E)) as [prev Hp].
  pose proof (apart_window requestDelay 5 lo prev ts ltac:(done) Hp) as Hc.
  replace (lo + 30 * Second) with (lo + 5 * requestDelay) by (unfold requestDelay; lia).
  destruct r as [records|x]; [|exact Hc]. destruct (marshal _); [|exact Hc].
  destruct (writeFileAtomic _ _ _ _ _) as [w []]; exact Hc.
Qed.

(** ** Witnesses *)

(** A server that reads the index of a page from the query, and a codec that keeps
    the identifiers. *)
Definition any_host : Authority := {| parseAuthority := fun _ a => Some (false, a) |}.
Definition demo_cve (id : string) : nvdCVE := mkCVE (str id) [] [] [] [] (mkMetrics [] [] [] []) [].
Definition demo_all : list nvdCVE := demo_cve <$> ["CVE-1"; ""; "CVE-2"]%string.
Definition demo_web (_ : nat) (u : URL) : page_reply :=
  Reply 200 (Values_Get (ParseQuery (u_RawQuery u)).1 (str "startIndex")) true true.
Definition demo_unmarshal (all : list nvdCVE) (k : nat) (body : gostr) : option nvdResponse :=
  (fun i => mkResponse (Z.of_nat (length all)) (take k (drop (Z.to_nat i) all))) <$> ParseInt body.
Definition demo_marshal (db : CVEDatabase) : option gostr := Some (Join (rec_ID <$> db_CVEs db) (str ",")).
Definition demo_manager : CVEManager := NewCVEManager (str "/data/cve") [].
Definition calm (random : string) : write_faults := mkWrite (str random) false None false false false false.
Definition demo_update (e1 : write_faults) : list fsys * option cve_error * list Z :=
  Update (H := ascii_tables) (H0 := any_host) demo_manager demo_web (demo_unmarshal demo_all 2) demo_marshal false (fun _ => 1)
    e1 (calm "22") 0 {[str "/data/cve/nvd.json" := mkFile (str "old") 420]}.

Lemma Update_atomic_witness :
  (demo_update (calm "11")).1.2 = None /\
  ((fun s => content <$> s !! str "/data/cve/nvd.json") <$> (demo_update (calm "11")).1.1)
    = Some <$> [str "old"; str "old"; str "old"; str "old"; str "CVE-1,CVE-2"; str "CVE-1,CVE-2"; str "CVE-1,CVE-2"; str "CVE-1,CVE-2"; str "CVE-1,CVE-2"] /\
  Forall (fun s : fsys => s !! str "/etc/passwd" = None) (demo_update (calm "11")).1.1.
Proof.
  split; [by vm_compute|]. split; [by vm_compute|]. unfold demo_update.
  match goal with |- Forall _ ?u.1.1 => destruct u as [[states err] times] eqn:E end.
  eapply Update_atomic in E as (_ & _ & Hq); [|by vm_compute|by vm_compute].
  apply (Hq (str "/etc/passwd")). by apply (bool_decide_eq_true _); vm_compute.
Defined.

Lemma Update_collects_witness :
  exists s, last (demo_update (calm "11")).1.1 = Some s /\ s !! str "/data/cve/nvd.json" = Some (mkFile (str "CVE-1,CVE-2") 420).
Proof.
  assert (serves (H := ascii_tables) (H0 := any_host) demo_manager demo_web (demo_unmarshal demo_all 2)
    (Add (mkTime 0 0) (- lookbackWindow)) (mkTime 0 0) demo_all 2) as Hserves.
  { intros page i Hi. cbn in Hi. destruct i as [|[|[|[|i]]]]; [by vm_compute..|lia]. }
  destruct (Update_collects (H := ascii_tables) (H0 := any_host) demo_manager demo_web (demo_unmarshal demo_all 2) demo_marshal (fun _ => 1)
    (calm "11") (calm "22") 0 demo_all 2 {[str "/data/cve/nvd.json" := mkFile (str "old") 420]} (str "CVE-1,CVE-2")
    Hserves ltac:(lia) ltac:(done) ltac:(by vm_compute) ltac:(done) ltac:(done) ltac:(by vm_compute)) as (s & Hl & _ & Hs & _).
  exists s. unfold demo_update. split; [exact Hl|exact Hs].
Defined.

Lemma request_rate_witness :
  Z.of_nat (length (filter (within 0 (0 + 30 * Second)) (demo_update (calm "11")).2)) <= 5 /\ length (demo_update (calm "11")).2 = 2%nat.
Proof.
  split; [|by vm_compute]. unfold demo_update, demo_manager. apply request_rate. intros. lia.
Defined.

(** A server that gives one record at a time has more than are stored: the update
    ends without an error after two hundred. *)
Lemma pages_cut_silently :
  let all := (fun i => demo_cve "CVE") <$> seq 0 201 in
  let out := fetchPages (H := ascii_tables) (H0 := any_host) demo_manager demo_web (demo_unmarshal all 1) (fun _ => 0) maxPages 0
    (mkTime 0 0) (mkTime 0 0) 0 0 [] in
  match out.1 with Ok records => length records = 200%nat /\ length all = 201%nat | Err _ => False end.
Proof. by vm_compute. Qed.
