(* ===== verification/Restore.v ===== *)
(** * Restoring a backup: [maintenanceRestore] and its helpers of [main.go]

    The disk is a function from cleaned absolute paths to what is there; whole
    directories are renamed, copied and removed.  The removals,
    renames, copies and creations of directories may fail, a removal or a copy after a
    part of its work, and a restore is the sequence of the disks it goes through, so
    that a crash at any point is covered.  [os.Stat] fails only where nothing is, and
    closing a copied file, whose error the code drops, loses nothing.  Permission bits
    and links are left out; the extraction is that of [BackupArchive].

    The theorems: a directory is replaced without losing the old or the new copy
    at any point; a restore that is refused or stopped before the confirmation
    changes nothing; and a completed restore puts every part of the archive in its
    place when the directories are apart.  They are not on a default
    installation, and there a completed restore loses the database. *)
From stdpp Require Import base list gmap strings sorting.
From Stdlib Require Import ZArith Lia.
From S2P Require Import Prelude GoStrings GoPath GoUrl Backup BackupArchive.
Local Open Scope Z_scope.
Local Open Scope go_scope.

(** ** Disks *)

Inductive node := NDir | NFile (content : gostr).
Abbreviation disk := (gostr -> option node).
Definition under (dir p : gostr) : bool := (p =s dir) || HasPrefix p (dir ++ str "/").
(** The path [p] below [dir], moved below [dir']. *)
Definition moved (dir dir' p : gostr) : gostr := dir' ++ drop (length dir) p.

(** [os.RemoveAll]; a failure keeps the directory and some of what is in it. *)
Definition RemoveAll (fault : option (gostr -> bool)) (dir : gostr) (s : disk) : disk :=
  fun p => if under dir p && match fault with None => true | Some keep => negb (keep p) && (p <>s dir) end then None else s p.
(** [os.MkdirAll] *)
Definition MkdirAll (dir : gostr) (s : disk) : disk :=
  fun p => match s p with Some n => Some n | None => if under p dir then Some NDir else None end.
(** [os.Rename] of a directory, which refuses an existing target. *)
Definition Rename (fault : bool) (src dst : gostr) (s : disk) : option disk :=
  if fault || bool_decide (s src = None) || bool_decide (is_Some (s dst)) then None
  else Some (fun p => if under dst p then s (moved dst src p) else if under src p then None else s p).
(** The entries of [src] for which [which] holds copied below [dst], where nothing
    is before. *)
Definition copy_entries (which : gostr -> bool) (src dst : gostr) (s : disk) : disk :=
  fun p => if under dst p && which p && bool_decide (is_Some (s (moved dst src p))) then s (moved dst src p) else s p.
(** [restoreCopyDir]: the disks, and whether it failed.  A failure leaves the
    entries copied so far; [progress] is some moment of the copying. *)
Definition restoreCopyDir (progress : gostr -> bool) (fault : option (gostr -> bool)) (src dst : gostr) (s : disk) : list disk * bool :=
  if bool_decide (s src = None) then ([], true)
  else
    let made := MkdirAll dst s in
    match fault with
    | Some done => ([made; copy_entries done src dst made], true)
    | None => ([made; copy_entries progress src dst made; copy_entries (fun _ => true) src dst made], false)
    end.

(** The calls of one replacement that fail. *)
Record replace_faults := mkFaults {
  f_clear : option (gostr -> bool); f_aside : bool; f_mkdir : bool; f_move : bool;
  f_progress : gostr -> bool; f_copy : option (gostr -> bool); f_drop : option (gostr -> bool); f_back : bool;
  f_final : option (gostr -> bool) }.
Definition restoreMoveDir (f : replace_faults) (src dst : gostr) (s : disk) : list disk * bool :=
  if f_mkdir f then ([], true)
  else
    let made := MkdirAll (parent_dir dst) s in
    match Rename (f_move f) src dst made with
    | Some s' => ([made; s'], false)
    | None => let '(states, failed) := restoreCopyDir (f_progress f) (f_copy f) src dst made in (made :: states, failed)
    end.

Inductive replace_error := AsideFailed | MoveFailed | RollbackFailed.
Definition final (s : disk) (states : list disk) : disk := List.last states s.
Definition aside (dst : gostr) : gostr := dst ++ str ".restore-old".
Definition restoreReplaceDir (f : replace_faults) (src dst : gostr) (s : disk) : list disk * option replace_error :=
  let oldDir := aside dst in
  let cleared := RemoveAll (f_clear f) oldDir s in
  match cleared dst with
  | None =>
      let '(states, failed) := restoreMoveDir f src dst cleared in
      (cleared :: states, if failed then Some MoveFailed else None)
  | Some _ =>
      match Rename (f_aside f) dst oldDir cleared with
      | None => ([cleared], Some AsideFailed)
      | Some kept =>
          let '(states, failed) := restoreMoveDir f src dst kept in
          let s' := final kept states in
          if failed then
            let dropped := RemoveAll (f_drop f) dst s' in
            match Rename (f_back f) oldDir dst dropped with
            | Some back => ([cleared; kept] ++ states ++ [dropped; back], Some MoveFailed)
            | None => ([cleared; kept] ++ states ++ [dropped], Some RollbackFailed)
            end
          else ([cleared; kept] ++ states ++ [RemoveAll (f_final f) oldDir s'], None)
      end
  end.

(** ** The command *)

Definition required_secrets : list gostr :=
  str <$> ["installation_secret"; "cookie_signing_key"; "csrf_token_secret"; "server.security.encryption_key"]%string.
(** The list a manifest declares, as far as it is one; entries that are not strings
    do not count. *)
Definition validateRequiredSecretManifest (declared : option (list gostr)) : bool :=
  match declared with
  | None => false
  | Some names => forallb (fun required => bool_decide (required ∈ names)) required_secrets
  end.
(** [base64.StdEncoding]: the URL alphabet with two other digits. *)
Definition std_digit (c : ascii) : option ascii :=
  if bool_decide (c = "-"%char) || bool_decide (c = "_"%char) then None
  else Some (if bool_decide (c = "+"%char) then "-"%char else if bool_decide (c = "/"%char) then "_"%char else c).
Definition Std_Decode (s : gostr) : option gostr := mapM std_digit s ≫= URL_Decode.
Definition key_of_32 (encoded : option gostr) : bool :=
  match encoded ≫= Std_Decode with Some key => Nat.eqb (length key) 32 | None => false end.

(** The limits of [server.restore]; a size that cannot be read or is not positive
    leaves the default. *)
Record restore_setting := mkSetting {
  set_MaxArchiveSize : gostr; set_MaxExpandedSize : gostr; set_MaxFiles : Z; set_MaxFileSize : gostr; set_MaxRatio : Z }.
Definition positive_or (d : Z) (n : option Z) : Z := match n with Some v => if 0 <? v then v else d | None => d end.
Definition backupRestoreLimits `{UnicodeTables} (scaled : gostr -> Z -> option Z) (cfg : option restore_setting) : BackupRestoreLimits :=
  let limits := defaultBackupRestoreLimits in
  match cfg with
  | None => limits
  | Some setting =>
      mkLimits (positive_or (MaxArchiveSize limits) (parseByteSize scaled (set_MaxArchiveSize setting)))
        (positive_or (MaxExpandedSize limits) (parseByteSize scaled (set_MaxExpandedSize setting)))
        (positive_or (MaxFiles limits) (Some (set_MaxFiles setting)))
        (positive_or (MaxFileSize limits) (parseByteSize scaled (set_MaxFileSize setting)))
        (positive_or (MaxRatio limits) (Some (set_MaxRatio setting)))
  end.

Inductive backup_file := NoFile | StatFails | Unreadable (size : Z) | Readable (raw : gostr).
Definition backup_size (b : backup_file) : Z := match b with Unreadable n => n | Readable raw => Z.of_nat (length raw) | _ => 0 end.
(** What the operator and the system contribute: whether the database is empty,
    the rights of the process, the configured and the typed token, the file with
    its name, the password and the answer typed, and the temporary directory. *)
Record restore_input := mkInput {
  firstRun : bool; elevated : bool; token : gostr; entered : gostr; backupFile : gostr; file : backup_file;
  password : option gostr; answer : option gostr; tmpDir : option gostr }.
(** The calls that fail: of the extraction, of the copy of the certificates, of the
    three replacements and of the removal of the temporary directory. *)
Record restore_faults := mkRestoreFaults {
  r_refused : gostr -> bool; r_ssl_progress : gostr -> bool; r_ssl : option (gostr -> bool);
  r_config : replace_faults; r_db : replace_faults; r_data : replace_faults; r_cleanup : option (gostr -> bool) }.
Inductive refusal := NotAuthorised | BackupMissing | StatError | TooLarge | NotReadable | NoPassword | DecryptFailed | NotGzip
| BadManifest | SecretsUndeclared | Cancelled | NoTempDir.
Inductive outcome :=
| Refused (why : refusal)
| ExtractFailed (e : extract_error) | SecretsInvalid | SslFailed | ConfigFailed (e : replace_error)
| DbFailed (e : replace_error) | DataFailed (e : replace_error)
| Completed (sslRestored dbRestored dataRestored : bool).

Definition requireOperatorAuth (elevated : bool) (token entered : gostr) : bool :=
  if elevated then true else if token =s [] then false else TrimSpace entered =s token.

Section command.
  Context `{UnicodeTables} `{BackupCipher}.
  (** The archive reader and its expansion ratio, the decoder of a manifest, the
      encryption key a configuration text has and the rows of a database file. *)
  Context (ratio_above : Z -> Z -> Z -> bool) (gunzip : gostr -> option tar_stream) (manifest_secrets : gostr -> option (option (list gostr))).
  Context (config_key : gostr -> option gostr) (secret_row : gostr -> gostr -> option gostr).

(** The first entry of that name, read up to a megabyte. *)
Definition limited_to (n : Z) (s : gostr) : gostr := if Z.of_nat (length s) <=? n then s else take (Z.to_nat n) s.
Definition readBackupManifest (archive : gostr) : option (option (list gostr)) :=
  match gunzip archive with
  | None => None
  | Some stream =>
      match List.find (fun e => h_name e =s str "manifest.json") (t_entries stream) with
      | Some e => let n := Z.min (h_size e) (2 ^ 20) in
                  if Z.of_nat (length (h_data e)) <? n then None else manifest_secrets (limited_to n (h_data e))
      | None => None
      end
  end.
Definition file_text (s : disk) (p : gostr) : option gostr := match s p with Some (NFile t) => Some t | _ => None end.
Definition validateRestoredBackupSecrets (s : disk) (configDir dbDir : gostr) : bool :=
  match file_text s (path_Join configDir (str "server.yml")), file_text s (path_Join dbDir (str "server.db")) with
  | Some text, Some db =>
      key_of_32 (config_key text) &&
      forallb (fun name => key_of_32 (secret_row db name)) (take 3 required_secrets)
  | _, _ => false
  end.
(** The disk with what an extraction wrote. *)
Definition extracted (st : extract_state) (s : disk) : disk :=
  fun p => match x_files st !! p with
           | Some data => Some (NFile data)
           | None => if existsb (under p) (elements (x_dirs st) ++ (map_to_list (x_files st)).*1) then Some NDir else s p
           end.
(** The checks before anything is written: the archive to extract. *)
Definition accept (limits : BackupRestoreLimits) (i : restore_input) : result refusal gostr :=
  if negb (firstRun i) && negb (requireOperatorAuth (elevated i) (token i) (entered i)) then Err NotAuthorised
  else match file i with
  | NoFile => Err BackupMissing
  | StatFails => Err StatError
  | _ =>
    if MaxArchiveSize limits <? backup_size (file i) then Err TooLarge
    else match file i with
    | Readable raw =>
      let decrypted :=
        if HasSuffix (backupFile i) (str ".enc") then
          match password i with
          | None => Err NoPassword
          | Some pw => match decryptBackupArchive raw pw with Ok a => Ok a | Err _ => Err DecryptFailed end
          end
        else Ok raw in
      let? archive := decrypted in
      if bool_decide (gunzip archive = None) then Err NotGzip
      else match readBackupManifest archive with
      | None => Err BadManifest
      | Some declared =>
          if negb (validateRequiredSecretManifest declared) then Err SecretsUndeclared
          else match answer i with
               | Some a => if ToLower (TrimSpace a) =s str "y" then Ok archive else Err Cancelled
               | None => Err Cancelled
               end
      end
    | _ => Err NotReadable
    end
  end.

(** One of the three directories: replaced when the archive has it. *)
Definition restore_part (f : replace_faults) (src dst : gostr) (s : disk) : list disk * result replace_error bool :=
  match s src with
  | None => ([], Ok false)
  | Some _ => let '(states, err) := restoreReplaceDir f src dst s in (states, match err with Some e => Err e | None => Ok true end)
  end.
(** The configuration, with the certificates in use when the archive has none. *)
Definition keep_ssl (f : restore_faults) (src dst : gostr) (s : disk) : list disk * bool :=
  if bool_decide (is_Some (s src)) && negb (bool_decide (is_Some (s (path_Join src (str "ssl"))))) && bool_decide (is_Some (s (path_Join dst (str "ssl"))))
  then restoreCopyDir (r_ssl_progress f) (r_ssl f) (path_Join dst (str "ssl")) (path_Join src (str "ssl")) s
  else ([], false).
Definition ssl_in (s : disk) (src : gostr) : bool := bool_decide (is_Some (s src)) && bool_decide (is_Some (s (path_Join src (str "ssl")))).

(** The three replacements, in the order of the code. *)
Definition install (f : restore_faults) (tmp configDir dbDir dataDir : gostr) (s : disk) : list disk * outcome :=
  let extractedConfig := path_Join tmp (Base configDir) in
  let sslRestored := ssl_in s extractedConfig in
  let '(a, failed) := keep_ssl f extractedConfig configDir s in
  if failed then (a, SslFailed) else
  let '(b, config) := restore_part (r_config f) extractedConfig configDir (final s a) in
  match config with
  | Err e => (a ++ b, ConfigFailed e)
  | Ok _ =>
      let '(c, db) := restore_part (r_db f) (path_Join tmp (str "db")) dbDir (final s (a ++ b)) in
      match db with
      | Err e => (a ++ b ++ c, DbFailed e)
      | Ok dbRestored =>
          let '(d, data) := restore_part (r_data f) (path_Join tmp (Base dataDir)) dataDir (final s (a ++ b ++ c)) in
          match data with
          | Err e => (a ++ b ++ c ++ d, DataFailed e)
          | Ok dataRestored => (a ++ b ++ c ++ d, Completed sslRestored dbRestored dataRestored)
          end
      end
  end.
(** The command up to the restored files; what follows republishes keys.  What an
    extraction that fails leaves in the temporary directory is left out. *)
Definition maintenanceRestore (limits : BackupRestoreLimits) (f : restore_faults) (i : restore_input) (configDir dbDir dataDir : gostr) (s : disk)
  : list disk * outcome :=
  match accept limits i with
  | Err why => ([], Refused why)
  | Ok archive =>
      match tmpDir i with
      | None => ([], Refused NoTempDir)
      | Some tmp =>
          let made := MkdirAll tmp s in
          match extractBackupArchiveWithLimits ratio_above (r_refused f) limits archive gunzip tmp with
          | Err e => ([made; RemoveAll (r_cleanup f) tmp made], ExtractFailed e)
          | Ok st =>
              let s1 := extracted st made in
              if negb (validateRestoredBackupSecrets s1 (path_Join tmp (Base configDir)) (path_Join tmp (str "db")))
              then ([made; s1; RemoveAll (r_cleanup f) tmp s1], SecretsInvalid)
              else let '(states, out) := install f tmp configDir dbDir dataDir s1 in
                   ([made; s1] ++ states ++ [RemoveAll (r_cleanup f) tmp (final s1 states)], out)
          end
      end
  end.
End command.

(** ** Paths below a directory *)

Definition rest (r : gostr) : Prop := r = [] \/ exists t, r = "/"%char :: t.
Lemma under_spec d p : under d p = true <-> exists r, rest r /\ p = d ++ r.
Proof.
  unfold under, HasPrefix, rest. rewrite orb_true_iff, !bool_decide_eq_true. split.
  - intros [->|[t ->]]; [exists []; rewrite app_nil_r; auto|]. exists (str "/" ++ t). rewrite <- app_assoc. split; [right; by exists t|done].
  - intros (r & [->|[t ->]] & ->); [left; by rewrite app_nil_r|right]. exists t. by rewrite <- app_assoc.
Qed.
Lemma under_app d r : rest r -> under d (d ++ r) = true.
Proof. intros. apply under_spec. by exists r. Qed.
Lemma under_refl d : under d d = true.
Proof. rewrite <- (app_nil_r d) at 2. apply under_app. by left. Qed.
Lemma under_length d p : under d p = true -> (length d <= length p)%nat.
Proof. intros (r & _ & ->)%under_spec. rewrite length_app. lia. Qed.
Lemma under_trans a b c : under a b = true -> under b c = true -> under a c = true.
Proof.
  intros (r & Hr & ->)%under_spec (q & Hq & ->)%under_spec. apply under_spec. exists (r ++ q). rewrite app_assoc. split; [|done].
  destruct Hr as [->|[t ->]]; [done|right; by exists (t ++ q)].
Qed.
Lemma rest_prefix k r : rest (k ++ r) -> rest k.
Proof. intros [E|[t E]]; destruct k as [|c k]; [by left|done|by left|]. right. exists k. cbn in E. by simplify_eq. Qed.
Definition separate (a b : gostr) : Prop := under a b = false /\ under b a = false.
(** Two directories that share a path lie one below the other. *)
Lemma separate_under a b p : separate a b -> under a p = true -> under b p = false.
Proof.
  intros [Hab Hba] (r & Hr & ->)%under_spec. apply not_true_iff_false. intros (q & Hq & E)%under_spec.
  apply app_eq_inv in E as [(k & -> & ->)|(k & -> & ->)].
  - apply not_true_iff_false in Hba. apply Hba, under_spec. exists k. split; [by eapply rest_prefix|done].
  - apply not_true_iff_false in Hab. apply Hab, under_spec. exists k. split; [by eapply rest_prefix|done].
Qed.
Lemma aside_separate dst : separate dst (aside dst).
Proof.
  split; apply not_true_iff_false.
  - intros (r & [->|[t ->]] & E)%under_spec; apply app_inv_head in E; done.
  - intros H%under_length. unfold aside in H. rewrite length_app in H. change (length (str ".restore-old")) with 12%nat in H. lia.
Qed.
Lemma moved_app d d' r : moved d d' (d ++ r) = d' ++ r.
Proof. unfold moved. by rewrite drop_app_length. Qed.

(** ** Operations on trees *)

(** The tree of [u] at [d] is that of [s] at [d']. *)
Definition same_tree (u : disk) (d : gostr) (s : disk) (d' : gostr) : Prop := forall r, rest r -> u (d ++ r) = s (d' ++ r).
Lemma same_tree_trans u d v e w f : same_tree u d v e -> same_tree v e w f -> same_tree u d w f.
Proof. intros H1 H2 r Hr. by rewrite H1, H2. Qed.
Lemma same_tree_off u s d : (forall p, under d p = true -> u p = s p) -> same_tree u d s d.
Proof. intros H r Hr. apply H. by apply under_app. Qed.

Lemma RemoveAll_off fault dir s p : under dir p = false -> RemoveAll fault dir s p = s p.
Proof. unfold RemoveAll. by intros ->. Qed.
Lemma RemoveAll_root keep dir s : RemoveAll (Some keep) dir s dir = s dir.
Proof. unfold RemoveAll. rewrite (bool_decide_eq_true_2 (dir = dir)) by done. by rewrite !andb_false_r. Qed.
Lemma Rename_tree fault src dst s s' : Rename fault src dst s = Some s' -> same_tree s' dst s src.
Proof.
  unfold Rename. case_match; [done|]. intros [= <-] r Hr. by rewrite under_app, moved_app.
Qed.
Lemma Rename_off fault src dst s s' p :
  Rename fault src dst s = Some s' -> under dst p = false -> under src p = false -> s' p = s p.
Proof. unfold Rename. case_match; [done|]. by intros [= <-] -> ->. Qed.
Lemma Rename_gone fault src dst s s' : Rename fault src dst s = Some s' -> separate src dst -> forall r, rest r -> s' (src ++ r) = None.
Proof.
  unfold Rename. case_match; [done|]. intros [= <-] Hs r Hr.
  by rewrite (separate_under src dst), under_app by (done || by apply under_app).
Qed.
Lemma MkdirAll_off dir s p : under p dir = false -> MkdirAll dir s p = s p.
Proof. unfold MkdirAll. intros ->. by destruct (s p). Qed.
Lemma MkdirAll_some dir s p : is_Some (s p) -> MkdirAll dir s p = s p.
Proof. unfold MkdirAll. intros [n ->]. done. Qed.
Lemma copy_off which src dst s p : under dst p = false -> copy_entries which src dst s p = s p.
Proof. unfold copy_entries. by intros ->. Qed.

(** ** Replacing a directory *)

(** A completed copy is the source, where nothing was below the target. *)
Lemma copy_complete src dst k :
  separate src dst -> is_Some (k src) -> (forall r, rest r -> k (dst ++ r) = None) ->
  same_tree (copy_entries (fun _ => true) src dst (MkdirAll dst k)) dst k src.
Proof.
  intros [Hs Hd] [n Hn] Hempty r Hr. unfold copy_entries. rewrite under_app, moved_app by done. cbn [andb].
  rewrite (MkdirAll_off dst _ (src ++ r)).
  - case_bool_decide as Hsome; [done|]. destruct (k (src ++ r)) eqn:Ek; [by destruct Hsome|].
    destruct r as [|c r]; [by rewrite app_nil_r, Hn in Ek|]. rewrite MkdirAll_off; [by apply Hempty|].
    apply not_true_iff_false. intros H%under_length. rewrite length_app in H. cbn in H. lia.
  - apply not_true_iff_false. intros H. apply not_true_iff_false in Hs. apply Hs. eapply under_trans, H. by apply under_app.
Qed.

Section replacing.
  Context (f : replace_faults) (src dst : gostr).
  (** The source lies apart from the target and the name it is kept under, and the
      target has a parent. *)
  Context (Hsrc : separate src dst) (Hold : separate src (aside dst)).
  Context (Hparent : under (parent_dir dst) dst = true /\ parent_dir dst <> dst).

Lemma parent_shorter : (length (parent_dir dst) < length dst)%nat.
Proof.
  destruct Hparent as [(r & _ & E)%under_spec Hne]. rewrite E at 2. rewrite length_app. destruct r; [|cbn; lia].
  rewrite app_nil_r in E. congruence.
Qed.
Lemma not_above_parent p : (length dst <= length p)%nat -> under p (parent_dir dst) = false.
Proof. intros Hp. apply not_true_iff_false. intros H%under_length. pose proof parent_shorter. lia. Qed.
Lemma src_above_not r : rest r -> under (src ++ r) (parent_dir dst) = false /\ under (src ++ r) dst = false.
Proof.
  intros Hr. assert (under (src ++ r) dst = false) as H.
  { apply not_true_iff_false. intros H. destruct Hsrc as [Hs _]. apply not_true_iff_false in Hs. apply Hs. eapply under_trans, H. by apply under_app. }
  split; [|done]. apply not_true_iff_false. intros Hp. apply not_true_iff_false in H. apply H. eapply under_trans; [exact Hp|apply Hparent].
Qed.
Lemma aside_below r : (length dst <= length (aside dst ++ r))%nat.
Proof. unfold aside. rewrite !length_app. lia. Qed.
Lemma aside_not_above r : under (aside dst ++ r) dst = false.
Proof.
  apply not_true_iff_false. intros H%under_length. unfold aside in H. rewrite !length_app in H.
  change (length (str ".restore-old")) with 12%nat in H. lia.
Qed.
Lemma aside_not_below r : rest r -> under dst (aside dst ++ r) = false /\ under src (aside dst ++ r) = false.
Proof.
  intros Hr. assert (under (aside dst) (aside dst ++ r) = true) as H by (by apply under_app).
  split; eapply separate_under; try exact H; [|destruct Hold; by split]. destruct (aside_separate dst). by split.
Qed.

(** Moving into an empty place keeps what is kept aside, and when it succeeds the
    whole source is there. *)
Lemma restoreMoveDir_spec k states failed :
  restoreMoveDir f src dst k = (states, failed) -> (forall r, rest r -> k (dst ++ r) = None) ->
  Forall (fun u => same_tree u (aside dst) k (aside dst)) states /\
  (failed = false -> same_tree (final k states) dst k src).
Proof.
  unfold restoreMoveDir. intros E Hempty. destruct (f_mkdir f); [by simplify_eq|].
  set (made := MkdirAll (parent_dir dst) k) in E.
  assert (same_tree made (aside dst) k (aside dst)) as Hmade.
  { intros r Hr. apply MkdirAll_off, not_above_parent, aside_below. }
  assert (forall r, rest r -> made (src ++ r) = k (src ++ r)) as Hsrcs by (intros r Hr; apply MkdirAll_off, src_above_not, Hr).
  destruct (Rename (f_move f) src dst made) as [s'|] eqn:Er.
  - simplify_eq. split; [|intros _; cbn; eapply same_tree_trans; [by eapply Rename_tree|exact Hsrcs]].
    repeat constructor; [done|]. intros r Hr. destruct (aside_not_below r Hr). rewrite (Rename_off _ _ _ _ _ _ Er) by done. by apply Hmade.
  - destruct (restoreCopyDir _ _ _ _ _) as [ss fl] eqn:Ec. simplify_eq. unfold restoreCopyDir in Ec.
    case_bool_decide as Hnone; [simplify_eq; by split; [repeat constructor|]|].
    assert (forall which, same_tree (copy_entries which src dst (MkdirAll dst made)) (aside dst) k (aside dst)) as Hcopy.
    { intros which r Hr. rewrite copy_off by (by apply aside_not_below). rewrite MkdirAll_off by apply aside_not_above. by apply Hmade. }
    assert (same_tree (MkdirAll dst made) (aside dst) k (aside dst)) as Hm2.
    { intros r Hr. rewrite MkdirAll_off by apply aside_not_above. by apply Hmade. }
    destruct (f_copy f); simplify_eq; (split; [by repeat constructor|]); [done|].
    intros _. cbn. eapply same_tree_trans; [apply copy_complete; [done|by destruct (made src)|]|exact Hsrcs].
    intros r Hr. unfold made. rewrite MkdirAll_off; [by apply Hempty|]. apply not_above_parent. rewrite length_app. lia.
Qed.
End replacing.

Definition placed (src dst : gostr) : Prop :=
  separate src dst /\ separate src (aside dst) /\ under (parent_dir dst) dst = true /\ parent_dir dst <> dst.
(** A replacement touches the two directories and the kept one. *)
Definition elsewhere (src dst p : gostr) : Prop :=
  under dst p = false /\ under src p = false /\ under (aside dst) p = false /\ under p dst = false.
Lemma restoreMoveDir_off f src dst k states failed p :
  restoreMoveDir f src dst k = (states, failed) -> under (parent_dir dst) dst = true -> elsewhere src dst p ->
  Forall (fun u => u p = k p) states.
Proof.
  unfold restoreMoveDir. intros E Hparent (Hd & Hs & _ & Ha). destruct (f_mkdir f); [by simplify_eq|].
  assert (under p (parent_dir dst) = false) as Hp.
  { apply not_true_iff_false. intros H. apply not_true_iff_false in Ha. apply Ha. by eapply under_trans. }
  destruct (Rename _ _ _ _) as [s'|] eqn:Er.
  - simplify_eq. repeat constructor; [by apply MkdirAll_off|]. rewrite (Rename_off _ _ _ _ _ _ Er) by done. by apply MkdirAll_off.
  - destruct (restoreCopyDir _ _ _ _ _) as [ss fl] eqn:Ec. simplify_eq. constructor; [by apply MkdirAll_off|].
    unfold restoreCopyDir in Ec. case_bool_decide; [by simplify_eq|].
    destruct (f_copy f); simplify_eq; repeat constructor; rewrite ?copy_off by done; by rewrite !MkdirAll_off.
Qed.
Lemma final_app s a b : final s (a ++ b) = final (final s a) b.
Proof.
  unfold final. revert s. induction a as [|x a IH]; intros s; [done|].
  assert (forall (y : disk) l d, List.last (y :: l) d = List.last l y) as Hl.
  { intros y l. revert y. induction l as [|z l IHl]; intros y d; [done|]. change (List.last (z :: l) d = List.last (z :: l) y). by rewrite !IHl. }
  rewrite <- app_comm_cons, !Hl. apply IH.
Qed.
Lemma Forall_final (P : disk -> Prop) s states : Forall P states -> P s -> P (final s states).
Proof. intros Hs. revert s. induction Hs as [|x l Hx Hl IH]; intros s Hp; [done|]. change (x :: l) with ([x] ++ l). rewrite final_app. by apply IH. Qed.

(** The replacement taken apart. *)
Lemma restoreReplaceDir_cases f src dst s states err :
  restoreReplaceDir f src dst s = (states, err) ->
  let cleared := RemoveAll (f_clear f) (aside dst) s in
  (cleared dst = None /\ exists ms failed, restoreMoveDir f src dst cleared = (ms, failed) /\ states = cleared :: ms /\
     err = if failed then Some MoveFailed else None) \/
  (is_Some (cleared dst) /\ states = [cleared] /\ err = Some AsideFailed) \/
  (exists kept ms failed, Rename (f_aside f) dst (aside dst) cleared = Some kept /\ restoreMoveDir f src dst kept = (ms, failed) /\
     let dropped := RemoveAll (f_drop f) dst (final kept ms) in
     (failed = true /\ ((exists back, Rename (f_back f) (aside dst) dst dropped = Some back /\ err = Some MoveFailed /\
                           states = [cleared; kept] ++ ms ++ [dropped; back]) \/
                        (err = Some RollbackFailed /\ states = [cleared; kept] ++ ms ++ [dropped]))) \/
     (failed = false /\ err = None /\ states = [cleared; kept] ++ ms ++ [RemoveAll (f_final f) (aside dst) (final kept ms)])).
Proof.
  unfold restoreReplaceDir. cbv zeta. intros E.
  destruct (RemoveAll (f_clear f) (aside dst) s dst) as [n|] eqn:Ed.
  - right. destruct (Rename (f_aside f) dst _ _) as [kept|]; [right|left; simplify_eq; eauto].
    destruct (restoreMoveDir f src dst kept) as [ms failed] eqn:Em. exists kept, ms, failed. split; [done|]. split; [done|].
    destruct failed; [left; split; [done|]|right; by simplify_eq].
    destruct (Rename (f_back f) _ _ _) as [back|] eqn:Eb; simplify_eq; [left; by exists back|by right].
  - left. split; [done|]. destruct (restoreMoveDir f src dst _) as [ms failed]. exists ms, failed. by simplify_eq.
Qed.
Lemma restoreReplaceDir_off f src dst s states err p :
  restoreReplaceDir f src dst s = (states, err) -> under (parent_dir dst) dst = true -> elsewhere src dst p ->
  Forall (fun u => u p = s p) states.
Proof.
  intros E Hparent Hp. pose proof Hp as (Hd & Hs & Ha & _).
  assert (RemoveAll (f_clear f) (aside dst) s p = s p) as Hc by (by apply RemoveAll_off).
  destruct (restoreReplaceDir_cases _ _ _ _ _ _ E) as [(_ & ms & failed & Em & -> & _)|[(_ & -> & _)|(kept & ms & failed & Er & Em & Hcase)]].
  - constructor; [done|]. eapply Forall_impl; [by eapply restoreMoveDir_off|]. intros u Hu. cbn in Hu. by rewrite Hu.
  - by constructor.
  - assert (kept p = s p) as Hk by (by rewrite (Rename_off _ _ _ _ _ _ Er)).
    assert (Forall (fun u => u p = s p) ms) as Hms.
    { eapply Forall_impl; [by eapply restoreMoveDir_off|]. intros u Hu. cbn in Hu. by rewrite Hu. }
    assert (final kept ms p = s p) as Hf by (by apply (Forall_final (fun u => u p = s p))).
    destruct Hcase as [[_ [(back & Eb & _ & ->)|[_ ->]]]|(_ & _ & ->)]; repeat (constructor; [done|]); apply Forall_app; (split; [done|]);
      repeat constructor; rewrite ?(Rename_off _ _ _ _ _ _ Eb) by done; by rewrite RemoveAll_off.
Qed.

Lemma restoreReplaceDir_tree f src dst s states err :
  restoreReplaceDir f src dst s = (states, err) -> placed src dst -> is_Some (s dst) ->
  Forall (fun u => same_tree u dst s dst \/ same_tree u (aside dst) s dst \/ same_tree u dst s src) states /\
  match err with
  | None => same_tree (final s states) dst s src
  | Some RollbackFailed => same_tree (final s states) (aside dst) s dst
  | Some _ => same_tree (final s states) dst s dst
  end.
Proof.
  intros E (Hsrc & Hold & Hpar) [n Hn]. pose proof (aside_separate dst) as Has.
  set (cleared := RemoveAll (f_clear f) (aside dst) s).
  assert (same_tree cleared dst s dst) as Hc.
  { apply same_tree_off. intros p Hp. by apply RemoveAll_off, (separate_under dst). }
  assert (same_tree cleared src s src) as Hcs.
  { apply same_tree_off. intros p Hp. by apply RemoveAll_off, (separate_under src). }
  destruct (restoreReplaceDir_cases _ _ _ _ _ _ E) as [(Hnone & _)|[(_ & -> & ->)|(kept & ms & failed & Er & Em & Hcase)]].
  - exfalso. specialize (Hc [] ltac:(by left)). rewrite !app_nil_r in Hc. unfold cleared in Hc. congruence.
  - split; [constructor; [by left|done]|done].
  - assert (same_tree kept (aside dst) s dst) as Hk by (eapply same_tree_trans; [by eapply Rename_tree|done]).
    assert (same_tree kept src s src) as Hks.
    { eapply same_tree_trans; [|exact Hcs]. apply same_tree_off. intros p Hp. rewrite (Rename_off _ _ _ _ _ _ Er); [done|exact (separate_under _ _ _ Hold Hp)|exact (separate_under _ _ _ Hsrc Hp)]. }
    destruct (restoreMoveDir_spec f src dst Hsrc Hold Hpar kept ms failed Em (Rename_gone _ _ _ _ _ Er Has)) as [Hms Hdone].
    assert (Forall (fun u => same_tree u (aside dst) s dst) ms) as Hms' by (eapply Forall_impl; [exact Hms|]; intros u Hu; exact (same_tree_trans _ _ _ _ _ _ Hu Hk)).
    assert (same_tree (final kept ms) (aside dst) s dst) as Hf by (by apply (Forall_final (fun u => same_tree u (aside dst) s dst))).
    assert (same_tree (RemoveAll (f_drop f) dst (final kept ms)) (aside dst) s dst) as Hdrop.
    { eapply same_tree_trans; [|exact Hf]. apply same_tree_off. intros p Hp. apply RemoveAll_off. apply (separate_under (aside dst)); [by destruct Has|done]. }
    assert (forall tail, let safe u := same_tree u dst s dst \/ same_tree u (aside dst) s dst \/ same_tree u dst s src in
      Forall safe tail -> Forall safe ([cleared; kept] ++ ms ++ tail)) as Hall.
    { intros tail safe Ht. do 2 (apply Forall_cons_2; [unfold safe; auto|]). apply Forall_app. split; [|done].
      eapply Forall_impl; [exact Hms'|]. unfold safe. auto. }
    destruct Hcase as [[-> [(back & Eb & -> & ->)|[-> ->]]]|(-> & -> & ->)]; rewrite !final_app; cbn [final List.last app].
    + assert (same_tree back dst s dst) as Hb by (eapply same_tree_trans; [by eapply Rename_tree|done]).
      split; [|done]. apply Hall. by repeat (apply Forall_cons_2; [auto|]).
    + split; [|done]. apply Hall. by repeat (apply Forall_cons_2; [auto|]).
    + assert (same_tree (RemoveAll (f_final f) (aside dst) (final kept ms)) dst s src) as Hnew.
      { eapply same_tree_trans; [|exact (same_tree_trans _ _ _ _ _ _ (Hdone eq_refl) Hks)].
        apply same_tree_off. intros p Hp. by apply RemoveAll_off, (separate_under dst). }
      split; [|done]. apply Hall. by repeat (apply Forall_cons_2; [auto|]).
Qed.


(** C28. Replacing a directory by a restored one never loses data: whatever fails
    and whenever the disk is looked at, the complete old tree is in its place or
    under the name it is kept under, or the complete new tree is in its place;
    without an error the new tree is in place, after a failure that was rolled
    back the old one, and after a failed rollback the old one is still kept. *)
Theorem restoreReplaceDir_keeps f src dst s states err :
  restoreReplaceDir f src dst s = (states, err) -> placed src dst -> is_Some (s dst) ->
  Forall (fun u => same_tree u dst s dst \/ same_tree u (aside dst) s dst \/ same_tree u dst s src) states /\
  match err with
  | None => same_tree (final s states) dst s src
  | Some RollbackFailed => same_tree (final s states) (aside dst) s dst
  | Some _ => same_tree (final s states) dst s dst
  end.
Proof. apply restoreReplaceDir_tree. Qed.

(** ** A whole restore *)

(** The places a restore works with, all apart from each other, the live ones in
    use. *)
Record apart_layout (C' D' T' C D T : gostr) (s : disk) : Prop := {
  al_apart a b i j : let places := [C'; D'; T'; C; aside C; D; aside D; T; aside T] in
    i <> j -> places !! i = Some a -> places !! j = Some b -> separate a b;
  al_parents d : d ∈ [C; D; T] -> under (parent_dir d) d = true /\ parent_dir d <> d;
  al_live d : d ∈ [C; D; T] -> is_Some (s d) }.

Lemma separate_elsewhere src dst x r :
  separate x dst -> separate x src -> separate x (aside dst) -> rest r -> elsewhere src dst (x ++ r).
Proof.
  intros Hd Hs Ha Hr. assert (under x (x ++ r) = true) as Hx by (by apply under_app).
  split_and!; try (by eapply separate_under, Hx).
  apply not_true_iff_false. intros H. destruct Hd as [Hd _]. apply not_true_iff_false in Hd. apply Hd. by eapply under_trans.
Qed.
(** A part that was restored is where it belongs; a place apart is not touched. *)
Lemma restore_part_spec f src dst s states b :
  restore_part f src dst s = (states, Ok b) -> placed src dst -> is_Some (s dst) ->
  (b = bool_decide (is_Some (s src))) /\
  same_tree (final s states) dst s (if b then src else dst) /\
  (forall x, separate x dst -> separate x src -> separate x (aside dst) -> same_tree (final s states) x s x).
Proof.
  unfold restore_part. intros E Hp Hl. destruct (s src) as [n|] eqn:Es.
  - destruct (restoreReplaceDir f src dst s) as [ss err] eqn:Er. destruct err; simplify_eq. split; [done|]. split.
    + by apply (restoreReplaceDir_tree f src dst s states None) in Er as [_ H].
    + intros x H1 H2 H3 r Hr. destruct Hp as (_ & _ & Hpar & _).
      apply (Forall_final (fun u => u (x ++ r) = s (x ++ r))); [|done].
      eapply restoreReplaceDir_off; [done|done|]. by apply separate_elsewhere.
  - simplify_eq. by split_and!.
Qed.

Definition closed_at (s : disk) (d : gostr) : Prop := s d = None -> forall r, rest r -> s (d ++ r) = None.
Definition ssl : gostr := str "/ssl".
(** The configuration to install: that of the archive, with the certificates in use
    when it has none. *)
Definition config_tree (s : disk) (src dst r : gostr) : option node :=
  if under ssl r && bool_decide (s (src ++ ssl) = None) then s (dst ++ r) else s (src ++ r).
Lemma under_ssl d r : under (d ++ ssl) (d ++ r) = under ssl r.
Proof.
  apply eq_true_iff_eq. rewrite !under_spec. split; intros (q & Hq & E); exists q; (split; [done|]).
  - rewrite <- app_assoc in E. by apply app_inv_head in E.
  - rewrite E. by rewrite app_assoc.
Qed.
Lemma under_own_ssl d : under d (d ++ ssl) = true.
Proof. apply under_app. right. by eexists. Qed.
Lemma keep_ssl_spec f src dst s a :
  keep_ssl f src dst s = (a, false) -> path_Join src (str "ssl") = src ++ ssl -> path_Join dst (str "ssl") = dst ++ ssl ->
  separate src dst -> is_Some (s src) -> closed_at s (src ++ ssl) -> closed_at s (dst ++ ssl) ->
  (forall r, rest r -> final s a (src ++ r) = config_tree s src dst r) /\
  (forall x, separate x src -> same_tree (final s a) x s x).
Proof.
  intros E Hj1 Hj2 Hsep Hsrc Hc1 Hc2. unfold keep_ssl in E. rewrite Hj1, Hj2, (bool_decide_eq_true_2 _ Hsrc) in E. cbn [andb] in E.
  unfold config_tree. case_bool_decide as Hs1; cbn [negb andb] in E.
  { simplify_eq. split; [|done]. intros r Hr. cbn. rewrite bool_decide_eq_false_2; [by rewrite andb_false_r|]. intros Hn. rewrite Hn in Hs1. by destruct Hs1. }
  assert (s (src ++ ssl) = None) as Hnone by (destruct (s (src ++ ssl)); [by destruct Hs1|done]).
  rewrite bool_decide_eq_true_2 by done. case_bool_decide as Hs2.
  - assert (separate (dst ++ ssl) (src ++ ssl)) as Hsep2.
    { split; apply not_true_iff_false; intros H;
        [assert (under dst (src ++ ssl) = true) as H2 by (eapply under_trans, H; apply under_own_ssl)
        |assert (under src (dst ++ ssl) = true) as H2 by (eapply under_trans, H; apply under_own_ssl)];
        [pose proof (separate_under src dst (src ++ ssl) Hsep (under_own_ssl src))|
         pose proof (separate_under dst src (dst ++ ssl) ltac:(by destruct Hsep) (under_own_ssl dst))]; congruence. }
    unfold restoreCopyDir in E. case_bool_decide as Hd; [done|]. destruct (r_ssl f); [done|]. simplify_eq. unfold final. cbn [List.last].
    split.
    + intros r Hr. destruct (under ssl r) eqn:Eu; cbn [andb].
      * apply under_spec in Eu as (q & Hq & ->). rewrite !app_assoc. apply copy_complete; [done| |by apply Hc1|done].
        destruct (s (dst ++ ssl)); [by eexists|done].
      * rewrite copy_off by (by rewrite under_ssl).
        destruct (under (src ++ r) (src ++ ssl)) eqn:Ea; [|by rewrite MkdirAll_off].
        apply under_spec in Ea as (q & Hq & Ea). rewrite <- app_assoc in Ea. apply app_inv_head in Ea.
        destruct Hr as [->|[t ->]]; [rewrite app_nil_r; by apply MkdirAll_some|].
        destruct Hq as [->|[t' ->]]; [rewrite app_nil_r in Ea; rewrite <- Ea in Eu; by rewrite under_refl in Eu|].
        exfalso. cbn in Ea. injection Ea as Ea. change (str "ssl" = t ++ "/"%char :: t') in Ea.
        assert ("/"%char ∈ str "ssl") as Hin by (rewrite Ea; set_solver). by vm_compute in Hin; set_solver.
    + intros x Hx r Hr. assert (under x (x ++ r) = true) as Hux by (by apply under_app).
      assert (under src (x ++ r) = false) as Hno by (by eapply separate_under).
      rewrite copy_off; [apply MkdirAll_off|]; apply not_true_iff_false; intros H.
      * assert (under x (src ++ ssl) = true) as H2 by (by eapply under_trans).
        pose proof (separate_under x src (src ++ ssl) Hx H2) as H3. by rewrite under_own_ssl in H3.
      * assert (under src (x ++ r) = true) by (eapply under_trans, H; apply under_own_ssl). congruence.
  - simplify_eq. cbn. split; [|done]. intros r Hr. destruct (under ssl r) eqn:Eu; [|done]. cbn [andb].
    apply under_spec in Eu as (q & Hq & ->). rewrite !app_assoc. rewrite Hc1 by done. symmetry. apply Hc2; [|done].
    destruct (s (dst ++ ssl)); [by destruct Hs2|done].
Qed.
Section placed_parts.
  Context (C' D' T' C D T : gostr) (s : disk) (L : apart_layout C' D' T' C D T s).
Lemma layout_placed_config : placed C' C.
Proof. split; [by apply (al_apart _ _ _ _ _ _ _ L _ _ 0 3)%nat|]. split; [by apply (al_apart _ _ _ _ _ _ _ L _ _ 0 4)%nat|]. apply (al_parents _ _ _ _ _ _ _ L). set_solver. Qed.
Lemma layout_placed_db : placed D' D.
Proof. split; [by apply (al_apart _ _ _ _ _ _ _ L _ _ 1 5)%nat|]. split; [by apply (al_apart _ _ _ _ _ _ _ L _ _ 1 6)%nat|]. apply (al_parents _ _ _ _ _ _ _ L). set_solver. Qed.
Lemma layout_placed_data : placed T' T.
Proof. split; [by apply (al_apart _ _ _ _ _ _ _ L _ _ 2 7)%nat|]. split; [by apply (al_apart _ _ _ _ _ _ _ L _ _ 2 8)%nat|]. apply (al_parents _ _ _ _ _ _ _ L). set_solver. Qed.
(** A place is not touched by a part that uses others. *)
Lemma part_off k i x src dst u v :
  let places := [C'; D'; T'; C; aside C; D; aside D; T; aside T] in
  places !! i = Some x -> places !! k = Some src -> places !! (3 + 2 * k)%nat = Some dst -> places !! (4 + 2 * k)%nat = Some (aside dst) ->
  (i ∉ [k; 3 + 2 * k; 4 + 2 * k])%nat ->
  (forall x, separate x dst -> separate x src -> separate x (aside dst) -> same_tree u x v x) -> same_tree u x v x.
Proof.
  intros places Hx Hs Hd Ha Hi Hall. pose proof (fun j b => al_apart _ _ _ _ _ _ _ L x b i j) as A.
  apply Hall; [eapply (A (3 + 2 * k)%nat)|eapply (A k)|eapply (A (4 + 2 * k)%nat)]; try done; set_solver.
Qed.
End placed_parts.

Section whole.
  Context (f : restore_faults) (tmp configDir dbDir dataDir : gostr) (s : disk).
Abbreviation C' := (path_Join tmp (Base configDir)).
Abbreviation D' := (path_Join tmp (str "db")).
Abbreviation T' := (path_Join tmp (Base dataDir)).

(** When the directories of the installation and those of the extracted
    archive are all apart, a restore that completes leaves exactly the archive's
    configuration, with the certificates in use when the archive has none, exactly
    its database, and its data directory when it has one and the present one
    otherwise. *)
Theorem install_complete states sslRestored dbRestored dataRestored :
  install f tmp configDir dbDir dataDir s = (states, Completed sslRestored dbRestored dataRestored) ->
  apart_layout C' D' T' configDir dbDir dataDir s ->
  path_Join C' (str "ssl") = C' ++ ssl -> path_Join configDir (str "ssl") = configDir ++ ssl ->
  closed_at s (C' ++ ssl) -> closed_at s (configDir ++ ssl) -> is_Some (s C') -> is_Some (s D') ->
  (forall r, rest r -> final s states (configDir ++ r) = config_tree s C' configDir r) /\
  same_tree (final s states) dbDir s D' /\
  same_tree (final s states) dataDir s (if dataRestored then T' else dataDir) /\
  dataRestored = bool_decide (is_Some (s T')).
Proof.
  intros E L Hj1 Hj2 Hc1 Hc2 HC HD. unfold install in E. cbv zeta in E.
  pose proof (fun i j a b => al_apart _ _ _ _ _ _ _ L a b i j) as A. cbv zeta in A.
  destruct (keep_ssl f C' configDir s) as [a failed] eqn:Ea. destruct failed; [done|].
  destruct (restore_part (r_config f) _ _ _) as [b [rb|]] eqn:Eb; [|done].
  destruct (restore_part (r_db f) _ _ _) as [c [rc|]] eqn:Ec; [|done].
  destruct (restore_part (r_data f) _ _ _) as [d [rd|]] eqn:Ed; [|done]. injection E as <- <- <- <-.
  repeat rewrite final_app in Ec. repeat rewrite final_app in Ed. repeat rewrite final_app.
  destruct (keep_ssl_spec f C' configDir s a Ea Hj1 Hj2 (A 0 3 _ _ ltac:(done) eq_refl eq_refl)%nat HC Hc1 Hc2) as [Hcfg Hrest].
  set (s1 := final s a) in *. set (s2 := final s1 b) in *. set (s3 := final s2 c) in *.
  assert (forall u v x, same_tree u x v x -> is_Some (v x) -> is_Some (u x)) as Hlive.
  { intros u v x Hs Hx. specialize (Hs [] ltac:(by left)). rewrite !app_nil_r in Hs. by rewrite Hs. }
  pose proof (al_live _ _ _ _ _ _ _ L) as Live. pose proof (al_parents _ _ _ _ _ _ _ L) as Par.
  assert (is_Some (s1 C')) as HC1.
  { pose proof (Hcfg [] ltac:(by left)) as H0. unfold config_tree in H0. rewrite !app_nil_r in H0.
    change (under ssl []) with false in H0. cbn [andb] in H0. by rewrite H0. }
  apply restore_part_spec in Eb as (Hrb & Hb & Hoff1);
    [|exact (layout_placed_config _ _ _ _ _ _ _ L)|eapply Hlive; [apply Hrest, (A 3 0 _ _ ltac:(done) eq_refl eq_refl)%nat|apply Live; set_solver]].
  rewrite bool_decide_eq_true_2 in Hrb by done. subst rb.
  assert (forall x i, [C'; D'; T'; configDir; aside configDir; dbDir; aside dbDir; dataDir; aside dataDir] !! i = Some x ->
    (i ∉ [0; 3; 4])%nat -> same_tree s2 x s x) as H2.
  { intros x i Hx Hi. eapply same_tree_trans; [by eapply (part_off _ _ _ _ _ _ _ L 0 i)|].
    apply Hrest. apply (A i 0 _ _ ltac:(set_solver) Hx eq_refl)%nat. }
  apply restore_part_spec in Ec as (Hrc & Hc & Hoff2);
    [|exact (layout_placed_db _ _ _ _ _ _ _ L)|eapply Hlive; [apply (H2 dbDir 5%nat eq_refl); set_solver|apply Live; set_solver]].
  rewrite bool_decide_eq_true_2 in Hrc by (eapply Hlive; [apply (H2 D' 1%nat eq_refl); set_solver|done]). subst rc.
  assert (forall x i, [C'; D'; T'; configDir; aside configDir; dbDir; aside dbDir; dataDir; aside dataDir] !! i = Some x ->
    (i ∉ [1; 5; 6])%nat -> same_tree s3 x s2 x) as H3 by (intros x i Hx Hi; by eapply (part_off _ _ _ _ _ _ _ L 1 i)).
  assert (forall x i, [C'; D'; T'; configDir; aside configDir; dbDir; aside dbDir; dataDir; aside dataDir] !! i = Some x ->
    (i ∉ [0; 3; 4; 1; 5; 6])%nat -> same_tree s3 x s x) as H3'.
  { intros x i Hx Hi. eapply same_tree_trans; [eapply H3|eapply H2]; try exact Hx; set_solver. }
  apply restore_part_spec in Ed as (Hrd & Hd & Hoff3);
    [|exact (layout_placed_data _ _ _ _ _ _ _ L)|eapply Hlive; [apply (H3' dataDir 7%nat eq_refl); set_solver|apply Live; set_solver]].
  assert (forall x i, [C'; D'; T'; configDir; aside configDir; dbDir; aside dbDir; dataDir; aside dataDir] !! i = Some x ->
    (i ∉ [2; 7; 8])%nat -> same_tree (final s3 d) x s3 x) as H4 by (intros x i Hx Hi; by eapply (part_off _ _ _ _ _ _ _ L 2 i)).
  assert (same_tree s3 T' s T') as HT by (apply (H3' T' 2%nat eq_refl); set_solver).
  split_and!.
  - intros r Hr. rewrite (H4 configDir 3%nat eq_refl) by (done || set_solver). rewrite (H3 configDir 3%nat eq_refl) by (done || set_solver).
    rewrite Hb by done. by apply Hcfg.
  - eapply same_tree_trans; [apply (H4 dbDir 5%nat eq_refl); set_solver|]. eapply same_tree_trans; [exact Hc|].
    apply (H2 D' 1%nat eq_refl). set_solver.
  - eapply same_tree_trans; [exact Hd|]. destruct rd; [exact HT|apply (H3' dataDir 7%nat eq_refl); set_solver].
  - specialize (HT [] ltac:(by left)). rewrite !app_nil_r in HT. by rewrite Hrd, HT.
Qed.
End whole.

(** ** Guards *)

Section guards.
  Context `{UnicodeTables} `{BackupCipher}.
  Context (ra : Z -> Z -> Z -> bool) (gunzip : gostr -> option tar_stream) (secrets : gostr -> option (option (list gostr))).
  Context (config_key : gostr -> option gostr) (secret_row : gostr -> gostr -> option gostr).

(** The disk is written only for someone who may: on a first run, as an
    elevated process or with the configured token, and after an explicit yes, for
    a backup within the size limit whose manifest declares every required secret. *)
Theorem restore_guarded limits f i C D T s states out :
  maintenanceRestore ra gunzip secrets config_key secret_row limits f i C D T s = (states, out) -> states <> [] ->
  (firstRun i = true \/ elevated i = true \/ (token i <> [] /\ TrimSpace (entered i) = token i)) /\
  (exists a, answer i = Some a /\ ToLower (TrimSpace a) = str "y") /\
  backup_size (file i) <= MaxArchiveSize limits /\
  (exists archive names, readBackupManifest gunzip secrets archive = Some (Some names) /\ Forall (fun n => n ∈ names) required_secrets).
Proof.
  unfold maintenanceRestore. intros E Hne. destruct (accept gunzip secrets limits i) as [archive|why] eqn:Ea; [clear E|by simplify_eq].
  unfold accept in Ea. destruct (negb (firstRun i) && _) eqn:Eauth; [done|].
  assert (backup_size (file i) <= MaxArchiveSize limits) as Hsize.
  { destruct (file i); try done; destruct (MaxArchiveSize limits <? _) eqn:El; try done; apply Z.ltb_ge in El; done. }
  destruct (file i) as [| | |raw]; try done; [by destruct (MaxArchiveSize limits <? _)|].
  destruct (MaxArchiveSize limits <? _); [done|].
  destruct (if HasSuffix _ _ then _ else _) as [arch|?]; [cbn [rbind] in Ea|done].
  case_bool_decide; [done|]. destruct (readBackupManifest _ _ arch) as [declared|] eqn:Em; [|done].
  destruct (validateRequiredSecretManifest declared) eqn:Ev; [cbn [negb] in Ea|done].
  destruct (answer i) as [a|] eqn:Ean; [|done]. case_bool_decide as Hy; [|done]. split_and!.
  - unfold requireOperatorAuth in Eauth. destruct (firstRun i); [by left|]. destruct (elevated i); [by right; left|]. right. right.
    case_bool_decide as Ht; [done|]. split; [done|]. cbn [negb andb] in Eauth. rewrite negb_false_iff in Eauth. by case_bool_decide.
  - by exists a.
  - done.
  - destruct declared as [names|]; [|done]. exists arch, names. split; [done|]. unfold validateRequiredSecretManifest in Ev.
    apply Forall_forall. intros n Hn. rewrite forallb_forall in Ev. apply (bool_decide_eq_true_1 _), Ev, list_elem_of_In, Hn.
Qed.
End guards.

(** ** Witnesses and default installations *)

Definition disk_of (l : list (string * option string)) : disk :=
  fun p => snd <$> List.find (fun e => fst e =s p) ((fun e => (str (fst e), match snd e with Some c => NFile (str c) | None => NDir end)) <$> l).
Definition no_fault : replace_faults := mkFaults None false false false (fun _ => false) None None false None.
(** As when the temporary directory is on another file system. *)
Definition other_volume : replace_faults := mkFaults None false false true (fun _ => false) None None false None.
Definition copy_fails : replace_faults := mkFaults None false false true (fun _ => false) (Some (fun _ => false)) None false None.
Definition calm_restore (f : replace_faults) : restore_faults := mkRestoreFaults (fun _ => false) (fun _ => false) None f f f None.

Definition demo_disk : disk := disk_of [("/etc/app", None); ("/etc/app/a", Some "old"); ("/tmp/x/app", None); ("/tmp/x/app/a", Some "new")]%string.
Lemma restoreReplaceDir_keeps_witness :
  let out := restoreReplaceDir copy_fails (str "/tmp/x/app") (str "/etc/app") demo_disk in
  out.2 = Some MoveFailed /\ same_tree (final demo_disk out.1) (str "/etc/app") demo_disk (str "/etc/app").
Proof.
  split; [by vm_compute|]. destruct (restoreReplaceDir copy_fails (str "/tmp/x/app") (str "/etc/app") demo_disk) as [states err] eqn:E.
  assert (err = Some MoveFailed) as -> by (apply (f_equal snd) in E; by vm_compute in E).
  eapply (restoreReplaceDir_keeps copy_fails _ _ demo_disk states (Some MoveFailed)); [exact E| |by vm_compute; eexists].
  split_and!; by vm_compute.
Defined.

Definition lab : disk := disk_of [
  ("/etc/conf", None); ("/etc/conf/server.yml", Some "old"); ("/etc/conf/ssl", None); ("/etc/conf/ssl/key", Some "cert");
  ("/var/base", None); ("/var/base/server.db", Some "old"); ("/srv/data", None); ("/srv/data/f", Some "kept");
  ("/tmp/r/conf", None); ("/tmp/r/conf/server.yml", Some "new"); ("/tmp/r/db", None); ("/tmp/r/db/server.db", Some "new")]%string.
Definition lab_install := install (calm_restore other_volume) (str "/tmp/r") (str "/etc/conf") (str "/var/base") (str "/srv/data") lab.
Definition pairwise (l : list gostr) : bool :=
  forallb (fun i => forallb (fun j => Nat.eqb i j || match l !! i, l !! j with Some a, Some b => negb (under a b) | _, _ => true end)
    (seq 0 (length l))) (seq 0 (length l)).
Lemma pairwise_separate l i j a b : pairwise l = true -> i <> j -> l !! i = Some a -> l !! j = Some b -> separate a b.
Proof.
  unfold pairwise. rewrite forallb_forall. intros H Hij Ha Hb. apply lookup_lt_Some in Ha as Hi. apply lookup_lt_Some in Hb as Hj.
  assert (forall i j a b, i <> j -> l !! i = Some a -> l !! j = Some b -> (i < length l)%nat -> (j < length l)%nat -> under a b = false) as Hu.
  { clear - H. intros i j a b Hij Ha Hb Hi Hj. specialize (H i ltac:(apply in_seq; lia)). rewrite forallb_forall in H.
    specialize (H j ltac:(apply in_seq; lia)). rewrite Ha, Hb in H. apply orb_true_iff in H as [H%Nat.eqb_eq|H]; [done|]. by apply negb_true_iff. }
  split; [by apply (Hu i j)|]. apply (Hu j i); auto.
Qed.
Lemma lab_apart : apart_layout (str "/tmp/r/conf") (str "/tmp/r/db") (str "/tmp/r/data") (str "/etc/conf") (str "/var/base") (str "/srv/data") lab.
Proof.
  split.
  - intros a b i j places. apply pairwise_separate. by vm_compute.
  - intros d Hd. repeat (apply elem_of_cons in Hd as [->|Hd]; [by vm_compute|]). by apply elem_of_nil in Hd.
  - intros d Hd. repeat (apply elem_of_cons in Hd as [->|Hd]; [vm_compute; by eexists|]). by apply elem_of_nil in Hd.
Qed.
Lemma disk_of_closed l d : forallb (fun e => negb (under d (str e.1))) l = true -> closed_at (disk_of l) d.
Proof.
  intros H _ r Hr. unfold disk_of. destruct (List.find _ _) as [[p n]|] eqn:E; [|done]. apply find_some in E as [Hin He].
  apply bool_decide_eq_true in He. cbn in He. subst p. apply list_elem_of_In, list_elem_of_fmap in Hin as (e & He & Hin). injection He as He _.
  rewrite forallb_forall in H. specialize (H e ltac:(by apply list_elem_of_In)). rewrite <- He, under_app in H by done. done.
Qed.
Lemma install_complete_witness :
  lab_install.2 = Completed false true false /\
  (final lab lab_install.1 <$> [str "/etc/conf/server.yml"; str "/etc/conf/ssl/key"; str "/var/base/server.db"; str "/srv/data/f"])
    = (fun c => Some (NFile (str c))) <$> ["new"; "cert"; "new"; "kept"]%string /\
  same_tree (final lab lab_install.1) (str "/var/base") lab (str "/tmp/r/db").
Proof.
  split; [by vm_compute|]. split; [by vm_compute|]. destruct lab_install as [states out] eqn:E.
  assert (out = Completed false true false) as -> by (apply (f_equal snd) in E; vm_compute in E; congruence).
  assert (closed_at lab (str "/tmp/r/conf" ++ ssl)) as H1 by (apply disk_of_closed; by vm_compute).
  assert (closed_at lab (str "/etc/conf" ++ ssl)) as H2 by (intros Hn; by vm_compute in Hn).
  destruct (install_complete (calm_restore other_volume) (str "/tmp/r") (str "/etc/conf") (str "/var/base") (str "/srv/data") lab
    states false true false E lab_apart ltac:(by vm_compute) ltac:(by vm_compute) H1 H2
    ltac:(vm_compute; by eexists) ltac:(vm_compute; by eexists)) as (_ & Hd & _ & _). exact Hd.
Defined.

Definition demo_stream : tar_stream := mkStream [addBackupFileToTar (str "manifest.json") (str "{}")] false.
Definition demo_input (typed : string) : restore_input :=
  mkInput false false (str "tok_x") (str typed) (str "b.tar.gz") (Readable (str "gz")) None (Some (str "y")) (Some (str "/tmp/r")).
Definition demo_restore (typed : string) : list disk * outcome :=
  maintenanceRestore (H := ascii_tables) (H0 := plain_cipher) (fun _ _ _ => false) (fun _ => Some demo_stream)
    (fun _ => Some (Some required_secrets)) (fun _ => None) (fun _ _ => None) defaultBackupRestoreLimits (calm_restore no_fault)
    (demo_input typed) (str "/etc/conf") (str "/var/base") (str "/srv/data") lab.
Lemma restore_guarded_witness :
  (demo_restore "tok_y").2 = Refused NotAuthorised /\ (demo_restore "tok_x").2 = SecretsInvalid /\
  TrimSpace (entered (demo_input "tok_x")) = token (demo_input "tok_x").
Proof.
  split; [by vm_compute|]. split; [by vm_compute|]. destruct (demo_restore "tok_x") as [states out] eqn:E.
  assert (states <> []) as Hne by (apply (f_equal (fun x => length x.1)) in E; vm_compute in E; by destruct states).
  destruct (restore_guarded (H := ascii_tables) (H0 := plain_cipher) _ _ _ _ _ _ _ _ _ _ _ _ _ _ E Hne) as [[Hf|[Hf|[_ Ht]]] _];
    [by vm_compute in Hf|by vm_compute in Hf|exact Ht].
Defined.

(** ** Limits of the code *)

(** During a replacement there is a moment at which nothing is in its place. *)
Lemma target_missing_for_a_moment :
  exists u, u ∈ (restoreReplaceDir no_fault (str "/tmp/x/app") (str "/etc/app") demo_disk).1 /\ u (str "/etc/app") = None.
Proof. eexists. split; [right; left|]. by vm_compute. Qed.
(** A restore interrupted at that moment and started again removes the only copy
    of the old directory; when it then fails, nothing is left. *)
Lemma interrupted_restore_loses :
  exists u, u ∈ (restoreReplaceDir no_fault (str "/tmp/x/app") (str "/etc/app") demo_disk).1 /\
    let again := restoreReplaceDir copy_fails (str "/tmp/x/app") (str "/etc/app") u in
    again.2 = Some MoveFailed /\
    final u again.1 (str "/etc/app/a") = None /\ final u again.1 (aside (str "/etc/app") ++ str "/a") = None.
Proof. eexists. split; [right; left|]. by vm_compute. Qed.

(** A system installation keeps the database below the data directory, and the
    configuration and the data directory have the same last element. *)
Definition system_disk : disk := disk_of [
  ("/etc/apimgr/ipgaze", None); ("/etc/apimgr/ipgaze/server.yml", Some "old");
  ("/var/lib/apimgr/ipgaze", None); ("/var/lib/apimgr/ipgaze/f", Some "data"); ("/var/lib/apimgr/ipgaze/db", None);
  ("/var/lib/apimgr/ipgaze/db/server.db", Some "old");
  ("/tmp/r/ipgaze", None); ("/tmp/r/ipgaze/server.yml", Some "new"); ("/tmp/r/db", None); ("/tmp/r/db/server.db", Some "new")]%string.
Definition system_install (f : replace_faults) :=
  install (calm_restore f) (str "/tmp/r") (str "/etc/apimgr/ipgaze") (str "/var/lib/apimgr/ipgaze/db") (str "/var/lib/apimgr/ipgaze") system_disk.
(** When the temporary directory is on another volume the extracted configuration
    is still there when the data directory is looked for, and takes its place: the
    restore completes, and the data and the restored database are gone. *)
Lemma default_restore_loses_database :
  (system_install other_volume).2 = Completed false true true /\
  (final system_disk (system_install other_volume).1 <$>
    [str "/var/lib/apimgr/ipgaze/db/server.db"; str "/var/lib/apimgr/ipgaze/f"; str "/var/lib/apimgr/ipgaze/server.yml"])
    = [None; None; Some (NFile (str "new"))].
Proof. by vm_compute. Qed.
(** An archive with a data directory, below which the database is kept: the
    restored database is replaced together with the data directory. *)
Lemma data_restore_loses_database :
  let s := disk_of [("/c", None); ("/c/x", None); ("/d/y", None); ("/d/y/db", None); ("/d/y/db/server.db", Some "old");
    ("/tmp/r/x", None); ("/tmp/r/y", None); ("/tmp/r/y/f", Some "new"); ("/tmp/r/db", None); ("/tmp/r/db/server.db", Some "new")]%string in
  let out := install (calm_restore no_fault) (str "/tmp/r") (str "/c/x") (str "/d/y/db") (str "/d/y") s in
  out.2 = Completed false true true /\ final s out.1 (str "/d/y/db/server.db") = None.
Proof. by vm_compute. Qed.
(** A failure at the database leaves the new configuration beside the old database. *)
Lemma failed_restore_mixes :
  let f := mkRestoreFaults (fun _ => false) (fun _ => false) None no_fault copy_fails no_fault None in
  let out := install f (str "/tmp/r") (str "/etc/conf") (str "/var/base") (str "/srv/data") lab in
  out.2 = DbFailed MoveFailed /\
  (final lab out.1 <$> [str "/etc/conf/server.yml"; str "/var/base/server.db"]) = [Some (NFile (str "new")); Some (NFile (str "old"))].
Proof. by vm_compute. Qed.
