(* ===== verification/Startup.v ===== *)
(** * Starting the process: [main.go] and [mode/mode.go]

    What a start decides before it serves: the mode, the language, the directories,
    the port and the addresses it binds, the token and key it generates on a first
    run, the limits of its rate limiter.  Random bytes, free ports and the
    environment are arguments.

    The theorems: a generated token has its documented form and a generated key is
    accepted when a backup of it is restored; the port found is in its range and
    free when one of fifty was; a second start keeps what the first one chose; and
    the precedence of flags over environment over saved values. *)
From stdpp Require Import base list gmap strings.
From Stdlib Require Import ZArith Lia.
From S2P Require Import Prelude GoStrings GoUrl GoNet I18n RateLimit Restore.
Local Open Scope Z_scope.
Local Open Scope go_scope.

(** ** Modes and languages *)

Inductive AppMode := AppModeProduction | AppModeDevelopment | AppModeDebug.
Definition mode_text (m : AppMode) : gostr :=
  str match m with AppModeProduction => "production" | AppModeDevelopment => "development" | AppModeDebug => "debug" end.
Section modes.
  Context `{UnicodeTables}.
Definition ParseMode (s : gostr) : option AppMode :=
  let normalized := ToLower (TrimSpace s) in
  if bool_decide (normalized ∈ [str "dev"; str "devel"; str "development"]) then Some AppModeDevelopment
  else if bool_decide (normalized ∈ [str "prod"; str "production"]) then Some AppModeProduction
  else None.
Definition ParseModeWithDebugAlias (s : gostr) : option (AppMode * bool) :=
  if ToLower (TrimSpace s) =s str "debug" then Some (AppModeDebug, true)
  else (fun m => (m, false)) <$> ParseMode s.
(** [applyModeString] on the configured mode and the variable DEBUG. *)
Definition applyModeString (modeStr : gostr) (st : gostr * option gostr) : option (gostr * option gostr) :=
  let '(_, debug) := st in
  (fun mb : AppMode * bool => (mode_text mb.1, if mb.2 then Some (default (str "true") debug) else debug)) <$> ParseModeWithDebugAlias modeStr.
(** The debug flag, the variable MODE, which is ignored when it is invalid, and the
    flag, which ends the start. *)
Definition debug_flag (flag : option bool) (debug : option gostr) : option gostr :=
  match flag with Some b => Some (str (if b then "true" else "false")) | None => debug end.
Definition start_mode (flag : option bool) (envMode modeFlag saved : gostr) (debug : option gostr) : option (gostr * option gostr) :=
  let st := (saved, debug_flag flag debug) in
  let st := if envMode <>s [] then default st (applyModeString envMode st) else st in
  if modeFlag <>s [] then applyModeString modeFlag st else Some st.

Definition validateLang (lang : gostr) : gostr :=
  let lang := ToLower (TrimSpace lang) in if IsSupported lang then lang else str "en".
Definition getLanguage (flagLang lc_all lang : gostr) : gostr :=
  if flagLang <>s [] then validateLang flagLang
  else if lc_all <>s [] then validateLang (List.hd [] (Split lc_all (str "_")))
  else if lang <>s [] then validateLang (List.hd [] (Split lang (str "_")))
  else str "en".
End modes.

(** ** Directories and ports *)

(** The flag, then the variable, then the default. *)
Definition flag_env (flag env osDefault : gostr) : gostr := if flag <>s [] then flag else if env <>s [] then env else osDefault.
Definition resolvePIDFilePath (flagValue env osDefault : gostr) : gostr := flag_env flagValue env osDefault.
Record directories := mkDirs { d_Config : gostr; d_Data : gostr; d_Logs : gostr; d_Cache : gostr }.
Definition resolve_dirs (flags env dirs : directories) : directories :=
  mkDirs (flag_env (d_Config flags) (d_Config env) (d_Config dirs)) (flag_env (d_Data flags) (d_Data env) (d_Data dirs))
    (flag_env (d_Logs flags) (d_Logs env) (d_Logs dirs)) (flag_env (d_Cache flags) (d_Cache env) (d_Cache dirs)).
(** The log directory of the I2P service. *)
Definition i2p_log_dir (resolved env : directories) : gostr := if d_Logs env <>s [] then d_Logs env else d_Logs resolved.

Definition parsePortSpec (spec : gostr) : gostr * gostr :=
  let spec := TrimSpace spec in
  if spec =s [] then ([], [])
  else let '(first, second, found) := Cut spec "," in
       if found then (TrimSpace first, TrimSpace second) else (TrimSpace first, []).
Definition resolveServerPort (flagPort : gostr) (persisted : option gostr) (envPort : gostr) : gostr :=
  if TrimSpace flagPort <>s [] then TrimSpace flagPort
  else match persisted with
       | Some p => if TrimSpace p <>s [] then TrimSpace p else TrimSpace envPort
       | None => TrimSpace envPort
       end.
(** [net.JoinHostPort] *)
Definition JoinHostPort (host port : gostr) : gostr :=
  if Contains host (str ":") || Contains host (str "%") then str "[" ++ host ++ str "]:" ++ port else host ++ str ":" ++ port.
Definition listenAddress (address port : gostr) : gostr :=
  if bool_decide (address ∈ [[]; str "*"; str "::"; str "[::]"; str "0.0.0.0"]) then str ":" ++ port else JoinHostPort address port.
(** The addresses that are bound: plain, and encrypted when it is on. *)
Record listeners := mkListeners { httpListenAddr : gostr; httpsListenAddr : option gostr }.
Definition plan_listeners (ssl_on : bool) (fqdn cfgAddress addressFlag serverPort : gostr) : listeners :=
  let serverAddress := if addressFlag <>s [] then addressFlag else if cfgAddress =s [] then str "[::]" else cfgAddress in
  let '(httpPort, httpsPort) := parsePortSpec serverPort in
  if httpsPort <>s [] then mkListeners (listenAddress serverAddress httpPort) (Some (listenAddress serverAddress httpsPort))
  else if ssl_on && (fqdn <>s []) then mkListeners (listenAddress serverAddress (str "80")) (Some (listenAddress serverAddress (str "443")))
  else mkListeners (listenAddress serverAddress httpPort) None.
(** The address the self check asks. *)
Definition healthcheck_url (serverPort : gostr) : gostr := str "http://localhost:" ++ serverPort ++ str "/server/healthz".

Definition isWildcardBindAddress (host : gostr) : bool :=
  bool_decide (TrimSpace host ∈ [[]; str "0.0.0.0"; str "::"; str "[::]"; str "[::0]"; str "0:0:0:0:0:0:0:0"]).
(** [getFQDN] is what the host calls itself. *)
Definition bannerDisplayHost (getFQDN configuredFQDN bindAddress : gostr) : gostr :=
  let host := TrimSpace configuredFQDN in
  let host := if isWildcardBindAddress host then TrimSpace bindAddress else host in
  let host := if isWildcardBindAddress host then getFQDN else host in
  if HasPrefix host (str "[") then host
  else match ParseIP host with
       | Some ip => if bool_decide (To4 ip = None) then str "[" ++ host ++ str "]" else host
       | None => host
       end.
Definition bannerPortSuffix (proto port : gostr) : gostr :=
  if port =s [] then []
  else if (proto =s str "http") && (port =s str "80") then []
  else if (proto =s str "https") && (port =s str "443") then []
  else str ":" ++ port.

(** ** Random choices *)

Definition randomPort (bytes : option (Z * Z)) : gostr :=
  match bytes with
  | None => str "64000"
  | Some (b0, b1) => Itoa (64000 + Z.lor (Z.shiftl b0 8) b1 mod 1000)
  end.
(** The candidates drawn, and whether each can be bound. *)
Fixpoint probe (n i : nat) (draw : nat -> option (Z * Z)) (free : nat -> gostr -> bool) (candidate : gostr) : gostr :=
  match n with
  | O => candidate
  | S n' => let candidate := randomPort (draw i) in if free i candidate then candidate else probe n' (S i) draw free candidate
  end.
Definition attempts : nat := 50.
Definition randomAvailablePort (draw : nat -> option (Z * Z)) (free : nat -> gostr -> bool) : gostr :=
  probe attempts 1 draw free (randomPort (draw 0%nat)).

Definition alphabet : gostr := str "ABCDEFGHIJKLMNOPQRSTUVWXYZabcdefghijklmnopqrstuvwxyz0123456789".
(** [random] is what the source of 32 bytes delivers. *)
Definition generateOperatorToken (random : option (list Z)) : option gostr :=
  (fun bs => str "tok_" ++ ((fun v => nth (Z.to_nat (v mod 62)) alphabet "A"%char) <$> bs)) <$> random.
(** [base64.StdEncoding.EncodeToString]: the digits of the URL alphabet with two
    others, filled up to a group of four. *)
Definition std_char (c : ascii) : ascii := if bool_decide (c = "-"%char) then "+"%char else if bool_decide (c = "_"%char) then "/"%char else c.
Definition Std_Encode (s : gostr) : gostr :=
  let digits := std_char <$> b64_encode s in
  digits ++ replicate ((4 - length digits mod 4) mod 4) "="%char.
Definition generateEncryptionKey (random : option (list Z)) : option gostr := (fun bs => Std_Encode (chr <$> bs)) <$> random.

(** ** A start *)

(** The generated settings, in memory and as saved. *)
Record generated := mkGenerated { g_token : gostr; g_key : gostr; g_port : gostr }.
Record start_input := mkStart {
  i_portFlag : gostr; i_portEnv : gostr; i_container : bool; i_random_token : option (list Z); i_random_key : option (list Z);
  i_draw : nat -> option (Z * Z); i_free : nat -> gostr -> bool; i_save : nat -> bool }.
Inductive start_error := TokenFailed | KeyFailed.
(** [SaveConfigToFile] after each generated setting; a failure is logged. *)
Definition save (ok : bool) (cfg saved : generated) : generated := if ok then cfg else saved.
Definition default_port (i : start_input) : gostr := if i_container i then str "80" else randomAvailablePort (i_draw i) (i_free i).
(** The settings in force and the saved ones, and the port. *)
Definition provision (i : start_input) (saved : generated) : result start_error (generated * generated * gostr) :=
  let? token := if g_token saved =s [] then match generateOperatorToken (i_random_token i) with Some t => Ok t | None => Err TokenFailed end
                else Ok (g_token saved) in
  let cfg := mkGenerated token (g_key saved) (g_port saved) in
  let disk := if g_token saved =s [] then save (i_save i 0%nat) cfg saved else saved in
  let? key := if g_key saved =s [] then match generateEncryptionKey (i_random_key i) with Some k => Ok k | None => Err KeyFailed end
              else Ok (g_key saved) in
  let cfg' := mkGenerated token key (g_port saved) in
  let disk := if g_key saved =s [] then save (i_save i 1%nat) cfg' disk else disk in
  let serverPort := resolveServerPort (i_portFlag i) (Some (g_port saved)) (i_portEnv i) in
  if serverPort =s [] then
    let chosen := default_port i in
    let cfg'' := mkGenerated token key chosen in
    Ok (cfg'', save (i_save i 2%nat) cfg'' disk, chosen)
  else Ok (cfg', disk, serverPort).

(** ** Limits *)

Definition resolveRateBucket (requests window : Z) (fallback : RateLimitBucket) : RateLimitBucket :=
  {| Limit := if 0 <? requests then requests else Limit fallback;
     Window := if 0 <? window then int64 (window * Second) else Window fallback;
     Burst := Burst fallback |}.
(** The limiter of a start or a reload; [server.rate_limit] as requests and windows. *)
Definition start_rate_limits (enabled : bool) (read write health : Z * Z) (globalBurst : Z) : RateLimitConfig :=
  let d := DefaultRateLimitConfig in
  if enabled then
    {| Read := resolveRateBucket read.1 read.2 (Read d); Write := resolveRateBucket write.1 write.2 (Write d);
       Health := resolveRateBucket health.1 health.2 (Health d);
       Global := if 0 <? globalBurst then {| Limit := globalBurst; Window := Minute; Burst := 0 |} else Global d |}
  else d.
Definition scheduleFor (defaultSched schedule : gostr) : gostr := if schedule <>s [] then schedule else defaultSched.
Definition enabledFor (defaultEnabled : bool) (enabled : option bool) : bool := default defaultEnabled enabled.
Definition slicesContainPrefix (values : list gostr) (prefix : gostr) : bool := existsb (fun v => HasPrefix v prefix) values.
Definition parseDurationOrDefault (parseDuration : gostr -> option Z) (s : gostr) (fallback : Z) : Z :=
  if s =s [] then fallback else match parseDuration s with Some d => if d <=? 0 then fallback else d | None => fallback end.

(** ** Base64 reads back *)

Lemma list_ind3 {A} (P : list A -> Prop) :
  P [] -> (forall a, P [a]) -> (forall a b, P [a; b]) -> (forall a b c l, P l -> P (a :: b :: c :: l)) -> forall l, P l.
Proof. intros H0 H1 H2 H3. fix IH 1. intros [|a [|b [|c l]]]; [exact H0|apply H1|apply H2|apply H3, IH]. Qed.
(** What holds of the first 64 numbers by computation. *)
Lemma below_64 (p : Z -> bool) : forallb p (Z.of_nat <$> seq 0 64) = true -> forall n, 0 <= n < 64 -> p n = true.
Proof.
  intros H n Hn. rewrite forallb_forall in H. apply H, list_elem_of_In, list_elem_of_fmap. exists (Z.to_nat n).
  split; [lia|]. apply elem_of_seq. lia.
Qed.
Lemma digit_value n : 0 <= n < 64 -> b64_value (b64_digit n) = Some n.
Proof.
  intros Hn. apply (bool_decide_eq_true_1 (b64_value (b64_digit n) = Some n)).
  revert n Hn. apply (below_64 (fun n => bool_decide (b64_value (b64_digit n) = Some n))). by vm_compute.
Qed.
Lemma digit_std n : 0 <= n < 64 -> std_digit (std_char (b64_digit n)) = Some (b64_digit n).
Proof.
  intros Hn. apply (bool_decide_eq_true_1 (std_digit (std_char (b64_digit n)) = Some (b64_digit n))).
  revert n Hn. apply (below_64 (fun n => bool_decide (std_digit (std_char (b64_digit n)) = Some (b64_digit n)))). by vm_compute.
Qed.
Lemma digit_not_eol n : 0 <= n < 64 -> not_eol (b64_digit n) = true.
Proof. revert n. apply below_64. by vm_compute. Qed.

Definition pad (digits : gostr) : gostr := replicate ((4 - length digits mod 4) mod 4) "="%char.
Lemma pad_group a b c d digits : pad (a :: b :: c :: d :: digits) = pad digits.
Proof. unfold pad. cbn [length]. replace (S (S (S (S (length digits))))) with (length digits + 1 * 4)%nat by lia. by rewrite Nat.Div0.mod_add. Qed.
Lemma code_byte c : 0 <= code c < 256.
Proof. unfold code. destruct c as [[] [] [] [] [] [] [] []]; cbn; lia. Qed.
Lemma chr_code c : chr (code c) = c.
Proof. unfold chr, code. by rewrite N2Z.id, ascii_N_embedding. Qed.
Ltac digits_of_bytes := repeat match goal with c : ascii |- _ => lazymatch goal with H : 0 <= code c < 256 |- _ => fail | _ => pose proof (code_byte c) end end.
Lemma encoded_digits s : Forall (fun d => exists n, 0 <= n < 64 /\ d = b64_digit n) (b64_encode s).
Proof.
  induction s as [|a|a b|a b c l IH] using list_ind3; [constructor|..]; cbn [b64_encode]; digits_of_bytes;
    repeat (apply Forall_cons_2; [eexists; split; [|reflexivity]; Z.div_mod_to_equations; lia|]); first [exact IH|constructor].
Qed.
Lemma groups_encode s : b64_groups true (b64_encode s ++ pad (b64_encode s)) = Some s.
Proof.
  induction s as [|a|a b|a b c l IH] using list_ind3; [done|..]; cbn [b64_encode]; digits_of_bytes.
  - cbn -[b64_digit b64_value b64_two Z.mul Z.div Z.modulo]. rewrite !digit_value by (Z.div_mod_to_equations; lia).
    cbn -[b64_two Z.mul Z.div Z.modulo]. unfold b64_two.
    transitivity (Some [chr (code a)]); [|by rewrite chr_code]. do 3 f_equal. Z.div_mod_to_equations; lia.
  - cbn -[b64_digit b64_value b64_three Z.mul Z.div Z.modulo Z.add]. rewrite !digit_value by (Z.div_mod_to_equations; lia).
    cbn -[b64_three Z.mul Z.div Z.modulo Z.add]. unfold b64_three.
    transitivity (Some [chr (code a); chr (code b)]); [|by rewrite !chr_code]. cbv zeta. repeat f_equal; Z.div_mod_to_equations; lia.
  - rewrite pad_group. cbn [b64_groups app].
    rewrite !digit_value by (Z.div_mod_to_equations; lia). rewrite IH. cbn -[b64_four Z.mul Z.div Z.modulo Z.add]. unfold b64_four. cbv zeta.
    transitivity (Some (chr (code a) :: chr (code b) :: chr (code c) :: l)); [|by rewrite !chr_code]. cbn [app].
    repeat f_equal; Z.div_mod_to_equations; lia.
Qed.
Lemma mapM_std s : mapM std_digit (Std_Encode s) = Some (b64_encode s ++ pad (b64_encode s)).
Proof.
  unfold Std_Encode. rewrite length_fmap. fold (pad (b64_encode s)).
  assert (Forall2 (fun x y => std_digit x = Some y) ((std_char <$> b64_encode s) ++ pad (b64_encode s)) (b64_encode s ++ pad (b64_encode s))) as H.
  { apply Forall2_app.
    - induction (encoded_digits s) as [|d l (n & Hn & ->) Hl IH]; [constructor|]. constructor; [by apply digit_std|exact IH].
    - unfold pad. generalize ((4 - length (b64_encode s) mod 4) mod 4)%nat. intros k. induction k; constructor; done. }
  by apply mapM_Some.
Qed.
Lemma Std_Decode_Encode s : Std_Decode (Std_Encode s) = Some s.
Proof.
  unfold Std_Decode. rewrite mapM_std. cbn [mbind option_bind]. unfold URL_Decode. transitivity (b64_groups true (b64_encode s ++ pad (b64_encode s))); [f_equal|apply groups_encode].
  apply filter_all. intros c [Hc|Hc]%elem_of_app.
  - pose proof (encoded_digits s) as H. rewrite Forall_forall in H. destruct (H c Hc) as (n & Hn & ->). by apply digit_not_eol.
  - unfold pad in Hc. by apply elem_of_replicate in Hc as [-> _].
Qed.

(** ** Generated secrets *)

Definition bytes32 (bs : list Z) : Prop := length bs = 32%nat /\ Forall (fun b => 0 <= b < 256) bs.
(** A generated encryption key is always one that a restore accepts: it decodes
    to the 32 random bytes it was made of. *)
Theorem generated_key_accepted bs key :
  bytes32 bs -> generateEncryptionKey (Some bs) = Some key -> Std_Decode key = Some (chr <$> bs) /\ key_of_32 (Some key) = true.
Proof.
  intros [Hl _]. unfold generateEncryptionKey. cbn. intros [= <-]. rewrite Std_Decode_Encode. split; [done|].
  unfold key_of_32. cbn [mbind option_bind]. rewrite Std_Decode_Encode, length_fmap, Hl. done.
Qed.
Lemma generated_key_accepted_witness :
  let bs := Z.of_nat <$> seq 200 32 in
  exists key, generateEncryptionKey (Some bs) = Some key /\ key_of_32 (Some key) = true.
Proof.
  intros bs. assert (bytes32 bs) as Hb.
  { split; [done|]. unfold bs. apply Forall_fmap, Forall_forall. intros n Hn%elem_of_seq. cbn. lia. }
  eexists. split; [reflexivity|]. apply (generated_key_accepted bs _ Hb eq_refl).
Defined.

(** A generated operator token is the prefix and 32 characters of the base-62
    alphabet. *)
Theorem generated_token_form bs token :
  bytes32 bs -> generateOperatorToken (Some bs) = Some token ->
  exists body, token = str "tok_" ++ body /\ length body = 32%nat /\ Forall (fun c => alphanumeric c = true) body.
Proof.
  intros [Hl Hb]. unfold generateOperatorToken. cbn [fmap option_fmap option_map]. intros [= <-].
  eexists. split; [reflexivity|]. split; [by rewrite length_fmap|]. apply Forall_fmap. eapply Forall_impl; [exact Hb|].
  intros b Hr. assert (forallb alphanumeric alphabet = true) as Ha by (by vm_compute). rewrite forallb_forall in Ha.
  apply (Ha (nth (Z.to_nat (b mod 62)) alphabet "A"%char)), nth_In. change (length alphabet) with 62%nat. pose proof (Z.mod_pos_bound b 62 ltac:(lia)). lia.
Qed.
Lemma generated_token_form_witness :
  let bs := Z.of_nat <$> seq 200 32 in
  exists body, generateOperatorToken (Some bs) = Some (str "tok_" ++ body) /\ length body = 32%nat.
Proof.
  intros bs. assert (bytes32 bs) as Hb.
  { split; [done|]. unfold bs. apply Forall_fmap, Forall_forall. intros n Hn%elem_of_seq. cbn. lia. }
  destruct (generated_token_form bs _ Hb eq_refl) as (body & E & Hl & _). exists body. split; [by rewrite <- E|done].
Defined.

(** ** Ports *)

Definition drawn (draw : option (Z * Z)) : Prop := forall a b, draw = Some (a, b) -> 0 <= a < 256 /\ 0 <= b < 256.
Lemma randomPort_range draw : drawn draw -> exists n, randomPort draw = Itoa n /\ 64000 <= n <= 64999.
Proof.
  intros Hd. unfold randomPort. destruct draw as [[a b]|]; [|exists 64000; by vm_compute].
  eexists. split; [reflexivity|]. pose proof (Z.mod_pos_bound (Z.lor (Z.shiftl a 8) b) 1000 ltac:(lia)). lia.
Qed.
Lemma probe_spec n i draw free candidate :
  (exists j, (i <= j < i + n)%nat /\ probe n i draw free candidate = randomPort (draw j) /\ free j (randomPort (draw j)) = true) \/
  ((forall j, (i <= j < i + n)%nat -> free j (randomPort (draw j)) = false) /\
   probe n i draw free candidate = match n with O => candidate | S _ => randomPort (draw (i + n - 1)%nat) end).
Proof.
  revert i candidate. induction n as [|n IH]; intros i candidate; [right; split; [lia|done]|]. cbn [probe].
  destruct (free i (randomPort (draw i))) eqn:Ef; [left; exists i; split; [lia|done]|].
  destruct (IH (S i) (randomPort (draw i))) as [(j & Hj & Hp & Hfree)|[Hall Hp]]; [left; exists j; split; [lia|done]|right].
  split.
  - intros j Hj. destruct (decide (j = i)) as [->|]; [done|]. apply Hall. lia.
  - rewrite Hp. destruct n; [f_equal; f_equal; lia|f_equal; f_equal; lia].
Qed.
(** The port a first start picks is between 64000 and 64999; it is one that
    could be bound unless none of the fifty candidates could. *)
Theorem randomAvailablePort_spec draw free :
  (forall j, drawn (draw j)) ->
  (exists n, randomAvailablePort draw free = Itoa n /\ 64000 <= n <= 64999) /\
  ((exists j, (1 <= j <= 50)%nat /\ free j (randomAvailablePort draw free) = true) \/
   (forall j, (1 <= j <= 50)%nat -> free j (randomPort (draw j)) = false)).
Proof.
  intros Hd. unfold randomAvailablePort. destruct (probe_spec attempts 1 draw free (randomPort (draw 0%nat))) as [(j & Hj & -> & Hf)|[Hall ->]].
  - split; [by apply randomPort_range|]. left. exists j. split; [unfold attempts in Hj; lia|done].
  - split; [by apply randomPort_range|]. right. intros j Hj. apply Hall. unfold attempts. lia.
Qed.
Lemma randomAvailablePort_spec_witness :
  let port := randomAvailablePort (fun j => Some (Z.of_nat j mod 256, 7)) (fun j _ => Nat.eqb j 3) in
  port = str "64775" /\ exists n, port = Itoa n /\ 64000 <= n <= 64999.
Proof.
  split; [by vm_compute|].
  refine (proj1 (randomAvailablePort_spec (fun j => Some (Z.of_nat j mod 256, 7)) (fun j _ => Nat.eqb j 3) _)).
  intros j a b [= <- <-]. pose proof (Z.mod_pos_bound (Z.of_nat j) 256 ltac:(lia)). lia.
Defined.

(** ** The next start *)

Lemma available_range draw free : (forall k, drawn (draw k)) -> exists n, randomAvailablePort draw free = Itoa n /\ 64000 <= n <= 64999.
Proof.
  intros Hd. unfold randomAvailablePort. destruct (probe_spec attempts 1 draw free (randomPort (draw 0%nat))) as [(j & _ & -> & _)|[_ ->]];
    by apply randomPort_range.
Qed.
Lemma default_port_plain i : (forall k, drawn (i_draw i k)) -> default_port i <> [] /\ TrimSpace (default_port i) = default_port i.
Proof.
  intros Hd. unfold default_port. destruct (i_container i); [by vm_compute|].
  destruct (available_range (i_draw i) (i_free i) Hd) as (n & -> & Hn). split.
  - intros E. assert (parse_digits (Itoa n) = Some n) as Hp by (apply parse_digits_Itoa; lia). rewrite E in Hp. by vm_compute in Hp.
  - apply TrimSpace_visible, digits_visible, Itoa_digits. lia.
Qed.
Lemma Std_Encode_nonempty bs : bytes32 bs -> Std_Encode (chr <$> bs) <> [].
Proof.
  intros [Hl _] E. pose proof (Std_Decode_Encode (chr <$> bs)) as H. rewrite E in H. vm_compute in H. by destruct bs.
Qed.
(** A start that finds everything saved generates and saves nothing. *)
Lemma provision_complete j g :
  g_token g <> [] -> g_key g <> [] -> TrimSpace (g_port g) <> [] -> TrimSpace (i_portFlag j) = [] ->
  provision j g = Ok (g, g, TrimSpace (g_port g)).
Proof.
  intros Ht Hk Hp Hf. unfold provision, resolveServerPort. rewrite Hf.
  rewrite !(bool_decide_eq_false_2 (g_token g = [])), !(bool_decide_eq_false_2 (g_key g = [])), !(bool_decide_eq_false_2 (TrimSpace (g_port g) = [])) by done.
  by destruct g.
Qed.
(** What a first start generates and saves is kept: a later start that reads it
    back, whatever is drawn, generates nothing, saves nothing and has the same
    token, key and, without a flag, port. *)
Theorem provision_stable i saved cfg disk port j :
  provision i saved = Ok (cfg, disk, port) -> (forall k, i_save i k = true) ->
  TrimSpace (i_portFlag i) = [] -> TrimSpace (i_portFlag j) = [] -> TrimSpace (i_portEnv i) = [] ->
  (forall k, drawn (i_draw i k)) -> (forall bs, i_random_key i = Some bs -> bytes32 bs) ->
  disk = cfg /\ provision j disk = Ok (disk, disk, port).
Proof.
  intros E Hsave Hfi Hfj Hei Hdraw Hbytes. unfold provision in E.
  destruct (if g_token saved =s [] then _ else _) as [token|] eqn:Et; [cbn [rbind] in E|done].
  destruct (if g_key saved =s [] then _ else _) as [key|] eqn:Ek; [cbn [rbind] in E|done].
  assert (token <> []) as Htok.
  { clear E Ek. case_bool_decide as Hn; [|by simplify_eq]. unfold generateOperatorToken in Et. destruct (i_random_token i); [|done]. cbn [fmap option_fmap option_map] in Et. by injection Et as <-. }
  assert (key <> []) as Hkey.
  { clear E Et. case_bool_decide as Hn; [|by simplify_eq]. destruct (i_random_key i) as [bs|] eqn:Er; [|done]. cbn in Ek. injection Ek as <-. by apply Std_Encode_nonempty, Hbytes. }
  assert ((if g_key saved =s [] then save (i_save i 1%nat) (mkGenerated token key (g_port saved))
             (if g_token saved =s [] then save (i_save i 0%nat) (mkGenerated token (g_key saved) (g_port saved)) saved else saved)
           else if g_token saved =s [] then save (i_save i 0%nat) (mkGenerated token (g_key saved) (g_port saved)) saved else saved)
          = mkGenerated token key (g_port saved)) as Hdisk.
  { clear E. rewrite !Hsave. unfold save. destruct (bool_decide (g_key saved = [])); [done|]. injection Ek as <-.
    destruct (bool_decide (g_token saved = [])); [done|]. injection Et as <-. by destruct saved. }
  rewrite Hdisk in E. unfold resolveServerPort in E. rewrite Hfi, Hei in E. cbn [bool_decide] in E.
  destruct (default_port_plain i Hdraw) as [Hd1 Hd2].
  destruct (decide (TrimSpace (g_port saved) = [])) as [Hp|Hp].
  - rewrite Hp in E. rewrite !(bool_decide_eq_true_2 (([] : gostr) = [])) in E by done. cbn [negb] in E. rewrite Hsave in E. unfold save in E.
    injection E as <- <- <-. split; [done|]. rewrite provision_complete; cbn [g_token g_key g_port]; try done; by rewrite Hd2.
  - rewrite (bool_decide_eq_true_2 (([] : gostr) = [])), !(bool_decide_eq_false_2 (TrimSpace (g_port saved) = [])) in E by done. cbn [negb] in E.
    injection E as <- <- <-. split; [done|]. by rewrite provision_complete.
Qed.
Definition bytes_from (n : nat) : list Z := Z.of_nat <$> seq n 32.
Definition first_start (portEnv : string) (n : nat) : start_input :=
  mkStart [] (str portEnv) false (Some (bytes_from n)) (Some (bytes_from n)) (fun _ => Some (0, Z.of_nat n)) (fun _ _ => true) (fun _ => true).
Lemma provision_stable_witness :
  match provision (first_start "" 100) (mkGenerated [] [] []) with
  | Ok (cfg, disk, port) => port = str "64100" /\ provision (first_start "8080" 7) disk = Ok (disk, disk, port)
  | Err _ => False
  end.
Proof.
  destruct (provision (first_start "" 100) (mkGenerated [] [] [])) as [[[cfg disk] port]|] eqn:E; [|by vm_compute in E].
  split; [by vm_compute in E; simplify_eq|].
  refine (proj2 (provision_stable (first_start "" 100) _ cfg disk port (first_start "8080" 7) E _ _ _ _ _ _)); try done.
  - intros k a b Hd. cbn in Hd. injection Hd as <- <-. lia.
  - intros bs Hbs. injection Hbs as <-. split; [done|]. apply Forall_fmap, Forall_forall. intros n Hn%elem_of_seq. cbn. lia.
Defined.

(** ** Precedence *)

(** The mode of a start is that of the flag, else that of a valid MODE, else the
    saved one; an invalid flag ends the start.  The debug flag and, without it, an
    explicit DEBUG are never overridden; only where both are absent does a debug
    mode that was asked for switch debugging on. *)
Theorem start_mode_precedence `{UnicodeTables} flag envMode modeFlag saved debug :
  let parsed s := if s =s [] then None else ParseModeWithDebugAlias s in
  match start_mode flag envMode modeFlag saved debug with
  | None => modeFlag <> [] /\ parsed modeFlag = None
  | Some (mode, debug') =>
      mode = match parsed modeFlag, parsed envMode with Some (m, _), _ => mode_text m | None, Some (m, _) => mode_text m | None, None => saved end /\
      debug' = match debug_flag flag debug with
               | Some d => Some d
               | None => if match parsed envMode with Some (_, b) => b | None => false end || match parsed modeFlag with Some (_, b) => b | None => false end
                         then Some (str "true") else None
               end
  end.
Proof.
  cbv zeta. unfold start_mode, applyModeString.
  destruct (bool_decide (envMode = [])) eqn:Ee, (bool_decide (modeFlag = [])) eqn:Em; cbn [negb].
  - by destruct (debug_flag flag debug).
  - destruct (ParseModeWithDebugAlias modeFlag) as [[m b]|]; cbn -[str mode_text].
    + by destruct (debug_flag flag debug), b.
    + by apply bool_decide_eq_false in Em.
  - destruct (ParseModeWithDebugAlias envMode) as [[m b]|]; cbn -[str mode_text]; [|by destruct (debug_flag flag debug)].
    by destruct (debug_flag flag debug), b.
  - apply bool_decide_eq_false in Em.
    destruct (ParseModeWithDebugAlias envMode) as [[m b]|], (ParseModeWithDebugAlias modeFlag) as [[m' b']|]; cbn -[str mode_text]; try done;
      destruct (debug_flag flag debug); try destruct b; by destruct b'.
Qed.

(** ** Limits of the code *)

(** With a pair of ports the self check asks a host that does not exist; with
    encryption on one port it asks a port that is not bound. *)
Lemma healthcheck_misses :
  plan_listeners false [] [] [] (str "8090,8443") = mkListeners (str ":8090") (Some (str ":8443")) /\
  healthcheck_url (str "8090,8443") = str "http://localhost:8090,8443/server/healthz" /\
  plan_listeners true (str "example.org") [] [] (str "8080") = mkListeners (str ":80") (Some (str ":443")) /\
  healthcheck_url (str "8080") = str "http://localhost:8080/server/healthz".
Proof. by vm_compute. Qed.
(** A locale without a territory is not recognised, and LC_ALL=C hides LANG. *)
Lemma locale_not_recognised :
  getLanguage (H := ascii_tables) [] [] (str "de_DE.UTF-8") = str "de" /\
  getLanguage (H := ascii_tables) [] [] (str "de.UTF-8") = str "en" /\
  getLanguage (H := ascii_tables) [] (str "C.UTF-8") (str "de_DE.UTF-8") = str "en".
Proof. by vm_compute. Qed.
(** The log directory of the I2P service does not follow the flag. *)
Lemma i2p_log_ignores_flag flag env os : flag <> [] -> env <> [] -> flag <> env ->
  let env_dirs := mkDirs [] [] env [] in
  let resolved := resolve_dirs (mkDirs [] [] flag []) env_dirs os in
  d_Logs resolved = flag /\ i2p_log_dir resolved env_dirs = env.
Proof.
  intros Hf He Hne. unfold resolve_dirs, i2p_log_dir, flag_env. cbn [d_Logs].
  by rewrite (bool_decide_eq_false_2 (flag = [])), (bool_decide_eq_false_2 (env = [])) by done.
Qed.
