(* ===== verification/Alerts.v ===== *)
(** * Operator notifications of the scheduled tasks: [main.go], [backup_retention.go]

    The tasks that send mail, the marks that keep a failed run from being reported
    twice, the version the operator was told about, and the spacing of security
    alerts.  Whether a mail is delivered is an argument of each send; what a task
    does besides notifying is its outcome.

    The theorems: marks never outlive a run; with notifications on and mail
    delivered every failed run is reported in exactly one mail; security alerts of
    one address are at least a quarter of an hour apart; a pending update is
    announced once.  The lemmas at the end are the cases in which a failed delivery
    leaves the operator without any notice. *)
From stdpp Require Import base list gmap strings.
From Stdlib Require Import ZArith Lia.
From S2P Require Import Prelude GoStrings Settings Startup.
Local Open Scope Z_scope.
Local Open Scope go_scope.

(** ** State *)

Record events := mkEvents {
  SchedulerError : bool; BackupFailed : bool; BackupComplete : bool; SSLRenewalFailed : bool; SSLExpiring : bool; SSLRenewed : bool;
  UpdateAvailable : bool; UpdateInstalled : bool; SecurityAlert : bool }.
(** A mail that was handed over, with its template, and whether it was delivered. *)
Record mail := mkMail { m_template : gostr; m_delivered : bool }.
Record alerts := mkAlerts {
  criticalTaskEmails : gset gostr; notifiedVersion : option gostr; securityAlertLast : gmap gostr Z; outbox : list mail }.

(** [operatorRecipients] and [operatorLanguage]; [from] is the sender address. *)
Definition operatorRecipients (cfg : option (ContactConfig * gostr)) : list gostr :=
  match cfg with
  | None => []
  | Some (contacts, from) =>
      let to := TrimSpace (Email (ResolveContactRole contacts (str "admin"))) in
      if to <>s [] then [to] else if TrimSpace from <>s [] then [TrimSpace from] else []
  end.
Definition operatorLanguage (cfg : option (gostr * gostr)) : gostr :=
  match cfg with
  | None => str "en"
  | Some (lang, fallback) =>
      if TrimSpace lang <>s [] then TrimSpace lang else if TrimSpace fallback <>s [] then TrimSpace fallback else str "en"
  end.

Definition with_marks (marks : gset gostr) (a : alerts) : alerts := mkAlerts marks (notifiedVersion a) (securityAlertLast a) (outbox a).
Definition markCriticalTaskEmail (taskID : gostr) (a : alerts) : alerts := with_marks (criticalTaskEmails a ∪ {[taskID]}) a.
Definition consumeCriticalTaskEmail (taskID : gostr) (a : alerts) : bool * alerts :=
  (bool_decide (taskID ∈ criticalTaskEmails a), with_marks (criticalTaskEmails a ∖ {[taskID]}) a).

(** The mail manager: none, or whether it is enabled. *)
Section tasks.
  Context (manager : option bool) (ev : events).
Definition mail_on : bool := match manager with Some enabled => enabled | None => false end.
Definition sendOperatorEmail (template : string) (delivers : bool) (a : alerts) : bool * alerts :=
  match manager with
  | None => (false, a)
  | Some _ => (delivers, mkAlerts (criticalTaskEmails a) (notifiedVersion a) (securityAlertLast a) (outbox a ++ [mkMail (str template) delivers]))
  end.

(** [OnFailure]. *)
Definition OnFailure (taskID : gostr) (delivers : bool) (a : alerts) : alerts :=
  let '(alreadyNotified, a) := consumeCriticalTaskEmail taskID a in
  if negb mail_on || negb (SchedulerError ev) then a
  else if alreadyNotified then a
  else (sendOperatorEmail "scheduler_error" delivers a).2.

(** *** Certificates *)

(** The outcome of a renewal: whether it failed, whether the certificate was within
    a week of its end before, and the days it has left after, when it can be read. *)
Record renewal := mkRenewal { renewErr : bool; wasExpiring : bool; daysLeft : option Z }.
Definition ssl_renewal (domains : list gostr) (r : renewal) (delivers : bool) (a : alerts) : bool * alerts :=
  match domains with
  | [] => (false, a)
  | _ =>
      let a := if renewErr r && mail_on && SSLRenewalFailed ev
               then markCriticalTaskEmail (str "ssl_renewal") (sendOperatorEmail "ssl_renewal_failed" delivers a).2 else a in
      let a := if wasExpiring r && negb (renewErr r) && mail_on then
                 match daysLeft r with
                 | None => a
                 | Some d => if (d <=? 7) && SSLExpiring ev then (sendOperatorEmail "ssl_expiring" delivers a).2
                             else if (7 <? d) && SSLRenewed ev then (sendOperatorEmail "ssl_renewed" delivers a).2 else a
                 end
               else a in
      (renewErr r, a)
  end.

(** *** Backups *)

Definition notifyBackupFailed (delivers : bool) (a : alerts) : bool * alerts :=
  if negb mail_on || negb (BackupFailed ev) then (false, a) else sendOperatorEmail "backup_failed" delivers a.
Definition notifyBackupComplete (delivers : bool) (a : alerts) : alerts :=
  if negb mail_on || negb (BackupComplete ev) then a else (sendOperatorEmail "backup_complete" delivers a).2.
(** What happens to a scheduled backup: no password may be used, the directory or
    the space is missing, it fails, or it is made and verified. *)
Inductive backup_outcome := NoPasswordSource | NoDirectory | DiskFull | BackupError | BackupMade.
Definition backup_task (taskID : gostr) (o : backup_outcome) (delivers : bool) (a : alerts) : bool * alerts :=
  match o with
  | NoPasswordSource | DiskFull => (false, a)
  | NoDirectory => (true, a)
  | BackupError => let '(sent, a) := notifyBackupFailed delivers a in (true, if sent then markCriticalTaskEmail taskID a else a)
  | BackupMade => (false, notifyBackupComplete delivers a)
  end.

(** *** Updates *)

Definition readUpdateNotifiedVersion (a : alerts) : gostr := match notifiedVersion a with Some data => TrimSpace data | None => [] end.
(** A failure leaves the file as it was. *)
Definition writeUpdateNotifiedVersion (writes : bool) (version : gostr) (a : alerts) : alerts :=
  if writes then mkAlerts (criticalTaskEmails a) (Some (version ++ ["010"%char])) (securityAlertLast a) (outbox a) else a.
(** What a check finds: an error, nothing new, a release that is too young, or one
    to act on, with what an installation of it comes to. *)
Inductive update_found := CheckFailed | UpToDate | TooYoung | Newer (tag : gostr) (install_fails : bool).
Definition update_check (autoInstall writes : bool) (found : update_found) (delivers : bool) (a : alerts) : bool * alerts :=
  match found with
  | CheckFailed => (true, a)
  | UpToDate | TooYoung => (false, a)
  | Newer tag install_fails =>
      let latestVersion := TrimPrefix tag (str "v") in
      let alreadyNotified := readUpdateNotifiedVersion a =s latestVersion in
      let a := if negb alreadyNotified && mail_on && UpdateAvailable ev
               then writeUpdateNotifiedVersion writes latestVersion (sendOperatorEmail "update_available" delivers a).2 else a in
      if autoInstall then
        if install_fails then (true, a)
        else (false, if mail_on && UpdateInstalled ev then (sendOperatorEmail "update_installed" delivers a).2 else a)
      else (false, a)
  end.

(** *** Runs *)

Inductive task :=
| Renewal (domains : list gostr) (r : renewal)
| DailyBackup (o : backup_outcome)
| HourlyBackup (o : backup_outcome)
| UpdateCheck (autoInstall writes : bool) (found : update_found)
| OtherTask (id : gostr) (fails : bool).
Definition task_id (t : task) : gostr :=
  match t with
  | Renewal _ _ => str "ssl_renewal" | DailyBackup _ => str "backup_daily" | HourlyBackup _ => str "backup_hourly"
  | UpdateCheck _ _ _ => str "update_check" | OtherTask id _ => id
  end.
Definition task_fn (t : task) (delivers : bool) (a : alerts) : bool * alerts :=
  match t with
  | Renewal domains r => ssl_renewal domains r delivers a
  | DailyBackup o => backup_task (str "backup_daily") o delivers a
  | HourlyBackup o => backup_task (str "backup_hourly") o delivers a
  | UpdateCheck autoInstall writes found => update_check autoInstall writes found delivers a
  | OtherTask _ fails => (fails, a)
  end.
(** A run of the scheduler: the function, and [OnFailure] when it failed. *)
Definition run (t : task) (delivers : bool) (a : alerts) : bool * alerts :=
  let '(failed, a) := task_fn t delivers a in
  (failed, if failed then OnFailure (task_id t) delivers a else a).

(** *** Security alerts *)

Definition onRateLimitBlocked (clientIP : gostr) (now : Z) (delivers : bool) (a : alerts) : alerts :=
  if negb mail_on || negb (SecurityAlert ev) then a
  else match securityAlertLast a !! clientIP with
       | Some last => if now - last <? 15 * Minute then a
                      else (sendOperatorEmail "security_alert" delivers
                              (mkAlerts (criticalTaskEmails a) (notifiedVersion a) (<[clientIP := now]> (securityAlertLast a)) (outbox a))).2
       | None => (sendOperatorEmail "security_alert" delivers
                    (mkAlerts (criticalTaskEmails a) (notifiedVersion a) (<[clientIP := now]> (securityAlertLast a)) (outbox a))).2
       end.
End tasks.

(** ** Runs are reported *)

Definition failure_templates : list gostr := str <$> ["scheduler_error"; "backup_failed"; "ssl_renewal_failed"]%string.
Definition reports (ms : list mail) : nat := length (filter (fun m => m_template m ∈ failure_templates) ms).
Lemma reports_app a b : reports (a ++ b) = (reports a + reports b)%nat.
Proof. unfold reports. by rewrite filter_app, length_app. Qed.
Lemma send_outbox manager template d a :
  outbox (sendOperatorEmail manager template d a).2 = outbox a ++ (if bool_decide (manager = None) then [] else [mkMail (str template) d]) /\
  criticalTaskEmails (sendOperatorEmail manager template d a).2 = criticalTaskEmails a /\
  notifiedVersion (sendOperatorEmail manager template d a).2 = notifiedVersion a.
Proof. destruct manager; cbn; [done|]. by rewrite app_nil_r. Qed.

(** What the function of a task leaves: whether it marked its run, and the mails
    that report a failure. *)
Definition fn_marks manager ev (t : task) (d : bool) : bool :=
  mail_on manager &&
  match t with
  | Renewal (_ :: _) r => renewErr r && SSLRenewalFailed ev
  | DailyBackup BackupError | HourlyBackup BackupError => BackupFailed ev && d
  | _ => false
  end.
Definition fn_reports manager ev (t : task) : nat :=
  Nat.b2n (mail_on manager &&
  match t with
  | Renewal (_ :: _) r => renewErr r && SSLRenewalFailed ev
  | DailyBackup BackupError | HourlyBackup BackupError => BackupFailed ev
  | _ => false
  end).
Ltac settled :=
  split; [done|]; split; [|done];
  first [ exists []; split; [by cbn; rewrite ?app_nil_r|]; split; [constructor|done]
        | eexists [_]; split; [reflexivity|]; split; [by repeat constructor|by vm_compute]
        | eexists [_; _]; split; [cbn; rewrite <- app_assoc; reflexivity|]; split; [by repeat constructor|by vm_compute] ].
Lemma task_fn_spec manager ev t d a failed a' :
  task_fn manager ev t d a = (failed, a') ->
  criticalTaskEmails a' = (if fn_marks manager ev t d then criticalTaskEmails a ∪ {[task_id t]} else criticalTaskEmails a) /\
  (exists ms, outbox a' = outbox a ++ ms /\ Forall (fun m => m_delivered m = d) ms /\ reports ms = fn_reports manager ev t) /\
  (fn_marks manager ev t d = true -> failed = true).
Proof.
  destruct t as [domains r|o|o|auto writes found|id fails]; cbn [task_fn task_id]; unfold fn_marks, fn_reports.
  - unfold ssl_renewal. destruct domains as [|dom domains]; intros [= <- <-]; [rewrite andb_false_r; settled|].
    destruct manager as [[]|]; unfold mail_on; rewrite ?andb_false_r, ?andb_true_r; [|settled..].
    destruct r as [[] [] [k|]]; destruct (SSLRenewalFailed ev); cbn [renewErr wasExpiring daysLeft andb negb]; try settled.
    all: destruct ((k <=? 7) && SSLExpiring ev); [settled|]; destruct ((7 <? k) && SSLRenewed ev); settled.
  - unfold backup_task, notifyBackupFailed, notifyBackupComplete. destruct manager as [[]|], o; unfold mail_on; cbn [negb orb andb];
      try (intros [= <- <-]; settled); destruct (BackupFailed ev), (BackupComplete ev), d; intros [= <- <-]; settled.
  - unfold backup_task, notifyBackupFailed, notifyBackupComplete. destruct manager as [[]|], o; unfold mail_on; cbn [negb orb andb];
      try (intros [= <- <-]; settled); destruct (BackupFailed ev), (BackupComplete ev), d; intros [= <- <-]; settled.
  - unfold update_check, writeUpdateNotifiedVersion. rewrite andb_false_r. destruct found as [| | |tag fails]; try (intros [= <- <-]; settled).
    destruct manager as [[]|]; unfold mail_on; rewrite ?andb_false_r, ?andb_true_r; cbn [andb];
      [destruct (negb _ && UpdateAvailable ev)|..]; destruct auto, fails, writes, (UpdateInstalled ev); intros [= <- <-]; settled.
  - intros [= <- <-]. rewrite andb_false_r. settled.
Qed.

(** No mark of a critical mail outlives the run it was set in, and with mail and
    scheduler notifications on and mail delivered, every run that fails is reported
    in exactly one mail and no other run in any. *)
Theorem runs_reported_once manager ev t d a failed a' :
  run manager ev t d a = (failed, a') -> criticalTaskEmails a = ∅ ->
  criticalTaskEmails a' = ∅ /\
  exists ms, outbox a' = outbox a ++ ms /\
    (mail_on manager = true -> SchedulerError ev = true -> d = true ->
     reports ms = Nat.b2n failed /\ Forall (fun m => m_delivered m = true) ms).
Proof.
  unfold run. destruct (task_fn manager ev t d a) as [f a1] eqn:E. intros [= <- <-] Ha.
  destruct (task_fn_spec _ _ _ _ _ _ _ E) as (Hm & (ms & Ho & Hd & Hr) & Hf). rewrite Ha in Hm.
  destruct f.
  - unfold OnFailure, consumeCriticalTaskEmail. rewrite Hm.
    assert ((if fn_marks manager ev t d then ∅ ∪ {[task_id t]} else ∅) ∖ {[task_id t]} = (∅ : gset gostr)) as Hclear
      by (apply leibniz_equiv; destruct (fn_marks _ _ _ _); set_solver).
    destruct (negb (mail_on manager) || negb (SchedulerError ev)) eqn:Eoff.
    { split; [exact Hclear|]. exists ms. split; [exact Ho|]. intros Hon Hs. by rewrite Hon, Hs in Eoff. }
    assert (d = true -> fn_reports manager ev t = Nat.b2n (fn_marks manager ev t d)) as Hsame.
    { intros ->. unfold fn_reports, fn_marks. destruct t as [[]| [] | [] | |]; rewrite ?andb_true_r; done. }
    case_bool_decide as Hin.
    + split; [exact Hclear|]. exists ms. split; [exact Ho|]. intros _ _ Hdt. rewrite Hr, Hsame by done.
      destruct (fn_marks manager ev t d); [by subst d|set_solver].
    + destruct (send_outbox manager "scheduler_error" d (with_marks ((if fn_marks manager ev t d then ∅ ∪ {[task_id t]} else ∅) ∖ {[task_id t]}) a1)) as (Hs1 & Hs2 & _).
      split; [by rewrite Hs2|]. rewrite Hs1. cbn [outbox with_marks]. rewrite Ho, <- app_assoc. eexists. split; [reflexivity|].
      intros Hon _ Hdt. rewrite reports_app, Hr, Hsame by done.
      destruct (fn_marks manager ev t d) eqn:Ef; [set_solver|]. destruct manager as [en|]; [|done]. cbn -[str failure_templates reports].
      split; [by vm_compute|]. subst d. apply Forall_app. split; [done|by repeat constructor].
  - assert (fn_marks manager ev t d = false) as Hno by (destruct (fn_marks manager ev t d); [by discriminate Hf|done]).
    rewrite Hno in Hm. split; [done|]. exists ms. split; [done|]. intros Hon Hs ->. split; [|done]. rewrite Hr.
    revert Hno. unfold fn_marks, fn_reports. destruct t as [[]| [] | [] | |]; rewrite ?andb_true_r; by intros ->.
Qed.
Definition all_events : events := mkEvents true true true true true true true true true.
Definition no_alerts : alerts := mkAlerts ∅ None ∅ [].
Lemma runs_reported_once_witness :
  (m_template <$> outbox (run (Some true) all_events (DailyBackup BackupError) true no_alerts).2) = [str "backup_failed"] /\
  (m_template <$> outbox (run (Some true) all_events (OtherTask (str "cve_update") true) true no_alerts).2) = [str "scheduler_error"] /\
  criticalTaskEmails (run (Some true) all_events (DailyBackup BackupError) true no_alerts).2 = ∅.
Proof.
  split; [by vm_compute|]. split; [by vm_compute|].
  destruct (run (Some true) all_events (DailyBackup BackupError) true no_alerts) as [failed a'] eqn:E.
  exact (proj1 (runs_reported_once (Some true) all_events (DailyBackup BackupError) true no_alerts failed a' E eq_refl)).
Defined.

(** ** Security alerts *)

(** Rejections in their order, and those for which an alert was sent. *)
Fixpoint alert_log (manager : option bool) (ev : events) (calls : list (gostr * Z * bool)) (a : alerts) : list (gostr * Z) :=
  match calls with
  | [] => []
  | (ip, now, d) :: calls' =>
      let a' := onRateLimitBlocked manager ev ip now d a in
      (if Nat.ltb (length (outbox a)) (length (outbox a')) then [(ip, now)] else []) ++ alert_log manager ev calls' a'
  end.
Lemma onRateLimitBlocked_cases manager ev ip now d a :
  let a' := onRateLimitBlocked manager ev ip now d a in
  (a' = a) \/
  ((forall last, securityAlertLast a !! ip = Some last -> 15 * Minute <= now - last) /\
   securityAlertLast a' = <[ip := now]> (securityAlertLast a) /\ length (outbox a') = S (length (outbox a))).
Proof.
  unfold onRateLimitBlocked. destruct manager as [[]|]; cbn [mail_on negb orb]; [|by left..]. destruct (SecurityAlert ev); cbn [negb orb]; [|by left].
  destruct (securityAlertLast a !! ip) as [last|] eqn:E.
  - destruct (now - last <? 15 * Minute) eqn:El; [by left|]. apply Z.ltb_ge in El. right. cbn. rewrite length_app. cbn. split_and!; [naive_solver|done|lia].
  - right. cbn. rewrite length_app. cbn. split_and!; [done|done|lia].
Qed.
(** Two security alerts about one address are at least a quarter of an hour
    apart, whatever other rejections come between them. *)
Theorem alert_spacing manager ev calls a pre ip t mid t' post :
  alert_log manager ev calls a = pre ++ (ip, t) :: mid ++ (ip, t') :: post -> (forall u, (ip, u) ∉ mid) ->
  15 * Minute <= t' - t.
Proof.
  assert (forall calls a t mid t' post, securityAlertLast a !! ip = Some t ->
    alert_log manager ev calls a = mid ++ (ip, t') :: post -> (forall u, (ip, u) ∉ mid) -> 15 * Minute <= t' - t) as Hnext.
  { clear. induction calls as [|[[x now] d] calls IH]; intros a t mid t' post Hl E Hmid; [by destruct mid|]. cbn [alert_log] in E.
    destruct (onRateLimitBlocked_cases manager ev x now d a) as [Ha|(Hsp & Hmap & Hlen)].
    - rewrite Ha in E. rewrite Nat.ltb_irrefl in E. by eapply IH.
    - rewrite Hlen, (proj2 (Nat.ltb_lt _ _)) in E by lia. cbn [app] in E. destruct mid as [|y mid].
      + injection E as -> -> _. by apply Hsp.
      + injection E as E1 E2. subst y. assert (x <> ip) as Hx by (intros ->; apply (Hmid now); left).
        eapply (IH _ t mid); [rewrite Hmap, lookup_insert_ne by done; exact Hl|exact E2|]. intros u Hu. apply (Hmid u). by right. }
  revert a pre. induction calls as [|[[x now] d] calls IH]; intros a pre E Hmid; [by destruct pre|]. cbn [alert_log] in E.
  destruct (onRateLimitBlocked_cases manager ev x now d a) as [Ha|(_ & Hmap & Hlen)].
  - rewrite Ha, Nat.ltb_irrefl in E. by eapply IH.
  - rewrite Hlen, (proj2 (Nat.ltb_lt _ _)) in E by lia. cbn [app] in E. destruct pre as [|y pre]; [|injection E as _ E; by eapply IH].
    injection E as -> -> E2. eapply Hnext; [|exact E2|exact Hmid]. rewrite Hmap. apply lookup_insert_eq.
Qed.
Lemma alert_spacing_witness :
  let calls := [(str "a", 0, true); (str "b", 5, true); (str "a", Minute, true); (str "a", 20 * Minute, false)] in
  alert_log (Some true) all_events calls no_alerts = [(str "a", 0); (str "b", 5); (str "a", 20 * Minute)] /\ 15 * Minute <= 20 * Minute - 0.
Proof.
  split; [by vm_compute|].
  refine (alert_spacing (Some true) all_events [(str "a", 0, true); (str "b", 5, true); (str "a", Minute, true); (str "a", 20 * Minute, false)]
    no_alerts [] (str "a") 0 [(str "b", 5)] (20 * Minute) [] _ _); [by vm_compute|]. intros u Hu. apply list_elem_of_singleton in Hu. by injection Hu.
Defined.

(** ** Updates *)

Definition announcements (ms : list mail) : nat := length (filter (fun m => m_template m = str "update_available") ms).
Lemma announcements_app a b : announcements (a ++ b) = (announcements a + announcements b)%nat.
Proof. unfold announcements. by rewrite filter_app, length_app. Qed.
Definition checks (manager : option bool) (ev : events) (auto : bool) (tag : gostr) (ds : list (bool * bool)) (a : alerts) : alerts :=
  fold_left (fun a x => (update_check manager ev auto true (Newer tag x.1) x.2 a).2) ds a.
(** A pending update is announced at most once however often it is found, as
    long as the note of it can be written. *)
Theorem update_announced_once manager ev auto tag ds a :
  let version := TrimPrefix tag (str "v") in
  version <> [] -> forallb visible version = true ->
  (announcements (outbox (checks manager ev auto tag ds a)) <= S (announcements (outbox a)))%nat /\
  (readUpdateNotifiedVersion a = version -> announcements (outbox (checks manager ev auto tag ds a)) = announcements (outbox a)).
Proof.
  intros version Hne Hv. revert a. induction ds as [|[fails d] ds IH]; intros a; [cbn; lia|].
  change (checks manager ev auto tag ((fails, d) :: ds) a) with (checks manager ev auto tag ds (update_check manager ev auto true (Newer tag fails) d a).2).
  set (a' := (update_check manager ev auto true (Newer tag fails) d a).2).
  assert ((readUpdateNotifiedVersion a <> version /\ readUpdateNotifiedVersion a' = version /\ (announcements (outbox a') <= S (announcements (outbox a)))%nat) \/
          (announcements (outbox a') = announcements (outbox a) /\ readUpdateNotifiedVersion a' = readUpdateNotifiedVersion a)) as Hstep.
  { unfold a', update_check. fold version. destruct manager as [[]|]; cbn [mail_on]; rewrite ?andb_false_r, ?andb_true_r; cbn [andb].
    2, 3: right; by destruct auto, fails.
    destruct (negb (bool_decide (readUpdateNotifiedVersion a = version)) && UpdateAvailable ev) eqn:Enew.
    - left. split; [apply andb_true_iff in Enew as [Hn _]; by apply negb_true_iff, bool_decide_eq_false in Hn|]. assert (readUpdateNotifiedVersion (mkAlerts (criticalTaskEmails a) (Some (version ++ ["010"%char])) (securityAlertLast a)
        (outbox a ++ [mkMail (str "update_available") d])) = version) as Hread by (by apply TrimSpace_line).
      destruct auto, fails, (UpdateInstalled ev); (split; [exact Hread|]); cbn [snd outbox sendOperatorEmail writeUpdateNotifiedVersion andb];
        rewrite !announcements_app; change (announcements [mkMail (str "update_available") d]) with 1%nat;
        change (announcements [mkMail (str "update_installed") d]) with 0%nat; lia.
    - right. destruct auto, fails, (UpdateInstalled ev); cbn [snd outbox sendOperatorEmail andb]; try done.
      rewrite announcements_app. change (announcements [mkMail (str "update_installed") d]) with 0%nat. split; [lia|done]. }
  destruct (IH a') as [IH1 IH2]. destruct Hstep as [(Hnew & Hr & Hle)|[Heq Hr]].
  - rewrite (IH2 Hr). done.
  - rewrite Heq in IH1, IH2. split; [done|]. intros Hknown. apply IH2. congruence.
Qed.
Lemma update_announced_once_witness :
  let a := checks (Some true) all_events false (str "v1.2.0") [(false, true); (false, true); (true, false)] no_alerts in
  announcements (outbox a) = 1%nat /\ (announcements (outbox a) <= S (announcements (outbox no_alerts)))%nat.
Proof.
  split; [by vm_compute|].
  exact (proj1 (update_announced_once (Some true) all_events false (str "v1.2.0") [(false, true); (false, true); (true, false)] no_alerts ltac:(done) eq_refl)).
Defined.

(** ** Limits of the code *)

(** A renewal whose own mail could not be delivered is marked as reported all the
    same, so nothing else is sent; a backup is then reported by the scheduler. *)
Lemma undelivered_renewal_unreported :
  (m_template <$> outbox (run (Some true) all_events (Renewal [str "example.org"] (mkRenewal true true None)) false no_alerts).2)
    = [str "ssl_renewal_failed"] /\
  (m_template <$> outbox (run (Some true) all_events (DailyBackup BackupError) false no_alerts).2)
    = [str "backup_failed"; str "scheduler_error"].
Proof. by vm_compute. Qed.
(** An announcement that could not be delivered is noted as sent, and not repeated. *)
Lemma undelivered_update_forgotten :
  let a := (update_check (Some true) all_events false true (Newer (str "v2") false) false no_alerts).2 in
  let b := (update_check (Some true) all_events false true (Newer (str "v2") false) true a).2 in
  outbox b = [mkMail (str "update_available") false].
Proof. by vm_compute. Qed.
