(* ===== verification/Mcp.v ===== *)
(** * The tool endpoint: [server/mcp.go]

    The guards of the endpoint, the comparison of origins, and the dispatch of a
    tool call to the router with its audit record.  The protocol library, the
    router and the generated API description are arguments; the arguments of a
    call are JSON values.

    The theorems: the endpoint is reached only when it is enabled, by a POST, from
    an origin with the scheme, host and port of the server or of a configured one;
    every call is audited once, with the status it ended with; the request it makes
    carries the client's address and no cookies; and a path parameter without a
    slash keeps the call within the shape of the documented route. *)
From stdpp Require Import base list gmap strings sorting.
From Stdlib Require Import ZArith Lia.
From S2P Require Import Prelude GoStrings GoTime GoNet GoUrl Http Netutil.
Local Open Scope Z_scope.
Local Open Scope go_scope.

(** ** Origins *)

(** [URL.ForceQuery]: a lone question mark at the end. *)
Definition force_query (value : gostr) : bool :=
  let '(u, _, _) := Cut value "#" in HasSuffix u (str "?") && Nat.eqb (count_byte "?" u) 1.
Section origins.
  Context `{UnicodeTables} `{Authority}.
Definition parseMCPOrigin (value : gostr) : option URL :=
  match Parse value with
  | None => None
  | Some u =>
      if (u_Opaque u <>s []) || u_User u || (u_Host u =s []) || ((u_Scheme u <>s str "http") && (u_Scheme u <>s str "https"))
         || (u_Path u <>s []) || (u_RawPath u <>s []) || (u_RawQuery u <>s []) || force_query value || (u_Fragment u <>s [])
      then None else Some u
  end.
Definition effective_port (u : URL) : gostr :=
  if Port u <>s [] then Port u else if EqualFold (u_Scheme u) (str "https") then str "443" else str "80".
Definition sameMCPOrigin (a b : URL) : bool :=
  EqualFold (u_Scheme a) (u_Scheme b) && EqualFold (Hostname a) (Hostname b) && (effective_port a =s effective_port b).

(** The configured origins: the base URL, the domains of the environment over
    HTTPS, and the list of [web.cors]. *)
Definition configured_origins (baseURL domains : gostr) (cors : option gostr) : list gostr :=
  [baseURL] ++ ((fun d => str "https://" ++ d) <$> filter (fun d => d <> []) (TrimSpace <$> Split domains (str ",")))
  ++ match cors with Some c => Split c (str ",") | None => [] end.
Definition validMCPOrigin (e : host_env) (trust : option TrustResolver) (baseURL : gostr) (cors : option gostr) (r : request) : bool :=
  let origin := get r "Origin" in
  if origin =s [] then true
  else match parseMCPOrigin origin with
       | None => false
       | Some u =>
           match Parse (BuildURL e r trust []) with
           | Some effective => sameMCPOrigin u effective
           | None => false
           end ||
           existsb (fun candidate => match parseMCPOrigin (TrimSpace candidate) with Some allowed => sameMCPOrigin u allowed | None => false end)
             (configured_origins baseURL (env_DOMAIN e) cors)
       end.

Inductive mcp_answer := NotFound | MethodNotAllowed | InvalidOrigin | Transport.
(** [enabled] is the setting of the configuration in force, if there is one. *)
Definition MCPHandler (enabled : option bool) (e : host_env) (trust : option TrustResolver) (baseURL : gostr) (cors : option gostr)
    (r : request) : mcp_answer :=
  if negb (default false enabled) then NotFound
  else if r_Method r <>s str "POST" then MethodNotAllowed
  else if negb (validMCPOrigin e trust baseURL cors r) then InvalidOrigin
  else Transport.
End origins.

(** ** Operations and tools *)

Record parameter := mkParameter { p_Name : gostr; p_In : gostr; p_Required : bool }.
Record Operation := mkOperation { OperationID : gostr; Parameters : list parameter; RequestBody : option bool }.
Definition isVersionedAPIOperation (path : gostr) : bool := (path =s str "/api/v1") || HasPrefix path (str "/api/v1/").
(** The operations of the description that become tools, by path and method. *)
Record registeredMCPOperation := mkRegistered { reg_path : gostr; reg_method : gostr; reg_spec : Operation }.
Definition registeredMCPOperations (paths : gmap gostr (gmap gostr Operation)) (registered : gostr -> gostr -> gostr -> bool) : list registeredMCPOperation :=
  merge_sort str_le (fst <$> map_to_list paths) ≫= (fun path =>
    let operations := default ∅ (paths !! path) in
    merge_sort str_le (fst <$> map_to_list operations) ≫= (fun method =>
      match operations !! method with
      | Some op => if isVersionedAPIOperation path && (OperationID op <>s []) && registered (OperationID op) path method
                   then [mkRegistered path method op] else []
      | None => []
      end)).
(** The names a tool requires, in order. *)
Definition required_arguments (op : Operation) : list gostr :=
  merge_sort str_le ((p_Name <$> filter (fun p => p_Required p = true) (Parameters op)) ++ match RequestBody op with Some true => [str "body"] | _ => [] end).

(** ** The response recorder *)

Record responseRecorder := mkRecorder { rec_status : Z; rec_body : gostr }.
Definition newResponseRecorder : responseRecorder := mkRecorder 0 [].
Inductive call := CallWriteHeader (status : Z) | CallWrite (b : gostr).
Definition record (w : responseRecorder) (c : call) : responseRecorder :=
  match c with
  | CallWriteHeader status => if rec_status w =? 0 then mkRecorder status (rec_body w) else w
  | CallWrite b => mkRecorder (if rec_status w =? 0 then 200 else rec_status w) (rec_body w ++ b)
  end.

(** ** A tool call *)

(** A JSON value of an argument, with the text of those that are not strings. *)
Inductive argument := ArgString (s : gostr) | ArgNumber (raw : gostr) | ArgNull | ArgOther (raw : gostr).
Definition arg_raw (quote : gostr -> gostr) (a : argument) : gostr :=
  match a with ArgString s => quote s | ArgNumber raw | ArgOther raw => raw | ArgNull => str "null" end.
(** Decoding into a string: null leaves it empty. *)
Definition arg_string (a : argument) : option gostr := match a with ArgString s => Some s | ArgNull => Some [] | _ => None end.
Inductive tool_error := InvalidArguments | MissingParameter (name : gostr) | BadParameter (name : gostr).
Record tool_request := mkToolRequest {
  t_Method : gostr; t_Path : gostr; t_RawQuery : gostr; t_Header : header; t_Body : option gostr; t_RemoteAddr : gostr }.
Record audit := mkAudit {
  a_Event : gostr; a_Source : gostr; a_Severity : gostr; a_IP : gostr; a_Tool : gostr; a_Method : gostr; a_Route : gostr; a_Status : Z;
  a_Result : gostr }.
Record tool_result := mkToolResult { text : gostr; IsError : bool }.

Section dispatch.
  Context (quote : gostr -> gostr) (StatusText : Z -> gostr).

Fixpoint fill_path (args : gmap gostr argument) (ps : list parameter) (path : gostr) : result tool_error gostr :=
  match ps with
  | [] => Ok path
  | p :: ps' =>
      if p_In p <>s str "path" then fill_path args ps' path
      else match args !! p_Name p with
           | None => if p_Required p then Err (MissingParameter (p_Name p)) else fill_path args ps' path
           | Some value =>
               match value with
               | ArgOther _ => Err (BadParameter (p_Name p))
               | ArgNumber raw => fill_path args ps' (ReplaceAll path (str "{" ++ p_Name p ++ str "}") raw)
               | ArgString s => fill_path args ps' (ReplaceAll path (str "{" ++ p_Name p ++ str "}") s)
               | ArgNull => fill_path args ps' (ReplaceAll path (str "{" ++ p_Name p ++ str "}") [])
               end
           end
  end.
Definition fill_query (args : gmap gostr argument) (ps : list parameter) : Values :=
  fold_left (fun q p =>
    if p_In p <>s str "query" then q
    else match args !! p_Name p with
         | Some value => Values_Set (p_Name p) (default (arg_raw quote value) (arg_string value)) q
         | None => q
         end) ps ∅.
(** The headers of the call: those of the client without its cookies. *)
Definition tool_headers (h : header) (body : option gostr) : header :=
  let h := <[str "Accept" := [str "application/json"]]> (delete (str "Cookie") h) in
  match body with Some _ => <[str "Content-Type" := [str "application/json"]]> h | None => h end.
Definition build_request (args : gmap gostr argument) (method path : gostr) (op : Operation) (origin : request) : tool_request :=
  let body := arg_raw quote <$> args !! str "body" in
  mkToolRequest method path (Encode (fill_query args (Parameters op))) (tool_headers (r_Header origin) body) body (r_RemoteAddr origin).

Definition auditMCPToolCall (ip tool method route : gostr) (status : Z) : audit :=
  let failed := 400 <=? status in
  mkAudit (str "api.request") (str "mcp") (str (if failed then "warn" else "info")) ip tool method route status
    (str (if failed then "failure" else "success")).

(** A double quote around a member name or value. *)
Definition quoted (s : string) : gostr := "034"%char :: str s ++ ["034"%char].
Definition http_error_json (message : gostr) : gostr :=
  str "{" ++ quoted "ok" ++ str ":false," ++ quoted "error" ++ str ":" ++ quoted "http_error" ++ str "," ++ quoted "message" ++ str ":" ++ message ++ str "}".
(** The result, the request made and the audit records.  [args] is nothing when
    the arguments cannot be decoded, [ip] the client's address as text. *)
Definition dispatchMCPTool (router : tool_request -> list call) (args : option (gmap gostr argument)) (logging : bool)
    (ip tool method path : gostr) (op : Operation) (origin : request)
    : result tool_error tool_result * option tool_request * list audit :=
  let audited status := if logging then [auditMCPToolCall ip tool method path status] else [] in
  match args with
  | None => (Err InvalidArguments, None, audited 400)
  | Some args =>
      match fill_path args (Parameters op) path with
      | Err e => (Err e, None, audited 400)
      | Ok filled =>
          let request := build_request args method filled op origin in
          let recorder := fold_left record (router request) newResponseRecorder in
          let status := if rec_status recorder =? 0 then 200 else rec_status recorder in
          let response :=
            if (rec_body recorder =s []) && (400 <=? status)
            then http_error_json (quote (StatusText status))
            else rec_body recorder in
          (Ok (mkToolResult response (400 <=? status)), Some request, audited status)
      end
  end.
End dispatch.

(** ** Only known origins *)

Definition ascii_url (u : URL) : Prop := forallb isASCII (u_Scheme u) = true /\ forallb isASCII (Hostname u) = true.
(** Scheme, host and port of an origin, without regard to case. *)
Definition origin_key `{UnicodeTables} (u : URL) : gostr * gostr * gostr := (lower_ascii <$> u_Scheme u, lower_ascii <$> Hostname u, effective_port u).
Lemma EqualFold_ascii `{UnicodeTables} s t :
  forallb isASCII s = true -> forallb isASCII t = true -> EqualFold s t = true -> lower_ascii <$> s = lower_ascii <$> t.
Proof.
  revert t. induction s as [|c s IH]; intros [|d t]; [done|done|done|]. cbn. intros [Hc Hs]%andb_true_iff [Hd Ht]%andb_true_iff.
  rewrite Hc, Hd. cbn. case_bool_decide as E; [|done]. intros H1. rewrite E. f_equal. by apply IH.
Qed.
Lemma sameMCPOrigin_key `{UnicodeTables} a b : ascii_url a -> ascii_url b -> sameMCPOrigin a b = true -> origin_key a = origin_key b.
Proof.
  intros [H1 H2] [H3 H4]. unfold sameMCPOrigin, origin_key. rewrite !andb_true_iff, bool_decide_eq_true. intros [[Hs Hh] Hp].
  by rewrite (EqualFold_ascii _ _ H1 H3 Hs), (EqualFold_ascii _ _ H2 H4 Hh), Hp.
Qed.
(** The endpoint hands a request on only when it is enabled, the request is a
    POST, and its origin, when it names one, is written as a bare origin and has the
    scheme, the host and the port of the address the server was called by, of its
    base URL, of one of its domains, or of an entry of the cross-origin list. *)
Theorem mcp_origin_guard `{UnicodeTables} `{Authority} enabled e trust baseURL cors r :
  MCPHandler enabled e trust baseURL cors r = Transport ->
  enabled = Some true /\ r_Method r = str "POST" /\
  (get r "Origin" = [] \/
   exists u a, parseMCPOrigin (get r "Origin") = Some u /\
     (Parse (BuildURL e r trust []) = Some a \/
      exists c, c ∈ configured_origins baseURL (env_DOMAIN e) cors /\ parseMCPOrigin (TrimSpace c) = Some a) /\
     sameMCPOrigin u a = true /\ (ascii_url u -> ascii_url a -> origin_key u = origin_key a)).
Proof.
  unfold MCPHandler. destruct enabled as [[]|]; cbn [default from_option id negb]; try done.
  case_bool_decide as Hm; cbn [negb]; [|done]. destruct (validMCPOrigin _ _ _ _ _) eqn:Ev; cbn [negb]; [|done]. intros _. split; [done|]. split; [done|].
  unfold validMCPOrigin in Ev. case_bool_decide as Ho; [by left|]. right. destruct (parseMCPOrigin _) as [u|]; [|done].
  apply orb_true_iff in Ev as [Ev|Ev].
  - destruct (Parse _) as [a|]; [|done]. exists u, a. split_and!; [done|by left|done|intros; by apply sameMCPOrigin_key].
  - apply existsb_exists in Ev as (c & Hin & Hc). destruct (parseMCPOrigin (TrimSpace c)) as [a|] eqn:Ea; [|done].
    exists u, a. split_and!; [done| |done|intros; by apply sameMCPOrigin_key]. right. exists c. split; [by apply list_elem_of_In|done].
Qed.

(** ** Calls *)

(** Every tool call is audited once when there is an audit log, under the tool
    and the documented route, with the status the call ended with and as a failure
    exactly when that is an error; a request it makes carries the client's address,
    none of its cookies, and the method of the tool; a failed status is reported as
    an error to the caller. *)
Theorem tool_call_audited quote StatusText router args logging ip tool method path op origin :
  let '(out, made, audits) := dispatchMCPTool quote StatusText router args logging ip tool method path op origin in
  audits = (if logging then
              [mkAudit (str "api.request") (str "mcp") (str match out with Ok t => if IsError t then "warn" else "info" | Err _ => "warn" end) ip tool method path
                 (match out, made with
                  | Ok _, Some q => let s := rec_status (fold_left record (router q) newResponseRecorder) in if s =? 0 then 200 else s
                  | _, _ => 400
                  end)
                 (str match out with Ok t => if IsError t then "failure" else "success" | Err _ => "failure" end)]
            else []) /\
  match made with
  | None => exists x, out = Err x
  | Some q => (exists t, out = Ok t) /\ t_Method q = method /\ t_RemoteAddr q = r_RemoteAddr origin /\
              t_Header q !! str "Cookie" = None /\ t_Header q !! str "Accept" = Some [str "application/json"]
  end.
Proof.
  unfold dispatchMCPTool. destruct args as [args|]; [|by destruct logging; eauto].
  destruct (fill_path args (Parameters op) path) as [filled|x]; [|by destruct logging; eauto].
  set (q := build_request _ _ _ _ _ _). cbn zeta. set (status := if _ =? 0 then _ else _).
  split.
  - destruct logging; [|done]. unfold auditMCPToolCall. cbn [IsError]. by destruct (400 <=? status).
  - split; [by eexists|]. split; [done|]. split; [done|]. unfold q, build_request, tool_headers. cbn [t_Header].
    destruct (arg_raw quote <$> args !! str "body").
    + split; [rewrite !lookup_insert_ne, lookup_delete_eq by done; done|]. rewrite lookup_insert_ne by done. apply lookup_insert_eq.
    + split; [rewrite lookup_insert_ne, lookup_delete_eq by done; done|]. apply lookup_insert_eq.
Qed.

(** ** The path of a call *)

Definition slashes (s : gostr) : nat := count_byte "/" s.
Lemma slashes_app a b : slashes (a ++ b) = (slashes a + slashes b)%nat.
Proof. unfold slashes, count_byte. by rewrite filter_app, length_app. Qed.
Lemma slashes_Join ps sep : slashes sep = 0%nat -> slashes (Join ps sep) = sum_list_with slashes ps.
Proof.
  intros Hs. induction ps as [|p ps IH]; [done|]. destruct ps as [|q ps]; [cbn [Join sum_list_with]; lia|].
  rewrite Join_cons by done. rewrite !slashes_app, IH, Hs. done.
Qed.
Lemma slashes_ReplaceAll s old new : old <> [] -> slashes old = 0%nat -> slashes new = 0%nat -> slashes (ReplaceAll s old new) = slashes s.
Proof.
  intros Hne Ho Hn. unfold ReplaceAll. rewrite slashes_Join by done. rewrite <- (Join_Split s old Hne) at 2. by rewrite slashes_Join.
Qed.
(** The text a value is put into the path with. *)
Definition path_text (a : argument) : gostr := match a with ArgString s => s | ArgNumber raw => raw | _ => [] end.
(** A call whose path values have no slash asks for a path with as many elements
    as the documented one, and fails only for a required value that is missing or a
    value that is neither a string nor a number. *)
Theorem tool_path_shape args ps path :
  Forall (fun p => slashes (p_Name p) = 0%nat) ps ->
  (forall p a, p ∈ ps -> args !! p_Name p = Some a -> slashes (path_text a) = 0%nat) ->
  match fill_path args ps path with
  | Ok filled => slashes filled = slashes path
  | Err e => exists p, p ∈ ps /\ p_In p = str "path" /\
      ((e = MissingParameter (p_Name p) /\ p_Required p = true /\ args !! p_Name p = None) \/
       (e = BadParameter (p_Name p) /\ exists raw, args !! p_Name p = Some (ArgOther raw)))
  end.
Proof.
  intros Hn Hv. revert path. induction ps as [|p ps IH]; intros path; [done|]. apply Forall_cons in Hn as [Hp Hn].
  specialize (IH Hn ltac:(intros; eapply Hv; [by right|done])). cbn [fill_path].
  assert (forall q, match fill_path args ps q with
    | Ok filled => slashes filled = slashes q
    | Err e => exists p', p' ∈ p :: ps /\ p_In p' = str "path" /\
      ((e = MissingParameter (p_Name p') /\ p_Required p' = true /\ args !! p_Name p' = None) \/
       (e = BadParameter (p_Name p') /\ exists raw, args !! p_Name p' = Some (ArgOther raw))) end) as Hrest.
  { intros q. specialize (IH q). destruct (fill_path args ps q); [done|]. destruct IH as (p' & Hin & H'). exists p'. split; [by right|done]. }
  case_bool_decide as Hin; cbn [negb]; [|apply Hrest].
  destruct (args !! p_Name p) as [a|] eqn:Ea.
  - specialize (Hv p a ltac:(left) Ea).
    assert (slashes (str "{" ++ p_Name p ++ str "}") = 0%nat) as Hold by (rewrite !slashes_app, Hp; done).
    assert (forall new, slashes new = 0%nat -> slashes (ReplaceAll path (str "{" ++ p_Name p ++ str "}") new) = slashes path) as Hrep.
    { intros new. by apply slashes_ReplaceAll. }
    destruct a as [s|raw| |raw]; cbn [path_text] in Hv; rewrite <- ?(Hrep _ Hv); try apply Hrest.
    exists p. split; [left|]. split; [done|]. right. eauto.
  - destruct (p_Required p) eqn:Er; [|apply Hrest]. exists p. split; [left|]. split; [done|]. by left.
Qed.

(** ** Witnesses *)

Definition lookup_op : Operation := mkOperation (str "v1_ip_lookup") [mkParameter (str "ip") (str "path") true] None.
Definition ip_argument (v : string) : gmap gostr argument := {[str "ip" := ArgString (str v)]}.
Lemma tool_path_shape_witness :
  fill_path (ip_argument "192.0.2.1") (Parameters lookup_op) (str "/api/v1/ip/{ip}") = Ok (str "/api/v1/ip/192.0.2.1") /\
  slashes (str "/api/v1/ip/192.0.2.1") = slashes (str "/api/v1/ip/{ip}").
Proof.
  split; [by vm_compute|].
  refine (tool_path_shape (ip_argument "192.0.2.1") (Parameters lookup_op) (str "/api/v1/ip/{ip}") _ _); [by repeat constructor|].
  intros p a Hp. apply list_elem_of_singleton in Hp as ->. intros [= <-]. by vm_compute.
Defined.

Definition local_host : host_env :=
  {| env_DOMAIN := str "example.org"; env_HOSTNAME := []; os_Hostname := None; net_Interfaces := None;
     net_LookupAddr := fun _ => None; EffectiveTLDPlusOne := fun _ => None |}.
Definition post_from (origin : string) : request :=
  {| r_Method := str "POST"; r_Host := str "example.org"; r_URL_Host := []; r_URL_Path := str "/mcp"; r_URL_RawPath := [];
     r_Header := {[str "Origin" := [str origin]]}; r_Cookies := []; r_Query := []; r_Form := None; r_RemoteAddr := str "192.0.2.7:1"; r_TLS := true;
     r_ContentLength := 0; r_ctx := background |}.
Definition any_authority : Authority := {| parseAuthority := fun _ a => Some (false, a) |}.
Definition demo_guard (origin : string) : mcp_answer :=
  MCPHandler (H := ascii_tables) (H0 := any_authority) (Some true) local_host None (str "/") None (post_from origin).
Lemma mcp_origin_guard_witness :
  demo_guard "https://Example.org:443" = Transport /\ demo_guard "https://example.org.evil.test" = InvalidOrigin /\
  demo_guard "https://example.org/" = InvalidOrigin /\ r_Method (post_from "https://Example.org:443") = str "POST".
Proof.
  split; [by vm_compute|]. split; [by vm_compute|]. split; [by vm_compute|].
  apply (mcp_origin_guard (H := ascii_tables) (H0 := any_authority) (Some true) local_host None (str "/") None). by vm_compute.
Defined.

(** ** Limits of the code *)

(** A value with slashes leaves the documented route: the request goes to another
    path, and the audit record shows the documented one. *)
Lemma tool_path_escapes :
  let '(_, made, audits) := dispatchMCPTool id (fun _ => []) (fun _ => []) (Some (ip_argument "../server/healthz")) true [] (str "v1_ip_lookup")
    (str "GET") (str "/api/v1/ip/{ip}") lookup_op (post_from "") in
  t_Path <$> made = Some (str "/api/v1/ip/../server/healthz") /\ a_Route <$> audits = [str "/api/v1/ip/{ip}"].
Proof. by vm_compute. Qed.
(** A value that names a later parameter is substituted again. *)
Lemma tool_value_resubstituted :
  fill_path {[str "a" := ArgString (str "{b}"); str "b" := ArgString (str "x")]}
    [mkParameter (str "a") (str "path") true; mkParameter (str "b") (str "path") true] (str "/{a}/{b}") = Ok (str "/x/x").
Proof. by vm_compute. Qed.
