(* ===== verification/Html2Text.v ===== *)
(** * Pages as plain text: [common/httputil/html2text.go]

    The HTML parser is a parameter that gives a tree or fails; the conversion of
    the tree, the wrapping of paragraphs, tables, and the fallback that strips tags
    are those of the program.

    The theorems: wrapping keeps every word in order, breaks lines only where the
    next word would not fit and exceeds the width only by a single long word; the
    rows and rules of a table are equally wide; and the fallback leaves no tag. *)
From stdpp Require Import base list gmap strings.
From Stdlib Require Import ZArith Lia.
From S2P Require Import Prelude GoStrings GoUtf8.
Local Open Scope Z_scope.
Local Open Scope go_scope.

(** ** Trees *)

Inductive node :=
| Element (Data : gostr) (Attr : list (gostr * gostr)) (children : list node)
| TextNode (Data : gostr)
| OtherNode (children : list node).
Definition nl : gostr := ["010"%char].
(** [strings.Repeat] *)
Definition Repeat (s : gostr) (n : Z) : gostr := mjoin (replicate (Z.to_nat n) s).
Fixpoint getTextContent (n : node) : gostr :=
  let walk := fix walk (cs : list node) : gostr := match cs with [] => [] | c :: rest => getTextContent c ++ walk rest end in
  match n with
  | Element _ _ cs => walk cs
  | TextNode d => d
  | OtherNode cs => walk cs
  end.
Definition getAttr (attrs : list (gostr * gostr)) (name : gostr) : gostr :=
  match List.find (fun a => a.1 =s name) attrs with Some a => a.2 | None => [] end.

(** ** Lines *)

Definition len (s : gostr) : Z := Z.of_nat (length s).
Definition centerText (text : gostr) (width : Z) : gostr :=
  if width <=? len text then text else Repeat (str " ") ((width - len text) / 2) ++ text.
Fixpoint wrap_words (width : Z) (words : list gostr) (current : gostr) : list gostr :=
  match words with
  | [] => if current <>s [] then [current] else []
  | w :: rest =>
      if current =s [] then wrap_words width rest w
      else if len current + 1 + len w <=? width then wrap_words width rest (current ++ str " " ++ w)
      else current :: wrap_words width rest w
  end.
Definition wordWrap (text : gostr) (width : Z) : gostr :=
  if (width <=? 0) || (len text <=? width) then text else Join (wrap_words width (Fields text) []) nl.

(** [for _, r := range s] with the tags left out. *)
Definition strip_rune (st : bool * gostr) (r : Z) : bool * gostr :=
  let '(inTag, buf) := st in
  if r =? 60 then (true, buf)
  else if r =? 62 then (false, buf)
  else if inTag then (inTag, buf) else (inTag, buf ++ encode_rune r).
Definition stripAllTags (s : gostr) : gostr := TrimSpace (fold_left strip_rune (runes s) (false, [])).2.

(** ** Lists and tables *)

Definition li_text (n : node) : option gostr :=
  match n with Element d _ _ => if d =s str "li" then Some (TrimSpace (getTextContent n)) else None | _ => None end.
Fixpoint number_items (counter : Z) (items : list gostr) (prefix : gostr) : gostr :=
  match items with
  | [] => []
  | text :: rest => prefix ++ str "  " ++ Itoa counter ++ str ". " ++ text ++ nl ++ number_items (counter + 1) rest prefix
  end.
Definition convertList (children : list node) (indent : Z) (ordered : bool) : gostr :=
  let items := omap li_text children in
  let prefix := Repeat (str " ") indent in
  if ordered then number_items 1 items prefix else items ≫= (fun text => prefix ++ str "  • " ++ text ++ nl).

Definition is_cell (n : node) : bool := match n with Element d _ _ => (d =s str "td") || (d =s str "th") | _ => false end.
Definition row_cells (children : list node) : list gostr := (fun c => TrimSpace (getTextContent c)) <$> filter (fun c => is_cell c = true) children.
Fixpoint walkTable (n : node) : list (list gostr) :=
  let walk := fix walk (cs : list node) : list (list gostr) := match cs with [] => [] | c :: rest => walkTable c ++ walk rest end in
  match n with
  | Element d _ cs =>
      (if (d =s str "tr") && negb (bool_decide (row_cells cs = [])) then [row_cells cs] else []) ++ walk cs
  | TextNode _ => []
  | OtherNode cs => walk cs
  end.
Definition columns (rows : list (list gostr)) : nat := foldr (fun row n => Nat.max (length row) n) 0%nat rows.
(** The widths, in bytes as the code counts them. *)
Definition colWidth (rows : list (list gostr)) (i : nat) : nat := foldr (fun row n => Nat.max (length (default [] (row !! i))) n) 0%nat rows.
(** [%-*s] pads to a number of runes. *)
Definition pad_right (w : nat) (s : gostr) : gostr := s ++ replicate (w - length (runes s)) " "%char.
Definition table_sep (widths : list nat) : gostr := str "+" ++ (widths ≫= (fun w => Repeat (str "─") (Z.of_nat w + 2) ++ str "+")).
Definition table_line (widths : list nat) (row : list gostr) : gostr :=
  str "│" ++ (imap (fun i w => str " " ++ pad_right w (default [] (row !! i)) ++ str " │") widths ≫= id).
Definition table_lines (rows : list (list gostr)) : list gostr :=
  let widths := colWidth rows <$> seq 0 (columns rows) in
  let sep := table_sep widths in
  match rows with
  | [] => []
  | head :: rest => [sep; table_line widths head; sep] ++ (table_line widths <$> rest) ++ [sep]
  end.
Definition convertTable (n : node) : gostr :=
  match table_lines (walkTable n) with [] => [] | lines => (lines ≫= (fun l => l ++ nl)) ++ nl end.

(** ** Nodes *)

Definition skipped : list gostr := str <$> ["script"; "style"; "form"; "input"; "button"; "textarea"; "select"; "head"]%string.
Section conversion.
  Context `{UnicodeTables}.
(** The elements with a rendering of their own. *)
Definition render_element (d : gostr) (attrs : list (gostr * gostr)) (cs : list node) (width indent : Z) : option gostr :=
  let n := Element d attrs cs in
  let text := getTextContent n in
  if bool_decide (d ∈ skipped) then Some []
  else if d =s str "h1" then
    let line := Repeat (str "═") width in Some (line ++ nl ++ centerText (ToUpper text) width ++ nl ++ line ++ nl ++ nl)
  else if d =s str "h2" then Some (str "─── " ++ text ++ str " ───" ++ nl ++ nl)
  else if d =s str "h3" then Some (str "► " ++ text ++ nl ++ nl)
  else if bool_decide (d ∈ [str "h4"; str "h5"; str "h6"]) then Some (text ++ nl ++ nl)
  else if d =s str "p" then
    let text := TrimSpace text in Some (if text <>s [] then wordWrap text (width - indent) ++ nl ++ nl else [])
  else if d =s str "ul" then Some (convertList cs indent false ++ nl)
  else if d =s str "ol" then Some (convertList cs indent true ++ nl)
  else if d =s str "li" then Some (Repeat (str " ") indent ++ str "  • " ++ TrimSpace text ++ nl)
  else if d =s str "a" then
    let href := getAttr attrs (str "href") in Some (if href <>s [] then TrimSpace text ++ str " [" ++ href ++ str "]" else TrimSpace text)
  else if bool_decide (d ∈ [str "strong"; str "b"]) then Some (str "*" ++ TrimSpace text ++ str "*")
  else if bool_decide (d ∈ [str "em"; str "i"]) then Some (str "_" ++ TrimSpace text ++ str "_")
  else if d =s str "code" then Some (str "`" ++ text ++ str "`")
  else if d =s str "pre" then Some ((Split text nl ≫= (fun line => str "    " ++ line ++ nl)) ++ nl)
  else if d =s str "table" then Some (convertTable n)
  else if d =s str "hr" then Some (Repeat (str "─") width ++ nl ++ nl)
  else if d =s str "blockquote" then Some ((Split (TrimSpace text) nl ≫= (fun line => str "│ " ++ line ++ nl)) ++ nl)
  else if d =s str "br" then Some nl
  else None.
Fixpoint convertNode (width indent : Z) (n : node) : gostr :=
  let children := fix children (cs : list node) : gostr := match cs with [] => [] | c :: rest => convertNode width indent c ++ children rest end in
  match n with
  | Element d attrs cs => match render_element d attrs cs width indent with Some out => out | None => children cs end
  | TextNode d => TrimSpace d
  | OtherNode cs => children cs
  end.
Definition HTML2TextConverter (parse : gostr -> option node) (rawHTML : gostr) (width : Z) : gostr :=
  let width := if width <=? 0 then 80 else width in
  match parse rawHTML with
  | None => stripAllTags rawHTML
  | Some doc => convertNode width 0 doc
  end.
End conversion.

(** ** Wrapping *)

(** The lines as groups of words. *)
Fixpoint wrap_groups (width : Z) (words : list gostr) (current : list gostr) : list (list gostr) :=
  match words with
  | [] => match current with [] => [] | _ => [current] end
  | w :: rest =>
      match current with
      | [] => wrap_groups width rest [w]
      | _ => if len (Join current (str " ")) + 1 + len w <=? width then wrap_groups width rest (current ++ [w])
             else current :: wrap_groups width rest [w]
      end
  end.
Lemma Join_snoc_word ws w : ws <> [] -> Join (ws ++ [w]) (str " ") = Join ws (str " ") ++ str " " ++ w.
Proof.
  induction ws as [|x ws IH]; [done|]. intros _. destruct ws as [|y ws]; [done|].
  change ((x :: y :: ws) ++ [w]) with (x :: (y :: ws) ++ [w]). rewrite !Join_cons by done. rewrite IH by done. by rewrite <- !app_assoc.
Qed.
Lemma Join_nonempty ws : ws <> [] -> Forall (fun w => w <> []) ws -> Join ws (str " ") <> [].
Proof. intros Hne Hw. destruct Hw as [|w ws Hw Hws]; [done|]. destruct ws; [done|]. rewrite Join_cons by done. by destruct w. Qed.
Lemma wrap_words_groups width words current :
  Forall (fun w => w <> []) words -> Forall (fun w => w <> []) current ->
  wrap_words width words (Join current (str " ")) = (fun g => Join g (str " ")) <$> wrap_groups width words current.
Proof.
  intros Hw. revert current. induction Hw as [|w words Hw Hws IH]; intros current Hc; cbn [wrap_words wrap_groups].
  - destruct current as [|c cs]; [done|]. rewrite bool_decide_eq_false_2 by (by apply Join_nonempty). done.
  - destruct current as [|c cs]; [cbn; apply (IH [w]); by constructor|].
    rewrite bool_decide_eq_false_2 by (by apply Join_nonempty).
    destruct (_ <=? _).
    + rewrite <- Join_snoc_word by done. apply IH. apply Forall_app. split; [done|by constructor].
    + cbn [fmap list_fmap]. f_equal. apply (IH [w]). by constructor.
Qed.
Definition fits (width : Z) (g : list gostr) : Prop := (exists w, g = [w]) \/ len (Join g (str " ")) <= width.
(** No line could have taken the first word of the next. *)
Fixpoint greedy (width : Z) (gs : list (list gostr)) : Prop :=
  match gs with
  | [] => True
  | g :: rest => match rest with (w :: _) :: _ => width < len (Join g (str " ")) + 1 + len w /\ greedy width rest | _ => True end
  end.
Lemma wrap_groups_spec width words current :
  (current = [] \/ fits width current) ->
  mjoin (wrap_groups width words current) = current ++ words /\ Forall (fits width) (wrap_groups width words current).
Proof.
  revert current. induction words as [|w words IH]; intros current Hc; cbn [wrap_groups].
  - destruct current as [|c cs]; [done|]. split; [cbn; by rewrite !app_nil_r|]. constructor; [by destruct Hc|constructor].
  - destruct current as [|c cs]; [destruct (IH [w]) as [H1 H2]; [right; left; eauto|done]|].
    destruct (_ <=? _) eqn:E.
    + destruct (IH ((c :: cs) ++ [w])) as [H1 H2].
      { right. right. rewrite Join_snoc_word by done. apply Z.leb_le in E. unfold len in *. rewrite !length_app. cbn [length]. change (length (str " ")) with 1%nat. lia. }
      rewrite H1. split; [by rewrite <- app_assoc|done].
    + destruct (IH [w]) as [H1 H2]; [right; left; eauto|]. split.
      * change (mjoin ((c :: cs) :: wrap_groups width words [w])) with ((c :: cs) ++ mjoin (wrap_groups width words [w])). by rewrite H1.
      * constructor; [by destruct Hc|done].
Qed.
Lemma wrap_groups_head width words c cs : exists g gs, wrap_groups width words (c :: cs) = (c :: g) :: gs.
Proof.
  revert cs. induction words as [|w words IH]; intros cs; cbn [wrap_groups]; [by exists cs, []|].
  destruct (_ <=? _); [apply IH|by eexists _, _].
Qed.
Lemma wrap_groups_greedy width words current : greedy width (wrap_groups width words current).
Proof.
  revert current. induction words as [|w words IH]; intros current; cbn [wrap_groups]; [by destruct current|].
  destruct current as [|c cs]; [apply IH|]. destruct (_ <=? _) eqn:E; [apply IH|].
  specialize (IH [w]). destruct (wrap_groups_head width words w []) as (g & gs & Hg). rewrite Hg in *.
  split; [apply Z.leb_gt in E; lia|exact IH].
Qed.
Lemma Fields_nonempty s : Forall (fun w => w <> []) (Fields s).
Proof.
  unfold Fields. assert (forall s skip acc, Forall (fun w => w <> []) (fields_from s skip acc)) as H; [|apply H].
  clear s. induction s as [|c s IH]; intros skip acc; cbn [fields_from].
  - unfold push_field. destruct acc as [|a acc]; [constructor|]. constructor; [|constructor]. rewrite reverse_cons. by destruct (reverse acc).
  - destruct skip; [|apply IH]. destruct (space_len _ _); [apply IH|]. unfold push_field. destruct acc as [|a acc]; [apply IH|].
    constructor; [|apply IH]. rewrite reverse_cons. by destruct (reverse acc).
Qed.
(** A wrapped paragraph consists of lines of words separated by a blank that
    together are the words of the text in order; a line is wider than the width only
    when it is a single word, and every line break is one the next word needed. *)
Theorem wordWrap_spec text width :
  0 < width < len text ->
  exists lines : list (list gostr),
    wordWrap text width = Join ((fun ws => Join ws (str " ")) <$> lines) nl /\
    mjoin lines = Fields text /\ Forall (fits width) lines /\ greedy width lines.
Proof.
  intros Hw. exists (wrap_groups width (Fields text) []). unfold wordWrap.
  rewrite (proj2 (Z.leb_gt width 0)), (proj2 (Z.leb_gt (len text) width)) by lia. cbn [orb].
  destruct (wrap_groups_spec width (Fields text) []) as [H1 H2]; [by left|].
  split; [|split; [done|split; [done|apply wrap_groups_greedy]]].
  f_equal. apply (wrap_words_groups width (Fields text) []); [apply Fields_nonempty|constructor].
Qed.
Lemma wordWrap_spec_witness :
  wordWrap (str "one two  three-four-five six") 9 = str "one two" ++ nl ++ str "three-four-five" ++ nl ++ str "six" /\
  exists lines : list (list gostr), mjoin lines = Fields (str "one two  three-four-five six") /\ Forall (fits 9) lines.
Proof.
  split; [by vm_compute|]. destruct (wordWrap_spec (str "one two  three-four-five six") 9 ltac:(by vm_compute)) as (lines & _ & H1 & H2 & _). eauto.
Defined.

(** ** Tables *)

Lemma runes_cons c s : runes (c :: s) = (decode_rune c s).1 :: runes_from s ((decode_rune c s).2 - 1).
Proof. unfold runes. cbn [runes_from]. by destruct (decode_rune c s). Qed.
Lemma runes_from_drop s n : runes_from s n = runes (drop n s).
Proof. revert n. induction s as [|c s IH]; intros [|n]; try done. cbn [runes_from drop]. apply IH. Qed.
(** Characters are counted at most once per byte. *)
Lemma length_runes_from s skip : (length (runes_from s skip) <= length s)%nat.
Proof.
  revert skip. induction s as [|c s IH]; intros skip; [done|]. cbn [runes_from length]. destruct skip; [|specialize (IH skip); lia].
  destruct (decode_rune c s). cbn [length]. specialize (IH (n - 1)%nat). lia.
Qed.
Definition starts_plain (s : gostr) : Prop := match s with [] => True | c :: _ => isASCII c = true end.
(** What follows does not change the characters before it when it starts plainly. *)
Lemma decode_plain_tail c a b :
  starts_plain b -> decode_rune c (a ++ b) = decode_rune c a /\ ((decode_rune c a).2 - 1 <= length a)%nat.
Proof.
  intros Hb. assert (forall d t lo hi, b = d :: t -> 128 <= lo -> GoUtf8.within lo hi d = false) as Hno.
  { intros d t lo hi -> Hlo. unfold GoUtf8.within, starts_plain, isASCII in *. apply Z.ltb_lt in Hb. apply andb_false_iff. left. apply Z.leb_gt. lia. }
  assert (forall d t, b = d :: t -> cont d = false) as Hcont by (intros d t Hd; exact (Hno d t 128 191 Hd ltac:(lia))).
  assert (forall b0, 128 <= (second3 b0).1 /\ 128 <= (second4 b0).1) as Hs.
  { intros b0. unfold second3, second4. split; repeat case_match; cbn; lia. }
  unfold decode_rune. destruct (code c <? 128); [split; [done|cbn; lia]|].
  destruct (GoUtf8.within 194 223 c).
  { destruct a as [|x a]; cbn [app].
    - destruct b as [|d t]; [split; [done|cbn; lia]|]. rewrite (Hcont d t) by done. split; [done|cbn; lia].
    - destruct (cont x); split; try done; cbn; lia. }
  destruct (GoUtf8.within 224 239 c).
  { destruct a as [|x [|y a]]; cbn [app].
    - destruct b as [|d [|d2 t]]; [split; [done|cbn; lia]..|]. rewrite (Hno d (d2 :: t)) by (done || apply Hs). split; [done|cbn; lia].
    - destruct b as [|d t]; [split; [done|cbn; lia]|]. rewrite (Hcont d t), andb_false_r by done. split; [done|cbn; lia].
    - destruct (_ && _); split; try done; cbn; lia. }
  destruct (GoUtf8.within 240 244 c); [|split; [done|cbn; lia]].
  destruct a as [|x [|y [|z a]]]; cbn [app].
  - destruct b as [|d [|d2 [|d3 t]]]; [split; [done|cbn; lia]..|]. rewrite (Hno d (d2 :: d3 :: t)) by (done || apply Hs). split; [done|cbn; lia].
  - destruct b as [|d [|d2 t]]; [split; [done|cbn; lia]..|]. rewrite (Hcont d (d2 :: t)), andb_false_r by done. split; [done|cbn; lia].
  - destruct b as [|d t]; [split; [done|cbn; lia]|]. rewrite (Hcont d t), andb_false_r by done. split; [done|cbn; lia].
  - destruct (_ && _ && _); split; try done; cbn; lia.
Qed.
Lemma runes_app a b : starts_plain b -> runes (a ++ b) = runes a ++ runes b.
Proof.
  intros Hb. remember (length a) as n eqn:Hn. revert a Hn. induction n as [n IH] using lt_wf_ind. intros a ->.
  destruct a as [|c a]; [done|]. cbn [app]. rewrite !runes_cons. destruct (decode_plain_tail c a b Hb) as [-> Hle].
  cbn [app]. f_equal. rewrite !runes_from_drop. rewrite drop_app_le by done. apply (IH (length (drop ((decode_rune c a).2 - 1) a))); [|done].
  rewrite length_drop. cbn. lia.
Qed.
Definition runes_in (s : gostr) : nat := length (runes s).
Lemma runes_in_app a b : starts_plain b -> runes_in (a ++ b) = (runes_in a + runes_in b)%nat.
Proof. intros Hb. unfold runes_in. by rewrite runes_app, length_app. Qed.
Lemma runes_in_blanks n : runes_in (replicate n " "%char) = n.
Proof.
  unfold runes_in. rewrite runes_ascii; [by rewrite length_fmap, length_replicate|]. apply forallb_forall.
  intros c Hc. apply list_elem_of_In, elem_of_replicate in Hc as [-> _]. done.
Qed.
Lemma runes_in_rule n s : starts_plain s -> runes_in (Repeat (str "─") (Z.of_nat n) ++ s) = (n + runes_in s)%nat.
Proof.
  intros Hs. unfold Repeat. rewrite Nat2Z.id. induction n as [|n IH]; [done|].
  change (mjoin (replicate (S n) (str "─")) ++ s) with (str "─" ++ (mjoin (replicate n (str "─")) ++ s)).
  transitivity (S (runes_in (mjoin (replicate n (str "─")) ++ s))); [done|]. rewrite IH. lia.
Qed.
Lemma runes_in_pad w s : (runes_in s <= w)%nat -> runes_in (pad_right w s) = w.
Proof.
  intros Hle. unfold pad_right. rewrite runes_in_app by (by destruct (w - length (runes s))%nat). rewrite runes_in_blanks. unfold runes_in in *. lia.
Qed.
Lemma runes_in_length s : (runes_in s <= length s)%nat.
Proof. apply length_runes_from. Qed.

Definition table_width (widths : list nat) : nat := S (sum_list_with (fun w => w + 3)%nat widths).
Lemma table_sep_width widths : runes_in (table_sep widths) = table_width widths.
Proof.
  unfold table_sep, table_width.
  assert (forall ws, runes_in (ws ≫= (fun w => Repeat (str "─") (Z.of_nat w + 2) ++ str "+")) = sum_list_with (fun w => w + 3)%nat ws) as H.
  { induction ws as [|w ws IH]; [done|]. rewrite bind_cons, <- app_assoc. replace (Z.of_nat w + 2) with (Z.of_nat (w + 2)) by lia.
    rewrite runes_in_rule by done. cbn [sum_list_with]. rewrite <- IH.
    transitivity (w + 2 + S (runes_in (ws ≫= (fun w => Repeat (str "─") (Z.of_nat w + 2) ++ str "+"))))%nat; [done|lia]. }
  transitivity (S (runes_in (widths ≫= (fun w => Repeat (str "─") (Z.of_nat w + 2) ++ str "+")))); [done|]. by rewrite H.
Qed.
Lemma table_line_width widths row :
  (forall i w, widths !! i = Some w -> (runes_in (default [] (row !! i)) <= w)%nat) -> runes_in (table_line widths row) = table_width widths.
Proof.
  intros Hw. unfold table_line, table_width.
  assert (forall ws k, (forall j w, ws !! j = Some w -> (runes_in (default [] (row !! (k + j)%nat)) <= w)%nat) ->
    runes_in (imap (fun i w => str " " ++ pad_right w (default [] (row !! (k + i)%nat)) ++ str " │") ws ≫= id) = sum_list_with (fun w => w + 3)%nat ws) as H.
  { induction ws as [|w ws IH]; intros k Hk; [done|]. rewrite imap_cons, bind_cons. unfold id at 1. rewrite <- !app_assoc.
    set (tail := imap _ ws ≫= id).
    assert (runes_in tail = sum_list_with (fun w => w + 3)%nat ws) as Htail.
    { unfold tail. rewrite <- (IH (S k)); [|intros j x Hj; replace (S k + j)%nat with (k + S j)%nat by lia; by apply Hk].
      f_equal. f_equal. apply imap_ext. intros i x _. cbn. by rewrite Nat.add_succ_r. }
    cbn [sum_list_with]. rewrite <- Htail.
    transitivity (S (runes_in (pad_right w (default [] (row !! (k + 0)%nat)) ++ str " │" ++ tail))); [done|].
    rewrite runes_in_app by done. rewrite runes_in_pad by (by apply Hk).
    transitivity (S (w + S (S (runes_in tail)))); [done|lia]. }
  transitivity (S (runes_in (imap (fun i w => str " " ++ pad_right w (default [] (row !! (0 + i)%nat)) ++ str " │") widths ≫= id))); [done|].
  rewrite H; [done|]. intros j w Hj. by apply Hw.
Qed.
Lemma colWidth_bound rows row i : row ∈ rows -> (length (default [] (row !! i)) <= colWidth rows i)%nat.
Proof. induction rows as [|r rows IH]; [by intros ?%elem_of_nil|]. intros [->|Hin]%elem_of_cons; cbn; [lia|]. specialize (IH Hin). unfold colWidth in IH. lia. Qed.
(** All lines of a table, rows and rules, have the same number of characters,
    whatever text its cells hold and however many cells its rows have. *)
Theorem table_aligned rows : exists n, Forall (fun l => runes_in l = n) (table_lines rows).
Proof.
  exists (table_width (colWidth rows <$> seq 0 (columns rows))). unfold table_lines.
  assert (forall row, row ∈ rows -> runes_in (table_line (colWidth rows <$> seq 0 (columns rows)) row) = table_width (colWidth rows <$> seq 0 (columns rows))) as Hrow.
  { intros row Hin. apply table_line_width. intros i w Hi. apply list_lookup_fmap_Some in Hi as (j & -> & Hj). apply lookup_seq in Hj as [-> _].
    etrans; [apply runes_in_length|by apply colWidth_bound]. }
  destruct rows as [|head rest]; [constructor|].
  repeat (apply Forall_cons_2; [first [apply table_sep_width|apply Hrow; left]|]). apply Forall_app. split; [|by constructor; [apply table_sep_width|]].
  apply Forall_fmap, Forall_forall. intros row Hin. apply Hrow. by right.
Qed.

(** ** The fallback *)

Lemma trim_spaces_elem wide s k c : c ∈ trim_spaces wide s k -> c ∈ s.
Proof.
  revert k. induction s as [|d s IH]; intros k; [done|]. cbn [trim_spaces]. destruct k as [|k]; [|by right; eapply IH].
  destruct (space_len wide (d :: s)); [done|]. by right; eapply IH.
Qed.
Lemma TrimSpace_elem s c : c ∈ TrimSpace s -> c ∈ s.
Proof.
  unfold TrimSpace, TrimRightSpace, TrimLeftSpace. intros Hc%elem_of_reverse%trim_spaces_elem. rewrite elem_of_reverse in Hc. by apply trim_spaces_elem in Hc.
Qed.
Definition tag_free (s : gostr) : Prop := forall c, c ∈ s -> code c <> 60 /\ code c <> 62.
Lemma strip_rune_tag_free st r : tag_free st.2 -> tag_free (strip_rune st r).2.
Proof.
  destruct st as [inTag buf]. intros Hb. unfold strip_rune. destruct (r =? 60) eqn:E1; [done|]. destruct (r =? 62) eqn:E2; [done|].
  destruct inTag; [done|]. intros c [Hc|Hc]%elem_of_app; [by apply Hb|]. destruct (encode_rune_bytes r c Hc) as [[-> _]|?]; lia.
Qed.
(** What the fallback outputs has no markup character, whatever its input is. *)
Theorem stripAllTags_no_tags s c : c ∈ stripAllTags s -> c <> "<"%char /\ c <> ">"%char.
Proof.
  intros Hc%TrimSpace_elem. enough (code c <> 60 /\ code c <> 62) as [H1 H2] by (split; intros ->; [by apply H1|by apply H2]). revert c Hc.
  change (tag_free (fold_left strip_rune (runes s) (false, [])).2).
  assert (forall rs st, tag_free st.2 -> tag_free (fold_left strip_rune rs st).2) as H.
  { induction rs as [|r rs IH]; intros st Hst; [done|]. cbn [fold_left]. by apply IH, strip_rune_tag_free. }
  apply H. by intros c ?%elem_of_nil.
Qed.
Lemma stripAllTags_no_tags_witness : "b"%char <> "<"%char /\ "b"%char <> ">"%char.
Proof. apply (stripAllTags_no_tags (str "<i>a b</i> <")). vm_compute. right. right. left. Defined.

(** ** Observations *)

Section examples.
  Context `{UnicodeTables}.
(** A script inside a paragraph is part of the paragraph's text, although script
    elements are to be skipped entirely. *)
Lemma nested_script_shown :
  convertNode 80 0 (Element (str "p") [] [TextNode (str "a "); Element (str "script") [] [TextNode (str "f()")]]) = str "a f()" ++ nl ++ nl.
Proof. reflexivity. Qed.
(** Blanks between an element and the text around it are lost. *)
Lemma words_glued :
  convertNode 80 0 (Element (str "div") [] [TextNode (str "Hello "); Element (str "b") [] [TextNode (str "world")]]) = str "Hello*world*".
Proof. reflexivity. Qed.
End examples.
