(* ===== verification/Transact.v ===== *)
(** * Programs over a shared database

    A procedure that talks to a database is a tree of statements: each reads and
    updates the whole state atomically, and the rest of the procedure depends on what
    it read.  [exec] runs a procedure alone; [pool_step] is one statement of any
    procedure of a pool, so that a run of the pool is an interleaving of the
    statements of concurrent callers.  [pool_invariant] is the proof rule for such
    runs: an assertion about each procedure and the state that the procedure's own
    statements maintain and those of the others do not disturb. *)
From stdpp Require Import base list relations.
From S2P Require Import Prelude.

Inductive prog (S A : Type) : Type :=
| Ret (a : A)
| Stmt (update : S -> S) (rest : S -> prog S A).
Arguments Ret {S A} a.
Arguments Stmt {S A} update rest.
Fixpoint pbind {S A B} (p : prog S A) (k : A -> prog S B) : prog S B :=
  match p with Ret a => k a | Stmt update rest => Stmt update (fun s => pbind (rest s) k) end.
Notation "'let!' x := p 'in' k" := (pbind p (fun x => k)) (at level 10, x pattern, k at level 200) : go_scope.
Fixpoint exec {S A} (p : prog S A) (s : S) : S * A :=
  match p with Ret a => (s, a) | Stmt update rest => exec (rest s) (update s) end.
(** Statements that only read, and that fail without an effect. *)
Abbreviation Query rest := (Stmt (fun s => s) rest) (only parsing).

Inductive pool_step {S A} : list (prog S A) * S -> list (prog S A) * S -> Prop :=
| run_stmt ps i update rest s :
    ps !! i = Some (Stmt update rest) -> pool_step (ps, s) (<[i := rest s]> ps, update s).

Lemma exec_bind {S A B} (p : prog S A) (k : A -> prog S B) s :
  exec (pbind p k) s = let '(s', a) := exec p s in exec (k a) s'.
Proof. revert s. induction p as [a|update rest IH]; intros s; [done|]. cbn. apply IH. Qed.
Lemma exec_pool {S A} (p : prog S A) s s' a : exec p s = (s', a) -> rtc pool_step ([p], s) ([Ret a], s').
Proof.
  revert s. induction p as [b|update rest IH]; intros s; cbn; [by intros [= -> ->]|]. intros H.
  eapply rtc_l; [by apply (run_stmt [Stmt update rest] 0)|]. cbn. by apply IH.
Qed.

(** Invariants of a pool as a whole, and of each of its procedures. *)
Lemma pool_induction {S A} (Inv : list (prog S A) -> S -> Prop) ps s ps' s' :
  (forall ps i update rest s, ps !! i = Some (Stmt update rest) -> Inv ps s -> Inv (<[i := rest s]> ps) (update s)) ->
  rtc pool_step (ps, s) (ps', s') -> Inv ps s -> Inv ps' s'.
Proof.
  intros Hstep Hrun. remember (ps, s) as c eqn:Ec. remember (ps', s') as d eqn:Ed. revert ps s Ec.
  induction Hrun as [c|c e d Hs Hrun IH]; intros ps s -> Hps; [by simplify_eq|].
  inversion Hs as [ps0 i update rest s0 Hi]; subst. eapply IH; [done..|]. by apply Hstep.
Qed.
Section invariant.
  Context {S A : Type} (J : prog S A -> S -> Prop).
  Context (own : forall update rest s, J (Stmt update rest) s -> J (rest s) (update s)).
  Context (others : forall update rest s q, J (Stmt update rest) s -> J q s -> J q (update s)).
Lemma pool_invariant ps s ps' s' : rtc pool_step (ps, s) (ps', s') -> Forall (fun p => J p s) ps -> Forall (fun p => J p s') ps'.
Proof.
  intros Hrun. apply (pool_induction (fun ps s => Forall (fun p => J p s) ps)) with (2 := Hrun). clear Hrun ps s ps' s'.
  intros ps i update rest s Hi Hps. assert (J (Stmt update rest) s) as Hown by exact (Forall_lookup_1 _ _ _ _ Hps Hi).
  apply Forall_insert; [|by apply own]. eapply Forall_impl; [exact Hps|]. intros q Hq. by eapply others.
Qed.
End invariant.
