(* ===== verification/Secrets.v ===== *)
(** * Server secrets: [security/secret.go] and the tokens of [security/report.go]

    The table [app_secrets] is a map from names to rows; the procedures are programs
    over it ([Transact]), one statement per query, so that concurrent callers
    interleave between statements.  HKDF, AES-GCM and HMAC are parameters; times are
    nanoseconds, [db_now] is the clock of the database in seconds.

    The theorems: concurrent callers all get the one stored secret; a secret rotates
    exactly when its lifetime has passed; over any sequence of starts a value stays
    valid for the grace window after it was in force; and a published report address
    is accepted for its 48 hours even when the secret behind it is rotated. *)
From stdpp Require Import base list gmap strings relations.
From Stdlib Require Import ZArith Lia.
From S2P Require Import Prelude GoStrings GoTime LogFormat GoUrl Settings Restore Startup Transact.
Local Open Scope Z_scope.
Local Open Scope go_scope.

Definition Unix (now : Z) : Z := now / Second.

(** ** The table *)

Record secret_row := mkSecret { s_value : gostr; s_previous : option gostr; s_until : option Z; s_rotated : option Z }.
#[export] Instance secret_row_eq_dec : EqDecision secret_row.
Proof. solve_decision. Defined.
Abbreviation app_secrets := (gmap gostr secret_row).
Definition SecretInstallationSecret : gostr := str "installation_secret".
Definition SecretCookieSigningKey : gostr := str "cookie_signing_key".
Definition SecretCSRFTokenSecret : gostr := str "csrf_token_secret".
Definition secretGraceWindow : Z := 7 * 24 * Hour.

Inductive secret_error := QueryFailed | GenerateFailed | PersistFailed | ReloadFailed | Corrupt | RotateFailed | ReadTimeFailed | InitTimeFailed.
(** The statements that fail, and the 32 bytes the random source delivers. *)
Record get_faults := mkGet { g_query : bool; g_random : option gostr; g_persist : bool; g_reload : bool }.
Definition decoded (row : secret_row) : result secret_error gostr :=
  match Std_Decode (s_value row) with Some v => Ok v | None => Err Corrupt end.
(** [INSERT ... ON CONFLICT(name) DO NOTHING] *)
Definition insert_absent (name : gostr) (row : secret_row) (db : app_secrets) : app_secrets :=
  match db !! name with Some _ => db | None => <[name := row]> db end.
Definition GetOrCreateSecret (f : get_faults) (db_now : Z) (name : gostr) : prog app_secrets (result secret_error gostr) :=
  Query (fun db =>
    if g_query f then Ret (Err QueryFailed)
    else match db !! name with
    | Some row => Ret (decoded row)
    | None =>
        match g_random f with
        | None => Ret (Err GenerateFailed)
        | Some raw =>
            if g_persist f then Query (fun _ => Ret (Err PersistFailed))
            else Stmt (insert_absent name (mkSecret (Std_Encode raw) None None (Some db_now))) (fun _ =>
              Query (fun db =>
                if g_reload f then Ret (Err ReloadFailed)
                else match db !! name with Some row => Ret (decoded row) | None => Ret (Err ReloadFailed) end))
        end
    end).

(** The faults of a rotation: of the read, the new random value, and of the update. *)
Record rotate_faults := mkRotate { r_get : get_faults; r_random : option gostr; r_update : bool }.
Definition rotated_row (next current : gostr) (until db_now : Z) (row : secret_row) : secret_row :=
  mkSecret (Std_Encode next) (Some (Std_Encode current)) (Some until) (Some db_now).
Definition RotateSecret (f : rotate_faults) (now db_now : Z) (name : gostr) : prog app_secrets (result secret_error unit) :=
  let! got := GetOrCreateSecret (r_get f) db_now name in
  match got with
  | Err e => Ret (Err e)
  | Ok current =>
      match r_random f with
      | None => Ret (Err GenerateFailed)
      | Some next =>
          if r_update f then Query (fun _ => Ret (Err RotateFailed))
          else Stmt (fun db => alter (rotated_row next current (Unix (now + secretGraceWindow)) db_now) name db) (fun _ => Ret (Ok tt))
      end
  end.
(** The faults of a check: of the read, of setting a missing time, of the rotation. *)
Record due_faults := mkDue { d_read : bool; d_init : bool; d_rotate : rotate_faults }.
Definition init_time (now : Z) (row : secret_row) : secret_row :=
  match s_rotated row with None => mkSecret (s_value row) (s_previous row) (s_until row) (Some (Unix now)) | Some _ => row end.
(** Durations saturate far beyond any lifetime, which does not change the comparison. *)
Definition RotateSecretIfDue (f : due_faults) (name : gostr) (lifetime now db_now : Z) : prog app_secrets (result secret_error bool) :=
  Query (fun db =>
    if d_read f then Ret (Err ReadTimeFailed)
    else match db !! name with
    | None => Ret (Err ReadTimeFailed)
    | Some row =>
        match s_rotated row with
        | None => if d_init f then Query (fun _ => Ret (Err InitTimeFailed)) else Stmt (alter (init_time now) name) (fun _ => Ret (Ok false))
        | Some at_ =>
            if now - at_ * Second <? lifetime then Ret (Ok false)
            else let! r := RotateSecret (d_rotate f) now db_now name in
                 match r with Ok _ => Ret (Ok true) | Err e => Ret (Err e) end
        end
    end).
(** [None] where there is no live previous value. *)
Definition PreviousSecret (query_fails : bool) (now : Z) (name : gostr) : prog app_secrets (result secret_error (option gostr)) :=
  Query (fun db =>
    if query_fails then Ret (Err QueryFailed)
    else match db !! name with
    | None => Ret (Ok None)
    | Some row =>
        match s_previous row, s_until row with
        | Some previous, Some until =>
            if until <? Unix now then Ret (Ok None)
            else match Std_Decode previous with Some v => Ret (Ok (Some v)) | None => Ret (Err Corrupt) end
        | _, _ => Ret (Ok None)
        end
    end).

(** ** A start *)

Fixpoint create_all (names : list gostr) (faults : nat -> get_faults) (db_now : Z) : prog app_secrets bool :=
  match names with
  | [] => Ret true
  | name :: rest =>
      let! got := GetOrCreateSecret (faults (length rest)) db_now name in
      match got with Ok _ => create_all rest faults db_now | Err _ => Ret false end
  end.
Fixpoint rotate_all (rotations : list (gostr * Z)) (faults : nat -> due_faults) (now db_now : Z) : prog app_secrets bool :=
  match rotations with
  | [] => Ret true
  | (name, lifetime) :: rest =>
      let! rotated := RotateSecretIfDue (faults (length rest)) name lifetime now db_now in
      match rotated with Ok _ => rotate_all rest faults now db_now | Err _ => Ret false end
  end.
Definition start_rotations : list (gostr * Z) := [(SecretCookieSigningKey, 90 * 24 * Hour); (SecretCSRFTokenSecret, 180 * 24 * Hour)].
(** Whether the start goes on. *)
Definition start_secrets (created : nat -> get_faults) (checked : nat -> due_faults) (now db_now : Z) : prog app_secrets bool :=
  let! ok := create_all [SecretInstallationSecret; SecretCookieSigningKey; SecretCSRFTokenSecret] created db_now in
  if ok then rotate_all start_rotations checked now db_now else Ret false.

(** ** Encryption *)

(** HKDF with its info string, and AES-256-GCM. *)
Class SecretCipher := { hkdf : gostr -> gostr -> gostr; gcm_seal : gostr -> gostr -> gostr -> gostr; gcm_open : gostr -> gostr -> gostr -> option gostr }.
Class SecretCipherLaws `{SecretCipher} := { gcm_open_seal key nonce p : gcm_open key nonce (gcm_seal key nonce p) = Some p }.
Inductive cipher_error := NonceFailed | CiphertextTooShort | OpenFailed.
Definition nonceSize : nat := 12.
Definition deriveAESKey `{SecretCipher} (secret info : gostr) : gostr := hkdf secret info.
Definition EncryptWithSecret `{SecretCipher} (nonce : option gostr) (secret plaintext info : gostr) : result cipher_error gostr :=
  match nonce with
  | None => Err NonceFailed
  | Some nonce => Ok (nonce ++ gcm_seal (deriveAESKey secret info) nonce plaintext)
  end.
Definition DecryptWithSecret `{SecretCipher} (secret ciphertext info : gostr) : result cipher_error gostr :=
  if (length ciphertext <? nonceSize)%nat then Err CiphertextTooShort
  else match gcm_open (deriveAESKey secret info) (take nonceSize ciphertext) (drop nonceSize ciphertext) with
       | Some p => Ok p
       | None => Err OpenFailed
       end.

(** ** Report addresses *)

Section tokens.
  Context (hmac_sha256 : gostr -> gostr -> list Z).
Definition securityIDWindow : Z := 48 * 3600.
Definition SecurityID (secret : gostr) (unixSeconds : Z) : gostr :=
  take 16 (hmac_sha256 secret (Itoa (Z.quot unixSeconds securityIDWindow)) ≫= hex_pad 2).
Definition ValidateSecurityID (current previous candidate : gostr) (now : Z) : bool :=
  if negb (Nat.eqb (length candidate) 16) then false
  else existsb (fun secret =>
         (secret <>s []) && existsb (fun delta => SecurityID secret (Unix now - delta * securityIDWindow) =s candidate) [0; 1])
         [current; previous].
Definition CurrentSecurityID (f : get_faults) (now db_now : Z) : prog app_secrets (result secret_error gostr) :=
  let! got := GetOrCreateSecret f db_now SecretInstallationSecret in
  match got with Err e => Ret (Err e) | Ok secret => Ret (Ok (SecurityID secret (Unix now))) end.
(** [clock] is the time at which the previous value is looked at. *)
Definition IsValidSecurityID (f : get_faults) (query_fails : bool) (candidate : gostr) (now clock db_now : Z)
  : prog app_secrets (result secret_error bool) :=
  let! got := GetOrCreateSecret f db_now SecretInstallationSecret in
  match got with
  | Err e => Ret (Err e)
  | Ok current =>
      let! previous := PreviousSecret query_fails clock SecretInstallationSecret in
      match previous with
      | Err e => Ret (Err e)
      | Ok previous => Ret (Ok (ValidateSecurityID current (default [] previous) candidate now))
      end
  end.
End tokens.

(** ** One secret for all callers *)

Section agreement.
  Context (name : gostr) (db0 : app_secrets) (offered : gostr -> Prop).
(** The row is the one that was there, or one a caller offered. *)
Definition settled (db : app_secrets) : Prop :=
  db !! name = db0 !! name \/
  db0 !! name = None /\ exists raw at_, offered raw /\ db !! name = Some (mkSecret (Std_Encode raw) None None (Some at_)).
Definition reload_secret (f : get_faults) : prog app_secrets (result secret_error gostr) :=
  Query (fun db => if g_reload f then Ret (Err ReloadFailed)
                   else match db !! name with Some row => Ret (decoded row) | None => Ret (Err ReloadFailed) end).
Inductive caller_at (db : app_secrets) : prog app_secrets (result secret_error gostr) -> Prop :=
| at_start f t : (forall raw, g_random f = Some raw -> offered raw) -> caller_at db (GetOrCreateSecret f t name)
| at_insert f t raw : offered raw ->
    caller_at db (Stmt (insert_absent name (mkSecret (Std_Encode raw) None None (Some t))) (fun _ => reload_secret f))
| at_failing e : caller_at db (Query (fun _ => Ret (Err e)))
| at_reload f : is_Some (db !! name) -> caller_at db (reload_secret f)
| at_error e : caller_at db (Ret (Err e))
| at_value row v : db !! name = Some row -> decoded row = Ok v -> caller_at db (Ret (Ok v)).
Definition caller_ok (p : prog app_secrets (result secret_error gostr)) (db : app_secrets) : Prop := settled db /\ caller_at db p.
Lemma caller_decoded db row : db !! name = Some row -> caller_at db (Ret (decoded row)).
Proof. intros Hrow. destruct (decoded row) as [v|e] eqn:E; [by eapply at_value|apply at_error]. Qed.
Lemma insert_absent_settled row at_ raw db : offered raw -> row = mkSecret (Std_Encode raw) None None (Some at_) -> settled db -> settled (insert_absent name row db).
Proof.
  intros Ho -> Hs. unfold insert_absent. destruct (db !! name) eqn:E; [done|]. destruct Hs as [Hs|(_ & ? & ? & _ & Hs)]; [|congruence].
  right. split; [congruence|]. exists raw, at_. by rewrite lookup_insert_eq.
Qed.
Lemma caller_own update rest db : caller_ok (Stmt update rest) db -> caller_ok (rest db) (update db).
Proof.
  intros [Hs Hc]. inversion Hc as [f t Hf| | | | |]; subst.
  - split; [done|]. destruct (g_query f); [constructor|]. destruct (db !! name) as [row|] eqn:E; [by apply caller_decoded|].
    destruct (g_random f) as [raw|] eqn:Er; [|constructor]. destruct (g_persist f); [constructor|]. by apply at_insert, Hf.
  - split; [by eapply insert_absent_settled|]. apply at_reload. unfold insert_absent. destruct (db !! name) eqn:E; [done|]. by rewrite lookup_insert_eq.
  - split; [done|constructor].
  - split; [done|]. destruct (g_reload f); [constructor|]. destruct (db !! name) as [row|] eqn:E; [by apply caller_decoded|constructor].
Qed.
Lemma caller_others update rest db q : caller_ok (Stmt update rest) db -> caller_ok q db -> caller_ok q (update db).
Proof.
  intros Hp [Hs Hq]. split; [by destruct (caller_own _ _ _ Hp)|]. destruct Hp as [_ Hc].
  assert (forall row, db !! name = Some row -> update db !! name = Some row) as Hkeep.
  { intros row Hrow. inversion Hc; subst; try done. unfold insert_absent. by rewrite Hrow. }
  destruct Hq as [f t Hf|f t raw Hr|e|f [row Hrow]|e|row v Hrow Hd]; econstructor; eauto.
Qed.
End agreement.

(** C22. However many callers ask for a secret at once and however their statements
    interleave and fail, all that get a value get the same one: the stored value,
    which is the one there was before, or one a caller drew if there was none. *)
Theorem secret_agreement name calls db ps db' i j v w :
  rtc pool_step ((fun c => GetOrCreateSecret c.1 c.2 name) <$> calls, db) (ps, db') ->
  ps !! i = Some (Ret (Ok v)) -> ps !! j = Some (Ret (Ok w)) ->
  v = w /\ exists row, db' !! name = Some row /\ decoded row = Ok v /\
  match db !! name with
  | Some old => row = old
  | None => exists c, c ∈ calls /\ g_random c.1 = Some v
  end.
Proof.
  intros Hrun Hi Hj.
  pose (offered := fun raw => exists c, c ∈ calls /\ g_random c.1 = Some raw).
  assert (Forall (fun p => caller_ok name db offered p db') ps) as Hall.
  { eapply (pool_invariant (caller_ok name db offered)); [apply caller_own|apply caller_others|exact Hrun|].
    apply Forall_fmap, Forall_forall. intros c Hc. split; [by left|]. apply at_start. intros raw Hraw. by exists c. }
  destruct (Forall_lookup_1 _ _ _ _ Hall Hi) as [Hs Hv]. destruct (Forall_lookup_1 _ _ _ _ Hall Hj) as [_ Hw].
  inversion Hv as [| | | | |row v0 Hrow Hd]; subst. inversion Hw as [| | | | |row' w0 Hrow' Hd']; subst. simplify_eq.
  rewrite Hd in Hd'. injection Hd' as ->. split; [done|]. exists row. split_and!; [done..|].
  destruct Hs as [Hs|(Hnone & raw & at_ & (c & Hc & Hraw) & Hs)].
  - rewrite <- Hs, Hrow. done.
  - rewrite Hnone. exists c. split; [done|]. rewrite Hraw. f_equal. rewrite Hrow in Hs. injection Hs as ->.
    unfold decoded in Hd. cbn [s_value] in Hd. rewrite Std_Decode_Encode in Hd. by injection Hd.
Qed.
Definition two_callers : list (get_faults * Z) := [(mkGet false (Some (str "a")) false false, 1); (mkGet false (Some (str "b")) false false, 2)].
Lemma secret_agreement_witness : str "b" = str "b".
Proof.
  refine (proj1 (secret_agreement SecretInstallationSecret two_callers ∅ [Ret (Ok (str "b")); Ret (Ok (str "b"))]
    {[SecretInstallationSecret := mkSecret (Std_Encode (str "b")) None None (Some 2)]} 0 1 (str "b") (str "b") _ eq_refl eq_refl)).
  eapply rtc_l; [by eapply (run_stmt _ 0)|]. eapply rtc_l; [by eapply (run_stmt _ 1)|]. eapply rtc_l; [by eapply (run_stmt _ 1)|].
  eapply rtc_l; [by eapply (run_stmt _ 0)|]. eapply rtc_l; [by eapply (run_stmt _ 0)|]. eapply rtc_l; [by eapply (run_stmt _ 1)|].
  match goal with |- rtc _ ?a ?b => replace a with b by (vm_compute; reflexivity) end. apply rtc_refl.
Defined.

(** ** Rotation *)

Lemma exec_get f t name db db' r :
  exec (GetOrCreateSecret f t name) db = (db', r) ->
  (forall other, other <> name -> db' !! other = db !! other) /\
  (forall row, db !! name = Some row -> db' = db /\ (r = decoded row \/ r = Err QueryFailed)) /\
  (forall v, r = Ok v -> exists row, db' !! name = Some row /\ decoded row = Ok v).
Proof.
  unfold GetOrCreateSecret. cbn [exec]. destruct (g_query f); cbn [exec].
  { intros [= <- <-]. split_and!; [done|by intros; split; [|right]|done]. }
  destruct (db !! name) as [row|] eqn:E.
  - cbn [exec]. intros [= <- <-]. split_and!; [done|by intros row' [= ->]; split; [|left]|]. intros v Hv. by exists row.
  - destruct (g_random f) as [raw|]; [|intros [= <- <-]; by split_and!]. destruct (g_persist f); [intros [= <- <-]; by split_and!|].
    cbn [exec]. unfold insert_absent. rewrite E. rewrite lookup_insert_eq.
    assert (forall other, other <> name -> <[name := mkSecret (Std_Encode raw) None None (Some t)]> db !! other = db !! other) as Ho
      by (intros other Hne; by rewrite lookup_insert_ne by congruence).
    destruct (g_reload f); cbn [exec]; intros [= <- <-]; split_and!; try done.
    intros v Hv. eexists. by rewrite lookup_insert_eq.
Qed.
Lemma exec_get_ok f t name db row v :
  g_query f = false -> db !! name = Some row -> decoded row = Ok v -> exec (GetOrCreateSecret f t name) db = (db, Ok v).
Proof. intros Hf Hrow Hv. unfold GetOrCreateSecret. cbn [exec]. by rewrite Hf, Hrow, Hv. Qed.
Lemma exec_rotate f now t name db db' r row :
  db !! name = Some row -> exec (RotateSecret f now t name) db = (db', r) ->
  match r with
  | Ok _ => exists current next, decoded row = Ok current /\ r_random f = Some next /\
      db' = <[name := mkSecret (Std_Encode next) (Some (Std_Encode current)) (Some (Unix (now + secretGraceWindow))) (Some t)]> db
  | Err _ => db' = db
  end.
Proof.
  intros Hrow. unfold RotateSecret. rewrite exec_bind. destruct (exec _ db) as [db1 got] eqn:Hget.
  destruct (exec_get _ _ _ _ _ _ Hget) as (_ & Hex & _). destruct (Hex row Hrow) as [-> Hgot].
  destruct got as [current|e]; [|by intros [= <- <-]].
  destruct (r_random f) as [next|]; [|by intros [= <- <-]]. destruct (r_update f); [by intros [= <- <-]|].
  cbn [exec]. intros [= <- <-]. exists current, next. destruct Hgot as [Hgot|]; [|done]. split_and!; [done..|].
  apply map_eq. intros k. destruct (decide (k = name)) as [->|Hne]; [by rewrite lookup_alter_eq, Hrow, lookup_insert_eq|].
  by rewrite lookup_alter_ne, lookup_insert_ne by congruence.
Qed.
(** A secret is rotated exactly when its lifetime has passed since its last
    rotation; the old value is then kept for seven days.  A row without a time is
    given one and keeps its value, and a check that fails changes nothing. *)
Lemma exec_due f name lifetime now t db db' r row :
  db !! name = Some row -> exec (RotateSecretIfDue f name lifetime now t) db = (db', r) ->
  match r with
  | Ok true => exists at_ current next, s_rotated row = Some at_ /\ lifetime <= now - at_ * Second /\ decoded row = Ok current /\
      r_random (d_rotate f) = Some next /\
      db' = <[name := mkSecret (Std_Encode next) (Some (Std_Encode current)) (Some (Unix (now + secretGraceWindow))) (Some t)]> db
  | Ok false => s_rotated row = None /\ db' = <[name := init_time now row]> db \/
      exists at_, s_rotated row = Some at_ /\ now - at_ * Second < lifetime /\ db' = db
  | Err _ => db' = db
  end.
Proof.
  intros Hrow. unfold RotateSecretIfDue. cbn [exec]. destruct (d_read f); [by intros [= <- <-]|]. rewrite Hrow.
  destruct (s_rotated row) as [at_|] eqn:Er.
  - destruct (now - at_ * Second <? lifetime) eqn:El; [intros [= <- <-]; right; exists at_; split_and!; [done|lia|done]|].
    rewrite exec_bind. destruct (exec _ db) as [db1 res] eqn:Hrot. pose proof (exec_rotate _ _ _ _ _ _ _ _ Hrow Hrot) as Hspec.
    destruct res as [u|e]; intros [= <- <-]; [|done]. destruct Hspec as (current & next & ? & ? & ?).
    exists at_, current, next. split_and!; [done|lia|done..].
  - destruct (d_init f); [by intros [= <- <-]|]. intros [= <- <-]. left. split; [done|].
    apply map_eq. intros k. destruct (decide (k = name)) as [->|Hne]; [by rewrite lookup_alter_eq, Hrow, lookup_insert_eq|].
    by rewrite lookup_alter_ne, lookup_insert_ne by congruence.
Qed.
(** ** The grace window *)

Lemma Unix_mono a b : a <= b -> Unix a <= Unix b.
Proof. intros H. by apply Z.div_le_mono. Qed.
(** A value in force, or the previous one until at least [u], replaced after [since]. *)
Definition in_force (name v : gostr) (since u : Z) (db : app_secrets) : Prop :=
  exists row, db !! name = Some row /\
  (decoded row = Ok v \/
   s_previous row = Some (Std_Encode v) /\ (exists c, decoded row = Ok c) /\ (exists until, s_until row = Some until /\ u <= until) /\
   exists at_, s_rotated row = Some at_ /\ since <= at_).
Lemma exec_get_keeps f t name other db db' r :
  other <> name \/ is_Some (db !! other) -> exec (GetOrCreateSecret f t name) db = (db', r) -> db' !! other = db !! other.
Proof.
  intros Ho Hx. destruct (exec_get _ _ _ _ _ _ Hx) as (Hne & Heq & _). destruct (decide (other = name)) as [->|]; [|by apply Hne].
  destruct Ho as [?|[row Hrow]]; [done|]. by destruct (Heq row Hrow) as [-> _].
Qed.
Lemma create_all_keeps names faults t other db db' r :
  is_Some (db !! other) -> exec (create_all names faults t) db = (db', r) -> db' !! other = db !! other.
Proof.
  revert db. induction names as [|name names IH]; intros db Hsome; cbn [create_all]; [by intros [= <- <-]|].
  rewrite exec_bind. destruct (exec _ db) as [db1 got] eqn:Hget. pose proof (exec_get_keeps _ _ _ other _ _ _ (or_intror Hsome) Hget) as Hk.
  destruct got; [|by intros [= <- <-]]. intros Hx. rewrite <- Hk. apply (IH db1); [by rewrite Hk|done].
Qed.
Lemma exec_due_other f name lifetime now t other db db' r :
  other <> name -> exec (RotateSecretIfDue f name lifetime now t) db = (db', r) -> db' !! other = db !! other.
Proof.
  intros Hne Hx. destruct (db !! name) as [row|] eqn:Hrow.
  - pose proof (exec_due _ _ _ _ _ _ _ _ _ Hrow Hx) as Hs. destruct r as [[]|].
    + destruct Hs as (? & ? & ? & _ & _ & _ & _ & ->). by rewrite lookup_insert_ne by congruence.
    + destruct Hs as [[_ ->]|(? & _ & _ & ->)]; [by rewrite lookup_insert_ne by congruence|done].
    + by rewrite Hs.
  - revert Hx. unfold RotateSecretIfDue. cbn [exec]. destruct (d_read f); [by intros [= <- <-]|]. rewrite Hrow. by intros [= <- <-].
Qed.
Lemma exec_due_in_force f name lifetime v since now t db db' r :
  secretGraceWindow + Second < lifetime -> since <= now <= since + secretGraceWindow -> t = Unix now ->
  in_force name v (Unix since) (Unix (since + secretGraceWindow)) db ->
  exec (RotateSecretIfDue f name lifetime now t) db = (db', r) -> in_force name v (Unix since) (Unix (since + secretGraceWindow)) db'.
Proof.
  intros Hlife Hnow -> (row & Hrow & Hv) Hx. pose proof (exec_due _ _ _ _ _ _ _ _ _ Hrow Hx) as Hs. destruct r as [[]|].
  - destruct Hs as (at_ & current & next & Hat & Hdue & Hcur & _ & ->). destruct Hv as [Hv|(Hp & _ & _ & at' & Hat' & Hge)].
    + rewrite Hcur in Hv. injection Hv as ->. eexists. split; [apply lookup_insert_eq|]. right. cbn [s_previous s_until s_rotated]. split_and!; [done| | |].
      * exists next. unfold decoded. cbn [s_value]. by rewrite Std_Decode_Encode.
      * eexists. split; [done|]. apply Unix_mono. lia.
      * eexists. split; [done|]. apply Unix_mono. lia.
    + simplify_eq. exfalso. unfold Unix, Second in *. Z.div_mod_to_equations. lia.
  - destruct Hs as [[Hn ->]|(? & _ & _ & ->)]; [|by exists row]. exists (init_time now row). split; [apply lookup_insert_eq|].
    unfold init_time. rewrite Hn. destruct Hv as [Hv|(_ & _ & _ & at' & Hat' & _)]; [by left|congruence].
  - rewrite Hs. by exists row.
Qed.

(** A start of the server at a time of the host's clock, with what fails in it. *)
Record start := mkStartUp { st_now : Z; st_created : nat -> get_faults; st_checked : nat -> due_faults }.
Definition run_start (db : app_secrets) (st : start) : app_secrets :=
  (exec (start_secrets (st_created st) (st_checked st) (st_now st) (Unix (st_now st))) db).1.
Lemma rotate_all_in_force rotations faults name v since now db :
  Forall (fun r => secretGraceWindow + Second < r.2) rotations -> since <= now <= since + secretGraceWindow ->
  in_force name v (Unix since) (Unix (since + secretGraceWindow)) db ->
  in_force name v (Unix since) (Unix (since + secretGraceWindow)) (exec (rotate_all rotations faults now (Unix now)) db).1.
Proof.
  intros Hl Hnow. revert db. induction Hl as [|[n lifetime] rotations Hlife Hl IH]; intros db Hdb; [done|].
  cbn [rotate_all]. rewrite exec_bind. destruct (exec _ db) as [db1 r] eqn:Hx.
  assert (in_force name v (Unix since) (Unix (since + secretGraceWindow)) db1) as H1.
  { destruct (decide (n = name)) as [->|Hne]; [by eapply exec_due_in_force|]. destruct Hdb as (row & Hrow & Hv). exists row.
    split; [|done]. rewrite <- Hrow. eapply exec_due_other; [|exact Hx]. congruence. }
  destruct r; [by apply IH|exact H1].
Qed.
Lemma run_start_in_force name v since db st :
  since <= st_now st <= since + secretGraceWindow ->
  in_force name v (Unix since) (Unix (since + secretGraceWindow)) db ->
  in_force name v (Unix since) (Unix (since + secretGraceWindow)) (run_start db st).
Proof.
  intros Hnow (row & Hrow & Hv). unfold run_start, start_secrets. rewrite exec_bind. destruct (exec _ db) as [db1 ok] eqn:Hc.
  assert (in_force name v (Unix since) (Unix (since + secretGraceWindow)) db1) as H1.
  { exists row. split; [|done]. rewrite <- Hrow. eapply create_all_keeps; [by rewrite Hrow|exact Hc]. }
  destruct ok; [|exact H1]. apply rotate_all_in_force; [|done..]. repeat constructor; by vm_compute.
Qed.
(** Whatever starts happen and fail in the seven days after a secret was in force,
    a check in that time gets the value as the current or as the previous one. *)
Theorem grace_window_kept name v since starts db now f t :
  (exists row, db !! name = Some row /\ decoded row = Ok v) ->
  Forall (fun st => since <= st_now st <= since + secretGraceWindow) starts -> since <= now <= since + secretGraceWindow -> g_query f = false ->
  let db' := fold_left run_start starts db in
  (exec (GetOrCreateSecret f t name) db').2 = Ok v \/ (exec (PreviousSecret false now name) db').2 = Ok (Some v).
Proof.
  intros (row & Hrow & Hv) Hst Hnow Hf db'.
  assert (in_force name v (Unix since) (Unix (since + secretGraceWindow)) db') as (row' & Hrow' & Hv').
  { assert (in_force name v (Unix since) (Unix (since + secretGraceWindow)) db) as Hdb by (exists row; auto).
    unfold db'. clear db' Hrow Hv row. revert db Hdb. induction Hst as [|st starts Ht Hst IH]; intros db Hdb; [done|]. by apply IH, run_start_in_force. }
  destruct Hv' as [Hv'|(Hp & _ & (until & Hu & Hle) & _)]; [left; by rewrite (exec_get_ok _ _ _ _ _ _ Hf Hrow' Hv')|right].
  cbn [PreviousSecret exec]. rewrite Hrow', Hp, Hu. destruct (Z.ltb_spec until (Unix now)) as [Hlt|_].
  - pose proof (Unix_mono now (since + secretGraceWindow)). lia.
  - by rewrite Std_Decode_Encode.
Qed.
Definition due_now : nat -> due_faults := fun _ => mkDue false false (mkRotate (mkGet false None false false) (Some (str "new")) false).
Definition old_csrf : app_secrets := {[SecretCSRFTokenSecret := mkSecret (Std_Encode (str "old")) None None (Some 0)]}.
Definition later_start : start := mkStartUp (200 * 24 * Hour) (fun _ => mkGet false (Some (str "made")) false false) due_now.
Lemma grace_window_kept_witness :
  let db := fold_left run_start [later_start] old_csrf in
  (exec (GetOrCreateSecret (mkGet false None false false) 0 SecretCSRFTokenSecret) db).2 = Ok (str "old") \/
  (exec (PreviousSecret false (203 * 24 * Hour) SecretCSRFTokenSecret) db).2 = Ok (Some (str "old")).
Proof.
  apply (grace_window_kept SecretCSRFTokenSecret (str "old") (200 * 24 * Hour)).
  - eexists. split; [reflexivity|]. vm_compute. reflexivity.
  - constructor; [|constructor]. vm_compute. split; discriminate.
  - vm_compute. split; discriminate.
  - reflexivity.
Defined.
(** With a start that rotates, the value is the previous one. *)
Lemma grace_after_rotation :
  (exec (PreviousSecret false (203 * 24 * Hour) SecretCSRFTokenSecret) (fold_left run_start [later_start] old_csrf)).2 = Ok (Some (str "old")).
Proof. vm_compute. reflexivity. Qed.

(** ** The life of a report address *)

Section report_address.
  Context (hmac_sha256 : gostr -> gostr -> list Z) (hmac_length : forall k m, length (hmac_sha256 k m) = 32%nat).
(** What happens to the secrets while an address is in use. *)
Inductive event :=
| Started (st : start)
| Rotated (f : rotate_faults) (now : Z).
Definition event_time (e : event) : Z := match e with Started st => st_now st | Rotated _ now => now end.
Definition is_rotation (e : event) : Prop := match e with Rotated _ _ => True | _ => False end.
#[local] Instance is_rotation_dec e : Decision (is_rotation e).
Proof. destruct e; apply _. Defined.
Definition run_event (db : app_secrets) (e : event) : app_secrets :=
  match e with
  | Started st => run_start db st
  | Rotated f now => (exec (RotateSecret f now (Unix now) SecretInstallationSecret) db).1
  end.
Lemma SecurityID_length secret n : length (SecurityID hmac_sha256 secret n) = 16%nat.
Proof.
  unfold SecurityID. rewrite length_take.
  assert (forall l, length (l ≫= hex_pad 2) = (2 * length l)%nat) as H.
  { induction l as [|x l IH]; [done|]. rewrite bind_cons, length_app, IH, hex_pad_length. cbn. lia. }
  rewrite H, hmac_length. done.
Qed.
(** Within 48 hours the window is the same or the next one. *)
Lemma next_window issued now :
  0 <= issued <= now -> now <= issued + 48 * Hour ->
  exists delta, (delta = 0 \/ delta = 1) /\
  Z.quot (Unix now - delta * securityIDWindow) securityIDWindow = Z.quot (Unix issued) securityIDWindow.
Proof.
  intros H1 H2. assert (Unix issued <= Unix now <= Unix issued + securityIDWindow) as Hu.
  { split; [apply Unix_mono; lia|]. unfold Unix, securityIDWindow, Hour, Minute, Second in *. Z.div_mod_to_equations. lia. }
  assert (0 <= Unix issued) as H0 by (apply Z.div_pos; [lia|done]).
  destruct (decide (Unix now / securityIDWindow = Unix issued / securityIDWindow)) as [Heq|Hne].
  - exists 0. split; [by left|]. rewrite Z.mul_0_l, Z.sub_0_r, !Z.quot_div_nonneg by (lia || done). done.
  - exists 1. split; [by right|]. unfold securityIDWindow in *. rewrite !Z.quot_div_nonneg; Z.div_mod_to_equations; lia.
Qed.
Lemma issued_valid secret issued now current previous :
  secret <> [] -> 0 <= issued <= now -> now <= issued + 48 * Hour -> current = secret \/ previous = secret ->
  ValidateSecurityID hmac_sha256 current previous (SecurityID hmac_sha256 secret (Unix issued)) now = true.
Proof.
  intros Hne H1 H2 Hor. unfold ValidateSecurityID. rewrite SecurityID_length. apply any_true. exists secret.
  split; [set_solver|]. rewrite bool_decide_eq_false_2 by done. apply any_true.
  destruct (next_window issued now H1 H2) as (delta & Hd & Hq). exists delta. split; [set_solver|].
  apply bool_decide_eq_true. unfold SecurityID. by rewrite Hq.
Qed.
(** The secret of an address: in force, or previous for the time the address is good. *)
Definition address_secret (v : gostr) (issued : Z) (rotated : bool) (db : app_secrets) : Prop :=
  exists row c, db !! SecretInstallationSecret = Some row /\ decoded row = Ok c /\
  (c = v /\ (forall p, s_previous row = Some p -> is_Some (Std_Decode p)) \/
   rotated = true /\ s_previous row = Some (Std_Encode v) /\ exists u, s_until row = Some u /\ Unix (issued + 48 * Hour) <= u).
Lemma run_start_address v issued rotated db st : address_secret v issued rotated db -> address_secret v issued rotated (run_start db st).
Proof.
  intros (row & c & Hrow & Hrest). exists row, c. split; [|done]. unfold run_start, start_secrets. rewrite exec_bind.
  destruct (exec _ db) as [db1 ok] eqn:Hc. assert (db1 !! SecretInstallationSecret = Some row) as H1.
  { rewrite <- Hrow. eapply create_all_keeps; [by rewrite Hrow|exact Hc]. }
  destruct ok; [|exact H1]. unfold start_rotations. cbn [rotate_all]. rewrite exec_bind. destruct (exec _ db1) as [db2 r2] eqn:H2.
  assert (db2 !! SecretInstallationSecret = db1 !! SecretInstallationSecret) as K2 by (refine (exec_due_other _ _ _ _ _ _ _ _ _ _ H2); discriminate). destruct r2; [|by rewrite <- H1, <- K2].
  rewrite exec_bind. destruct (exec _ db2) as [db3 r3] eqn:H3.
  assert (db3 !! SecretInstallationSecret = db2 !! SecretInstallationSecret) as K3 by (refine (exec_due_other _ _ _ _ _ _ _ _ _ _ H3); discriminate).
  destruct r3; cbn [exec fst]; congruence.
Qed.
Lemma run_rotation_address v issued f now db :
  issued <= now -> address_secret v issued false db -> address_secret v issued true (run_event db (Rotated f now)).
Proof.
  intros Hnow (row & c & Hrow & Hc & [[-> Hp]|[? _]]); [|done]. cbn [run_event].
  destruct (exec _ db) as [db' r] eqn:Hx. pose proof (exec_rotate _ _ _ _ _ _ _ _ Hrow Hx) as Hs. cbn [fst]. destruct r as [u|e].
  - destruct Hs as (current & next & Hcur & _ & ->). rewrite Hc in Hcur. injection Hcur as <-. eexists _, next.
    split; [apply lookup_insert_eq|]. split; [unfold decoded; cbn [s_value]; by rewrite Std_Decode_Encode|]. right.
    split_and!; [done..|]. eexists. split; [done|]. apply Unix_mono. unfold secretGraceWindow, Hour, Minute, Second. lia.
  - rewrite Hs. exists row, v. split_and!; [done..|]. by left.
Qed.
Lemma run_events_address v issued events db :
  Forall (fun e => issued <= event_time e) events -> (length (filter is_rotation events) <= 1)%nat ->
  address_secret v issued false db -> exists rotated, address_secret v issued rotated (fold_left run_event events db).
Proof.
  intros Ht. revert db. assert (forall events db, filter is_rotation events = [] -> forall b, address_secret v issued b db -> address_secret v issued b (fold_left run_event events db)) as Hno.
  { induction events0 as [|e es IH]; intros db Hn b Hdb; [done|]. destruct e; [|rewrite filter_cons_True in Hn by done; done].
    rewrite filter_cons_False in Hn by tauto. by apply IH, run_start_address. }
  induction Ht as [|e events Hte Ht IH]; intros db Hlen Hdb; [by exists false|]. cbn [fold_left]. destruct e as [st|f now].
  - rewrite filter_cons_False in Hlen by tauto. by apply IH, run_start_address.
  - rewrite filter_cons_True in Hlen by done. cbn in Hlen. exists true. apply Hno; [|by apply run_rotation_address].
    destruct (filter is_rotation events); [done|cbn in Hlen; lia].
Qed.
(** C27. A published report address is accepted for 48 hours, whatever starts of the
    server happen and fail in the meantime and even when the secret behind it is
    rotated once. *)
Theorem report_address_outlives_rotation f issued t db db1 address events now clock g t' :
  0 <= issued <= now -> now <= issued + 48 * Hour -> clock <= issued + 48 * Hour ->
  (forall row, db !! SecretInstallationSecret = Some row ->
     decoded row <> Ok [] /\ forall p, s_previous row = Some p -> is_Some (Std_Decode p)) ->
  g_random f <> Some [] -> g_query g = false ->
  exec (CurrentSecurityID hmac_sha256 f issued t) db = (db1, Ok address) ->
  Forall (fun e => issued <= event_time e) events -> (length (filter is_rotation events) <= 1)%nat ->
  (exec (IsValidSecurityID hmac_sha256 g false address now clock t') (fold_left run_event events db1)).2 = Ok true.
Proof.
  intros Hi Hn Hclock Hdb Hrand Hg Hissue Ht Hone. unfold CurrentSecurityID in Hissue. rewrite exec_bind in Hissue.
  destruct (exec (GetOrCreateSecret f t SecretInstallationSecret) db) as [db1' got] eqn:Hget.
  destruct got as [secret|e]; [|done]. injection Hissue as -> <-.
  assert (secret <> [] /\ address_secret secret issued false db1) as [Hne Haddr].
  { destruct (exec_get _ _ _ _ _ _ Hget) as (_ & Hex & Hok). destruct (Hok secret eq_refl) as (row & Hrow & Hd).
    destruct (db !! SecretInstallationSecret) as [row0|] eqn:E.
    - destruct (Hex row0 eq_refl) as [-> _]. destruct (Hdb row0 eq_refl) as [Hz Hp]. assert (row0 = row) as -> by congruence. split; [congruence|].
      exists row, secret. split_and!; [done..|]. by left.
    - revert Hget. unfold GetOrCreateSecret. cbn [exec]. destruct (g_query f); [done|]. rewrite E. destruct (g_random f) as [raw|] eqn:Er; [|done].
      destruct (g_persist f); [done|]. cbn [exec]. unfold insert_absent. rewrite E, lookup_insert_eq. destruct (g_reload f); [done|]. cbn [exec].
      intros [= <- Hdec]. unfold decoded in Hdec. cbn [s_value] in Hdec. rewrite Std_Decode_Encode in Hdec. injection Hdec as ->. split; [congruence|].
      eexists _, secret. split; [apply lookup_insert_eq|]. split; [unfold decoded; cbn [s_value]; by rewrite Std_Decode_Encode|]. by left. }
  destruct (run_events_address _ _ _ _ Ht Hone Haddr) as (rotated & row & c & Hrow & Hc & Hv).
  unfold IsValidSecurityID. rewrite exec_bind, (exec_get_ok _ _ _ _ _ _ Hg Hrow Hc), exec_bind. cbn [PreviousSecret exec]. rewrite Hrow.
  destruct Hv as [[-> Hp]|(_ & Hp & u & Hu & Hle)].
  - destruct (s_previous row) as [p|]; [|destruct (s_until row); cbn [exec snd]; f_equal; apply issued_valid; auto].
    destruct (Hp p eq_refl) as [q Hq]. destruct (s_until row) as [u|]; [|cbn [exec snd]; f_equal; apply issued_valid; auto].
    destruct (u <? Unix clock); [|rewrite Hq]; cbn [exec snd]; f_equal; apply issued_valid; auto.
  - rewrite Hp, Hu. destruct (Z.ltb_spec u (Unix clock)) as [Hlt|_]; [pose proof (Unix_mono clock (issued + 48 * Hour)); lia|].
    rewrite Std_Decode_Encode. cbn [exec snd]. f_equal. apply issued_valid; auto.
Qed.
End report_address.
Definition toy_hmac (k m : gostr) : list Z := take 32 ((code <$> k ++ m) ++ replicate 32 0).
Lemma toy_hmac_length k m : length (toy_hmac k m) = 32%nat.
Proof. unfold toy_hmac. rewrite length_take, length_app, length_replicate. lia. Qed.
Definition draws (raw : string) : get_faults := mkGet false (Some (str raw)) false false.
Definition rotation (raw : string) (now : Z) : event := Rotated (mkRotate (draws raw) (Some (str raw)) false) now.
Lemma report_address_outlives_rotation_witness :
  match exec (CurrentSecurityID toy_hmac (draws "first") (100 * Hour) 360000) ∅ with
  | (db, Ok address) =>
      (exec (IsValidSecurityID toy_hmac (draws "x") false address (147 * Hour) (147 * Hour) 529200)
         (fold_left run_event [rotation "second" (101 * Hour)] db)).2 = Ok true
  | (_, Err _) => False
  end.
Proof.
  destruct (exec (CurrentSecurityID toy_hmac (draws "first") (100 * Hour) 360000) ∅) as [db r] eqn:E. destruct r as [address|e].
  - refine (report_address_outlives_rotation toy_hmac toy_hmac_length _ _ _ _ _ _ _ _ _ _ _ _ _ _ _ _ _ E _ _);
      [vm_compute; split; discriminate|vm_compute; discriminate|vm_compute; discriminate|done|done|done| |vm_compute; lia].
    constructor; [vm_compute; discriminate|constructor].
  - vm_compute in E. discriminate.
Defined.

(** ** Observations *)

(** A second rotation within the seven days drops the value the first one kept. *)
Lemma second_rotation_drops_grace :
  let db := fold_left run_event [rotation "second" (2 * Hour); rotation "third" (3 * Hour)]
              {[SecretInstallationSecret := mkSecret (Std_Encode (str "first")) None None (Some 0)]} in
  (exec (GetOrCreateSecret (draws "x") 0 SecretInstallationSecret) db).2 = Ok (str "third") /\
  (exec (PreviousSecret false (4 * Hour) SecretInstallationSecret) db).2 = Ok (Some (str "second")).
Proof. vm_compute. done. Qed.
(** Two rotations that run at once: the value of the first is in force for a moment and
    is neither current nor previous afterwards. *)
Lemma concurrent_rotations_lose_value :
  let db := {[SecretInstallationSecret := mkSecret (Std_Encode (str "first")) None None (Some 0)]} in
  let call raw := RotateSecret (mkRotate (draws raw) (Some (str raw)) false) (2 * Hour) 7200 SecretInstallationSecret in
  exists ps db', rtc pool_step ([call "a"%string; call "b"%string], db) (ps, db') /\ ps = [Ret (Ok tt); Ret (Ok tt)] /\
  option_map s_value (db' !! SecretInstallationSecret) = Some (Std_Encode (str "b")) /\
  (db' !! SecretInstallationSecret) ≫= s_previous = Some (Std_Encode (str "first")).
Proof.
  intros db call. eexists _, _. split.
  - eapply rtc_l; [by eapply (run_stmt _ 0)|]. eapply rtc_l; [by eapply (run_stmt _ 1)|].
    eapply rtc_l; [by eapply (run_stmt _ 0)|]. eapply rtc_l; [by eapply (run_stmt _ 1)|]. apply rtc_refl.
  - vm_compute. done.
Qed.
