(* ===== verification/Reports.v ===== *)
(** * Security reports: [security/report.go] with the form and the commands around it

    The table [security_reports] is a map from tracking identifiers to rows.  The
    operations of the package are programs over it or functions of it; the handler
    of [server/handler/pages.go] that accepts a report, and the commands of [main.go]
    that triage reports and rotate the key they are encrypted with, are built on
    them.  SHA-256, OpenPGP and the address parser are parameters.

    The theorems: a report is read once a day at most, however many requests race;
    an accepted report is stored encrypted, acknowledged and complete, a refused one
    leaves no trace; re-encryption keeps every plaintext; and a key rotation changes
    the reports all at once or not at all, and when it succeeds the saved key opens
    them.  Between the save of the new key and the commit of the reports it does not
    ([saved_key_ahead]). *)
From stdpp Require Import base list gmap strings relations.
From Stdlib Require Import ZArith Lia.
From S2P Require Import Prelude GoStrings GoUtf8 GoTime LogFormat GoUrl Settings Restore Startup Transact Secrets.
Local Open Scope Z_scope.
Local Open Scope go_scope.

(** ** The table *)

Record report_row := mkReport {
  encrypted_body : gostr; encryption : gostr; severity : gostr; affected_component : gostr; credit_preference : gostr;
  credit_name : gostr; disclosed_year : option Z; short_credit : gostr; status : gostr; maintainer_comment : option gostr;
  disclosure_date : option Z; closed_at : option Z; access_token_hash : gostr; last_access_day : option Z; created_at : Z }.
#[export] Instance report_row_eq_dec : EqDecision report_row.
Proof. solve_decision. Defined.
Abbreviation security_reports := (gmap gostr report_row).

Definition validSecuritySeverity (value : gostr) : bool :=
  bool_decide (value ∈ str <$> ["critical"; "high"; "medium"; "low"; "informational"]%string).
Definition validSecurityReportStatus (status : gostr) : bool :=
  bool_decide (status ∈ str <$> ["Received"; "Triaged"; "Confirmed"; "Patching"; "Disclosed"; "Won't Fix"]%string).

(** [strings.ToValidUTF8]: each run of invalid bytes becomes one replacement. *)
Fixpoint to_valid (replacement s : gostr) (skip : nat) (bad : bool) : gostr :=
  match s with
  | [] => []
  | c :: s' =>
      match skip with
      | S k => c :: to_valid replacement s' k false
      | O => let '(r, w) := decode_rune c s' in
             if (r =? RuneError) && (w =? 1)%nat then (if bad then [] else replacement) ++ to_valid replacement s' 0 true
             else c :: to_valid replacement s' (w - 1) false
      end
  end.
Definition ToValidUTF8 (s replacement : gostr) : gostr := to_valid replacement s 0 false.
(** [strings.Map] with a function that drops or keeps a rune. *)
Definition keep_runes (keeps : Z -> bool) (s : gostr) : gostr := string_of_runes (filter (fun r => keeps r = true) (runes s)).
Definition SanitizeReportComponent (value : gostr) : gostr :=
  let value := ToValidUTF8 value (encode_rune RuneError) in
  let value := keep_runes (fun r => negb ((r <? 32) || (r =? 127))) (TrimSpace value) in
  if 120 <? RuneCount value then string_of_runes (take 120 (runes value)) else value.

Section identifiers.
  Context (sha256 : gostr -> list Z).
(** [random] is what the source of 8 or 32 bytes delivers. *)
Definition NewSecurityTrackingID (random : option (list Z)) : option gostr := (fun raw => str "sec_" ++ (raw ≫= hex_pad 2)) <$> random.
Definition token_hash (token : gostr) : gostr := sha256 token ≫= hex_pad 2.
Definition NewSecurityAccessToken (random : option (list Z)) : option (gostr * gostr) :=
  (fun raw => let token := raw ≫= hex_pad 2 in (token, token_hash token)) <$> random.
End identifiers.

(** ** Storing and triage *)

Record SecurityReportMetadata := mkMetadata {
  m_TrackingID : gostr; m_Ciphertext : gostr; m_Encryption : gostr; m_Severity : gostr; m_AffectedComponent : gostr;
  m_CreditPreference : gostr; m_CreditName : gostr; m_ShortCredit : gostr; m_AccessTokenHash : gostr }.
Inductive report_error :=
| DatabaseUnavailable | InvalidMetadata | StoreFailed | ReadFailed | UnknownReport | InvalidToken | UsedToday | AccessExpired
| ConsumeFailed | InvalidTriage | CommentTooLong | UpdateFailed | DecryptFailedFor (id : gostr) | EncryptFailedFor (id : gostr) | UpdateFailedFor (id : gostr).
Definition new_row (m : SecurityReportMetadata) (db_now : Z) : report_row :=
  mkReport (m_Ciphertext m) (m_Encryption m) (m_Severity m) (SanitizeReportComponent (m_AffectedComponent m)) (m_CreditPreference m)
    (m_CreditName m) None (m_ShortCredit m) (str "Received") None None None (m_AccessTokenHash m) None db_now.
(** The insertion is refused for a known identifier and by the check on the
    encryption column. *)
Definition StoreSecurityReport (available insert_fails : bool) (db_now : Z) (m : SecurityReportMetadata)
  : prog security_reports (result report_error unit) :=
  if negb available then Ret (Err DatabaseUnavailable)
  else if negb (validSecuritySeverity (m_Severity m)) || (m_TrackingID m =s []) || (m_Ciphertext m =s []) then Ret (Err InvalidMetadata)
  else
    let refused (db : security_reports) :=
      insert_fails || bool_decide (is_Some (db !! m_TrackingID m)) || negb (bool_decide (m_Encryption m ∈ [str "pgp"; str "aes-256-gcm"])) in
    Stmt (fun db => if refused db then db else <[m_TrackingID m := new_row m db_now]> db)
         (fun db => Ret (if refused db then Err StoreFailed else Ok tt)).

Definition triaged (new_status comment : gostr) (disclosure closed year : option Z) (row : report_row) : report_row :=
  mkReport (encrypted_body row) (encryption row) (severity row) (affected_component row) (credit_preference row) (credit_name row)
    year (short_credit row) new_status (Some comment) disclosure closed (access_token_hash row) (last_access_day row) (created_at row).
Definition comment_keeps (r : Z) : bool := negb ((r <? 32) && negb (r =? 10) && negb (r =? 9) || (r =? 127)).
Definition UpdateSecurityReportTriage (available update_fails : bool) (trackingID new_status comment : gostr) (disclosureDate : option Time) (now : Time)
  : prog security_reports (result report_error unit) :=
  if negb available || (TrimSpace trackingID =s []) || negb (validSecurityReportStatus new_status) then Ret (Err InvalidTriage)
  else
    let comment := keep_runes comment_keeps (TrimSpace comment) in
    if 2000 <? RuneCount comment then Ret (Err CommentTooLong)
    else
      let disclosure := (fun d => Unix (unix_ns d)) <$> disclosureDate in
      let disclosedYear := if new_status =s str "Disclosed" then (fun d => year (UTC d)) <$> disclosureDate else None in
      let closed := if (new_status =s str "Disclosed") || (new_status =s str "Won't Fix") then Some (Unix (unix_ns now)) else None in
      if update_fails then Query (fun _ => Ret (Err UpdateFailed))
      else Stmt (alter (triaged new_status comment disclosure closed disclosedYear) trackingID)
             (fun db => Ret (match db !! trackingID with Some _ => Ok tt | None => Err UnknownReport end)).

(** ** Reading a report's state *)

Record SecurityReportStatus := mkStatus {
  rs_TrackingID : gostr; rs_Status : gostr; rs_Comment : gostr; rs_DisclosureDate : option Z; rs_ClosedAt : option Z }.
Definition thirty_days : Z := 30 * 24 * 3600.
Definition day_of (now : Z) : Z := Z.quot (Unix now) 86400.
Definition usable_before (day : Z) (row : report_row) : bool := match last_access_day row with None => true | Some last => last <? day end.
Definition with_access (day : Z) (row : report_row) : report_row :=
  mkReport (encrypted_body row) (encryption row) (severity row) (affected_component row) (credit_preference row) (credit_name row)
    (disclosed_year row) (short_credit row) (status row) (maintainer_comment row) (disclosure_date row) (closed_at row)
    (access_token_hash row) (Some day) (created_at row).
(** The conditional update and whether it found its row. *)
Definition consume (id : gostr) (day : Z) (db : security_reports) : security_reports :=
  match db !! id with Some row => if usable_before day row then <[id := with_access day row]> db else db | None => db end.
Definition consumes (id : gostr) (day : Z) (db : security_reports) : bool :=
  match db !! id with Some row => usable_before day row | None => false end.
Definition public_status (id : gostr) (row : report_row) : SecurityReportStatus :=
  mkStatus id (status row) (default [] (maintainer_comment row)) (disclosure_date row) (closed_at row).
Section access.
  Context (sha256 : gostr -> list Z).
Definition ConsumeSecurityAccessToken (read_fails write_fails : bool) (trackingID token : gostr) (now : Z)
  : prog security_reports (result report_error SecurityReportStatus) :=
  Query (fun db =>
    if read_fails then Ret (Err ReadFailed)
    else match db !! trackingID with
    | None => Ret (Err UnknownReport)
    | Some row =>
        if access_token_hash row <>s token_hash sha256 token then Ret (Err InvalidToken)
        else
          let day := day_of now in
          if negb (usable_before day row) then Ret (Err UsedToday)
          else if match closed_at row with Some closed => closed + thirty_days <? Unix now | None => false end then Ret (Err AccessExpired)
          else if write_fails then Query (fun _ => Ret (Err ConsumeFailed))
          else Stmt (consume trackingID day) (fun db =>
                 Ret (if consumes trackingID day db then Ok (public_status trackingID row) else Err UsedToday))
    end).
End access.

(** ** Rotation of the key *)

Section reencryption.
  Context `{SecretCipher}.
Definition report_info : gostr := str "security-reports".
Definition aes : gostr := str "aes-256-gcm".
Definition with_body (body : gostr) (row : report_row) : report_row :=
  mkReport body (encryption row) (severity row) (affected_component row) (credit_preference row) (credit_name row) (disclosed_year row)
    (short_credit row) (status row) (maintainer_comment row) (disclosure_date row) (closed_at row) (access_token_hash row)
    (last_access_day row) (created_at row).
(** What fails: the read of the rows, the nonces drawn per report, the updates. *)
Record reencrypt_faults := mkReencrypt { x_read : bool; x_nonce : gostr -> option gostr; x_update : gostr -> bool }.
Definition reencrypt_one (f : reencrypt_faults) (oldKey newKey : gostr) (report : gostr * gostr) (db : security_reports)
  : result report_error security_reports :=
  let '(id, ciphertext) := report in
  match DecryptWithSecret oldKey ciphertext report_info with
  | Err _ => Err (DecryptFailedFor id)
  | Ok plain =>
      match EncryptWithSecret (x_nonce f id) newKey plain report_info with
      | Err _ => Err (EncryptFailedFor id)
      | Ok sealed => if x_update f id then Err (UpdateFailedFor id) else Ok (alter (with_body sealed) id db)
      end
  end.
Fixpoint reencrypt_list (f : reencrypt_faults) (oldKey newKey : gostr) (reports : list (gostr * gostr)) (db : security_reports)
  : result report_error security_reports :=
  match reports with
  | [] => Ok db
  | report :: rest => let? db := reencrypt_one f oldKey newKey report db in reencrypt_list f oldKey newKey rest db
  end.
Definition aes_reports (db : security_reports) : list (gostr * gostr) :=
  (fun kv => (kv.1, encrypted_body kv.2)) <$> filter (fun kv => encryption kv.2 = aes) (map_to_list db).
(** The state of the transaction afterwards. *)
Definition ReencryptSecurityReportsTx (f : reencrypt_faults) (oldKey newKey : gostr) (db : security_reports) : result report_error security_reports :=
  if negb (Nat.eqb (length oldKey) 32) || negb (Nat.eqb (length newKey) 32) then Err InvalidMetadata
  else if x_read f then Err ReadFailed
  else reencrypt_list f oldKey newKey (aes_reports db) db.

(** [ssl.ReencryptDNSCredentialsEncrypted] *)
Definition dnsCredentialsInfo : gostr := str "dns_credentials".
Definition ReencryptDNSCredentialsEncrypted (nonce : option gostr) (encryptedB64 oldKey newKey : gostr) : option gostr :=
  let encryptedB64 := TrimSpace encryptedB64 in
  if encryptedB64 =s [] then Some []
  else match Std_Decode encryptedB64 with
  | None => None
  | Some ciphertext =>
      match DecryptWithSecret oldKey ciphertext dnsCredentialsInfo with
      | Err _ => None
      | Ok plaintext =>
          match EncryptWithSecret nonce newKey plaintext dnsCredentialsInfo with
          | Err _ => None
          | Ok sealed => Some (Std_Encode sealed)
          end
      end
  end.

(** The part of the configuration that goes with the key, and what the generator of the
    file ([generateConfigYAML]) writes of it: not the previous key. *)
Record key_config := mkKeys { EncryptionKey : gostr; PreviousEncryptionKey : gostr; PreviousEncryptionKeyUntil : Z; CredentialsEncrypted : gostr }.
Record saved_keys := mkSaved { s_key : gostr; s_dns : gostr }.
Definition generate_keys (cfg : key_config) : saved_keys := mkSaved (EncryptionKey cfg) (CredentialsEncrypted cfg).
(** The file a process that starts later reads; a damaged file says nothing. *)
Definition load_keys (file : option saved_keys) : option key_config := (fun k => mkKeys (s_key k) [] 0 (s_dns k)) <$> file.
(** How a save goes: the file is not opened, or it is emptied and then not written
    completely, or it is written.  The states of the file it goes through. *)
Inductive save_outcome := NotOpened | Damaged | Written.
Definition save_states (o : save_outcome) (cfg : key_config) : list (option saved_keys) :=
  match o with NotOpened => [] | Damaged => [None] | Written => [None; Some (generate_keys cfg)] end.
Record rotation_faults := mkRotation {
  n_random : option (list Z); n_dns_nonce : option gostr; n_begin : bool; n_reports : reencrypt_faults; n_save : save_outcome; n_commit : bool;
  n_restore : save_outcome }.
Inductive rotation_error := KeyUnreadable | KeyNotGenerated | DNSFailed | BeginFailed | ReportsFailed (e : report_error) | SaveFailed | CommitFailed.
(** The files and tables the command goes through, and its error.  The transaction is
    not visible before its commit. *)
Definition rotateEncryptionKey (f : rotation_faults) (now : Z) (cfg : key_config) (db : security_reports)
  : list (option saved_keys * security_reports) * option rotation_error :=
  match Std_Decode (EncryptionKey cfg) with
  | None => ([], Some KeyUnreadable)
  | Some oldKey =>
    match generateEncryptionKey (n_random f) with
    | None => ([], Some KeyNotGenerated)
    | Some newKeyB64 =>
      match Std_Decode newKeyB64 with
      | None => ([], Some KeyUnreadable)
      | Some newKey =>
        match ReencryptDNSCredentialsEncrypted (n_dns_nonce f) (CredentialsEncrypted cfg) oldKey newKey with
        | None => ([], Some DNSFailed)
        | Some reencryptedDNS =>
          if n_begin f then ([], Some BeginFailed)
          else match ReencryptSecurityReportsTx (n_reports f) oldKey newKey db with
          | Err e => ([], Some (ReportsFailed e))
          | Ok db' =>
              let cfg' := mkKeys newKeyB64 (EncryptionKey cfg) (Unix (now + 30 * 24 * Hour)) reencryptedDNS in
              let saved := (fun file => (file, db)) <$> save_states (n_save f) cfg' in
              match n_save f with
              | NotOpened | Damaged => (saved, Some SaveFailed)
              | Written =>
                  if n_commit f then (saved ++ ((fun file => (file, db)) <$> save_states (n_restore f) cfg), Some CommitFailed)
                  else (saved ++ [(Some (generate_keys cfg'), db')], None)
              end
          end
        end
      end
    end
  end.
End reencryption.

(** ** Re-encryption *)

Section reencryption_facts.
  Context `{SecretCipherLaws}.
Definition nonces_ok (f : reencrypt_faults) : Prop := forall id n, x_nonce f id = Some n -> length n = nonceSize.
(** What is encrypted with a secret for a purpose decrypts with them. *)
Lemma decrypt_encrypt_secret nonce secret plaintext info sealed :
  (forall n, nonce = Some n -> length n = nonceSize) -> EncryptWithSecret nonce secret plaintext info = Ok sealed -> DecryptWithSecret secret sealed info = Ok plaintext.
Proof.
  intros Hn. unfold EncryptWithSecret. destruct nonce as [n|]; [|done]. intros [= <-]. specialize (Hn n eq_refl). unfold DecryptWithSecret.
  rewrite length_app, Hn. destruct (Nat.ltb_spec (nonceSize + length (gcm_seal (deriveAESKey secret info) n plaintext)) nonceSize); [lia|].
  rewrite take_app_length', drop_app_length' by done. by rewrite gcm_open_seal.
Qed.
Lemma reencrypt_list_spec f oldKey newKey reports db db' :
  nonces_ok f -> NoDup reports.*1 -> (forall id body, (id, body) ∈ reports -> exists row, db !! id = Some row) ->
  reencrypt_list f oldKey newKey reports db = Ok db' ->
  (forall id, id ∉ reports.*1 -> db' !! id = db !! id) /\
  (forall id body row, (id, body) ∈ reports -> db !! id = Some row ->
     exists plain sealed, DecryptWithSecret oldKey body report_info = Ok plain /\
       db' !! id = Some (with_body sealed row) /\ DecryptWithSecret newKey sealed report_info = Ok plain).
Proof.
  intros Hn. revert db. induction reports as [|[id body] reports IH]; intros db Hnd Hin; cbn [reencrypt_list].
  { intros [= <-]. split; [done|]. by intros ? ? ? ?%elem_of_nil. }
  rewrite fmap_cons in *. apply NoDup_cons in Hnd as [Hid Hnd]. cbn [fst] in *.
  unfold reencrypt_one. destruct (DecryptWithSecret oldKey body report_info) as [plain|] eqn:Hd; [|done].
  destruct (EncryptWithSecret (x_nonce f id) newKey plain report_info) as [sealed|] eqn:He; [|done]. destruct (x_update f id); [done|]. cbn [rbind]. intros Hr.
  destruct (IH (alter (with_body sealed) id db)) as [Hout Hon]; [done| |done|].
  { intros id' body' Hin'. destruct (Hin id' body') as [row Hrow]; [by right|]. destruct (decide (id' = id)) as [->|Hne].
    - rewrite lookup_alter_eq, Hrow. by eexists.
    - rewrite lookup_alter_ne by congruence. by eexists. }
  split.
  - intros k [Hk1 Hk2]%not_elem_of_cons. rewrite Hout by done. by rewrite lookup_alter_ne by congruence.
  - intros k b row [[= -> ->]|Hk]%elem_of_cons Hrow.
    + exists plain, sealed. split_and!; [done| |by eapply decrypt_encrypt_secret, He; apply Hn]. rewrite Hout by done. by rewrite lookup_alter_eq, Hrow.
    + assert (k <> id) as Hne by (intros ->; apply Hid, list_elem_of_fmap; by exists (id, b)).
      apply Hon; [done|]. by rewrite lookup_alter_ne by congruence.
Qed.
Lemma elem_of_aes_reports db id body : (id, body) ∈ aes_reports db <-> exists row, db !! id = Some row /\ encryption row = aes /\ body = encrypted_body row.
Proof.
  unfold aes_reports. rewrite list_elem_of_fmap. split.
  - intros ([k row] & [= -> ->] & [He Hk]%list_elem_of_filter). apply elem_of_map_to_list in Hk. by exists row.
  - intros (row & Hrow & He & ->). exists (id, row). split; [done|]. apply list_elem_of_filter. split; [done|]. by apply elem_of_map_to_list.
Qed.
Lemma aes_reports_nodup db : NoDup (aes_reports db).*1.
Proof.
  unfold aes_reports. rewrite <- list_fmap_compose. apply (NoDup_fmap_filter fst). apply NoDup_fst_map_to_list.
Qed.
Lemma reencrypt_tx_spec f oldKey newKey db db' :
  nonces_ok f -> ReencryptSecurityReportsTx f oldKey newKey db = Ok db' ->
  dom db' = dom db /\ forall id row, db !! id = Some row ->
  if bool_decide (encryption row = aes) then
    exists plain sealed, DecryptWithSecret oldKey (encrypted_body row) report_info = Ok plain /\
      db' !! id = Some (with_body sealed row) /\ DecryptWithSecret newKey sealed report_info = Ok plain
  else db' !! id = Some row.
Proof.
  intros Hn. unfold ReencryptSecurityReportsTx. destruct (_ || _); [done|]. destruct (x_read f); [done|]. intros Hr.
  destruct (reencrypt_list_spec f oldKey newKey (aes_reports db) db db') as [Hout Hon]; [done|apply aes_reports_nodup| |done|].
  { intros id body (row & Hrow & _)%elem_of_aes_reports. by exists row. }
  assert (forall id row, db !! id = Some row -> encryption row <> aes -> id ∉ (aes_reports db).*1) as Hno.
  { intros id row Hrow He ([k b] & -> & (row' & Hrow' & He' & _)%elem_of_aes_reports)%list_elem_of_fmap. cbn in Hrow. congruence. }
  assert (forall id row, db !! id = Some row ->
    if bool_decide (encryption row = aes) then exists plain sealed, DecryptWithSecret oldKey (encrypted_body row) report_info = Ok plain /\
      db' !! id = Some (with_body sealed row) /\ DecryptWithSecret newKey sealed report_info = Ok plain else db' !! id = Some row) as Hall.
  { intros id row Hrow. case_bool_decide as He.
    - apply (Hon id (encrypted_body row) row); [|done]. apply elem_of_aes_reports. by exists row.
    - rewrite Hout by (by eapply Hno). done. }
  split; [|exact Hall]. apply set_eq. intros id. rewrite !elem_of_dom. destruct (db !! id) as [row|] eqn:E.
  - specialize (Hall id row E). case_bool_decide; [destruct Hall as (? & ? & _ & -> & _); done|by rewrite Hall].
  - rewrite Hout; [by rewrite E|]. intros ([k b] & -> & (row' & Hrow' & _)%elem_of_aes_reports)%list_elem_of_fmap. cbn in E. congruence.
Qed.

(** The DNS credentials of a file open with its key. *)
Definition dns_opens (k : saved_keys) (plain : gostr) : Prop :=
  exists key ciphertext, Std_Decode (s_key k) = Some key /\ Std_Decode (TrimSpace (s_dns k)) = Some ciphertext /\
    DecryptWithSecret key ciphertext dnsCredentialsInfo = Ok plain.
Lemma Std_Encode_visible s : forallb visible (Std_Encode s) = true.
Proof.
  unfold Std_Encode. rewrite forallb_app. apply andb_true_iff. split; apply forallb_forall; intros c Hc%list_elem_of_In.
  - apply list_elem_of_fmap in Hc as (d & -> & Hd). pose proof (encoded_digits s) as H1. rewrite Forall_forall in H1. destruct (H1 d Hd) as (n & Hn & ->).
    clear Hd H1. revert n Hn. apply (below_64 (fun n => visible (std_char (b64_digit n)))). by vm_compute.
  - by apply elem_of_replicate in Hc as [-> _].
Qed.
Lemma reencrypted_dns nonce b64 oldKey newKey b64' plain :
  (forall n, nonce = Some n -> length n = nonceSize) -> ReencryptDNSCredentialsEncrypted nonce b64 oldKey newKey = Some b64' ->
  (exists ciphertext, Std_Decode (TrimSpace b64) = Some ciphertext /\ DecryptWithSecret oldKey ciphertext dnsCredentialsInfo = Ok plain) ->
  exists ciphertext, Std_Decode (TrimSpace b64') = Some ciphertext /\ DecryptWithSecret newKey ciphertext dnsCredentialsInfo = Ok plain.
Proof.
  intros Hn Hr (ciphertext & Hc & Hp). unfold ReencryptDNSCredentialsEncrypted in Hr. destruct (_ =s []) eqn:E.
  - apply bool_decide_eq_true in E. rewrite E in Hc. injection Hc as <-. done.
  - rewrite Hc, Hp in Hr. destruct (EncryptWithSecret nonce newKey plain dnsCredentialsInfo) as [sealed|] eqn:He; [|done]. injection Hr as <-.
    exists sealed. rewrite TrimSpace_visible by apply Std_Encode_visible. split; [apply Std_Decode_Encode|]. by eapply decrypt_encrypt_secret.
Qed.
(** The courses of a rotation that reaches the save. *)
Lemma rotation_cases f now cfg db states err :
  rotateEncryptionKey f now cfg db = (states, err) ->
  states = [] /\ err <> None /\ err <> Some CommitFailed \/
  exists old newB64 new dns db', Std_Decode (EncryptionKey cfg) = Some old /\ Std_Decode newB64 = Some new /\
    ReencryptDNSCredentialsEncrypted (n_dns_nonce f) (CredentialsEncrypted cfg) old new = Some dns /\
    ReencryptSecurityReportsTx (n_reports f) old new db = Ok db' /\
    (err = Some SaveFailed /\ states = [(None, db)] \/
     err = Some CommitFailed /\
       states = [(None, db); (Some (mkSaved newB64 dns), db)] ++ ((fun file => (file, db)) <$> save_states (n_restore f) cfg) \/
     err = None /\ states = [(None, db); (Some (mkSaved newB64 dns), db); (Some (mkSaved newB64 dns), db')]).
Proof.
  unfold rotateEncryptionKey. destruct (Std_Decode (EncryptionKey cfg)) as [old|] eqn:Ho; [|intros [= <- <-]; by left].
  destruct (generateEncryptionKey (n_random f)) as [newB64|]; [|intros [= <- <-]; by left].
  destruct (Std_Decode newB64) as [new|] eqn:Hn; [|intros [= <- <-]; by left].
  destruct (ReencryptDNSCredentialsEncrypted _ _ _ _) as [dns|] eqn:Hd; [|intros [= <- <-]; by left].
  destruct (n_begin f); [intros [= <- <-]; by left|]. destruct (ReencryptSecurityReportsTx _ _ _ _) as [db'|] eqn:Hr; [|intros [= <- <-]; by left].
  destruct (n_save f); [intros [= <- <-]; by left| |]; intros Hs; right; exists old, newB64, new, dns, db'; (split_and!; [done..|]).
  - injection Hs as <- <-. by left.
  - destruct (n_commit f); injection Hs as <- <-; auto.
Qed.
(** The reports under another key: the same identifiers and columns, the encrypted ones
    sealed anew with their text kept, the others as they were. *)
Definition rekeyed (old new : gostr) (db d : security_reports) : Prop :=
  dom d = dom db /\ forall id row, db !! id = Some row ->
  if bool_decide (encryption row = aes) then
    exists plain sealed, DecryptWithSecret old (encrypted_body row) report_info = Ok plain /\
      d !! id = Some (with_body sealed row) /\ DecryptWithSecret new sealed report_info = Ok plain
  else d !! id = Some row.
(** C24. A rotation of the key changes the reports all at once or not at all: in every
    state it goes through, whatever fails, the table is the one before, until a commit
    that ends it without an error.  Then the key in the saved file opens every encrypted
    report, to the text it had, and the DNS credentials, and all else of the table is as
    it was.  An error before the save leaves the file and the table alone; after a failed
    commit the file is the one before when it could be written back. *)
Theorem key_rotation_readable f now cfg db states err :
  nonces_ok (n_reports f) -> (forall n, n_dns_nonce f = Some n -> length n = nonceSize) ->
  rotateEncryptionKey f now cfg db = (states, err) ->
  (forall file d, (file, d) ∈ states -> d = db \/ err = None /\ last states = Some (file, d)) /\
  match err with
  | None => exists old new saved d, last states = Some (Some saved, d) /\
      Std_Decode (EncryptionKey cfg) = Some old /\ Std_Decode (s_key saved) = Some new /\ rekeyed old new db d /\
      (forall plain, dns_opens (generate_keys cfg) plain -> dns_opens saved plain)
  | Some SaveFailed => states = [] \/ states = [(None, db)]
  | Some CommitFailed => n_restore f = Written -> last states = Some (Some (generate_keys cfg), db)
  | Some _ => states = []
  end.
Proof.
  intros Hnon Hdns Hrot.
  destruct (rotation_cases _ _ _ _ _ _ Hrot) as [(-> & He & Hc)|(old & newB64 & new & dns & db' & Hold & Hnew & Hd & Htx & Hcases)].
  { split; [by intros ? ? ?%elem_of_nil|]. destruct err as [[]|]; by auto. }
  destruct Hcases as [(-> & ->)|[(-> & ->)|(-> & ->)]].
  - split; [|by right]. intros file d [= -> ->]%list_elem_of_singleton. by left.
  - split.
    + intros file d Hin. left. cbn [app] in Hin. apply elem_of_cons in Hin as [[= _ ->]|[[= _ ->]|Hin]%elem_of_cons]; [done..|].
      by apply list_elem_of_fmap in Hin as (x & [= _ ->] & _).
    + by intros ->.
  - split.
    + intros file d Hin. rewrite !elem_of_cons, elem_of_nil in Hin.
      destruct Hin as [[= _ ->]|[[= _ ->]|[[= -> ->]|[]]]]; [by left..|by right].
    + exists old, new, (mkSaved newB64 dns), db'. split_and!; [done..|by apply (reencrypt_tx_spec (n_reports f))|].
      intros plain (k & ct & Hk & Hct & Hp). cbn [generate_keys s_key s_dns] in Hk, Hct. rewrite Hold in Hk. injection Hk as <-.
      destruct (reencrypted_dns _ _ _ _ _ plain Hdns Hd) as (ct' & ? & ?); [by exists ct|]. by exists new, ct'.
Qed.
End reencryption_facts.

(** ** One look a day *)

Section reading.
  Context (sha256 : gostr -> list Z).
Record call := mkCall { c_read_fails : bool; c_write_fails : bool; c_id : gostr; c_token : gostr; c_now : Z }.
Definition call_prog (c : call) : prog security_reports (result report_error SecurityReportStatus) :=
  ConsumeSecurityAccessToken sha256 (c_read_fails c) (c_write_fails c) (c_id c) (c_token c) (c_now c).
Definition call_day (c : call) : Z := day_of (c_now c).
(** What a token opens: the state of its report, if it was not read on that day or
    later and not closed for more than thirty days. *)
Definition entitled (c : call) (row : report_row) : Prop :=
  access_token_hash row = token_hash sha256 (c_token c) /\
  match closed_at row with Some closed => Unix (c_now c) <= closed + thirty_days | None => True end.
Definition write_stage (c : call) (row : report_row) : prog security_reports (result report_error SecurityReportStatus) :=
  Stmt (consume (c_id c) (call_day c)) (fun db =>
    Ret (if consumes (c_id c) (call_day c) db then Ok (public_status (c_id c) row) else Err UsedToday)).
(** The rows apart from the day they were last read. *)
Definition same_rows (db db' : security_reports) : Prop := forall id, with_access 0 <$> db !! id = with_access 0 <$> db' !! id.
Definition read_on (id : gostr) (day : Z) (db : security_reports) : Prop :=
  exists row last, db !! id = Some row /\ last_access_day row = Some last /\ day <= last.
Inductive call_at (c : call) (db0 db : security_reports) : prog security_reports (result report_error SecurityReportStatus) -> Prop :=
| call_start : call_at c db0 db (call_prog c)
| call_failing e : call_at c db0 db (Query (fun _ => Ret (Err e)))
| call_error e : call_at c db0 db (Ret (Err e))
| call_write row row0 : db0 !! c_id c = Some row0 -> with_access 0 row = with_access 0 row0 -> entitled c row0 -> call_at c db0 db (write_stage c row)
| call_done row row0 : db0 !! c_id c = Some row0 -> with_access 0 row = with_access 0 row0 -> entitled c row0 -> read_on (c_id c) (call_day c) db ->
    call_at c db0 db (Ret (Ok (public_status (c_id c) row))).
Lemma consume_same id day db : same_rows (consume id day db) db.
Proof.
  intros k. unfold consume. destruct (db !! id) as [row|] eqn:E; [|done]. destruct (usable_before day row); [|done].
  destruct (decide (k = id)) as [->|Hne]; [by rewrite lookup_insert_eq, E|]. by rewrite lookup_insert_ne by congruence.
Qed.
Lemma consume_read_on id day id' day' db : read_on id day db -> read_on id day (consume id' day' db).
Proof.
  intros (row & last & Hrow & Hlast & Hle). unfold consume. destruct (db !! id') as [row'|] eqn:E; [|by exists row, last].
  destruct (usable_before day' row') eqn:Eu; [|by exists row, last]. destruct (decide (id' = id)) as [->|Hne].
  - rewrite Hrow in E. injection E as <-. unfold usable_before in Eu. rewrite Hlast in Eu.
    exists (with_access day' row), day'. rewrite lookup_insert_eq. split_and!; [done..|]. lia.
  - exists row, last. rewrite lookup_insert_ne by congruence. done.
Qed.
Lemma consumes_spec id day db : consumes id day db = true -> read_on id day (consume id day db) /\ ~ read_on id day db.
Proof.
  unfold consumes, consume. destruct (db !! id) as [row|] eqn:E; [|done]. intros Hu. rewrite Hu. split.
  - exists (with_access day row), day. rewrite lookup_insert_eq. split_and!; [done..|lia].
  - intros (row' & last & Hrow & Hlast & Hle). rewrite E in Hrow. injection Hrow as <-. unfold usable_before in Hu. rewrite Hlast in Hu. lia.
Qed.
Lemma same_rows_fact db db0 id row : same_rows db db0 -> db !! id = Some row ->
  exists row0, db0 !! id = Some row0 /\ with_access 0 row = with_access 0 row0.
Proof. intros Hs Hrow. specialize (Hs id). rewrite Hrow in Hs. destruct (db0 !! id) as [row0|]; [|done]. exists row0. split; [done|]. by apply (inj Some). Qed.
(** The statement a call is about to run changes only the day of its own report. *)
Lemma call_at_update c db0 db update rest :
  call_at c db0 db (Stmt update rest) -> update db = db \/ update db = consume (c_id c) (call_day c) db.
Proof.
  intros Hc. remember (Stmt update rest) as p eqn:Hp.
  destruct Hc; try discriminate Hp; injection Hp as <- _; auto.
Qed.
Lemma call_at_own c db0 db update rest :
  same_rows db db0 -> call_at c db0 db (Stmt update rest) ->
  call_at c db0 (update db) (rest db) /\ (forall st, rest db = Ret (Ok st) -> ~ read_on (c_id c) (call_day c) db).
Proof.
  intros Hsame Hc. remember (Stmt update rest) as p eqn:Hp. destruct Hc as [|e|e|row row0 H0 Hrow He|]; try discriminate Hp; injection Hp as <- <-.
  - destruct (c_read_fails c); [by split; [constructor|]|]. destruct (db !! c_id c) as [row|] eqn:Hrow; [|by split; [constructor|]].
    destruct (same_rows_fact _ _ _ _ Hsame Hrow) as (row0 & Hrow0 & Heq).
    destruct (access_token_hash row <>s token_hash sha256 (c_token c)) eqn:Hh; [by split; [constructor|]|].
    destruct (negb (usable_before (day_of (c_now c)) row)); [by split; [constructor|]|].
    destruct (match closed_at row with Some _ => _ | None => _ end) eqn:Hcl; [by split; [constructor|]|].
    destruct (c_write_fails c); [by split; [constructor|]|]. split; [|done]. apply (call_write c db0 db row row0); [done..|].
    unfold with_access in Heq. injection Heq as _ _ _ _ _ _ _ _ _ _ _ Hclosed Hhash _. bool_facts. split; [congruence|]. rewrite <- Hclosed.
    destruct (closed_at row); [bool_facts; lia|done].
  - split; [constructor|done].
  - unfold write_stage in *. destruct (consumes (c_id c) (call_day c) db) eqn:Hcon.
    + destruct (consumes_spec _ _ _ Hcon) as [H1 H2]. split; [by eapply call_done|done].
    + split; [constructor|done].
Qed.
Lemma call_at_others c c' db0 db update rest q :
  call_at c db0 db (Stmt update rest) -> call_at c' db0 db q -> call_at c' db0 (update db) q.
Proof.
  intros Hc Hq. assert (forall id day, read_on id day db -> read_on id day (update db)) as Hr.
  { intros id day Hrd. destruct (call_at_update _ _ _ _ _ Hc) as [-> | ->]; [done|by apply consume_read_on]. }
  destruct Hq; econstructor; eauto.
Qed.
Definition calls_ok (calls : list call) (db0 : security_reports) (ps : list (prog security_reports (result report_error SecurityReportStatus)))
    (db : security_reports) : Prop :=
  same_rows db db0 /\
  (forall i p, ps !! i = Some p -> exists c, calls !! i = Some c /\ call_at c db0 db p) /\
  (forall i j c c' st st', i <> j -> calls !! i = Some c -> calls !! j = Some c' -> ps !! i = Some (Ret (Ok st)) -> ps !! j = Some (Ret (Ok st')) ->
     c_id c = c_id c' -> call_day c <> call_day c').
Lemma done_read_on c db0 db st : call_at c db0 db (Ret (Ok st)) -> read_on (c_id c) (call_day c) db.
Proof. intros Hc. by inversion Hc. Qed.
Lemma calls_step calls db0 ps i update rest db :
  ps !! i = Some (Stmt update rest) -> calls_ok calls db0 ps db -> calls_ok calls db0 (<[i := rest db]> ps) (update db).
Proof.
  intros Hi (Hsame & Hall & Hex). destruct (Hall i _ Hi) as (c & Hc & Hat). destruct (call_at_own _ _ _ _ _ Hsame Hat) as [Hown Hnew].
  assert (i < length ps)%nat as Hlen by (by eapply lookup_lt_Some). split_and!.
  - intros id. destruct (call_at_update _ _ _ _ _ Hat) as [-> | ->]; [done|]. by rewrite consume_same.
  - intros j p Hj. destruct (decide (j = i)) as [->|Hne].
    + rewrite list_lookup_insert_eq in Hj by done. injection Hj as <-. by exists c.
    + rewrite list_lookup_insert_ne in Hj by congruence. destruct (Hall j p Hj) as (c' & Hc' & Hp). exists c'. split; [done|]. by eapply call_at_others.
  - assert (forall j c' st st', j <> i -> calls !! j = Some c' -> rest db = Ret (Ok st) -> ps !! j = Some (Ret (Ok st')) -> c_id c = c_id c' -> call_day c <> call_day c') as Hx.
    { intros j c' st st' Hne Hc' Hr Hj Hid Hday. apply (Hnew st Hr). destruct (Hall j _ Hj) as (c'' & Hc'' & Hp). simplify_eq.
      rewrite Hid, Hday. by eapply done_read_on. }
    intros j k cj ck st st' Hjk Hcj Hck Hj Hk Hid. destruct (decide (j = i)) as [->|Hji].
    + rewrite list_lookup_insert_eq in Hj by done. injection Hj as Hj. rewrite list_lookup_insert_ne in Hk by congruence. assert (cj = c) as -> by congruence.
      eapply (Hx k); eauto.
    + rewrite list_lookup_insert_ne in Hj by congruence. destruct (decide (k = i)) as [->|Hki].
      * rewrite list_lookup_insert_eq in Hk by done. injection Hk as Hk. assert (ck = c) as -> by congruence. intros Hday. symmetry in Hday. revert Hday. eapply (Hx j); eauto.
      * rewrite list_lookup_insert_ne in Hk by congruence. by eapply (Hex j k).
Qed.
(** C23. However many requests for reports race and fail, a request that is answered
    shows the state of a report whose token it has and that was not closed more than
    thirty days before, and no two answered requests for a report are on one day. *)
Theorem one_look_a_day calls db ps db' i c st :
  rtc pool_step (call_prog <$> calls, db) (ps, db') -> calls !! i = Some c -> ps !! i = Some (Ret (Ok st)) ->
  (exists row, db !! c_id c = Some row /\ entitled c row /\ st = public_status (c_id c) row) /\
  forall j c' st', i <> j -> calls !! j = Some c' -> ps !! j = Some (Ret (Ok st')) -> c_id c = c_id c' -> call_day c <> call_day c'.
Proof.
  intros Hrun Hc Hi. assert (calls_ok calls db ps db') as (Hsame & Hall & Hex).
  { eapply (pool_induction (calls_ok calls db)); [apply calls_step|exact Hrun|]. split_and!; [done| |].
    - intros k p Hk. apply list_lookup_fmap_Some in Hk as (ck & -> & Hk). exists ck. split; [done|constructor].
    - intros k l ck cl s1 s2 _ _ _ Hk. apply list_lookup_fmap_Some in Hk as (? & Hk & _). done. }
  split.
  - destruct (Hall i _ Hi) as (c0 & Hc0 & Hat). assert (c0 = c) as -> by congruence. inversion Hat as [| | | |row row0 H0 Heq He Hr]; subst.
    exists row0. split_and!; [done..|]. unfold with_access in Heq. unfold public_status. injection Heq as _ _ _ _ _ _ _ _ Hst Hcm Hd Hcl _ _. congruence.
  - intros j c' st' Hne Hc' Hj Hid. by eapply (Hex i j).
Qed.
End reading.
Definition toy_sha (s : gostr) : list Z := code <$> s.
Definition open_report : report_row :=
  mkReport (str "x") aes (str "high") (str "api") (str "no") [] None (str "c") (str "Triaged") (Some (str "thanks")) None None
    (token_hash toy_sha (str "t")) None 0.
Definition two_reads : list call := [mkCall false false (str "sec_1") (str "t") (50 * Hour); mkCall false false (str "sec_1") (str "t") (80 * Hour)].
Lemma one_look_a_day_witness : call_day (mkCall false false (str "sec_1") (str "t") (50 * Hour)) <> call_day (mkCall false false (str "sec_1") (str "t") (80 * Hour)).
Proof.
  refine (proj2 (one_look_a_day toy_sha two_reads {[str "sec_1" := open_report]} [Ret (Ok (public_status (str "sec_1") open_report)); Ret (Ok (public_status (str "sec_1") open_report))]
    {[str "sec_1" := with_access 3 open_report]} 0 (mkCall false false (str "sec_1") (str "t") (50 * Hour)) (public_status (str "sec_1") open_report) _ eq_refl eq_refl)
    1%nat _ (public_status (str "sec_1") open_report) ltac:(lia) eq_refl eq_refl eq_refl).
  eapply rtc_l; [by eapply (run_stmt _ 0)|]. eapply rtc_l; [by eapply (run_stmt _ 1)|]. eapply rtc_l; [by eapply (run_stmt _ 0)|].
  eapply rtc_l; [by eapply (run_stmt _ 1)|].
  match goal with |- rtc _ ?a ?b => replace a with b by (vm_compute; reflexivity) end. apply rtc_refl.
Defined.

Definition toy_cipher : SecretCipher := {|
  hkdf s i := s ++ i; gcm_seal k n p := k ++ p; gcm_open k n c := if HasPrefix c k then Some (drop (length k) c) else None |}.
Lemma toy_laws : @SecretCipherLaws toy_cipher.
Proof. constructor. intros k n p. cbn. by rewrite HasPrefix_app, drop_app_length. Qed.
Definition key_a : gostr := replicate 32 "a"%char.
Definition nonce12 : gostr := replicate 12 "n"%char.
Definition sealed_a : gostr := nonce12 ++ (key_a ++ str "security-reports") ++ str "secret".
Definition a_report : report_row :=
  mkReport sealed_a aes (str "high") (str "api") (str "no") [] None (str "c") (str "Received") None None None (str "h") None 0.
Definition a_rotation (commit : bool) (restore : save_outcome) : rotation_faults :=
  mkRotation (Some (replicate 32 98)) (Some nonce12) false (mkReencrypt false (fun _ => Some nonce12) (fun _ => false)) Written commit restore.
Definition a_table : security_reports := {[str "sec_1" := a_report]}.
Definition rotated (commit : bool) (restore : save_outcome) := rotateEncryptionKey (H := toy_cipher) (a_rotation commit restore) 0 (mkKeys (Std_Encode key_a) [] 0 []) a_table.
Lemma key_rotation_readable_witness : exists old new saved d, last (rotated false Written).1 = Some (Some saved, d) /\
  Std_Decode (Std_Encode key_a) = Some old /\ Std_Decode (s_key saved) = Some new /\ rekeyed (H := toy_cipher) old new a_table d.
Proof.
  destruct (rotated false Written) as [states err] eqn:E.
  assert (nonces_ok (n_reports (a_rotation false Written))) as Hn by (intros id n [= <-]; reflexivity).
  assert (forall n, n_dns_nonce (a_rotation false Written) = Some n -> length n = nonceSize) as Hd by (intros n [= <-]; reflexivity).
  pose proof (proj2 (key_rotation_readable (H := toy_cipher) (H0 := toy_laws) _ _ _ _ _ _ Hn Hd E)) as Hr.
  assert ((rotated false Written).2 = None) as Herr by (vm_compute; reflexivity). rewrite E in Herr. cbn [snd] in Herr. subst err.
  destruct Hr as (old & new & saved & d & Hl & Ho & Hs & Hk & _). cbn [EncryptionKey] in Ho.
  exact (ex_intro _ old (ex_intro _ new (ex_intro _ saved (ex_intro _ d (conj Hl (conj Ho (conj Hs Hk))))))).
Defined.

(** *** Where a rotation stops short *)

(** Does the key of a file open the report of the sample table? *)
Definition file_opens (file : option saved_keys) (d : security_reports) : bool :=
  match file, d !! str "sec_1" with
  | Some k, Some row => match Std_Decode (s_key k) with
                        | Some key => match DecryptWithSecret (H := toy_cipher) key (encrypted_body row) report_info with Ok _ => true | Err _ => false end
                        | None => false
                        end
  | _, _ => false
  end.
(** The configuration is saved before the reports are committed: until then, and for good
    when the commit fails and the old configuration cannot be written back, the saved key
    does not open the stored reports. *)
Lemma saved_key_ahead :
  (fun st => file_opens st.1 st.2) <$> (rotated false Written).1 = [false; false; true] /\
  (fun st => file_opens st.1 st.2) <$> (rotated true NotOpened).1 = [false; false].
Proof. split; vm_compute; reflexivity. Qed.
(** The key of the grace period is not in the file: a process that starts after the
    rotation does not have it. *)
Lemma grace_key_not_saved :
  (fun st => PreviousEncryptionKey <$> load_keys st.1) <$> last (rotated false Written).1 = Some (Some []).
Proof. vm_compute. reflexivity. Qed.
