(* ===== verification/Submission.v ===== *)
(** * Submitting a security report: the form of [server/handler/pages.go]

    The arithmetic question of the contact form with its sealed answer, and the
    handler that checks a report, encrypts and stores it, acknowledges it to the
    reporter and tells the operator.  Both work on the tables of [Secrets] and
    [Reports]; the decoder of JSON, the parser of mail addresses, OpenPGP, the fetch
    of a key ([Fetch]) and the translation of texts ([I18n]) are parameters.

    The theorems: the right answer of a question is accepted until it expires and no
    other answer is; a report that is accepted is stored once, under an unused
    identifier, encrypted with all its content; of a reporter who does not ask for
    credit the plaintext part holds the severity and the component only; a report that
    is refused leaves no row. *)
From stdpp Require Import base list gmap strings relations.
From Stdlib Require Import ZArith Lia.
From S2P Require Import Prelude GoStrings GoUtf8 GoTime LogFormat GoUrl Settings Restore Startup Transact Secrets Reports.
Local Open Scope Z_scope.
Local Open Scope go_scope.

(** ** The question *)

Record simpleCaptchaPayload := mkPayload { Answer : gostr; Expires : Z; Nonce : gostr }.
Definition payload_json (p : simpleCaptchaPayload) : json :=
  JStruct [(str "answer", JStr (Answer p)); (str "expires", JInt (Expires p)); (str "nonce", JStr (Nonce p))].
Definition captcha_info : gostr := str "contact-captcha".

Section captcha.
  Context `{SecretCipher} (unmarshal : gostr -> option simpleCaptchaPayload).
(** What the random source delivers, and what fails. *)
Record captcha_draw := mkDraw { first : option Z; second : option Z; captcha_nonce : option gostr; captcha_get : get_faults; seal_nonce : option gostr }.
Definition newSimpleCaptcha (available : bool) (d : captcha_draw) (now db_now : Z) : prog app_secrets (option (gostr * gostr)) :=
  if negb available then Ret None
  else match first d, second d, captcha_nonce d with
  | Some a, Some b, Some nonce =>
      match Marshal (payload_json (mkPayload (Itoa (a + b)) (Unix (now + 20 * Minute)) (b64_encode nonce))) with
      | None => Ret None
      | Some payload =>
          let! got := GetOrCreateSecret (captcha_get d) db_now SecretCSRFTokenSecret in
          match got with
          | Err _ => Ret None
          | Ok secret =>
              match EncryptWithSecret (seal_nonce d) secret payload captcha_info with
              | Err _ => Ret None
              | Ok sealed => Ret (Some (str "What is " ++ Itoa a ++ str " + " ++ Itoa b ++ str "?", b64_encode sealed))
              end
          end
      end
  | _, _, _ => Ret None
  end.
Definition verifySimpleCaptcha (available : bool) (f : get_faults) (db_now : Z) (token answer : gostr) (now : Z) : prog app_secrets bool :=
  if negb available || (token =s []) || (TrimSpace answer =s []) then Ret false
  else match RawURL_Decode token with
  | None => Ret false
  | Some sealed =>
      let! got := GetOrCreateSecret f db_now SecretCSRFTokenSecret in
      match got with
      | Err _ => Ret false
      | Ok secret =>
          match DecryptWithSecret secret sealed captcha_info with
          | Err _ => Ret false
          | Ok plain =>
              match unmarshal plain with
              | None => Ret false
              | Some payload =>
                  if (Expires payload <? Unix now) || (Nonce payload =s []) then Ret false else Ret (TrimSpace answer =s Answer payload)
              end
          end
      end
  end.
End captcha.

(** ** The report *)

Record ContactRequest := mkContactRequest {
  q_Name : gostr; q_Handle : gostr; q_Email : gostr; q_SecurityID : gostr; q_ResearcherGPG : gostr; q_AffectedComponent : gostr;
  q_AffectedEndpoint : gostr; q_Severity : gostr; q_Summary : gostr; q_StepsToReproduce : gostr; q_Impact : gostr; q_SuggestedFix : gostr;
  q_CVERequested : bool; q_DisclosureDays : gostr; q_CreditPreference : gostr; q_CoordinatedAgreement : bool; q_Captcha : gostr; q_CaptchaToken : gostr }.
Definition validCreditPreference (value : gostr) : bool :=
  bool_decide (value ∈ str <$> ["real_name"; "handle"; "no"; "anonymous"]%string).
(** The handler: its database and configuration, the version, the key file of the
    project when it can be read, the contacts and whether mail is configured. *)
Record pages_handler := mkPages {
  h_DB : bool; h_Config : option (gostr * ContactConfig); h_Version : gostr; h_CommitID : gostr; h_PublicKey : option gostr; h_EmailMgr : option bool;
  h_SecurityLogger : bool }.
(** What a submission depends on besides: the times, the base of its URLs, the agent
    of the request and its address, random bytes, failing statements and mail. *)
Record submit_env := mkSubmit {
  e_now : Time; e_db_now : Z; e_appURL : gostr; e_agent : gostr; e_clientIP : gostr; e_captcha : get_faults; e_get : get_faults; e_previous : bool;
  e_id : option (list Z); e_token : option (list Z); e_nonce : option gostr; e_insert : bool; e_ack : bool; e_delete : bool; e_notify : bool }.
Inductive submit_error := ValidationFailed | InvalidEmail | InvalidTimeline | InvalidAddress | FetchKeyFailed | InvalidKey | EncodeFailed
| RandomUnavailable | MailUnavailable | AckEncryptFailed | PGPFailed | NoEncryptionKey | SealFailed | NotStored (e : report_error) | AckNotSent.
Inductive report_act :=
| Acknowledge (to body : gostr)
| NotifyOperator (to body : gostr) (attachment : option gostr)
| LogSecurity (line ip : gostr).

Section submission.
  Context `{SecretCipher} (unmarshal : gostr -> option simpleCaptchaPayload) (hmac_sha256 : gostr -> gostr -> list Z) (sha256 : gostr -> list Z).
  Context (ParseAddress : gostr -> bool) (fetch_key : gostr -> option gostr) (EncryptFor : gostr -> gostr -> option gostr).
  Context (ack_text : gostr -> gostr -> gostr) (notification_body : gostr).
Definition validSecurityID (h : pages_handler) (f : get_faults) (query_fails : bool) (candidate : gostr) (now db_now : Z)
  : prog app_secrets (result secret_error bool) :=
  if (candidate =s []) || negb (h_DB h) then Ret (Ok false) else IsValidSecurityID hmac_sha256 f query_fails candidate now now db_now.
Definition form_complete (h : pages_handler) (req : ContactRequest) : bool :=
  h_DB h && bool_decide (is_Some (h_Config h)) && (q_Name req <>s []) && (q_Email req <>s []) && (q_AffectedComponent req <>s [])
  && (q_Summary req <>s []) && (q_StepsToReproduce req <>s []) && (q_Impact req <>s []) && q_CoordinatedAgreement req
  && validCreditPreference (q_CreditPreference req) && negb ((q_CreditPreference req =s str "handle") && (q_Handle req =s []))
  && validSecuritySeverity (q_Severity req).
Definition disclosure_days (req : ContactRequest) : option Z :=
  if q_DisclosureDays req =s [] then Some 90
  else match ParseInt (q_DisclosureDays req) with
       | Some d => if (d <? 1) || (365 <? d) then None else Some d
       | None => None
       end.
Definition key_check : gostr := str "IPGaze security report acknowledgment key validation.".
Definition researcher_key (req : ContactRequest) : result submit_error gostr :=
  if q_ResearcherGPG req =s [] then Ok []
  else
    let? key := if HasPrefix (q_ResearcherGPG req) (str "https://")
                then match fetch_key (q_ResearcherGPG req) with Some k => Ok k | None => Err FetchKeyFailed end
                else Ok (q_ResearcherGPG req) in
    match EncryptFor key key_check with Some _ => Ok key | None => Err InvalidKey end.
Definition report_content (h : pages_handler) (e : submit_env) (req : ContactRequest) (key : gostr) (days : Z) : json :=
  JMap [(str "name", JStr (q_Name req)); (str "email", JStr (q_Email req)); (str "researcher_gpg", JStr key);
        (str "security_id", JStr (q_SecurityID req)); (str "affected_component", JStr (q_AffectedComponent req));
        (str "affected_endpoint", JStr (q_AffectedEndpoint req)); (str "severity", JStr (q_Severity req)); (str "summary", JStr (q_Summary req));
        (str "steps_to_reproduce", JStr (q_StepsToReproduce req)); (str "impact", JStr (q_Impact req)); (str "suggested_fix", JStr (q_SuggestedFix req));
        (str "cve_requested", JBoolean (q_CVERequested req)); (str "disclosure_days", JInt days); (str "credit_preference", JStr (q_CreditPreference req));
        (str "app_version", JStr (h_Version h)); (str "commit_hash", JStr (h_CommitID h)); (str "timestamp", JStr (RFC3339 (UTC (e_now e))));
        (str "request_user_agent", JStr (e_agent e))].
Definition status_url (e : submit_env) (id token : gostr) : gostr :=
  e_appURL e ++ str "/server/security/report/" ++ escape encodePathSegment id ++ str "?token=" ++ QueryEscape token.
Definition acknowledgment (e : submit_env) (key id token : gostr) : result submit_error gostr :=
  let ack := ack_text id (status_url e id token) in
  if key =s [] then Ok ack else match EncryptFor key ack with Some a => Ok a | None => Err AckEncryptFailed end.
(** The stored text and how it is encrypted. *)
Definition seal_report (key_b64 : gostr) (e : submit_env) (plain : gostr) : result submit_error (gostr * gostr) :=
  match Std_Decode key_b64 with
  | Some key =>
      if negb (Nat.eqb (length key) 32) then Err NoEncryptionKey
      else match EncryptWithSecret (e_nonce e) key plain report_info with Ok c => Ok (c, aes) | Err _ => Err SealFailed end
  | None => Err NoEncryptionKey
  end.
Definition encrypt_report (h : pages_handler) (key_b64 : gostr) (e : submit_env) (plain : gostr) : result submit_error (gostr * gostr) :=
  match default [] (h_PublicKey h) with
  | [] => seal_report key_b64 e plain
  | pub => match EncryptFor pub plain with Some c => Ok (c, str "pgp") | None => Err PGPFailed end
  end.
Record prepared := mkPrepared { p_operator : gostr; p_ack : gostr; p_report : SecurityReportMetadata }.
Definition credit (req : ContactRequest) : gostr :=
  if q_CreditPreference req =s str "real_name" then q_Name req
  else if q_CreditPreference req =s str "handle" then q_Handle req else [].
(** Everything up to the first effect. *)
Definition prepare_report (h : pages_handler) (cfg : gostr * ContactConfig) (e : submit_env) (req : ContactRequest) (days : Z) : result submit_error prepared :=
  let? key := researcher_key req in
  match Marshal (report_content h e req key days) with
  | None => Err EncodeFailed
  | Some plain =>
    match NewSecurityTrackingID (e_id e), NewSecurityAccessToken sha256 (e_token e) with
    | Some id, Some (token, hash) =>
        let operator := Email (ResolveContactRole cfg.2 (str "security")) in
        if (operator =s []) || negb (default false (h_EmailMgr h)) then Err MailUnavailable
        else
          let? ack := acknowledgment e key id token in
          let? sealed := encrypt_report h cfg.1 e plain in
          Ok (mkPrepared operator ack
                (mkMetadata id sealed.1 sealed.2 (q_Severity req) (q_AffectedComponent req) (q_CreditPreference req) (credit req)
                   (str "Security vulnerability report") hash))
    | _, _ => Err RandomUnavailable
    end
  end.
Definition logged (h : pages_handler) (e : submit_env) (line : gostr) : list report_act :=
  if h_SecurityLogger h then [LogSecurity line (e_clientIP e)] else [].
(** Storing the report, the acknowledgment, and the message to the operator. *)
Definition deliver_report (h : pages_handler) (e : submit_env) (req : ContactRequest) (p : prepared) (reports : security_reports)
  : security_reports * list report_act * result submit_error gostr :=
  let m := p_report p in
  match exec (StoreSecurityReport true (e_insert e) (e_db_now e) m) reports with
  | (reports', Err err) => (reports', [], Err (NotStored err))
  | (reports', Ok _) =>
      if negb (e_ack e) then (if e_delete e then reports' else delete (m_TrackingID m) reports', [Acknowledge (q_Email req) (p_ack p)], Err AckNotSent)
      else
        let notification := if m_Encryption m =s aes then NotifyOperator (p_operator p) notification_body (Some (m_Ciphertext m))
                            else NotifyOperator (p_operator p) (m_Ciphertext m) None in
        (reports',
         [Acknowledge (q_Email req) (p_ack p); notification]
         ++ (if e_notify e then [] else logged h e (str "security.report_notification_failed tracking_id=" ++ m_TrackingID m))
         ++ logged h e (str "security.report_received tracking_id=" ++ m_TrackingID m ++ str " severity=" ++ q_Severity req ++ str " component="
                        ++ SanitizeReportComponent (q_AffectedComponent req)),
         Ok (m_TrackingID m))
  end.
Definition submitSecurityReport (h : pages_handler) (e : submit_env) (req : ContactRequest) (secrets : app_secrets) (reports : security_reports)
  : app_secrets * security_reports * list report_act * result submit_error gostr :=
  let refuse secrets err := (secrets, reports, [], Err err) in
  match form_complete h req, h_Config h with
  | true, Some cfg =>
    let '(secrets, solved) := exec (verifySimpleCaptcha unmarshal (h_DB h) (e_captcha e) (e_db_now e) (q_CaptchaToken req) (q_Captcha req) (unix_ns (e_now e))) secrets in
    if negb solved then refuse secrets ValidationFailed
    else if negb (ParseAddress (q_Email req)) then refuse secrets InvalidEmail
    else match disclosure_days req with
    | None => refuse secrets InvalidTimeline
    | Some days =>
      match exec (validSecurityID h (e_get e) (e_previous e) (q_SecurityID req) (unix_ns (e_now e)) (e_db_now e)) secrets with
      | (secrets, Ok true) =>
        match prepare_report h cfg e req days with
        | Err err => refuse secrets err
        | Ok p => let '(reports, acts, r) := deliver_report h e req p reports in (secrets, reports, acts, r)
        end
      | (secrets, _) => refuse secrets InvalidAddress
      end
    end
  | _, _ => refuse secrets ValidationFailed
  end.
End submission.

(** ** The question is answered by its sum *)

Lemma raw_groups_encode s : b64_groups false (b64_encode s) = Some s.
Proof.
  induction s as [|a|a b|a b c l IH] using list_ind3; [done|..]; cbn [b64_encode]; digits_of_bytes.
  - cbn -[b64_digit b64_value b64_two Z.mul Z.div Z.modulo]. rewrite !digit_value by (Z.div_mod_to_equations; lia).
    unfold b64_two. transitivity (Some [chr (code a)]); [|by rewrite chr_code]. do 3 f_equal. Z.div_mod_to_equations; lia.
  - cbn -[b64_digit b64_value b64_three Z.mul Z.div Z.modulo Z.add]. rewrite !digit_value by (Z.div_mod_to_equations; lia).
    unfold b64_three. transitivity (Some [chr (code a); chr (code b)]); [|by rewrite !chr_code]. cbv zeta. repeat f_equal; Z.div_mod_to_equations; lia.
  - cbn [b64_groups app]. rewrite !digit_value by (Z.div_mod_to_equations; lia). rewrite IH. cbn -[b64_four Z.mul Z.div Z.modulo Z.add]. unfold b64_four. cbv zeta.
    transitivity (Some (chr (code a) :: chr (code b) :: chr (code c) :: l)); [|by rewrite !chr_code]. cbn [app].
    repeat f_equal; Z.div_mod_to_equations; lia.
Qed.
Lemma RawURL_Decode_encode s : RawURL_Decode (b64_encode s) = Some s.
Proof.
  unfold RawURL_Decode. transitivity (b64_groups false (b64_encode s)); [f_equal|apply raw_groups_encode]. apply filter_all. intros c Hc.
  pose proof (encoded_digits s) as H. rewrite Forall_forall in H. destruct (H c Hc) as (n & Hn & ->). by apply digit_not_eol.
Qed.
Lemma b64_encode_nil s : b64_encode s = [] -> s = [].
Proof. by destruct s as [|a [|b [|c l]]]. Qed.

Section captcha_facts.
  Context `{SecretCipherLaws} (unmarshal : gostr -> option simpleCaptchaPayload).
(** A payload that can be encoded and decoded. *)
Definition decodes (p : simpleCaptchaPayload) : Prop := forall s, Marshal (payload_json p) = Some s -> unmarshal s = Some p.
(** Until twenty minutes after a question was asked its token is accepted with the
    sum of its numbers, whatever blanks surround it, and with nothing else; later it
    is not accepted. *)
Theorem captcha_answered d now t db db1 question token a b n f t' answer now' :
  decodes (mkPayload (Itoa (a + b)) (Unix (now + 20 * Minute)) (b64_encode n)) ->
  first d = Some a -> second d = Some b -> 0 <= a -> 0 <= b -> captcha_nonce d = Some n -> n <> [] -> (forall m, seal_nonce d = Some m -> length m = nonceSize) ->
  exec (newSimpleCaptcha true d now t) db = (db1, Some (question, token)) -> g_query f = false ->
  (exec (verifySimpleCaptcha unmarshal true f t' token answer now') db1).2
  = (Unix now' <=? Unix (now + 20 * Minute)) && (TrimSpace answer =s Itoa (a + b)).
Proof.
  intros Hlaw Ha Hb Ha0 Hb0 Hn Hne Hseal Hnew Hf. unfold newSimpleCaptcha in Hnew. cbn [negb] in Hnew. rewrite Ha, Hb, Hn in Hnew.
  set (payload := mkPayload (Itoa (a + b)) (Unix (now + 20 * Minute)) (b64_encode n)) in *.
  destruct (Marshal (payload_json payload)) as [plain|] eqn:Hm; [|done]. rewrite exec_bind in Hnew.
  destruct (exec (GetOrCreateSecret _ _ _) db) as [db1' got] eqn:Hget. destruct (exec_get _ _ _ _ _ _ Hget) as (_ & _ & Hok).
  destruct got as [secret|]; [|done]. destruct (EncryptWithSecret (seal_nonce d) secret plain captcha_info) as [sealed|] eqn:He; [|done].
  cbn [exec] in Hnew. injection Hnew as -> _ <-. destruct (Hok secret eq_refl) as (row & Hrow & Hdec).
  assert (sealed <> []) as Hsn.
  { unfold EncryptWithSecret in He. destruct (seal_nonce d) as [m|]; [|done]. specialize (Hseal m eq_refl). injection He as <-. by destruct m. }
  unfold verifySimpleCaptcha. cbn [negb orb]. rewrite bool_decide_eq_false_2 by (by intros E%b64_encode_nil). cbn [orb].
  assert (Itoa (a + b) <> []) as Hi by (rewrite Itoa_nonneg by lia; apply utoa_correct; lia).
  destruct (TrimSpace answer =s []) eqn:Ez.
  { bool_facts. rewrite Ez. cbn [exec snd]. by rewrite (bool_decide_eq_false_2 ([] = _)), andb_false_r by congruence. }
  rewrite RawURL_Decode_encode, exec_bind, (exec_get_ok _ _ _ _ _ _ Hf Hrow Hdec). rewrite (decrypt_encrypt_secret _ _ _ _ _ Hseal He).
  rewrite (Hlaw plain Hm).
  cbn [Expires Nonce Answer payload]. rewrite (bool_decide_eq_false_2 (b64_encode n = [])) by (by intros E%b64_encode_nil). rewrite orb_false_r.
  destruct (Z.ltb_spec (Unix (now + 20 * Minute)) (Unix now')), (Z.leb_spec (Unix now') (Unix (now + 20 * Minute))); try lia; done.
Qed.
End captcha_facts.
Definition demo_payload : simpleCaptchaPayload := mkPayload (Itoa (3 + 4)) (Unix (0 + 20 * Minute)) (b64_encode (str "nonce")).
Definition demo_unmarshal (s : gostr) : option simpleCaptchaPayload :=
  if bool_decide (Some s = Marshal (payload_json demo_payload)) then Some demo_payload else None.
Definition demo_draw : captcha_draw := mkDraw (Some 3) (Some 4) (Some (str "nonce")) (draws "secret") (Some nonce12).
Lemma captcha_answered_witness :
  match exec (newSimpleCaptcha (H := toy_cipher) true demo_draw 0 0) ∅ with
  | (db, Some (_, token)) => (exec (verifySimpleCaptcha (H := toy_cipher) demo_unmarshal true (draws "x") 0 token (str " 7 ") (19 * Minute)) db).2 = true
  | (_, None) => False
  end.
Proof.
  destruct (exec (newSimpleCaptcha (H := toy_cipher) true demo_draw 0 0) ∅) as [db [[question token]|]] eqn:E.
  - rewrite (captcha_answered (H := toy_cipher) (H0 := toy_laws) demo_unmarshal demo_draw 0 0 ∅ db question token 3 4 (str "nonce")); try done.
    + intros s Hs. unfold demo_unmarshal. by rewrite <- Hs, bool_decide_eq_true_2.
    + by intros m [= <-].
  - apply (f_equal snd) in E. vm_compute in E. discriminate.
Defined.

(** ** A report is stored or refused *)

Section submission_facts.
  Context `{SecretCipherLaws} (unmarshal : gostr -> option simpleCaptchaPayload) (hmac_sha256 : gostr -> gostr -> list Z) (sha256 : gostr -> list Z).
  Context (ParseAddress : gostr -> bool) (fetch_key : gostr -> option gostr) (EncryptFor : gostr -> gostr -> option gostr).
  Context (ack_text : gostr -> gostr -> gostr) (notification_body : gostr).
Notation submit := (submitSecurityReport unmarshal hmac_sha256 sha256 ParseAddress fetch_key EncryptFor ack_text notification_body).
(** The plaintext part of a row: nothing else of a request goes into it. *)
Definition stored_row (req : ContactRequest) (body enc hash : gostr) (created : Z) : report_row :=
  mkReport body enc (q_Severity req) (SanitizeReportComponent (q_AffectedComponent req)) (q_CreditPreference req) (credit req) None
    (str "Security vulnerability report") (str "Received") None None None hash None created.
(** The stored text holds the whole report. *)
Definition holds (h : pages_handler) (body enc plain : gostr) : Prop :=
  enc = str "pgp" /\ (exists pub, h_PublicKey h = Some pub /\ EncryptFor pub plain = Some body) \/
  enc = aes /\ exists cfg key, h_Config h = Some cfg /\ Std_Decode cfg.1 = Some key /\ length key = 32%nat /\ DecryptWithSecret key body report_info = Ok plain.
Lemma encrypt_report_holds h cfg e plain sealed :
  h_Config h = Some cfg -> (forall n, e_nonce e = Some n -> length n = nonceSize) ->
  encrypt_report EncryptFor h cfg.1 e plain = Ok sealed -> holds h sealed.1 sealed.2 plain.
Proof.
  intros Hcfg Hn. unfold encrypt_report. destruct (h_PublicKey h) as [[|c pub]|] eqn:Hp; cbn [from_option id].
  2:{ destruct (EncryptFor (c :: pub) plain) as [s|] eqn:Hs; [|done]. intros [= <-]. left. split; [done|]. by exists (c :: pub). }
  all: unfold seal_report; destruct (Std_Decode cfg.1) as [key|] eqn:Hk; [|done]; destruct (Nat.eqb_spec (length key) 32) as [Hl|]; cbn [negb]; [|done];
    cbn [negb]; destruct (EncryptWithSecret (e_nonce e) key plain report_info) as [s|] eqn:Hs; [|done]; intros [= <-]; right; split; [done|];
    exists cfg, key; split_and!; [done..|]; by eapply decrypt_encrypt_secret.
Qed.
Lemma store_cases insert_fails t m reports reports' r :
  exec (StoreSecurityReport true insert_fails t m) reports = (reports', r) ->
  match r with Ok _ => reports !! m_TrackingID m = None /\ reports' = <[m_TrackingID m := new_row m t]> reports | Err _ => reports' = reports end.
Proof.
  unfold StoreSecurityReport. cbn [negb]. destruct (_ || _ || _) eqn:E; [by intros [= <- <-]|]. cbn [exec].
  destruct (insert_fails || _ || _) eqn:E2; intros [= <- <-]; [done|]. apply orb_false_iff in E2 as [[_ E2]%orb_false_iff _]. split; [|done].
  apply bool_decide_eq_false in E2. by apply eq_None_not_Some.
Qed.
Lemma prepare_cases h cfg e req days p :
  prepare_report sha256 fetch_key EncryptFor ack_text h cfg e req days = Ok p ->
  exists key plain id token sealed, Marshal (report_content h e req key days) = Some plain /\
    acknowledgment EncryptFor ack_text e key id token = Ok (p_ack p) /\ encrypt_report EncryptFor h cfg.1 e plain = Ok sealed /\
    p_report p = mkMetadata id sealed.1 sealed.2 (q_Severity req) (q_AffectedComponent req) (q_CreditPreference req) (credit req)
                   (str "Security vulnerability report") (token_hash sha256 token).
Proof.
  unfold prepare_report. destruct (researcher_key fetch_key EncryptFor req) as [key|]; [|done]. cbn [rbind].
  destruct (Marshal (report_content h e req key days)) as [plain|] eqn:Hm; [|done].
  destruct (NewSecurityTrackingID (e_id e)) as [id|]; [|done]. unfold NewSecurityAccessToken. destruct (e_token e) as [raw|]; [|done].
  cbn [fmap option_fmap option_map]. destruct (_ || _); [done|]. destruct (acknowledgment _ _ _ _ _ _) as [ack|] eqn:Ha; [|done]. cbn [rbind].
  destruct (encrypt_report _ _ _ _ _) as [sealed|] eqn:Hs; [|done]. cbn [rbind]. intros [= <-].
  exists key, plain, id, (raw ≫= hex_pad 2), sealed. done.
Qed.
Lemma disclosure_days_range req days : disclosure_days req = Some days -> 1 <= days <= 365.
Proof.
  unfold disclosure_days. destruct (_ =s []); [intros [= <-]; lia|]. destruct (ParseInt _) as [d|]; [|done].
  destruct (_ || _) eqn:E; [done|]. intros [= <-]. bool_facts. lia.
Qed.
(** An accepted report came with a complete form, a solved question, a parsable
    address and a valid report address; it was stored under an unused identifier with
    its whole content encrypted, and was acknowledged to its reporter. *)
Lemma submission_cases h e req secrets reports secrets' reports' acts r :
  (forall n, e_nonce e = Some n -> length n = nonceSize) ->
  submit h e req secrets reports = (secrets', reports', acts, r) ->
  match r with
  | Ok id => form_complete h req = true /\ ParseAddress (q_Email req) = true /\
      (exec (verifySimpleCaptcha unmarshal true (e_captcha e) (e_db_now e) (q_CaptchaToken req) (q_Captcha req) (unix_ns (e_now e))) secrets).2 = true /\
      (exists s, (exec (validSecurityID hmac_sha256 h (e_get e) (e_previous e) (q_SecurityID req) (unix_ns (e_now e)) (e_db_now e)) s).2 = Ok true) /\
      exists key days plain body enc token ack rest,
        Marshal (report_content h e req key days) = Some plain /\ 1 <= days <= 365 /\ holds h body enc plain /\ reports !! id = None /\
        reports' = <[id := stored_row req body enc (token_hash sha256 token) (e_db_now e)]> reports /\
        acknowledgment EncryptFor ack_text e key id token = Ok ack /\ acts = Acknowledge (q_Email req) ack :: rest
  | Err err => err = AckNotSent /\ e_delete e = true \/ reports' = reports
  end.
Proof.
  intros Hnonce. unfold submitSecurityReport. destruct (form_complete h req) eqn:Hform; [|intros [= _ <- <- <-]; by right].
  destruct (h_Config h) as [cfg|] eqn:Hcfg; [|intros [= _ <- <- <-]; by right].
  assert (h_DB h = true) as Hdb by (unfold form_complete in Hform; by repeat apply andb_true_iff in Hform as [Hform _]). rewrite Hdb.
  destruct (exec (verifySimpleCaptcha _ _ _ _ _ _ _) secrets) as [s1 solved] eqn:Hcap. destruct solved; [|intros [= _ <- <- <-]; by right]. cbn [negb].
  destruct (ParseAddress (q_Email req)) eqn:Hmail; [|intros [= _ <- <- <-]; by right]. cbn [negb].
  destruct (disclosure_days req) as [days|] eqn:Hdays; [|intros [= _ <- <- <-]; by right].
  destruct (exec (validSecurityID _ _ _ _ _ _ _) s1) as [s2 valid] eqn:Hvalid. destruct valid as [[]|]; [|intros [= _ <- <- <-]; by right..].
  destruct (prepare_report _ _ _ _ _ _ _ _ _) as [p|err] eqn:Hprep; [|intros [= _ <- <- <-]; by right].
  destruct (prepare_cases _ _ _ _ _ _ Hprep) as (key & plain & id & token & sealed & Hm & Hack & Hseal & Hmeta).
  unfold deliver_report. destruct (exec (StoreSecurityReport _ _ _ _) reports) as [db1 stored] eqn:Hstore.
  pose proof (store_cases _ _ _ _ _ _ Hstore) as Hs. destruct stored as [u|err]; [|intros [= _ <- <- <-]; right; exact Hs].
  destruct Hs as [Hfresh ->]. destruct (e_ack e); cbn [negb].
  - intros [= _ <- <- <-]. rewrite Hmeta in *. cbn [m_TrackingID] in *. split_and!; [done..|done|exists s1; by rewrite Hvalid|].
    exists key, days, plain, sealed.1, sealed.2, token, (p_ack p). eexists. split_and!; [done|by eapply disclosure_days_range|by eapply disclosure_days_range|by eapply encrypt_report_holds|done..].
  - destruct (e_delete e) eqn:Hdel; intros [= _ <- <- <-]; [by left|right]. by rewrite delete_insert_id.
Qed.
(** The row of a reporter who does not ask for credit, made of the severity, the
    component and the preference: no name, address or detail of the report. *)
Definition triage_row (sev component preference body enc hash : gostr) (created : Z) : report_row :=
  mkReport body enc sev (SanitizeReportComponent component) preference [] None
    (str "Security vulnerability report") (str "Received") None None None hash None created.
Lemma stored_row_uncredited req body enc hash created :
  q_CreditPreference req <> str "real_name" -> q_CreditPreference req <> str "handle" ->
  stored_row req body enc hash created = triage_row (q_Severity req) (q_AffectedComponent req) (q_CreditPreference req) body enc hash created.
Proof. intros H1 H2. unfold stored_row, triage_row, credit. by rewrite !bool_decide_eq_false_2. Qed.
(** C25. For a reporter who does not ask to be credited by name or handle: an accepted
    report came with a complete form, a solved question, a parsable address and a valid
    report address; it was stored under an unused identifier with its whole content
    encrypted and a plaintext part that is made of the severity, the component and the
    credit preference only, and was acknowledged to its reporter.  A refused report
    leaves the table as it was, unless the removal of an unacknowledged one fails. *)
Theorem report_submission h e req secrets reports secrets' reports' acts r :
  (forall n, e_nonce e = Some n -> length n = nonceSize) ->
  q_CreditPreference req <> str "real_name" -> q_CreditPreference req <> str "handle" ->
  submit h e req secrets reports = (secrets', reports', acts, r) ->
  match r with
  | Ok id => form_complete h req = true /\ ParseAddress (q_Email req) = true /\
      (exec (verifySimpleCaptcha unmarshal true (e_captcha e) (e_db_now e) (q_CaptchaToken req) (q_Captcha req) (unix_ns (e_now e))) secrets).2 = true /\
      (exists s, (exec (validSecurityID hmac_sha256 h (e_get e) (e_previous e) (q_SecurityID req) (unix_ns (e_now e)) (e_db_now e)) s).2 = Ok true) /\
      exists key days plain body enc token ack rest,
        Marshal (report_content h e req key days) = Some plain /\ 1 <= days <= 365 /\ holds h body enc plain /\ reports !! id = None /\
        reports' = <[id := triage_row (q_Severity req) (q_AffectedComponent req) (q_CreditPreference req) body enc (token_hash sha256 token) (e_db_now e)]> reports /\
        acknowledgment EncryptFor ack_text e key id token = Ok ack /\ acts = Acknowledge (q_Email req) ack :: rest
  | Err err => err = AckNotSent /\ e_delete e = true \/ reports' = reports
  end.
Proof.
  intros Hn H1 H2 Hs. pose proof (submission_cases h e req secrets reports secrets' reports' acts r Hn Hs) as Hc.
  destruct r as [id|err]; [|done]. destruct Hc as (? & ? & ? & ? & key & days & plain & body & enc & token & ack & rest & Hc).
  rewrite stored_row_uncredited in Hc by done. split_and!; [done..|]. by exists key, days, plain, body, enc, token, ack, rest.
Qed.
End submission_facts.
Definition demo_secrets : app_secrets :=
  {[SecretInstallationSecret := mkSecret (Std_Encode (str "root")) None None (Some 0); SecretCSRFTokenSecret := mkSecret (Std_Encode (str "secret")) None None (Some 0)]}.
Definition demo_token : gostr :=
  match (exec (newSimpleCaptcha (H := toy_cipher) true demo_draw 0 0) demo_secrets).2 with Some (_, token) => token | None => [] end.
Definition demo_request : ContactRequest :=
  mkContactRequest (str "Ada") [] (str "ada@example.org") (SecurityID toy_hmac (str "root") 60) [] (str "api") [] (str "high") (str "s") (str "r") (str "i") []
    false [] (str "no") true (str "7") demo_token.
Definition demo_handler : pages_handler :=
  mkPages true (Some (Std_Encode key_a, mkContacts (mkContact (str "op@example.org") (fun _ => no_hook)) no_contact no_contact no_contact)) (str "1.0") (str "abc")
    None (Some true) true.
Definition demo_env : submit_env :=
  mkSubmit (mkTime Minute 0) 60 (str "https://ip.example.org") (str "curl") (str "192.0.2.1") (draws "x") (draws "x") false (Some (replicate 8 1)) (Some (replicate 32 2))
    (Some nonce12) false true false true.
Definition demo_submit : app_secrets * security_reports * list report_act * result submit_error gostr :=
  submitSecurityReport (H := toy_cipher) demo_unmarshal toy_hmac toy_sha (fun _ => true) (fun _ => None) (fun _ _ => None) (fun id url => id ++ url) [] demo_handler demo_env
    demo_request demo_secrets ∅.
Lemma report_submission_witness :
  match demo_submit with
  | (_, reports, _, Ok id) => exists body enc hash, reports = {[id := triage_row (str "high") (str "api") (str "no") body enc hash 60]}
  | _ => False
  end.
Proof.
  destruct demo_submit as [[[secrets' reports'] acts] r] eqn:E.
  assert (forall n, e_nonce demo_env = Some n -> length n = nonceSize) as Hn by (by intros n [= <-]).
  assert (q_CreditPreference demo_request <> str "real_name" /\ q_CreditPreference demo_request <> str "handle") as [H1 H2]
    by (change (q_CreditPreference demo_request) with (str "no"); split; discriminate).
  pose proof (report_submission (H := toy_cipher) (H0 := toy_laws) _ _ _ _ _ _ _ _ _ _ _ _ _ _ _ _ _ Hn H1 H2 E) as Hr.
  destruct r as [id|err].
  - destruct Hr as (_ & _ & _ & _ & key & days & plain & body & enc & token & ack & rest & _ & _ & _ & _ & -> & _).
    exists body, enc, (token_hash toy_sha token). reflexivity.
  - apply (f_equal snd) in E. vm_compute in E. discriminate.
Defined.
(** The name of a reporter who asks for credit by name is stored in the clear. *)
Lemma credit_name_in_clear req body enc hash created :
  q_CreditPreference req = str "real_name" -> credit_name (stored_row req body enc hash created) = q_Name req.
Proof. intros Hp. unfold stored_row, credit. cbn [credit_name]. by rewrite Hp. Qed.
