(* ===== verification/KeyStore.v ===== *)
(** * OpenPGP keys on disk and in the database: [pgp/store.go] and its commands

    The key files, the archive of retired keys and the table [pgp_keypairs], with
    the maintenance commands of [main.go] that generate, rotate, import and delete
    keys and rotate the secret that protects them.  A write can fail before it
    opens its file or after some bytes.  The generation of keys is a parameter; among
    records of one creation time the database chooses ([choose]).

    The theorems: a retired key stays readable for its grace period whatever is
    pruned, and is gone after it; rotating keys archives the old one and puts the new
    one in force; rotating the secret keeps every key readable when it succeeds. *)
From stdpp Require Import base list gmap strings sorting.
From Stdlib Require Import ZArith Lia.
From S2P Require Import Prelude GoStrings GoUtf8 GoTime LogFormat GoUrl Settings Restore Startup Transact Secrets Reports.
Local Open Scope Z_scope.
Local Open Scope go_scope.

(** ** Files *)

(** The files of the security directory and of its archive. *)
Record store := mkStore { files : gmap gostr gostr; archive : gmap gostr gostr }.
Inductive write_result := Written | NotOpened | Partly (n : nat).
Definition write_file (w : write_result) (name data : gostr) (fs : gmap gostr gostr) : gmap gostr gostr * bool :=
  match w with
  | Written => (<[name := data]> fs, true)
  | NotOpened => (fs, false)
  | Partly n => (<[name := take n data]> fs, false)
  end.
Definition publicKeyFile : gostr := str "pgp.pub.asc".
Definition privateKeyFile : gostr := str "pgp.priv.asc.enc".
Definition privateKeyKDFInfo : gostr := str "ipgaze:pgp-private-key:v1".
Definition private_suffix : gostr := str ".priv.asc.enc".
Definition public_suffix : gostr := str ".pub.asc".
Record Keypair := mkKeypair { Fingerprint : gostr; PublicArmor : gostr; PrivateArmor : gostr; CreatedAt : Z; ExpiresAt : Z }.
Inductive store_error := DirFailed | WriteFailed | SealFailed | ReadFailed | OpenFailed | BadMetadata | RemoveFailed | NotArchived | SecretFailed | InsertFailed | GenerateFailed.

Section files.
  Context `{SecretCipher}.
Record save_faults := mkSave { v_dir : bool; v_public : write_result; v_nonce : option gostr; v_private : write_result }.
Definition SaveKeypair (f : save_faults) (kp : Keypair) (secret : gostr) (s : store) : store * option store_error :=
  if v_dir f then (s, Some DirFailed)
  else
    let '(fs, ok) := write_file (v_public f) publicKeyFile (PublicArmor kp) (files s) in
    let s := mkStore fs (archive s) in
    if negb ok then (s, Some WriteFailed)
    else match EncryptWithSecret (v_nonce f) secret (PrivateArmor kp) privateKeyKDFInfo with
    | Err _ => (s, Some SealFailed)
    | Ok sealed =>
        let '(fs, ok) := write_file (v_private f) privateKeyFile sealed fs in
        (mkStore fs (archive s), if ok then None else Some WriteFailed)
    end.
Definition LoadPublic (s : store) : option gostr := files s !! publicKeyFile.
Definition opened (secret : gostr) (sealed : option gostr) : result store_error gostr :=
  match sealed with
  | None => Err ReadFailed
  | Some c => match DecryptWithSecret secret c privateKeyKDFInfo with Ok p => Ok p | Err _ => Err OpenFailed end
  end.
Definition LoadPrivateArmor (secret : gostr) (s : store) : result store_error gostr := opened secret (files s !! privateKeyFile).
(** [os.Stat] is taken to fail only when the file is not there; the code counts any other
    error as absence too. *)
Definition Exists (s : store) : bool := bool_decide (is_Some (files s !! publicKeyFile)).
Definition DeleteKeypair (remove_fails : gostr -> bool) (archive_fails : bool) (s : store) : store * option store_error :=
  if remove_fails publicKeyFile then (s, Some RemoveFailed)
  else
    let s := mkStore (delete publicKeyFile (files s)) (archive s) in
    if remove_fails privateKeyFile then (s, Some RemoveFailed)
    else
      let s := mkStore (delete privateKeyFile (files s)) (archive s) in
      if archive_fails then (s, Some RemoveFailed) else (mkStore (files s) ∅, None).

(** ** The archive *)

Definition hex_char (c : ascii) : bool := between "0" "9" c || between "a" "f" c || between "A" "F" c.
(** A rune that is no byte of the class is none of an ASCII string. *)
Definition validFingerprint (value : gostr) : bool :=
  (Nat.eqb (length value) 40 || Nat.eqb (length value) 64) && forallb hex_char value.
Definition archive_name (fingerprint : gostr) (expires : Z) (suffix : gostr) : gostr := fingerprint ++ str "." ++ Itoa expires ++ suffix.
(** The entries of the directory in the order it is read. *)
Definition entries (a : gmap gostr gostr) : list gostr := (merge_sort key_le (map_to_list a)).*1.
Definition prune_one (fails : gostr -> bool) (now : Z) (name : gostr) (a : gmap gostr gostr) : gmap gostr gostr * bool :=
  let parts := Split name (str ".") in
  if (length parts <? 4)%nat || negb (Contains name private_suffix) then (a, true)
  else
    let i := (length parts - 4)%nat in
    match ParseInt (nth i parts []) with
    | None => (a, true)
    | Some expires =>
        if Unix now <=? expires then (a, true)
        else if fails name then (a, false)
        else
          let publicPath := Join (take i parts) (str ".") ++ str "." ++ nth i parts [] ++ public_suffix in
          let a := delete name a in
          if fails publicPath then (a, false) else (delete publicPath a, true)
    end.
Fixpoint prune_list (fails : gostr -> bool) (now : Z) (names : list gostr) (a : gmap gostr gostr) : gmap gostr gostr * bool :=
  match names with
  | [] => (a, true)
  | name :: rest => let '(a, ok) := prune_one fails now name a in if ok then prune_list fails now rest a else (a, false)
  end.
Definition PruneArchivedKeypairs (read_fails : bool) (fails : gostr -> bool) (now : Z) (a : gmap gostr gostr) : gmap gostr gostr * bool :=
  if read_fails then (a, false) else prune_list fails now (entries a) a.

(** [Time.IsZero] *)
Definition zero_time : Z := - 62135596800 * Second.
Record archive_faults := mkArchive { k_dir : bool; k_read : bool; k_remove : gostr -> bool; k_mkdir : bool; k_public : write_result; k_private : write_result }.
Definition archive_one (w : write_result) (name : gostr) (contents : option gostr) (a : gmap gostr gostr) : gmap gostr gostr * option store_error :=
  match contents with
  | None => (a, Some ReadFailed)
  | Some data => let '(a, ok) := write_file w name data a in (a, if ok then None else Some WriteFailed)
  end.
Definition ArchiveCurrentKeypair (f : archive_faults) (fingerprint : gostr) (expiresAt now : Z) (s : store) : store * option store_error :=
  if negb (validFingerprint fingerprint) || (expiresAt =? zero_time) then (s, Some BadMetadata)
  else if k_dir f then (s, Some DirFailed)
  else
    let '(a, ok) := PruneArchivedKeypairs (k_read f) (k_remove f) now (archive s) in
    if negb ok then (mkStore (files s) a, Some RemoveFailed)
    else if k_mkdir f then (mkStore (files s) a, Some DirFailed)
    else
      let expires := Unix expiresAt in
      let '(a, e) := archive_one (k_public f) (archive_name fingerprint expires public_suffix) (files s !! publicKeyFile) a in
      match e with
      | Some e => (mkStore (files s) a, Some e)
      | None =>
          let '(a, e) := archive_one (k_private f) (archive_name fingerprint expires private_suffix) (files s !! privateKeyFile) a in
          (mkStore (files s) a, e)
      end.
(** The pattern [fingerprint.*.priv.asc.enc] of [filepath.Glob]. *)
Definition archived_match (fingerprint name : gostr) : bool :=
  HasPrefix name (fingerprint ++ str ".") && HasSuffix name private_suffix && (length fingerprint + 1 + length private_suffix <=? length name)%nat.
Definition LoadArchivedPrivateArmor (fingerprint secret : gostr) (s : store) : result store_error gostr :=
  if negb (validFingerprint fingerprint) then Err BadMetadata
  else match filter (fun name => archived_match fingerprint name = true) (entries (archive s)) with
  | [] => Err NotArchived
  | name :: _ => opened secret (archive s !! name)
  end.

(** ** A new secret *)

Record reseal_faults := mkReseal { y_nonce : gostr -> option gostr; y_write : gostr -> write_result; y_read : bool }.
Fixpoint reseal_list (f : reseal_faults) (oldSecret newSecret : gostr) (names : list gostr) (a : gmap gostr gostr) : gmap gostr gostr * option store_error :=
  match names with
  | [] => (a, None)
  | name :: rest =>
      if negb (HasSuffix name private_suffix) then reseal_list f oldSecret newSecret rest a
      else match opened oldSecret (a !! name) with
      | Err e => (a, Some e)
      | Ok plain =>
          match EncryptWithSecret (y_nonce f name) newSecret plain privateKeyKDFInfo with
          | Err _ => (a, Some SealFailed)
          | Ok sealed =>
              let '(a, ok) := write_file (y_write f name) name sealed a in
              if ok then reseal_list f oldSecret newSecret rest a else (a, Some WriteFailed)
          end
      end
  end.
Definition ReencryptArchivedPrivateKeys (f : reseal_faults) (oldSecret newSecret : gostr) (s : store) : store * option store_error :=
  if y_read f then (s, Some ReadFailed)
  else let '(a, e) := reseal_list f oldSecret newSecret (entries (archive s)) (archive s) in (mkStore (files s) a, e).
Definition ReencryptPrivateKey (f : reseal_faults) (oldSecret newSecret : gostr) (s : store) : store * option store_error :=
  if Exists s then
    match LoadPrivateArmor oldSecret s with
    | Err e => (s, Some e)
    | Ok armor =>
        match EncryptWithSecret (y_nonce f privateKeyFile) newSecret armor privateKeyKDFInfo with
        | Err _ => (s, Some SealFailed)
        | Ok sealed =>
            let '(fs, ok) := write_file (y_write f privateKeyFile) privateKeyFile sealed (files s) in
            let s := mkStore fs (archive s) in
            if ok then ReencryptArchivedPrivateKeys f oldSecret newSecret s else (s, Some WriteFailed)
        end
    end
  else ReencryptArchivedPrivateKeys f oldSecret newSecret s.
(** [rotateInstallationSecret]: the reads, the rotation of the row, the keys. *)
Definition rotateInstallationSecret (f1 f2 : get_faults) (f : rotate_faults) (g : reseal_faults) (now db_now : Z) (secrets : app_secrets) (s : store)
  : app_secrets * store * option store_error :=
  match exec (GetOrCreateSecret f1 db_now SecretInstallationSecret) secrets with
  | (secrets, Err _) => (secrets, s, Some SecretFailed)
  | (secrets, Ok oldSecret) =>
      match exec (RotateSecret f now db_now SecretInstallationSecret) secrets with
      | (secrets, Err _) => (secrets, s, Some SecretFailed)
      | (secrets, Ok _) =>
          match exec (GetOrCreateSecret f2 db_now SecretInstallationSecret) secrets with
          | (secrets, Err _) => (secrets, s, Some SecretFailed)
          | (secrets, Ok newSecret) => let '(s, e) := ReencryptPrivateKey g oldSecret newSecret s in (secrets, s, e)
          end
      end
  end.
End files.

(** ** The table *)

Record key_record := mkRecord {
  kr_fingerprint : gostr; kr_created : Z; kr_expires : Z; kr_rotated : option Z; kr_published : gmap gostr Z; kr_revoked : bool }.
Definition InsertRecord (fails : bool) (fingerprint : gostr) (created expires : Z) (rows : list key_record) : list key_record * bool :=
  if fails || existsb (fun r => kr_fingerprint r =s fingerprint) rows then (rows, false)
  else (rows ++ [mkRecord fingerprint (Unix created) (Unix expires) None ∅ false], true).
Definition on_key (fingerprint : gostr) (f : key_record -> key_record) (rows : list key_record) : list key_record :=
  (fun r => if kr_fingerprint r =s fingerprint then f r else r) <$> rows.
Definition MarkRotated (fails : bool) (db_now : Z) (fingerprint : gostr) (rows : list key_record) : list key_record :=
  if fails then rows
  else on_key fingerprint (fun r => mkRecord (kr_fingerprint r) (kr_created r) (kr_expires r) (Some db_now) (kr_published r) (kr_revoked r)) rows.
Definition MarkRevoked (fails : bool) (fingerprint : gostr) (rows : list key_record) : list key_record :=
  if fails then rows
  else on_key fingerprint (fun r => mkRecord (kr_fingerprint r) (kr_created r) (kr_expires r) (kr_rotated r) (kr_published r) true) rows.
(** The records that come first in [ORDER BY created_at DESC]. *)
Definition newest (rows : list key_record) : list key_record :=
  let live := filter (fun r => kr_revoked r = false) rows in
  filter (fun r => forallb (fun r' => kr_created r' <=? kr_created r) live = true) live.
Class RowChoice := { choose : list key_record -> option key_record }.
Class RowChoiceLaws `{RowChoice} := {
  choose_in rows r : choose rows = Some r -> r ∈ rows;
  choose_some rows : rows <> [] -> is_Some (choose rows) }.
Definition ActiveRecord `{RowChoice} (rows : list key_record) : option key_record := choose (newest rows).
Definition RecordKeyserverPublish (fails : bool) (fingerprint host : gostr) (publishedAt : Z) (rows : list key_record) : list key_record * bool :=
  if fails || negb (existsb (fun r => kr_fingerprint r =s fingerprint) rows) then (rows, false)
  else (on_key fingerprint (fun r => mkRecord (kr_fingerprint r) (kr_created r) (kr_expires r) (kr_rotated r) (<[host := Unix publishedAt]> (kr_published r)) (kr_revoked r)) rows, true).

(** *** Keyservers *)

Definition publishRetries : nat := 3.
Definition publishBackoff : Z := 2 * Second.
(** An attempt is answered with a status or not at all. *)
Definition accepted (status : option Z) : bool := match status with Some s => (200 <=? s) && (s <? 300) | None => false end.
(** Whether the key was taken, and the waits before each further attempt. *)
Fixpoint publish_from (left attempt : nat) (respond : nat -> option Z) : bool * list Z :=
  match left with
  | O => (false, [])
  | S left' =>
      let waits := match attempt with O => [] | S n => [publishBackoff * 2 ^ Z.of_nat n] end in
      if accepted (respond attempt) then (true, waits)
      else let '(ok, more) := publish_from left' (S attempt) respond in (ok, waits ++ more)
  end.
Definition publishOne (respond : nat -> option Z) : bool * list Z := publish_from publishRetries 0 respond.
Fixpoint Publish (respond : gostr -> nat -> option Z) (record_fails : gostr -> bool) (clock : gostr -> Z) (fingerprint : gostr) (keyservers : list gostr)
    (rows : list key_record) : list key_record * list (gostr * bool) :=
  match keyservers with
  | [] => (rows, [])
  | host :: rest =>
      let '(rows, ok) := if (publishOne (respond host)).1 then RecordKeyserverPublish (record_fails host) fingerprint host (clock host) rows else (rows, false) in
      let '(rows, results) := Publish respond record_fails clock fingerprint rest rows in
      (rows, (host, ok) :: results)
  end.

(** ** The commands *)

Record keyring := mkRing { w_secrets : app_secrets; w_store : store; w_rows : list key_record; w_publish : bool }.
Definition RotationGrace : Z := 30 * 24 * Hour.
Definition KeyLifetime : Z := 2 * 365 * 24 * Hour.
Record command_faults := mkCommand {
  z_get : get_faults; z_key : option Keypair; z_save : save_faults; z_insert : bool; z_archive : archive_faults; z_mark : bool; z_remove : gostr -> bool;
  z_remove_archive : bool }.
Section commands.
  Context `{SecretCipher} `{RowChoice}.
Definition save_and_record (f : command_faults) (secret : gostr) (kp : Keypair) (w : keyring) : keyring * option store_error :=
  let '(s, e) := SaveKeypair (z_save f) kp secret (w_store w) in
  match e with
  | Some e => (mkRing (w_secrets w) s (w_rows w) (w_publish w), Some e)
  | None =>
      let '(rows, ok) := InsertRecord (z_insert f) (Fingerprint kp) (CreatedAt kp) (ExpiresAt kp) (w_rows w) in
      (mkRing (w_secrets w) s rows (w_publish w), if ok then None else Some InsertFailed)
  end.
Definition with_secret (f : command_faults) (db_now : Z) (w : keyring) (k : gostr -> keyring -> keyring * option store_error) : keyring * option store_error :=
  match exec (GetOrCreateSecret (z_get f) db_now SecretInstallationSecret) (w_secrets w) with
  | (secrets, Err _) => (mkRing secrets (w_store w) (w_rows w) (w_publish w), Some SecretFailed)
  | (secrets, Ok secret) => k secret (mkRing secrets (w_store w) (w_rows w) (w_publish w))
  end.
Definition pgpGenerate (f : command_faults) (db_now : Z) (w : keyring) : keyring * option store_error :=
  with_secret f db_now w (fun secret w =>
    match z_key f with None => (w, Some GenerateFailed) | Some kp => save_and_record f secret kp w end).
Definition pgpRotate (f : command_faults) (now db_now : Z) (w : keyring) : keyring * option store_error :=
  with_secret f db_now w (fun secret w =>
    match z_key f with
    | None => (w, Some GenerateFailed)
    | Some kp =>
        match ActiveRecord (w_rows w) with
        | None => save_and_record f secret kp w
        | Some old =>
            let '(s, e) := ArchiveCurrentKeypair (z_archive f) (kr_fingerprint old) (now + RotationGrace) now (w_store w) in
            let w := mkRing (w_secrets w) s (w_rows w) (w_publish w) in
            match e with
            | Some e => (w, Some e)
            | None =>
                match save_and_record f secret kp w with
                | (w, Some e) => (w, Some e)
                | (w, None) => (mkRing (w_secrets w) (w_store w) (MarkRotated (z_mark f) db_now (kr_fingerprint old) (w_rows w)) (w_publish w), None)
                end
            end
        end
    end).
(** [key] is the parsed file, [matched] whether it has the project's identity, [typed]
    the answers to the two confirmations. *)
Definition pgpImport (f : command_faults) (db_now : Z) (typed : gostr * gostr) (key : option (Keypair * bool)) (w : keyring) : keyring * option store_error :=
  if TrimSpace typed.1 <>s str "IMPORT PRIVATE KEY" then (w, None)
  else match key with
  | None => (w, Some GenerateFailed)
  | Some (kp, matched) =>
      if negb matched && (TrimSpace typed.2 <>s str "OVERRIDE") then (w, None)
      else with_secret f db_now w (fun secret w =>
             save_and_record f secret (mkKeypair (Fingerprint kp) (PublicArmor kp) (PrivateArmor kp) (CreatedAt kp) (CreatedAt kp + KeyLifetime)) w)
  end.
Definition pgpDelete (f : command_faults) (typed : gostr) (w : keyring) : keyring * option store_error :=
  if TrimSpace typed <>s str "DELETE PGP KEY" then (w, None)
  else
    let rec := ActiveRecord (w_rows w) in
    match DeleteKeypair (z_remove f) (z_remove_archive f) (w_store w) with
    | (s, Some e) => (mkRing (w_secrets w) s (w_rows w) (w_publish w), Some e)
    | (s, None) =>
        let rows := match rec with Some r => MarkRevoked (z_mark f) (kr_fingerprint r) (w_rows w) | None => w_rows w end in
        (mkRing (w_secrets w) s rows false, None)
    end.
End commands.

(** ** The grace period of a retired key *)

Lemma hex_no_dot fp : forallb hex_char fp = true -> "."%char ∉ fp.
Proof. intros Hh Hin. rewrite forallb_forall in Hh. apply list_elem_of_In, Hh in Hin. done. Qed.
Lemma Itoa_no_dot n : 0 <= n -> "."%char ∉ Itoa n.
Proof. intros Hn Hin. pose proof (Itoa_digits n Hn) as Hd. rewrite forallb_forall in Hd. apply list_elem_of_In, Hd in Hin. done. Qed.
Lemma validFingerprint_hex fp : validFingerprint fp = true -> forallb hex_char fp = true.
Proof. unfold validFingerprint. by intros [_ ?]%andb_true_iff. Qed.
Lemma archived_parts fp expires :
  validFingerprint fp = true -> 0 <= expires -> Split (archive_name fp expires private_suffix) (str ".") = [fp; Itoa expires; str "priv"; str "asc"; str "enc"].
Proof.
  intros Hf%validFingerprint_hex He. change (str ".") with ["."%char]. rewrite Split_one. unfold archive_name, private_suffix.
  change (str ".priv.asc.enc") with ("."%char :: str "priv.asc.enc"). cbn [app]. change (str "." ++ ?x) with ("."%char :: x).
  rewrite split_on_app by (by apply hex_no_dot). rewrite split_on_app by (by apply Itoa_no_dot). done.
Qed.
Lemma archived_contains fp expires : Contains (archive_name fp expires private_suffix) private_suffix = true.
Proof. apply Contains_true. exists (fp ++ str "." ++ Itoa expires), []. unfold archive_name. by rewrite app_nil_r, <- !app_assoc. Qed.
(** A public name is no private one. *)
Lemma suffixes_differ a b : a ++ public_suffix <> b ++ private_suffix.
Proof. intros E. apply (f_equal reverse) in E. rewrite !reverse_app in E. done. Qed.
Lemma prune_one_keeps fails now name a fp expires :
  validFingerprint fp = true -> 0 <= expires <= MaxInt64 -> Unix now <= expires ->
  (prune_one fails now name a).1 !! archive_name fp expires private_suffix = a !! archive_name fp expires private_suffix.
Proof.
  intros Hf He Hnow. unfold prune_one. destruct (_ || _); [done|]. destruct (ParseInt _) as [at_|] eqn:Hp; [|done].
  destruct (Z.leb_spec (Unix now) at_) as [|Hlt]; [done|]. destruct (fails name); [done|].
  assert (name <> archive_name fp expires private_suffix) as Hne.
  { intros ->. rewrite archived_parts in Hp by (done || lia). cbn [length nth Nat.sub] in Hp. rewrite ParseInt_Itoa in Hp by done. injection Hp as <-. lia. }
  destruct (fails _); cbn [fst]; [by rewrite lookup_delete_ne|].
  rewrite lookup_delete_ne; [by rewrite lookup_delete_ne|]. unfold archive_name. rewrite !app_assoc. apply suffixes_differ.
Qed.
Lemma prune_list_keeps fails now names a fp expires :
  validFingerprint fp = true -> 0 <= expires <= MaxInt64 -> Unix now <= expires ->
  (prune_list fails now names a).1 !! archive_name fp expires private_suffix = a !! archive_name fp expires private_suffix.
Proof.
  intros Hf He Hnow. revert a. induction names as [|name names IH]; intros a; [done|]. cbn [prune_list].
  pose proof (prune_one_keeps fails now name a fp expires Hf He Hnow) as Hone. destruct (prune_one fails now name a) as [a' []]; [|done].
  rewrite IH. exact Hone.
Qed.
Lemma prune_keeps read fails now a fp expires :
  validFingerprint fp = true -> 0 <= expires <= MaxInt64 -> Unix now <= expires ->
  (PruneArchivedKeypairs read fails now a).1 !! archive_name fp expires private_suffix = a !! archive_name fp expires private_suffix.
Proof. intros. unfold PruneArchivedKeypairs. destruct read; [done|]. by apply prune_list_keeps. Qed.
(** Pruning only removes. *)
Lemma prune_list_subset fails now names a k : (prune_list fails now names a).1 !! k = None \/ (prune_list fails now names a).1 !! k = a !! k.
Proof.
  revert a. induction names as [|name names IH]; intros a; [by right|]. cbn [prune_list].
  assert ((prune_one fails now name a).1 !! k = None \/ (prune_one fails now name a).1 !! k = a !! k) as Hone.
  { unfold prune_one. destruct (_ || _); [by right|]. destruct (ParseInt _); [|by right]. destruct (_ <=? _); [by right|]. destruct (fails name); [by right|].
    destruct (fails _); cbn [fst]; [destruct (decide (name = k)) as [->|]; [left; apply lookup_delete_eq|right; by rewrite lookup_delete_ne]|].
    match goal with |- context [delete ?p (delete name a)] => destruct (decide (p = k)) as [->|]; [left; apply lookup_delete_eq|] end.
    rewrite lookup_delete_ne by done. destruct (decide (name = k)) as [->|]; [left; apply lookup_delete_eq|right; by rewrite lookup_delete_ne]. }
  destruct (prune_one fails now name a) as [a' []]; [|done]. destruct (IH a') as [->|E]; [by left|]. rewrite E. exact Hone.
Qed.
Lemma elem_of_entries a k : k ∈ entries a <-> is_Some (a !! k).
Proof.
  unfold entries. rewrite (merge_sort_Permutation key_le (map_to_list a)). rewrite list_elem_of_fmap. split.
  - intros ([k' v] & -> & Hin). apply elem_of_map_to_list in Hin. by eexists.
  - intros [v Hv]. exists (k, v). split; [done|]. by apply elem_of_map_to_list.
Qed.
Lemma prune_list_removes now names a fp expires :
  validFingerprint fp = true -> 0 <= expires <= MaxInt64 -> expires < Unix now -> archive_name fp expires private_suffix ∈ names ->
  let a' := (prune_list (fun _ => false) now names a).1 in
  a' !! archive_name fp expires private_suffix = None /\ a' !! archive_name fp expires public_suffix = None.
Proof.
  intros Hf He Hnow. revert a. induction names as [|name names IH]; intros a; [by intros ?%elem_of_nil|]. intros Hin. cbn [prune_list].
  destruct (decide (archive_name fp expires private_suffix ∈ names)) as [Hin'|Hout].
  { destruct (prune_one (fun _ => false) now name a) as [a' ok] eqn:Ho. assert (ok = true) as ->; [|by apply IH].
    revert Ho. unfold prune_one. destruct (_ || _); [by intros [= _ <-]|]. destruct (ParseInt _); [|by intros [= _ <-]]. destruct (_ <=? _); by intros [= _ <-]. }
  apply elem_of_cons in Hin as [<-|]; [|done]. unfold prune_one. rewrite archived_parts by (done || lia). rewrite archived_contains. cbn [length Nat.ltb Nat.leb negb orb nth Nat.sub].
  rewrite ParseInt_Itoa by done. destruct (Z.leb_spec (Unix now) expires); [lia|]. cbn [take Join]. fold (archive_name fp expires public_suffix).
  split.
  - destruct (prune_list_subset (fun _ => false) now names (delete (archive_name fp expires public_suffix) (delete (archive_name fp expires private_suffix) a)) (archive_name fp expires private_suffix)) as [->|E]; [done|]. rewrite E.
    rewrite lookup_delete_ne; [apply lookup_delete_eq|]. unfold archive_name. rewrite !app_assoc. apply suffixes_differ.
  - destruct (prune_list_subset (fun _ => false) now names (delete (archive_name fp expires public_suffix) (delete (archive_name fp expires private_suffix) a)) (archive_name fp expires public_suffix)) as [->|E]; [done|]. rewrite E. apply lookup_delete_eq.
Qed.
(** A retired private key is kept by every pruning until its grace period is over,
    whatever fails, and the first complete pruning after that removes both its files. *)
Theorem archived_key_grace fp expires sealed a :
  validFingerprint fp = true -> 0 <= expires <= MaxInt64 -> a !! archive_name fp expires private_suffix = Some sealed ->
  (forall read fails now, Unix now <= expires -> (PruneArchivedKeypairs read fails now a).1 !! archive_name fp expires private_suffix = Some sealed) /\
  (forall now, expires < Unix now ->
     let a' := (PruneArchivedKeypairs false (fun _ => false) now a).1 in
     a' !! archive_name fp expires private_suffix = None /\ a' !! archive_name fp expires public_suffix = None).
Proof.
  intros Hf He Ha. split.
  - intros read fails now Hnow. by rewrite prune_keeps.
  - intros now Hnow. apply prune_list_removes; [done..|]. apply elem_of_entries. by rewrite Ha.
Qed.
Definition demo_fp : gostr := replicate 40 "a"%char.
Lemma archived_key_grace_witness :
  (PruneArchivedKeypairs false (fun _ => false) (1000 * Second) {[archive_name demo_fp 1000 private_suffix := str "k"]}).1 !! archive_name demo_fp 1000 private_suffix = Some (str "k").
Proof.
  apply (archived_key_grace demo_fp 1000 (str "k") {[archive_name demo_fp 1000 private_suffix := str "k"]});
    [vm_compute; reflexivity|vm_compute; split; discriminate|apply lookup_singleton_eq|vm_compute; discriminate].
Defined.

(** ** A new secret keeps the keys *)

Section resealing.
  Context `{SecretCipherLaws}.
Lemma reseal_list_spec f old new names a a' :
  (forall name n, y_nonce f name = Some n -> length n = nonceSize) -> NoDup names -> reseal_list f old new names a = (a', None) ->
  (forall name, name ∉ names \/ HasSuffix name private_suffix = false -> a' !! name = a !! name) /\
  (forall name, name ∈ names -> HasSuffix name private_suffix = true -> exists plain, opened old (a !! name) = Ok plain /\ opened new (a' !! name) = Ok plain).
Proof.
  intros Hn. revert a. induction names as [|name names IH]; intros a Hnd; cbn [reseal_list].
  { intros [= <-]. split; [done|]. by intros ? ?%elem_of_nil. }
  apply NoDup_cons in Hnd as [Hout Hnd]. destruct (HasSuffix name private_suffix) eqn:Hs; cbn [negb].
  2:{ intros Hr. destruct (IH a Hnd Hr) as [H1 H2]. split.
      - intros k Hk. apply H1. rewrite not_elem_of_cons in Hk. tauto.
      - intros k [->|Hk]%elem_of_cons Hks; [congruence|by apply H2]. }
  destruct (opened old (a !! name)) as [plain|] eqn:Hopen; [|done].
  destruct (EncryptWithSecret (y_nonce f name) new plain privateKeyKDFInfo) as [sealed|] eqn:He; [|done].
  destruct (y_write f name); cbn [write_file]; try done. intros Hr. destruct (IH _ Hnd Hr) as [H1 H2]. split.
  - intros k Hk. destruct (decide (k = name)) as [->|Hne]; [destruct Hk as [Hk|]; [|congruence]; exfalso; apply Hk; left|].
    rewrite H1 by (rewrite not_elem_of_cons in Hk; tauto). by rewrite lookup_insert_ne by congruence.
  - intros k [->|Hk]%elem_of_cons Hks.
    + exists plain. split; [done|]. rewrite H1 by (by left). rewrite lookup_insert_eq. cbn [opened].
      rewrite (decrypt_encrypt_secret _ _ _ _ _ (Hn name) He). done.
    + assert (k <> name) as Hne by (by intros ->). destruct (H2 k Hk Hks) as (p & Hp & Hp'). exists p. split; [|done]. rewrite <- Hp. by rewrite lookup_insert_ne by congruence.
Qed.
Lemma NoDup_entries a : NoDup (entries a).
Proof. unfold entries. rewrite (merge_sort_Permutation key_le (map_to_list a)). apply NoDup_fst_map_to_list. Qed.
Lemma resealed f old new s s' :
  (forall name n, y_nonce f name = Some n -> length n = nonceSize) -> ReencryptPrivateKey f old new s = (s', None) ->
  LoadPublic s' = LoadPublic s /\
  (Exists s = true -> exists armor, LoadPrivateArmor old s = Ok armor /\ LoadPrivateArmor new s' = Ok armor) /\
  (forall name sealed, archive s !! name = Some sealed -> HasSuffix name private_suffix = true ->
     exists armor, opened old (Some sealed) = Ok armor /\ opened new (archive s' !! name) = Ok armor).
Proof.
  intros Hn. assert (forall s s', ReencryptArchivedPrivateKeys f old new s = (s', None) ->
    files s' = files s /\ forall name sealed, archive s !! name = Some sealed -> HasSuffix name private_suffix = true ->
     exists armor, opened old (Some sealed) = Ok armor /\ opened new (archive s' !! name) = Ok armor) as Harch.
  { clear s s'. intros s s'. unfold ReencryptArchivedPrivateKeys. destruct (y_read f); [done|]. destruct (reseal_list _ _ _ _ _) as [a e] eqn:Hr.
    intros [= <- ->]. split; [done|]. intros name sealed Ha Hs. destruct (reseal_list_spec _ _ _ _ _ _ Hn (NoDup_entries _) Hr) as [_ H2].
    destruct (H2 name) as (p & Hp & Hp'); [apply elem_of_entries; by rewrite Ha|done|]. exists p. by rewrite <- Ha. }
  unfold ReencryptPrivateKey. destruct (Exists s) eqn:Hex.
  - destruct (LoadPrivateArmor old s) as [armor|] eqn:Hl; [|done].
    destruct (EncryptWithSecret (y_nonce f privateKeyFile) new armor privateKeyKDFInfo) as [sealed|] eqn:He; [|done].
    destruct (y_write f privateKeyFile); cbn [write_file]; try done. intros Hr. destruct (Harch _ _ Hr) as [Hfiles Ha]. cbn [files] in Hfiles.
    split_and!; [unfold LoadPublic; by rewrite Hfiles, lookup_insert_ne by done| |done]. intros _. exists armor. split; [done|].
    unfold LoadPrivateArmor. rewrite Hfiles, lookup_insert_eq. cbn [opened]. by rewrite (decrypt_encrypt_secret _ _ _ _ _ (Hn privateKeyFile) He).
  - intros Hr. destruct (Harch _ _ Hr) as [Hfiles Ha]. split_and!; [unfold LoadPublic; by rewrite Hfiles|done|done].
Qed.
(** C26. After a rotation of the installation secret that reports no error, the active
    and every retired private key open with the new secret to what they opened to with
    the old one, the public key is unchanged, and the old secret is the previous one. *)
Theorem secret_rotation_keeps_keys f1 f2 f g now t secrets s secrets' s' :
  (forall name n, y_nonce g name = Some n -> length n = nonceSize) ->
  rotateInstallationSecret f1 f2 f g now t secrets s = (secrets', s', None) ->
  exists old new row, secrets' !! SecretInstallationSecret = Some row /\ decoded row = Ok new /\ s_previous row = Some (Std_Encode old) /\
  (exec (GetOrCreateSecret f1 t SecretInstallationSecret) secrets).2 = Ok old /\ LoadPublic s' = LoadPublic s /\
  (Exists s = true -> exists armor, LoadPrivateArmor old s = Ok armor /\ LoadPrivateArmor new s' = Ok armor) /\
  (forall name sealed, archive s !! name = Some sealed -> HasSuffix name private_suffix = true ->
     exists armor, opened old (Some sealed) = Ok armor /\ opened new (archive s' !! name) = Ok armor).
Proof.
  intros Hn. unfold rotateInstallationSecret. destruct (exec (GetOrCreateSecret f1 t _) secrets) as [db1 got] eqn:H1. destruct got as [old|]; [|done].
  destruct (exec_get _ _ _ _ _ _ H1) as (_ & _ & Hok). destruct (Hok old eq_refl) as (row & Hrow & Hold).
  destruct (exec (RotateSecret f now t _) db1) as [db2 r2] eqn:H2. pose proof (exec_rotate _ _ _ _ _ _ _ _ Hrow H2) as Hrot.
  destruct r2 as [u|]; [|done]. destruct Hrot as (cur & next & Hcur & _ & ->). assert (cur = old) as -> by congruence.
  set (row' := mkSecret (Std_Encode next) (Some (Std_Encode old)) (Some (Unix (now + secretGraceWindow))) (Some t)) in *.
  destruct (exec (GetOrCreateSecret f2 t _) _) as [db3 got] eqn:H3. destruct got as [new|]; [|done].
  destruct (exec_get _ _ _ _ _ _ H3) as (_ & Hex & Hok3). destruct (Hex row') as [-> _]; [apply lookup_insert_eq|].
  destruct (Hok3 new eq_refl) as (row3 & Hrow3 & Hnew). rewrite lookup_insert_eq in Hrow3. injection Hrow3 as <-.
  destruct (ReencryptPrivateKey g old new s) as [s1 e] eqn:Hr. intros [= <- <- ->].
  exists old, new, row'. rewrite lookup_insert_eq. split_and!; [done..|apply (resealed g old new s s1 Hn Hr)|apply (resealed g old new s s1 Hn Hr)|apply (resealed g old new s s1 Hn Hr)].
Qed.
End resealing.

(** ** Rotating keys *)

Section rotating.
  Context `{SecretCipherLaws} `{RowChoiceLaws}.
Lemma NoDup_singleton_list {A} (x : A) l : NoDup l -> x ∈ l -> (forall y, y ∈ l -> y = x) -> l = [x].
Proof.
  intros Hnd Hx Hall. destruct l as [|y l]; [by apply elem_of_nil in Hx|]. assert (y = x) as -> by (apply Hall; left).
  destruct l as [|z l]; [done|]. assert (z = x) as -> by (apply Hall; right; left). apply NoDup_cons in Hnd as [Hn _]. exfalso. apply Hn. left.
Qed.
Lemma archived_match_own fp expires : archived_match fp (archive_name fp expires private_suffix) = true.
Proof.
  unfold archived_match, archive_name. rewrite !andb_true_iff. split_and!.
  - apply HasPrefix_true. exists (Itoa expires ++ private_suffix). by rewrite <- !app_assoc.
  - apply HasSuffix_true. exists (fp ++ str "." ++ Itoa expires). by rewrite <- !app_assoc.
  - apply Nat.leb_le. rewrite !length_app. change (length (str ".")) with 1%nat. lia.
Qed.
Lemma archived_match_public fp fp' expires : archived_match fp (archive_name fp' expires public_suffix) = false.
Proof.
  apply not_true_iff_false. unfold archived_match, archive_name. rewrite !andb_true_iff. intros [[_ Hs] _]. apply HasSuffix_true in Hs as [k Hk].
  rewrite !app_assoc in Hk. by eapply suffixes_differ.
Qed.
Lemma archive_current f fp expiresAt now s s' :
  ArchiveCurrentKeypair f fp expiresAt now s = (s', None) ->
  validFingerprint fp = true /\ exists pub priv a, files s !! publicKeyFile = Some pub /\ files s !! privateKeyFile = Some priv /\
  (forall k, a !! k = None \/ a !! k = archive s !! k) /\
  s' = mkStore (files s) (<[archive_name fp (Unix expiresAt) private_suffix := priv]> (<[archive_name fp (Unix expiresAt) public_suffix := pub]> a)).
Proof.
  unfold ArchiveCurrentKeypair. destruct (validFingerprint fp); [|done]. cbn [negb orb]. destruct (_ =? _); [done|]. destruct (k_dir f); [done|].
  destruct (PruneArchivedKeypairs _ _ _ _) as [a ok] eqn:Hp. destruct ok; [|done]. cbn [negb]. destruct (k_mkdir f); [done|].
  assert (forall k, a !! k = None \/ a !! k = archive s !! k) as Hsub.
  { intros k. unfold PruneArchivedKeypairs in Hp. destruct (k_read f); [done|]. pose proof (prune_list_subset (k_remove f) now (entries (archive s)) (archive s) k) as Hs. by rewrite Hp in Hs. }
  unfold archive_one. destruct (files s !! publicKeyFile) as [pub|] eqn:Hpub; [|done]. destruct (k_public f); cbn [write_file]; try done.
  destruct (files s !! privateKeyFile) as [priv|] eqn:Hpriv; [|done]. destruct (k_private f); cbn [write_file]; try done. intros [= <-]. split; [done|]. by exists pub, priv, a.
Qed.
Lemma save_and_record_ok f secret kp w w' :
  (forall n, v_nonce (z_save f) = Some n -> length n = nonceSize) -> save_and_record f secret kp w = (w', None) ->
  w_secrets w' = w_secrets w /\ archive (w_store w') = archive (w_store w) /\ LoadPublic (w_store w') = Some (PublicArmor kp) /\
  LoadPrivateArmor secret (w_store w') = Ok (PrivateArmor kp) /\
  w_rows w' = w_rows w ++ [mkRecord (Fingerprint kp) (Unix (CreatedAt kp)) (Unix (ExpiresAt kp)) None ∅ false].
Proof.
  intros Hn. unfold save_and_record, SaveKeypair. destruct (v_dir (z_save f)); [done|]. destruct (v_public (z_save f)); cbn [write_file]; try done. cbn [negb].
  destruct (EncryptWithSecret _ _ _ _) as [sealed|] eqn:He; [|done]. destruct (v_private (z_save f)); cbn [write_file]; try done.
  unfold InsertRecord. destruct (_ || _); [done|]. intros [= <-]. cbn [w_secrets w_store w_rows archive files]. split_and!; [done..| | |done].
  - unfold LoadPublic. cbn [files]. rewrite lookup_insert_ne by done. apply lookup_insert_eq.
  - unfold LoadPrivateArmor. cbn [files]. rewrite lookup_insert_eq. cbn [opened]. by rewrite (decrypt_encrypt_secret _ _ _ _ _ Hn He).
Qed.
Lemma newest_active rows r :
  r ∈ rows -> kr_revoked r = false -> (forall r', r' ∈ rows -> r' = r \/ kr_created r' < kr_created r) -> ActiveRecord rows = Some r.
Proof.
  intros Hin Hlive Hmax. unfold ActiveRecord.
  assert (forall r', r' ∈ newest rows <-> r' = r) as Hnew.
  { intros r'. unfold newest. rewrite !list_elem_of_filter, forallb_forall. split.
    - intros (Hall & Hl & Hr'). destruct (Hmax r' Hr') as [->|Hlt]; [done|]. specialize (Hall r).
      rewrite <- list_elem_of_In, list_elem_of_filter in Hall. specialize (Hall (conj Hlive Hin)). lia.
    - intros ->. split_and!; [|done..]. intros r' [_ Hr']%list_elem_of_In%list_elem_of_filter. destruct (Hmax r' Hr') as [->|]; lia. }
  destruct (choose_some (newest rows)) as [r' Hr']; [intros E; assert (r ∈ newest rows) as Hx by (by apply Hnew); rewrite E in Hx; by apply elem_of_nil in Hx|].
  rewrite Hr'. f_equal. apply Hnew. by apply choose_in.
Qed.
(** After a key rotation that reports no error the new key is on disk, sealed with
    the secret, and the retired private key can be read, as it could before, for thirty
    days, whatever is pruned in the meantime; the record of the new key is the active
    one when it is the newest. *)
Theorem key_rotation_retires f now t w w' old kp :
  (forall n, v_nonce (z_save f) = Some n -> length n = nonceSize) -> pgpRotate f now t w = (w', None) -> z_key f = Some kp ->
  ActiveRecord (w_rows w) = Some old -> 0 <= Unix (now + RotationGrace) <= MaxInt64 ->
  (forall name, is_Some (archive (w_store w) !! name) -> archived_match (kr_fingerprint old) name = false) ->
  exists secret, (exec (GetOrCreateSecret (z_get f) t SecretInstallationSecret) (w_secrets w)).2 = Ok secret /\
  LoadPublic (w_store w') = Some (PublicArmor kp) /\ LoadPrivateArmor secret (w_store w') = Ok (PrivateArmor kp) /\
  (forall later read fails, later <= now + RotationGrace ->
     LoadArchivedPrivateArmor (kr_fingerprint old) secret (mkStore (files (w_store w')) (PruneArchivedKeypairs read fails later (archive (w_store w'))).1)
     = LoadPrivateArmor secret (w_store w)) /\
  ((forall r, r ∈ w_rows w -> kr_created r < Unix (CreatedAt kp)) ->
     exists r, ActiveRecord (w_rows w') = Some r /\ kr_fingerprint r = Fingerprint kp).
Proof.
  intros Hn. unfold pgpRotate, with_secret. destruct (exec _ (w_secrets w)) as [secrets got]. destruct got as [secret|]; [|done].
  intros Hrot Hkey Hold Hexp Hfree. exists secret. split; [done|]. rewrite Hkey in Hrot. cbn [w_rows w_store w_secrets w_publish] in Hrot. rewrite Hold in Hrot.
  destruct (ArchiveCurrentKeypair _ _ _ _ _) as [s1 e1] eqn:Ha. destruct e1; [done|].
  destruct (archive_current _ _ _ _ _ _ Ha) as (Hfp & pub & priv & a & Hpub & Hpriv & Hsub & ->).
  destruct (save_and_record _ _ _ _) as [w2 e2] eqn:Hs. destruct e2; [done|]. injection Hrot as <-.
  destruct (save_and_record_ok _ _ _ _ _ Hn Hs) as (_ & Harch & Hpub' & Hpriv' & Hrows). cbn [w_store w_rows archive] in *.
  split_and!; [done..| |].
  - intros later read fails Hlater. unfold LoadArchivedPrivateArmor. rewrite Hfp. cbn [negb archive]. rewrite Harch.
    set (name := archive_name (kr_fingerprint old) (Unix (now + RotationGrace)) private_suffix).
    set (a3 := <[name := priv]> _). set (a4 := (PruneArchivedKeypairs read fails later a3).1).
    assert (a4 !! name = Some priv) as Hname.
    { unfold a4, name. rewrite prune_keeps; [apply lookup_insert_eq|done..|by apply Unix_mono]. }
    assert (filter (fun k => archived_match (kr_fingerprint old) k = true) (entries a4) = [name]) as ->.
    { apply NoDup_singleton_list; [apply NoDup_filter, NoDup_entries|apply list_elem_of_filter; split; [apply archived_match_own|apply elem_of_entries; by rewrite Hname]|].
      intros k [Hm Hk]%list_elem_of_filter. apply elem_of_entries in Hk as [v Hv]. destruct (decide (k = name)) as [|Hne]; [done|exfalso].
      assert (a3 !! k = Some v) as H3.
      { revert Hv. unfold a4, PruneArchivedKeypairs. destruct read; [done|]. by destruct (prune_list_subset fails later (entries a3) a3 k) as [->| ->]. }
      unfold a3 in H3. rewrite lookup_insert_ne in H3 by congruence. apply lookup_insert_Some in H3 as [[<- _]|[_ H3]]; [by rewrite archived_match_public in Hm|].
      destruct (Hsub k) as [E|E]; rewrite E in H3; [done|]. rewrite Hfree in Hm by (by eexists). done. }
    unfold LoadPrivateArmor. by rewrite Hname, Hpriv.
  - intros Hnewer. rewrite Hrows. set (new := mkRecord (Fingerprint kp) (Unix (CreatedAt kp)) (Unix (ExpiresAt kp)) None ∅ false).
    unfold MarkRotated. destruct (z_mark f).
    + exists new. split; [|done]. apply newest_active; [apply elem_of_app; right; left|done|].
      intros r' [Hr'|Hr'%list_elem_of_singleton]%elem_of_app; [right; by apply Hnewer|by left].
    + eexists. split; [eapply newest_active with (r := if kr_fingerprint new =s kr_fingerprint old then _ else new)|].
      * unfold on_key. rewrite fmap_app. apply elem_of_app. right. left.
      * by case_bool_decide.
      * intros r' (r0 & -> & [Hr0|Hr0%list_elem_of_singleton]%elem_of_app)%list_elem_of_fmap; [right|left; by rewrite Hr0].
        specialize (Hnewer r0 Hr0). by repeat case_bool_decide.
      * by case_bool_decide.
Qed.
End rotating.

(** ** Examples *)

#[local] Instance first_row : RowChoice := {| choose := head |}.
#[local] Instance first_row_laws : RowChoiceLaws.
Proof. split; [intros [|x l] r [= <-]; left|intros [|x l] Hne; [done|by eexists]]. Qed.
Definition seal_with (secret armor : gostr) : gostr := nonce12 ++ (secret ++ privateKeyKDFInfo) ++ armor.
Definition demo_store : store := mkStore {[publicKeyFile := str "pub"; privateKeyFile := seal_with (str "root") (str "priv")]} ∅.
Definition root_secret : app_secrets := {[SecretInstallationSecret := mkSecret (Std_Encode (str "root")) None None (Some 0)]}.
Definition reseals (w : write_result) : reseal_faults := mkReseal (fun _ => Some nonce12) (fun _ => w) false.
Definition rotates (raw : string) (w : write_result) (x : app_secrets * store) : app_secrets * store * option store_error :=
  rotateInstallationSecret (H := toy_cipher) (draws raw) (draws raw) (mkRotate (draws raw) (Some (str raw)) false) (reseals w) 0 0 x.1 x.2.
Lemma secret_rotation_keeps_keys_witness :
  match rotates "new" Written (root_secret, demo_store) with
  | (_, s', None) => exists new, LoadPrivateArmor (H := toy_cipher) new s' = Ok (str "priv")
  | _ => False
  end.
Proof.
  destruct (rotates "new" Written (root_secret, demo_store)) as [[secrets' s'] e] eqn:E. destruct e as [err|].
  - apply (f_equal snd) in E. vm_compute in E. discriminate.
  - assert (forall name n, y_nonce (reseals Written) name = Some n -> length n = nonceSize) as Hn by (by intros name n [= <-]).
    destruct (secret_rotation_keeps_keys (H := toy_cipher) (H0 := toy_laws) _ _ _ _ _ _ _ _ _ _ Hn E) as (old & new & row & _ & _ & _ & Hold & _ & Hpriv & _).
    destruct Hpriv as (armor & Ha & Hnew); [reflexivity|]. exists new. rewrite Hnew. vm_compute in Hold. injection Hold as <-. vm_compute in Ha. by injection Ha as <-.
Defined.
Definition demo_ring : keyring := mkRing root_secret demo_store [mkRecord demo_fp 1000 2000 None ∅ false] true.
Definition new_pair : Keypair := mkKeypair (replicate 40 "b"%char) (str "pub2") (str "priv2") (5000 * Second) (9000 * Second).
Definition no_faults : command_faults :=
  mkCommand (draws "x") (Some new_pair) (mkSave false Written (Some nonce12) Written) false (mkArchive false false (fun _ => false) false Written Written)
    false (fun _ => false) false.
Lemma key_rotation_retires_witness :
  match pgpRotate (H := toy_cipher) no_faults (5000 * Second) 5000 demo_ring with
  | (w', None) => LoadArchivedPrivateArmor (H := toy_cipher) demo_fp (str "root")
      (mkStore (files (w_store w')) (PruneArchivedKeypairs false (fun _ => false) (6000 * Second) (archive (w_store w'))).1) = Ok (str "priv")
  | (_, Some _) => False
  end.
Proof.
  destruct (pgpRotate (H := toy_cipher) no_faults (5000 * Second) 5000 demo_ring) as [w' e] eqn:E. destruct e as [err|].
  - apply (f_equal snd) in E. vm_compute in E. discriminate.
  - assert (forall n, v_nonce (z_save no_faults) = Some n -> length n = nonceSize) as Hn by (by intros n [= <-]).
    destruct (key_rotation_retires (H := toy_cipher) (H0 := toy_laws) no_faults (5000 * Second) 5000 demo_ring w' (mkRecord demo_fp 1000 2000 None ∅ false) new_pair Hn E eq_refl)
      as (secret & Hsec & _ & _ & Harch & _); [vm_compute; reflexivity|vm_compute; split; discriminate|by intros name [v Hv]|].
    vm_compute in Hsec. injection Hsec as <-. refine (eq_trans (Harch (6000 * Second) false (fun _ => false) _) _); [vm_compute; discriminate|]. vm_compute. reflexivity.
Defined.

(** ** Observations *)

(** The secret is rotated before the keys are re-encrypted.  When that fails, a second
    attempt rotates it again: then neither the secret in force nor the one kept for the
    grace period opens the private key. *)
Lemma failed_rotation_loses_key :
  let '(secrets1, s1, e1) := rotates "second" NotOpened (root_secret, demo_store) in
  let '(secrets2, s2, e2) := rotates "third" Written (secrets1, s1) in
  e1 = Some WriteFailed /\ e2 = Some OpenFailed /\
  (exec (GetOrCreateSecret (draws "x") 0 SecretInstallationSecret) secrets2).2 = Ok (str "third") /\
  (exec (PreviousSecret false 0 SecretInstallationSecret) secrets2).2 = Ok (Some (str "second")) /\
  LoadPrivateArmor (H := toy_cipher) (str "third") s2 = Err OpenFailed /\ LoadPrivateArmor (H := toy_cipher) (str "second") s2 = Err OpenFailed.
Proof. vm_compute. done. Qed.
(** An imported key that was created before the present one does not become the active
    record, although it is the key on disk. *)
Lemma imported_key_not_active :
  let older := mkKeypair (replicate 40 "b"%char) (str "pub2") (str "priv2") (500 * Second) 0 in
  let '(w, e) := pgpImport (H := toy_cipher) no_faults 5000 (str "IMPORT PRIVATE KEY", []) (Some (older, true)) demo_ring in
  e = None /\ LoadPublic (w_store w) = Some (str "pub2") /\ kr_fingerprint <$> ActiveRecord (w_rows w) = Some demo_fp.
Proof. vm_compute. done. Qed.
(** A key whose private part cannot be written replaces the public key all the same. *)
Lemma public_without_private :
  let f := mkCommand (draws "x") (Some new_pair) (mkSave false Written (Some nonce12) NotOpened) false (mkArchive false false (fun _ => false) false Written Written)
             false (fun _ => false) false in
  let '(w, e) := pgpGenerate (H := toy_cipher) f 5000 demo_ring in
  e = Some WriteFailed /\ LoadPublic (w_store w) = Some (str "pub2") /\ LoadPrivateArmor (H := toy_cipher) (str "root") (w_store w) = Ok (str "priv").
Proof. vm_compute. done. Qed.
(** Generating a key while there is one overwrites it without archiving it. *)
Lemma generate_overwrites :
  let '(w, e) := pgpGenerate (H := toy_cipher) no_faults 5000 demo_ring in
  e = None /\ LoadPrivateArmor (H := toy_cipher) (str "root") (w_store w) = Ok (str "priv2") /\ archive (w_store w) = ∅.
Proof. vm_compute. done. Qed.

(** *** Keyservers *)

(** A key is offered to a server at most three times, with waits of two and four
    seconds, and no more after it is taken. *)
Lemma publishOne_spec respond :
  (publishOne respond).1 = existsb accepted [respond 0%nat; respond 1%nat; respond 2%nat] /\
  (publishOne respond).2 = (if accepted (respond 0%nat) then [] else if accepted (respond 1%nat) then [2 * Second] else [2 * Second; 4 * Second]).
Proof.
  unfold publishOne, publishRetries. cbn [publish_from existsb]. destruct (accepted (respond 0%nat)), (accepted (respond 1%nat)), (accepted (respond 2%nat)); done.
Qed.
