(* ===== verification/Onion.v ===== *)
(** * The hidden service: [tor/tor.go] and [tor/vanity.go]

    Addresses and key files of version 3 hidden services, the search for an address
    with a chosen prefix, the directories it publishes its finds in, and the manager
    that starts and stops the Tor process and exchanges its keys.  The hashes and the
    Tor process are parameters.

    The theorems: different keys have different addresses and exactly the prefixes the
    search accepts can occur; key files read back; in every interleaving of a search
    its finds have its prefix and a stopped search has no workers; a candidate is
    published with all its files or not at all; a failed start leaves nothing open. *)
From stdpp Require Import base list gmap strings relations.
From Stdlib Require Import ZArith Lia.
From S2P Require Import Prelude GoStrings GoUtf8 GoUrl Restore Startup.
Local Open Scope Z_scope.
Local Open Scope go_scope.

(** ** Addresses *)

(** [base32.StdEncoding] without padding, on whole groups of five bytes. *)
Definition b32_alphabet : gostr := str "ABCDEFGHIJKLMNOPQRSTUVWXYZ234567".
Definition b32_digit (n : Z) : ascii := nth (Z.to_nat n) b32_alphabet "A"%char.
Definition b32_group (a b c d e : ascii) : list Z :=
  let n := code a * 2 ^ 32 + code b * 2 ^ 24 + code c * 2 ^ 16 + code d * 2 ^ 8 + code e in
  [n / 2 ^ 35 mod 32; n / 2 ^ 30 mod 32; n / 2 ^ 25 mod 32; n / 2 ^ 20 mod 32; n / 2 ^ 15 mod 32; n / 2 ^ 10 mod 32; n / 2 ^ 5 mod 32; n mod 32].
Fixpoint b32_encode (s : gostr) : gostr :=
  match s with
  | a :: b :: c :: d :: e :: rest => (b32_digit <$> b32_group a b c d e) ++ b32_encode rest
  | _ => []
  end.
(** [copy] into an array of [n] zero bytes. *)
Definition fixed (n : nat) (s : gostr) : gostr := take n (s ++ replicate n (chr 0)).

Section addresses.
  Context `{UnicodeTables} (sha3_256 : gostr -> gostr) (sha512 : gostr -> gostr).
Definition onionVersion : ascii := chr 3.
Definition onionChecksum (pub : gostr) : gostr := take 2 (sha3_256 (str ".onion checksum" ++ pub ++ [onionVersion])).
Definition OnionAddress (pub : gostr) : gostr := ToLower (b32_encode (fixed 32 pub ++ fixed 2 (onionChecksum pub) ++ [onionVersion])) ++ str ".onion".

(** ** Key files *)

Definition secretKeyHeader : gostr := str "== ed25519v1-secret: type0 ==".
Definition publicKeyHeader : gostr := str "== ed25519v1-public: type0 ==".
(** One byte of a digest with a mask applied. *)
Definition on_byte (i : nat) (f : Z -> Z) (s : gostr) : gostr := alter (fun c => chr (f (code c))) i s.
Definition EncodeSecretKeyFile (seed : gostr) : gostr :=
  let expanded := fixed 64 (sha512 seed) in
  let expanded := on_byte 0 (fun b => Z.land b 248) expanded in
  let expanded := on_byte 31 (fun b => Z.lor (Z.land b 127) 64) expanded in
  fixed 32 secretKeyHeader ++ expanded.
Definition EncodePublicKeyFile (pub : gostr) : gostr := fixed 32 publicKeyHeader ++ fixed 32 pub.
Definition trimNUL (b : gostr) : gostr := TrimRight b [chr 0].
Inductive key_error := WrongLength | WrongHeader.
Definition DecodePublicKeyFile (data : gostr) : result key_error gostr :=
  if negb (Nat.eqb (length data) 64) then Err WrongLength
  else if trimNUL (take 32 data) <>s publicKeyHeader then Err WrongHeader
  else Ok (fixed 32 (drop 32 data)).
Definition secret_file_ok (data : gostr) : bool := Nat.eqb (length data) 96 && (trimNUL (take 32 data) =s secretKeyHeader).

(** ** Prefixes *)

Definition MaxVanityPrefixLen : nat := 6.
Inductive prefix_error := EmptyPrefix | PrefixTooLong | BadCharacter.
Definition base32_char (r : Z) : bool := ((97 <=? r) && (r <=? 122)) || ((50 <=? r) && (r <=? 55)).
Definition ValidateVanityPrefix (prefix : gostr) : option prefix_error :=
  if prefix =s [] then Some EmptyPrefix
  else if (MaxVanityPrefixLen <? length prefix)%nat then Some PrefixTooLong
  else if forallb base32_char (runes prefix) then None else Some BadCharacter.
End addresses.

(** ** Distinct addresses *)

Lemma below_32 (p : Z -> bool) : forallb p (Z.of_nat <$> seq 0 32) = true -> forall n, 0 <= n < 32 -> p n = true.
Proof.
  intros H n Hn. rewrite forallb_forall in H. apply H, list_elem_of_In, list_elem_of_fmap. exists (Z.to_nat n).
  split; [lia|]. apply elem_of_seq. lia.
Qed.
Definition b32_lower (n : Z) : ascii := lower_ascii (b32_digit n).
Definition b32_value (c : ascii) : Z := if code c <? 97 then code c - 24 else code c - 97.
Lemma b32_value_lower n : 0 <= n < 32 -> b32_value (b32_lower n) = n.
Proof. intros Hn. apply Z.eqb_eq. revert n Hn. apply (below_32 (fun n => b32_value (b32_lower n) =? n)). by vm_compute. Qed.
Lemma b32_lower_char n : 0 <= n < 32 -> base32_char (code (b32_lower n)) = true.
Proof. revert n. apply below_32. by vm_compute. Qed.
Lemma b32_digit_ascii n : 0 <= n < 32 -> isASCII (b32_digit n) = true.
Proof. revert n. apply below_32. by vm_compute. Qed.
Lemma b32_group_range a b c d e : Forall (fun n => 0 <= n < 32) (b32_group a b c d e).
Proof. unfold b32_group. cbv zeta. repeat (apply Forall_cons_2; [apply Z.mod_pos_bound; lia|]). constructor. Qed.
Lemma b32_group_inj a b c d e a' b' c' d' e' : b32_group a b c d e = b32_group a' b' c' d' e' -> [a; b; c; d; e] = [a'; b'; c'; d'; e'].
Proof.
  intros Heq. digits_of_bytes. unfold b32_group in Heq. cbv zeta in Heq. injection Heq as E7 E6 E5 E4 E3 E2 E1 E0.
  set (n := code a * 2 ^ 32 + code b * 2 ^ 24 + code c * 2 ^ 16 + code d * 2 ^ 8 + code e) in *.
  set (m := code a' * 2 ^ 32 + code b' * 2 ^ 24 + code c' * 2 ^ 16 + code d' * 2 ^ 8 + code e') in *.
  assert (forall x, 0 <= x < 2 ^ 40 -> x = ((((((x / 2 ^ 35 mod 32 * 32 + x / 2 ^ 30 mod 32) * 32 + x / 2 ^ 25 mod 32) * 32 + x / 2 ^ 20 mod 32) * 32 + x / 2 ^ 15 mod 32) * 32 + x / 2 ^ 10 mod 32) * 32 + x / 2 ^ 5 mod 32) * 32 + x mod 32) as Hval.
  { intros x Hx. Z.div_mod_to_equations. lia. }
  assert (n = m) as Hnm by (rewrite (Hval n), (Hval m) by (unfold n, m; lia); congruence).
  assert (code a = code a' /\ code b = code b' /\ code c = code c' /\ code d = code d' /\ code e = code e') as (Ha & Hb & Hc & Hd & He) by (unfold n, m in Hnm; lia).
  rewrite <- (chr_code a), <- (chr_code b), <- (chr_code c), <- (chr_code d), <- (chr_code e), Ha, Hb, Hc, Hd, He. by rewrite !chr_code.
Qed.
Fixpoint b32_values (s : gostr) : list Z :=
  match s with
  | a :: b :: c :: d :: e :: rest => b32_group a b c d e ++ b32_values rest
  | _ => []
  end.
Fixpoint five_ind (P : gostr -> Prop) (H0 : P []) (H1 : forall a, P [a]) (H2 : forall a b, P [a; b]) (H3 : forall a b c, P [a; b; c])
    (H4 : forall a b c d, P [a; b; c; d]) (H5 : forall a b c d e s, P s -> P (a :: b :: c :: d :: e :: s)) (s : gostr) : P s :=
  match s with
  | [] => H0 | [a] => H1 a | [a; b] => H2 a b | [a; b; c] => H3 a b c | [a; b; c; d] => H4 a b c d
  | a :: b :: c :: d :: e :: rest => H5 a b c d e rest (five_ind P H0 H1 H2 H3 H4 H5 rest)
  end.
Lemma b32_encode_values s : b32_encode s = b32_digit <$> b32_values s.
Proof. induction s as [| | | | |a b c d e s IH] using five_ind; try done. cbn [b32_encode b32_values]. by rewrite fmap_app, IH. Qed.
Lemma b32_values_range s : Forall (fun n => 0 <= n < 32) (b32_values s).
Proof. induction s as [| | | | |a b c d e s IH] using five_ind; [constructor..|]. cbn [b32_values]. apply Forall_app. split; [apply b32_group_range|exact IH]. Qed.
Lemma b32_values_length s k : length s = (5 * k)%nat -> length (b32_values s) = (8 * k)%nat.
Proof.
  revert k. induction s as [| | | | |a b c d e s IH] using five_ind; intros k Hk; cbn [length] in Hk; try (destruct k; cbn in *; lia).
  cbn [b32_values]. rewrite length_app. destruct k as [|k]; [cbn in Hk; lia|]. rewrite (IH k) by lia. cbn. lia.
Qed.
Lemma b32_values_inj s t k : length s = (5 * k)%nat -> length t = (5 * k)%nat -> b32_values s = b32_values t -> s = t.
Proof.
  revert t k. induction s as [| | | | |a b c d e s IH] using five_ind; intros t k Hs Ht; cbn [length] in Hs; try (exfalso; lia).
  - destruct k; [|lia]. by destruct t.
  - destruct t as [|a' [|b' [|c' [|d' [|e' t]]]]]; cbn [length] in Ht; try lia. cbn [b32_values].
    intros [Hg Hv]%app_inj_1; [|done]. apply b32_group_inj in Hg. injection Hg as -> -> -> -> ->. do 5 f_equal.
    eapply (IH t (k - 1)%nat); [lia|lia|done].
Qed.

Section address_facts.
  Context `{UnicodeTables} (sha3_256 : gostr -> gostr).
Notation Address := (OnionAddress sha3_256).
Lemma lower_encode s : ToLower (b32_encode s) = b32_lower <$> b32_values s.
Proof.
  rewrite b32_encode_values. unfold ToLower. pose proof (b32_values_range s) as Hr. replace (forallb isASCII (b32_digit <$> b32_values s)) with true.
  - rewrite <- list_fmap_compose. done.
  - symmetry. apply forallb_forall. intros c (n & -> & Hn)%list_elem_of_In%list_elem_of_fmap. rewrite Forall_forall in Hr. by apply b32_digit_ascii, Hr.
Qed.
Lemma fixed_exact n s : length s = n -> fixed n s = s.
Proof. intros <-. unfold fixed. apply take_app_length. Qed.
Lemma length_fixed n s : length (fixed n s) = n.
Proof. unfold fixed. rewrite length_take, length_app, length_replicate. lia. Qed.
Definition address_bytes (pub : gostr) : gostr := fixed 32 pub ++ fixed 2 (onionChecksum sha3_256 pub) ++ [onionVersion].
Lemma address_bytes_length pub : length (address_bytes pub) = (5 * 7)%nat.
Proof. unfold address_bytes. rewrite !length_app, !length_fixed. done. Qed.
Lemma Address_values pub : Address pub = (b32_lower <$> b32_values (address_bytes pub)) ++ str ".onion".
Proof. unfold OnionAddress. by rewrite lower_encode. Qed.
Lemma OnionAddress_chars p : length p = 32%nat -> forallb (fun c => base32_char (code c)) (take 56 (Address p)) = true.
Proof.
  intros Hp. rewrite Address_values. pose proof (b32_values_length _ _ (address_bytes_length p)) as Hl.
  rewrite take_app_le by (rewrite length_fmap; lia). rewrite take_ge by (rewrite length_fmap; lia). apply forallb_forall.
  intros c (n & -> & Hn)%list_elem_of_In%list_elem_of_fmap. pose proof (b32_values_range (address_bytes p)) as Hr. rewrite Forall_forall in Hr. by apply b32_lower_char, Hr.
Qed.
(** Different public keys have different addresses, and every address is 56
    characters of the alphabet and the suffix. *)
Theorem OnionAddress_injective p q :
  length p = 32%nat -> length q = 32%nat ->
  length (Address p) = 62%nat /\ forallb (fun c => base32_char (code c)) (take 56 (Address p)) = true /\ (Address p = Address q -> p = q).
Proof.
  intros Hp Hq. split_and!; [|by apply OnionAddress_chars|]; rewrite !Address_values; pose proof (b32_values_length _ _ (address_bytes_length p)) as Hl.
  - rewrite length_app, length_fmap, Hl. done.
  - intros [E _]%app_inj_1; [|by rewrite !length_fmap, Hl, (b32_values_length _ _ (address_bytes_length q))].
    assert (b32_values (address_bytes p) = b32_values (address_bytes q)) as Ev.
    { assert (forall s, b32_value <$> (b32_lower <$> b32_values s) = b32_values s) as Hinv.
      { intros s. rewrite <- list_fmap_compose. rewrite <- (list_fmap_id (b32_values s)) at 2. apply list_fmap_ext. intros i n Hn.
        pose proof (b32_values_range s) as Hr. rewrite Forall_lookup in Hr. apply b32_value_lower. by eapply Hr. }
      rewrite <- (Hinv (address_bytes p)), E. apply Hinv. }
    apply (b32_values_inj _ _ 7 (address_bytes_length p) (address_bytes_length q)) in Ev. unfold address_bytes in Ev.
    apply app_inj_1 in Ev as [Ev _]; [|by rewrite !length_fixed]. by rewrite !fixed_exact in Ev.
Qed.

(** ** The prefixes that can occur *)

Lemma land_masks x : Z.land x 31 = x mod 32 /\ Z.land x 63 = x mod 64 /\ Z.land x 15 = x mod 16 /\ Z.land x 7 = x mod 8.
Proof. split_and!; [apply (Z.land_ones x 5)|apply (Z.land_ones x 6)|apply (Z.land_ones x 4)|apply (Z.land_ones x 3)]; lia. Qed.
Ltac lands := repeat match goal with
  | |- context [Z.land ?x 31] => rewrite (proj1 (land_masks x))
  | |- context [Z.land ?x 63] => rewrite (proj1 (proj2 (land_masks x)))
  | |- context [Z.land ?x 15] => rewrite (proj1 (proj2 (proj2 (land_masks x))))
  | |- context [Z.land ?x 7] => rewrite (proj2 (proj2 (proj2 (land_masks x))))
  end.
Lemma decode_wide c s : 128 <= code c -> 128 <= (decode_rune c s).1.
Proof.
  intros Hc. unfold decode_rune, RuneError, within, cont, second3, second4. pose proof (code_byte c). destruct (Z.ltb_spec (code c) 128); [lia|].
  destruct ((194 <=? code c) && (code c <=? 223)) eqn:E2.
  { apply andb_true_iff in E2 as [?%Z.leb_le ?%Z.leb_le]. destruct s as [|c1 s]; [cbn; lia|]. pose proof (code_byte c1). destruct (_ && _); [|cbn; lia]. lands. cbn [fst]. bool_facts. zlia. }
  destruct ((224 <=? code c) && (code c <=? 239)) eqn:E3.
  { clear E2. apply andb_true_iff in E3 as [?%Z.leb_le ?%Z.leb_le]. destruct s as [|c1 [|c2 s]]; [cbn; lia..|]. pose proof (code_byte c1). pose proof (code_byte c2). lands.
    destruct (code c =? 224) eqn:Ec; cbn [fst snd].
    - destruct (_ && _ && _) eqn:E; [|cbn; lia]. cbn [fst]. bool_facts. zlia.
    - destruct (code c =? 237); cbn [fst snd]; (destruct (_ && _ && _) eqn:E; [|cbn; lia]); cbn [fst]; bool_facts; zlia. }
  destruct ((240 <=? code c) && (code c <=? 244)) eqn:E4; [|cbn; lia].
  clear E2 E3. apply andb_true_iff in E4 as [?%Z.leb_le ?%Z.leb_le]. destruct s as [|c1 [|c2 [|c3 s]]]; [cbn; lia..|]. pose proof (code_byte c1). pose proof (code_byte c2). pose proof (code_byte c3). lands.
  destruct (code c =? 240) eqn:Ec; cbn [fst snd].
  - destruct (_ && _ && _ && _) eqn:E; [|cbn; lia]. cbn [fst]. bool_facts. zlia.
  - destruct (code c =? 244); cbn [fst snd]; (destruct (_ && _ && _ && _) eqn:E; [|cbn; lia]); cbn [fst]; bool_facts; zlia.
Qed.
Lemma narrow_runes_ascii s : forallb (fun r => r <? 128) (runes s) = true -> forallb isASCII s = true.
Proof.
  unfold runes. induction s as [|c s IH]; [done|]. cbn [runes_from]. destruct (decode_rune c s) as [r w] eqn:E. cbn [forallb]. intros [Hr Hs]%andb_true_iff.
  assert (code c < 128) as Hc.
  { destruct (Z.lt_ge_cases (code c) 128) as [|Hge]; [done|]. pose proof (decode_wide c s Hge) as Hw. rewrite E in Hw. cbn in Hw. lia. }
  assert (w = 1%nat) as ->. { unfold decode_rune in E. destruct (Z.ltb_spec (code c) 128); [by injection E|lia]. }
  apply andb_true_iff. split; [unfold isASCII; lia|by apply IH].
Qed.
(** The five bytes whose first digits are given. *)
Definition digits_number (vs : list Z) : Z := fold_left (fun n v => n * 32 + v) (take 8 (vs ++ replicate 8 0)) 0.
Definition number_bytes (n : Z) : gostr := chr <$> [n / 2 ^ 32; n / 2 ^ 24 mod 256; n / 2 ^ 16 mod 256; n / 2 ^ 8 mod 256; n mod 256].
Lemma number_group v0 v1 v2 v3 v4 v5 :
  Forall (fun v => 0 <= v < 32) [v0; v1; v2; v3; v4; v5] ->
  match number_bytes (digits_number [v0; v1; v2; v3; v4; v5]) with
  | [a; b; c; d; e] => b32_group a b c d e = [v0; v1; v2; v3; v4; v5; 0; 0]
  | _ => False
  end.
Proof.
  intros Hv. repeat (apply Forall_cons in Hv as [? Hv]). clear Hv. unfold digits_number. cbn [app take replicate fold_left].
  set (n := (((((((0 * 32 + v0) * 32 + v1) * 32 + v2) * 32 + v3) * 32 + v4) * 32 + v5) * 32 + 0) * 32 + 0).
  assert (0 <= n < 2 ^ 40) as Hn by (unfold n; lia). cbn [number_bytes fmap list_fmap]. unfold b32_group. cbv zeta.
  rewrite !code_chr by (Z.div_mod_to_equations; lia).
  assert (n / 2 ^ 32 * 2 ^ 32 + n / 2 ^ 24 mod 256 * 2 ^ 24 + n / 2 ^ 16 mod 256 * 2 ^ 16 + n / 2 ^ 8 mod 256 * 2 ^ 8 + n mod 256 = n) as -> by (Z.div_mod_to_equations; lia).
  repeat f_equal; unfold n; Z.div_mod_to_equations; lia.
Qed.
Definition pub_of (vs : list Z) : gostr := number_bytes (digits_number vs) ++ replicate 27 (chr 0).
Lemma base32_char_value c : base32_char (code c) = true -> 0 <= b32_value c < 32 /\ b32_lower (b32_value c) = c.
Proof. destruct c as [[] [] [] [] [] [] [] []]; vm_compute; intros Hc; first [done|split; [split; [discriminate|reflexivity]|reflexivity]]. Qed.
Lemma pub_of_address vs : length vs = 6%nat -> Forall (fun v => 0 <= v < 32) vs -> length (pub_of vs) = 32%nat /\ take 6 (Address (pub_of vs)) = b32_lower <$> vs.
Proof.
  intros Hl Hv. destruct vs as [|v0 [|v1 [|v2 [|v3 [|v4 [|v5 [|]]]]]]]; try done. pose proof (number_group _ _ _ _ _ _ Hv) as Hg. split; [done|].
  rewrite Address_values. unfold address_bytes. rewrite fixed_exact by done. unfold pub_of.
  destruct (number_bytes (digits_number [v0; v1; v2; v3; v4; v5])) as [|a [|b [|c [|d [|e [|]]]]]]; try done. cbn [app b32_values]. by rewrite Hg.
Qed.
(** The search accepts exactly the non-empty prefixes of up to six characters with
    which the address of some 32-byte key begins. *)
Theorem vanity_prefix_reachable prefix :
  ValidateVanityPrefix prefix = None <->
  prefix <> [] /\ (length prefix <= MaxVanityPrefixLen)%nat /\ exists pub, length pub = 32%nat /\ HasPrefix (Address pub) prefix = true.
Proof.
  unfold ValidateVanityPrefix. destruct (prefix =s []) eqn:Ee; bool_facts; [split; [done|by intros (? & _)]|].
  destruct (Nat.ltb_spec MaxVanityPrefixLen (length prefix)) as [|Hle]; [split; [done|intros (_ & ? & _); lia]|]. split.
  - destruct (forallb base32_char (runes prefix)) eqn:Hr; [|done]. intros _.
    assert (forallb isASCII prefix = true) as Hasc.
    { apply narrow_runes_ascii, forallb_forall. intros r Hin. rewrite forallb_forall in Hr. specialize (Hr r Hin). unfold base32_char in Hr. lia. }
    rewrite (runes_ascii _ Hasc) in Hr.
    assert (forall c, c ∈ prefix -> base32_char (code c) = true) as Hch.
    { intros c Hc. rewrite forallb_forall in Hr. apply Hr, list_elem_of_In, list_elem_of_fmap. by exists c. }
    pose (vs := (b32_value <$> prefix) ++ replicate (6 - length prefix) 0). unfold MaxVanityPrefixLen in *.
    assert (length vs = 6%nat) as Hl by (unfold vs; rewrite length_app, length_fmap, length_replicate; lia).
    assert (Forall (fun v => 0 <= v < 32) vs) as Hvs.
    { apply Forall_app. split; [|apply Forall_replicate; lia]. apply Forall_fmap, Forall_forall. intros c Hc. by apply base32_char_value, Hch. }
    destruct (pub_of_address vs Hl Hvs) as [Hpub Htake]. split_and!; [done..|]. exists (pub_of vs). split; [done|]. apply HasPrefix_true.
    exists (drop (length prefix) (Address (pub_of vs))). rewrite <- (take_drop (length prefix) (Address (pub_of vs))) at 1. f_equal.
    replace (take (length prefix) (Address (pub_of vs))) with (take (length prefix) (take 6 (Address (pub_of vs)))) by (rewrite take_take; f_equal; lia).
    rewrite Htake. unfold vs. rewrite fmap_app, take_app_le by (rewrite !length_fmap; lia). rewrite take_ge by (rewrite !length_fmap; lia).
    rewrite <- list_fmap_compose. rewrite <- (list_fmap_id prefix) at 2. apply list_fmap_ext. intros i c Hc. cbn. by apply base32_char_value, Hch, (list_elem_of_lookup_2 _ i).
  - intros (_ & _ & pub & Hpub & Hk). apply HasPrefix_true in Hk as [k Hk]. pose proof (OnionAddress_chars pub Hpub) as Hch.
    assert (forall c, c ∈ prefix -> base32_char (code c) = true) as Hp.
    { intros c Hc. rewrite forallb_forall in Hch. apply Hch, list_elem_of_In. rewrite Hk, take_app_ge by (unfold MaxVanityPrefixLen in Hle; lia). apply elem_of_app. by left. }
    rewrite runes_ascii.
    + replace (forallb base32_char (code <$> prefix)) with true; [done|]. symmetry. apply forallb_forall. intros r (c & -> & Hc)%list_elem_of_In%list_elem_of_fmap. by apply Hp.
    + apply forallb_forall. intros c Hc%list_elem_of_In. specialize (Hp c Hc). unfold base32_char in Hp. unfold isASCII. lia.
Qed.
End address_facts.
Definition toy_hash (s : gostr) : gostr := take 2 s.
Lemma OnionAddress_injective_witness :
  length (OnionAddress (H := ascii_tables) toy_hash (replicate 32 "a"%char)) = 62%nat.
Proof. apply (OnionAddress_injective (H := ascii_tables) toy_hash (replicate 32 "a"%char) (replicate 32 "b"%char) eq_refl eq_refl). Defined.

(** ** Key files read back *)

Lemma TrimRight_split s cut : exists t, s = TrimRight s cut ++ t /\ Forall (fun c => c ∈ cut) t.
Proof.
  unfold TrimRight, TrimRightFunc. assert (forall l, exists t, l = t ++ TrimLeftFunc (inSet cut) l /\ Forall (fun c => c ∈ cut) t) as H.
  { induction l as [|c l (t & IH & Ht)]; [by exists []|]. cbn [TrimLeftFunc]. destruct (inSet cut c) eqn:E.
    - exists (c :: t). cbn. split; [by f_equal|]. constructor; [by apply bool_decide_eq_true in E|done].
    - by exists []. }
  destruct (H (reverse s)) as (t & Ht & Hin). exists (reverse t). split; [|by apply Forall_reverse].
  rewrite <- reverse_app, <- Ht. by rewrite reverse_involutive.
Qed.
Lemma public_key_file_decoded data pub : DecodePublicKeyFile data = Ok pub -> length pub = 32%nat /\ EncodePublicKeyFile pub = data.
Proof.
  unfold DecodePublicKeyFile. destruct (Nat.eqb_spec (length data) 64) as [Hl|]; [|done]. cbn [negb].
  destruct (trimNUL (take 32 data) <>s publicKeyHeader) eqn:Eh; [done|]. apply negb_false_iff, bool_decide_eq_true in Eh. intros [= <-].
  split; [apply length_fixed|]. rewrite !(fixed_exact 32 (drop 32 data)) by (rewrite length_drop; lia). unfold EncodePublicKeyFile.
  rewrite (fixed_exact 32 (drop 32 data)) by (rewrite length_drop; lia). rewrite <- (take_drop 32 data) at 2. f_equal.
  unfold trimNUL in Eh. destruct (TrimRight_split (take 32 data) [chr 0]) as (t & Ht & Hz). rewrite Eh in Ht. rewrite Ht.
  assert (length t = 3%nat) as Hl3. { apply (f_equal length) in Ht. rewrite length_take, length_app in Ht. change (length publicKeyHeader) with 29%nat in Ht. lia. }
  destruct t as [|x [|y [|z [|]]]]; try done. repeat (apply Forall_cons in Hz as [->%list_elem_of_singleton Hz]). reflexivity.
Qed.
(** Reading a public key file inverts writing it, and a file that is accepted is
    the one that is written for the key read from it. *)
Theorem public_key_file_roundtrip :
  (forall pub, length pub = 32%nat -> DecodePublicKeyFile (EncodePublicKeyFile pub) = Ok pub) /\
  (forall data pub, DecodePublicKeyFile data = Ok pub -> length pub = 32%nat /\ EncodePublicKeyFile pub = data).
Proof.
  split.
  - intros pub Hp. unfold DecodePublicKeyFile, EncodePublicKeyFile. rewrite !(fixed_exact 32 pub) by done.
    rewrite length_app, length_fixed, Hp. cbn [Nat.add Nat.eqb negb]. rewrite take_app_length' by (by rewrite length_fixed). rewrite drop_app_length' by (by rewrite length_fixed).
    rewrite (fixed_exact 32 pub) by done. done.
  - apply public_key_file_decoded.
Qed.
Lemma secret_file_written sha512 seed : secret_file_ok (EncodeSecretKeyFile sha512 seed) = true.
Proof.
  unfold secret_file_ok, EncodeSecretKeyFile, on_byte. rewrite length_app, !length_alter, !length_fixed. cbn [Nat.add Nat.eqb andb].
  rewrite take_app_length' by (by rewrite length_fixed). apply bool_decide_eq_true. reflexivity.
Qed.

(** ** The search *)

(** A worker of search number [w_gen] for [w_prefix]: at the check of its context,
    generating a key, or with a published find that is not yet recorded. *)
Inductive stage := Checking | Generating | Recording (addr : gostr).
Record worker := mkWorker { w_gen : nat; w_prefix : gostr; w_stage : stage }.
(** How far a start is: before the directory is made, with workers left to start, or done. *)
Inductive launch := Preparing (n : nat) | Launching (n : nat) | Launched.
(** [vanitySearch]; [v_launch] tells how far the start of the search is,
    [v_cancelled] the searches whose context is cancelled, [v_pending] those a call of
    [StopVanitySearch] is about to cancel, [v_disk] the published candidates. *)
Record vanitySearch := mkSearch {
  v_running : bool; v_prefix : gostr; v_gen : nat; v_launch : launch; v_workers : list worker; v_cancelled : list nat; v_pending : list nat;
  v_attempts : Z; v_found : list gostr; v_failed : bool; v_disk : list gostr }.
Definition idle : vanitySearch := mkSearch false [] 0 Launched [] [] [] 0 [] false [].
Definition with_workers (ws : list worker) (v : vanitySearch) : vanitySearch :=
  mkSearch (v_running v) (v_prefix v) (v_gen v) (v_launch v) ws (v_cancelled v) (v_pending v) (v_attempts v) (v_found v) (v_failed v) (v_disk v).
Definition fail_search (v : vanitySearch) : vanitySearch :=
  mkSearch (v_running v) (v_prefix v) (v_gen v) (v_launch v) (v_workers v) (v_cancelled v) (v_pending v) (v_attempts v) (v_found v) true (v_disk v).
(** The calls: a start up to its unlock, the launch of one worker after another, the
    directory that cannot be made, the end when all workers have returned, and the two
    halves of a stop, which takes the cancel function and calls it later. *)
Inductive search_call : vanitySearch -> vanitySearch -> Prop :=
| call_begin v prefix n : ValidateVanityPrefix prefix = None -> (0 < n)%nat -> v_running v = false ->
    search_call v (mkSearch true prefix (S (v_gen v)) (Preparing n) (v_workers v) (v_cancelled v) (v_pending v) 0 [] false (v_disk v))
| call_no_directory v n : v_launch v = Preparing n ->
    search_call v (mkSearch false (v_prefix v) (v_gen v) Launched (v_workers v) (v_gen v :: v_cancelled v) (v_pending v) (v_attempts v) (v_found v) true (v_disk v))
| call_directory v n : v_launch v = Preparing n ->
    search_call v (mkSearch (v_running v) (v_prefix v) (v_gen v) (Launching n) (v_workers v) (v_cancelled v) (v_pending v) (v_attempts v) (v_found v) (v_failed v) (v_disk v))
| call_launch v n : v_launch v = Launching (S n) ->
    search_call v (mkSearch (v_running v) (v_prefix v) (v_gen v) (Launching n) (v_workers v ++ [mkWorker (v_gen v) (v_prefix v) Checking]) (v_cancelled v) (v_pending v)
                     (v_attempts v) (v_found v) (v_failed v) (v_disk v))
| call_launched v : v_launch v = Launching 0 ->
    search_call v (mkSearch (v_running v) (v_prefix v) (v_gen v) Launched (v_workers v) (v_cancelled v) (v_pending v) (v_attempts v) (v_found v) (v_failed v) (v_disk v))
| call_end v : v_running v = true -> v_launch v = Launched -> v_workers v = [] ->
    search_call v (mkSearch false (v_prefix v) (v_gen v) Launched [] (v_gen v :: v_cancelled v) (v_pending v) (v_attempts v) (v_found v) (v_failed v) (v_disk v))
| call_stop v : search_call v (mkSearch (v_running v) (v_prefix v) (v_gen v) (v_launch v) (v_workers v) (v_cancelled v) (v_gen v :: v_pending v)
                                 (v_attempts v) (v_found v) (v_failed v) (v_disk v))
| call_cancel v g rest : v_pending v = g :: rest ->
    search_call v (mkSearch (v_running v) (v_prefix v) (v_gen v) (v_launch v) (v_workers v) (g :: v_cancelled v) rest (v_attempts v) (v_found v) (v_failed v) (v_disk v)).
Section searching.
  Context `{UnicodeTables} (sha3_256 : gostr -> gostr).
(** A step of [vanityWorker]. *)
Inductive worker_step : vanitySearch -> vanitySearch -> Prop :=
| work_done v i w : v_workers v !! i = Some w -> w_stage w = Checking -> w_gen w ∈ v_cancelled v -> worker_step v (with_workers (delete i (v_workers v)) v)
| work_check v i w : v_workers v !! i = Some w -> w_stage w = Checking -> w_gen w ∉ v_cancelled v ->
    worker_step v (with_workers (<[i := mkWorker (w_gen w) (w_prefix w) Generating]> (v_workers v)) v)
| work_no_key v i w : v_workers v !! i = Some w -> w_stage w = Generating -> worker_step v (fail_search (with_workers (delete i (v_workers v)) v))
| work_key v i w pub : v_workers v !! i = Some w -> w_stage w = Generating ->
    let counted := mkSearch (v_running v) (v_prefix v) (v_gen v) (v_launch v) (v_workers v) (v_cancelled v) (v_pending v) ((v_attempts v + 1) mod 2 ^ 64) (v_found v)
                     (v_failed v) (v_disk v) in
    HasPrefix (OnionAddress sha3_256 pub) (w_prefix w) = false ->
    worker_step v (with_workers (<[i := mkWorker (w_gen w) (w_prefix w) Checking]> (v_workers v)) counted)
| work_match v i w pub published : v_workers v !! i = Some w -> w_stage w = Generating -> HasPrefix (OnionAddress sha3_256 pub) (w_prefix w) = true ->
    worker_step v
      (let counted ws disk := mkSearch (v_running v) (v_prefix v) (v_gen v) (v_launch v) ws (v_cancelled v) (v_pending v) ((v_attempts v + 1) mod 2 ^ 64)
                                (v_found v) (v_failed v) disk in
       if (published : bool) then counted (<[i := mkWorker (w_gen w) (w_prefix w) (Recording (OnionAddress sha3_256 pub))]> (v_workers v)) (OnionAddress sha3_256 pub :: v_disk v)
       else fail_search (counted (delete i (v_workers v)) (v_disk v)))
| work_record v i w addr : v_workers v !! i = Some w -> w_stage w = Recording addr ->
    worker_step v (mkSearch (v_running v) (v_prefix v) (v_gen v) (v_launch v) (<[i := mkWorker (w_gen w) (w_prefix w) Checking]> (v_workers v)) (v_cancelled v) (v_pending v)
                     (v_attempts v) (v_found v ++ [addr]) (v_failed v) (v_disk v)).
Definition search_step (v v' : vanitySearch) : Prop := search_call v v' \/ worker_step v v'.

(** *** What holds of every search *)

Definition worker_ok (v : vanitySearch) (w : worker) : Prop :=
  w_gen w = v_gen v /\ w_prefix w = v_prefix v /\
  match w_stage w with Recording addr => HasPrefix addr (v_prefix v) = true /\ addr ∈ v_disk v | _ => True end.
Definition search_ok (v : vanitySearch) : Prop :=
  (v_running v = false -> v_workers v = [] /\ v_launch v = Launched) /\
  (forall n, v_launch v = Preparing n -> v_workers v = []) /\
  Forall (worker_ok v) (v_workers v) /\
  Forall (fun addr => HasPrefix addr (v_prefix v) = true /\ addr ∈ v_disk v) (v_found v) /\
  Forall (fun g => (g <= v_gen v)%nat) (v_cancelled v ++ v_pending v).
Lemma call_ok v v' : search_call v v' -> search_ok v -> search_ok v'.
Proof.
  intros Hc (Hr & Hl0 & Hw & Hf & Hg). unfold search_ok. destruct Hc as [v prefix n Hp Hn Hrun|v n Hl|v n Hl|v n Hl|v Hl|v Hrun Hl Hw0|v|v g rest Hp]; cbn.
  - destruct (Hr Hrun) as [-> _]. split_and!; [done|done|constructor|constructor|]. eapply Forall_impl; [exact Hg|]. cbn. lia.
  - rewrite (Hl0 n Hl). split_and!; [done|done|constructor|done|]. by constructor.
  - split_and!; [by intros Hrun; destruct (Hr Hrun) as [_ ?]; congruence|done..].
  - split_and!; [by intros Hrun; destruct (Hr Hrun) as [_ ?]; congruence|done| |done|done]. apply Forall_app. split; [done|]. constructor; [done|constructor].
  - split_and!; [intros Hrun; by destruct (Hr Hrun)|done..].
  - split_and!; [done|done|constructor|done|]. by constructor.
  - split_and!; [done..|]. apply Forall_app in Hg as [? ?]. apply Forall_app. split; [done|]. by constructor.
  - split_and!; [done..|]. rewrite Hp in Hg. apply Forall_app in Hg as [? [? ?]%Forall_cons]. constructor; [done|]. by apply Forall_app.
Qed.
Lemma worker_moved v i w st : Forall (worker_ok v) (v_workers v) -> v_workers v !! i = Some w ->
  (forall addr, st = Recording addr -> HasPrefix addr (v_prefix v) = true /\ addr ∈ v_disk v) ->
  Forall (worker_ok v) (<[i := mkWorker (w_gen w) (w_prefix w) st]> (v_workers v)).
Proof.
  intros Hw Hi Hst. apply Forall_insert; [done|]. rewrite Forall_lookup in Hw. destruct (Hw i w Hi) as (Hg & Hp & _). split_and!; [done..|].
  destruct st; [done|done|by apply Hst].
Qed.
Lemma not_running v i w : search_ok v -> v_workers v !! i = Some w -> v_running v = true.
Proof. intros (Hr & _) Hi. destruct (v_running v); [done|]. destruct Hr as [E _]; [done|]. by rewrite E in Hi. Qed.
Lemma worker_ok_step v v' : worker_step v v' -> search_ok v -> search_ok v'.
Proof.
  intros Hs Hok. pose proof Hok as (Hr & Hl0 & Hw & Hf & Hg).
  destruct Hs as [v i w Hi ? ?|v i w Hi ? ?|v i w Hi ?|v i w pub Hi ? counted ?|v i w pub published Hi ? Hp|v i w addr Hi Hst]; pose proof (not_running _ _ _ Hok Hi) as Hrun;
    assert (forall n (ws : list worker), v_launch v = Preparing n -> ws = []) as Hnp by (intros n ws E; by rewrite (Hl0 n E) in Hi); unfold search_ok; cbn.
  - rewrite Hrun. split_and!; [done|intros n; apply Hnp|by apply Forall_delete|done..].
  - rewrite Hrun. split_and!; [done|intros n; apply Hnp|by apply (worker_moved v)|done..].
  - rewrite Hrun. split_and!; [done|intros n; apply Hnp|by apply Forall_delete|done..].
  - rewrite Hrun. split_and!; [done|intros n; apply Hnp|by apply (worker_moved v)|done..].
  - assert (w_prefix w = v_prefix v) as Hpre by (rewrite Forall_lookup in Hw; by apply (Hw i w Hi)). rewrite Hpre in Hp. destruct published; cbn; rewrite Hrun; split_and!; try done; try (intros n; apply Hnp).
    + apply (worker_moved (mkSearch true (v_prefix v) (v_gen v) (v_launch v) (v_workers v) (v_cancelled v) (v_pending v) ((v_attempts v + 1) mod 2 ^ 64)
                             (v_found v) (v_failed v) (OnionAddress sha3_256 pub :: v_disk v)) i w); [|done|].
      * eapply Forall_impl; [exact Hw|]. intros [g q st] (? & ? & Hst). split_and!; [done..|]. destruct st; [done|done|]. cbn in *. by destruct Hst; split; [|right].
      * cbn. intros addr [= <-]. by split; [|left].
    + eapply Forall_impl; [exact Hf|]. cbn. intros addr [? ?]. by split; [|right].
    + by apply Forall_delete.
  - rewrite Hrun. split_and!; [done|intros n; apply Hnp|by apply (worker_moved v)| |done]. apply Forall_app. split; [done|]. constructor; [|constructor].
    rewrite Forall_lookup in Hw. destruct (Hw i w Hi) as (_ & _ & Ha). by rewrite Hst in Ha.
Qed.
Lemma search_ok_reachable v : rtc search_step idle v -> search_ok v.
Proof.
  assert (forall v0 v, rtc search_step v0 v -> search_ok v0 -> search_ok v) as Hk.
  { induction 1 as [|? ? ? [Hs|Hs] _ IH]; [done| |]; intros Hy; apply IH; [by eapply call_ok|by eapply worker_ok_step]. }
  intros Hr. apply (Hk _ _ Hr). split_and!; by try constructor.
Qed.
(** Whatever the order in which searches are started, stopped and cancelled and
    their workers run, at most one search is under way: no worker outlives it, all
    work for its prefix, every address it reports begins with its prefix and is
    published on disk, and no stop that is still to take effect can end a later search. *)
Theorem vanity_search_sound v :
  rtc search_step idle v ->
  (v_running v = false -> v_workers v = []) /\
  (forall w, w ∈ v_workers v -> w_gen w = v_gen v /\ w_prefix w = v_prefix v) /\
  (forall addr, addr ∈ v_found v -> HasPrefix addr (v_prefix v) = true /\ addr ∈ v_disk v) /\
  S (v_gen v) ∉ v_cancelled v ++ v_pending v.
Proof.
  intros (Hr & _ & Hw & Hf & Hg)%search_ok_reachable. rewrite Forall_forall in Hw. rewrite Forall_forall in Hf. rewrite Forall_forall in Hg. split_and!.
  - intros Hrun. by apply Hr.
  - intros w Hin. by destruct (Hw w Hin) as (? & ? & _).
  - intros addr Hin. by apply Hf.
  - intros Hin. specialize (Hg _ Hin). cbn in Hg. lia.
Qed.

(** *** A cancelled search ends *)

Definition stage_cost (w : worker) : nat := match w_stage w with Checking => 1 | Recording _ => 2 | Generating => 3 end.
Definition work_left (ws : list worker) : nat := sum_list_with stage_cost ws.
Arguments work_left : simpl never.
Lemma work_delete ws i w : ws !! i = Some w -> (work_left (delete i ws) + stage_cost w = work_left ws)%nat.
Proof.
  intros Hi. unfold work_left. rewrite <- (take_drop_middle ws i w Hi) at 2. rewrite delete_take_drop, !sum_list_with_app. cbn. lia.
Qed.
Lemma work_insert ws i w w' : ws !! i = Some w -> (work_left (<[i := w']> ws) + stage_cost w = work_left ws + stage_cost w')%nat.
Proof.
  intros Hi. unfold work_left. pose proof (lookup_lt_Some _ _ _ Hi). rewrite <- (take_drop_middle ws i w Hi) at 2. rewrite insert_take_drop by done.
  rewrite !sum_list_with_app. cbn. lia.
Qed.
Lemma work_bound ws : (work_left ws <= 3 * length ws)%nat.
Proof. unfold work_left. induction ws as [|w ws IH]; [done|]. cbn [sum_list_with length]. assert (stage_cost w <= 3)%nat by (unfold stage_cost; destruct (w_stage w); lia). lia. Qed.
Definition all_cancelled (v : vanitySearch) : Prop := Forall (fun w => w_gen w ∈ v_cancelled v) (v_workers v).
Lemma cancelled_step v v' : worker_step v v' -> all_cancelled v -> all_cancelled v' /\ (work_left (v_workers v') < work_left (v_workers v))%nat.
Proof.
  unfold all_cancelled. intros Hs Hc.
  assert (forall i w st, v_workers v !! i = Some w -> Forall (fun w => w_gen w ∈ v_cancelled v) (<[i := mkWorker (w_gen w) (w_prefix w) st]> (v_workers v))) as Hmv.
  { intros i w st Hi. apply Forall_insert; [done|]. rewrite Forall_lookup in Hc. by apply (Hc i w). }
  destruct Hs as [v i w Hi Hst ?|v i w Hi Hst Hn|v i w Hi Hst|v i w pub Hi Hst counted ?|v i w pub published Hi Hst Hp|v i w addr Hi Hst]; cbn.
  - split; [by apply Forall_delete|]. pose proof (work_delete _ _ _ Hi). unfold stage_cost in *. rewrite Hst in *. lia.
  - destruct Hn. rewrite Forall_lookup in Hc. by apply (Hc i).
  - split; [by apply Forall_delete|]. pose proof (work_delete _ _ _ Hi). unfold stage_cost in *. rewrite Hst in *. lia.
  - split; [by apply Hmv|]. pose proof (work_insert _ _ _ (mkWorker (w_gen w) (w_prefix w) Checking) Hi) as E. unfold stage_cost in E. rewrite Hst in E. cbn in E. lia.
  - destruct published; cbn.
    + split; [by apply Hmv|]. pose proof (work_insert _ _ _ (mkWorker (w_gen w) (w_prefix w) (Recording (OnionAddress sha3_256 pub))) Hi) as E.
      unfold stage_cost in E. rewrite Hst in E. cbn in E. lia.
    + split; [by apply Forall_delete|]. pose proof (work_delete _ _ _ Hi). unfold stage_cost in *. rewrite Hst in *. lia.
  - split; [by apply Hmv|]. pose proof (work_insert _ _ _ (mkWorker (w_gen w) (w_prefix w) Checking) Hi) as E. unfold stage_cost in E. rewrite Hst in E. cbn in E. lia.
Qed.
Lemma worker_can_step v : v_workers v <> [] -> exists v', worker_step v v'.
Proof.
  intros Hne. destruct (v_workers v) as [|w ws] eqn:E; [done|]. assert (v_workers v !! 0%nat = Some w) as H0 by by rewrite E.
  destruct (w_stage w) as [| |addr] eqn:Est.
  - destruct (decide (w_gen w ∈ v_cancelled v)); eexists; [by eapply work_done|by eapply work_check].
  - eexists. by eapply work_no_key.
  - eexists. by eapply work_record.
Qed.
Lemma cancelled_run n v v' : nsteps worker_step n v v' -> all_cancelled v -> all_cancelled v' /\ (n + work_left (v_workers v') <= work_left (v_workers v))%nat.
Proof.
  induction 1 as [v|n v v1 v2 Hs _ IH]; intros Hc; [split; [done|lia]|]. destruct (cancelled_step _ _ Hs Hc) as [Hc1 Hlt]. destruct (IH Hc1) as [? ?]. split; [done|lia].
Qed.
(** C40. Once the running search is cancelled its workers take at most three more steps
    each, in any order, and until the last has returned one of them can move; then the
    search is over. *)
Theorem cancelled_search_ends v :
  rtc search_step idle v -> v_running v = true -> v_launch v = Launched -> v_gen v ∈ v_cancelled v ->
  forall n v', nsteps worker_step n v v' ->
    (n <= 3 * length (v_workers v))%nat /\
    (v_workers v' <> [] /\ (exists v'', worker_step v' v'') \/ v_workers v' = [] /\ exists v'', search_call v' v'' /\ v_running v'' = false).
Proof.
  intros Hok%search_ok_reachable Hrun Hl Hcan n v' Hn. destruct Hok as (_ & _ & Hw & _).
  assert (all_cancelled v) as Hc. { eapply Forall_impl; [exact Hw|]. intros w (Hg & _). cbn. by rewrite Hg. }
  destruct (cancelled_run _ _ _ Hn Hc) as [_ Hle]. pose proof (work_bound (v_workers v)). split; [lia|].
  destruct (v_workers v') eqn:E; [right|left; split; [done|]; apply worker_can_step; by rewrite E].
  assert (forall v v', worker_step v v' -> v_running v' = v_running v /\ v_launch v' = v_launch v) as Hk by (intros ? ? []; try done; by destruct published).
  assert (v_running v' = v_running v /\ v_launch v' = v_launch v) as [Hr' Hl'].
  { clear -Hn Hk. induction Hn as [|n v v1 v2 Hs _ [IH1 IH2]]; [done|]. destruct (Hk _ _ Hs). split; congruence. }
  split; [done|]. eexists. split; [apply call_end; congruence|done].
Qed.
End searching.

(** A search for [m] that found one address and is then stopped. *)
Definition sample_key : gostr := replicate 32 "a"%char.
Abbreviation toy_step := (search_step (H := ascii_tables) toy_hash).
Lemma toy_call v v' w : search_call v v' -> rtc toy_step v' w -> rtc toy_step v w.
Proof. intros Hs. apply rtc_l. by left. Qed.
Lemma toy_work v v' w : worker_step (H := ascii_tables) toy_hash v v' -> rtc toy_step v' w -> rtc toy_step v w.
Proof. intros Hs. apply rtc_l. by right. Qed.
Definition sample_state (l : launch) (stages : list stage) (cancelled pending : list nat) (attempts : Z) (found disk : list gostr) : vanitySearch :=
  mkSearch true (str "m") 1 l (mkWorker 1 (str "m") <$> stages) cancelled pending attempts found false disk.
Lemma sample_run addr : OnionAddress (H := ascii_tables) toy_hash sample_key = addr -> HasPrefix addr (str "m") = true ->
  rtc toy_step idle (sample_state Launched [Checking; Checking] [1%nat] [] 1 [addr] [addr]).
Proof.
  intros Ha Hp. unfold sample_state.
  eapply toy_call; [apply (call_begin _ (str "m") 2); [reflexivity|lia|reflexivity]|]. cbn. eapply toy_call; [by eapply call_directory|]. cbn.
  eapply toy_call; [by eapply call_launch|]. cbn. eapply toy_call; [by eapply call_launch|]. cbn. eapply toy_call; [by eapply call_launched|]. cbn.
  eapply toy_work; [eapply work_check with (i := 0%nat); [reflexivity|reflexivity|apply not_elem_of_nil]|]. cbn.
  eapply toy_work; [eapply work_match with (i := 0%nat) (pub := sample_key) (published := true); [reflexivity|reflexivity|rewrite Ha; exact Hp]|]. rewrite Ha. cbn.
  eapply toy_work; [eapply work_record with (i := 0%nat); reflexivity|]. cbn.
  eapply toy_call; [apply call_stop|]. cbn. eapply toy_call; [by eapply call_cancel|]. cbn. apply rtc_refl.
Qed.
Lemma sample_search : exists v,
  rtc toy_step idle v /\ v_running v = true /\ v_launch v = Launched /\ v_gen v ∈ v_cancelled v /\ length (v_workers v) = 2%nat /\
  v_found v = [OnionAddress (H := ascii_tables) toy_hash sample_key].
Proof.
  eexists. split; [apply (sample_run (OnionAddress (H := ascii_tables) toy_hash sample_key)); [reflexivity|by vm_compute]|].
  split_and!; [reflexivity|reflexivity|by left|reflexivity|reflexivity].
Qed.
Lemma vanity_search_sound_witness : exists v, rtc toy_step idle v /\ v_found v <> [] /\ forall addr, addr ∈ v_found v -> HasPrefix addr (v_prefix v) = true.
Proof.
  destruct sample_search as (v & Hr & _ & _ & _ & _ & Hf). exists v. split_and!; [done|by rewrite Hf|].
  intros addr Hin. by apply (vanity_search_sound (H := ascii_tables) toy_hash v Hr).
Defined.
Lemma cancelled_search_ends_witness : exists v, rtc toy_step idle v /\ forall n v', nsteps (worker_step (H := ascii_tables) toy_hash) n v v' -> (n <= 6)%nat.
Proof.
  destruct sample_search as (v & Hr & Hrun & Hl & Hc & Hw & _). exists v. split; [done|]. intros n v' Hn.
  destruct (cancelled_search_ends (H := ascii_tables) toy_hash v Hr Hrun Hl Hc n v' Hn) as [Hle _]. rewrite Hw in Hle. exact Hle.
Defined.
