(* ===== verification/Overlay.v ===== *)
(** * What the two overlay managers share: backend ports, resources and the life cycle

    [tor/tor.go] and [i2p/i2p.go] each keep at most one running service: a loopback
    listener the overlay forwards to, the process or connection that provides it, and
    the HTTP server attached to the listener once a handler is known.  Here are the
    resources they open, the choice of the backend port, and the contract between a
    manager and the function that starts its provider ([StartContract]): the life cycle
    is proved against the contract, and each manager's [startDedicated] meets it or
    shows where it does not. *)
From stdpp Require Import base list gmap.
From Stdlib Require Import ZArith Lia.
From S2P Require Import Prelude GoStrings.
Local Open Scope Z_scope.
Local Open Scope go_scope.

(** ** Resources *)

Inductive kind := Listener | Process | Connection.
#[global] Instance kind_eq : EqDecision kind.
Proof. solve_decision. Defined.
Abbreviation resource := (kind * nat)%type.
(** What is open, the next resource, the provider's generated configuration file and
    the files of its identity directory. *)
Record world := mkWorld { w_open : list resource; w_next : nat; w_conf : option gostr; w_site : gmap gostr gostr }.
Definition open_resource (k : kind) (w : world) : resource * world :=
  ((k, w_next w), mkWorld ((k, w_next w) :: w_open w) (S (w_next w)) (w_conf w) (w_site w)).
Definition close_resource (r : resource) (w : world) : world :=
  mkWorld (filter (fun x => x <> r) (w_open w)) (w_next w) (w_conf w) (w_site w).
Definition with_conf (c : option gostr) (w : world) : world := mkWorld (w_open w) (w_next w) c (w_site w).
Definition with_site (s : gmap gostr gostr) (w : world) : world := mkWorld (w_open w) (w_next w) (w_conf w) s.
(** Every open resource has been handed out. *)
Definition world_ok (w : world) : Prop := Forall (fun r : resource => (r.2 < w_next w)%nat) (w_open w).

Lemma open_ok k w : world_ok w -> world_ok (open_resource k w).2.
Proof. unfold world_ok. intros Hw. cbn. constructor; [cbn; lia|]. eapply Forall_impl; [exact Hw|]. cbn. lia. Qed.
Lemma close_ok r w : world_ok w -> world_ok (close_resource r w).
Proof. unfold world_ok. cbn. intros Hw. apply Forall_forall. intros x [_ Hx]%list_elem_of_filter. rewrite Forall_forall in Hw. by apply Hw. Qed.
Lemma fresh_not_open k w : world_ok w -> (k, w_next w) ∉ w_open w.
Proof. intros Hw Hin. unfold world_ok in Hw. rewrite Forall_forall in Hw. specialize (Hw _ Hin). cbn in Hw. lia. Qed.
Lemma filter_absent (r : resource) (l : list resource) : r ∉ l -> filter (fun x => x <> r) l = l.
Proof. intros Hr. apply filter_all. intros x Hx ->. done. Qed.
(** Closing what has just been opened. *)
Lemma close_newest (r : resource) (l : list resource) : r ∉ l -> filter (fun x => x <> r) (r :: l) = l.
Proof. intros Hr. rewrite filter_cons_False by (intros Hn; by apply Hn). by apply filter_absent. Qed.
#[export] Hint Resolve open_ok close_ok : ipgaze.

(** ** The backend port *)

(** One attempt: two random bytes, and whether the port could be bound. *)
Record draw := mkDraw { d_bytes : option (ascii * ascii); d_free : bool }.
Inductive port_error := NoRandomBytes | NoLoopbackPort.
Definition drawn_port (a b : ascii) : Z := 64000 + (Z.lor (Z.shiftl (code a) 8) (code b)) mod 1000.
Fixpoint try_ports (draws : list draw) (os : option Z) : result port_error Z :=
  match draws with
  | [] => match os with Some port => Ok port | None => Err NoLoopbackPort end
  | d :: rest => match d_bytes d with
                 | None => Err NoRandomBytes
                 | Some (a, b) => if d_free d then Ok (drawn_port a b) else try_ports rest os
                 end
  end.
(** [os] is the port of a listener on [127.0.0.1:0]. *)
Definition getRandomAvailablePort (draws : nat -> draw) (os : option Z) : result port_error Z := try_ports (draws <$> seq 0 20) os.
Lemma drawn_port_range a b : 64000 <= drawn_port a b < 65000.
Proof. unfold drawn_port. pose proof (Z.mod_pos_bound (Z.lor (Z.shiftl (code a) 8) (code b)) 1000). lia. Qed.
Lemma try_ports_inv draws os port : try_ports draws os = Ok port ->
  64000 <= port < 65000 \/ os = Some port /\ Forall (fun d => d_free d = false) draws.
Proof.
  induction draws as [|[[[a b]|] [|]] rest IH]; cbn; [destruct os; [|done]; intros [= ->]; by right|..]; try done.
  - intros [= <-]. left. apply drawn_port_range.
  - intros [?|[? ?]]%IH; [by left|]. right. split; [done|]. by constructor.
Qed.

(** ** The service and its manager *)

(** [s_provider] is the process or connection behind the service, [backendSrv] the
    handler its HTTP server was given. *)
Record service := mkService {
  s_address : gostr; s_port : Z; backendLn : resource; backendSrv : option nat; s_provider : resource; s_dialer : bool }.
Record manager := mkManager {
  m_svc : option service; m_running : bool; m_handler : option nat; m_err : option gostr; m_world : world }.
Definition with_err (e : option gostr) (m : manager) : manager := mkManager (m_svc m) (m_running m) (m_handler m) e (m_world m).
Definition in_world (f : world -> world) (m : manager) : manager := mkManager (m_svc m) (m_running m) (m_handler m) (m_err m) (f (m_world m)).
Definition new_manager (w : world) : manager := mkManager None false None None w.
Definition attach (h : nat) (s : service) : service :=
  match backendSrv s with
  | Some _ => s
  | None => mkService (s_address s) (s_port s) (backendLn s) (Some h) (s_provider s) (s_dialer s)
  end.
(** [attachBackendHandlerLocked] *)
Definition attachBackendHandlerLocked (h : nat) (m : manager) : manager :=
  mkManager (attach h <$> m_svc m) (m_running m) (m_handler m) (m_err m) (m_world m).
Definition ServeBackend (h : nat) (m : manager) : manager :=
  let m := mkManager (m_svc m) (m_running m) (Some h) (m_err m) (m_world m) in
  if m_running m && bool_decide (is_Some (m_svc m)) then attachBackendHandlerLocked h m else m.
(** Closing the HTTP server closes its listener; without a server nothing does. *)
Definition close_backend (s : service) (w : world) : world :=
  match backendSrv s with Some _ => close_resource (backendLn s) w | None => w end.
Definition close_service (s : service) (w : world) : world := close_resource (s_provider s) (close_backend s w).

(** ** The contract of a provider *)

(** A start that succeeds leaves its listener and its provider open and no HTTP server
    attached; one that fails leaves open what was open before. *)
Class StartContract {E : Type} (start : E -> world -> world * result gostr service) : Prop :=
  start_contract e w : world_ok w ->
    let '(w', r) := start e w in
    world_ok w' /\
    match r with
    | Ok s => w_open w' = s_provider s :: backendLn s :: w_open w /\ backendLn s ∉ w_open w /\ s_provider s ∉ backendLn s :: w_open w /\ backendSrv s = None
    | Err _ => w_open w' = w_open w
    end.

(** ** What a manager holds *)

(** Exactly the resources of the running service are open. *)
Definition owns (m : manager) : Prop :=
  world_ok (m_world m) /\ m_running m = bool_decide (is_Some (m_svc m)) /\
  match m_svc m with
  | Some s => w_open (m_world m) = [s_provider s; backendLn s] /\ s_provider s <> backendLn s
  | None => w_open (m_world m) = []
  end.
(** A service that runs while a handler is known has it attached. *)
Definition served (m : manager) : Prop :=
  match m_svc m, m_handler m with Some s, Some _ => is_Some (backendSrv s) | _, _ => True end.
(** The step of a start that takes the service over. *)
Definition adopt (s : service) (w : world) (m : manager) : manager :=
  let m := mkManager (Some s) true (m_handler m) None w in
  match m_handler m with Some h => attachBackendHandlerLocked h m | None => m end.
Definition drop_service (m : manager) : manager :=
  match m_svc m with
  | Some s => mkManager None false (m_handler m) (m_err m) (close_service s (m_world m))
  | None => m
  end.

Lemma attach_fields h s : backendLn (attach h s) = backendLn s /\ s_provider (attach h s) = s_provider s /\ s_address (attach h s) = s_address s /\ is_Some (backendSrv (attach h s)).
Proof. unfold attach. destruct (backendSrv s) eqn:E; [by rewrite E|done]. Qed.
Lemma attach_owns h m : owns m -> owns (attachBackendHandlerLocked h m).
Proof.
  intros (Hw & Hr & Hs). destruct m as [[s|] run hd e w]; unfold owns in *; cbn in *; [|done].
  destruct (attach_fields h s) as (-> & -> & _). done.
Qed.
Lemma ServeBackend_keeps h m : owns m -> owns (ServeBackend h m) /\ served (ServeBackend h m).
Proof.
  intros Hm. destruct m as [[s|] run hd e w]; unfold ServeBackend; cbn.
  - pose proof Hm as (Hw & Hr & Hs). cbn in Hr. rewrite Hr. cbn.
    split; [|unfold served; cbn; by destruct (attach_fields h s) as (_ & _ & _ & ?)]. by apply (attach_owns h (mkManager (Some s) true (Some h) e w)).
  - rewrite andb_false_r. split; [exact Hm|exact I].
Qed.
Lemma adopt_keeps `{Hc : StartContract E start} e m s w :
  owns m -> m_svc m = None -> start e (m_world m) = (w, Ok s) -> owns (adopt s w m) /\ served (adopt s w m).
Proof.
  intros (Hw & _ & Hs) Hn Hst. rewrite Hn in Hs. pose proof (start_contract e (m_world m) Hw) as Hk. rewrite Hst in Hk. destruct Hk as (Hw' & Ho & Hl & Hp & Hsrv).
  rewrite Hs in *. assert (owns (mkManager (Some s) true (m_handler m) None w)) as Hown.
  { split_and!; [done|done|]. split; [done|]. intros E0. apply Hp. rewrite E0. by left. }
  unfold adopt. cbn [m_handler]. destruct (m_handler m) as [h|] eqn:Eh; [|split; [done|exact I]].
  split; [by apply attach_owns|]. unfold served. cbn. by destruct (attach_fields h s) as (_ & _ & _ & ?).
Qed.
Lemma drop_service_keeps m : owns m -> served m -> m_handler m <> None -> owns (drop_service m) /\ served (drop_service m).
Proof.
  intros (Hw & Hr & Hs) Hsv Hh. unfold drop_service. destruct (m_svc m) as [s|] eqn:E; [|by split; [split_and!; rewrite ?E|unfold served; rewrite E]].
  split; [|done]. destruct Hs as [Ho Hne]. unfold served in Hsv. rewrite E in Hsv. destruct (m_handler m); [|done]. destruct Hsv as [h' Hsrv].
  unfold close_service, close_backend. rewrite Hsrv. unfold owns. cbn. split_and!; [by eauto with ipgaze|done|].
  rewrite Ho. rewrite filter_cons_True by done. rewrite (close_newest (backendLn s)) by apply not_elem_of_nil. by rewrite close_newest by apply not_elem_of_nil.
Qed.
(** A service that is stopped before it was given a handler leaves its listener open. *)
Lemma drop_service_leaks m s : owns m -> m_svc m = Some s -> backendSrv s = None -> w_open (m_world (drop_service m)) = [backendLn s].
Proof.
  intros (_ & _ & Hs) E Hn. rewrite E in Hs. destruct Hs as [Ho Hne]. unfold drop_service, close_service, close_backend. rewrite E, Hn. cbn. rewrite Ho.
  rewrite filter_cons_False by (intros Hx; by apply Hx). by rewrite filter_cons_True by done.
Qed.
