(* ===== verification/TorManager.v ===== *)
(** * The Tor manager: [tor/tor.go] and the identities of [tor/vanity.go]

    The generated [torrc], the start and stop of the dedicated Tor process, the
    exchange of the hidden service's keys and the choice among found candidates.  The
    answers of the file system, of the [bine] library and of the Tor process to one
    operation are an argument of it.

    The theorems: the [torrc] binds nothing but loopback ports; a failed start leaves
    nothing open and whatever is done to a manager that has its handler, exactly the
    resources of the running service are open; a key exchange that succeeds has
    installed the keys of the address it returns; a candidate is chosen only when the
    request identifies it. *)
From stdpp Require Import base list gmap strings.
From Stdlib Require Import ZArith Lia.
From S2P Require Import Prelude GoStrings GoUtf8 GoPath LogFormat Overlay Onion.
Local Open Scope Z_scope.
Local Open Scope go_scope.

(** ** The configuration file *)

Record TorServiceConfig := mkTorConfig {
  ConfigDir : gostr; DataDir : gostr; LogDir : gostr; Binary : gostr; UseNetwork : bool; MaxCircuits : Z; CircuitTimeout : Z; BootstrapTimeout : Z;
  SafeLogging : bool; MaxStreamsPerCircuit : Z; CloseCircuitOnStreamLimit : bool; BandwidthRate : gostr; BandwidthBurst : gostr;
  MaxMonthlyBandwidth : gostr; NumIntroPoints : Z; VirtualPort : Z }.
Definition eol : ascii := "010"%char.
Definition line (l : gostr) : gostr := l ++ [eol].
Definition or_default (s d : gostr) : gostr := if s =s [] then d else s.
Definition SiteDir (cfg : TorServiceConfig) : gostr := path_Join (path_Join (DataDir cfg) (str "tor")) (str "site").
Definition TorrcPath (cfg : TorServiceConfig) : gostr := path_Join (path_Join (ConfigDir cfg) (str "tor")) (str "torrc").
Definition logFile (cfg : TorServiceConfig) : gostr := path_Join (LogDir cfg) (str "tor.log").
Definition pidFile (cfg : TorServiceConfig) : gostr := path_Join (path_Join (DataDir cfg) (str "tor")) (str "tor.pid").
Definition limited (cfg : TorServiceConfig) : bool := (MaxMonthlyBandwidth cfg <>s []) && (MaxMonthlyBandwidth cfg <>s str "unlimited").
Definition flag (b : bool) : gostr := if b then str "1" else str "0".
Definition virtualPort (cfg : TorServiceConfig) : Z := if VirtualPort cfg =? 0 then 80 else VirtualPort cfg.
Definition maxCircuits (cfg : TorServiceConfig) : Z := if MaxCircuits cfg <=? 0 then 32 else MaxCircuits cfg.
Definition socksConfig (cfg : TorServiceConfig) : gostr :=
  if UseNetwork cfg then line (str "SocksPort 127.0.0.1:auto") ++ str "SocksPolicy accept 127.0.0.1" else str "SocksPort 0".
Definition accountingConfig (cfg : TorServiceConfig) : gostr :=
  if limited cfg then line [] ++ line (str "# Monthly bandwidth limit") ++ line (str "AccountingStart month 1 00:00") ++ str "AccountingMax " ++ MaxMonthlyBandwidth cfg else [].
Definition logConfig (cfg : TorServiceConfig) : gostr :=
  (if LogDir cfg =s [] then [] else line [] ++ line (str "# Tor log file") ++ line (str "Log notice file " ++ logFile cfg)) ++
  (if DataDir cfg =s [] then [] else line (str "PidFile " ++ pidFile cfg)).
Definition circuitConfig (cfg : TorServiceConfig) : gostr :=
  if 0 <? CircuitTimeout cfg then line (str "CircuitBuildTimeout " ++ Itoa (CircuitTimeout cfg)) else [].
Definition hsTuning (cfg : TorServiceConfig) : gostr :=
  (if 0 <? MaxStreamsPerCircuit cfg then line (str "HiddenServiceMaxStreams " ++ Itoa (MaxStreamsPerCircuit cfg)) else []) ++
  line (str "HiddenServiceMaxStreamsCloseCircuit " ++ flag (CloseCircuitOnStreamLimit cfg)) ++
  (if 0 <? NumIntroPoints cfg then line (str "HiddenServiceNumIntroductionPoints " ++ Itoa (NumIntroPoints cfg)) else []).
Definition rule : gostr := str "# ============================================================".
Definition getTorConfig (cfg : TorServiceConfig) (hsDir : gostr) (torBackendPort : Z) : gostr :=
  line rule ++
  line (str "# Tor Configuration - Generated by server binary") ++
  line (str "# Regenerated every startup: backend port changes each run.") ++
  line (str "# The .onion identity persists via the keys under HiddenServiceDir.") ++
  line rule ++
  line [] ++
  line (str "# SOCKS port for outbound connections (0 = disabled, auto = runtime port)") ++
  line (socksConfig cfg) ++
  line [] ++
  line (str "# Control connection - runtime localhost port, never hardcoded") ++
  line (str "ControlPort 127.0.0.1:auto") ++
  line [] ++
  line (str "SafeLogging " ++ flag (SafeLogging cfg)) ++
  line (logConfig cfg) ++
  line (str "MaxCircuitDirtiness 600") ++
  line (str "MaxClientCircuitsPending " ++ Itoa (maxCircuits cfg)) ++
  line (circuitConfig cfg) ++
  line (str "BandwidthRate " ++ or_default (BandwidthRate cfg) (str "1 MB")) ++
  line (str "BandwidthBurst " ++ or_default (BandwidthBurst cfg) (str "2 MB")) ++
  line (accountingConfig cfg) ++
  line [] ++
  line (str "ExitRelay 0") ++
  line (str "ExitPolicy reject *:*") ++
  line (str "PublishServerDescriptor 0") ++
  line (str "ORPort 0") ++
  line (str "DirPort 0") ++
  line [] ++
  line (str "# Guard-discovery-attack defense (vanguards-lite) - built into Tor >= 0.4.7") ++
  line (str "VanguardsLiteEnabled 1") ++
  line [] ++
  line (str "HiddenServiceSingleHopMode 0") ++
  line [] ++
  line (str "FetchDirInfoEarly 1") ++
  line (str "FetchDirInfoExtraEarly 1") ++
  line [] ++
  line (str "DisableDebuggerAttachment 1") ++
  line [] ++
  line rule ++
  line (str "# Hidden Service (v3) - Tor generates and persists the key + hostname here") ++
  line rule ++
  line (str "HiddenServiceDir " ++ hsDir) ++
  line (str "HiddenServiceVersion 3") ++
  line (str "HiddenServicePort " ++ Itoa (virtualPort cfg) ++ str " 127.0.0.1:" ++ Itoa torBackendPort) ++
  line (str "# Export per-rendezvous-circuit ID via HAProxy PROXY protocol (opaque token, not an IP)") ++
  line (str "HiddenServiceExportCircuitID haproxy") ++
  hsTuning cfg.

(** *** The options the file sets *)

(** The lines that are neither blank nor comments. *)
Definition directive (l : gostr) : bool := negb (l =s []) && negb (HasPrefix l (str "#")).
Definition directives (text : gostr) : list gostr := filter (fun l => directive l = true) (split_on eol text).
Definition option_line (kv : gostr * gostr) : gostr := kv.1 ++ str " " ++ kv.2.
Definition given {A} (b : bool) (x : A) : list A := if b then [x] else [].
Definition torrc_options (cfg : TorServiceConfig) (hsDir : gostr) (port : Z) : list (gostr * gostr) :=
  (if UseNetwork cfg then [(str "SocksPort", str "127.0.0.1:auto"); (str "SocksPolicy", str "accept 127.0.0.1")] else [(str "SocksPort", str "0")]) ++
  [(str "ControlPort", str "127.0.0.1:auto"); (str "SafeLogging", flag (SafeLogging cfg))] ++
  given (LogDir cfg <>s []) (str "Log", str "notice file " ++ logFile cfg) ++
  given (DataDir cfg <>s []) (str "PidFile", pidFile cfg) ++
  [(str "MaxCircuitDirtiness", str "600"); (str "MaxClientCircuitsPending", Itoa (maxCircuits cfg))] ++
  given (0 <? CircuitTimeout cfg) (str "CircuitBuildTimeout", Itoa (CircuitTimeout cfg)) ++
  [(str "BandwidthRate", or_default (BandwidthRate cfg) (str "1 MB")); (str "BandwidthBurst", or_default (BandwidthBurst cfg) (str "2 MB"))] ++
  (if limited cfg then [(str "AccountingStart", str "month 1 00:00"); (str "AccountingMax", MaxMonthlyBandwidth cfg)] else []) ++
  [(str "ExitRelay", str "0"); (str "ExitPolicy", str "reject *:*"); (str "PublishServerDescriptor", str "0"); (str "ORPort", str "0"); (str "DirPort", str "0");
   (str "VanguardsLiteEnabled", str "1"); (str "HiddenServiceSingleHopMode", str "0"); (str "FetchDirInfoEarly", str "1"); (str "FetchDirInfoExtraEarly", str "1");
   (str "DisableDebuggerAttachment", str "1"); (str "HiddenServiceDir", hsDir); (str "HiddenServiceVersion", str "3");
   (str "HiddenServicePort", Itoa (virtualPort cfg) ++ str " 127.0.0.1:" ++ Itoa port); (str "HiddenServiceExportCircuitID", str "haproxy")] ++
  given (0 <? MaxStreamsPerCircuit cfg) (str "HiddenServiceMaxStreams", Itoa (MaxStreamsPerCircuit cfg)) ++
  [(str "HiddenServiceMaxStreamsCloseCircuit", flag (CloseCircuitOnStreamLimit cfg))] ++
  given (0 <? NumIntroPoints cfg) (str "HiddenServiceNumIntroductionPoints", Itoa (NumIntroPoints cfg)).
(** The texts that come from the configuration. *)
Definition torrc_texts (cfg : TorServiceConfig) (hsDir : gostr) : list gostr :=
  [logFile cfg; pidFile cfg; BandwidthRate cfg; BandwidthBurst cfg; MaxMonthlyBandwidth cfg; hsDir].
(** The options that name a port to listen on, with the values that stay on the host. *)
Definition listening : list gostr := [str "SocksPort"; str "ControlPort"; str "ORPort"; str "DirPort"].
Definition local_value (v : gostr) : bool := (v =s str "0") || (v =s str "127.0.0.1:auto").

Lemma directives_line l t : eol ∉ l -> directives (line l ++ t) = given (directive l) l ++ directives t.
Proof.
  intros Hl. unfold directives, line. rewrite <- app_assoc. cbn [app]. rewrite split_on_app by done.
  destruct (directive l) eqn:E; [by rewrite filter_cons_True|by rewrite filter_cons_False by congruence].
Qed.
Lemma directives_line_cat k v t : eol ∉ v -> HasPrefix k (str "#") = false -> k <> [] -> eol ∉ k -> directives (line (k ++ v) ++ t) = (k ++ v) :: directives t.
Proof.
  intros Hv Hk Hne Hnk. rewrite directives_line by (rewrite elem_of_app; tauto).
  destruct k as [|c k]; [done|]. replace (directive ((c :: k) ++ v)) with true; [done|]. symmetry. unfold directive.
  apply andb_true_iff. split; [done|]. unfold HasPrefix in *. apply negb_true_iff, bool_decide_eq_false. apply bool_decide_eq_false in Hk. intros Hp. apply Hk.
  destruct Hp as [r Hr]. change (str "#") with ["#"%char] in *. injection Hr as -> _. by exists k.
Qed.
Definition plain (l : gostr) : bool := negb (bool_decide (eol ∈ l)).
Lemma directives_skip l t : negb (directive l) && plain l = true -> directives (line l ++ t) = directives t.
Proof. intros [Hd Hp]%andb_true_iff. rewrite directives_line by (unfold plain in Hp; by bool_facts). by rewrite (proj1 (negb_true_iff _) Hd). Qed.
Lemma directives_keep l t : directive l && plain l = true -> directives (line l ++ t) = l :: directives t.
Proof. intros [Hd Hp]%andb_true_iff. rewrite directives_line by (unfold plain in Hp; by bool_facts). by rewrite Hd. Qed.
Lemma directives_setting k v t : negb (HasPrefix k (str "#")) && negb (k =s []) && plain k = true -> eol ∉ v -> directives (line (k ++ v) ++ t) = (k ++ v) :: directives t.
Proof. unfold plain. intros Hk Hv. bool_facts. by apply directives_line_cat. Qed.
Lemma line_nested b c t : line (line b ++ c) ++ t = line b ++ line c ++ t.
Proof. unfold line. by rewrite <- !app_assoc. Qed.
Lemma line_twice b t : line (line b) ++ t = line b ++ line [] ++ t.
Proof. unfold line. by rewrite <- !app_assoc. Qed.
Lemma Itoa_line n : eol ∉ Itoa n.
Proof. by apply Itoa_not_elem. Qed.
Lemma flag_line b : eol ∉ flag b.
Proof. destruct b; decided. Qed.
#[local] Hint Resolve Itoa_line flag_line : ipgaze.
(** One line of the file at a time. *)
Ltac torrc_line :=
  match goal with
  | |- context [line (line ?b ++ ?c) ++ ?t] => rewrite (line_nested b c t)
  | |- context [line (line ?b) ++ ?t] => rewrite (line_twice b t)
  | |- context [directives (line (str ?k ++ ?v) ++ ?t)] =>
      rewrite (directives_setting (str k) v t); [|vm_compute; reflexivity|solve [auto with ipgaze]]
  | |- context [directives (line ?l ++ ?t)] =>
      lazymatch l with str _ => idtac | [] => idtac | rule => idtac end;
      first [rewrite (directives_skip l t) by (vm_compute; reflexivity) | rewrite (directives_keep l t) by (vm_compute; reflexivity)]
  end.

Section torrc.
  Context (cfg : TorServiceConfig) (hsDir : gostr) (port : Z) (Htexts : Forall (fun v => eol ∉ v) (torrc_texts cfg hsDir)).
Lemma socks_directives t : directives (line (socksConfig cfg) ++ t) =
  (if UseNetwork cfg then [str "SocksPort 127.0.0.1:auto"; str "SocksPolicy accept 127.0.0.1"] else [str "SocksPort 0"]) ++ directives t.
Proof. unfold socksConfig. destruct (UseNetwork cfg); by repeat torrc_line. Qed.
Lemma log_directives t : directives (line (logConfig cfg) ++ t) =
  given (LogDir cfg <>s []) (str "Log notice file " ++ logFile cfg) ++ given (DataDir cfg <>s []) (str "PidFile " ++ pidFile cfg) ++ directives t.
Proof.
  clear port. do 2 (apply Forall_cons in Htexts as [? Htexts]). unfold logConfig.
  destruct (LogDir cfg =s []), (DataDir cfg =s []); rewrite ?app_nil_l, ?app_nil_r, <- ?app_assoc; by repeat torrc_line.
Qed.
Lemma circuit_directives t : directives (line (circuitConfig cfg) ++ t) =
  given (0 <? CircuitTimeout cfg) (str "CircuitBuildTimeout " ++ Itoa (CircuitTimeout cfg)) ++ directives t.
Proof. unfold circuitConfig. destruct (0 <? CircuitTimeout cfg); by repeat torrc_line. Qed.
Lemma accounting_directives t : directives (line (accountingConfig cfg) ++ t) =
  (if limited cfg then [str "AccountingStart month 1 00:00"; str "AccountingMax " ++ MaxMonthlyBandwidth cfg] else []) ++ directives t.
Proof. clear port. do 5 (apply Forall_cons in Htexts as [? Htexts]). unfold accountingConfig. destruct (limited cfg); by repeat torrc_line. Qed.
Lemma tuning_directives : directives (hsTuning cfg) =
  given (0 <? MaxStreamsPerCircuit cfg) (str "HiddenServiceMaxStreams " ++ Itoa (MaxStreamsPerCircuit cfg)) ++
  [str "HiddenServiceMaxStreamsCloseCircuit " ++ flag (CloseCircuitOnStreamLimit cfg)] ++
  given (0 <? NumIntroPoints cfg) (str "HiddenServiceNumIntroductionPoints " ++ Itoa (NumIntroPoints cfg)).
Proof.
  rewrite <- (app_nil_r (hsTuning cfg)). unfold hsTuning. rewrite <- !app_assoc.
  destruct (0 <? MaxStreamsPerCircuit cfg), (0 <? NumIntroPoints cfg); rewrite ?app_nil_l; by repeat torrc_line.
Qed.
Lemma or_default_line s d : eol ∉ s -> eol ∉ d -> eol ∉ or_default s d.
Proof. unfold or_default. by destruct (s =s []). Qed.
Lemma getTorConfig_options : directives (getTorConfig cfg hsDir port) = option_line <$> torrc_options cfg hsDir port.
Proof.
  pose proof Htexts as Ht. do 6 (apply Forall_cons in Ht as [? Ht]).
  assert (eol ∉ or_default (BandwidthRate cfg) (str "1 MB")) by (apply or_default_line; [done|decided]).
  assert (eol ∉ or_default (BandwidthBurst cfg) (str "2 MB")) by (apply or_default_line; [done|decided]).
  assert (eol ∉ Itoa (virtualPort cfg) ++ str " 127.0.0.1:" ++ Itoa port).
  { rewrite !elem_of_app. intros [?%Itoa_line|[Hin|?%Itoa_line]]; [done| |done]. revert Hin. change (eol ∉ str " 127.0.0.1:"). decided. }
  unfold getTorConfig. do 7 torrc_line. rewrite socks_directives. do 5 torrc_line. rewrite log_directives. do 2 torrc_line. rewrite circuit_directives.
  do 2 torrc_line. rewrite accounting_directives. repeat torrc_line. rewrite tuning_directives. unfold torrc_options. rewrite !fmap_app.
  destruct (UseNetwork cfg), (limited cfg); unfold given; repeat f_equal; split_ifs; reflexivity.
Qed.
End torrc.
(** When no configured text contains a line break the file sets exactly the listed
    options: every port Tor opens for clients, relays or control is off or on the
    loopback interface, and the hidden service forwards to the backend port and to
    nothing else. *)
Theorem torrc_stays_local cfg hsDir port :
  Forall (fun v => eol ∉ v) (torrc_texts cfg hsDir) ->
  directives (getTorConfig cfg hsDir port) = option_line <$> torrc_options cfg hsDir port /\
  (forall k v, (k, v) ∈ torrc_options cfg hsDir port -> k ∈ listening -> local_value v = true) /\
  (forall v, (str "HiddenServicePort", v) ∈ torrc_options cfg hsDir port <-> v = Itoa (virtualPort cfg) ++ str " 127.0.0.1:" ++ Itoa port).
Proof.
  intros Ht. split; [by apply getTorConfig_options|]. unfold torrc_options, given. split.
  - intros k v Hin Hk. unfold listening in Hk.
    repeat (apply elem_of_cons in Hk as [-> | Hk]); [..|by apply not_elem_of_nil in Hk];
      repeat first [apply elem_of_app in Hin as [Hin|Hin] | case_match | apply elem_of_cons in Hin as [[=]|Hin] | by apply not_elem_of_nil in Hin]; subst; done.
  - intros v. split.
    + intros Hin. repeat first [apply elem_of_app in Hin as [Hin|Hin] | case_match | apply elem_of_cons in Hin as [[=]|Hin] | by apply not_elem_of_nil in Hin]; done.
    + intros ->. do 8 (apply elem_of_app; right). apply elem_of_app. left. do 12 right. by left.
Qed.
Definition sample_config : TorServiceConfig :=
  mkTorConfig (str "/etc/ipgaze") (str "/var/lib/ipgaze") (str "/var/log/ipgaze") [] true 0 60 0 true 20 true [] [] (str "100 GB") 3 0.
Lemma torrc_stays_local_witness :
  (str "AccountingMax", str "100 GB") ∈ torrc_options sample_config (SiteDir sample_config) 64001 /\
  directives (getTorConfig sample_config (SiteDir sample_config) 64001) = option_line <$> torrc_options sample_config (SiteDir sample_config) 64001.
Proof.
  split; [decided|]. apply (torrc_stays_local sample_config (SiteDir sample_config) 64001). decided.
Defined.
(** A line break in a configured text becomes an option of its own. *)
Definition injecting_config : TorServiceConfig :=
  mkTorConfig (str "/etc/ipgaze") (str "/var/lib/ipgaze") [] [] false 0 0 0 true 0 true (str "1 MB" ++ [eol] ++ str "ORPort 9001") [] [] 0 0.
Lemma torrc_injection : str "ORPort 9001" ∈ directives (getTorConfig injecting_config (SiteDir injecting_config) 64001).
Proof. decided. Qed.

(** ** Starting and stopping *)

Definition secret_name : gostr := str "hs_ed25519_secret_key".
Definition public_name : gostr := str "hs_ed25519_public_key".
Definition hostname_name : gostr := str "hostname".
Definition onionKeyFiles : list gostr := [secret_name; public_name; hostname_name].
(** What answers a start: whether the binary is found, the error of the directories,
    the draws for the port, the error of the configuration file with what it left of
    it, the errors of the process and of its bootstrap, what Tor makes of its
    directory, and whether it gives a dialer. *)
Record tor_env := mkTorEnv {
  te_available : bool; te_dirs : option gostr; te_draws : nat -> draw; te_os_port : option Z; te_torrc : option (gostr * option gostr);
  te_process : option gostr; te_network : option gostr; te_generate : gmap gostr gostr -> gmap gostr gostr; te_dialer : bool }.
Definition port_error_text (e : port_error) : gostr :=
  match e with NoRandomBytes => str "read random bytes" | NoLoopbackPort => str "bind loopback listener" end.

Section manager.
  Context `{UnicodeTables} (cfg : TorServiceConfig).
Definition startDedicated (e : tor_env) (w : world) : world * result gostr service :=
  match te_dirs e with
  | Some err => (w, Err (str "tor dirs: " ++ err))
  | None =>
      match getRandomAvailablePort (te_draws e) (te_os_port e) with
      | Err err => (w, Err (str "allocate tor backend port: " ++ port_error_text err))
      | Ok port =>
          let '(ln, w) := open_resource Listener w in
          match te_torrc e with
          | Some (err, rest) => (close_resource ln (with_conf rest w), Err (str "torrc: " ++ err))
          | None =>
              let w := with_conf (Some (getTorConfig cfg (SiteDir cfg) port)) w in
              match te_process e with
              | Some err => (close_resource ln w, Err (str "tor start: " ++ err))
              | None =>
                  let '(t, w) := open_resource Process w in
                  let w := with_site (te_generate e (w_site w)) w in
                  match te_network e with
                  | Some err => (close_resource ln (close_resource t w), Err (str "tor enable network: " ++ err))
                  | None =>
                      match w_site w !! hostname_name with
                      | None => (close_resource ln (close_resource t w), Err (str "read onion hostname"))
                      | Some host => (w, Ok (mkService (TrimSpace host) port ln None t (UseNetwork cfg && te_dialer e)))
                      end
                  end
              end
          end
      end
  end.
Definition Start (e : tor_env) (m : manager) : manager * option gostr :=
  if m_running m then (m, None)
  else if negb (te_available e) then (m, None)
  else let '(w, r) := startDedicated e (m_world m) in
       match r with
       | Err err => (with_err (Some err) (in_world (fun _ => w) m), Some err)
       | Ok s => (adopt s w m, None)
       end.
(** [close_err] is the error of closing the Tor process. *)
Definition Stop (close_err : option gostr) (m : manager) : manager * option gostr :=
  let m := with_err None m in
  if negb (m_running m) || negb (bool_decide (is_Some (m_svc m))) then (m, None) else (drop_service m, close_err).
Definition Restart (close_err : option gostr) (e : tor_env) (m : manager) : manager * option gostr := Start e (Stop close_err m).1.
Definition GetHostname (m : manager) : gostr := match m_svc m with Some s => s_address s | None => [] end.
Definition BackendPort (m : manager) : Z := match m_svc m with Some s => s_port s | None => 0 end.
Definition shortErrMsg (err : gostr) : gostr :=
  let msg := ReplaceAll err [eol] (str " ") in
  if (120 <? length msg)%nat then take 120 msg ++ [chr 226; chr 128; chr 166] else msg.
Definition statusLocked (available : bool) (m : manager) : gostr :=
  if negb (m_running m)
  then if negb available then str "unavailable"
       else match m_err m with Some err => str "error:" ++ shortErrMsg err | None => str "stopped" end
  else if match m_svc m with Some s => s_address s =s [] | None => true end then str "starting" else str "healthy".
(** [HealthCheck]: the error of asking the control connection for the version. *)
Definition HealthCheck (probe : option gostr) (m : manager) : option gostr :=
  if negb (m_running m) || negb (bool_decide (is_Some (m_svc m))) then None else app (str "tor control probe failed: ") <$> probe.

(** ** Exchanging keys *)

(** The removal of files in order; [fails] tells which cannot be removed. *)
Fixpoint remove_files (fails : gostr -> option gostr) (names : list gostr) (site : gmap gostr gostr) : gmap gostr gostr * option gostr :=
  match names with
  | [] => (site, None)
  | n :: rest => match fails n with Some err => (site, Some err) | None => remove_files fails rest (delete n site) end
  end.
Definition RegenerateAddress (fails : gostr -> option gostr) (e : tor_env) (m : manager) : manager * result gostr gostr :=
  let m := if m_running m && bool_decide (is_Some (m_svc m)) then drop_service m else m in
  let '(site, err) := remove_files fails onionKeyFiles (w_site (m_world m)) in
  let m := in_world (with_site site) m in
  match err with
  | Some err => (m, Err (str "remove old key: " ++ err))
  | None => let '(m, err) := Start e m in
            match err with Some err => (m, Err err) | None => (m, Ok (GetHostname m)) end
  end.
(** What answers an exchange up to the start: closing the process, making the
    directory, and writing; a failed write leaves [partial] of the file. *)
Record swap_env := mkSwapEnv {
  sw_close : option gostr; sw_dir : option gostr; sw_remove : gostr -> option gostr; sw_write : gostr -> option (gostr * gostr); sw_order : list gostr }.
Fixpoint write_files (fails : gostr -> option (gostr * gostr)) (files : list (gostr * gostr)) (site : gmap gostr gostr) : gmap gostr gostr * option gostr :=
  match files with
  | [] => (site, None)
  | (n, data) :: rest =>
      match fails n with
      | Some (err, partial) => (<[n := partial]> site, Some (str "write " ++ n ++ str ": " ++ err))
      | None => write_files fails rest (<[n := data]> site)
      end
  end.
Definition ApplyKeys (sw : swap_env) (e : tor_env) (privateKey : gostr) (m : manager) : manager * result gostr gostr :=
  if negb (secret_file_ok privateKey) then (m, Err (str "private key is not in Tor's hs_ed25519_secret_key format"))
  else
    let '(m, err) := Stop (sw_close sw) m in
    match err with
    | Some err => (m, Err (str "stop tor: " ++ err))
    | None =>
        match sw_dir sw with
        | Some err => (m, Err (str "create site dir: " ++ err))
        | None =>
            let '(site, err) := remove_files (sw_remove sw) [public_name; hostname_name] (w_site (m_world m)) in
            let m := in_world (with_site site) m in
            match err with
            | Some err => (m, Err (str "remove stale: " ++ err))
            | None =>
                let '(site, err) := write_files (sw_write sw) [(secret_name, privateKey)] (w_site (m_world m)) in
                let m := in_world (with_site site) m in
                match err with
                | Some err => (m, Err err)
                | None => let '(m, err) := Start e m in
                          match err with Some err => (m, Err err) | None => (m, Ok (GetHostname m)) end
                end
            end
        end
    end.
(** [replaceSiteKeys] from a directory with the given files; [sw_order] is the order in
    which the map of the three files is iterated. *)
Definition identity_files (sec pub address : gostr) (n : gostr) : gostr :=
  if n =s secret_name then sec else if n =s public_name then pub else address ++ [eol].
Definition replaceSiteKeys (sha3_256 : gostr -> gostr) (sw : swap_env) (e : tor_env) (src : gmap gostr gostr) (m : manager) : manager * result gostr gostr :=
  let '(m, err) := Stop (sw_close sw) m in
  match err with
  | Some err => (m, Err (str "stop tor: " ++ err))
  | None =>
      match sw_dir sw with
      | Some err => (m, Err (str "create site dir: " ++ err))
      | None =>
          match src !! public_name with
          | None => (m, Err (str "read public key"))
          | Some pubData =>
              match DecodePublicKeyFile pubData with
              | Err WrongLength => (m, Err (str "public key file is too short or too long"))
              | Err WrongHeader => (m, Err (str "public key file header mismatch"))
              | Ok pub =>
                  match src !! secret_name with
                  | None => (m, Err (str "read secret key"))
                  | Some secData =>
                      if negb (secret_file_ok secData) then (m, Err (str "secret key file is not in Tor's hs_ed25519_secret_key format"))
                      else
                        let address := OnionAddress sha3_256 pub in
                        let '(site, err) := write_files (sw_write sw) ((fun n => (n, identity_files secData pubData address n)) <$> sw_order sw) (w_site (m_world m)) in
                        let m := in_world (with_site site) m in
                        match err with
                        | Some err => (m, Err err)
                        | None =>
                            let '(m, err) := Start e m in
                            match err with
                            | Some err => (m, Err (str "start tor: " ++ err))
                            | None => let live := GetHostname m in
                                      if (live <>s []) && (live <>s address) then (m, Err (str "published hostname does not match the installed key's address"))
                                      else (m, Ok address)
                            end
                        end
                  end
              end
          end
      end
  end.
Definition ImportKeys (sha3_256 : gostr -> gostr) (sw : swap_env) (e : tor_env) (srcDir : gostr) (src : gmap gostr gostr) (m : manager) : manager * result gostr gostr :=
  if srcDir =s [] then (m, Err (str "import path must not be empty"))
  else if negb (bool_decide (is_Some (src !! secret_name))) then (m, Err (str "missing " ++ secret_name))
  else if negb (bool_decide (is_Some (src !! public_name))) then (m, Err (str "missing " ++ public_name))
  else replaceSiteKeys sha3_256 sw e src m.

(** *** What a manager does *)

Inductive tor_op :=
| DoStart (e : tor_env) | DoStop (err : option gostr) | DoRestart (err : option gostr) (e : tor_env) | DoServe (h : nat)
| DoRegenerate (fails : gostr -> option gostr) (e : tor_env)
| DoApply (sw : swap_env) (e : tor_env) (key : gostr)
| DoImport (sha3_256 : gostr -> gostr) (sw : swap_env) (e : tor_env) (dir : gostr) (src : gmap gostr gostr).
Definition tor_do (o : tor_op) (m : manager) : manager :=
  match o with
  | DoStart e => (Start e m).1
  | DoStop err => (Stop err m).1
  | DoRestart err e => (Restart err e m).1
  | DoServe h => ServeBackend h m
  | DoRegenerate fails e => (RegenerateAddress fails e m).1
  | DoApply sw e key => (ApplyKeys sw e key m).1
  | DoImport hash sw e dir src => (ImportKeys hash sw e dir src m).1
  end.
End manager.

(** *** Nothing is left open *)

Section resources.
  Context `{UnicodeTables} (cfg : TorServiceConfig).
#[global] Instance startDedicated_contract : StartContract (startDedicated cfg).
Proof.
  intros e w Hw. unfold startDedicated. destruct (te_dirs e); [done|]. destruct (getRandomAvailablePort _ _) as [port|err]; [|done].
  pose proof (fresh_not_open Listener w Hw) as Hl. pose proof (open_ok Listener w Hw) as Hw1. pose proof (fresh_not_open Process _ Hw1) as Hp. pose proof (open_ok Process _ Hw1) as Hw2.
  cbn [open_resource]. destruct (te_torrc e) as [[err rest]|].
  { split; [by apply close_ok|]. cbn. by apply close_newest. }
  destruct (te_process e) as [err|].
  { split; [by apply close_ok|]. cbn. by apply close_newest. }
  cbn [open_resource with_conf with_site w_next w_open w_site w_conf]. destruct (te_network e) as [err|].
  { split; [by do 2 apply close_ok|]. cbn [close_resource w_open with_conf with_site]. rewrite (close_newest (Process, _)) by done. by apply close_newest. }
  destruct (_ !! hostname_name).
  - by split_and!.
  - split; [by do 2 apply close_ok|]. cbn [close_resource w_open with_conf with_site]. rewrite (close_newest (Process, _)) by done. by apply close_newest.
Qed.
(** What every operation keeps of a manager that has its handler. *)
Definition sound (m : manager) : Prop := owns m /\ served m.
Lemma owns_idle m : owns m -> m_running m = false -> m_svc m = None.
Proof. intros (_ & Hr & _) E. rewrite Hr in E. apply bool_decide_eq_false in E. destruct (m_svc m); [|done]. by destruct E. Qed.
Lemma in_site_sound site m : sound m -> sound (in_world (with_site site) m).
Proof. intros [Ho Hs]. by split. Qed.
Lemma Start_sound e m : sound m -> sound (Start cfg e m).1 /\ m_handler (Start cfg e m).1 = m_handler m.
Proof.
  intros [Ho Hs]. unfold Start. destruct (m_running m) eqn:Er; [done|]. destruct (te_available e); [|done]. cbn [negb].
  pose proof (owns_idle m Ho Er) as Hn. destruct (startDedicated cfg e (m_world m)) as [w [s|err]] eqn:E; cbn.
  - pose proof (adopt_keeps e m s w Ho Hn E) as [? ?]. split; [by split|]. unfold adopt. cbn. by destruct (m_handler m).
  - split; [|done]. destruct Ho as (Hw & Hr & Hm). pose proof (startDedicated_contract e (m_world m) Hw) as Hk. rewrite E in Hk. destruct Hk as [Hw' Hk].
    unfold sound, owns, served. cbn. rewrite Hn in *. cbn. by rewrite Hk.
Qed.
Lemma drop_handler m : m_handler (drop_service m) = m_handler m.
Proof. unfold drop_service. by destruct (m_svc m). Qed.
Lemma Stop_sound err m : sound m -> m_handler m <> None -> sound (Stop err m).1 /\ m_handler (Stop err m).1 = m_handler m.
Proof.
  intros [Ho Hs] Hh. unfold Stop. assert (sound (with_err None m)) as Hm by by split. destruct (_ || _); [by split|]. cbn [fst].
  split; [|by rewrite drop_handler]. destruct Hm. by apply drop_service_keeps.
Qed.
Lemma drop_sound m : sound m -> m_handler m <> None -> sound (drop_service m).
Proof. intros [Ho Hs] Hh. by apply drop_service_keeps. Qed.
Ltac kept := split; [assumption|cbn; congruence].
Lemma tor_do_sound o m : sound m -> m_handler m <> None -> sound (tor_do cfg o m) /\ m_handler (tor_do cfg o m) <> None.
Proof.
  intros Hm Hh. destruct o as [e|err|err e|h|fails e|sw e key|hash sw e dir src]; cbn [tor_do].
  - destruct (Start_sound e m Hm) as [? ->]. done.
  - destruct (Stop_sound err m Hm Hh) as [? ->]. done.
  - unfold Restart. destruct (Stop_sound err m Hm Hh) as [Hs Hh']. destruct (Start_sound e _ Hs) as [? ->]. by rewrite Hh'.
  - destruct Hm as [Ho _]. destruct (ServeBackend_keeps h m Ho) as [? ?]. split; [by split|]. unfold ServeBackend. by destruct (_ && _).
  - unfold RegenerateAddress. set (m1 := if _ && _ then _ else _). assert (sound m1 /\ m_handler m1 = m_handler m) as [H1 Hh1].
    { unfold m1. destruct (_ && _); [|done]. split; [by apply drop_sound|apply drop_handler]. }
    destruct (remove_files _ _ _) as [site [err|]]; cbn [fst]; [split; [by apply in_site_sound|cbn; congruence]|].
    pose proof (Start_sound e _ (in_site_sound site m1 H1)) as [H2 Hh2]. destruct (Start cfg e _) as [m2 [err|]]; cbn in *; (split; [done|congruence]).
  - unfold ApplyKeys. destruct (secret_file_ok key); [|done]. cbn [negb]. pose proof (Stop_sound (sw_close sw) m Hm Hh) as [H1 Hh1].
    destruct (Stop (sw_close sw) m) as [m1 [err|]]; cbn [fst] in *; [kept|]. destruct (sw_dir sw); [kept|].
    destruct (remove_files _ _ _) as [site [err|]]; cbn [fst]; [split; [by apply in_site_sound|cbn; congruence]|].
    destruct (write_files _ _ _) as [site2 [err|]]; cbn [fst]; [split; [by do 2 apply in_site_sound|cbn; congruence]|].
    pose proof (Start_sound e _ (in_site_sound site2 _ (in_site_sound site m1 H1))) as [H2 Hh2]. destruct (Start cfg e _) as [m2 [err|]]; cbn in *; (split; [done|congruence]).
  - unfold ImportKeys. destruct (dir =s []); [done|]. do 2 (destruct (negb _); [done|]). unfold replaceSiteKeys. pose proof (Stop_sound (sw_close sw) m Hm Hh) as [H1 Hh1].
    destruct (Stop (sw_close sw) m) as [m1 [err|]]; cbn [fst] in *; [kept|]. destruct (sw_dir sw); [kept|].
    destruct (src !! public_name) as [pubData|]; [|kept]. destruct (DecodePublicKeyFile pubData) as [pub|[]]; [|kept..].
    destruct (src !! secret_name) as [secData|]; [|kept]. destruct (secret_file_ok secData); [|kept]. cbn [negb].
    destruct (write_files _ _ _) as [site [err|]]; cbn [fst]; [split; [by apply in_site_sound|cbn; congruence]|].
    pose proof (Start_sound e _ (in_site_sound site m1 H1)) as [H2 Hh2]. destruct (Start cfg e _) as [m2 [err|]]; cbn in *; [split; [done|congruence]|].
    destruct (_ && _); (split; [done|cbn; congruence]).
Qed.
(** C29. After the server has started Tor and attached its handler, whatever starts,
    stops and exchanges of keys follow and whatever fails in them, the manager counts
    as running exactly when it has a service, and the open resources are exactly that
    service's process and listener: no failed start and no stop leaves one behind. *)
Theorem tor_resources_accounted e0 h ops w :
  world_ok w -> w_open w = [] ->
  let m := fold_left (fun m o => tor_do cfg o m) ops (ServeBackend h (Start cfg e0 (new_manager w)).1) in
  m_running m = bool_decide (is_Some (m_svc m)) /\
  w_open (m_world m) = match m_svc m with Some s => [s_provider s; backendLn s] | None => [] end.
Proof.
  intros Hw Hopen. assert (sound (new_manager w)) as Hn by by split.
  assert (forall m, sound m -> m_handler m <> None -> sound (fold_left (fun m o => tor_do cfg o m) ops m)) as Hfold.
  { clear Hn. induction ops as [|o ops IH]; [done|]. cbn. intros m Hm Hh. destruct (tor_do_sound o m Hm Hh). by apply IH. }
  destruct (Start_sound e0 _ Hn) as [Hs _]. destruct Hs as [Ho _]. destruct (ServeBackend_keeps h _ Ho) as [? ?].
  destruct (Hfold (ServeBackend h (Start cfg e0 (new_manager w)).1)) as [(_ & Hr & Hm) _]; [by split|unfold ServeBackend; by destruct (_ && _)|].
  cbn zeta. split; [done|]. destruct (m_svc _); [by destruct Hm|done].
Qed.
End resources.
(** A host on which everything works, and one whose bootstrap fails. *)
Definition empty_world : world := mkWorld [] 0 None ∅.
Definition good_env : tor_env :=
  mkTorEnv true None (fun _ => mkDraw (Some ("a"%char, "b"%char)) true) None None None None (fun site => <[hostname_name := str "abc.onion" ++ [eol]]> site) true.
Definition failing_env : tor_env :=
  mkTorEnv true None (fun _ => mkDraw (Some ("a"%char, "b"%char)) true) None None None (Some (str "timeout")) (fun site => site) true.
Lemma tor_resources_accounted_witness :
  let m := fold_left (fun m o => tor_do (H := ascii_tables) sample_config o m) [DoStop None; DoStart failing_env; DoStart good_env]
             (ServeBackend 7 (Start sample_config good_env (new_manager empty_world)).1) in
  GetHostname m = str "abc.onion" /\ w_open (m_world m) = match m_svc m with Some s => [s_provider s; backendLn s] | None => [] end.
Proof.
  cbn zeta. split; [by vm_compute|].
  apply (tor_resources_accounted (H := ascii_tables) sample_config good_env 7 [DoStop None; DoStart failing_env; DoStart good_env] empty_world); [constructor|reflexivity].
Defined.
(** A stop before the handler is attached leaves the listener open, though the comment
    of [Stop] says it terminates the backend listener. *)
Lemma stop_before_serving_leaks :
  w_open (m_world (Stop None (Start sample_config good_env (new_manager empty_world)).1).1) = [(Listener, 0%nat)].
Proof. by vm_compute. Qed.

(** *** What an exchange installs *)

Section exchange.
  Context `{UnicodeTables} (cfg : TorServiceConfig) (sha3_256 : gostr -> gostr).
Lemma write_files_ok fails files site site' :
  NoDup files.*1 -> write_files fails files site = (site', None) -> forall n, site' !! n = match list_to_map (M := gmap gostr gostr) files !! n with Some d => Some d | None => site !! n end.
Proof.
  revert site. induction files as [|[n d] files IH]; intros site Hnd; cbn.
  - intros [= <-] n. by rewrite lookup_empty.
  - apply NoDup_cons in Hnd as [Hn Hnd]. destruct (fails n) as [[err partial]|]; [done|]. intros Hw k. rewrite (IH _ Hnd Hw k).
    destruct (decide (k = n)) as [->|Hk].
    + rewrite lookup_insert_eq. rewrite (not_elem_of_list_to_map_1 _ _ Hn). by rewrite lookup_insert_eq.
    + by rewrite !lookup_insert_ne by done.
Qed.
Lemma identity_written fails order sec pub address site site' :
  order ≡ₚ onionKeyFiles -> write_files fails ((fun n => (n, identity_files sec pub address n)) <$> order) site = (site', None) ->
  site' !! secret_name = Some sec /\ site' !! public_name = Some pub /\ site' !! hostname_name = Some (address ++ [eol]).
Proof.
  intros Ho Hw. set (files := (fun n => (n, identity_files sec pub address n)) <$> order) in *.
  assert (files.*1 = order) as Hf by (unfold files; rewrite <- list_fmap_compose; apply list_fmap_id).
  assert (NoDup onionKeyFiles) as Hk by decided.
  assert (NoDup files.*1) as Hnd by (rewrite Hf; by rewrite Ho).
  assert (forall n, n ∈ onionKeyFiles -> site' !! n = Some (identity_files sec pub address n)) as Hget.
  { intros n Hn. rewrite (write_files_ok _ _ _ _ Hnd Hw n). rewrite (elem_of_list_to_map_1 _ n (identity_files sec pub address n)); [done|done|].
    apply list_elem_of_fmap. exists n. split; [done|]. by rewrite Ho. }
  split_and!; [apply (Hget secret_name)|apply (Hget public_name)|apply (Hget hostname_name)]; decided.
Qed.
Lemma Stop_stopped err m m' : m_running m = bool_decide (is_Some (m_svc m)) -> Stop err m = (m', None) -> m_running m' = false /\ m_svc m' = None.
Proof.
  intros Hr. unfold Stop. cbn [with_err m_running m_svc]. rewrite Hr. destruct (m_svc m) as [s|] eqn:E.
  - cbn. intros [= <- _]. unfold drop_service. cbn. by rewrite E.
  - cbn. intros [= <-]. cbn. by rewrite Hr, E.
Qed.
(** An exchange of keys that succeeds has found a well-formed pair of key files,
    returns the address of their public key and has installed exactly that identity;
    Tor, when it is there, runs on it and publishes no other address. *)
Theorem exchange_installs sw e src m m' address :
  m_running m = bool_decide (is_Some (m_svc m)) -> sw_order sw ≡ₚ onionKeyFiles ->
  replaceSiteKeys cfg sha3_256 sw e src m = (m', Ok address) ->
  exists pubData secData pub site,
    src !! public_name = Some pubData /\ src !! secret_name = Some secData /\ secret_file_ok secData = true /\
    pubData = EncodePublicKeyFile pub /\ address = OnionAddress sha3_256 pub /\
    site !! secret_name = Some secData /\ site !! public_name = Some pubData /\ site !! hostname_name = Some (address ++ [eol]) /\
    (if te_available e then m_running m' = true /\ w_site (m_world m') = te_generate e site /\ (GetHostname m' = [] \/ GetHostname m' = address)
     else m_running m' = false /\ w_site (m_world m') = site).
Proof.
  intros Hr Ho. unfold replaceSiteKeys. destruct (Stop (sw_close sw) m) as [m1 [err|]] eqn:Es; [done|]. destruct (Stop_stopped _ _ _ Hr Es) as [Hr1 Hs1].
  destruct (sw_dir sw); [done|]. destruct (src !! public_name) as [pubData|]; [|done]. destruct (DecodePublicKeyFile pubData) as [pub|[]] eqn:Ed; [|done..].
  destruct (src !! secret_name) as [secData|]; [|done]. destruct (secret_file_ok secData) eqn:Esec; [|done]. cbn [negb].
  destruct (write_files _ _ _) as [site [err|]] eqn:Ew; [done|]. destruct (identity_written _ _ _ _ _ _ _ Ho Ew) as (Hsec & Hpub & Hhost).
  intros HS. exists pubData, secData, pub, site. pose proof (public_key_file_decoded pubData pub Ed) as [_ Henc].
  unfold Start in HS. cbn [in_world m_running] in HS. rewrite Hr1 in HS. destruct (te_available e); cbn [negb] in HS.
  - destruct (startDedicated cfg e _) as [w [s|err]] eqn:E; [|done].
    assert (w_site w = te_generate e site) as Hsite.
    { revert E. unfold startDedicated. destruct (te_dirs e); [done|]. destruct (getRandomAvailablePort _ _); [|done]. cbn [open_resource]. destruct (te_torrc e) as [[]|]; [done|].
      destruct (te_process e); [done|]. cbn. destruct (te_network e); [done|]. destruct (te_generate e site !! hostname_name); [|done]. by intros [= <- _]. }
    cbn in HS. destruct (_ && _) eqn:Eb; [done|]. injection HS as <- <-. split_and!; try done.
    + unfold adopt. cbn. by destruct (m_handler m1).
    + unfold adopt. cbn. by destruct (m_handler m1).
    + apply andb_false_iff in Eb as [Eb|Eb]; apply negb_false_iff, bool_decide_eq_true in Eb; [by left|by right].
  - cbn in HS. unfold GetHostname in HS. cbn in HS. rewrite Hs1 in HS. cbn in HS. injection HS as <- <-. split_and!; done.
Qed.
(** A key file that is refused leaves the service as it is when it comes to [ApplyKeys],
    but [replaceSiteKeys] has stopped Tor by then. *)
Lemma ApplyKeys_refuses sw e key m : secret_file_ok key = false -> exists err, ApplyKeys cfg sw e key m = (m, Err err).
Proof. intros Hk. unfold ApplyKeys. rewrite Hk. by eexists. Qed.
Lemma bad_import_goes_offline sw e src pubData m :
  m_running m = bool_decide (is_Some (m_svc m)) -> sw_close sw = None -> sw_dir sw = None -> src !! public_name = Some pubData -> length pubData <> 64%nat ->
  exists m' err, replaceSiteKeys cfg sha3_256 sw e src m = (m', Err err) /\ m_running m' = false.
Proof.
  intros Hr Hc Hd Hp Hl. unfold replaceSiteKeys. rewrite Hc, Hd, Hp. destruct (Stop None m) as [m1 [err|]] eqn:Es.
  - exfalso. revert Es. unfold Stop. by destruct (_ || _).
  - destruct (Stop_stopped _ _ _ Hr Es) as [Hr1 _]. unfold DecodePublicKeyFile. apply Nat.eqb_neq in Hl. rewrite Hl. cbn. by eexists _, _.
Qed.
End exchange.
(** A key pair to import. *)
Definition import_files : gmap gostr gostr :=
  {[public_name := EncodePublicKeyFile sample_key; secret_name := fixed 32 secretKeyHeader ++ replicate 64 "s"%char]}.
Definition import_swap : swap_env := mkSwapEnv None None (fun _ => None) (fun _ => None) [hostname_name; secret_name; public_name].
Definition import_env : tor_env :=
  mkTorEnv true None (fun _ => mkDraw (Some ("a"%char, "b"%char)) true) None None None None (fun site => site) true.
Lemma exchange_installs_witness : exists m' address,
  replaceSiteKeys (H := ascii_tables) sample_config toy_hash import_swap import_env import_files (new_manager empty_world) = (m', Ok address) /\
  exists pub, import_files !! public_name = Some (EncodePublicKeyFile pub) /\ address = OnionAddress (H := ascii_tables) toy_hash pub.
Proof.
  destruct (replaceSiteKeys (H := ascii_tables) sample_config toy_hash import_swap import_env import_files (new_manager empty_world)) as [m' [address|err]] eqn:E;
    [|exfalso; vm_compute in E; discriminate E].
  exists m', address. split; [reflexivity|].
  destruct (exchange_installs (H := ascii_tables) sample_config toy_hash import_swap import_env import_files (new_manager empty_world) m' address) as (pubData & _ & pub & _ & Hp & _ & _ & He & Ha & _).
  - reflexivity.
  - apply (bool_decide_unpack _). vm_compute. exact I.
  - exact E.
  - exists pub. split; [rewrite Hp, He; reflexivity|exact Ha].
Defined.

(** ** Candidates *)

Definition candidateTempPrefix : gostr := str ".vanity-".
(** An entry of the candidates' directory: its name, whether it is a directory, and
    the files in it. *)
Record entry := mkEntry { en_name : gostr; en_dir : bool; en_files : gmap gostr gostr }.
Definition hasKeySet (files : gmap gostr gostr) : bool := forallb (fun f => bool_decide (is_Some (files !! f))) onionKeyFiles.
(** [None] when the directory cannot be read. *)
Definition VanityCandidates (dir : option (list entry)) : list gostr :=
  match dir with
  | None => []
  | Some entries => en_name <$> filter (fun e => en_dir e = true /\ HasPrefix (en_name e) candidateTempPrefix = false /\ hasKeySet (en_files e) = true) entries
  end.
Inductive candidate_error := MultipleCandidates | NoMatch | AmbiguousPrefix | NoCandidates | CandidateGone | ExchangeFailed (e : gostr) | NotRemoved (e : gostr).
Fixpoint resolve_loop (address : gostr) (candidates matches : list gostr) : result candidate_error gostr :=
  match candidates with
  | [] => match matches with [] => Err NoMatch | [c] => Ok c | _ => Err AmbiguousPrefix end
  | c :: rest => if c =s address then Ok c else resolve_loop address rest (if HasPrefix c address then matches ++ [c] else matches)
  end.
(** The caller has checked that there are candidates; [NoCandidates] is its error. *)
Definition resolveVanityCandidate (address : gostr) (candidates : list gostr) : result candidate_error gostr :=
  if address =s []
  then match candidates with
       | [c] => Ok c
       | [] => Err NoCandidates
       | _ => Err MultipleCandidates
       end
  else resolve_loop address candidates [].

(** What a request for [address] identifies: the whole address of a candidate, or the
    beginning of exactly one. *)
Definition identifies (address : gostr) (candidates : list gostr) (c : gostr) : Prop :=
  c ∈ candidates /\ (c = address \/ address ∉ candidates /\ HasPrefix c address = true /\ forall d, d ∈ candidates -> HasPrefix d address = true -> d = c).
Lemma resolve_loop_spec address cs ms c :
  NoDup cs -> resolve_loop address cs ms = Ok c <->
  (address ∈ cs /\ c = address) \/ (address ∉ cs /\ ms ++ filter (fun d => HasPrefix d address = true) cs = [c]).
Proof.
  revert ms. induction cs as [|d cs IH]; intros ms Hnd; cbn [resolve_loop].
  - rewrite filter_nil, app_nil_r. split.
    + destruct ms as [|x [|]]; [done| |done]. intros [= ->]. right. split; [apply not_elem_of_nil|done].
    + by intros [[?%not_elem_of_nil _]|[_ ->]].
  - apply NoDup_cons in Hnd as [Hd Hnd]. destruct (d =s address) eqn:E; bool_facts.
    + subst d. split; [intros [= <-]; left; split; [by left|done]|]. intros [[_ ->]|[Hn _]]; [done|]. destruct Hn. by left.
    + rewrite (IH _ Hnd). rewrite elem_of_cons. destruct (HasPrefix d address) eqn:Ep.
      * rewrite filter_cons_True by done. rewrite <- app_assoc. cbn [app]. naive_solver.
      * rewrite filter_cons_False by congruence. naive_solver.
Qed.
(** Among distinct candidates a non-empty request selects exactly the candidate it
    identifies, and is refused when it identifies none; an empty request selects the
    only candidate there is. *)
Theorem candidate_identified address candidates c :
  NoDup candidates ->
  resolveVanityCandidate address candidates = Ok c <-> if address =s [] then candidates = [c] else identifies address candidates c.
Proof.
  intros Hnd. unfold resolveVanityCandidate. destruct (address =s []) eqn:E.
  - destruct candidates as [|x [|y l]]; [done| |done]. split; by intros [= ->].
  - rewrite (resolve_loop_spec _ _ _ _ Hnd). cbn [app]. unfold identifies. split.
    + intros [[Hin ->]|[Hn Hf]]; [by split; [|left]|]. assert (forall d, d ∈ filter (fun d => HasPrefix d address = true) candidates <-> d = c) as Hd.
      { intros d. rewrite Hf. apply list_elem_of_singleton. }
      setoid_rewrite list_elem_of_filter in Hd. destruct (Hd c) as [_ Hc]. destruct (Hc eq_refl) as [Hp Hin]. split; [done|]. right. split_and!; [done..|].
      intros d Hin' Hp'. apply Hd. by split.
    + intros [Hin [->|(Hn & Hp & Hu)]]; [by left|right]. split; [done|].
      assert (NoDup (filter (fun d => HasPrefix d address = true) candidates)) as Hnf by by apply NoDup_filter.
      assert (forall d, d ∈ filter (fun d => HasPrefix d address = true) candidates <-> d = c) as Hd.
      { intros d. rewrite list_elem_of_filter. split; [intros [? ?]; by apply Hu|intros ->; done]. }
      destruct (filter _ candidates) as [|x [|y l]] eqn:Ef.
      * destruct (Hd c) as [_ Hc]. by specialize (Hc eq_refl) as ?%not_elem_of_nil.
      * f_equal. apply Hd. by left.
      * exfalso. apply NoDup_cons in Hnf as [Hx _]. assert (x = c) by (apply Hd; by left). assert (y = c) by (apply Hd; right; by left). apply Hx. subst. by left.
Qed.
Lemma candidate_identified_witness :
  resolveVanityCandidate (str "ab") [str "abc"; str "xyz"] = Ok (str "abc") /\ identifies (str "ab") [str "abc"; str "xyz"] (str "abc").
Proof.
  assert (NoDup [str "abc"; str "xyz"]) as Hnd by (apply (bool_decide_unpack _); vm_compute; exact I).
  split; [reflexivity|]. apply (candidate_identified (str "ab") [str "abc"; str "xyz"] (str "abc") Hnd). reflexivity.
Defined.

(** *** Publishing a candidate *)

(** What answers [writeCandidate]: the staging directory's name, the order in which the
    map of files is iterated, the writes, the rename, and whether the staging directory
    can be removed. *)
Record publish_env := mkPublishEnv {
  pb_temp : option gostr; pb_order : list gostr; pb_write : gostr -> option (gostr * gostr); pb_rename : option gostr; pb_removed : bool }.
(** The contents of the staging directory after each write. *)
Fixpoint write_states (fails : gostr -> option (gostr * gostr)) (files : list (gostr * gostr)) (site : gmap gostr gostr) : list (gmap gostr gostr) * bool :=
  match files with
  | [] => ([], true)
  | (n, data) :: rest =>
      match fails n with
      | Some (_, partial) => ([<[n := partial]> site], false)
      | None => let '(states, ok) := write_states fails rest (<[n := data]> site) in (<[n := data]> site :: states, ok)
      end
  end.
(** The directory as it is after each step of [writeCandidate] with [WriteKeySet]. *)
Definition writeCandidate (p : publish_env) (address pubFile secFile : gostr) (dir : list entry) : list (list entry) * bool :=
  match pb_temp p with
  | None => ([], false)
  | Some suffix =>
      let tmp := candidateTempPrefix ++ suffix in
      let '(states, ok) := write_states (pb_write p) ((fun n => (n, identity_files secFile pubFile address n)) <$> pb_order p) ∅ in
      let staged := (fun files => dir ++ [mkEntry tmp true files]) <$> (∅ :: states) in
      let removed := if pb_removed p then [dir] else [] in
      if negb ok then (staged ++ removed, false)
      else match pb_rename p with
           | Some _ => (staged ++ removed, false)
           | None => (staged ++ [dir ++ [mkEntry address true (default ∅ (last states))]], true)
           end
  end.
Lemma candidates_app d1 d2 : VanityCandidates (Some (d1 ++ d2)) = VanityCandidates (Some d1) ++ VanityCandidates (Some d2).
Proof. unfold VanityCandidates. by rewrite filter_app, fmap_app. Qed.
Lemma candidates_staged dir suffix files : VanityCandidates (Some (dir ++ [mkEntry (candidateTempPrefix ++ suffix) true files])) = VanityCandidates (Some dir).
Proof.
  rewrite candidates_app. rewrite <- (app_nil_r (VanityCandidates (Some dir))) at 2. by f_equal.
Qed.
Lemma write_states_last fails files site states : write_states fails files site = (states, true) -> write_files fails files site = (default site (last states), None).
Proof.
  revert site states. induction files as [|[n d] files IH]; intros site states; cbn; [by intros [= <-]|].
  destruct (fails n) as [[err partial]|]; [done|]. destruct (write_states fails files _) as [st ok] eqn:E. intros [= <- ->]. rewrite (IH _ _ E). by rewrite last_cons; destruct (last st).
Qed.
(** At every moment while a candidate is written the list of candidates is the old
    one; it has the new address in it only once all three files are complete, and has
    it whenever the write succeeds. *)
Theorem candidate_published_whole p address pubFile secFile dir states ok :
  pb_order p ≡ₚ onionKeyFiles -> HasPrefix address candidateTempPrefix = false ->
  writeCandidate p address pubFile secFile dir = (states, ok) ->
  (forall s, s ∈ states -> VanityCandidates (Some s) = VanityCandidates (Some dir) \/
     VanityCandidates (Some s) = VanityCandidates (Some dir) ++ [address] /\
     exists e, e ∈ s /\ en_name e = address /\ en_files e !! secret_name = Some secFile /\ en_files e !! public_name = Some pubFile /\ en_files e !! hostname_name = Some (address ++ [eol])) /\
  (ok = true -> exists s, last states = Some s /\ VanityCandidates (Some s) = VanityCandidates (Some dir) ++ [address]).
Proof.
  intros Ho Hpre. unfold writeCandidate. destruct (pb_temp p) as [suffix|]; [|intros [= <- <-]; split; [by intros s ?%not_elem_of_nil|done]].
  destruct (write_states _ _ _) as [sts good] eqn:E.
  assert (forall s, s ∈ (fun files => dir ++ [mkEntry (candidateTempPrefix ++ suffix) true files]) <$> ∅ :: sts -> VanityCandidates (Some s) = VanityCandidates (Some dir)) as Hst.
  { intros s (files & -> & _)%list_elem_of_fmap. apply candidates_staged. }
  generalize dependent ((fun files => dir ++ [mkEntry (candidateTempPrefix ++ suffix) true files]) <$> ∅ :: sts). intros staged Hst.
  assert (forall s, s ∈ staged ++ (if pb_removed p then [dir] else []) -> VanityCandidates (Some s) = VanityCandidates (Some dir)) as Hold.
  { intros s [Hs|Hs]%elem_of_app; [by apply Hst|]. destruct (pb_removed p); [by apply list_elem_of_singleton in Hs as ->|by apply not_elem_of_nil in Hs]. }
  destruct good; cbn [negb]; [|intros [= <- <-]; split; [intros s Hs; left; by apply Hold|done]].
  destruct (pb_rename p); [intros [= <- <-]; split; [intros s Hs; left; by apply Hold|done]|]. intros [= <- <-].
  apply write_states_last in E. destruct (identity_written _ _ _ _ _ _ _ Ho E) as (Hsec & Hpub & Hhost). set (files := default ∅ (last sts)) in *.
  assert (VanityCandidates (Some (dir ++ [mkEntry address true files])) = VanityCandidates (Some dir) ++ [address]) as Hnew.
  { rewrite candidates_app. f_equal. unfold VanityCandidates. rewrite filter_cons_True; [done|]. cbn. split_and!; [done|done|]. by rewrite Hsec, Hpub, Hhost. }
  split.
  - intros s [Hs|Hs]%elem_of_app; [left; by apply Hst|]. apply list_elem_of_singleton in Hs as ->. right. split; [done|]. exists (mkEntry address true files).
    split_and!; [apply elem_of_app; right; by left|done..].
  - intros _. eexists. rewrite last_app. cbn. split; [done|exact Hnew].
Qed.
Lemma candidate_published_whole_witness :
  let p := mkPublishEnv (Some (str "123")) onionKeyFiles (fun _ => None) None true in
  exists s, last (writeCandidate p (str "abc.onion") (str "pub") (str "sec") []).1 = Some s /\ VanityCandidates (Some s) = [str "abc.onion"].
Proof.
  cbn zeta. set (p := mkPublishEnv (Some (str "123")) onionKeyFiles (fun _ => None) None true).
  destruct (writeCandidate p (str "abc.onion") (str "pub") (str "sec") []) as [states ok] eqn:E.
  destruct (candidate_published_whole p (str "abc.onion") (str "pub") (str "sec") [] states ok) as [_ Hok]; [reflexivity|reflexivity|exact E|].
  apply Hok. injection E as _ <-. reflexivity.
Defined.

Section apply.
  Context `{UnicodeTables} (cfg : TorServiceConfig) (sha3_256 : gostr -> gostr).
(** [ApplyVanityAddress]; [remove_err] is the error of removing the applied candidate. *)
Definition candidate_files (dir : option (list entry)) (name : gostr) : gmap gostr gostr :=
  match List.find (fun e => en_name e =s name) (default [] dir) with Some e => en_files e | None => ∅ end.
Definition ApplyVanityAddress (sw : swap_env) (e : tor_env) (remove_err : option gostr) (dir : option (list entry)) (address : gostr) (m : manager) :
    manager * option (list entry) * result candidate_error gostr :=
  match VanityCandidates dir with
  | [] => (m, dir, Err NoCandidates)
  | candidates =>
      match resolveVanityCandidate address candidates with
      | Err err => (m, dir, Err err)
      | Ok address =>
          let src := candidate_files dir address in
          if negb (hasKeySet src) then (m, dir, Err CandidateGone)
          else let '(m, r) := replaceSiteKeys cfg sha3_256 sw e src m in
               match r with
               | Err err => (m, dir, Err (ExchangeFailed err))
               | Ok live => match remove_err with
                            | Some err => (m, dir, Err (NotRemoved err))
                            | None => (m, (filter (fun x => en_name x <> address)) <$> dir, Ok live)
                            end
               end
      end
  end.
(** [State] of [VanitySearchStatus]. *)
Definition vanity_state (running : bool) (dir : option (list entry)) : gostr :=
  if running then str "running" else if (0 <? length (VanityCandidates dir))%nat then str "found" else str "idle".
(** A request that is refused because it identifies no candidate changes nothing. *)
Lemma ApplyVanityAddress_refused sw e remove_err dir address m err :
  resolveVanityCandidate address (VanityCandidates dir) = Err err -> exists err', ApplyVanityAddress sw e remove_err dir address m = (m, dir, Err err').
Proof. intros Hr. unfold ApplyVanityAddress. destruct (VanityCandidates dir); [by eexists|]. rewrite Hr. by eexists. Qed.
End apply.
