(* ===== verification/TorControl.v ===== *)
(** * The control channel of the hidden service: [server/tor_control.go]

    The endpoints under [/server/tor/] through which the command line drives the Tor
    manager of the running server: the gate on the connection's peer, the method check
    and the handlers, written against the interface [TorController] of the source.  The
    manager of [TorManager] is an instance of it.

    The theorems: a peer that is not on the loopback interface gets one and the same
    reply from every route of the channel, whatever it sends, and changes nothing; only
    a request with the right method changes anything; and every sequence of requests
    keeps the account of the manager's resources.  That reply is not the one an unknown
    path gets ([routes_distinguishable]).  The paths in the answers of the status and
    validation routes are left out. *)
From stdpp Require Import base list gmap strings.
From Stdlib Require Import ZArith Lia.
From S2P Require Import Prelude GoStrings GoUtf8 GoNet Overlay Onion TorManager.
Local Open Scope Z_scope.
Local Open Scope go_scope.

(** ** The gate *)

(** [IsLoopbackRequest] of [handler/metrics.go]: the address of the TCP peer alone. *)
Definition IsLoopbackRequest (remoteAddr : gostr) : bool :=
  let host := match SplitHostPort remoteAddr with Some (host, _) => host | None => remoteAddr end in
  match ParseIP host with Some ip => IsLoopback ip | None => false end.

(** ** The interface *)

Inductive start_refusal := SearchRunning (e : gostr) | SearchRefused (e : gostr).
Record TorController (S : Type) := mkController {
  IsAvailable : S -> bool;
  IsRunning : S -> bool;
  InfoStatus : S -> gostr;
  InfoHostname : S -> gostr;
  PortOf : S -> Z;
  Validate : S -> option gostr;
  DoRestartTor : S -> S * option gostr;
  Regenerate : S -> S * result gostr gostr;
  StartVanitySearch : gostr -> Z -> S -> S * option start_refusal;
  StopVanitySearch : S -> S * bool;
  SearchStatus : S -> gostr;
  ApplyVanity : gostr -> S -> S * result gostr gostr;
  ImportFrom : gostr -> S -> S * result gostr gostr }.
Arguments mkController {S}.
Arguments IsAvailable {S}.
Arguments IsRunning {S}.
Arguments InfoStatus {S}.
Arguments InfoHostname {S}.
Arguments PortOf {S}.
Arguments Validate {S}.
Arguments DoRestartTor {S}.
Arguments Regenerate {S}.
Arguments StartVanitySearch {S}.
Arguments StopVanitySearch {S}.
Arguments SearchStatus {S}.
Arguments ApplyVanity {S}.
Arguments ImportFrom {S}.

(** ** Requests and replies *)

Record torControlRequest := mkControlRequest { Prefix : gostr; Workers : Z; Address : gostr; SrcPath : gostr }.
Definition no_request : torControlRequest := mkControlRequest [] 0 [] [].
Record request := mkRequest { q_method : gostr; q_path : gostr; q_remote : gostr; q_body : option gostr }.
(** [NotFoundReply] is the JSON envelope of [torControlNotFound], whatever the client
    accepts; [RouterAnswer] is the answer of the router's catch-all for an unknown path,
    which [Negotiate.NotFoundHandler] negotiates. *)
Inductive reply :=
| NotFoundReply | RouterAnswer | MethodNotAllowed | BadRequest (reason : gostr) | Failed (reason : gostr) | Conflict (reason : gostr)
| StatusOK (enabled running : bool) (status hostname : gostr) (port : Z) (vanity : gostr)
| ValidateOK (problem : option gostr)
| ActionOK (action : gostr) (running : bool) (status hostname message : gostr).
Definition status_code (r : reply) : Z :=
  match r with
  | NotFoundReply | RouterAnswer => 404 | MethodNotAllowed => 405 | BadRequest _ => 400 | Failed _ => 500 | Conflict _ => 409 | _ => 200
  end.
Definition torControlMaxBody : nat := Z.to_nat 8192.

Section handlers.
  Context `{UnicodeTables} {S : Type} (tc : TorController S) (unmarshal : gostr -> option torControlRequest).
(** [q_body] is [None] when reading it fails. *)
Definition decodeTorControlRequest (r : request) : result gostr torControlRequest :=
  match q_body r with
  | None => Err (str "read body")
  | Some body =>
      let body := take torControlMaxBody body in
      if TrimSpace body =s [] then Ok no_request
      else match unmarshal body with Some req => Ok req | None => Err (str "invalid JSON") end
  end.
Definition action (name : gostr) (hostname message : gostr) (s : S) : reply := ActionOK name (IsRunning tc s) (InfoStatus tc s) hostname message.
Definition torStatusHandler (_ : request) (s : S) : S * reply :=
  (s, StatusOK (IsAvailable tc s) (IsRunning tc s) (InfoStatus tc s) (InfoHostname tc s) (PortOf tc s) (SearchStatus tc s)).
Definition torValidateHandler (_ : request) (s : S) : S * reply := (s, ValidateOK (Validate tc s)).
Definition torRestartHandler (_ : request) (s : S) : S * reply :=
  if negb (IsAvailable tc s) then (s, Failed (str "tor binary not found"))
  else let '(s, err) := DoRestartTor tc s in
       match err with Some err => (s, Failed err) | None => (s, action (str "restart") (InfoHostname tc s) [] s) end.
Definition torRegenerateHandler (_ : request) (s : S) : S * reply :=
  if negb (IsAvailable tc s) then (s, Failed (str "tor binary not found"))
  else let '(s, r) := Regenerate tc s in
       match r with Err err => (s, Failed err) | Ok address => (s, action (str "regenerate") address [] s) end.
Definition torVanityStartHandler (r : request) (s : S) : S * reply :=
  match decodeTorControlRequest r with
  | Err err => (s, BadRequest err)
  | Ok req =>
      let '(s, err) := StartVanitySearch tc (ToLower (TrimSpace (Prefix req))) (Workers req) s in
      match err with
      | Some (SearchRunning err) => (s, Conflict err)
      | Some (SearchRefused err) => (s, BadRequest err)
      | None => (s, action (str "vanity/start") [] (str "vanity search started") s)
      end
  end.
Definition torVanityStopHandler (_ : request) (s : S) : S * reply :=
  let '(s, was) := StopVanitySearch tc s in
  (s, action (str "vanity/stop") [] (if was then str "vanity search cancelled" else str "no vanity search is running") s).
Definition torVanityApplyHandler (r : request) (s : S) : S * reply :=
  match decodeTorControlRequest r with
  | Err err => (s, BadRequest err)
  | Ok req =>
      let '(s, res) := ApplyVanity tc (ToLower (TrimSpace (Address req))) s in
      match res with Err err => (s, BadRequest err) | Ok address => (s, action (str "vanity/apply") address [] s) end
  end.
Definition torImportKeysHandler (r : request) (s : S) : S * reply :=
  match decodeTorControlRequest r with
  | Err err => (s, BadRequest err)
  | Ok req =>
      let path := TrimSpace (SrcPath req) in
      if path =s [] then (s, BadRequest (str "import path must not be empty"))
      else let '(s, res) := ImportFrom tc path s in
           match res with Err err => (s, BadRequest err) | Ok address => (s, action (str "import-keys") address [] s) end
  end.
(** [torControlEndpoint]; [attached] is whether a manager was given to the server. *)
Definition torControlEndpoint (method : gostr) (fn : request -> S -> S * reply) (attached : bool) (r : request) (s : S) : S * reply :=
  if negb (IsLoopbackRequest (q_remote r)) then (s, NotFoundReply)
  else if q_method r <>s method then (s, MethodNotAllowed)
  else if negb attached then (s, NotFoundReply)
  else fn r s.
Definition control_routes : list (gostr * (gostr * (request -> S -> S * reply))) :=
  [(str "/server/tor/status", (str "GET", torStatusHandler)); (str "/server/tor/validate", (str "POST", torValidateHandler));
   (str "/server/tor/restart", (str "POST", torRestartHandler)); (str "/server/tor/regenerate", (str "POST", torRegenerateHandler));
   (str "/server/tor/vanity/start", (str "POST", torVanityStartHandler)); (str "/server/tor/vanity/stop", (str "POST", torVanityStopHandler));
   (str "/server/tor/vanity/apply", (str "POST", torVanityApplyHandler)); (str "/server/tor/import-keys", (str "POST", torImportKeysHandler))].
(** The routes of [registerTorControlRoutes]; any other path is the router's. *)
Definition control (attached : bool) (r : request) (s : S) : S * reply :=
  match List.find (fun rt => rt.1 =s q_path r) control_routes with
  | Some (_, (method, fn)) => torControlEndpoint method fn attached r s
  | None => (s, RouterAnswer)
  end.

Lemma control_methods : Forall (fun rt => rt.2.1 = str "POST" \/ rt.2.2 = torStatusHandler) control_routes.
Proof. unfold control_routes. repeat (apply Forall_cons_2; [cbn; by first [left; reflexivity | right; reflexivity]|]). constructor. Qed.
Lemma route_found r : q_path r ∈ control_routes.*1 ->
  exists method fn, List.find (fun rt => rt.1 =s q_path r) control_routes = Some (q_path r, (method, fn)) /\
    (method = str "POST" \/ fn = torStatusHandler).
Proof.
  intros ([path [method fn]] & Hp & Hin)%list_elem_of_fmap. cbn in Hp. subst path.
  destruct (List.find _ control_routes) as [[path [m f]]|] eqn:E.
  - apply List.find_some in E as [Hf Hp]. apply bool_decide_eq_true in Hp. cbn in Hp. subst path. exists m, f. split; [done|].
    apply (proj1 (Forall_forall _ _) control_methods _ (proj2 (list_elem_of_In _ _) Hf)).
  - apply list_elem_of_In, (List.find_none _ _ E) in Hin. by bool_facts.
Qed.
(** C10. On every route of the control channel a peer that is not on the loopback
    interface gets one and the same reply, the JSON 404, whatever method and body it
    sends, whatever state the manager is in and whether there is one, and changes
    nothing; and no request at all changes anything unless it is a [POST] from the
    loopback interface to one of the routes while a manager is attached. *)
Theorem control_channel_hidden attached r s :
  (IsLoopbackRequest (q_remote r) = false -> q_path r ∈ control_routes.*1 -> control attached r s = (s, NotFoundReply)) /\
  ((control attached r s).1 <> s ->
     IsLoopbackRequest (q_remote r) = true /\ attached = true /\ q_method r = str "POST" /\ q_path r ∈ control_routes.*1).
Proof.
  destruct (decide (q_path r ∈ control_routes.*1)) as [Hin|Hout].
  - destruct (route_found r Hin) as (method & fn & E & Hm). unfold control, torControlEndpoint. rewrite E. split; [by intros ->|].
    destruct (IsLoopbackRequest (q_remote r)); [|done]. cbn [negb]. destruct (q_method r <>s method) eqn:Em; [done|]. bool_facts. destruct attached; [|done]. cbn [negb].
    intros Hne. split_and!; [done|done| |done]. rewrite Em. destruct Hm as [-> | ->]; [done|]. by destruct Hne.
  - split; [done|]. unfold control. destruct (List.find _ control_routes) as [[path [method fn]]|] eqn:E; [|done].
    apply List.find_some in E as [Hf Hp]. apply bool_decide_eq_true in Hp. cbn in Hp. subst path. destruct Hout.
    apply list_elem_of_fmap. eexists. split; [|by apply list_elem_of_In]. done.
Qed.
(** A remote peer can tell a route of the channel from an unknown path: the one answers
    its JSON envelope, the other what the router negotiates. *)
Lemma routes_distinguishable attached body s :
  let ask path := (control attached (mkRequest (str "GET") path (str "203.0.113.5:40000") body) s).2 in
  ask (str "/server/tor/status") = NotFoundReply /\ ask (str "/server/tor/none") = RouterAnswer.
Proof. by split. Qed.
End handlers.

(** ** The manager behind the interface *)

(** The manager, the candidates' directory and the prefix of the running search. *)
Record control_state := mkControlState { c_manager : manager; c_dir : option (list entry); c_search : option gostr }.
(** What answers one request: the start of Tor, the exchange of keys, the removals, the
    files of an import directory, the directory checks and the control of the search. *)
Record answers := mkAnswers {
  a_tor : tor_env; a_swap : swap_env; a_remove : gostr -> option gostr; a_removed : option gostr; a_files : gostr -> gmap gostr gostr;
  a_valid : option gostr; a_vanity_dir : option gostr }.
Definition candidate_error_text (e : candidate_error) : gostr :=
  match e with
  | MultipleCandidates => str "multiple vanity candidates available" | NoMatch => str "no vanity candidate matches"
  | AmbiguousPrefix => str "matches multiple vanity candidates" | NoCandidates => str "no vanity candidates found"
  | CandidateGone => str "vanity candidate not found" | ExchangeFailed e => e | NotRemoved e => e
  end.
Section instance.
  Context `{UnicodeTables} (cfg : TorServiceConfig) (sha3_256 : gostr -> gostr) (unmarshal : gostr -> option torControlRequest).
Definition prefix_refusal (e : prefix_error) : gostr :=
  match e with EmptyPrefix => str "vanity prefix must not be empty" | PrefixTooLong => str "vanity prefix too long" | BadCharacter => str "only base32 characters a-z and 2-7 are valid" end.
Definition start_search (a : answers) (prefix : gostr) (workers : Z) (s : control_state) : control_state * option start_refusal :=
  match ValidateVanityPrefix prefix with
  | Some err => (s, Some (SearchRefused (prefix_refusal err)))
  | None => match c_search s with
            | Some running => (s, Some (SearchRunning running))
            | None => match a_vanity_dir a with
                      | Some err => (s, Some (SearchRefused (str "create vanity dir: " ++ err)))
                      | None => (mkControlState (c_manager s) (c_dir s) (Some prefix), None)
                      end
            end
  end.
Definition on_manager {A} (s : control_state) (r : manager * A) : control_state * A := (mkControlState r.1 (c_dir s) (c_search s), r.2).
Definition tor_controller (a : answers) : TorController control_state := {|
  IsAvailable := fun _ => te_available (a_tor a);
  IsRunning := fun s => m_running (c_manager s);
  InfoStatus := fun s => statusLocked (te_available (a_tor a)) (c_manager s);
  InfoHostname := fun s => GetHostname (c_manager s);
  PortOf := fun s => BackendPort (c_manager s);
  Validate := fun _ => a_valid a;
  DoRestartTor := fun s => on_manager s (Restart cfg (sw_close (a_swap a)) (a_tor a) (c_manager s));
  Regenerate := fun s => on_manager s (RegenerateAddress cfg (a_remove a) (a_tor a) (c_manager s));
  StartVanitySearch := start_search a;
  StopVanitySearch := fun s => (mkControlState (c_manager s) (c_dir s) None, bool_decide (is_Some (c_search s)));
  SearchStatus := fun s => vanity_state (bool_decide (is_Some (c_search s))) (c_dir s);
  ApplyVanity := fun address s =>
    let '(m, dir, r) := ApplyVanityAddress cfg sha3_256 (a_swap a) (a_tor a) (a_removed a) (c_dir s) address (c_manager s) in
    (mkControlState m dir (c_search s), match r with Ok live => Ok live | Err e => Err (candidate_error_text e) end);
  ImportFrom := fun path s => on_manager s (ImportKeys cfg sha3_256 (a_swap a) (a_tor a) path (a_files a path) (c_manager s)) |}.
Definition serve_control (ra : request * answers) (s : control_state) : control_state := (control (tor_controller ra.2) unmarshal true ra.1 s).1.

(** *** Requests keep the account of resources *)

Definition controlled (s : control_state) : Prop := sound (c_manager s) /\ m_handler (c_manager s) <> None.
Lemma on_manager_controlled o s {A} (r : manager * A) : controlled s -> r.1 = tor_do cfg o (c_manager s) -> controlled (on_manager s r).1.
Proof. intros [Hs Hh] E. unfold controlled, on_manager. cbn. rewrite E. by apply tor_do_sound. Qed.
(** A candidate is installed as a directory of keys is imported. *)
Lemma replaceSiteKeys_controlled sw e src m : sound m -> m_handler m <> None -> hasKeySet src = true ->
  sound (replaceSiteKeys cfg sha3_256 sw e src m).1 /\ m_handler (replaceSiteKeys cfg sha3_256 sw e src m).1 <> None.
Proof.
  intros Hs Hh Hk. pose proof (tor_do_sound cfg (DoImport sha3_256 sw e (str "x") src) m Hs Hh) as Hd. cbn [tor_do] in Hd. unfold ImportKeys in Hd.
  unfold hasKeySet in Hk. cbn [forallb onionKeyFiles] in Hk. apply andb_true_iff in Hk as [Hk1 [Hk2 _]%andb_true_iff].
  rewrite Hk1, Hk2 in Hd. exact Hd.
Qed.
Lemma apply_controlled a address s : controlled s -> controlled (ApplyVanity (tor_controller a) address s).1.
Proof.
  intros [Hs Hh]. cbn [ApplyVanity tor_controller]. unfold ApplyVanityAddress. destruct (VanityCandidates (c_dir s)) as [|c cs]; [done|].
  destruct (resolveVanityCandidate _ _) as [addr|err]; [|done]. destruct (hasKeySet _) eqn:Ek; [|done]. cbn [negb].
  pose proof (replaceSiteKeys_controlled (a_swap a) (a_tor a) _ _ Hs Hh Ek) as Hr. destruct (replaceSiteKeys _ _ _ _ _ _) as [m [live|err]]; [|done].
  by destruct (a_removed a).
Qed.
Lemma serve_control_controlled ra s : controlled s -> controlled (serve_control ra s).
Proof.
  intros Hs. destruct ra as [r a]. unfold serve_control. cbn [fst snd].
  assert (forall rt, rt ∈ control_routes (tor_controller a) unmarshal -> controlled (rt.2.2 r s).1) as Hall.
  { apply Forall_forall. unfold control_routes. repeat apply Forall_cons_2; [..|constructor]; cbn [snd].
    - done.
    - done.
    - unfold torRestartHandler. destruct (negb _); [done|]. pose proof (on_manager_controlled (DoRestart (sw_close (a_swap a)) (a_tor a)) s _ Hs eq_refl) as Hc.
      change (DoRestartTor (tor_controller a) s) with (on_manager s (Restart cfg (sw_close (a_swap a)) (a_tor a) (c_manager s))).
      destruct (on_manager _ _) as [s' [err|]]; exact Hc.
    - unfold torRegenerateHandler. destruct (negb _); [done|]. pose proof (on_manager_controlled (DoRegenerate (a_remove a) (a_tor a)) s _ Hs eq_refl) as Hc.
      change (Regenerate (tor_controller a) s) with (on_manager s (RegenerateAddress cfg (a_remove a) (a_tor a) (c_manager s))).
      destruct (on_manager _ _) as [s' [live|err]]; exact Hc.
    - unfold torVanityStartHandler. destruct (decodeTorControlRequest _ _) as [req|err]; [|done]. cbn [StartVanitySearch tor_controller]. unfold start_search.
      destruct (ValidateVanityPrefix _); [done|]. destruct (c_search s); [done|]. by destruct (a_vanity_dir a).
    - done.
    - unfold torVanityApplyHandler. destruct (decodeTorControlRequest _ _) as [req|err]; [|done].
      pose proof (apply_controlled a (ToLower (TrimSpace (Address req))) s Hs) as Hc. destruct (ApplyVanity _ _ _) as [s' [live|err]]; exact Hc.
    - unfold torImportKeysHandler. destruct (decodeTorControlRequest _ _) as [req|err]; [|done]. destruct (_ =s []); [done|].
      pose proof (on_manager_controlled (DoImport sha3_256 (a_swap a) (a_tor a) (TrimSpace (SrcPath req)) (a_files a (TrimSpace (SrcPath req)))) s _ Hs eq_refl) as Hc.
      change (ImportFrom (tor_controller a) ?p s) with (on_manager s (ImportKeys cfg sha3_256 (a_swap a) (a_tor a) p (a_files a p) (c_manager s))).
      destruct (on_manager _ _) as [s' [live|err]]; exact Hc. }
  unfold control. destruct (List.find _ _) as [[path [method fn]]|] eqn:E; [|done]. apply List.find_some in E as [Hin _]. unfold torControlEndpoint.
  destruct (negb _); [done|]. destruct (_ <>s _); [done|]. cbn [negb]. apply (Hall (path, (method, fn))). by apply list_elem_of_In.
Qed.
(** Whatever requests the control channel serves once the server has attached its
    handler, and whatever goes wrong in them, the open resources remain exactly those of
    the running hidden service. *)
Theorem control_requests_accounted requests s :
  owns (c_manager s) -> served (c_manager s) -> m_handler (c_manager s) <> None ->
  let s' := fold_left (fun s ra => serve_control ra s) requests s in
  w_open (m_world (c_manager s')) = match m_svc (c_manager s') with Some svc => [s_provider svc; backendLn svc] | None => [] end.
Proof.
  intros Ho Hs Hh. cbn zeta. assert (controlled s) as Hc by by split. clear Ho Hs Hh.
  revert s Hc. induction requests as [|ra requests IH]; intros s Hc; cbn; [|by apply IH, serve_control_controlled].
  destruct Hc as [[(_ & _ & Hm) _] _]. by destruct (m_svc (c_manager s)); [destruct Hm|].
Qed.
End instance.

(** A request that a proxy or the eepsite's provider on the same host forwards has a
    loopback peer and so passes the gate, whoever sent it. *)
Lemma forwarded_request_passes_gate `{UnicodeTables} {S} (tc : TorController S) unmarshal path body s :
  control tc unmarshal true (mkRequest (str "POST") path (str "127.0.0.1:40000") body) s =
  match List.find (fun rt => rt.1 =s path) (control_routes tc unmarshal) with
  | Some (_, (method, fn)) => if str "POST" <>s method then (s, MethodNotAllowed) else fn (mkRequest (str "POST") path (str "127.0.0.1:40000") body) s
  | None => (s, RouterAnswer)
  end.
Proof.
  unfold control. cbn [q_path]. destruct (List.find _ _) as [[p [method fn]]|]; [|done]. unfold torControlEndpoint. cbn [q_remote q_method].
  replace (IsLoopbackRequest (str "127.0.0.1:40000")) with true by (vm_compute; reflexivity). done.
Qed.
(** A running service, and requests to restart it and to import keys that are not there. *)
Definition sample_answers : answers := mkAnswers import_env import_swap (fun _ => None) None (fun _ => ∅) None None.
Definition running_state : control_state := mkControlState (ServeBackend 7 (Start sample_config good_env (new_manager empty_world)).1) None None.
Definition local_post (path : gostr) : request := mkRequest (str "POST") path (str "127.0.0.1:40000") (Some []).
Lemma control_requests_accounted_witness :
  let s := fold_left (fun s ra => serve_control (H := ascii_tables) sample_config toy_hash (fun _ => None) ra s)
             [(local_post (str "/server/tor/restart"), sample_answers); (local_post (str "/server/tor/import-keys"), sample_answers)] running_state in
  w_open (m_world (c_manager s)) = match m_svc (c_manager s) with Some svc => [s_provider svc; backendLn svc] | None => [] end.
Proof.
  apply (control_requests_accounted (H := ascii_tables) sample_config toy_hash (fun _ => None)); [|vm_compute; by eexists|discriminate].
  split_and!; [repeat constructor|reflexivity|]. split; [vm_compute; reflexivity|discriminate].
Defined.
