(* ===== verification/I2p.v ===== *)
(** * The eepsite: [i2p/i2p.go]

    The addresses and key files of I2P destinations, the two providers (a managed
    [i2pd] process, or a session on a SAM bridge) and the manager.  The dialogue with the
    bridge is a sequence of lines sent and replies taken in order; the hash, the bridge
    and the file system's answers are parameters.

    The theorems: the address is derived from the head of the key file alone, so a file
    still being written never yields another address than the finished one; once an
    eepsite has started on a bridge every later start that can read its key files has the
    same address and generates no new destination; with the process provider the manager's
    resources are accounted for, while a session whose address cannot be derived is
    left open. *)
From stdpp Require Import base list gmap strings.
From Stdlib Require Import ZArith Lia.
From S2P Require Import Prelude GoStrings GoUtf8 GoUrl GoPath Startup Overlay Onion.
Local Open Scope Z_scope.
Local Open Scope go_scope.

(** ** Addresses *)

(** [base32.StdEncoding] without padding. *)
Definition b32_tail (s : gostr) : list Z :=
  match s with
  | [a] => take 2 (b32_group a (chr 0) (chr 0) (chr 0) (chr 0))
  | [a; b] => take 4 (b32_group a b (chr 0) (chr 0) (chr 0))
  | [a; b; c] => take 5 (b32_group a b c (chr 0) (chr 0))
  | [a; b; c; d] => take 7 (b32_group a b c d (chr 0))
  | _ => []
  end.
Fixpoint b32_all (s : gostr) : list Z :=
  match s with
  | a :: b :: c :: d :: e :: rest => b32_group a b c d e ++ b32_all rest
  | _ => b32_tail s
  end.
Definition b32_nopad (s : gostr) : gostr := b32_digit <$> b32_all s.
(** [i2pBase64]: the standard alphabet with [-] and [~] for its last two digits. *)
Definition i2p_char (c : ascii) : ascii := if bool_decide (c = "~"%char) then "_"%char else if bool_decide (c = "_"%char) then "!"%char else c.
Definition decodeDestination (value : gostr) : option gostr :=
  let value := TrimSpace value in
  if value =s [] then None
  else match URL_Decode (i2p_char <$> value) with
       | Some raw => Some raw
       | None => RawURL_Decode (i2p_char <$> value)
       end.
Inductive keys_error := TooShort (n : Z) | Truncated (need have : Z).
Definition headerLen : Z := 384.
Definition byte_at (data : gostr) (i : Z) : Z := code (nth (Z.to_nat i) data (chr 0)).
Definition destinationPrefixLen (data : gostr) : result keys_error Z :=
  let n := Z.of_nat (length data) in
  if n <? headerLen + 3 then Err (TooShort n)
  else let certLen := byte_at data (headerLen + 1) * 256 + byte_at data (headerLen + 2) in
       let total := headerLen + 3 + certLen in
       if n <? total then Err (Truncated total n) else Ok total.
Definition destinationFromKeysFile (data : gostr) : result keys_error gostr :=
  match destinationPrefixLen data with Ok n => Ok (take (Z.to_nat n) data) | Err e => Err e end.

Section eepsite.
  Context `{UnicodeTables} (sha256 : gostr -> gostr).
Definition b32Address (destBinary : gostr) : gostr := ToLower (b32_nopad (sha256 destBinary)) ++ str ".b32.i2p".
Definition b32AddressFromBase64 (value : gostr) : option gostr := b32Address <$> decodeDestination value.

(** ** The manager's configuration and files *)

Record I2PServiceConfig := mkI2PConfig {
  i_ConfigDir : gostr; i_DataDir : gostr; i_Enabled : bool; InboundLength : Z; OutboundLength : Z; InboundQuantity : Z; OutboundQuantity : Z;
  SignatureType : Z; i_BootstrapTimeout : Z }.
Definition keys_name : gostr := str "site-keys.dat".
Definition samPublicKeysPath (keys : gostr) : gostr := keys ++ str ".pub".
Definition pub_name : gostr := samPublicKeysPath keys_name.
Definition keysPath (cfg : I2PServiceConfig) : gostr := path_Join (path_Join (path_Join (i_DataDir cfg) (str "i2p")) (str "site")) keys_name.
Definition endl : gostr := ["010"%char].
Definition getI2PTunnelsConf (cfg : I2PServiceConfig) (keysPath : gostr) (i2pBackendPort : Z) : gostr :=
  str "[site]" ++ endl ++ str "type = server" ++ endl ++ str "host = 127.0.0.1" ++ endl ++
  str "port = " ++ Itoa i2pBackendPort ++ endl ++ str "keys = " ++ keysPath ++ endl ++
  str "inbound.length = " ++ Itoa (InboundLength cfg) ++ endl ++ str "outbound.length = " ++ Itoa (OutboundLength cfg) ++ endl ++
  str "inbound.quantity = " ++ Itoa (InboundQuantity cfg) ++ endl ++ str "outbound.quantity = " ++ Itoa (OutboundQuantity cfg) ++ endl ++
  str "signaturetype = " ++ Itoa (SignatureType cfg) ++ endl.

(** ** The dialogue with a SAM bridge *)

(** [sc_fail k] is the error of the [k]-th line sent, [sc_replies] the lines still to
    be read, [sc_sent] the lines sent. *)
Record sam_conn := mkSam { sc_fail : nat -> option gostr; sc_replies : list (result gostr gostr); sc_sent : list gostr }.
Definition send (text : gostr) (c : sam_conn) : sam_conn * option gostr :=
  match sc_fail c (length (sc_sent c)) with
  | Some err => (c, Some err)
  | None => (mkSam (sc_fail c) (sc_replies c) (sc_sent c ++ [text]), None)
  end.
Definition ReadString (c : sam_conn) : sam_conn * result gostr gostr :=
  match sc_replies c with
  | [] => (c, Err (str "EOF"))
  | r :: rest => (mkSam (sc_fail c) rest (sc_sent c), r)
  end.
Definition readSAMReply (expectPrefix : gostr) (c : sam_conn) : sam_conn * result gostr gostr :=
  let '(c, r) := ReadString c in
  match r with
  | Err err => (c, Err (str "read SAM reply: " ++ err))
  | Ok line =>
      let line := TrimSpace line in
      if negb (HasPrefix line expectPrefix) then (c, Err (str "unexpected SAM reply: " ++ line))
      else if negb (Contains line (str "RESULT=OK")) then (c, Err (str "SAM error reply: " ++ line))
      else (c, Ok line)
  end.
Record samDestination := mkDestination { priv : gostr; pub : gostr }.
(** The fields of a reply to [DEST GENERATE]; the last of each name counts. *)
Fixpoint dest_fields (fields : list gostr) (d : samDestination) : samDestination :=
  match fields with
  | [] => d
  | f :: rest =>
      dest_fields rest
        (if HasPrefix f (str "PUB=") then mkDestination (priv d) (TrimPrefix f (str "PUB="))
         else if HasPrefix f (str "PRIV=") then mkDestination (TrimPrefix f (str "PRIV=")) (pub d) else d)
  end.
(** What the file system answers during one start.  [os.WriteFile] truncates first: it
    fails before the file is opened or with only a part of the text in it.  A read can
    fail although the file is there. *)
Inductive site_write := Written | NotOpened (err : gostr) | CutOff (err rest : gostr).
Record site_io := mkSiteIO { sio_dir : option gostr; sio_write : gostr -> site_write; sio_read : gostr -> bool }.
Definition read_site (io : site_io) (n : gostr) (site : gmap gostr gostr) : option gostr := if sio_read io n then site !! n else None.
Definition write_site (io : site_io) (n data : gostr) (site : gmap gostr gostr) : gmap gostr gostr * option gostr :=
  match sio_write io n with
  | Written => (<[n := data]> site, None)
  | NotOpened err => (site, Some err)
  | CutOff err rest => (<[n := rest]> site, Some err)
  end.
Definition dest_generate (sigType : Z) : gostr := str "DEST GENERATE SIGNATURE_TYPE=" ++ Itoa sigType ++ endl.
(** A new destination, generated by the bridge and persisted. *)
Definition createSAMDestination (io : site_io) (sigType : Z) (c : sam_conn) (site : gmap gostr gostr) :
    sam_conn * gmap gostr gostr * result gostr samDestination :=
  let '(c, err) := send (dest_generate sigType) c in
  match err with
  | Some err => (c, site, Err err)
  | None =>
      let '(c, r) := ReadString c in
      match r with
      | Err err => (c, site, Err (str "read DEST GENERATE reply: " ++ err))
      | Ok line =>
          let d := dest_fields (Fields (TrimSpace line)) (mkDestination [] []) in
          if (priv d =s []) || (pub d =s []) then (c, site, Err (str "malformed DEST GENERATE reply"))
          else
            match sio_dir io with
            | Some err => (c, site, Err (str "create keys dir: " ++ err))
            | None =>
                let '(site, err) := write_site io keys_name (priv d) site in
                match err with
                | Some err => (c, site, Err (str "persist destination key: " ++ err))
                | None =>
                    let '(site, err) := write_site io pub_name (pub d) site in
                    match err with
                    | Some err => (c, site, Err (str "persist public destination: " ++ err))
                    | None => (c, site, Ok d)
                    end
                end
            end
      end
  end.
(** Every error of reading the key counts as no key, every error of reading the public
    half as an empty one. *)
Definition loadOrCreateSAMDestination (io : site_io) (sigType : Z) (c : sam_conn) (site : gmap gostr gostr) :
    sam_conn * gmap gostr gostr * result gostr samDestination :=
  match read_site io keys_name site with
  | Some ((_ :: _) as data) => (c, site, Ok (mkDestination (TrimSpace data) (match read_site io pub_name site with Some p => TrimSpace p | None => [] end)))
  | _ => createSAMDestination io sigType c site
  end.
Definition hello : gostr := str "HELLO VERSION MIN=3.0 MAX=3.3" ++ endl.
Definition session_create (cfg : I2PServiceConfig) (priv : gostr) : gostr :=
  str "SESSION CREATE STYLE=STREAM ID=site DESTINATION=" ++ priv ++ str " inbound.length=" ++ Itoa (InboundLength cfg) ++ str " outbound.length=" ++ Itoa (OutboundLength cfg) ++
  str " inbound.quantity=" ++ Itoa (InboundQuantity cfg) ++ str " outbound.quantity=" ++ Itoa (OutboundQuantity cfg) ++ endl.
Definition stream_forward (port : Z) : gostr := str "STREAM FORWARD ID=site PORT=" ++ Itoa port ++ str " HOST=127.0.0.1" ++ endl.
Definition naming_lookup : gostr := str "NAMING LOOKUP NAME=ME" ++ endl.
(** A line sent and its reply. *)
Definition exchange (text expect : gostr) (c : sam_conn) : sam_conn * option gostr :=
  let '(c, err) := send text c in
  match err with
  | Some err => (c, Some err)
  | None => let '(c, r) := readSAMReply expect c in (c, match r with Err err => Some err | Ok _ => None end)
  end.
(** The first field that names the session's own destination. *)
Definition lookup_value (line : gostr) : option gostr :=
  match List.find (fun f => HasPrefix f (str "VALUE=")) (Fields (TrimSpace line)) with Some f => Some (TrimPrefix f (str "VALUE=")) | None => None end.
(** The session until the connection is stored in the service ([false]) and after it. *)
Definition startSAMEepsite (cfg : I2PServiceConfig) (io : site_io) (port : Z) (c : sam_conn) (site : gmap gostr gostr) :
    sam_conn * gmap gostr gostr * bool * result gostr gostr :=
  let '(c, err) := exchange hello (str "HELLO REPLY") c in
  match err with
  | Some err => (c, site, false, Err err)
  | None =>
      let '(c, site, d) := loadOrCreateSAMDestination io (SignatureType cfg) c site in
      match d with
      | Err err => (c, site, false, Err err)
      | Ok dest =>
          let '(c, err) := exchange (session_create cfg (priv dest)) (str "SESSION STATUS") c in
          match err with
          | Some err => (c, site, false, Err err)
          | None =>
              let '(c, err) := exchange (stream_forward port) (str "STREAM STATUS") c in
              match err with
              | Some err => (c, site, false, Err err)
              | None =>
                  if pub dest =s []
                  then
                    let '(c, err) := send naming_lookup c in
                    match err with
                    | Some err => (c, site, true, Err (str "naming lookup: " ++ err))
                    | None =>
                        let '(c, r) := ReadString c in
                        match r with
                        | Err err => (c, site, true, Err (str "read NAMING REPLY: " ++ err))
                        | Ok line =>
                            match lookup_value line with
                            | None => (c, site, true, Err (str "unable to derive .b32.i2p address for persisted destination"))
                            | Some value =>
                                match b32AddressFromBase64 value with
                                | None => (c, site, true, Err (str "naming lookup returned an undecodable destination"))
                                | Some addr =>
                                    let '(site, err) := write_site io pub_name value site in
                                    match err with
                                    | Some err => (c, site, true, Err (str "persist public destination: " ++ err))
                                    | None => (c, site, true, Ok addr)
                                    end
                                end
                            end
                        end
                    end
                  else match b32AddressFromBase64 (pub dest) with
                       | None => (c, site, true, Err (str "derive .b32.i2p address"))
                       | Some addr => (c, site, true, Ok addr)
                       end
              end
          end
      end
  end.

(** ** The process provider *)

(** [waitForI2PDAddress]: what each look at the key file before the deadline finds. *)
Fixpoint waitForI2PDAddress (looks : list (option gostr)) (lastErr : option keys_error) : result (option keys_error) gostr :=
  match looks with
  | [] => Err lastErr
  | Some ((_ :: _) as data) :: rest =>
      match destinationFromKeysFile data with
      | Ok dest => Ok (b32Address dest)
      | Err err => waitForI2PDAddress rest (Some err)
      end
  | _ :: rest => waitForI2PDAddress rest lastErr
  end.

(** ** Starting *)

Inductive Provider := ProviderNone | ProviderI2PD | ProviderSAM.
(** What answers a start: whether the binary is found and the bridge reachable, the
    directories, the port, the tunnel file, the process and the looks at its key file,
    the connection to the bridge, its replies and the file system of the keys. *)
Record i2p_env := mkI2PEnv {
  ie_binary : bool; ie_reachable : bool; ie_dirs : option gostr; ie_draws : nat -> draw; ie_os_port : option Z; ie_tunnels : option (gostr * option gostr);
  ie_spawn : option gostr; ie_looks : list (option gostr); ie_dial : option gostr; ie_conn : sam_conn; ie_site : site_io }.
Definition startI2PD (cfg : I2PServiceConfig) (e : i2p_env) (port : Z) (ln : resource) (w : world) : world * result gostr service :=
  match ie_tunnels e with
  | Some (err, rest) => (close_resource ln (with_conf rest w), Err (str "failed to write tunnels.conf: " ++ err))
  | None =>
      let w := with_conf (Some (getI2PTunnelsConf cfg (keysPath cfg) port)) w in
      match ie_spawn e with
      | Some err => (close_resource ln w, Err (str "failed to start i2pd: " ++ err))
      | None =>
          let '(p, w) := open_resource Process w in
          match waitForI2PDAddress (ie_looks e) None with
          | Err _ => (close_resource ln (close_resource p w), Err (str "timed out waiting for i2pd destination"))
          | Ok addr => (w, Ok (mkService addr port ln None p false))
          end
      end
  end.
Definition startSAM (cfg : I2PServiceConfig) (e : i2p_env) (port : Z) (ln : resource) (w : world) : world * result gostr service :=
  match ie_dial e with
  | Some err => (close_resource ln w, Err (str "failed to dial SAM: " ++ err))
  | None =>
      let '(conn, w) := open_resource Connection w in
      let '(_, site, stored, r) := startSAMEepsite cfg (ie_site e) port (ie_conn e) (w_site w) in
      let w := with_site site w in
      match r with
      | Ok addr => (w, Ok (mkService addr port ln None conn false))
      | Err err => (close_resource ln (if stored then w else close_resource conn w), Err err)
      end
  end.
Definition noProvider : gostr := str "i2p enabled but no provider available".
Definition i2p_startDedicated (cfg : I2PServiceConfig) (e : i2p_env) (w : world) : world * result gostr service :=
  if negb (i_Enabled cfg) then (w, Err (str "i2p disabled (opt-in) - eepsite not started"))
  else if negb (ie_binary e) && negb (ie_reachable e) then (w, Err noProvider)
  else match ie_dirs e with
       | Some err => (w, Err (str "i2p dirs: " ++ err))
       | None =>
           match getRandomAvailablePort (ie_draws e) (ie_os_port e) with
           | Err _ => (w, Err (str "allocate i2p backend port"))
           | Ok port => let '(ln, w) := open_resource Listener w in if ie_binary e then startI2PD cfg e port ln w else startSAM cfg e port ln w
           end
       end.
(** [Start] never fails: the error is kept for the status. *)
Definition i2p_Start (cfg : I2PServiceConfig) (e : i2p_env) (m : manager) : manager :=
  if m_running m then m
  else if negb (i_Enabled cfg) then m
  else let '(w, r) := i2p_startDedicated cfg e (m_world m) in
       match r with
       | Err err => with_err (Some err) (in_world (fun _ => w) m)
       | Ok s => adopt s w m
       end.
Definition i2p_Stop (m : manager) : manager := if negb (m_running m) || negb (bool_decide (is_Some (m_svc m))) then m else drop_service m.
Definition i2p_Restart (cfg : I2PServiceConfig) (e : i2p_env) (m : manager) : manager := i2p_Start cfg e (i2p_Stop m).
(** [UpdateConfig] to a new configuration. *)
Definition UpdateConfig (cfg : I2PServiceConfig) (e : i2p_env) (m : manager) : manager := i2p_Start cfg e (i2p_Stop m).
(** [removed] is whether the directory of the keys could be removed. *)
Definition i2p_Regenerate (cfg : I2PServiceConfig) (removed : bool) (e : i2p_env) (m : manager) : manager * option gostr :=
  let m := i2p_Stop m in
  if negb removed then (m, None)
  else let m := i2p_Start cfg e (in_world (with_site ∅) m) in (m, Some (match m_svc m with Some s => s_address s | None => [] end)).
Definition shortErrorMessage (err : gostr) : gostr := take 120 (TrimSpace (ReplaceAll err endl (str " "))).
Definition i2p_statusLocked (cfg : I2PServiceConfig) (m : manager) : gostr :=
  if negb (m_running m)
  then if negb (i_Enabled cfg) then str "disabled"
       else match m_err m with
            | Some err => if HasPrefix err noProvider then str "no provider" else str "error:" ++ shortErrorMessage err
            | None => str "stopped"
            end
  else if match m_svc m with Some s => s_address s =s [] | None => true end then str "starting" else str "healthy".
End eepsite.

(** ** Key files that are still being written *)

Lemma byte_at_app data ext i : 0 <= i < Z.of_nat (length data) -> byte_at (data ++ ext) i = byte_at data i.
Proof. intros Hi. unfold byte_at. rewrite app_nth1; [done|lia]. Qed.
Lemma byte_at_nonneg data i : 0 <= byte_at data i < 256.
Proof. unfold byte_at. apply code_byte. Qed.
Lemma destination_app data ext d : destinationFromKeysFile data = Ok d -> destinationFromKeysFile (data ++ ext) = Ok d.
Proof.
  unfold destinationFromKeysFile, destinationPrefixLen, headerLen. rewrite length_app, Nat2Z.inj_add.
  destruct (Z.ltb_spec (Z.of_nat (length data)) (384 + 3)); [done|]. destruct (Z.ltb_spec (Z.of_nat (length data) + Z.of_nat (length ext)) (384 + 3)); [lia|].
  rewrite !byte_at_app by lia. set (total := 384 + 3 + _).
  destruct (Z.ltb_spec (Z.of_nat (length data)) total); [done|]. destruct (Z.ltb_spec (Z.of_nat (length data) + Z.of_nat (length ext)) total); [lia|].
  intros [= <-]. f_equal. apply take_app_le. lia.
Qed.
Lemma destination_bounds data d : destinationFromKeysFile data = Ok d -> d = take (length d) data /\ 387 <= Z.of_nat (length d) <= 387 + 65535 /\ (length d <= length data)%nat.
Proof.
  unfold destinationFromKeysFile, destinationPrefixLen, headerLen. destruct (Z.ltb_spec (Z.of_nat (length data)) (384 + 3)); [done|].
  pose proof (byte_at_nonneg data (384 + 1)). pose proof (byte_at_nonneg data (384 + 2)). set (total := 384 + 3 + _). destruct (Z.ltb_spec (Z.of_nat (length data)) total); [done|].
  assert (387 <= total <= 387 + 65535) by (unfold total; lia). intros [= <-]. rewrite length_take_le by lia. split_and!; [done|lia..].
Qed.
Lemma destination_long_enough data d k : destinationFromKeysFile data = Ok d -> (length d <= k)%nat -> destinationFromKeysFile (take k data) = Ok d.
Proof.
  intros Hd Hk. destruct (destination_bounds _ _ Hd) as (_ & Hb & Hl). revert Hd. rewrite <- (take_drop k data) at 1.
  assert (length (take k data) = Nat.min k (length data)) as Ht by apply length_take. set (t := take k data) in *. set (r := drop k data).
  unfold destinationFromKeysFile, destinationPrefixLen, headerLen. rewrite length_app, Nat2Z.inj_add.
  destruct (Z.ltb_spec (Z.of_nat (length t) + Z.of_nat (length r)) (384 + 3)); [done|]. destruct (Z.ltb_spec (Z.of_nat (length t)) (384 + 3)); [lia|].
  rewrite !byte_at_app by lia. set (total := 384 + 3 + _). destruct (Z.ltb_spec (Z.of_nat (length t) + Z.of_nat (length r)) total); [done|].
  intros [= E]. assert (length d = Z.to_nat total) as Hdl by (rewrite <- E, length_take, length_app; lia).
  destruct (Z.ltb_spec (Z.of_nat (length t)) total); [lia|]. rewrite <- E. f_equal. symmetry. apply take_app_le. lia.
Qed.
(** The destination read from a key file lies within it, is at least 387 and at most
    65922 bytes long and depends on those bytes alone: from any beginning of the file
    either the same destination is read or, when that much of it is not there yet, none. *)
Theorem partial_keys_never_mislead data d k :
  destinationFromKeysFile data = Ok d ->
  387 <= Z.of_nat (length d) <= 65922 /\ d = take (length d) data /\
  match destinationFromKeysFile (take k data) with
  | Ok d' => d' = d
  | Err _ => (k < length d)%nat
  end.
Proof.
  intros Hd. destruct (destination_bounds _ _ Hd) as (Ht & Hb & Hl). split_and!; [lia|lia|done|].
  destruct (destinationFromKeysFile (take k data)) as [d'|err] eqn:E.
  - apply (destination_app _ (drop k data)) in E. rewrite take_drop in E. congruence.
  - destruct (Nat.lt_ge_cases k (length d)) as [|Hk]; [done|]. exfalso. rewrite (destination_long_enough _ _ _ Hd Hk) in E. done.
Qed.
Definition sample_keys : gostr := replicate 384 "k"%char ++ [chr 5; chr 0; chr 4] ++ str "cert" ++ str "private".
Lemma partial_keys_never_mislead_witness :
  exists d, destinationFromKeysFile sample_keys = Ok d /\
    match destinationFromKeysFile (take 390 sample_keys) with Ok d' => d' = d | Err _ => (390 < length d)%nat end.
Proof.
  destruct (destinationFromKeysFile sample_keys) as [d|err] eqn:E; [|exfalso; vm_compute in E; discriminate E].
  exists d. split; [reflexivity|]. apply (partial_keys_never_mislead sample_keys d 390 E).
Defined.

(** ** Trimming twice *)

Lemma space_len_prefix wide s t : Forall (fun w => w <> []) wide -> space_len wide (s ++ t) = 0%nat -> space_len wide s = 0%nat.
Proof.
  intros Hw. destruct s as [|c s]; [done|]. cbn [space_len app]. destruct (asciiSpace c); [done|].
  destruct (list_find (fun w => w `prefix_of` c :: s) wide) as [[i w]|] eqn:E; [|done]. apply list_find_Some in E as (Hi & Hp & _). intros Hz.
  destruct (list_find (fun w => w `prefix_of` c :: s ++ t) wide) as [[j v]|] eqn:E2.
  - apply list_find_Some in E2 as (Hj & _ & _). rewrite Forall_lookup in Hw. specialize (Hw j v Hj). by destruct v.
  - apply list_find_None in E2. rewrite Forall_lookup in E2. exfalso. apply (E2 i w Hi). destruct Hp as [r Hr]. exists (r ++ t). rewrite app_assoc, <- Hr. done.
Qed.
Lemma trim_spaces_split wide s k : exists pre, s = pre ++ trim_spaces wide s k /\ space_len wide (trim_spaces wide s k) = 0%nat.
Proof.
  revert k. induction s as [|c s IH]; intros k; [by exists []|]. cbn [trim_spaces]. destruct k as [|k].
  - destruct (space_len wide (c :: s)) as [|k] eqn:E; [by exists []|]. destruct (IH k) as (pre & Hpre & Hz). exists (c :: pre). split; [cbn; by f_equal|done].
  - destruct (IH k) as (pre & Hpre & Hz). exists (c :: pre). split; [cbn; by f_equal|done].
Qed.
Lemma trim_spaces_stop wide s : space_len wide s = 0%nat -> trim_spaces wide s 0 = s.
Proof. destruct s as [|c s]; [done|]. intros Hz. cbn [trim_spaces]. by rewrite Hz. Qed.
Lemma TrimSpace_idem s : TrimSpace (TrimSpace s) = TrimSpace s.
Proof.
  unfold TrimSpace at 1 2 3, TrimLeftSpace, TrimRightSpace.
  destruct (trim_spaces_split wideSpaces s 0) as (p & _ & Hz). set (l := trim_spaces wideSpaces s 0) in *.
  destruct (trim_spaces_split (reverse <$> wideSpaces) (reverse l) 0) as (q & Hq & Hz2). set (r := trim_spaces (reverse <$> wideSpaces) (reverse l) 0) in *.
  assert (l = reverse r ++ reverse q) as Hl by (rewrite <- reverse_app, <- Hq; by rewrite reverse_involutive).
  rewrite (trim_spaces_stop wideSpaces (reverse r)).
  - by rewrite reverse_involutive, trim_spaces_stop.
  - apply (space_len_prefix _ _ (reverse q)); [by repeat constructor|]. by rewrite <- Hl.
Qed.

(** ** The address outlives restarts *)

Section stability.
  Context `{UnicodeTables} (sha256 : gostr -> gostr) (cfg : I2PServiceConfig).
Abbreviation session := (startSAMEepsite sha256 cfg).
Lemma decode_trimmed v : decodeDestination (TrimSpace v) = decodeDestination v.
Proof. unfold decodeDestination. by rewrite TrimSpace_idem. Qed.
Lemma decode_nonempty v d : decodeDestination v = Some d -> TrimSpace v <> [].
Proof. unfold decodeDestination. destruct (TrimSpace v =s []) eqn:E; [done|]. intros _. by bool_facts. Qed.
(** The files hold a private key and the public destination the address was derived from. *)
Definition persisted (site : gmap gostr gostr) (addr : gostr) : Prop :=
  exists key p, site !! keys_name = Some key /\ key <> [] /\ site !! pub_name = Some p /\ b32AddressFromBase64 sha256 p = Some addr.
Lemma exchange_sent text expect c c' : exchange text expect c = (c', None) -> sc_sent c' = sc_sent c ++ [text].
Proof.
  unfold exchange, send. destruct (sc_fail c (length (sc_sent c))); [done|]. unfold readSAMReply, ReadString. cbn. destruct (sc_replies c) as [|[line|err] rest]; [done| |done].
  destruct (negb _); [done|]. destruct (negb _); [done|]. by intros [= <-].
Qed.
(** What the files hold when a destination is at hand. *)
Definition on_file (site : gmap gostr gostr) (d : samDestination) : Prop :=
  exists key, site !! keys_name = Some key /\ key <> [] /\ (pub d <> [] -> exists p, site !! pub_name = Some p /\ (p = pub d \/ TrimSpace p = pub d)).
Lemma write_site_ok io n data site site' : write_site io n data site = (site', None) -> site' = <[n := data]> site.
Proof. unfold write_site. destruct (sio_write io n); [by intros [= <-]|done..]. Qed.
Lemma read_site_Some io n site data : read_site io n site = Some data -> site !! n = Some data.
Proof. unfold read_site. by destruct (sio_read io n). Qed.
Lemma create_on_file io c site c' site' d : createSAMDestination io (SignatureType cfg) c site = (c', site', Ok d) -> on_file site' d.
Proof.
  unfold createSAMDestination. destruct (send _ _) as [c1 [err|]]; [done|]. destruct (ReadString c1) as [c2 [line|err]]; [|done]. cbn zeta. set (g := dest_fields _ _).
  destruct (_ || _) eqn:E; [done|]. bool_facts. destruct (sio_dir io); [done|].
  destruct (write_site io keys_name _ _) as [s1 [err|]] eqn:E1; [done|]. destruct (write_site io pub_name _ _) as [s2 [err|]] eqn:E2; [done|]. intros [= _ <- <-].
  rewrite (write_site_ok _ _ _ _ _ E2), (write_site_ok _ _ _ _ _ E1).
  exists (priv g). split_and!; [by rewrite lookup_insert_ne, lookup_insert_eq by done|done|]. intros _. exists (pub g). split; [by rewrite lookup_insert_eq|by left].
Qed.
Lemma load_on_file io c site c' site' d : loadOrCreateSAMDestination io (SignatureType cfg) c site = (c', site', Ok d) -> on_file site' d.
Proof.
  unfold loadOrCreateSAMDestination. destruct (read_site io keys_name site) as [[|a data]|] eqn:E; [apply create_on_file| |apply create_on_file].
  apply read_site_Some in E. intros [= _ <- <-]. cbn. exists (a :: data). split_and!; [done|done|]. cbn. destruct (read_site io pub_name site) as [p|] eqn:Ep; [|done].
  intros _. exists p. split; [by eapply read_site_Some|by right].
Qed.
Lemma session_persists io port c site c' site' stored addr :
  session io port c site = (c', site', stored, Ok addr) -> persisted site' addr.
Proof.
  unfold startSAMEepsite. destruct (exchange _ _ _) as [c1 [err|]]; [done|].
  destruct (loadOrCreateSAMDestination _ _ _ _) as [[c2 s2] [dest|err]] eqn:El; [|done]. destruct (load_on_file _ _ _ _ _ _ El) as (key & Hkey & Hne & Hpub).
  destruct (exchange _ _ _) as [c3 [err|]]; [done|]. destruct (exchange _ _ _) as [c4 [err|]]; [done|]. destruct (pub dest =s []) eqn:Ep; bool_facts.
  - destruct (send _ _) as [c5 [err|]]; [done|]. destruct (ReadString c5) as [c6 [line|err]]; [|done]. destruct (lookup_value line) as [value|]; [|done].
    destruct (b32AddressFromBase64 sha256 value) as [a|] eqn:Ea; [|done]. destruct (write_site _ _ _ _) as [s3 [err|]] eqn:Ew; [done|]. intros [= _ <- _ <-].
    rewrite (write_site_ok _ _ _ _ _ Ew). exists key, value. split_and!; [by rewrite lookup_insert_ne by done|done|by rewrite lookup_insert_eq|done].
  - destruct (b32AddressFromBase64 sha256 (pub dest)) as [a|] eqn:Ea; [|done]. intros [= _ <- _ <-]. destruct (Hpub Ep) as (p & Hp & Heq). exists key, p. split_and!; [done..|].
    unfold b32AddressFromBase64 in *. rewrite <- Ea. f_equal. destruct Heq as [->|<-]; [done|]. by rewrite decode_trimmed.
Qed.
(** One start on stored files that can be read: the lines are a part of the dialogue of
    a stored destination, the files stay, and a success has the stored address. *)
Lemma exchange_lines text expect c c' err : exchange text expect c = (c', Some err) -> sc_sent c' = sc_sent c \/ sc_sent c' = sc_sent c ++ [text].
Proof.
  unfold exchange, send. destruct (sc_fail c (length (sc_sent c))); [intros [= <- _]; by left|]. unfold readSAMReply, ReadString. cbn.
  destruct (sc_replies c) as [|[line|e] rest]; [intros [= <- _]; by right| |intros [= <- _]; by right].
  destruct (negb _); [intros [= <- _]; by right|]. destruct (negb _); [intros [= <- _]; by right|done].
Qed.
Definition stored_readable (io : site_io) : Prop := sio_read io keys_name = true /\ sio_read io pub_name = true.
Definition stored_dialogue (key : gostr) (port : Z) : list gostr := [hello; session_create cfg (TrimSpace key); stream_forward port].
Lemma session_from_store io port c site key p addr : 
  sc_sent c = [] -> stored_readable io -> site !! keys_name = Some key -> key <> [] -> site !! pub_name = Some p -> b32AddressFromBase64 sha256 p = Some addr ->
  let '(c', site', _, r) := session io port c site in
  site' = site /\ sc_sent c' `prefix_of` stored_dialogue key port /\ (forall a, r = Ok a -> a = addr /\ sc_sent c' = stored_dialogue key port).
Proof.
  intros Hs0 [Rk Rp] Hkey Hne Hp Ha. unfold startSAMEepsite, loadOrCreateSAMDestination, read_site. rewrite Rk, Rp, Hkey, Hp. destruct key as [|k key]; [done|]. cbn [priv pub].
  unfold stored_dialogue. set (sc := session_create _ _). destruct (exchange hello _ _) as [d1 [err|]] eqn:E1.
  { split_and!; [done| |done]. destruct (exchange_lines _ _ _ _ _ E1) as [->| ->]; rewrite Hs0; [apply prefix_nil|by exists [sc; stream_forward port]]. }
  apply exchange_sent in E1. rewrite Hs0 in E1. destruct (exchange sc _ _) as [d2 [err|]] eqn:E2.
  { split_and!; [done| |done]. destruct (exchange_lines _ _ _ _ _ E2) as [->| ->]; rewrite E1; [by exists [sc; stream_forward port]|by exists [stream_forward port]]. }
  apply exchange_sent in E2. destruct (exchange (stream_forward _) _ _) as [d3 [err|]] eqn:E3.
  { split_and!; [done| |done]. destruct (exchange_lines _ _ _ _ _ E3) as [->| ->]; rewrite E2, E1; [by exists [stream_forward port]|done]. }
  apply exchange_sent in E3. unfold b32AddressFromBase64 in *. destruct (decodeDestination p) as [raw|] eqn:Ed; [|done]. injection Ha as <-.
  pose proof (decode_nonempty _ _ Ed) as Hn. destruct (TrimSpace p =s []) eqn:Et; [by apply bool_decide_eq_true in Et|]. rewrite decode_trimmed, Ed. cbn.
  rewrite E3, E2, E1. split_and!; [done|done|]. by intros a [= <-].
Qed.
End stability.
Section restarts.
  Context `{UnicodeTables} (sha256 : gostr -> gostr).
(** A later start: its configuration, its file system, its port and the connection to its
    bridge. *)
Record later_start := mkLater { ls_cfg : I2PServiceConfig; ls_io : site_io; ls_port : Z; ls_conn : sam_conn }.
(** The starts one after the other, each on the files the one before left. *)
Fixpoint starts (ls : list later_start) (site : gmap gostr gostr) : gmap gostr gostr * list (list gostr * result gostr gostr) :=
  match ls with
  | [] => (site, [])
  | l :: ls =>
      let '(c, site, _, r) := startSAMEepsite sha256 (ls_cfg l) (ls_io l) (ls_port l) (ls_conn l) site in
      let '(site, rs) := starts ls site in (site, (sc_sent c, r) :: rs)
  end.
Definition ready (l : later_start) : Prop := stored_readable (ls_io l) /\ sc_sent (ls_conn l) = [].
(** C34. Once an eepsite has started on a bridge, let it start again any number of times,
    each time with the two key files readable, under whatever configuration, whatever
    bridge answers what and whichever write or line fails.  Every start that succeeds has the first address and used the
    key stored by the first; no start asks for a new destination or touches the files. *)
Theorem eepsite_address_stable cfg io port c site c' site1 stored addr ls :
  startSAMEepsite sha256 cfg io port c site = (c', site1, stored, Ok addr) -> Forall ready ls ->
  exists key, site1 !! keys_name = Some key /\
  let '(site2, rs) := starts ls site1 in
  site2 = site1 /\
  Forall2 (fun l '(sent, r) => sent `prefix_of` stored_dialogue (ls_cfg l) key (ls_port l) /\ (forall a, r = Ok a -> a = addr /\ sent = stored_dialogue (ls_cfg l) key (ls_port l))) ls rs.
Proof.
  intros H1 Hls. destruct (session_persists _ _ _ _ _ _ _ _ _ _ H1) as (key & p & Hkey & Hne & Hp & Ha). clear H1. exists key. split; [done|].
  induction Hls as [|l ls [Hr Hs] _ IH]; cbn [starts]; [done|]. pose proof (session_from_store sha256 (ls_cfg l) _ (ls_port l) _ _ _ _ _ Hs Hr Hkey Hne Hp Ha) as H1.
  destruct (startSAMEepsite _ _ _ _ _ _) as [[[c2 site2] st2] r2]. destruct H1 as (-> & Hpre & Hok). destruct (starts ls site1) as [site3 rs]. destruct IH as [-> IH]. split; [done|]. by constructor.
Qed.
End restarts.
(** A bridge that generates a destination and one that only serves the session. *)
Definition toy_sha (s : gostr) : gostr := fixed 32 s.
Definition sample_i2p : I2PServiceConfig := mkI2PConfig (str "/etc/ipgaze") (str "/var/lib/ipgaze") true 3 3 5 5 7 300.
Definition ok_line (s : string) : result gostr gostr := Ok (str s ++ endl).
Definition first_bridge : sam_conn :=
  mkSam (fun _ => None) [ok_line "HELLO REPLY RESULT=OK VERSION=3.1"; ok_line "DEST REPLY PUB=cHVibGlj PRIV=cHJpdmF0ZQ"; ok_line "SESSION STATUS RESULT=OK"; ok_line "STREAM STATUS RESULT=OK"] [].
Definition later_bridge : sam_conn :=
  mkSam (fun _ => None) [ok_line "HELLO REPLY RESULT=OK VERSION=3.3"; ok_line "SESSION STATUS RESULT=OK"; ok_line "STREAM STATUS RESULT=OK"] [].
Definition is_ok {E A} (r : result E A) : bool := match r with Ok _ => true | Err _ => false end.
Definition stored_files : gmap gostr gostr := {[pub_name := str "cHVibGlj"; keys_name := str "cHJpdmF0ZQ"]}.
Definition working_io : site_io := mkSiteIO None (fun _ => Written) (fun _ => true).
Definition later : later_start := mkLater sample_i2p working_io 64002 later_bridge.
Definition later_cut : later_start := mkLater sample_i2p working_io 64003 (mkSam (fun _ => None) [ok_line "HELLO REPLY RESULT=OK VERSION=3.3"] []).
Lemma eepsite_address_stable_witness : exists addr,
  (startSAMEepsite (H := ascii_tables) toy_sha sample_i2p working_io 64001 first_bridge ∅).2 = Ok addr /\
  Forall2 (fun l '(sent, r) => sent `prefix_of` stored_dialogue (ls_cfg l) (str "cHJpdmF0ZQ") (ls_port l) /\ (forall a, r = Ok a -> a = addr /\ sent = stored_dialogue (ls_cfg l) (str "cHJpdmF0ZQ") (ls_port l)))
    [later; later_cut; later] (starts (H := ascii_tables) toy_sha [later; later_cut; later] stored_files).2.
Proof.
  assert (is_ok (startSAMEepsite (H := ascii_tables) toy_sha sample_i2p working_io 64001 first_bridge ∅).2 = true) as H1 by (vm_compute; reflexivity).
  assert (bool_decide ((startSAMEepsite (H := ascii_tables) toy_sha sample_i2p working_io 64001 first_bridge ∅).1.1.2 = stored_files) = true) as Hs by (vm_compute; reflexivity).
  destruct (startSAMEepsite (H := ascii_tables) toy_sha sample_i2p working_io 64001 first_bridge ∅) as [[[c1 site1] st1] [addr1|err]] eqn:E1; [|discriminate H1].
  apply bool_decide_eq_true in Hs. cbn [fst snd] in Hs. subst site1.
  destruct (eepsite_address_stable (H := ascii_tables) toy_sha sample_i2p _ _ _ _ _ _ _ _ [later; later_cut; later] E1) as (key & Hkey & Hst).
  { repeat constructor. }
  exists addr1. split; [reflexivity|]. injection Hkey as <-. destruct (starts _ _ _) as [site2 rs]. exact (proj2 Hst).
Defined.
(** Two of the three starts succeed. *)
Lemma later_starts_run :
  ((fun x => is_ok x.2) <$> (starts (H := ascii_tables) toy_sha [later; later_cut; later] stored_files).2) = [true; false; true].
Proof. vm_compute. reflexivity. Qed.
(** A key file that is there but cannot be read at one start: a new destination is
    generated over it and the eepsite has another address from then on. *)
Definition other_bridge : sam_conn :=
  mkSam (fun _ => None) [ok_line "HELLO REPLY RESULT=OK VERSION=3.1"; ok_line "DEST REPLY PUB=b3RoZXI= PRIV=c2Vjb25k"; ok_line "SESSION STATUS RESULT=OK"; ok_line "STREAM STATUS RESULT=OK"] [].
Definition unreadable_io : site_io := mkSiteIO None (fun _ => Written) (fun _ => false).
Lemma unreadable_key_replaced :
  let '(_, site, _, r) := startSAMEepsite (H := ascii_tables) toy_sha sample_i2p unreadable_io 64002 other_bridge stored_files in
  is_ok r = true /\ site !! keys_name = Some (str "c2Vjb25k") /\ r <> (startSAMEepsite (H := ascii_tables) toy_sha sample_i2p working_io 64002 later_bridge stored_files).2.
Proof. vm_compute. split_and!; [reflexivity|reflexivity|discriminate]. Qed.

(** ** What a start leaves open *)

Section i2p_resources.
  Context `{UnicodeTables} (sha256 : gostr -> gostr).
Abbreviation start := (i2p_startDedicated sha256).
(** The answers of a host with the [i2pd] binary. *)
Definition with_binary (e : i2p_env) : i2p_env :=
  mkI2PEnv true (ie_reachable e) (ie_dirs e) (ie_draws e) (ie_os_port e) (ie_tunnels e) (ie_spawn e) (ie_looks e) (ie_dial e) (ie_conn e) (ie_site e).
#[global] Instance i2pd_contract cfg : StartContract (fun e => start cfg (with_binary e)).
Proof.
  intros e w Hw. unfold i2p_startDedicated. destruct (i_Enabled cfg); [|done]. cbn [negb andb with_binary ie_binary ie_reachable ie_dirs ie_draws ie_os_port].
  destruct (ie_dirs e); [done|]. destruct (getRandomAvailablePort _ _) as [port|err]; [|done].
  pose proof (fresh_not_open Listener w Hw) as Hl. pose proof (open_ok Listener w Hw) as Hw1. pose proof (fresh_not_open Process _ Hw1) as Hp. pose proof (open_ok Process _ Hw1) as Hw2.
  cbn [open_resource]. unfold startI2PD. cbn [with_binary ie_tunnels ie_spawn ie_looks]. destruct (ie_tunnels e) as [[err rest]|].
  { split; [by apply close_ok|]. cbn. by apply close_newest. }
  destruct (ie_spawn e) as [err|].
  { split; [by apply close_ok|]. cbn. by apply close_newest. }
  cbn [open_resource with_conf with_site w_next w_open w_site w_conf]. destruct (waitForI2PDAddress _ _ _) as [addr|err]; [by split_and!|].
  split; [by do 2 apply close_ok|]. cbn [close_resource w_open with_conf with_site]. rewrite (close_newest (Process, _)) by done. by apply close_newest.
Qed.
Inductive i2p_op := IStart (e : i2p_env) | IStop | IRestart (e : i2p_env) | IUpdate (cfg : I2PServiceConfig) (e : i2p_env) | IRegenerate (removed : bool) (e : i2p_env) | IServe (h : nat).
(** An operation, with the configuration it leaves. *)
Definition i2p_do (o : i2p_op) (s : I2PServiceConfig * manager) : I2PServiceConfig * manager :=
  let '(cfg, m) := s in
  match o with
  | IStart e => (cfg, i2p_Start sha256 cfg (with_binary e) m)
  | IStop => (cfg, i2p_Stop m)
  | IRestart e => (cfg, i2p_Restart sha256 cfg (with_binary e) m)
  | IUpdate cfg' e => (cfg', UpdateConfig sha256 cfg' (with_binary e) m)
  | IRegenerate removed e => (cfg, (i2p_Regenerate sha256 cfg removed (with_binary e) m).1)
  | IServe h => (cfg, ServeBackend h m)
  end.
Definition tended (m : manager) : Prop := owns m /\ served m /\ m_handler m <> None.
Lemma i2p_Stop_tended m : tended m -> tended (i2p_Stop m).
Proof.
  intros (Ho & Hs & Hh). unfold i2p_Stop. destruct (_ || _); [done|]. destruct (drop_service_keeps m Ho Hs Hh) as [? ?]. split_and!; [done..|].
  unfold drop_service. by destruct (m_svc m).
Qed.
Lemma i2p_Start_tended cfg e m : tended m -> tended (i2p_Start sha256 cfg (with_binary e) m).
Proof.
  intros (Ho & Hs & Hh). unfold i2p_Start. destruct (m_running m) eqn:Er; [done|]. destruct (negb (i_Enabled cfg)); [done|].
  assert (m_svc m = None) as Hn. { destruct Ho as (_ & Hr & _). rewrite Hr in Er. apply bool_decide_eq_false in Er. destruct (m_svc m); [by destruct Er|done]. }
  destruct (start cfg (with_binary e) (m_world m)) as [w [s|err]] eqn:E.
  - destruct (adopt_keeps (start := fun e => start cfg (with_binary e)) e m s w Ho Hn E) as [? ?]. split_and!; [done..|]. unfold adopt. cbn. by destruct (m_handler m).
  - destruct Ho as (Hw & Hr & Hm). pose proof (i2pd_contract cfg e (m_world m) Hw) as Hk. cbn beta in Hk. rewrite E in Hk. destruct Hk as [Hw' Hk].
    unfold tended, owns, served. cbn. rewrite Hn in *. cbn. by rewrite Hk.
Qed.
(** With the process provider, after the handler is attached the open resources are
    those of the running eepsite whatever is started, stopped, reconfigured or
    regenerated and whatever fails; and an eepsite that is disabled stays down. *)
Theorem i2p_resources_accounted ops cfg m :
  owns m -> served m -> m_handler m <> None ->
  let '(cfg', m') := fold_left (fun s o => i2p_do o s) ops (cfg, m) in
  w_open (m_world m') = match m_svc m' with Some s => [s_provider s; backendLn s] | None => [] end /\
  (i_Enabled cfg' = false -> m_running (i2p_Stop m') = false /\ forall e, i2p_Restart sha256 cfg' e m' = i2p_Stop m').
Proof.
  intros Ho Hs Hh. assert (tended m) as Ht by by split_and!. clear Ho Hs Hh. revert cfg m Ht. induction ops as [|o ops IH]; intros cfg m Ht; cbn [fold_left].
  - pose proof Ht as ((_ & Hr & Hm) & _). split; [by destruct (m_svc m); [destruct Hm|]|]. intros Hd.
    assert (m_running (i2p_Stop m) = false) as Hst. { unfold i2p_Stop. rewrite Hr. destruct (m_svc m) as [s|] eqn:E; cbn; [unfold drop_service; by rewrite E|done]. }
    split; [done|]. intros e. unfold i2p_Restart, i2p_Start. by rewrite Hst, Hd.
  - destruct o as [e| |e|cfg' e|removed e|h]; cbn [i2p_do]; apply IH.
    + by apply i2p_Start_tended.
    + by apply i2p_Stop_tended.
    + by apply i2p_Start_tended, i2p_Stop_tended.
    + by apply i2p_Start_tended, i2p_Stop_tended.
    + unfold i2p_Regenerate. pose proof (i2p_Stop_tended m Ht) as Hst. destruct removed; [|exact Hst]. cbn [negb fst]. by apply i2p_Start_tended.
    + destruct Ht as (Ho & Hs & Hh). destruct (ServeBackend_keeps h m Ho) as [? ?]. split_and!; [done..|]. unfold ServeBackend. by destruct (_ && _).
Qed.
End i2p_resources.
Definition i2pd_env : i2p_env :=
  mkI2PEnv true false None (fun _ => mkDraw (Some ("a"%char, "b"%char)) true) None None None [None; Some (str "partial"); Some sample_keys] None first_bridge working_io.
Definition attached_manager : manager := ServeBackend 7 (new_manager (mkWorld [] 0 None ∅)).
Lemma i2p_resources_accounted_witness :
  let s := fold_left (fun s o => i2p_do (H := ascii_tables) toy_sha o s) [IStart i2pd_env; IStop; IRestart i2pd_env] (sample_i2p, attached_manager) in
  m_running s.2 = true /\ length (w_open (m_world s.2)) = 2%nat.
Proof.
  pose proof (i2p_resources_accounted (H := ascii_tables) toy_sha [IStart i2pd_env; IStop; IRestart i2pd_env] sample_i2p attached_manager) as Ht.
  cbn zeta. destruct (fold_left _ _ (sample_i2p, attached_manager)) as [cfg' m'] eqn:E. cbn [snd].
  assert (m_running m' = true /\ is_Some (m_svc m')) as [Hr [s Hs]].
  { apply (f_equal snd) in E. cbn [snd] in E. rewrite <- E. split; [vm_compute; reflexivity|apply (bool_decide_unpack _); vm_compute; exact I]. }
  split; [exact Hr|]. rewrite Hs in Ht. destruct Ht as [Ho _].
  - split_and!; [constructor|reflexivity|reflexivity].
  - exact I.
  - discriminate.
  - rewrite Ho. reflexivity.
Defined.
(** A bridge session whose address cannot be derived fails, but its connection stays open. *)
Definition nameless_bridge : sam_conn :=
  mkSam (fun _ => None) [ok_line "HELLO REPLY RESULT=OK VERSION=3.1"; ok_line "SESSION STATUS RESULT=OK"; ok_line "STREAM STATUS RESULT=OK"; ok_line "NAMING REPLY RESULT=KEY_NOT_FOUND"] [].
Definition nameless_env : i2p_env :=
  mkI2PEnv false true None (fun _ => mkDraw (Some ("a"%char, "b"%char)) true) None None None [] None nameless_bridge working_io.
Lemma sam_connection_leaks :
  let '(w, r) := i2p_startDedicated (H := ascii_tables) toy_sha sample_i2p nameless_env (mkWorld [] 0 None {[keys_name := str "cHJpdmF0ZQ"]}) in
  w_open w = [(Connection, 1%nat)] /\ (exists err, r = Err err).
Proof. vm_compute. split; [reflexivity|by eexists]. Qed.
