(* ===== verification/Certs.v ===== *)
(** * Certificates: [ssl/ssl.go]

    Where the server looks for a certificate, which one it serves, how it obtains and
    renews its own, the environment through which credentials reach a DNS provider, and
    the answers to ACME challenges.  The X.509 and ACME libraries are parameters: what a
    certificate file holds, whether a pair loads and whether a name is covered.

    The theorems: the lookup finds the first complete pair of the documented order; what
    is served from disk is in date and covers the host; a renewal happens only for
    certificates the program manages and only within the window, and writes only the
    program's own pair, its account and the time of a validation; credentials are gone
    from the environment however a provider's construction ends. *)
From stdpp Require Import base list gmap strings.
From Stdlib Require Import ZArith Lia.
From S2P Require Import Prelude GoStrings GoUtf8 GoTime GoPath GoUrl GoNet Restore Secrets Reports.
Local Open Scope Z_scope.
Local Open Scope go_scope.

(** ** The lookup *)

Abbreviation files := (gmap gostr gostr).
Definition fileExists (fs : files) (path : gostr) : bool := bool_decide (is_Some (fs !! path)).
Definition pair_exists (fs : files) (p : gostr * gostr) : bool := fileExists fs p.1 && fileExists fs p.2.
Definition in_dir (dir domain cert key : gostr) : gostr * gostr := (path_Join (path_Join dir domain) cert, path_Join (path_Join dir domain) key).
Definition fullchain : gostr := str "fullchain.pem".
Definition privkey : gostr := str "privkey.pem".
Definition certbot : gostr := str "/etc/letsencrypt/live".
Definition managed_dir (certPath : gostr) : gostr := path_Join certPath (str "letsencrypt").
(** A loop over the domains of one priority. *)
Fixpoint find_in (fs : files) (dir cert key : gostr) (domains : list gostr) : option (gostr * gostr) :=
  match domains with
  | [] => None
  | d :: rest => if pair_exists fs (in_dir dir d cert key) then Some (in_dir dir d cert key) else find_in fs dir cert key rest
  end.
Definition findCertByPriority (fs : files) (certPath : gostr) (domains : list gostr) : option (gostr * gostr) :=
  let shared := (str "/etc/letsencrypt/live/domain/fullchain.pem", str "/etc/letsencrypt/live/domain/privkey.pem") in
  if pair_exists fs shared then Some shared
  else match find_in fs certbot fullchain privkey domains with
       | Some p => Some p
       | None =>
           match (if certPath <>s [] then find_in fs (managed_dir certPath) fullchain privkey domains else None) with
           | Some p => Some p
           | None => if certPath <>s [] then find_in fs (path_Join certPath (str "local")) (str "cert.pem") (str "key.pem") domains else None
           end
       end.
(** The documented order, as a list. *)
Definition cert_candidates (certPath : gostr) (domains : list gostr) : list (gostr * gostr) :=
  in_dir certbot (str "domain") fullchain privkey ::
  ((fun d => in_dir certbot d fullchain privkey) <$> domains) ++
  (if certPath <>s [] then ((fun d => in_dir (managed_dir certPath) d fullchain privkey) <$> domains) ++
                           ((fun d => in_dir (path_Join certPath (str "local")) d (str "cert.pem") (str "key.pem")) <$> domains)
   else []).
Lemma find_in_find fs dir cert key domains : find_in fs dir cert key domains = List.find (pair_exists fs) ((fun d => in_dir dir d cert key) <$> domains).
Proof. induction domains as [|d domains IH]; [done|]. cbn [find_in fmap list_fmap List.find]. by rewrite IH. Qed.
(** The lookup returns the first pair of the documented order of which both files exist. *)
Theorem findCertByPriority_order fs certPath domains : findCertByPriority fs certPath domains = List.find (pair_exists fs) (cert_candidates certPath domains).
Proof.
  unfold findCertByPriority, cert_candidates. cbn [List.find].
  change (in_dir certbot (str "domain") fullchain privkey) with (str "/etc/letsencrypt/live/domain/fullchain.pem", str "/etc/letsencrypt/live/domain/privkey.pem").
  destruct (pair_exists fs _); [done|]. rewrite find_app, find_in_find. destruct (List.find _ _); [done|].
  destruct (certPath <>s []); [|done]. by rewrite find_app, !find_in_find.
Qed.

(** ** Certificates *)

(** What the program reads of a parsed certificate; [covers] is [VerifyHostname]. *)
Record certificate := mkCert { NotAfter : Z; CommonName : gostr; DNSNames : list gostr; covers : gostr -> bool }.
Inductive cert_problem := Expired | NameMismatch.
Definition validateCertForFQDN (now : Z) (cert : certificate) (fqdn : gostr) : option cert_problem :=
  if NotAfter cert <? now then Some Expired
  else if fqdn =s [] then None
  else if covers cert fqdn then None
  else if CommonName cert =s fqdn then None
  else Some NameMismatch.
Inductive challenge := HTTP01 | TLSALPN01 | DNS01.
Definition ParseChallenge `{UnicodeTables} (s : gostr) : challenge :=
  let s := ToLower (TrimSpace s) in
  if bool_decide (s ∈ [str "http-01"; str "http01"; str "http"]) then HTTP01
  else if bool_decide (s ∈ [str "tls-alpn-01"; str "tlsalpn01"; str "tls-alpn"; str "tls"]) then TLSALPN01
  else if bool_decide (s ∈ [str "dns-01"; str "dns01"; str "dns"]) then DNS01
  else HTTP01.
Record ssl_config := mkSSL {
  Enabled : bool; CertPath : gostr; LE_Enabled : bool; Challenge : gostr; DNSProvider : gostr; DNSCredentialsEncrypted : gostr; EncryptionKey : gostr }.

(** ** Credentials in the environment *)

Abbreviation environment := (gmap gostr gostr).
(** [fails k] is whether setting [k] fails. *)
Fixpoint set_env (fails : gostr -> bool) (creds : list (gostr * gostr)) (env : environment) : environment * bool :=
  match creds with
  | [] => (env, true)
  | (k, v) :: rest => if fails k then (env, false) else set_env fails rest (<[k := v]> env)
  end.
Definition unset_env (creds : list (gostr * gostr)) (env : environment) : environment := foldr (fun kv e => delete kv.1 e) env creds.
Inductive dns_error := NoProviderName | NoCredentials | NoKey | BadKey | BadCiphertext | DecryptFailed | BadJSON | SetenvFailed | ProviderFailed.
Section certificates.
  Context `{UnicodeTables} `{SecretCipher}.
  Context (unmarshal : gostr -> option (list (gostr * gostr))).
(** The map of credentials, in the order it is iterated. *)
Definition decryptDNSCredentials (cfg : ssl_config) : result dns_error (list (gostr * gostr)) :=
  let encrypted := TrimSpace (DNSCredentialsEncrypted cfg) in
  if encrypted =s [] then Err NoCredentials
  else let keyB64 := TrimSpace (EncryptionKey cfg) in
       if keyB64 =s [] then Err NoKey
       else match Std_Decode keyB64 with
            | None => Err BadKey
            | Some key =>
                match Std_Decode encrypted with
                | None => Err BadCiphertext
                | Some ciphertext =>
                    match DecryptWithSecret key ciphertext dnsCredentialsInfo with
                    | Err _ => Err DecryptFailed
                    | Ok plaintext => match unmarshal plaintext with Some creds => Ok creds | None => Err BadJSON end
                    end
                end
            end.
(** [constructs] is whether the library builds the named provider from an environment.
    The result has the environment afterwards. *)
Definition dnsProvider (cfg : ssl_config) (fails : gostr -> bool) (constructs : gostr -> environment -> bool) (env : environment) : environment * option dns_error :=
  let name := TrimSpace (DNSProvider cfg) in
  if name =s [] then (env, Some NoProviderName)
  else match decryptDNSCredentials cfg with
       | Err e => (env, Some e)
       | Ok creds =>
           let '(env, ok) := set_env fails creds env in
           if negb ok then (env, Some SetenvFailed)
           else (unset_env creds env, if constructs name env then None else Some ProviderFailed)
       end.
(** ** Obtaining *)

(** How [os.WriteFile] ends: the file cannot be opened; it is emptied and some text is
    left; or it is emptied and then written.  The states of the files it goes through. *)
Inductive write_end := NotOpened | CutOff (rest : gostr) | Complete.
Definition write_states (o : write_end) (path text : gostr) (fs : files) : list files :=
  match o with NotOpened => [] | CutOff rest => [<[path := rest]> fs] | Complete => [<[path := []]> fs; <[path := text]> fs] end.
Definition after (fs : files) (states : list files) : files := List.last states fs.
(** What answers an issuance: the account directory, which files can be read and what
    they parse to, the key that is generated and its write; the ACME client; the
    environment; the configuration file, its text with the time of validation and its
    write; whether the validation port is free; the registration and its write; the
    certificate and key the authority issues, and the replacements of the two files. *)
Record issue_env := mkIssue {
  is_account_dir : bool; is_readable : gostr -> bool; is_key : gostr -> bool; is_new_key : option gostr; is_key_write : write_end;
  is_client : bool; is_fails : gostr -> bool; is_constructs : gostr -> environment -> bool;
  is_config : gostr; is_config_text : gostr; is_config_write : write_end; is_port_free : bool;
  is_registration : gostr -> bool; is_register : option gostr; is_register_write : write_end;
  is_issued : option (gostr * gostr); is_dir : bool; is_write_cert : bool; is_write_key : bool }.
Inductive obtain_error := NoDomains | AccountFailed | ClientFailed | CredentialsRefused (e : dns_error) | ListenFailed | RegistrationFailed | ObtainFailed | WriteFailed.
Definition acmeDir (cfg : ssl_config) : gostr := path_Join (managed_dir (CertPath cfg)) (str "account").
Definition account_key (cfg : ssl_config) : gostr := path_Join (acmeDir cfg) (str "account.key").
Definition registration_json (cfg : ssl_config) : gostr := path_Join (acmeDir cfg) (str "registration.json").
Definition read_file (i : issue_env) (path : gostr) (fs : files) : option gostr := if is_readable i path then fs !! path else None.
(** [loadOrCreateAccountKey]: a key that cannot be read or parsed is replaced. *)
Definition loadOrCreateAccountKey (cfg : ssl_config) (i : issue_env) (fs : files) : list files * bool :=
  if negb (is_account_dir i) then ([], false)
  else match read_file i (account_key cfg) fs with
       | Some data => if is_key i data then ([], true) else
           match is_new_key i with
           | None => ([], false)
           | Some pem => (write_states (is_key_write i) (account_key cfg) pem fs, match is_key_write i with Complete => true | _ => false end)
           end
       | None =>
           match is_new_key i with
           | None => ([], false)
           | Some pem => (write_states (is_key_write i) (account_key cfg) pem fs, match is_key_write i with Complete => true | _ => false end)
           end
       end.
Definition loadRegistration (cfg : ssl_config) (i : issue_env) (fs : files) : bool :=
  match read_file i (registration_json cfg) fs with Some data => is_registration i data | None => false end.
(** The registration of an account that is not registered; an error of the save is logged. *)
Definition register (cfg : ssl_config) (i : issue_env) (known : bool) (fs : files) : list files * bool :=
  if known then ([], true)
  else match is_register i with
       | None => ([], false)
       | Some reg => (write_states (is_register_write i) (registration_json cfg) reg fs, true)
       end.
(** [ValidateDNSCredentials], with the callback of [main.go] that saves the time of
    validation in the configuration file. *)
Definition ValidateDNSCredentials (cfg : ssl_config) (i : issue_env) (env : environment) (fs : files) : environment * list files * option dns_error :=
  let '(env, err) := dnsProvider cfg (is_fails i) (is_constructs i) env in
  (env, match err with None => write_states (is_config_write i) (is_config i) (is_config_text i) fs | Some _ => [] end, err).
(** [setChallengeProvider]: [http-01] and [tls-alpn-01] need their port. *)
Definition setChallengeProvider (cfg : ssl_config) (i : issue_env) (env : environment) : environment * option obtain_error :=
  match ParseChallenge (Challenge cfg) with
  | DNS01 => let '(env, err) := dnsProvider cfg (is_fails i) (is_constructs i) env in (env, CredentialsRefused <$> err)
  | _ => (env, if is_port_free i then None else Some ListenFailed)
  end.
(** The issued pair; each file is replaced at once by a rename of a temporary one, which
    is not modelled. *)
Definition store_pair (cfg : ssl_config) (i : issue_env) (domain : gostr) (fs : files) : list files * result obtain_error (gostr * gostr) :=
  match is_issued i with
  | None => ([], Err ObtainFailed)
  | Some (cert, key) =>
      let p := in_dir (managed_dir (CertPath cfg)) domain fullchain privkey in
      if negb (is_dir i) then ([], Err WriteFailed)
      else if negb (is_write_cert i) then ([], Err WriteFailed)
      else let fs1 := <[p.1 := cert]> fs in
           if negb (is_write_key i) then ([fs1], Err WriteFailed)
           else ([fs1; <[p.2 := key]> fs1], Ok p)
  end.
(** [obtainLetsEncryptCert]: the environment and the files after each write. *)
Definition obtainLetsEncryptCert (cfg : ssl_config) (i : issue_env) (domains : list gostr) (env : environment) (fs : files) :
    environment * list files * result obtain_error (gostr * gostr) :=
  match domains with
  | [] => (env, [], Err NoDomains)
  | domain :: _ =>
      let '(st1, ok) := loadOrCreateAccountKey cfg i fs in
      let fs := after fs st1 in
      if negb ok then (env, st1, Err AccountFailed)
      else
        let known := loadRegistration cfg i fs in
        if negb (is_client i) then (env, st1, Err ClientFailed)
        else
          let '(env, st2, err) := match ParseChallenge (Challenge cfg) with
                                  | DNS01 => ValidateDNSCredentials cfg i env fs
                                  | _ => (env, [], None)
                                  end in
          let fs := after fs st2 in
          match err with
          | Some e => (env, st1 ++ st2, Err (CredentialsRefused e))
          | None =>
              let '(env, err) := setChallengeProvider cfg i env in
              match err with
              | Some e => (env, st1 ++ st2, Err e)
              | None =>
                  let '(st3, ok) := register cfg i known fs in
                  let fs := after fs st3 in
                  if negb ok then (env, st1 ++ st2 ++ st3, Err RegistrationFailed)
                  else let '(st4, r) := store_pair cfg i domain fs in (env, st1 ++ st2 ++ st3 ++ st4, r)
              end
          end
  end.

(** ** Serving and renewing *)

(** [load] is [LoadX509KeyPair] with the parsed leaf, [parse] the first certificate of a
    file: [None] without a PEM block, [Some None] when it does not parse. *)
Context (load : gostr -> gostr -> option certificate) (parse : gostr -> option (option certificate)).
Definition load_files (fs : files) (p : gostr * gostr) : option certificate :=
  match fs !! p.1, fs !! p.2 with Some c, Some k => load c k | _, _ => None end.
Inductive tls_error := LoadFailed | IssueFailed (e : obtain_error) | NoCertificate.
Definition getLetsEncryptTLSConfig (cfg : ssl_config) (i : issue_env) (domains : list gostr) (env : environment) (fs : files) : environment * files * result tls_error (option certificate) :=
  let '(env, states, r) := obtainLetsEncryptCert cfg i domains env fs in
  let fs := after fs states in
  match r with
  | Err e => (env, fs, Err (IssueFailed e))
  | Ok p => (env, fs, match load_files fs p with Some c => Ok (Some c) | None => Err LoadFailed end)
  end.
(** [Ok None] when TLS is off. *)
Definition GetTLSConfig (now : Z) (cfg : ssl_config) (i : issue_env) (domains : list gostr) (env : environment) (fs : files) : environment * files * result tls_error (option certificate) :=
  if negb (Enabled cfg) then (env, fs, Ok None)
  else
    let next := if LE_Enabled cfg then getLetsEncryptTLSConfig cfg i domains env fs else (env, fs, Err NoCertificate) in
    match findCertByPriority fs (CertPath cfg) domains with
    | None => next
    | Some p =>
        match load_files fs p with
        | None => (env, fs, Err LoadFailed)
        | Some leaf => match validateCertForFQDN now leaf (List.hd [] domains) with
                       | Some _ => next
                       | None => (env, fs, Ok (Some leaf))
                       end
        end
    end.
Definition CertExpiry (cfg : ssl_config) (domains : list gostr) (fs : files) : option (gostr * Z) :=
  match findCertByPriority fs (CertPath cfg) domains with
  | None => None
  | Some (certPath, _) =>
      match fs !! certPath ≫= parse with
      | Some (Some cert) => Some (List.hd (CommonName cert) (DNSNames cert), NotAfter cert)
      | _ => None
      end
  end.
Inductive renew_error := ReadFailed | ParseFailed | RenewFailed (e : obtain_error).
Definition day : Z := 24 * Hour.
(** [appManagedPrefix] *)
Definition appManaged (cfg : ssl_config) (certPath : gostr) : bool := HasPrefix certPath (managed_dir (CertPath cfg) ++ str "/").
Definition RenewIfExpiring (now : Z) (cfg : ssl_config) (i : issue_env) (domains : list gostr) (daysBeforeExpiry : Z) (env : environment) (fs : files) :
    environment * list files * option renew_error :=
  match findCertByPriority fs (CertPath cfg) domains with
  | None => (env, [], None)
  | Some (certPath, _) =>
      match fs !! certPath with
      | None => (env, [], Some ReadFailed)
      | Some data =>
          match parse data with
          | None => (env, [], None)
          | Some None => (env, [], Some ParseFailed)
          | Some (Some cert) =>
              if daysBeforeExpiry * day <? NotAfter cert - now then (env, [], None)
              else if negb (LE_Enabled cfg) || negb (appManaged cfg certPath) then (env, [], None)
              else let '(env, states, r) := obtainLetsEncryptCert cfg i domains env fs in
                   (env, states, match r with Ok _ => None | Err e => Some (RenewFailed e) end)
          end
      end
  end.
End certificates.

(** ** Challenges *)

(** [ChallengeServer] and the provider that feeds it. *)
Abbreviation tokens := (gmap gostr gostr).
Definition Present (token keyAuth : gostr) (ts : tokens) : tokens := <[token := keyAuth]> ts.
Definition CleanUp (token : gostr) (ts : tokens) : tokens := delete token ts.
Definition acmePrefix : gostr := str "/.well-known/acme-challenge/".
Inductive answer := Passed | ChallengeNotFound | KeyAuthorization (auth : gostr).
(** [ServeHTTP]; [Passed] leaves the request to the fallback of [GetHTTPHandler]. *)
Definition ServeChallenge (ts : tokens) (path : gostr) : answer :=
  if negb (HasPrefix path acmePrefix) then Passed
  else match ts !! TrimPrefix path acmePrefix with Some auth => KeyAuthorization auth | None => ChallengeNotFound end.

(** ** Self-signed certificates *)

Record names := mkNames { n_dns : list gostr; n_ips : list (option IP) }.
Fixpoint add_hosts (hosts : list gostr) (n : names) : names :=
  match hosts with
  | [] => n
  | h :: rest =>
      add_hosts rest
        (match ParseIP h with
         | Some ip => mkNames (n_dns n) (n_ips n ++ [Some ip])
         | None => if (h <>s []) && (h <>s str "localhost") then mkNames (n_dns n ++ [h]) (n_ips n) else n
         end)
  end.
(** The names of [GenerateSelfSignedTLSConfig]. *)
Definition self_signed_names (hosts : list gostr) : names :=
  add_hosts hosts (mkNames [str "localhost"] [ParseIP (str "127.0.0.1"); ParseIP (str "::1")]).

(** ** What is served *)

Section facts.
  Context `{UnicodeTables} `{SecretCipher} (unmarshal : gostr -> option (list (gostr * gostr))).
  Context (load : gostr -> gostr -> option certificate) (parse : gostr -> option (option certificate)).
Lemma validate_ok now cert fqdn : validateCertForFQDN now cert fqdn = None -> now <= NotAfter cert /\ (fqdn = [] \/ covers cert fqdn = true \/ CommonName cert = fqdn).
Proof.
  unfold validateCertForFQDN. destruct (Z.ltb_spec (NotAfter cert) now); [done|]. destruct (fqdn =s []) eqn:E1; [bool_facts; auto|].
  destruct (covers cert fqdn); [auto|]. destruct (CommonName cert =s fqdn) eqn:E2; [bool_facts; auto|done].
Qed.
(** *** What an issuance writes *)

(** Every state differs from the files before it at some paths only. *)
Definition writes_within (P : gostr -> Prop) (fs : files) (states : list files) : Prop :=
  forall fs' path, fs' ∈ states -> fs' !! path <> fs !! path -> P path.
Lemma writes_none P fs : writes_within P fs [].
Proof. by intros fs' path ?%not_elem_of_nil. Qed.
Lemma after_state fs states : after fs states = fs \/ after fs states ∈ states.
Proof.
  unfold after. destruct states as [|x states]; [by left|right]. revert x.
  induction states as [|y states IH]; intros x; [by left|]. right. apply IH.
Qed.
Lemma writes_app P fs st1 st2 : writes_within P fs st1 -> writes_within P (after fs st1) st2 -> writes_within P fs (st1 ++ st2).
Proof.
  intros H1 H2 fs' path [Hin|Hin]%elem_of_app Hne; [by apply (H1 fs')|].
  destruct (decide (fs' !! path = after fs st1 !! path)) as [E|E]; [|by apply (H2 fs')].
  destruct (after_state fs st1) as [Ea|Ea]; [by rewrite E, Ea in Hne|]. apply (H1 _ path Ea). by rewrite <- E.
Qed.
Lemma writes_file P o path text fs : P path -> writes_within P fs (write_states o path text fs).
Proof.
  intros HP fs' q Hin Hne. assert (exists t, fs' = <[path := t]> fs) as [t ->].
  { destruct o; cbn in Hin; [by apply not_elem_of_nil in Hin|apply list_elem_of_singleton in Hin; by eexists|].
    apply elem_of_cons in Hin as [->|Hin]; [by eexists|]. apply list_elem_of_singleton in Hin. by eexists. }
  destruct (decide (q = path)) as [->|Hq]; [done|]. by rewrite lookup_insert_ne in Hne.
Qed.
(** The files an issuance for a first domain may write: the pair of the domain, the
    account and its registration, and with the DNS challenge the configuration. *)
Definition own_file (cfg : ssl_config) (i : issue_env) (d path : gostr) : Prop :=
  path = (in_dir (managed_dir (CertPath cfg)) d fullchain privkey).1 \/ path = (in_dir (managed_dir (CertPath cfg)) d fullchain privkey).2 \/
  path = account_key cfg \/ path = registration_json cfg \/ ParseChallenge (Challenge cfg) = DNS01 /\ path = is_config i.
Lemma account_writes cfg i fs d : writes_within (own_file cfg i d) fs (loadOrCreateAccountKey cfg i fs).1.
Proof.
  unfold loadOrCreateAccountKey. assert (own_file cfg i d (account_key cfg)) as Ho by (unfold own_file; auto).
  destruct (is_account_dir i); [|apply writes_none]. cbn [negb].
  destruct (read_file i (account_key cfg) fs) as [data|]; [destruct (is_key i data); [apply writes_none|]|];
    (destruct (is_new_key i) as [pem|]; [by apply writes_file|apply writes_none]).
Qed.
Lemma register_writes cfg i known fs d : writes_within (own_file cfg i d) fs (register cfg i known fs).1.
Proof.
  unfold register. destruct known; [apply writes_none|]. destruct (is_register i); [|apply writes_none]. apply writes_file. unfold own_file. auto.
Qed.
Lemma validate_writes cfg i env fs d : ParseChallenge (Challenge cfg) = DNS01 -> writes_within (own_file cfg i d) fs (ValidateDNSCredentials unmarshal cfg i env fs).1.2.
Proof.
  intros Hc. unfold ValidateDNSCredentials. destruct (dnsProvider _ _ _ _ _) as [env1 [e|]]; [apply writes_none|]. apply writes_file. unfold own_file. auto 6.
Qed.
Lemma store_writes cfg i d fs : writes_within (own_file cfg i d) fs (store_pair cfg i d fs).1.
Proof.
  unfold store_pair, own_file. destruct (is_issued i) as [[cert key]|]; [|apply writes_none]. destruct (is_dir i); [|apply writes_none].
  destruct (is_write_cert i); [|apply writes_none]. cbn [negb]. set (p := in_dir _ _ _ _). intros fs' path Hin Hne.
  assert (path = p.1 \/ path = p.2) as [->| ->]; [|by auto..].
  destruct (decide (path = p.1)); [by left|]. destruct (decide (path = p.2)); [by right|]. exfalso. apply Hne.
  destruct (is_write_key i); cbn [negb fst] in Hin; [apply elem_of_cons in Hin as [->|Hin]; [by rewrite lookup_insert_ne|]|];
    apply list_elem_of_singleton in Hin as ->; by rewrite ?lookup_insert_ne.
Qed.
(** The validation before a request, as the issuance runs it. *)
Lemma validation_writes cfg i env fs d env' states err :
  match ParseChallenge (Challenge cfg) with DNS01 => ValidateDNSCredentials unmarshal cfg i env fs | _ => (env, [], None) end = (env', states, err) ->
  writes_within (own_file cfg i d) fs states.
Proof.
  pose proof (validate_writes cfg i env fs d) as Hv. destruct (ParseChallenge (Challenge cfg)); [intros [= _ <- _]; apply writes_none..|].
  intros E. rewrite E in Hv. by apply Hv.
Qed.
Lemma obtain_states cfg i domains env fs env' states r :
  obtainLetsEncryptCert unmarshal cfg i domains env fs = (env', states, r) ->
  states = [] \/ exists d rest, domains = d :: rest /\ writes_within (own_file cfg i d) fs states.
Proof.
  unfold obtainLetsEncryptCert. destruct domains as [|d rest]; [intros [= _ <- _]; by left|]. intros Hob. right. exists d, rest. split; [done|]. revert Hob.
  pose proof (account_writes cfg i fs d) as H1. destruct (loadOrCreateAccountKey cfg i fs) as [st1 ok]. cbn [fst] in H1.
  destruct ok; [|by intros [= _ <- _]]. cbn [negb]. cbn zeta. destruct (is_client i); [|by intros [= _ <- _]]. cbn [negb].
  destruct (match ParseChallenge (Challenge cfg) with DNS01 => _ | _ => _ end) as [[env1 st2] err] eqn:E2. apply (validation_writes _ _ _ _ d) in E2 as H2.
  pose proof (writes_app _ _ _ _ H1 H2) as H12. destruct err as [e|]; [by intros [= _ <- _]|].
  destruct (setChallengeProvider _ _ _ _) as [env2 [e|]]; [by intros [= _ <- _]|].
  pose proof (register_writes cfg i (loadRegistration cfg i (after fs st1)) (after (after fs st1) st2) d) as H3.
  destruct (register _ _ _ _) as [st3 ok]. cbn [fst] in H3. pose proof (writes_app _ _ _ _ H2 H3) as H23.
  destruct ok; cbn [negb]; [|intros [= _ <- _]; by apply writes_app].
  pose proof (store_writes cfg i d (after (after (after fs st1) st2) st3)) as H4. destruct (store_pair _ _ _ _) as [st4 r4]. cbn [fst] in H4.
  intros [= _ <- _]. apply writes_app; [done|]. apply writes_app; [done|]. by apply writes_app.
Qed.
(** The outcome of an issuance that succeeds. *)
Lemma obtain_ok cfg i domains env fs env' states p :
  obtainLetsEncryptCert unmarshal cfg i domains env fs = (env', states, Ok p) ->
  exists d rest cert key fs0 before, domains = d :: rest /\ is_issued i = Some (cert, key) /\ p = in_dir (managed_dir (CertPath cfg)) d fullchain privkey /\
    states = before ++ [<[p.1 := cert]> fs0; <[p.2 := key]> (<[p.1 := cert]> fs0)].
Proof.
  unfold obtainLetsEncryptCert. destruct domains as [|d rest]; [done|]. destruct (loadOrCreateAccountKey cfg i fs) as [st1 []]; [|done]. cbn [negb]. cbn zeta.
  destruct (is_client i); [|done]. cbn [negb]. destruct (match ParseChallenge (Challenge cfg) with DNS01 => _ | _ => _ end) as [[env1 st2] [e|]]; [done|].
  destruct (setChallengeProvider _ _ _ _) as [env2 [e|]]; [done|]. destruct (register _ _ _ _) as [st3 []]; [|done]. cbn [negb].
  unfold store_pair. destruct (is_issued i) as [[cert key]|]; [|done]. destruct (is_dir i); [|done]. destruct (is_write_cert i); [|done].
  destruct (is_write_key i); [|done]. cbn [negb]. intros [= _ <- <-]. exists d, rest, cert, key, (after (after (after fs st1) st2) st3), (st1 ++ st2 ++ st3).
  split_and!; [done..|]. by rewrite <- !app_assoc.
Qed.
Lemma after_app fs st x : after fs (st ++ [x]) = x.
Proof. unfold after. apply List.last_last. Qed.
(** The certificate the server starts with is either the first pair found on disk,
    loaded, in date and for the host, with nothing written; or one just issued and
    stored under the program's own directory. *)
Theorem served_certificate now cfg i domains env fs env' fs' c :
  GetTLSConfig unmarshal load now cfg i domains env fs = (env', fs', Ok (Some c)) ->
  Enabled cfg = true /\
  ((exists p, findCertByPriority fs (CertPath cfg) domains = Some p /\ load_files load fs p = Some c /\ fs' = fs /\
      now <= NotAfter c /\ (List.hd [] domains = [] \/ covers c (List.hd [] domains) = true \/ CommonName c = List.hd [] domains)) \/
   (LE_Enabled cfg = true /\ exists p cert key fs0, is_issued i = Some (cert, key) /\ p = in_dir (managed_dir (CertPath cfg)) (List.hd [] domains) fullchain privkey /\
      fs' = <[p.2 := key]> (<[p.1 := cert]> fs0) /\ load_files load fs' p = Some c)).
Proof.
  unfold GetTLSConfig. destruct (Enabled cfg); [|done]. cbn [negb]. cbn zeta.
  assert ((if LE_Enabled cfg then getLetsEncryptTLSConfig unmarshal load cfg i domains env fs else (env, fs, Err NoCertificate)) = (env', fs', Ok (Some c)) ->
    LE_Enabled cfg = true /\ exists p cert key fs0, is_issued i = Some (cert, key) /\ p = in_dir (managed_dir (CertPath cfg)) (List.hd [] domains) fullchain privkey /\
      fs' = <[p.2 := key]> (<[p.1 := cert]> fs0) /\ load_files load fs' p = Some c) as Hnext.
  { destruct (LE_Enabled cfg); [|done]. unfold getLetsEncryptTLSConfig. destruct (obtainLetsEncryptCert _ _ _ _ _ _) as [[env1 states] [p|e]] eqn:E; [|done].
    destruct (obtain_ok _ _ _ _ _ _ _ _ E) as (d & rest & cert & key & fs0 & before & -> & Hi & Hp & Hst). destruct (load_files load (after fs states) p) eqn:El; [|done].
    intros [= _ <- <-]. split; [done|]. exists p, cert, key, fs0. cbn [List.hd]. split_and!; [done|done| |done]. subst states.
    change [?a; ?b] with ([a] ++ [b]). rewrite app_assoc. apply after_app. }
  destruct (findCertByPriority fs (CertPath cfg) domains) as [p|] eqn:Ef; [|intros Hn; split; [done|right; by apply Hnext]].
  destruct (load_files load fs p) as [leaf|] eqn:El; [|done]. destruct (validateCertForFQDN now leaf _) eqn:Ev; [intros Hn; split; [done|right; by apply Hnext]|].
  intros [= _ <- <-]. apply validate_ok in Ev as [? ?]. split; [done|]. left. by exists p.
Qed.
Ltac unwritten := intros [= _ <- _]; split; [done|by left].
(** C31. The renewal task writes no file unless the certificate in use is one the program
    manages, issuing is enabled and the certificate expires within the window.  Then it
    writes only the program's own pair for the first domain, the key and the registration
    of its ACME account, and with the DNS challenge the configuration file, where the
    time of the validation is recorded. *)
Theorem renewal_guarded now cfg i domains days env fs env' states err :
  RenewIfExpiring unmarshal parse now cfg i domains days env fs = (env', states, err) ->
  (states <> [] -> LE_Enabled cfg = true /\ exists p cert, findCertByPriority fs (CertPath cfg) domains = Some p /\ appManaged cfg p.1 = true /\
     fs !! p.1 ≫= parse = Some (Some cert) /\ NotAfter cert - now <= days * day) /\
  (states = [] \/ exists d rest, domains = d :: rest /\ writes_within (own_file cfg i d) fs states).
Proof.
  unfold RenewIfExpiring. destruct (findCertByPriority fs (CertPath cfg) domains) as [[certPath key]|]; [|unwritten].
  destruct (fs !! certPath) as [data|] eqn:Ed; [|unwritten]. destruct (parse data) as [[cert|]|] eqn:Ep; [|unwritten..].
  destruct (Z.ltb_spec (days * day) (NotAfter cert - now)) as [|Hle]; [unwritten|].
  destruct (LE_Enabled cfg); [|unwritten]. destruct (appManaged cfg certPath) eqn:Em; [|unwritten]. cbn [negb orb].
  destruct (obtainLetsEncryptCert _ _ _ _ _ _) as [[env1 sts] r] eqn:Eo. intros [= _ <- _]. split.
  - intros _. split; [done|]. exists (certPath, key), cert. cbn [fst]. split_and!; [done|done|by rewrite Ed; cbn|done].
  - by apply (obtain_states _ _ _ _ _ _ _ _ Eo).
Qed.

(** ** Credentials *)

Lemma set_env_ok fails creds env : (forall k, fails k = false) -> exists env', set_env fails creds env = (env', true) /\ forall k, k ∉ creds.*1 -> env' !! k = env !! k.
Proof.
  intros Hf. revert env. induction creds as [|[k v] creds IH]; intros env; cbn [set_env]; [by exists env|]. rewrite Hf. destruct (IH (<[k := v]> env)) as (env' & He & Hk).
  exists env'. split; [done|]. intros k' Hn. rewrite fmap_cons, not_elem_of_cons in Hn. destruct Hn as [Hn1 Hn2]. cbn in Hn1. by rewrite Hk, lookup_insert_ne.
Qed.
Lemma unset_env_lookup creds env k : unset_env creds env !! k = if decide (k ∈ creds.*1) then None else env !! k.
Proof.
  induction creds as [|[k0 v] creds IH]; [done|]. cbn [unset_env foldr]. fold (unset_env creds env). cbn [fst]. rewrite fmap_cons. cbn [fst].
  destruct (decide (k = k0)) as [->|Hk].
  - rewrite lookup_delete_eq. by rewrite decide_True by left.
  - rewrite lookup_delete_ne by done. rewrite IH. destruct (decide (k ∈ creds.*1)) as [Hin|Hin].
    + by rewrite decide_True by (by right).
    + rewrite decide_False; [done|]. rewrite not_elem_of_cons. done.
Qed.
(** The environment with the credentials of a configuration taken out. *)
Definition scrubbed (cfg : ssl_config) (env env' : environment) : Prop :=
  env' = env \/ exists creds, decryptDNSCredentials unmarshal cfg = Ok creds /\ forall k, env' !! k = if decide (k ∈ creds.*1) then None else env !! k.
Lemma dnsProvider_scrubs cfg fails constructs env env' r : (forall k, fails k = false) -> dnsProvider unmarshal cfg fails constructs env = (env', r) -> scrubbed cfg env env'.
Proof.
  intros Hf. unfold dnsProvider. destruct (_ =s []); [intros [= <- _]; by left|]. destruct (decryptDNSCredentials unmarshal cfg) as [creds|e] eqn:Ed; [|intros [= <- _]; by left].
  destruct (set_env_ok fails creds env Hf) as (env1 & -> & Hk). cbn [negb]. intros [= <- _]. right. exists creds. split; [done|]. intros k. rewrite unset_env_lookup.
  destruct (decide (k ∈ creds.*1)); [done|]. by apply Hk.
Qed.
Lemma scrubbed_trans cfg env1 env2 env3 : scrubbed cfg env1 env2 -> scrubbed cfg env2 env3 -> scrubbed cfg env1 env3.
Proof.
  intros [->|(c1 & E1 & H1)] [->|(c2 & E2 & H2)]; [by left|right; by exists c2|right; by exists c1|]. right. rewrite E1 in E2. injection E2 as <-. exists c1. split; [done|].
  intros k. rewrite H2, H1. by destruct (decide (k ∈ c1.*1)).
Qed.
Ltac ends Hs := intros [= <- _ _]; exact Hs.
(** However an issuance ends, when variables can be set, afterwards the environment
    holds none of the decrypted credentials and is otherwise as before. *)
Theorem credentials_not_left cfg i domains env fs env' states r :
  (forall k, is_fails i k = false) -> obtainLetsEncryptCert unmarshal cfg i domains env fs = (env', states, r) -> scrubbed cfg env env'.
Proof.
  intros Hf. unfold obtainLetsEncryptCert. destruct domains as [|d rest]; [intros [= <- _ _]; by left|].
  destruct (loadOrCreateAccountKey cfg i fs) as [st1 []]; [|intros [= <- _ _]; by left]. cbn [negb]. cbn zeta.
  destruct (is_client i); [|intros [= <- _ _]; by left]. cbn [negb].
  destruct (match ParseChallenge (Challenge cfg) with DNS01 => _ | _ => _ end) as [[env1 st2] err] eqn:E1.
  assert (scrubbed cfg env env1) as Hs1.
  { destruct (ParseChallenge (Challenge cfg)); [injection E1 as <- _ _; by left..|]. unfold ValidateDNSCredentials in E1.
    destruct (dnsProvider _ _ _ _ _) as [env0 e0] eqn:E0. injection E1 as <- _ _. by eapply dnsProvider_scrubs. }
  destruct err as [e|]; [ends Hs1|]. destruct (setChallengeProvider _ _ _ _) as [env2 err] eqn:E2.
  assert (scrubbed cfg env env2) as Hs2.
  { apply (scrubbed_trans _ _ _ _ Hs1). unfold setChallengeProvider in E2. destruct (ParseChallenge (Challenge cfg)); [injection E2 as <- _; by left..|].
    destruct (dnsProvider _ _ _ _ _) as [env3 e] eqn:E3. injection E2 as <- _. by eapply dnsProvider_scrubs. }
  destruct err as [e|]; [ends Hs2|]. destruct (register _ _ _ _) as [st3 []]; [|ends Hs2]. cbn [negb].
  destruct (store_pair _ _ _ _) as [st4 r4]. ends Hs2.
Qed.
End facts.

(** A host with certificates on disk: a file is its own certificate, a pair loads when
    the key is the certificate's, and certificates are for the host [h] until time 100. *)
Definition toy_cert (data : gostr) : certificate := mkCert (if data =s str "old" then 100 else 10000) (str "h") [] (fun n => n =s str "h").
Definition toy_load (c k : gostr) : option certificate := if c =s k then Some (toy_cert c) else None.
Definition toy_parse (c : gostr) : option (option certificate) := Some (Some (toy_cert c)).
Definition toy_ssl : ssl_config := mkSSL true (str "/etc/ipgaze/ssl") true (str "http-01") [] [] [].
Definition toy_issue_with (write_key : bool) : issue_env :=
  mkIssue true (fun _ => true) (fun _ => true) (Some (str "key")) Complete true (fun _ => false) (fun _ _ => true)
    (str "/etc/ipgaze/server.yml") (str "text") Complete true (fun _ => true) (Some (str "reg")) Complete (Some (str "new", str "new")) true true write_key.
Definition toy_issue : issue_env := toy_issue_with true.
Definition managed_pair : gostr * gostr := in_dir (managed_dir (CertPath toy_ssl)) (str "h") fullchain privkey.
Definition old_files : files := {[managed_pair.1 := str "old"; managed_pair.2 := str "old"]}.
Definition no_creds : gostr -> option (list (gostr * gostr)) := fun _ => None.
#[local] Existing Instance ascii_tables.
Definition toy_secret_cipher : SecretCipher := Build_SecretCipher (fun s i => s) (fun k n p => p) (fun k n p => Some p).
#[local] Existing Instance toy_secret_cipher.
Definition serves {E A B C} (r : A * B * result E (option C)) : bool := match r.2 with Ok (Some _) => true | _ => false end.
Lemma served_certificate_witness : exists env' fs' c,
  GetTLSConfig no_creds toy_load 50 toy_ssl toy_issue [str "h"] ∅ old_files = (env', fs', Ok (Some c)) /\ Enabled toy_ssl = true.
Proof.
  assert (serves (GetTLSConfig no_creds toy_load 50 toy_ssl toy_issue [str "h"] ∅ old_files) = true) as Hs by (vm_compute; reflexivity).
  destruct (GetTLSConfig no_creds toy_load 50 toy_ssl toy_issue [str "h"] ∅ old_files) as [[env' fs'] [[c|]|err]] eqn:E; [|discriminate Hs..].
  exists env', fs', c. split; [reflexivity|]. apply (served_certificate no_creds toy_load 50 toy_ssl toy_issue [str "h"] ∅ old_files _ _ _ E).
Defined.
Lemma renewal_guarded_witness :
  let '(_, states, err) := RenewIfExpiring no_creds toy_parse 50 toy_ssl toy_issue [str "h"] 7 ∅ old_files in
  length states = 6%nat /\ err = None /\ exists p cert, findCertByPriority old_files (CertPath toy_ssl) [str "h"] = Some p /\ appManaged toy_ssl p.1 = true /\ old_files !! p.1 ≫= toy_parse = Some (Some cert).
Proof.
  destruct (RenewIfExpiring no_creds toy_parse 50 toy_ssl toy_issue [str "h"] 7 ∅ old_files) as [[env' states] err] eqn:E.
  assert (length states = 6%nat /\ err = None) as [Hl He].
  { split; [apply (f_equal (fun x => length x.1.2)) in E|apply (f_equal snd) in E]; cbn [fst snd] in E; rewrite <- E; vm_compute; reflexivity. }
  split; [exact Hl|]. split; [exact He|].
  destruct (renewal_guarded no_creds toy_parse 50 toy_ssl toy_issue [str "h"] 7 ∅ old_files env' states err E) as [Hr _].
  destruct Hr as (_ & p & cert & Hp & Hm & Hc & _); [by intros ->|]. exists p, cert. by split_and!.
Defined.
(** Credentials for a provider. *)
Definition dns_ssl : ssl_config := mkSSL true (str "/etc/ipgaze/ssl") true (str "dns-01") (str "cloudflare") (str "AAAAAAAAAAAAAAAAeHg=") (str "a2V5").
Definition some_creds : gostr -> option (list (gostr * gostr)) := fun _ => Some [(str "CF_API_TOKEN", str "secret")].
Lemma credentials_not_left_witness :
  let '(env', _, _) := obtainLetsEncryptCert some_creds dns_ssl toy_issue [str "h"] ∅ old_files in
  decryptDNSCredentials some_creds dns_ssl = Ok [(str "CF_API_TOKEN", str "secret")] /\ scrubbed some_creds dns_ssl ∅ env'.
Proof.
  destruct (obtainLetsEncryptCert some_creds dns_ssl toy_issue [str "h"] ∅ old_files) as [[env' states] r] eqn:E. split; [vm_compute; reflexivity|].
  apply (credentials_not_left some_creds dns_ssl toy_issue [str "h"] ∅ old_files env' states r); [reflexivity|exact E].
Defined.

(** ** Where the code falls short of its comments *)

(** The certificate and its key are replaced one after the other: when the second
    replacement does not happen the pair no longer loads, and the next start fails
    although issuing is enabled. *)
Lemma half_replaced_pair :
  let '(_, states, r) := obtainLetsEncryptCert no_creds toy_ssl (toy_issue_with false) [str "h"] ∅ old_files in
  r = Err WriteFailed /\ (GetTLSConfig no_creds toy_load 50 toy_ssl toy_issue [str "h"] ∅ (after old_files states)).2 = Err LoadFailed.
Proof. vm_compute. split; reflexivity. Qed.
(** A variable that cannot be set leaves the credentials set before it behind. *)
Lemma failed_setenv_leaves_credentials :
  let creds : gostr -> option (list (gostr * gostr)) := fun _ => Some [(str "CF_API_TOKEN", str "secret"); ([], str "x")] in
  let '(env', r) := dnsProvider creds dns_ssl (fun k => k =s []) (fun _ _ => true) ∅ in
  r = Some SetenvFailed /\ env' !! str "CF_API_TOKEN" = Some (str "secret").
Proof. vm_compute. split; reflexivity. Qed.
(** A certificate that is found but expired hides a valid one of lower priority. *)
Lemma expired_certificate_hides_valid :
  let fs : files := <[str "/etc/ipgaze/ssl/local/h/cert.pem" := str "new"]> (<[str "/etc/ipgaze/ssl/local/h/key.pem" := str "new"]> old_files) in
  (GetTLSConfig no_creds toy_load 5000 (mkSSL true (str "/etc/ipgaze/ssl") false [] [] [] []) toy_issue [str "h"] ∅ fs).2 = Err NoCertificate.
Proof. vm_compute. reflexivity. Qed.

(** ** Challenges and names *)

(** The challenge handler answers exactly the tokens that are presented and not yet
    cleaned up, says not found for any other token, and leaves every other path to the
    server. *)
Theorem challenge_answers (steps : list (gostr * option gostr)) path :
  let ts := fold_left (fun ts (s : gostr * option gostr) => match s.2 with Some auth => Present s.1 auth ts | None => CleanUp s.1 ts end) steps ∅ in
  ServeChallenge ts path =
  if negb (HasPrefix path acmePrefix) then Passed
  else match last (filter (fun s => s.1 = TrimPrefix path acmePrefix) steps) with
       | Some (_, Some auth) => KeyAuthorization auth
       | _ => ChallengeNotFound
       end.
Proof.
  cbn zeta. unfold ServeChallenge. destruct (negb _); [done|]. set (token := TrimPrefix path acmePrefix).
  assert (forall ts, fold_left (fun ts (s : gostr * option gostr) => match s.2 with Some auth => Present s.1 auth ts | None => CleanUp s.1 ts end) steps ts !! token =
    match last (filter (fun s => s.1 = token) steps) with Some (_, o) => o | None => ts !! token end) as Hfold.
  { induction steps as [|[k o] steps IH]; intros ts; [done|]. cbn [fold_left fst snd]. rewrite IH. destruct (decide (k = token)) as [->|Hk].
    - rewrite filter_cons_True by done. rewrite last_cons. destruct (last _) as [[? ?]|]; [done|]. destruct o; unfold Present, CleanUp; by rewrite ?lookup_insert_eq, ?lookup_delete_eq.
    - rewrite filter_cons_False by done. destruct (last _) as [[? ?]|]; [done|]. destruct o; unfold Present, CleanUp; by rewrite ?lookup_insert_ne, ?lookup_delete_ne by done. }
  rewrite Hfold. destruct (last _) as [[? [|]]|]; done.
Qed.
Lemma add_hosts_spec hosts n :
  (forall d, d ∈ n_dns n -> d ∈ n_dns (add_hosts hosts n)) /\ (forall ip, ip ∈ n_ips n -> ip ∈ n_ips (add_hosts hosts n)) /\
  (forall h, h ∈ hosts -> h <> [] -> h <> str "localhost" -> match ParseIP h with Some ip => Some ip ∈ n_ips (add_hosts hosts n) | None => h ∈ n_dns (add_hosts hosts n) end).
Proof.
  revert n. induction hosts as [|h hosts IH]; intros n; cbn [add_hosts]; [split_and!; [done|done|by intros ? ?%not_elem_of_nil]|].
  destruct (ParseIP h) as [ip|] eqn:Eh.
  - destruct (IH (mkNames (n_dns n) (n_ips n ++ [Some ip]))) as (Hd & Hi & Hh). cbn in Hd, Hi. split_and!; [done| |].
    + intros ip' Hin. apply Hi, elem_of_app. by left.
    + intros h' [->|Hin]%elem_of_cons Hne Hl; [|by apply Hh]. rewrite Eh. apply Hi, elem_of_app. right. by left.
  - destruct ((h <>s []) && (h <>s str "localhost")) eqn:Ec.
    + destruct (IH (mkNames (n_dns n ++ [h]) (n_ips n))) as (Hd & Hi & Hh). cbn in Hd, Hi. split_and!; [|done|].
      * intros d Hin. apply Hd, elem_of_app. by left.
      * intros h' [->|Hin]%elem_of_cons Hne Hl; [|by apply Hh]. rewrite Eh. apply Hd, elem_of_app. right. by left.
    + destruct (IH n) as (Hd & Hi & Hh). split_and!; [done|done|]. intros h' [->|Hin]%elem_of_cons Hne Hl; [|by apply Hh].
      apply andb_false_iff in Ec as [Ec|Ec]; by apply negb_false_iff, bool_decide_eq_true in Ec.
Qed.
